(* ===== verification/_CoqProject ===== *)
-Q . S2P
Prelude.v
LkList.v
KState.v
KTimer.v
KThread.v
KSync.v
KQueues.v
KInv.v
KOps.v
KSafe.v
KTraces.v
Bytes.v
Crc32.v
Mmc.v
MmcDriver.v
MmcProto.v
MmcCard.v
MmcSim.v
Partition.v
PartitionWrite.v
Fastboot.v
BootTags.v
Aboot.v
AbootCmds.v
InitLexer.v
InitConfig.v
InitActions.v
InitProps.v
InitServices.v
InitLife.v
InitExample.v
Ueventd.v
UeventdDev.v
ArmMmu.v
NandDriver.v
NandSafe.v
NandChip.v
NandPages.v
NandWords.v
NandFlash.v
NandParts.v
NandWrite.v
NandSim.v
FlashBoot.v
FlashSpec.v
FlashNand.v
FlashPhone.v
Smem.v
