(* ===== verification/Prelude.v ===== *)
(** * Verification of the boot chain: Little Kernel, its boot loader, and Android init

    The sources hold the software that runs between power-on and the first Android
    process: the Little Kernel (src/bootable/lk: kernel, list library, partition parser,
    fastboot, the boot loader "aboot") and the first user process, init (src/init/init).
    LK starts (kernel/main.c), creates the thread "bootstrap2" under its scheduler and
    runs aboot in it; aboot finds its partitions on the eMMC card or NAND flash, then either
    loads, authenticates and starts the kernel of the "boot" or "recovery" partition, or
    serves fastboot commands, which read and write the same card and table.

    ** The parts and the files that model them

    The kernel (src/bootable/lk/kernel, include/kernel, include/list.h)
    - [LkList]: list.h, statement by statement on a heap of list nodes.
    - [KState]: the data of thread.c, mutex.c, event.c, timer.c and dpc.c.  Threads,
      objects and timers are identifiers; queues are sequences, as [LkList] justifies;
      the rest of a kernel function that a switched-out thread still has to execute is a
      value on its stack ([kstack]).
    - [KTimer], [KThread], [KSync]: the functions of timer.c; thread.c; mutex.c, event.c,
      dpc.c and the timer interrupt; and the kernel as a transition system whose steps
      are the calls of the running thread and timer interrupts.
    - [KQueues], [KInv], [KOps]: the invariant, and that each function keeps it, returns,
      and neither fails an assertion nor follows a dangling pointer.
    - [KSafe], [KTraces]: the theorems about reachable states, and concrete runs.

    Storage (src/bootable/lk/platform/msm_shared)
    - [Bytes]: byte buffers, little-endian accessors, C strings.
    - [Crc32]: reflect and calculate_crc32 of partition_parser.c, against the standard
      definition.
    - [Mmc]: the card as the boot loader sees it: mmc_read, mmc_write and the erase over
      the class [BlockDevice], one transfer at a time; [BlockStore] states what a working
      card promises and [ram_disk] is an instance.
    - [MmcDriver]: the whole of mmc.c, over the registers of the controller (class [Mci]):
      command engine, FIFO, identification of MMC and SD cards, transfers, erase and
      write protection.
    - [MmcProto]: the decoding of the card registers, and which commands the driver sends
      over any hardware.
    - [MmcCard]: the documented controller and card as a nondeterministic automaton
      (class [Conforms]), and the refinement of a block device.
    - [MmcSim]: an executable controller and card that conforms, and runs on it.
    - [ArmMmu]: the translation table of arch/arm/mmu.c that virt2phy looks up.
    - [NandDriver]: the whole of nand.c, over the registers of the data mover (class
      [Dmov]) and the memory that it shares with the driver: the command lists of NAND,
      interleaved and OneNAND flash, detection, bad blocks, partitions.
    - [NandSafe]: the driver over any hardware, every command list watched.
    - [NandChip]: the documented flash controller, its flash and the data mover, as
      weakest preconditions (class [Conforms]).
    - [NandPages], [NandWords], [NandFlash]: on it, the transfers and registers; the code
      words of a page; the page operations.
    - [NandParts], [NandWrite]: the contents of a partition ([holds]), reading at an
      offset, writing over bad blocks and failures, and reading back.
    - [NandSim]: an executable controller that conforms, and runs on it.
    - [Partition]: the reading half of partition_parser.c, its lookups and accessors.
    - [PartitionWrite]: its writing half (write_mbr, patch_gpt, write_gpt,
      write_partition).

    The boot loader (src/bootable/lk/app/aboot)
    - [Fastboot]: fastboot.c.  The USB controller is the list of its answers, which stands
      for a session of any length that is cut off at any point; the commands of the
      application are a parameter with the contract [AppContract], which speaks of the
      runs in which they return.
    - [BootTags]: boot_linux, which builds the ATAG list.
    - [Aboot]: device information, the eMMC recovery message and boot_linux_from_mmc.
    - [AbootCmds]: every eMMC command of fastboot and aboot_init; it discharges
      [AppContract], and has the theorems about sessions with these commands.
    - [FlashBoot]: the same for phones with NAND flash, over the class [FlashDevice]:
      boot_linux_from_flash, the device information, cmd_flash, cmd_erase, aboot_init,
      and the recovery message and radio update of recovery.c.
    - [FlashSpec]: the contract of the flash towards the loader ([FlashStore]) and what
      the loader does on it; [FlashNand]: the NAND driver keeps that contract;
      [FlashPhone]: a phone on the simulated controller.
    - [Smem]: shared memory and the tables in it (smem.c, smem_ptable.c), and what
      target/mdm9615 (init.c, atags.c) makes of them.

    Android init (src/init/init)
    - [InitLexer]: parser.c, the in-place tokenizer, and the loops that collect lines.
    - [InitConfig]: keywords.h, init_parser.c and the user names of util.c: the sections
      of .rc files fill the lists of services and actions.
    - [InitActions]: the queue of actions and execute_one_command; what a command does is
      the class [Commands], with the laws [CommandsOk] that the queue relies on.
    - [InitProps]: property_service.c and the kernel command line of init.c over bionic's
      property area (class [PropertyArea], laws [PropertyAreaOk]); [istate] is the state
      of init.
    - [InitServices]: services and commands (init.c, builtins.c, signal_handler.c,
      keychords.c) and the main loop; it discharges [CommandsOk].
    - [InitLife]: the life cycle of the services.
    - [InitExample]: instances of the interfaces, and a phone that is booted and run.
    - [Ueventd]: ueventd.c, ueventd_parser.c, devices.c and the path functions of util.c:
      the rules of ueventd.rc, the messages of the kernel and the nodes and links they
      make, over a file system of named entries.
    - [UeventdDev]: the theorems on devices and firmware, and an example.

    ** What the theorems show

    - Kernel: from the boot state every call within its contract and every interrupt runs
      to the end ([kernel_safe]); in all reachable states run queues, bitmap, wait queues
      and thread states agree ([reachable_scheduling]), sleepers have their timer queued
      ([reachable_sleepers]); thread_resched does what it would do with the linear search
      for the highest priority ([resched_is_scan], [highest_priority_runs]); timers stay
      sorted across the wrap-around of the clock ([timer_set_sorted]); any calls of the
      functions of list.h on linked, removed and cleared nodes refine sequences
      ([list_refines]).
    - Storage: the CRC is the standard one; reading any MBR, and any GPT with a sane
      header, is memory safe and ends; a patched GPT is valid; transfers cover exactly
      the requested bytes.
    - Card driver: on conforming hardware mmc_read and mmc_write end and have the effect
      and the answer of a disk in memory ([driver_refines_disk]).  Over any hardware, even
      a faulty one, the initialisation and the transfers send commands only in the states
      of the card protocol that admit them, nothing but CMD13 while the card programs, and
      report success in the transfer state, which after the initialisation the card itself
      has confirmed ([init_commands_legal], [transfer_commands_legal]).  UNPACK_BITS is
      the bit field of the 128-bit register ([unpack_bits_field]), the capacity is the one
      the specifications define ([csd_capacity]); an erase on a card of high capacity
      stays inside its range ([erase_range_inside]).
    - Flash driver: on conforming hardware an image that flash_write stored is what
      flash_read_ext returns, whichever blocks are bad and whichever pages fail
      ([flash_write_read]), and reading from an offset returns the pages that the good
      blocks hold from there on ([flash_read_contents]).  Over any hardware the command
      lists stay inside the controller and the objects of the driver
      ([flash_lists_safe]); those of interleaved mode do not ([interleaved_lists_unsafe]).
    - Loader on flash: what is flashed is what boots, down to the bytes at the load
      addresses ([flash_then_boot]); a request for recovery is honoured once
      ([recovery_once]).  Both are proved against [FlashStore], which [nand_store]
      discharges for the driver on conforming hardware.  The commands answer once
      ([flash_commands_protocol]); adapting the partition table keeps every partition in
      its place ([apps_partitions_kept]).
    - Boot loader: the fastboot loop serves any host: it ends with the link down, or in
      one of the commands, which may leave the loader or stop the machine, and never leaves
      the buffers of the engine ([fastboot_serves]); a known command answers once and by
      itself ([one_answer_per_command]), an unknown one is never answered
      ([unknown_command_unanswered]); the answers to erase: and flash: say what happened to
      the partition ([answers_tell_the_truth]); downloads stay inside their area; flashing
      a raw image writes nothing outside its partition; a sparse image has the effect of
      the image it stands for; the kernel started on a signed boot is the one whose
      signature was checked; the ATAG list is well formed.
    - init: the tokenizer reads what a reference lexer reads and never damages a word it
      has handed out ([tokens_in_place]), and files written in quotes are read back
      ([render_roundtrip]); configurations load into well-formed lists ([config_loads])
      and actions are read back ([actions_roundtrip]).  Over every run of the main loop:
      commands run in the order of their queue ([commands_in_order]), ro. properties keep
      their values ([ro_properties_fixed]), clients that the tables do not name change
      nothing ([ordinary_clients_powerless]), the flags of the services are consistent
      with their processes ([services_consistent]), and a service that died is restarted
      or the loop wakes up in time to do so ([waiting_service_restarts]).
    - ueventd: the rules that the lines of a file mean are loaded in its order
      ([ueventd_rules_load]); a device gets the permissions of the last rule that matches,
      and removing it undoes what adding it made ([device_add_remove]); messages and the
      paths made of them stay within their buffers ([device_messages_safe]).
    - Departures of the code from its intent are stated as theorems or examples next to
      the component ([KTraces], [PartitionWrite], [Aboot.Phone],
      [AbootCmds.PhoneFastboot] and the init files): a timeout that leaks the critical
      section, the unanswered unknown command, the update-radio message that is not
      cleared, size checks that wrap, and others.

    ** Conventions, bounds and fuel

    Machine integers are [Z] with explicit wrap-around ([u8], [u32], [u64], [s32]); the
    processor is 32-bit ARM.  [res] is the outcome of code that can stop the machine:
    [Ok], [Panic] for a failed ASSERT or panic, [Fault] for an access outside the memory
    the code owns (which C leaves undefined).  Running out of fuel is [Fault] too, so a
    theorem that an operation returns [Ok] includes that its loops end within the fuel:
    - the loops of the scheduler and the timers run on the length of the queue at hand;
    - mmc_write splits a 32-bit length into transfers of 16 MB, at most 257;
    - the EBR chain holds at most NUM_PARTITIONS entries (32); the outer GPT loop reads
      each block of the table once, 64 rounds cover what a sane header can ask for;
    - the fastboot loop makes progress by consuming an answer of the controller, so its
      fuel is the number of answers and two.
    - the polling loops of the card driver take [polls] rounds at most and then [Spin]: C
      would poll on.  A conforming controller finishes each activity within [slack] polls,
      and [polls] above the bound stated in [driver_refines_disk] is enough for it.
    - the loops of the flash driver over pages and blocks move forward, so the pages that
      are left bound them; its polls are bounded like those of the card driver.
    - the loops of [Smem] over a table run on its size and one more; reading behind the
      table is [Fault] before the fuel is used up.
    These bounds are proved sufficient where an operation is shown to return.

    ** Not modelled

    - Hardware access: controllers (USB, display, clocks, interrupts), the MMU beyond its
      table and caches, assembly.  What the modelled code asks of them is a class
      ([BlockDevice], [Mci], [Dmov]) or a record of answers ([target], [machine]).
    - Of the card: MMC_BOOT_ADM builds (the data mover), what an erase or a write
      protection does to the stored bytes, and, in [MmcCard], cards during identification
      (the driver's part of it is modelled and shown to send legal commands).
    - Of the flash: what OneNAND and interleaved devices store (their command lists are
      modelled), erases that fail on a block that is not marked, the modem layout.
    - The flash partition library (lib/ptable) is not in the sources: its functions are
      parameters ([ptable_find], [ptable_lib]).  Of the loader on flash: splash_screen,
      USE_PCOM_SECBOOT, and what file system images with spare bytes of their own store.
    - Image authentication (RSA and hashing rest on code outside the sources): the
      verdict of image_verify is a parameter.
    - SSD_ENABLE builds, the tamper-fuse hooks of single targets, and overlap of the load
      addresses with the loader's own memory (loads are recorded in order).
    - thread_stats, thread-local storage, the magic numbers of threads and timers, console
      output and DEBUG dumps.  The counters of
      critical sections, mutexes and wait queues are unbounded integers.
    - The rest of init: the code of a child between fork and execve, the bodies of
      commands that only make system calls (mount, mkdir, chown and the like),
      sockets, the cold boot of ueventd and its search for firmware files, boot charts,
      logos, ALLOW_LOCAL_PROP_OVERRIDE and BOOTCHART builds.  The answers of the system
      ([platform]) stay the same over a run, and a property value that does not fit its
      buffer leaves setprop and powerctl without effect.
    - The Java and C++ of the Android framework and the excerpts of a Linux kernel. *)
From Stdlib Require Import ZArith.
From stdpp Require Import base numbers list gmap.

#[global] Open Scope Z_scope.

(** * Machine integers: a [w]-bit integer is a [Z] with its wrap-around written out. *)

Declare Scope lk_scope.
Delimit Scope lk_scope with lk.

Definition u8 (z : Z) : Z := z mod 2 ^ 8.
Definition u32 (z : Z) : Z := z mod 2 ^ 32.
Definition u64 (z : Z) : Z := z mod 2 ^ 64.
(** Two's complement reading of a 32-bit pattern ([int], [long] on 32-bit ARM). *)
Definition s32 (z : Z) : Z := (z + 2 ^ 31) mod 2 ^ 32 - 2 ^ 31.

(** * The outcome of code that can stop the machine. *)

Inductive res (A : Type) : Type :=
  | Ok (a : A)          (* the code ran to its end *)
  | Panic               (* panic() or a failed ASSERT *)
  | Fault.              (* undefined behaviour: NULL or dangling pointer, bad index *)
Arguments Ok {_} _.
Arguments Panic {_}.
Arguments Fault {_}.

#[global] Instance res_bind : MBind res := λ A B f m,
  match m with Ok a => f a | Panic => Panic | Fault => Fault end.
#[global] Instance res_ret : MRet res := λ A a, Ok a.

(** [ASSERT(b)]: panic when the condition is false. *)
Definition ASSERT (b : bool) : res unit := if b then Ok tt else Panic.
(** Dereference: a missing object is undefined behaviour. *)
Definition deref {A} (o : option A) : res A :=
  match o with Some a => Ok a | None => Fault end.

Lemma res_bind_ok {A B} (m : res A) (f : A → res B) b :
  (x ← m; f x) = Ok b ↔ ∃ a, m = Ok a ∧ f a = Ok b.
Proof. destruct m; cbn; naive_solver. Qed.

Lemma deref_ok {A} (o : option A) a : deref o = Ok a ↔ o = Some a.
Proof. destruct o; cbn; naive_solver. Qed.

Lemma ASSERT_ok b u : ASSERT b = Ok u ↔ b = true.
Proof. destruct b, u; cbn; naive_solver. Qed.

(** * Integer lemmas *)

Lemma u32_range z : 0 ≤ u32 z < 2 ^ 32.
Proof. apply Z.mod_pos_bound. lia. Qed.
Lemma u32_small z : 0 ≤ z < 2 ^ 32 → u32 z = z.
Proof. apply Z.mod_small. Qed.
Lemma s32_small z : - 2 ^ 31 ≤ z < 2 ^ 31 → s32 z = z.
Proof. intros. unfold s32. rewrite Z.mod_small; lia. Qed.
Lemma s32_u32 z : s32 (u32 z) = s32 z.
Proof. unfold s32, u32. by rewrite Zplus_mod_idemp_l. Qed.

(** * Bits of a 32-bit mask *)

Lemma u32_bit p : 0 ≤ p < 32 → u32 (Z.shiftl 1 p) = 2 ^ p.
Proof.
  intros. rewrite Z.shiftl_1_l. apply u32_small. split; [lia|]. apply Z.pow_lt_mono_r; lia.
Qed.

Lemma bit_set_spec bm p k :
  0 ≤ p < 32 → 0 ≤ k →
  Z.testbit (Z.lor bm (u32 (Z.shiftl 1 p))) k = Z.testbit bm k || (k =? p).
Proof.
  intros. rewrite u32_bit, Z.lor_spec by done. f_equal.
  destruct (Z.eqb_spec k p) as [->|]; [apply Z.pow2_bits_true; lia|apply Z.pow2_bits_false; lia].
Qed.

Lemma bit_clear_spec bm p k :
  0 ≤ p → 0 ≤ k →
  Z.testbit (Z.land bm (Z.lnot (Z.shiftl 1 p))) k = Z.testbit bm k && negb (k =? p).
Proof.
  intros. rewrite Z.land_spec, Z.lnot_spec, Z.shiftl_1_l by done. do 2 f_equal.
  destruct (Z.eqb_spec k p) as [->|]; [apply Z.pow2_bits_true; lia|apply Z.pow2_bits_false; lia].
Qed.

Lemma bits_above_32 n l : 0 ≤ n < 2 ^ 32 → 32 ≤ l → Z.testbit n l = false.
Proof. intros Hn. apply (Z.bounded_iff_bits_nonneg' 32 n); lia. Qed.

Lemma bit_set_range bm p :
  0 ≤ bm < 2 ^ 32 → 0 ≤ p < 32 → 0 ≤ Z.lor bm (u32 (Z.shiftl 1 p)) < 2 ^ 32.
Proof.
  intros Hb Hp. assert (0 ≤ Z.lor bm (u32 (Z.shiftl 1 p))).
  { apply Z.lor_nonneg. pose proof (u32_range (Z.shiftl 1 p)). lia. }
  apply Z.bounded_iff_bits_nonneg'; [lia..|]. intros l Hl. rewrite bit_set_spec by lia.
  rewrite bits_above_32 by done. cbn. apply Z.eqb_neq. lia.
Qed.

Lemma bit_clear_range bm p :
  0 ≤ bm < 2 ^ 32 → 0 ≤ p → 0 ≤ Z.land bm (Z.lnot (Z.shiftl 1 p)) < 2 ^ 32.
Proof.
  intros Hb Hp. assert (0 ≤ Z.land bm (Z.lnot (Z.shiftl 1 p))) by (apply Z.land_nonneg; lia).
  apply Z.bounded_iff_bits_nonneg'; [lia..|]. intros l Hl. rewrite bit_clear_spec by lia.
  by rewrite bits_above_32 by done.
Qed.

(** * Removing one element of a duplicate-free list *)

Section RemoveOne.
Context {A : Type} `{EqDecision A}.
Implicit Types (x i : A) (xs ys : list A).

Lemma filter_ne_id i xs : i ∉ xs → filter (λ y, y ≠ i) xs = xs.
Proof.
  induction xs as [|x xs IH]; intros Hx; [done|].
  rewrite filter_cons_True by set_solver. by rewrite IH by set_solver.
Qed.

Lemma filter_ne_split i xs ys :
  i ∉ xs → i ∉ ys → filter (λ y, y ≠ i) (xs ++ i :: ys) = xs ++ ys.
Proof.
  intros. rewrite filter_app, filter_cons_False by auto. by rewrite !filter_ne_id.
Qed.

Lemma nodup_split i xs : NoDup xs → i ∈ xs → ∃ ys zs, xs = ys ++ i :: zs ∧ i ∉ ys ∧ i ∉ zs.
Proof.
  intros Hnd Hi. apply list_elem_of_split in Hi as (ys & zs & ->). exists ys, zs.
  split; [done|]. apply NoDup_app in Hnd as (_ & Hd & [? _]%NoDup_cons). set_solver.
Qed.

Lemma length_filter_ne i xs :
  NoDup xs → i ∈ xs → length xs = S (length (filter (λ y, y ≠ i) xs)).
Proof.
  intros Hnd Hi. destruct (nodup_split i xs Hnd Hi) as (ys & zs & -> & ? & ?).
  rewrite filter_ne_split, !length_app by done. cbn. lia.
Qed.

Lemma elem_of_filter_ne i x xs : x ∈ filter (λ y, y ≠ i) xs ↔ x ≠ i ∧ x ∈ xs.
Proof. by rewrite list_elem_of_filter. Qed.
End RemoveOne.
