(* ===== verification/LkList.v ===== *)
(** The intrusive doubly linked list of the kernel (src/bootable/lk/include/list.h).

    The heap maps the address of a [struct list_node] to its two pointers;
    every function is translated statement by statement, each statement a load
    or a store on that heap, and a load or a store through an address that is
    not a node is [Fault].  [dlist h l xs] says that the ring anchored at [l]
    holds the nodes [xs] in order; the lemmas show that each function acts on
    [xs] the way its name says, and [list_refines] that any sequence of calls
    behaves like the same sequence of operations on a plain list. *)
From stdpp Require Import base numbers list gmap.
From S2P Require Import Prelude.

(** * The heap of list nodes *)

Record list_node := Node { prev : Z; next : Z }.

#[global] Instance list_node_eq_dec : EqDecision list_node.
Proof. solve_decision. Defined.

Abbreviation heap := (gmap Z list_node).
Abbreviation NULL := 0%Z.

Definition ld_prev (h : heap) (a : Z) : res Z := n ← deref (h !! a); Ok (prev n).
Definition ld_next (h : heap) (a : Z) : res Z := n ← deref (h !! a); Ok (next n).
Definition st_prev (h : heap) (a v : Z) : res heap :=
  n ← deref (h !! a); Ok (<[a := Node v (next n)]> h).
Definition st_next (h : heap) (a v : Z) : res heap :=
  n ← deref (h !! a); Ok (<[a := Node (prev n) v]> h).

(** * The functions of list.h *)

(** [list->prev = list->next = list;] *)
Definition list_initialize (list : Z) (h : heap) : res heap :=
  h ← st_next h list list;
  st_prev h list list.

(** [item->prev = item->next = 0;] *)
Definition list_clear_node (item : Z) (h : heap) : res heap :=
  h ← st_next h item NULL;
  st_prev h item NULL.

Definition list_in_list (item : Z) (h : heap) : res bool :=
  p ← ld_prev h item;
  if p =? NULL
  then n ← ld_next h item; Ok (if n =? NULL then false else true)
  else Ok true.

Definition list_add_head (list item : Z) (h : heap) : res heap :=
  n ← ld_next h list;
  h ← st_next h item n;
  h ← st_prev h item list;
  n ← ld_next h list;
  h ← st_prev h n item;
  st_next h list item.

Definition list_add_after := list_add_head.

Definition list_add_tail (list item : Z) (h : heap) : res heap :=
  p ← ld_prev h list;
  h ← st_prev h item p;
  h ← st_next h item list;
  p ← ld_prev h list;
  h ← st_next h p item;
  st_prev h list item.

Definition list_add_before := list_add_tail.

Definition list_delete (item : Z) (h : heap) : res heap :=
  n ← ld_next h item;
  p ← ld_prev h item;
  h ← st_prev h n p;
  p ← ld_prev h item;
  n ← ld_next h item;
  h ← st_next h p n;
  h ← st_next h item NULL;
  st_prev h item NULL.

Definition list_remove_head (list : Z) (h : heap) : res (option Z * heap) :=
  n ← ld_next h list;
  if n =? list then Ok (None, h)
  else h ← list_delete n h; Ok (Some n, h).

Definition list_remove_tail (list : Z) (h : heap) : res (option Z * heap) :=
  p ← ld_prev h list;
  if p =? list then Ok (None, h)
  else h ← list_delete p h; Ok (Some p, h).

Definition list_peek_head (list : Z) (h : heap) : res (option Z) :=
  n ← ld_next h list; Ok (if n =? list then None else Some n).

Definition list_peek_tail (list : Z) (h : heap) : res (option Z) :=
  p ← ld_prev h list; Ok (if p =? list then None else Some p).

Definition list_prev (list item : Z) (h : heap) : res (option Z) :=
  p ← ld_prev h item; Ok (if p =? list then None else Some p).

Definition list_next (list item : Z) (h : heap) : res (option Z) :=
  n ← ld_next h item; Ok (if n =? list then None else Some n).

Definition list_prev_wrap (list item : Z) (h : heap) : res (option Z) :=
  p ← ld_prev h item;
  if p =? list
  then pp ← ld_prev h p; Ok (if pp =? list then None else Some pp)
  else Ok (Some p).

Definition list_next_wrap (list item : Z) (h : heap) : res (option Z) :=
  n ← ld_next h item;
  if n =? list
  then nn ← ld_next h n; Ok (if nn =? list then None else Some nn)
  else Ok (Some n).

Definition list_is_empty (list : Z) (h : heap) : res bool :=
  n ← ld_next h list; Ok (if n =? list then true else false).

(** [list_for_every(list, node)]: the nodes visited, from [node] on.  The C loop
    has no bound; [fuel] bounds the iterations and running out is [Fault], so
    [list_for_every_visits] below also shows that the loop ends. *)
Fixpoint list_for_every_from (fuel : nat) (lst node : Z) (h : heap) : res (list Z) :=
  match fuel with
  | O => Fault
  | S fuel =>
      if node =? lst then Ok []
      else n ← ld_next h node;
           r ← list_for_every_from fuel lst n h;
           Ok (node :: r)
  end.

Definition list_for_every (fuel : nat) (lst : Z) (h : heap) : res (list Z) :=
  n ← ld_next h lst; list_for_every_from fuel lst n h.

(** [list_for_every_safe(list, node, temp)] with a body that deletes [node]
    from the list when [p node]: the successor is read before the body runs. *)
Fixpoint list_for_every_safe_from (fuel : nat) (p : Z → bool) (lst node temp : Z) (h : heap)
    : res heap :=
  match fuel with
  | O => Fault
  | S fuel =>
      if node =? lst then Ok h
      else h ← (if p node then list_delete node h else Ok h);
           t ← ld_next h temp;
           list_for_every_safe_from fuel p lst temp t h
  end.

Definition list_delete_matching (fuel : nat) (p : Z → bool) (lst : Z) (h : heap) : res heap :=
  n ← ld_next h lst;
  t ← ld_next h n;
  list_for_every_safe_from fuel p lst n t h.

(** * What a ring of nodes stores *)

(** [linked h a xs z]: following [next] from [a] visits [xs] and then [z], and
    the [prev] pointers lead back. *)
Fixpoint linked (h : heap) (a : Z) (xs : list Z) (z : Z) : Prop :=
  match xs with
  | [] => next <$> h !! a = Some z ∧ prev <$> h !! z = Some a
  | x :: xs => next <$> h !! a = Some x ∧ prev <$> h !! x = Some a ∧ linked h x xs z
  end.

(** The ring with sentinel [l] holding the nodes [xs]. *)
Definition dlist (h : heap) (l : Z) (xs : list Z) : Prop :=
  linked h l xs l ∧ NoDup (l :: xs) ∧ NULL ∉ l :: xs.

Lemma linked_app h a xs y ys z :
  linked h a (xs ++ y :: ys) z ↔ linked h a xs y ∧ linked h y ys z.
Proof. revert a. induction xs as [|x xs IH]; intros a; cbn; [naive_solver|]. rewrite IH. tauto. Qed.

Lemma linked_ext h h' a xs z :
  (∀ x, x ∈ a :: xs → next <$> h' !! x = next <$> h !! x) →
  (∀ x, x ∈ xs ++ [z] → prev <$> h' !! x = prev <$> h !! x) →
  linked h a xs z → linked h' a xs z.
Proof.
  revert a. induction xs as [|x xs IH]; intros a Hn Hp; cbn.
  - rewrite (Hn a), (Hp z) by set_solver. done.
  - rewrite (Hn a), (Hp x) by set_solver. intros (?&?&?). split_and!; [done..|].
    apply IH; [set_solver..|done].
Qed.

(** Any node of the ring can be taken as its sentinel. *)
Lemma dlist_rotate h l xs e ys : dlist h l (xs ++ e :: ys) → dlist h e (ys ++ l :: xs).
Proof.
  intros (Hl & Hnd & H0). apply linked_app in Hl as [H1 H2]. split_and!.
  - apply linked_app. done.
  - assert (l :: xs ++ e :: ys ≡ₚ e :: ys ++ l :: xs) as <-; [|done].
    apply (Permutation_app_comm (l :: xs) (e :: ys)).
  - set_solver.
Qed.

(** A list is untouched by changes to other nodes. *)
Lemma dlist_frame h h' l xs :
  (∀ a, a ∈ l :: xs → h' !! a = h !! a) → dlist h l xs → dlist h' l xs.
Proof.
  intros Hf (Hl & Hnd & H0). split_and!; [|done..].
  eapply linked_ext; [| |exact Hl]; intros x Hx; rewrite Hf; set_solver.
Qed.

(** * Each function on a ring *)

Create HintDb lk_list.

Ltac heap_unfold :=
  unfold list_add_head, list_add_tail, list_delete, list_remove_head, list_remove_tail,
    list_peek_head, list_peek_tail, list_prev, list_next, list_prev_wrap, list_next_wrap,
    list_is_empty, list_in_list, list_initialize, list_clear_node,
    ld_prev, ld_next, st_prev, st_next.

(** Destruct the nodes whose pointers the hypotheses give. *)
Ltac heap_nodes :=
  repeat match goal with
  | H : prev <$> ?h !! ?a = Some _ |- _ =>
      let p := fresh "p" in let n := fresh "n" in let E := fresh "E" in
      destruct (h !! a) as [[p n]|] eqn:E; [|discriminate]; cbn in *
  | H : next <$> ?h !! ?a = Some _ |- _ =>
      let p := fresh "p" in let n := fresh "n" in let E := fresh "E" in
      destruct (h !! a) as [[p n]|] eqn:E; [|discriminate]; cbn in *
  | H : Some _ = Some _ |- _ => injection H as H; subst
  end.

(** Run the loads and stores on the heap. *)
Ltac heap_run := heap_unfold; cbn; repeat (progress (simplify_map_eq; cbn)).

Lemma dlist_nil_inv h l : dlist h l [] → h !! l = Some (Node l l).
Proof. intros ((? & ?) & _). by heap_nodes. Qed.

Lemma dlist_lookup h l xs a : dlist h l xs → a ∈ l :: xs → is_Some (h !! a).
Proof.
  intros (Hl & _ & _) Ha. revert Hl. generalize l at 2. intros z Hl. revert l Hl Ha.
  induction xs as [|x xs IH]; cbn; intros l Hl Ha.
  - destruct Hl as [Hl _]. assert (a = l) as -> by set_solver. by destruct (h !! l).
  - destruct Hl as (Hl & _ & Hx). apply elem_of_cons in Ha as [->|Ha]; [by destruct (h !! l)|].
    by eapply IH.
Qed.

Definition frame (h h' : heap) (touched : list Z) : Prop :=
  dom h' = dom h ∧ ∀ a, a ∉ touched → h' !! a = h !! a.

Lemma frame_is_Some h h' ts a : frame h h' ts → is_Some (h' !! a) ↔ is_Some (h !! a).
Proof. intros [Hd _]. by rewrite <- !elem_of_dom, Hd. Qed.

Lemma list_initialize_spec h l :
  l ≠ NULL → is_Some (h !! l) →
  ∃ h', list_initialize l h = Ok h' ∧ dlist h' l [] ∧ frame h h' [l].
Proof.
  intros H0 [[p n] Hl]. eexists. split; [heap_run; reflexivity|]. split.
  - split_and!; [by cbn; simplify_map_eq|apply NoDup_singleton|set_solver].
  - split; [rewrite !dom_insert_L; apply elem_of_dom_2 in Hl; set_solver|].
    intros a Ha. by rewrite !lookup_insert_ne by set_solver.
Qed.

Lemma list_add_head_spec h l xs item :
  dlist h l xs → item ∉ l :: xs → item ≠ NULL → is_Some (h !! item) →
  ∃ h', list_add_head l item h = Ok h' ∧ dlist h' l (item :: xs) ∧ frame h h' (item :: l :: xs).
Proof.
  intros (Hl & Hnd & H0) Hi Hi0 [[ip inx] Hitem].
  assert (item ≠ l) by set_solver.
  assert (NoDup (l :: item :: xs) ∧ NULL ∉ l :: item :: xs) as [Hnd' H0'].
  { apply NoDup_cons in Hnd as [? ?]. split; [|set_solver].
    apply NoDup_cons; split; [set_solver|]. apply NoDup_cons; split; [set_solver|done]. }
  destruct xs as [|x xs].
  - destruct Hl as [Hn Hp]. heap_nodes. eexists. split; [heap_run; reflexivity|]. split.
    + split_and!; [by cbn; simplify_map_eq|done..].
    + split; [rewrite !dom_insert_L; apply elem_of_dom_2 in E, Hitem; set_solver|].
      intros a Ha. by rewrite !lookup_insert_ne by set_solver.
  - destruct Hl as (Hn & Hp & Hl). assert (x ≠ l) by (apply NoDup_cons in Hnd as [? _]; set_solver).
    assert (x ≠ item) by set_solver. heap_nodes. eexists. split; [heap_run; reflexivity|]. split.
    + split_and!; [|done..]. cbn. simplify_map_eq. split_and!; [done..|].
      apply NoDup_cons in Hnd as [? [? ?]%NoDup_cons].
      eapply linked_ext; [| |exact Hl]; intros y Hy; rewrite !lookup_insert;
        repeat case_decide; subst; simplify_map_eq; set_solver.
    + split; [rewrite !dom_insert_L; apply elem_of_dom_2 in E, E0, Hitem; set_solver|].
      intros a Ha. by rewrite !lookup_insert_ne by set_solver.
Qed.

(** Appending at the tail is inserting after the last node. *)
Lemma list_add_tail_head h l q item :
  next <$> h !! q = Some l → prev <$> h !! l = Some q →
  item ≠ l → item ≠ q → is_Some (h !! item) →
  list_add_tail l item h = list_add_head q item h.
Proof.
  intros Hq Hl ? ? [[ip inx] Hitem]. destruct (decide (l = q)) as [->|Hne]; heap_nodes; heap_run.
  - f_equal. by rewrite !insert_insert_eq.
  - f_equal. rewrite (insert_insert_ne _ l q) by done. by rewrite !insert_insert_eq.
Qed.

(** The predecessor of the sentinel: the last node, or the sentinel itself. *)
Lemma dlist_last h l xs :
  dlist h l xs → ∃ q, dlist h q (match xs with [] => [] | _ => l :: removelast xs end) ∧
    q = List.last xs l ∧ next <$> h !! q = Some l ∧ prev <$> h !! l = Some q.
Proof.
  intros Hd. destruct (decide (xs = [])) as [->|Hne].
  - exists l. split_and!; [done..| |]; apply dlist_nil_inv in Hd; by rewrite Hd.
  - destruct (exists_last Hne) as (ys & q & ->). exists q.
    rewrite removelast_last, last_last. destruct (ys ++ [q]) eqn:E; [by destruct ys|].
    rewrite <- E in Hd. pose proof (dlist_rotate _ _ _ _ _ Hd) as Hr. split_and!; [done..| |].
    + destruct Hr as [Hr _]. by destruct Hr.
    + destruct Hr as [Hr _]. by destruct Hr as (_ & ? & _).
Qed.

Lemma list_add_tail_spec h l xs item :
  dlist h l xs → item ∉ l :: xs → item ≠ NULL → is_Some (h !! item) →
  ∃ h', list_add_tail l item h = Ok h' ∧ dlist h' l (xs ++ [item]) ∧ frame h h' (item :: l :: xs).
Proof.
  intros Hd Hi Hi0 Hitem. destruct (decide (xs = [])) as [->|Hne].
  - destruct (list_add_head_spec h l [] item) as (h' & Hop & Hd' & Hf); [done..|].
    exists h'. split_and!; [|done..]. pose proof (dlist_nil_inv _ _ Hd) as E.
    rewrite <- Hop. apply list_add_tail_head; [by rewrite E..|set_solver|set_solver|done].
  - destruct (exists_last Hne) as (ys & q & ->). pose proof (dlist_rotate _ _ _ _ _ Hd) as Hr. cbn in Hr.
    destruct (list_add_head_spec h q (l :: ys) item) as (h' & Hop & Hd' & Hdom & Hf); [done|set_solver|done..|].
    exists h'. split_and!.
    + rewrite <- Hop. destruct Hr as ((Hn & Hp & _) & _).
      apply list_add_tail_head; [done..|set_solver|set_solver|done].
    + pose proof (dlist_rotate h' q [item] l ys Hd') as H. by rewrite <- app_assoc.
    + split; [done|]. intros a Ha. apply Hf. set_solver.
Qed.

(** Insertion before an entry in the middle ([list_add_before]). *)
Lemma list_add_before_spec h l xs e ys item :
  dlist h l (xs ++ e :: ys) → item ∉ l :: xs ++ e :: ys → item ≠ NULL → is_Some (h !! item) →
  ∃ h', list_add_before e item h = Ok h' ∧ dlist h' l (xs ++ item :: e :: ys)
        ∧ frame h h' (item :: l :: xs ++ e :: ys).
Proof.
  intros Hd Hi Hi0 Hitem. pose proof (dlist_rotate _ _ _ _ _ Hd) as Hr.
  destruct (list_add_tail_spec h e (ys ++ l :: xs) item) as (h' & Hop & Hd' & Hdom & Hf);
    [done|set_solver|done..|].
  exists h'. split_and!; [done| |split; [done|intros a Ha; apply Hf; set_solver]].
  rewrite <- app_assoc in Hd'. cbn in Hd'. apply dlist_rotate in Hd'. by rewrite <- app_assoc in Hd'.
Qed.

Lemma list_delete_head h l x xs :
  dlist h l (x :: xs) →
  ∃ h', list_delete x h = Ok h' ∧ dlist h' l xs ∧ h' !! x = Some (Node NULL NULL)
        ∧ frame h h' (l :: x :: xs).
Proof.
  intros ((Hn & Hp & Hl) & Hnd & H0).
  pose proof Hnd as [Hlx Hnd']%NoDup_cons. pose proof Hnd' as [Hx Hxs]%NoDup_cons.
  assert (l ≠ x) by set_solver. assert (NoDup (l :: xs)) by (apply NoDup_cons; set_solver).
  destruct xs as [|y ys].
  - destruct Hl as [Hn' Hp']. heap_nodes. eexists. split; [heap_run; reflexivity|]. split_and!.
    + split_and!; [by cbn; simplify_map_eq|done|set_solver].
    + by simplify_map_eq.
    + split; [rewrite !dom_insert_L; apply elem_of_dom_2 in E, E0; set_solver|].
      intros a Ha. by rewrite !lookup_insert_ne by set_solver.
  - destruct Hl as (Hn' & Hp' & Hl). assert (y ≠ l ∧ y ≠ x) as [??] by set_solver.
    heap_nodes. eexists. split; [heap_run; reflexivity|]. split_and!.
    + split_and!; [|done|set_solver]. cbn. simplify_map_eq. split_and!; [done..|].
      apply NoDup_cons in Hxs as [? ?].
      eapply linked_ext; [| |exact Hl]; intros z Hz; rewrite !lookup_insert;
        repeat case_decide; subst; simplify_map_eq; set_solver.
    + by simplify_map_eq.
    + split; [rewrite !dom_insert_L; apply elem_of_dom_2 in E, E0, E1; set_solver|].
      intros a Ha. by rewrite !lookup_insert_ne by set_solver.
Qed.

Lemma list_delete_spec h l xs x ys :
  dlist h l (xs ++ x :: ys) →
  ∃ h', list_delete x h = Ok h' ∧ dlist h' l (xs ++ ys) ∧ h' !! x = Some (Node NULL NULL)
        ∧ frame h h' (l :: xs ++ x :: ys).
Proof.
  intros Hd. destruct (decide (xs = [])) as [->|Hne]; [by apply list_delete_head|].
  destruct (exists_last Hne) as (zs & q & ->). rewrite <- app_assoc in Hd. cbn in Hd.
  pose proof (dlist_rotate _ _ _ _ _ Hd) as Hr. cbn in Hr.
  destruct (list_delete_head h q x (ys ++ l :: zs) Hr) as (h' & Hop & Hd' & Hx & Hdom & Hf).
  exists h'. split_and!; [done| |done|split; [done|intros a Ha; apply Hf; set_solver]].
  apply dlist_rotate in Hd'. by rewrite <- app_assoc.
Qed.

Lemma dlist_next_head h l xs : dlist h l xs → ld_next h l = Ok (List.hd l xs).
Proof. intros [Hl _]. unfold ld_next. destruct xs; destruct Hl as [Hn _]; by heap_nodes. Qed.

Lemma dlist_prev_last h l xs : dlist h l xs → ld_prev h l = Ok (List.last xs l).
Proof.
  intros Hd. unfold ld_prev. destruct (dlist_last _ _ _ Hd) as (q & _ & <- & _ & Hp).
  by heap_nodes.
Qed.

(** Reading a neighbour through the sentinel: [None] at the end of the list. *)
Lemma dlist_next_in h l xs a ys :
  dlist h l (xs ++ a :: ys) → ld_next h a = Ok (List.hd l ys).
Proof.
  intros Hd%dlist_rotate. rewrite (dlist_next_head _ _ _ Hd). by destruct ys.
Qed.

Lemma dlist_prev_in h l xs a ys :
  dlist h l (xs ++ a :: ys) → ld_prev h a = Ok (List.last xs l).
Proof.
  intros Hd%dlist_rotate. rewrite (dlist_prev_last _ _ _ Hd). f_equal.
  destruct (decide (xs = [])) as [->|Hne]; [apply last_last|].
  destruct (exists_last Hne) as (zs & q & ->).
  by rewrite app_comm_cons, app_assoc, !last_last.
Qed.

Lemma hd_eqb l xs : l ∉ xs → (if List.hd l xs =? l then None else Some (List.hd l xs)) = head xs.
Proof.
  destruct xs as [|x xs]; cbn; intros; [by rewrite Z.eqb_refl|].
  by rewrite (proj2 (Z.eqb_neq x l)) by set_solver.
Qed.

Lemma last_eqb l xs : l ∉ xs → (if List.last xs l =? l then None else Some (List.last xs l)) = last xs.
Proof.
  intros Hl. destruct (decide (xs = [])) as [->|Hne]; [cbn; by rewrite Z.eqb_refl|].
  destruct (exists_last Hne) as (ys & y & ->). rewrite last_last, last_snoc.
  by rewrite (proj2 (Z.eqb_neq y l)) by set_solver.
Qed.

Lemma dlist_sentinel h l xs : dlist h l xs → l ∉ xs.
Proof. intros (_ & [? _]%NoDup_cons & _). done. Qed.

Lemma list_peek_head_spec h l xs : dlist h l xs → list_peek_head l h = Ok (head xs).
Proof.
  intros Hd. unfold list_peek_head. rewrite (dlist_next_head _ _ _ Hd). cbn.
  by rewrite hd_eqb by by eapply dlist_sentinel.
Qed.

Lemma list_peek_tail_spec h l xs : dlist h l xs → list_peek_tail l h = Ok (last xs).
Proof.
  intros Hd. unfold list_peek_tail. rewrite (dlist_prev_last _ _ _ Hd). cbn.
  by rewrite last_eqb by by eapply dlist_sentinel.
Qed.

Lemma list_next_spec h l xs a ys : dlist h l (xs ++ a :: ys) → list_next l a h = Ok (head ys).
Proof.
  intros Hd. unfold list_next. rewrite (dlist_next_in _ _ _ _ _ Hd). cbn.
  apply dlist_sentinel in Hd. rewrite hd_eqb by set_solver. done.
Qed.

Lemma list_prev_spec h l xs a ys : dlist h l (xs ++ a :: ys) → list_prev l a h = Ok (last xs).
Proof.
  intros Hd. unfold list_prev. rewrite (dlist_prev_in _ _ _ _ _ Hd). cbn.
  apply dlist_sentinel in Hd. rewrite last_eqb by set_solver. done.
Qed.

(** The wrapping successor goes round the ring and comes back to [a] itself
    when [a] is alone. *)
Lemma list_next_wrap_spec h l xs a ys :
  dlist h l (xs ++ a :: ys) → list_next_wrap l a h = Ok (head (ys ++ xs ++ [a])).
Proof.
  intros Hd. unfold list_next_wrap. rewrite (dlist_next_in _ _ _ _ _ Hd). cbn.
  pose proof (dlist_sentinel _ _ _ Hd) as Hs. destruct ys as [|y ys]; cbn.
  - rewrite Z.eqb_refl, (dlist_next_head _ _ _ Hd). cbn. by rewrite hd_eqb.
  - by rewrite (proj2 (Z.eqb_neq y l)) by set_solver.
Qed.

Lemma list_prev_wrap_spec h l xs a ys :
  dlist h l (xs ++ a :: ys) → list_prev_wrap l a h = Ok (last (a :: ys ++ xs)).
Proof.
  intros Hd. unfold list_prev_wrap. rewrite (dlist_prev_in _ _ _ _ _ Hd). cbn.
  pose proof (dlist_sentinel _ _ _ Hd) as Hs. destruct (decide (xs = [])) as [->|Hne].
  - pose proof (last_eqb l (a :: ys) Hs) as HE. rewrite app_nil_r.
    cbn -[List.last last]. cbn [List.last]. rewrite Z.eqb_refl, (dlist_prev_last _ _ _ Hd).
    cbn -[List.last last]. cbn [app] in *. by rewrite HE.
  - destruct (exists_last Hne) as (zs & q & ->). rewrite last_last.
    rewrite (proj2 (Z.eqb_neq q l)) by set_solver.
    by rewrite app_assoc, app_comm_cons, last_snoc.
Qed.

Lemma list_is_empty_spec h l xs :
  dlist h l xs → list_is_empty l h = Ok (bool_decide (xs = [])).
Proof.
  intros Hd. unfold list_is_empty. rewrite (dlist_next_head _ _ _ Hd). cbn. f_equal.
  apply dlist_sentinel in Hd. destruct xs as [|x xs]; cbn; [by rewrite Z.eqb_refl|].
  by rewrite (proj2 (Z.eqb_neq x l)) by set_solver.
Qed.

Lemma list_in_list_spec h l xs a : dlist h l xs → a ∈ l :: xs → list_in_list a h = Ok true.
Proof.
  intros Hd Ha. assert (∃ ys, dlist h a ys) as [ys Ha'].
  { apply elem_of_cons in Ha as [->|Ha]; [eauto|].
    apply list_elem_of_split in Ha as (?&?&->). eauto using dlist_rotate. }
  unfold list_in_list. rewrite (dlist_prev_last _ _ _ Ha'). cbn.
  assert (List.last ys a ≠ NULL) as Hl; [|by rewrite (proj2 (Z.eqb_neq _ _) Hl)].
  destruct Ha' as (_ & _ & H0). destruct (decide (ys = [])) as [->|Hne]; [set_solver|].
  destruct (exists_last Hne) as (zs & q & ->). rewrite last_last. set_solver.
Qed.

Lemma list_in_list_deleted h a : h !! a = Some (Node NULL NULL) → list_in_list a h = Ok false.
Proof. intros E. heap_run. done. Qed.

Lemma list_remove_head_spec h l xs :
  dlist h l xs →
  ∃ h', list_remove_head l h = Ok (head xs, h') ∧ dlist h' l (tail xs) ∧ frame h h' (l :: xs)
        ∧ (∀ x, head xs = Some x → list_in_list x h' = Ok false).
Proof.
  intros Hd. unfold list_remove_head. rewrite (dlist_next_head _ _ _ Hd). cbn.
  pose proof (dlist_sentinel _ _ _ Hd). destruct xs as [|x xs]; cbn.
  - rewrite Z.eqb_refl. by exists h.
  - rewrite (proj2 (Z.eqb_neq x l)) by set_solver.
    destruct (list_delete_head _ _ _ _ Hd) as (h' & -> & ? & ? & ?). exists h'.
    split_and!; [done..|]. intros ? [= <-]. by apply list_in_list_deleted.
Qed.

Lemma list_remove_tail_spec h l xs :
  dlist h l xs →
  ∃ h', list_remove_tail l h = Ok (last xs, h') ∧ dlist h' l (removelast xs) ∧ frame h h' (l :: xs)
        ∧ (∀ x, last xs = Some x → list_in_list x h' = Ok false).
Proof.
  intros Hd. unfold list_remove_tail. rewrite (dlist_prev_last _ _ _ Hd). cbn.
  pose proof (dlist_sentinel _ _ _ Hd). destruct (decide (xs = [])) as [->|Hne]; cbn.
  - rewrite Z.eqb_refl. by exists h.
  - destruct (exists_last Hne) as (ys & x & ->). rewrite last_last, last_snoc, removelast_last.
    rewrite (proj2 (Z.eqb_neq x l)) by set_solver.
    destruct (list_delete_spec _ _ _ _ _ Hd) as (h' & -> & Hd' & ? & ?). rewrite app_nil_r in Hd'.
    exists h'. split_and!; [done..|]. intros ? [= <-]. by apply list_in_list_deleted.
Qed.

(** * Traversals *)

Lemma list_for_every_from_visits h l xs ys fuel :
  dlist h l (xs ++ ys) → (length ys < fuel)%nat →
  list_for_every_from fuel l (List.hd l ys) h = Ok ys.
Proof.
  revert xs fuel. induction ys as [|y ys IH]; intros xs [|fuel] Hd Hf; cbn in Hf; try lia; cbn.
  - by rewrite Z.eqb_refl.
  - pose proof (dlist_sentinel _ _ _ Hd). rewrite (proj2 (Z.eqb_neq y l)) by set_solver.
    rewrite (dlist_next_in _ _ _ _ _ Hd). cbn. rewrite (IH (xs ++ [y])); [done| |lia].
    by rewrite <- app_assoc.
Qed.

(** [list_for_every_safe] with a deleting body: what is left is the list without
    the deleted nodes, although each deletion clears the node being visited. *)
Lemma list_for_every_safe_deletes p l fuel ys :
  ∀ h xs, dlist h l (xs ++ ys) → (length ys < fuel)%nat →
  ∃ h' t, ld_next h (List.hd l ys) = Ok t ∧
    list_for_every_safe_from fuel p l (List.hd l ys) t h = Ok h' ∧
    dlist h' l (xs ++ filter (λ y, p y = false) ys) ∧ frame h h' (l :: xs ++ ys).
Proof.
  revert fuel. induction ys as [|y ys IH]; intros [|fuel] h xs Hd Hf; cbn in Hf; try lia.
  - exists h, (List.hd l xs). rewrite app_nil_r in Hd. cbn.
    rewrite (dlist_next_head _ _ _ Hd), Z.eqb_refl, app_nil_r. done.
  - pose proof (dlist_sentinel _ _ _ Hd). cbn -[filter].
    rewrite (dlist_next_in _ _ _ _ _ Hd), (proj2 (Z.eqb_neq y l)) by set_solver.
    destruct (p y) eqn:Hp.
    + destruct (list_delete_spec _ _ _ _ _ Hd) as (h1 & -> & Hd1 & _ & Hfr). cbn -[filter].
      destruct (IH fuel h1 xs Hd1) as (h' & t & Ht & Hrun & Hd' & Hdom & Hfr'); [lia|].
      exists h', (List.hd l ys). rewrite Ht. split_and!; [done..| |].
      * rewrite filter_cons_False by congruence. done.
      * destruct Hfr as [Hdom1 Hfr1]. split; [congruence|].
        intros a Ha. rewrite Hfr', Hfr1; set_solver.
    + cbn -[filter]. assert (dlist h l ((xs ++ [y]) ++ ys)) as Hd1 by by rewrite <- app_assoc.
      destruct (IH fuel h (xs ++ [y]) Hd1) as (h' & t & Ht & Hrun & Hd' & Hfr); [lia|].
      exists h', (List.hd l ys). rewrite Ht. split_and!; [done..| |].
      * rewrite filter_cons_True by done. by rewrite <- app_assoc in Hd'.
      * by rewrite <- app_assoc in Hfr.
Qed.

(** * Refinement: the ring behaves like a sequence *)

(** Every function of list.h, on the list [l]. *)
Inductive list_op :=
  | OpInitialize
  | OpClearNode (item : Z)
  | OpInList (item : Z)
  | OpAddHead (item : Z)
  | OpAddAfter (entry item : Z)
  | OpAddTail (item : Z)
  | OpAddBefore (entry item : Z)
  | OpDelete (item : Z)
  | OpRemoveHead
  | OpRemoveTail
  | OpPeekHead
  | OpPeekTail
  | OpPrev (item : Z)
  | OpPrevWrap (item : Z)
  | OpNext (item : Z)
  | OpNextWrap (item : Z)
  | OpIsEmpty.

Inductive list_val := VUnit | VNode (n : option Z) | VBool (b : bool).

(** The operation as list.h runs it. *)
Definition run_op (l : Z) (o : list_op) (h : heap) : res (list_val * heap) :=
  match o with
  | OpInitialize => h ← list_initialize l h; Ok (VUnit, h)
  | OpClearNode i => h ← list_clear_node i h; Ok (VUnit, h)
  | OpInList i => b ← list_in_list i h; Ok (VBool b, h)
  | OpAddHead i => h ← list_add_head l i h; Ok (VUnit, h)
  | OpAddAfter e i => h ← list_add_after e i h; Ok (VUnit, h)
  | OpAddTail i => h ← list_add_tail l i h; Ok (VUnit, h)
  | OpAddBefore e i => h ← list_add_before e i h; Ok (VUnit, h)
  | OpDelete i => h ← list_delete i h; Ok (VUnit, h)
  | OpRemoveHead => '(n, h) ← list_remove_head l h; Ok (VNode n, h)
  | OpRemoveTail => '(n, h) ← list_remove_tail l h; Ok (VNode n, h)
  | OpPeekHead => n ← list_peek_head l h; Ok (VNode n, h)
  | OpPeekTail => n ← list_peek_tail l h; Ok (VNode n, h)
  | OpPrev i => n ← list_prev l i h; Ok (VNode n, h)
  | OpPrevWrap i => n ← list_prev_wrap l i h; Ok (VNode n, h)
  | OpNext i => n ← list_next l i h; Ok (VNode n, h)
  | OpNextWrap i => n ← list_next_wrap l i h; Ok (VNode n, h)
  | OpIsEmpty => b ← list_is_empty l h; Ok (VBool b, h)
  end.

Fixpoint run_ops (l : Z) (os : list list_op) (h : heap) : res (list list_val * heap) :=
  match os with
  | [] => Ok ([], h)
  | o :: os => '(v, h) ← run_op l o h; '(vs, h) ← run_ops l os h; Ok (v :: vs, h)
  end.

(** The abstract specification: the nodes of the list in order, none of them twice, and
    the free nodes that are known to be cleared: those that were cleared or deleted and
    have not been linked since.  A free node that is not among them may hold anything. *)
Record ring := mkRing { items : list Z; cleared : gset Z }.

(** The nodes in front of [e], and behind it. *)
Fixpoint part (e : Z) (xs : list Z) : list Z * list Z :=
  match xs with
  | [] => ([], [])
  | x :: xs => if x =? e then ([], xs) else let '(ys, zs) := part e xs in (x :: ys, zs)
  end.

(** [None] marks a call the interface does not allow: adding a node that is already
    linked or is no node of [pool], clearing one that is linked, asking whether a node is
    linked that was never cleared, and naming an entry that is not linked. *)
Definition spec_op (pool : gset Z) (o : list_op) (r : ring) : option (list_val * ring) :=
  let xs := items r in
  let free i := bool_decide (i ∈ pool ∧ i ∉ xs) in
  let here i := bool_decide (i ∈ xs) in
  let linking i xs := Some (VUnit, mkRing xs (cleared r ∖ {[i]})) in
  let unlinking v i xs := Some (v, mkRing xs ({[i]} ∪ cleared r)) in
  let reading v := Some (v, r) in
  match o with
  | OpInitialize => Some (VUnit, mkRing [] (cleared r))
  | OpClearNode i => if free i then unlinking VUnit i xs else None
  | OpInList i => if here i then reading (VBool true) else if bool_decide (i ∈ cleared r) then reading (VBool false) else None
  | OpAddHead i => if free i then linking i (i :: xs) else None
  | OpAddAfter e i => if free i && here e then linking i ((part e xs).1 ++ e :: i :: (part e xs).2) else None
  | OpAddTail i => if free i then linking i (xs ++ [i]) else None
  | OpAddBefore e i => if free i && here e then linking i ((part e xs).1 ++ i :: e :: (part e xs).2) else None
  | OpDelete i => if here i then unlinking VUnit i ((part i xs).1 ++ (part i xs).2) else None
  | OpRemoveHead =>
      match xs with [] => reading (VNode None) | x :: xs => unlinking (VNode (Some x)) x xs end
  | OpRemoveTail =>
      match last xs with None => reading (VNode None) | Some x => unlinking (VNode (Some x)) x (removelast xs) end
  | OpPeekHead => reading (VNode (head xs))
  | OpPeekTail => reading (VNode (last xs))
  | OpPrev i => if here i then reading (VNode (last (part i xs).1)) else None
  | OpPrevWrap i => if here i then reading (VNode (last (xs ++ (part i xs).1))) else None
  | OpNext i => if here i then reading (VNode (head (part i xs).2)) else None
  | OpNextWrap i => if here i then reading (VNode (head ((part i xs).2 ++ xs))) else None
  | OpIsEmpty => reading (VBool (bool_decide (xs = [])))
  end.

Fixpoint spec_ops (pool : gset Z) (os : list list_op) (r : ring) : option (list list_val * ring) :=
  match os with
  | [] => Some ([], r)
  | o :: os => '(v, r) ← spec_op pool o r; '(vs, r) ← spec_ops pool os r; Some (v :: vs, r)
  end.

(** The nodes of [pool] are allocated and none is the sentinel or NULL. *)
Definition pool_ok (h : heap) (l : Z) (pool : gset Z) : Prop :=
  ∀ a, a ∈ pool → is_Some (h !! a) ∧ a ≠ l ∧ a ≠ NULL.

(** The heap implements the abstract list; both pointers of a cleared node are NULL. *)
Record implements (h : heap) (l : Z) (pool : gset Z) (r : ring) : Prop := {
  im_list : dlist h l (items r);
  im_pool : pool_ok h l pool;
  im_items : ∀ a, a ∈ items r → a ∈ pool;
  im_cleared : ∀ a, a ∈ cleared r → a ∈ pool ∧ a ∉ items r ∧ h !! a = Some (Node NULL NULL);
}.

Lemma part_split e xs ys : e ∉ xs → part e (xs ++ e :: ys) = (xs, ys).
Proof.
  induction xs as [|x xs IH]; cbn; intros He; [by rewrite Z.eqb_refl|].
  rewrite (proj2 (Z.eqb_neq x e)), IH by set_solver. done.
Qed.

Lemma dlist_split h l xs a :
  dlist h l xs → a ∈ xs → ∃ ys zs, xs = ys ++ a :: zs ∧ part a xs = (ys, zs) ∧ a ∉ ys ∧ a ∉ zs.
Proof.
  intros (_ & [_ Hnd]%NoDup_cons & _) Ha. apply list_elem_of_split in Ha as (ys & zs & ->).
  apply NoDup_app in Hnd as (_ & Hd & [? _]%NoDup_cons). exists ys, zs.
  assert (a ∉ ys) by set_solver. split_and!; [done|by apply part_split|done|done].
Qed.

(** Insertion behind an entry in the middle ([list_add_after]). *)
Lemma list_add_after_spec h l xs e ys item :
  dlist h l (xs ++ e :: ys) → item ∉ l :: xs ++ e :: ys → item ≠ NULL → is_Some (h !! item) →
  ∃ h', list_add_after e item h = Ok h' ∧ dlist h' l (xs ++ e :: item :: ys) ∧ frame h h' (item :: l :: xs ++ e :: ys).
Proof.
  intros Hd Hi Hi0 Hitem. pose proof (dlist_rotate _ _ _ _ _ Hd) as Hr.
  destruct (list_add_head_spec h e (ys ++ l :: xs) item) as (h' & Hop & Hd' & Hdom & Hf); [done|set_solver|done..|].
  exists h'. split_and!; [done| |split; [done|intros a Ha; apply Hf; set_solver]].
  by apply (dlist_rotate h' e (item :: ys) l xs).
Qed.

Lemma list_clear_node_spec h i :
  is_Some (h !! i) → ∃ h', list_clear_node i h = Ok h' ∧ h' !! i = Some (Node NULL NULL) ∧ frame h h' [i].
Proof.
  intros [[p n] Hi]. eexists. split; [heap_run; reflexivity|]. split; [by simplify_map_eq|].
  split; [rewrite !dom_insert_L; apply elem_of_dom_2 in Hi; set_solver|].
  intros a Ha. by rewrite !lookup_insert_ne by set_solver.
Qed.

Section Steps.
Context (h : heap) (l : Z) (pool : gset Z) (r : ring).
Hypothesis Him : implements h l pool r.

(** Linking a free node, unlinking one, and a new beginning. *)
Lemma implements_link h' i xs :
  i ∈ pool → i ∉ items r → dlist h' l xs → frame h h' (i :: l :: items r) →
  (∀ a, a ∈ xs ↔ a = i ∨ a ∈ items r) → implements h' l pool (mkRing xs (cleared r ∖ {[i]})).
Proof.
  intros Hi Hn Hd Hf Hxs. destruct Him as [_ Hp Hit Hc]. constructor; cbn.
  - done.
  - intros a Ha. rewrite (frame_is_Some _ _ _ a Hf). by apply Hp.
  - intros a [-> |Ha]%Hxs; [done|by apply Hit].
  - intros a Ha. destruct (Hc a) as (H1 & H2 & H3); [set_solver|]. destruct (Hp a H1) as (_ & ? & _).
    split_and!; [done|rewrite Hxs; set_solver|]. destruct Hf as [_ Hf]. rewrite Hf; [done|set_solver].
Qed.

Lemma implements_unlink h' i xs :
  i ∈ pool → i ∉ xs → dlist h' l xs → h' !! i = Some (Node NULL NULL) → frame h h' (i :: l :: items r) →
  (∀ a, a ∈ xs → a ∈ items r) → implements h' l pool (mkRing xs ({[i]} ∪ cleared r)).
Proof.
  intros Hi Hn Hd Hc' Hf Hxs. destruct Him as [_ Hp Hit Hc]. constructor; cbn.
  - done.
  - intros a Ha. rewrite (frame_is_Some _ _ _ a Hf). by apply Hp.
  - intros a Ha. by apply Hit, Hxs.
  - intros a Ha. destruct (decide (a = i)) as [-> |Hne]; [done|]. destruct (Hc a) as (H1 & H2 & H3); [set_solver|].
    destruct (Hp a H1) as (_ & ? & _). split_and!; [done|set_solver|]. destruct Hf as [_ Hf]. rewrite Hf; [done|set_solver].
Qed.

Lemma implements_free i : i ∈ pool → i ∉ items r → i ∉ l :: items r ∧ i ≠ NULL ∧ is_Some (h !! i).
Proof. intros Hi Hn. destruct (im_pool _ _ _ _ Him i Hi) as (? & ? & ?). split_and!; [set_solver|done|done]. Qed.
End Steps.

(** One call. *)
Lemma run_op_refines h l pool r o v r' :
  implements h l pool r → spec_op pool o r = Some (v, r') →
  ∃ h', run_op l o h = Ok (v, h') ∧ implements h' l pool r'.
Proof.
  intros Him. pose proof (im_list _ _ _ _ Him) as Hd. destruct r as [xs c]. cbn [items cleared] in *.
  destruct o as [|i|i|i|e i|i|e i|i| | | | |i|i|i|i|]; cbn [spec_op run_op items cleared]; intros Hs;
    try (case_bool_decide as Hb; cbn [andb] in Hs; [|done]);
    try (destruct (implements_free _ _ _ _ Him i) as (? & ? & ?); [by destruct Hb..|]; destruct Hb as [Hb1 Hb2]; cbn [items] in *);
    try (case_bool_decide as He; [|done]);
    try (destruct (dlist_split _ _ _ e Hd He) as (ys & zs & -> & E & ? & ?); rewrite E in Hs; cbn [fst snd] in Hs);
    try (destruct (dlist_split _ _ _ i Hd Hb) as (ys & zs & -> & E & ? & ?); rewrite E in Hs; cbn [fst snd] in Hs).
  - injection Hs as <- <-. destruct (list_initialize_spec h l) as (h' & -> & Hd' & Hf).
    { destruct Hd as (_ & _ & ?). set_solver. } { apply (dlist_lookup _ _ _ l Hd). by left. }
    eexists. split; [done|]. destruct Him as [_ Hp Hit Hc]. constructor; cbn; [done| |set_solver|].
    + intros a Ha. rewrite (frame_is_Some _ _ _ a Hf). by apply Hp.
    + intros a Ha. destruct (Hc a Ha) as (H1 & _ & H3). destruct (Hp a H1) as (_ & ? & _). destruct Hf as [_ Hf].
      split_and!; [done|set_solver|]. rewrite Hf; [done|set_solver].
  - injection Hs as <- <-. destruct (list_clear_node_spec h i) as (h' & -> & Hc & Hf); [done|]. eexists. split; [done|].
    apply (implements_unlink _ _ _ _ Him); [done|done| |done|split; [apply Hf|intros a Ha; apply Hf; set_solver]|done].
    apply (dlist_frame h); [|done]. intros a Ha. apply Hf. set_solver.
  - case_bool_decide as Hb; [injection Hs as <- <-; rewrite (list_in_list_spec _ _ _ i Hd) by set_solver; eauto|].
    case_bool_decide as Hc; [|done]. injection Hs as <- <-. destruct (im_cleared _ _ _ _ Him i Hc) as (_ & _ & E).
    rewrite (list_in_list_deleted _ _ E). eauto.
  - injection Hs as <- <-. destruct (list_add_head_spec h l xs i) as (h' & -> & ? & ?); [done..|]. eexists. split; [done|].
    apply (implements_link _ _ _ _ Him); [done|done|done|done|set_solver].
  - injection Hs as <- <-. destruct (list_add_after_spec h l ys e zs i) as (h' & -> & ? & ?); [done..|]. eexists. split; [done|].
    apply (implements_link _ _ _ _ Him); [done|done|done|done|set_solver].
  - injection Hs as <- <-. destruct (list_add_tail_spec h l xs i) as (h' & -> & ? & ?); [done..|]. eexists. split; [done|].
    apply (implements_link _ _ _ _ Him); [done|done|done|done|set_solver].
  - injection Hs as <- <-. destruct (list_add_before_spec h l ys e zs i) as (h' & -> & ? & ?); [done..|]. eexists. split; [done|].
    apply (implements_link _ _ _ _ Him); [done|done|done|done|set_solver].
  - injection Hs as <- <-. destruct (list_delete_spec _ _ _ _ _ Hd) as (h' & -> & ? & ? & Hf). eexists. split; [done|].
    apply (implements_unlink _ _ _ _ Him); [by apply (im_items _ _ _ _ Him)|set_solver|done|done|split; [apply Hf|intros a Ha; apply Hf; set_solver]|set_solver].
  - destruct xs as [|x xs]; injection Hs as <- <-.
    { unfold list_remove_head. rewrite (dlist_next_head _ _ _ Hd). cbn. rewrite Z.eqb_refl. eauto. }
    pose proof Hd as (_ & [Hl [? ?]%NoDup_cons]%NoDup_cons & _). destruct (list_delete_head _ _ _ _ Hd) as (h' & E & ? & ? & Hf).
    unfold list_remove_head. rewrite (dlist_next_head _ _ _ Hd). cbn [List.hd mbind res_bind]. rewrite (proj2 (Z.eqb_neq x l)), E by set_solver.
    eexists. split; [done|]. apply (implements_unlink _ _ _ _ Him); [apply (im_items _ _ _ _ Him); by left|done|done|done| |by right].
    split; [apply Hf|intros a Ha; apply Hf; set_solver].
  - destruct (last xs) as [x|] eqn:El; injection Hs as <- <-.
    + apply last_Some in El as [ys ->]. pose proof Hd as (_ & [Hl Hnd]%NoDup_cons & _).
      destruct (list_delete_spec _ _ _ _ _ Hd) as (h' & E & Hd' & ? & Hf). rewrite app_nil_r in Hd'. rewrite removelast_last.
      unfold list_remove_tail. rewrite (dlist_prev_last _ _ _ Hd), last_last. cbn [mbind res_bind]. rewrite (proj2 (Z.eqb_neq x l)), E by set_solver.
      apply NoDup_app in Hnd as (_ & Hnd & _). eexists. split; [done|].
      apply (implements_unlink _ _ _ _ Him); [apply (im_items _ _ _ _ Him); set_solver|set_solver|done|done| |set_solver].
      split; [apply Hf|intros a Ha; apply Hf; set_solver].
    + apply last_None in El as ->. unfold list_remove_tail. rewrite (dlist_prev_last _ _ _ Hd). cbn. rewrite Z.eqb_refl. eauto.
  - injection Hs as <- <-. rewrite (list_peek_head_spec _ _ _ Hd). eauto.
  - injection Hs as <- <-. rewrite (list_peek_tail_spec _ _ _ Hd). eauto.
  - injection Hs as <- <-. rewrite (list_prev_spec _ _ _ _ _ Hd). eauto.
  - injection Hs as <- <-. rewrite (list_prev_wrap_spec _ _ _ _ _ Hd). eexists. split; [|exact Him]. do 3 f_equal.
    destruct (decide (ys = [])) as [-> |Hne]; [by rewrite !app_nil_r|]. destruct (exists_last Hne) as (ws & w & ->).
    by rewrite app_comm_cons, !app_assoc, !last_snoc.
  - injection Hs as <- <-. rewrite (list_next_spec _ _ _ _ _ Hd). eauto.
  - injection Hs as <- <-. rewrite (list_next_wrap_spec _ _ _ _ _ Hd). eexists. split; [|exact Him]. do 3 f_equal.
    destruct zs; [|done]. by destruct ys.
  - injection Hs as <- <-. rewrite (list_is_empty_spec _ _ _ Hd). eauto.
Qed.

(** * Properties *)

(** C15: every sequence of calls of the functions of list.h that respects the interface
    runs without fault, returns what the same operations return on a plain sequence of
    nodes, and leaves a ring that holds exactly the resulting sequence, whose unlinked
    nodes list_in_list tells from the linked ones.  The interface: add or clear only nodes
    of the pool that are not linked, name as entries only linked ones, and ask whether a
    node is linked only when it is, or when it has been cleared or deleted. *)
Theorem list_refines h l pool r os vs r' :
  implements h l pool r → spec_ops pool os r = Some (vs, r') →
  ∃ h', run_ops l os h = Ok (vs, h') ∧ implements h' l pool r'.
Proof.
  revert h r vs. induction os as [|o os IH]; cbn; intros h r vs Him Hs; simplify_eq; [eauto|].
  destruct (spec_op pool o r) as [[v r1]|] eqn:E1; cbn in Hs; [|done].
  destruct (spec_ops pool os r1) as [[vs1 r2]|] eqn:E2; cbn in Hs; simplify_eq.
  destruct (run_op_refines _ _ _ _ _ _ _ Him E1) as (h1 & -> & Him1). cbn.
  destruct (IH _ _ _ Him1 E2) as (h2 & -> & ?). eauto.
Qed.

Definition demo_heap : heap :=
  {[100 := Node 100 100; 1 := Node 7 7; 2 := Node 7 7; 3 := Node 7 7]}.

Lemma list_refines_witness :
  implements demo_heap 100 {[1; 2; 3]} (mkRing [] ∅) ∧
  ∃ h', run_ops 100 [OpInitialize; OpClearNode 1; OpInList 1; OpAddTail 1; OpAddHead 2; OpAddBefore 1 3; OpPrevWrap 2; OpNext 2;
                     OpInList 2; OpDelete 2; OpInList 2; OpAddAfter 3 2; OpRemoveHead; OpIsEmpty] demo_heap =
          Ok ([VUnit; VUnit; VBool false; VUnit; VUnit; VUnit; VNode (Some 1); VNode (Some 3);
               VBool true; VUnit; VBool false; VUnit; VNode (Some 3); VBool false], h')
        ∧ implements h' 100 {[1; 2; 3]} (mkRing [2; 1] {[3]}).
Proof.
  assert (implements demo_heap 100 {[1; 2; 3]} (mkRing [] ∅)) as Him.
  { constructor; cbn; [|intros a Ha; assert (a = 1 ∨ a = 2 ∨ a = 3) as [-> | [-> | ->]] by set_solver; split_and!; done|set_solver|set_solver].
    split_and!; [done|apply NoDup_singleton|set_solver]. }
  split; [done|]. apply (list_refines demo_heap 100 {[1; 2; 3]} (mkRing [] ∅)); [exact Him|]. vm_compute. reflexivity.
Defined.

(** iterating with [list_for_every] ends and visits exactly the stored nodes
    in order, and the "safe" iteration may delete the node it visits: it ends
    and leaves exactly the nodes the body did not delete. *)
Theorem list_iteration h l xs p fuel :
  dlist h l xs → (length xs < fuel)%nat →
  list_for_every fuel l h = Ok xs ∧
  ∃ h', list_delete_matching fuel p l h = Ok h' ∧ dlist h' l (filter (λ y, p y = false) xs).
Proof.
  intros Hd Hf. split.
  - unfold list_for_every. rewrite (dlist_next_head _ _ _ Hd). cbn.
    by apply (list_for_every_from_visits h l []).
  - unfold list_delete_matching. rewrite (dlist_next_head _ _ _ Hd). cbn.
    destruct (list_for_every_safe_deletes p l fuel xs h [] Hd Hf) as (h' & t & -> & ? & ? & _).
    eauto.
Qed.

Definition demo_ring : heap :=
  {[100 := Node 2 1; 1 := Node 100 2; 2 := Node 1 100]}.

Lemma list_iteration_witness :
  dlist demo_ring 100 [1; 2] ∧ list_for_every 3 100 demo_ring = Ok [1; 2] ∧
  ∃ h', list_delete_matching 3 (Z.eqb 1) 100 demo_ring = Ok h' ∧ dlist h' 100 [2].
Proof.
  assert (dlist demo_ring 100 [1; 2]) as Hd.
  { split_and!; [done| |set_solver]. apply (bool_decide_unpack _). vm_compute. exact I. }
  split; [done|]. exact (list_iteration demo_ring 100 [1; 2] (Z.eqb 1) 3 Hd (le_n 3)).
Defined.
