(* ===== verification/KState.v ===== *)
(** Kernel data (src/bootable/lk/include/kernel/*.h and the static variables of
    src/bootable/lk/kernel/*.c): threads, wait queues, mutexes, events, timers,
    deferred procedure calls, and the kernel state they make up.

    Threads, synchronisation objects and timers are named by identifiers that
    stand for their addresses.  A run queue, a wait queue, the timer queue and
    the DPC list are sequences: [LkList] shows that the rings of list.h behave so.
    The flag [queue_node] of a thread records whether its [queue_node] is linked
    (its pointers are not NULL), which is what [list_in_list] reads.

    A thread that is switched out resumes later in the middle of the kernel
    function that called [thread_resched]; [kstack] holds those pending pieces of
    code, innermost first, as values of [frame] (what the saved machine stack
    holds in the program). *)
From stdpp Require Import base numbers list gmap strings.
From S2P Require Import Prelude.

Abbreviation tid := nat.
Abbreviation oid := nat.
(** [inl t]: the [timer_t] on the kernel stack of thread [t]; [inr n]: a static one. *)
Abbreviation timer_id := (nat + nat)%type.

(** * Status codes (include/err.h) *)
Definition NO_ERROR : Z := 0.
Definition ERR_NOT_SUSPENDED : Z := -10.
Definition ERR_OBJECT_DESTROYED : Z := -11.
Definition ERR_NOT_BLOCKED : Z := -12.
Definition ERR_TIMED_OUT : Z := -13.

(** * Time (include/sys/types.h): [time_t] is a 32-bit unsigned long *)
Definition INFINITE_TIME : Z := 2 ^ 32 - 1.
Definition TIME_GT (a b : Z) : bool := 0 <? s32 (a - b).
Definition TIME_LT (a b : Z) : bool := s32 (a - b) <? 0.

(** * Priorities (include/kernel/thread.h) *)
Definition NUM_PRIORITIES : Z := 32.
Definition LOWEST_PRIORITY : Z := 0.
Definition HIGHEST_PRIORITY : Z := NUM_PRIORITIES - 1.
Definition DPC_PRIORITY : Z := NUM_PRIORITIES - 2.
Definition IDLE_PRIORITY : Z := LOWEST_PRIORITY.
Definition DEFAULT_PRIORITY : Z := NUM_PRIORITIES / 2.

Definition WAIT_QUEUE_MAGIC : Z := 0x77616974.
Definition MUTEX_MAGIC : Z := 0x6d757478.
Definition EVENT_MAGIC : Z := 0x65766e74.
Definition EVENT_FLAG_AUTOUNSIGNAL : Z := 1.
Definition DPC_FLAG_NORESCHED : Z := 1.

Inductive thread_state :=
  | THREAD_SUSPENDED
  | THREAD_READY
  | THREAD_RUNNING
  | THREAD_BLOCKED
  | THREAD_SLEEPING
  | THREAD_DEATH.

#[global] Instance thread_state_eq_dec : EqDecision thread_state.
Proof. solve_decision. Defined.

Inductive handler_return := INT_NO_RESCHEDULE | INT_RESCHEDULE.

#[global] Instance handler_return_eq_dec : EqDecision handler_return.
Proof. solve_decision. Defined.

(** The code still to run when a suspended thread resumes. *)
Inductive frame :=
  | FExit                        (* exit_critical_section(); and return *)
  | FRet (v : Z)                 (* return v; *)
  | FIrqReturn (r0 : Z)          (* the end of arm_irq: count--, return from exception *)
  | FInitialThread               (* initial_thread_func: leave the implicit critical section *)
  | FWaitQueueBlock (timeout : Z)(* wait_queue_block after thread_block() *)
  | FWaitQueueDestroy (w : oid)  (* wait_queue_destroy after wait_queue_wake_all() *)
  | FMutexAcquire (m : oid)      (* mutex_acquire after wait_queue_block() *)
  | FMutexAcquireTimeout (m : oid) (* mutex_acquire_timeout after wait_queue_block() *)
  | FEventSignal (e : oid).      (* event_signal after wait_queue_wake_one() *)

#[global] Instance frame_eq_dec : EqDecision frame.
Proof. solve_decision. Defined.

(** [struct thread] (include/kernel/thread.h) *)
Record thread := mkThread {
  th_name : string;
  th_entry : Z;  (* thread_start_routine entry *)
  th_arg : Z;
  priority : Z;
  state : thread_state;
  saved_critical_section_count : Z;
  remaining_quantum : Z;
  queue_node : bool;  (* linked in a run queue or a wait queue *)
  blocking_wait_queue : option oid;
  wait_queue_block_ret : Z;
  stack_size : Z;
  retcode : Z;
  kstack : list frame;  (* code to run when resumed *)
  r0 : Z;  (* value returned by the last kernel call *)
}.

Definition set_th_name (v : string) (s : thread) : thread := mkThread v (th_entry s) (th_arg s) (priority s) (state s) (saved_critical_section_count s) (remaining_quantum s) (queue_node s) (blocking_wait_queue s) (wait_queue_block_ret s) (stack_size s) (retcode s) (kstack s) (r0 s).
Definition set_th_entry (v : Z) (s : thread) : thread := mkThread (th_name s) v (th_arg s) (priority s) (state s) (saved_critical_section_count s) (remaining_quantum s) (queue_node s) (blocking_wait_queue s) (wait_queue_block_ret s) (stack_size s) (retcode s) (kstack s) (r0 s).
Definition set_th_arg (v : Z) (s : thread) : thread := mkThread (th_name s) (th_entry s) v (priority s) (state s) (saved_critical_section_count s) (remaining_quantum s) (queue_node s) (blocking_wait_queue s) (wait_queue_block_ret s) (stack_size s) (retcode s) (kstack s) (r0 s).
Definition set_priority (v : Z) (s : thread) : thread := mkThread (th_name s) (th_entry s) (th_arg s) v (state s) (saved_critical_section_count s) (remaining_quantum s) (queue_node s) (blocking_wait_queue s) (wait_queue_block_ret s) (stack_size s) (retcode s) (kstack s) (r0 s).
Definition set_state (v : thread_state) (s : thread) : thread := mkThread (th_name s) (th_entry s) (th_arg s) (priority s) v (saved_critical_section_count s) (remaining_quantum s) (queue_node s) (blocking_wait_queue s) (wait_queue_block_ret s) (stack_size s) (retcode s) (kstack s) (r0 s).
Definition set_saved_critical_section_count (v : Z) (s : thread) : thread := mkThread (th_name s) (th_entry s) (th_arg s) (priority s) (state s) v (remaining_quantum s) (queue_node s) (blocking_wait_queue s) (wait_queue_block_ret s) (stack_size s) (retcode s) (kstack s) (r0 s).
Definition set_remaining_quantum (v : Z) (s : thread) : thread := mkThread (th_name s) (th_entry s) (th_arg s) (priority s) (state s) (saved_critical_section_count s) v (queue_node s) (blocking_wait_queue s) (wait_queue_block_ret s) (stack_size s) (retcode s) (kstack s) (r0 s).
Definition set_queue_node (v : bool) (s : thread) : thread := mkThread (th_name s) (th_entry s) (th_arg s) (priority s) (state s) (saved_critical_section_count s) (remaining_quantum s) v (blocking_wait_queue s) (wait_queue_block_ret s) (stack_size s) (retcode s) (kstack s) (r0 s).
Definition set_blocking_wait_queue (v : option oid) (s : thread) : thread := mkThread (th_name s) (th_entry s) (th_arg s) (priority s) (state s) (saved_critical_section_count s) (remaining_quantum s) (queue_node s) v (wait_queue_block_ret s) (stack_size s) (retcode s) (kstack s) (r0 s).
Definition set_wait_queue_block_ret (v : Z) (s : thread) : thread := mkThread (th_name s) (th_entry s) (th_arg s) (priority s) (state s) (saved_critical_section_count s) (remaining_quantum s) (queue_node s) (blocking_wait_queue s) v (stack_size s) (retcode s) (kstack s) (r0 s).
Definition set_stack_size (v : Z) (s : thread) : thread := mkThread (th_name s) (th_entry s) (th_arg s) (priority s) (state s) (saved_critical_section_count s) (remaining_quantum s) (queue_node s) (blocking_wait_queue s) (wait_queue_block_ret s) v (retcode s) (kstack s) (r0 s).
Definition set_retcode (v : Z) (s : thread) : thread := mkThread (th_name s) (th_entry s) (th_arg s) (priority s) (state s) (saved_critical_section_count s) (remaining_quantum s) (queue_node s) (blocking_wait_queue s) (wait_queue_block_ret s) (stack_size s) v (kstack s) (r0 s).
Definition set_kstack (v : list frame) (s : thread) : thread := mkThread (th_name s) (th_entry s) (th_arg s) (priority s) (state s) (saved_critical_section_count s) (remaining_quantum s) (queue_node s) (blocking_wait_queue s) (wait_queue_block_ret s) (stack_size s) (retcode s) v (r0 s).
Definition set_r0 (v : Z) (s : thread) : thread := mkThread (th_name s) (th_entry s) (th_arg s) (priority s) (state s) (saved_critical_section_count s) (remaining_quantum s) (queue_node s) (blocking_wait_queue s) (wait_queue_block_ret s) (stack_size s) (retcode s) (kstack s) v.

(** [struct wait_queue] *)
Record wait_queue := mkWaitQueue {
  wq_magic : Z;
  wq_list : list tid;
  wq_count : Z;
}.

Definition set_wq_magic (v : Z) (s : wait_queue) : wait_queue := mkWaitQueue v (wq_list s) (wq_count s).
Definition set_wq_list (v : list tid) (s : wait_queue) : wait_queue := mkWaitQueue (wq_magic s) v (wq_count s).
Definition set_wq_count (v : Z) (s : wait_queue) : wait_queue := mkWaitQueue (wq_magic s) (wq_list s) v.

(** [struct mutex] (include/kernel/mutex.h); its wait queue has the mutex's identifier *)
Record mutex := mkMutex {
  m_magic : Z;
  m_count : Z;
  m_holder : option tid;
}.

Definition set_m_magic (v : Z) (s : mutex) : mutex := mkMutex v (m_count s) (m_holder s).
Definition set_m_count (v : Z) (s : mutex) : mutex := mkMutex (m_magic s) v (m_holder s).
Definition set_m_holder (v : option tid) (s : mutex) : mutex := mkMutex (m_magic s) (m_count s) v.

(** [struct event] (include/kernel/event.h); its wait queue has the event's identifier *)
Record event := mkEvent {
  e_magic : Z;
  e_signalled : bool;
  e_flags : Z;
}.

Definition set_e_magic (v : Z) (s : event) : event := mkEvent v (e_signalled s) (e_flags s).
Definition set_e_signalled (v : bool) (s : event) : event := mkEvent (e_magic s) v (e_flags s).
Definition set_e_flags (v : Z) (s : event) : event := mkEvent (e_magic s) (e_signalled s) v.

(** The callbacks a timer can carry: the two of thread.c, or a driver's callback
    that touches no scheduler state and returns [r]. *)
Inductive timer_callback :=
  | CbThreadSleep
  | CbWaitQueueTimeout
  | CbDriver (r : handler_return).

(** [struct timer] (include/kernel/timer.h) *)
Record timer := mkTimer {
  scheduled_time : Z;
  periodic_time : Z;
  callback : option timer_callback;
  tm_arg : option tid;
}.

Definition set_scheduled_time (v : Z) (s : timer) : timer := mkTimer v (periodic_time s) (callback s) (tm_arg s).
Definition set_periodic_time (v : Z) (s : timer) : timer := mkTimer (scheduled_time s) v (callback s) (tm_arg s).
Definition set_callback (v : option timer_callback) (s : timer) : timer := mkTimer (scheduled_time s) (periodic_time s) v (tm_arg s).
Definition set_tm_arg (v : option tid) (s : timer) : timer := mkTimer (scheduled_time s) (periodic_time s) (callback s) v.

(** [struct dpc]: the only callback queued in the program is [thread_cleanup_dpc]. *)
Inductive dpc_callback := thread_cleanup_dpc_cb.
Record dpc := mkDpc { dpc_cb : dpc_callback; dpc_arg : tid }.

(** The kernel's static variables and objects. *)
Record kstate := mkK {
  threads : gmap tid thread;  (* allocated thread structures *)
  thread_list : list tid;
  current_thread : tid;
  critical_section_count : Z;
  ints_enabled : bool;  (* the CPU accepts interrupts *)
  run_queue : list (list tid);
  run_queue_bitmap : Z;
  idle_thread : option tid;
  wait_queues : gmap oid wait_queue;
  mutexes : gmap oid mutex;
  events : gmap oid event;
  timer_queue : list timer_id;
  timers : gmap timer_id timer;
  current_time : Z;  (* the platform clock, in ms *)
  dpc_list : list dpc;
}.

Definition set_threads (v : gmap tid thread) (s : kstate) : kstate := mkK v (thread_list s) (current_thread s) (critical_section_count s) (ints_enabled s) (run_queue s) (run_queue_bitmap s) (idle_thread s) (wait_queues s) (mutexes s) (events s) (timer_queue s) (timers s) (current_time s) (dpc_list s).
Definition set_thread_list (v : list tid) (s : kstate) : kstate := mkK (threads s) v (current_thread s) (critical_section_count s) (ints_enabled s) (run_queue s) (run_queue_bitmap s) (idle_thread s) (wait_queues s) (mutexes s) (events s) (timer_queue s) (timers s) (current_time s) (dpc_list s).
Definition set_current_thread (v : tid) (s : kstate) : kstate := mkK (threads s) (thread_list s) v (critical_section_count s) (ints_enabled s) (run_queue s) (run_queue_bitmap s) (idle_thread s) (wait_queues s) (mutexes s) (events s) (timer_queue s) (timers s) (current_time s) (dpc_list s).
Definition set_critical_section_count (v : Z) (s : kstate) : kstate := mkK (threads s) (thread_list s) (current_thread s) v (ints_enabled s) (run_queue s) (run_queue_bitmap s) (idle_thread s) (wait_queues s) (mutexes s) (events s) (timer_queue s) (timers s) (current_time s) (dpc_list s).
Definition set_ints_enabled (v : bool) (s : kstate) : kstate := mkK (threads s) (thread_list s) (current_thread s) (critical_section_count s) v (run_queue s) (run_queue_bitmap s) (idle_thread s) (wait_queues s) (mutexes s) (events s) (timer_queue s) (timers s) (current_time s) (dpc_list s).
Definition set_run_queue (v : list (list tid)) (s : kstate) : kstate := mkK (threads s) (thread_list s) (current_thread s) (critical_section_count s) (ints_enabled s) v (run_queue_bitmap s) (idle_thread s) (wait_queues s) (mutexes s) (events s) (timer_queue s) (timers s) (current_time s) (dpc_list s).
Definition set_run_queue_bitmap (v : Z) (s : kstate) : kstate := mkK (threads s) (thread_list s) (current_thread s) (critical_section_count s) (ints_enabled s) (run_queue s) v (idle_thread s) (wait_queues s) (mutexes s) (events s) (timer_queue s) (timers s) (current_time s) (dpc_list s).
Definition set_idle_thread (v : option tid) (s : kstate) : kstate := mkK (threads s) (thread_list s) (current_thread s) (critical_section_count s) (ints_enabled s) (run_queue s) (run_queue_bitmap s) v (wait_queues s) (mutexes s) (events s) (timer_queue s) (timers s) (current_time s) (dpc_list s).
Definition set_wait_queues (v : gmap oid wait_queue) (s : kstate) : kstate := mkK (threads s) (thread_list s) (current_thread s) (critical_section_count s) (ints_enabled s) (run_queue s) (run_queue_bitmap s) (idle_thread s) v (mutexes s) (events s) (timer_queue s) (timers s) (current_time s) (dpc_list s).
Definition set_mutexes (v : gmap oid mutex) (s : kstate) : kstate := mkK (threads s) (thread_list s) (current_thread s) (critical_section_count s) (ints_enabled s) (run_queue s) (run_queue_bitmap s) (idle_thread s) (wait_queues s) v (events s) (timer_queue s) (timers s) (current_time s) (dpc_list s).
Definition set_events (v : gmap oid event) (s : kstate) : kstate := mkK (threads s) (thread_list s) (current_thread s) (critical_section_count s) (ints_enabled s) (run_queue s) (run_queue_bitmap s) (idle_thread s) (wait_queues s) (mutexes s) v (timer_queue s) (timers s) (current_time s) (dpc_list s).
Definition set_timer_queue (v : list timer_id) (s : kstate) : kstate := mkK (threads s) (thread_list s) (current_thread s) (critical_section_count s) (ints_enabled s) (run_queue s) (run_queue_bitmap s) (idle_thread s) (wait_queues s) (mutexes s) (events s) v (timers s) (current_time s) (dpc_list s).
Definition set_timers (v : gmap timer_id timer) (s : kstate) : kstate := mkK (threads s) (thread_list s) (current_thread s) (critical_section_count s) (ints_enabled s) (run_queue s) (run_queue_bitmap s) (idle_thread s) (wait_queues s) (mutexes s) (events s) (timer_queue s) v (current_time s) (dpc_list s).
Definition set_current_time (v : Z) (s : kstate) : kstate := mkK (threads s) (thread_list s) (current_thread s) (critical_section_count s) (ints_enabled s) (run_queue s) (run_queue_bitmap s) (idle_thread s) (wait_queues s) (mutexes s) (events s) (timer_queue s) (timers s) v (dpc_list s).
Definition set_dpc_list (v : list dpc) (s : kstate) : kstate := mkK (threads s) (thread_list s) (current_thread s) (critical_section_count s) (ints_enabled s) (run_queue s) (run_queue_bitmap s) (idle_thread s) (wait_queues s) (mutexes s) (events s) (timer_queue s) (timers s) (current_time s) v.

(** * Access to the objects: a dangling pointer is [Fault] *)

Definition get_thread (t : tid) (s : kstate) : res thread := deref (threads s !! t).
Definition upd_thread (t : tid) (f : thread → thread) (s : kstate) : kstate :=
  set_threads (alter f t (threads s)) s.
Definition get_current (s : kstate) : res thread := get_thread (current_thread s) s.
Definition upd_current (f : thread → thread) (s : kstate) : kstate :=
  upd_thread (current_thread s) f s.
Definition get_wait_queue (w : oid) (s : kstate) : res wait_queue := deref (wait_queues s !! w).
Definition put_wait_queue (w : oid) (q : wait_queue) (s : kstate) : kstate :=
  set_wait_queues (<[w := q]> (wait_queues s)) s.
Definition get_mutex (m : oid) (s : kstate) : res mutex := deref (mutexes s !! m).
Definition put_mutex (m : oid) (x : mutex) (s : kstate) : kstate :=
  set_mutexes (<[m := x]> (mutexes s)) s.
Definition get_event (e : oid) (s : kstate) : res event := deref (events s !! e).
Definition put_event (e : oid) (x : event) (s : kstate) : kstate :=
  set_events (<[e := x]> (events s)) s.
Definition get_timer (tm : timer_id) (s : kstate) : res timer := deref (timers s !! tm).
Definition put_timer (tm : timer_id) (x : timer) (s : kstate) : kstate :=
  set_timers (<[tm := x]> (timers s)) s.

Definition is_state (a : thread_state) (th : thread) : bool := bool_decide (state th = a).

(** * Critical sections (include/kernel/thread.h) *)

Definition enter_critical_section (s : kstate) : kstate :=
  let s := set_critical_section_count (critical_section_count s + 1) s in
  if critical_section_count s =? 1 then set_ints_enabled false s else s.

Definition exit_critical_section (s : kstate) : kstate :=
  let s := set_critical_section_count (critical_section_count s - 1) s in
  if critical_section_count s =? 0 then set_ints_enabled true s else s.

Definition in_critical_section (s : kstate) : bool := 0 <? critical_section_count s.

(** * Pending code on the current thread's stack *)

Definition push_frames (k : list frame) (s : kstate) : kstate :=
  upd_current (λ th, set_kstack (k ++ kstack th) th) s.
Definition pop_frames (n : nat) (s : kstate) : kstate :=
  upd_current (λ th, set_kstack (drop n (kstack th)) th) s.
