(* ===== verification/KTimer.v ===== *)
(** Timers (src/bootable/lk/kernel/timer.c): setting, cancelling and queueing.
    [timer_tick], which runs the callbacks, is in [KSync] after the scheduler.
    The configuration is the one of the sources: PLATFORM_HAS_DYNAMIC_TIMER is
    never defined, so the parts it guards are absent. *)
From Stdlib Require Import ZArith Sorted.
From stdpp Require Import base numbers list gmap.
From S2P Require Import Prelude KState.

Definition timer_initialize (tm : timer_id) (s : kstate) : kstate :=
  put_timer tm (mkTimer 0 0 None None) s.

(** [list_in_list(&timer->node)] *)
Definition timer_in_list (tm : timer_id) (s : kstate) : bool := bool_decide (tm ∈ timer_queue s).

(** The walk of [insert_timer_in_queue]: before the first entry that is due
    later, else at the end. *)
Fixpoint insert_sorted (tms : gmap timer_id timer) (tm : timer_id) (time : Z) (q : list timer_id)
    : res (list timer_id) :=
  match q with
  | [] => Ok [tm]
  | entry :: q' =>
      e ← deref (tms !! entry);
      if TIME_GT (scheduled_time e) time then Ok (tm :: entry :: q')
      else r ← insert_sorted tms tm time q'; Ok (entry :: r)
  end.

Definition insert_timer_in_queue (tm : timer_id) (s : kstate) : res kstate :=
  t ← get_timer tm s;
  q ← insert_sorted (timers s) tm (scheduled_time t) (timer_queue s);
  Ok (set_timer_queue q s).

Definition timer_set (tm : timer_id) (delay period : Z) (cb : timer_callback) (arg : option tid)
    (s : kstate) : res kstate :=
  _ ← get_timer tm s;
  if timer_in_list tm s then Panic
  else
    let now := current_time s in
    let s := put_timer tm (mkTimer (u32 (now + delay)) period (Some cb) arg) s in
    let s := enter_critical_section s in
    s ← insert_timer_in_queue tm s;
    Ok (exit_critical_section s).

Definition timer_set_oneshot (tm : timer_id) (delay : Z) (cb : timer_callback) (arg : option tid)
    (s : kstate) : res kstate :=
  let delay := if delay =? 0 then 1 else delay in
  timer_set tm delay 0 cb arg s.

Definition timer_set_periodic (tm : timer_id) (period : Z) (cb : timer_callback) (arg : option tid)
    (s : kstate) : res kstate :=
  let period := if period =? 0 then 1 else period in
  timer_set tm period period cb arg s.

Definition timer_cancel (tm : timer_id) (s : kstate) : res kstate :=
  t ← get_timer tm s;
  let s := enter_critical_section s in
  let s := if timer_in_list tm s
           then set_timer_queue (filter (λ x, x ≠ tm) (timer_queue s)) s else s in
  let s := put_timer tm (set_tm_arg None (set_callback None (set_periodic_time 0 t))) s in
  Ok (exit_critical_section s).

(** * Order of the queue *)

(** [time_t] wraps around every 2^32 ms; seen from a time [base] a queued timer's due
    time is this many ms ahead. *)
Definition ahead (base t : Z) : Z := u32 (t - base).

Definition due_order (base : Z) (tms : gmap timer_id timer) (a b : timer_id) : Prop :=
  ∀ x y, tms !! a = Some x → tms !! b = Some y →
    ahead base (scheduled_time x) ≤ ahead base (scheduled_time y).

Definition in_window (base : Z) (tms : gmap timer_id timer) (tm : timer_id) : Prop :=
  ∃ x, tms !! tm = Some x ∧ ahead base (scheduled_time x) < 2 ^ 31.

(** Within half the range the comparison of the code is the comparison of times. *)
Lemma time_gt_ahead base a b :
  ahead base a < 2 ^ 31 → ahead base b < 2 ^ 31 → TIME_GT a b = (ahead base b <? ahead base a).
Proof.
  unfold TIME_GT, ahead, s32, u32. intros Ha Hb.
  apply eq_true_iff_eq. rewrite !Z.ltb_lt. Z.div_mod_to_equations. lia.
Qed.

Lemma insert_sorted_perm tms tm time q l : insert_sorted tms tm time q = Ok l → l ≡ₚ tm :: q.
Proof.
  revert l. induction q as [|e q IH]; intros l; cbn; [by intros [= <-]|].
  destruct (tms !! e); [|done]. cbn. case_match; [by intros [= <-]|].
  destruct (insert_sorted tms tm time q) as [r| |]; [|done..]. cbn. intros [= <-].
  rewrite (IH r) by done. by constructor.
Qed.

Lemma insert_sorted_order base tms tm x q l :
  tms !! tm = Some x → ahead base (scheduled_time x) < 2 ^ 31 → Forall (in_window base tms) q →
  StronglySorted (due_order base tms) q → insert_sorted tms tm (scheduled_time x) q = Ok l →
  StronglySorted (due_order base tms) l.
Proof.
  intros Hx Hw. revert l. induction q as [|e q IH]; intros l HF HS; cbn.
  { intros [= <-]. repeat constructor. }
  apply Forall_cons in HF as [(y & Hy & Hwy) HF]. apply StronglySorted_inv in HS as [HS Hall].
  rewrite Hy. cbn. rewrite (time_gt_ahead base) by done. case_match eqn:Egt.
  - apply Z.ltb_lt in Egt. intros [= <-]. constructor; [by constructor|]. constructor.
    + intros x' y' ??. simplify_eq. lia.
    + rewrite Forall_forall in Hall, HF |- *. intros z Hz x' z' ? Hz'. simplify_eq.
      pose proof (Hall z Hz y z' Hy Hz'). lia.
  - apply Z.ltb_ge in Egt.
    destruct (insert_sorted tms tm (scheduled_time x) q) as [r| |] eqn:Er; [|done..]. cbn. intros [= <-].
    constructor; [by eapply IH|]. rewrite (insert_sorted_perm _ _ _ _ _ Er). constructor; [|done].
    intros y' x' ??. simplify_eq. lia.
Qed.

(** The queue of [s] is ordered by due time, all due times being within 2^31 ms. *)
Definition queue_sorted (base : Z) (s : kstate) : Prop :=
  StronglySorted (due_order base (timers s)) (timer_queue s) ∧
  Forall (in_window base (timers s)) (timer_queue s).

Lemma due_order_insert base tms tm x q :
  tm ∉ q → StronglySorted (due_order base tms) q → StronglySorted (due_order base (<[tm := x]> tms)) q.
Proof.
  intros Hin HS. induction HS as [|e q HS IH Hall]; constructor; [apply IH; set_solver|].
  rewrite Forall_forall in Hall |- *. intros z Hz a b. rewrite !lookup_insert_ne by set_solver. by apply Hall.
Qed.

Lemma in_window_insert base tms tm x q :
  tm ∉ q → Forall (in_window base tms) q → Forall (in_window base (<[tm := x]> tms)) q.
Proof.
  rewrite !Forall_forall. intros Hin HF z Hz. destruct (HF z Hz) as (y & ? & ?). exists y.
  rewrite lookup_insert_ne by set_solver. done.
Qed.

(** C39: [timer_set] keeps the timer queue ordered by due time, across the wrap-around
    of the 32-bit clock, as long as all due times lie within 2^31 ms of each other;
    so the head of the queue, which is all that the tick looks at, is the first timer
    to expire. *)
Theorem timer_set_sorted base tm delay period cb arg s s' :
  tm ∉ timer_queue s → queue_sorted base s → ahead base (u32 (current_time s + delay)) < 2 ^ 31 →
  timer_set tm delay period cb arg s = Ok s' →
  queue_sorted base s' ∧ timer_queue s' ≡ₚ tm :: timer_queue s.
Proof.
  intros Hin [HS HF] Hw. unfold timer_set, get_timer, timer_in_list.
  destruct (timers s !! tm); [|done]. cbn [deref mbind res_bind]. rewrite bool_decide_eq_false_2 by done.
  set (x := mkTimer _ _ _ _). set (s1 := enter_critical_section _).
  assert (timers s1 = <[tm := x]> (timers s)) as Et by (subst s1; unfold enter_critical_section; by case_match).
  assert (timer_queue s1 = timer_queue s) as Eq by (subst s1; unfold enter_critical_section; by case_match).
  unfold insert_timer_in_queue, get_timer. rewrite Et, lookup_insert_eq, Eq. cbn [deref mbind res_bind].
  destruct (insert_sorted _ tm _ _) as [l| |] eqn:El; [|done..]. cbn [mbind res_bind]. intros [= <-].
  set (s2 := exit_critical_section _). unfold queue_sorted.
  assert (timers s2 = <[tm := x]> (timers s)) as -> by (subst s2; unfold exit_critical_section; by case_match).
  assert (timer_queue s2 = l) as -> by (subst s2; unfold exit_critical_section; by case_match).
  pose proof (insert_sorted_perm _ _ _ _ _ El) as Hp. split; [split|done].
  - eapply (insert_sorted_order base _ _ x); [by rewrite lookup_insert_eq|done|by apply in_window_insert| |exact El].
    by apply due_order_insert.
  - rewrite Hp. constructor; [|by apply in_window_insert]. exists x. by rewrite lookup_insert_eq.
Qed.

(** Two timers that are already queued, on both sides of the wrap-around of the clock. *)
Definition wrap_state : kstate :=
  set_current_time (2 ^ 32 - 10)
    (set_timer_queue [inr 0%nat; inr 1%nat]
       (set_timers {[ inr 0%nat := mkTimer (2 ^ 32 - 5) 0 (Some (CbDriver INT_NO_RESCHEDULE)) None;
                      inr 1%nat := mkTimer 90 0 (Some (CbDriver INT_NO_RESCHEDULE)) None;
                      inr 2%nat := mkTimer 0 0 None None ]}
          (mkK ∅ [] 0 0 true [] 0 None ∅ ∅ ∅ [] ∅ 0 []))).

Lemma timer_set_sorted_witness :
  ∃ s', timer_set (inr 2%nat) 20 0 (CbDriver INT_RESCHEDULE) None wrap_state = Ok s' ∧
        timer_queue s' = [inr 0%nat; inr 2%nat; inr 1%nat] ∧ queue_sorted (2 ^ 32 - 10) s'.
Proof.
  eexists. split; [vm_compute; reflexivity|]. split; [reflexivity|].
  refine (proj1 (timer_set_sorted (2 ^ 32 - 10) (inr 2%nat) 20 0 (CbDriver INT_RESCHEDULE) None wrap_state _ _ _ _ _)).
  - vm_compute. set_solver.
  - split.
    + repeat constructor. intros x y Hx Hy. vm_compute in Hx, Hy. simplify_eq. vm_compute. discriminate.
    + repeat constructor; (eexists; split; [vm_compute; reflexivity|vm_compute; reflexivity]).
  - vm_compute. reflexivity.
  - vm_compute. reflexivity.
Defined.
