(* ===== verification/KThread.v ===== *)
(** The scheduler and the wait queues (src/bootable/lk/kernel/thread.c), with
    DEBUGLEVEL 2 as include/debug.h sets it: the checks under THREAD_CHECKS are
    active and a failed ASSERT is [Panic].  The counters of [thread_stats] are
    only written by this code and are left out.

    A function that may switch threads returns [(Some v, s)] when it comes back
    to its caller with value [v], and [(None, s)] when the processor now runs
    another thread; in that case the caller's remaining code waits on the stack
    of the thread that was switched out. *)
From Stdlib Require Import ZArith.
From stdpp Require Import base numbers list gmap strings.
From S2P Require Import Prelude KState KTimer.

Abbreviation kret := (option Z * kstate)%type.

(** * Run queue manipulation *)

(** [list_add_head/list_add_tail(&run_queue[t->priority], &t->queue_node)] and
    the bitmap, after the checks that the two insertion functions share. *)
Definition insert_in_run_queue (add : tid → list tid → list tid) (t : tid) (s : kstate) : res kstate :=
  th ← get_thread t s;
  _ ← ASSERT (is_state THREAD_READY th);
  _ ← ASSERT (negb (queue_node th));
  _ ← ASSERT (in_critical_section s);
  let p := priority th in
  if bool_decide (0 ≤ p) then
    q ← deref (run_queue s !! Z.to_nat p);
    let s := set_run_queue (<[Z.to_nat p := add t q]> (run_queue s)) s in
    let s := upd_thread t (set_queue_node true) s in
    Ok (set_run_queue_bitmap (Z.lor (run_queue_bitmap s) (u32 (Z.shiftl 1 p))) s)
  else Fault.

Definition insert_in_run_queue_head := insert_in_run_queue (λ t q, t :: q).
Definition insert_in_run_queue_tail := insert_in_run_queue (λ t q, q ++ [t]).

(** * Creating threads *)

Definition THREAD_NAME_MAX : nat := 31.

Definition init_thread_struct (name : string) : thread :=
  mkThread (String.substring 0 THREAD_NAME_MAX name) 0 0 0 THREAD_SUSPENDED 0 0 false None 0 0 0 [] 0.

(** [alloc] and [stack_ok] are the outcomes of the two calls of malloc: the
    address of the new structure, and whether the stack could be allocated.
    [arch_thread_initialize] makes [initial_thread_func] the code to resume. *)
Definition thread_create (alloc : option tid) (stack_ok : bool) (name : string) (entry arg : Z)
    (prio ssize : Z) (s : kstate) : option tid * kstate :=
  match alloc with
  | None => (None, s)
  | Some t =>
      if stack_ok then
        let th := mkThread (String.substring 0 THREAD_NAME_MAX name) entry arg prio THREAD_SUSPENDED
                    1 0 false None NO_ERROR ssize 0 [FInitialThread] 0 in
        let s := set_threads (<[t := th]> (threads s)) s in
        let s := enter_critical_section s in
        let s := set_thread_list (t :: thread_list s) s in
        (Some t, exit_critical_section s)
      else (None, s)
  end.

(** * Rescheduling *)

(** [__builtin_clz] on a non-zero 32-bit word. *)
Definition builtin_clz (x : Z) : Z := 31 - Z.log2 x.

(** [list_remove_head_type(&run_queue[p], ...)] gave [t] and left [q]; the bit is
    cleared when the queue is now empty. *)
Definition rq_removed (p : nat) (t : tid) (q : list tid) (s : kstate) : kstate :=
  let s := upd_thread t (set_queue_node false) (set_run_queue (<[p := q]> (run_queue s)) s) in
  if bool_decide (q = [])
  then set_run_queue_bitmap (Z.land (run_queue_bitmap s) (Z.lnot (Z.shiftl 1 (Z.of_nat p)))) s
  else s.

Definition thread_resched (s : kstate) : res kret :=
  _ ← ASSERT (in_critical_section s);
  let oldthread := current_thread s in
  _ ← ASSERT (negb (run_queue_bitmap s =? 0));
  let next_queue := HIGHEST_PRIORITY - builtin_clz (run_queue_bitmap s) - (32 - NUM_PRIORITIES) in
  q ← deref (run_queue s !! Z.to_nat next_queue);
  match q with
  | [] => Panic
  | newthread :: q' =>
      let s := rq_removed (Z.to_nat next_queue) newthread q' s in
      nt ← get_thread newthread s;
      let s := upd_thread newthread (set_state THREAD_RUNNING) s in
      if bool_decide (newthread = oldthread) then Ok (Some 0, s)
      else
        let s := if remaining_quantum nt <=? 0
                 then upd_thread newthread (set_remaining_quantum 5) s else s in
        _ ← ASSERT (in_critical_section s);
        _ ← ASSERT (0 <? saved_critical_section_count nt);
        let s := upd_thread oldthread
                   (set_saved_critical_section_count (critical_section_count s)) s in
        let s := set_current_thread newthread s in
        let s := set_critical_section_count (saved_critical_section_count nt) s in
        Ok (None, s)
  end.

(** The linear search that the bitmap replaces (the block under [#if 0]): the
    highest priority whose queue is not empty. *)
Fixpoint scan_run_queue (rq : list (list tid)) (n : nat) : option (nat * tid) :=
  match n with
  | O => None
  | S i =>
      match rq !! i with
      | Some (t :: _) => Some (i, t)
      | _ => scan_run_queue rq i
      end
  end.

(** Thread_resched with that search in the place of the bitmap. *)
Definition thread_resched_scan (s : kstate) : res kret :=
  _ ← ASSERT (in_critical_section s);
  let oldthread := current_thread s in
  match scan_run_queue (run_queue s) 32 with
  | None => Panic
  | Some (p, newthread) =>
      q ← deref (run_queue s !! p);
      let s := rq_removed p newthread (tail q) s in
      nt ← get_thread newthread s;
      let s := upd_thread newthread (set_state THREAD_RUNNING) s in
      if bool_decide (newthread = oldthread) then Ok (Some 0, s)
      else
        let s := if remaining_quantum nt <=? 0
                 then upd_thread newthread (set_remaining_quantum 5) s else s in
        _ ← ASSERT (in_critical_section s);
        _ ← ASSERT (0 <? saved_critical_section_count nt);
        let s := upd_thread oldthread
                   (set_saved_critical_section_count (critical_section_count s)) s in
        let s := set_current_thread newthread s in
        let s := set_critical_section_count (saved_critical_section_count nt) s in
        Ok (None, s)
  end.

(** * The code that runs when a thread resumes *)

Definition run_frame (f : frame) (v : Z) (s : kstate) : res (Z * kstate) :=
  match f with
  | FExit => Ok (v, exit_critical_section s)
  | FRet v' => Ok (v', s)
  | FIrqReturn r =>
      Ok (r, set_ints_enabled true
               (set_critical_section_count (critical_section_count s - 1) s))
  | FInitialThread => Ok (v, exit_critical_section s)
  | FWaitQueueBlock timeout =>
      s ← (if timeout =? INFINITE_TIME then Ok s else timer_cancel (inl (current_thread s)) s);
      th ← get_current s;
      Ok (wait_queue_block_ret th, s)
  | FWaitQueueDestroy w =>
      q ← get_wait_queue w s;
      Ok (v, put_wait_queue w (set_wq_magic 0 q) s)
  | FMutexAcquire m =>
      x ← get_mutex m s;
      let s := if v <? 0 then s else put_mutex m (set_m_holder (Some (current_thread s)) x) s in
      Ok (v, exit_critical_section s)
  | FMutexAcquireTimeout m =>
      x ← get_mutex m s;
      let s := if (v <? NO_ERROR) && (v =? ERR_TIMED_OUT)
               then put_mutex m (set_m_count (m_count x - 1) x) s
               else put_mutex m (set_m_holder (Some (current_thread s)) x) s in
      Ok (v, exit_critical_section s)
  | FEventSignal e =>
      s ← (if v <=? 0 then x ← get_event e s; Ok (put_event e (set_e_signalled true x) s)
           else Ok s);
      Ok (NO_ERROR, exit_critical_section s)
  end.

Fixpoint run_frames (fs : list frame) (v : Z) (s : kstate) : res (Z * kstate) :=
  match fs with
  | [] => Ok (v, s)
  | f :: fs => '(v, s) ← run_frame f v s; run_frames fs v s
  end.

(** Call [op] with the code [k] to run after it: [k] waits on the stack while
    [op] runs, and runs at once when [op] returns without switching threads. *)
Definition invoke (k : list frame) (op : kstate → res kret) (s : kstate) : res kret :=
  '(r, s) ← op (push_frames k s);
  match r with
  | Some v => '(v, s) ← run_frames k v (pop_frames (length k) s); Ok (Some v, s)
  | None => Ok (None, s)
  end.

(** * Scheduler entry points *)

Definition thread_yield (s : kstate) : res kret :=
  th ← get_current s;
  _ ← ASSERT (is_state THREAD_RUNNING th);
  let s := enter_critical_section s in
  let s := upd_current (set_state THREAD_READY) s in
  let s := upd_current (set_remaining_quantum 0) s in
  s ← insert_in_run_queue_tail (current_thread s) s;
  invoke [FExit] thread_resched s.

Definition thread_preempt (s : kstate) : res kret :=
  th ← get_current s;
  _ ← ASSERT (is_state THREAD_RUNNING th);
  let s := enter_critical_section s in
  let s := upd_current (set_state THREAD_READY) s in
  s ← (if 0 <? remaining_quantum th
       then insert_in_run_queue_head (current_thread s) s
       else insert_in_run_queue_tail (current_thread s) s);
  invoke [FExit] thread_resched s.

Definition thread_block (s : kstate) : res kret :=
  th ← get_current s;
  _ ← ASSERT (is_state THREAD_BLOCKED th);
  let s := enter_critical_section s in
  invoke [FExit] thread_resched s.

Definition thread_resume (t : tid) (s : kstate) : res kret :=
  th ← get_thread t s;
  _ ← ASSERT (negb (is_state THREAD_DEATH th));
  if is_state THREAD_READY th || is_state THREAD_RUNNING th then Ok (Some ERR_NOT_SUSPENDED, s)
  else
    let s := enter_critical_section s in
    let s := upd_thread t (set_state THREAD_READY) s in
    s ← insert_in_run_queue_head t s;
    invoke [FExit; FRet NO_ERROR] thread_yield s.

Definition thread_timer_tick (s : kstate) : res (handler_return * kstate) :=
  if bool_decide (idle_thread s = Some (current_thread s)) then Ok (INT_NO_RESCHEDULE, s)
  else
    th ← get_current s;
    let s := upd_current (set_remaining_quantum (remaining_quantum th - 1)) s in
    Ok (if remaining_quantum th - 1 <=? 0 then INT_RESCHEDULE else INT_NO_RESCHEDULE, s).

Definition thread_sleep_handler (arg : option tid) (s : kstate) : res (handler_return * kstate) :=
  t ← deref arg;
  th ← get_thread t s;
  _ ← ASSERT (is_state THREAD_SLEEPING th);
  let s := upd_thread t (set_state THREAD_READY) s in
  s ← insert_in_run_queue_head t s;
  Ok (INT_RESCHEDULE, s).

Definition thread_sleep (delay : Z) (s : kstate) : res kret :=
  th ← get_current s;
  _ ← ASSERT (is_state THREAD_RUNNING th);
  let cur := current_thread s in
  let s := timer_initialize (inl cur) s in
  let s := enter_critical_section s in
  s ← timer_set_oneshot (inl cur) delay CbThreadSleep (Some cur) s;
  let s := upd_current (set_state THREAD_SLEEPING) s in
  invoke [FExit] thread_resched s.

Definition thread_set_name (name : string) (s : kstate) : kstate :=
  upd_current (set_th_name (String.substring 0 THREAD_NAME_MAX name)) s.

Definition thread_set_priority (p : Z) (s : kstate) : kstate :=
  let p := if p <? LOWEST_PRIORITY then LOWEST_PRIORITY else p in
  let p := if HIGHEST_PRIORITY <? p then HIGHEST_PRIORITY else p in
  upd_current (set_priority p) s.

(** [idle_thread_routine], the endless loop that follows, only waits for interrupts. *)
Definition thread_become_idle (s : kstate) : kstate :=
  let s := thread_set_name "idle" s in
  let s := thread_set_priority IDLE_PRIORITY s in
  set_idle_thread (Some (current_thread s)) s.

(** The state after [thread_init_early], where [boot] is &bootstrap_thread. *)
Definition thread_init_early (boot : tid) : kstate :=
  let t := set_saved_critical_section_count 1
             (set_state THREAD_RUNNING
                (set_priority HIGHEST_PRIORITY (init_thread_struct "bootstrap"))) in
  mkK {[boot := t]} [boot] boot 1 false (replicate 32 []) 0 None ∅ ∅ ∅ [] ∅ 0 [].

(** * Wait queues *)

Definition wait_queue_init (w : oid) (s : kstate) : kstate :=
  put_wait_queue w (mkWaitQueue WAIT_QUEUE_MAGIC [] 0) s.

(** [list_delete(&t->queue_node)] on the wait queue the thread is on, and the count. *)
Definition wait_queue_unlink (w : oid) (t : tid) (s : kstate) : res kstate :=
  q ← get_wait_queue w s;
  let q := mkWaitQueue (wq_magic q) (filter (λ x, x ≠ t) (wq_list q)) (wq_count q - 1) in
  Ok (upd_thread t (set_queue_node false) (put_wait_queue w q s)).

(** [t->state = THREAD_READY; t->wait_queue_block_ret = err; t->blocking_wait_queue = NULL;] *)
Definition mark_woken (err : Z) (th : thread) : thread :=
  set_blocking_wait_queue None (set_wait_queue_block_ret err (set_state THREAD_READY th)).

Definition thread_unblock_from_wait_queue (t : tid) (reschedule : bool) (err : Z) (s : kstate)
    : res kret :=
  let s := enter_critical_section s in
  th ← get_thread t s;
  if negb (is_state THREAD_BLOCKED th) then Ok (Some ERR_NOT_BLOCKED, s)
  else
    w ← (match blocking_wait_queue th with Some w => Ok w | None => Panic end);
    q ← get_wait_queue w s;
    _ ← ASSERT (wq_magic q =? WAIT_QUEUE_MAGIC);
    _ ← ASSERT (queue_node th);
    s ← wait_queue_unlink w t s;
    let s := upd_thread t (mark_woken err) s in
    s ← insert_in_run_queue_head t s;
    if reschedule then invoke [FExit; FRet NO_ERROR] thread_resched s
    else Ok (Some NO_ERROR, exit_critical_section s).

(** Timer callback; it passes [reschedule = false], so the call always returns. *)
Definition wait_queue_timeout_handler (arg : option tid) (s : kstate)
    : res (handler_return * kstate) :=
  t ← deref arg;
  '(r, s) ← thread_unblock_from_wait_queue t false ERR_TIMED_OUT s;
  match r with
  | Some v => Ok (if NO_ERROR <=? v then INT_RESCHEDULE else INT_NO_RESCHEDULE, s)
  | None => Fault
  end.

Definition wait_queue_block (w : oid) (timeout : Z) (s : kstate) : res kret :=
  q ← get_wait_queue w s;
  th ← get_current s;
  _ ← ASSERT (wq_magic q =? WAIT_QUEUE_MAGIC);
  _ ← ASSERT (is_state THREAD_RUNNING th);
  _ ← ASSERT (in_critical_section s);
  if timeout =? 0 then Ok (Some ERR_TIMED_OUT, s)
  else
    let cur := current_thread s in
    let s := put_wait_queue w (mkWaitQueue (wq_magic q) (wq_list q ++ [cur]) (wq_count q + 1)) s in
    let s := upd_current (set_queue_node true) s in
    let s := upd_current (set_state THREAD_BLOCKED) s in
    let s := upd_current (set_blocking_wait_queue (Some w)) s in
    let s := upd_current (set_wait_queue_block_ret NO_ERROR) s in
    s ← (if timeout =? INFINITE_TIME then Ok s
         else timer_set_oneshot (inl cur) timeout CbWaitQueueTimeout (Some cur)
                (timer_initialize (inl cur) s));
    invoke [FWaitQueueBlock timeout] thread_block s.

Definition wait_queue_wake_one (w : oid) (reschedule : bool) (err : Z) (s : kstate) : res kret :=
  q ← get_wait_queue w s;
  _ ← ASSERT (wq_magic q =? WAIT_QUEUE_MAGIC);
  _ ← ASSERT (in_critical_section s);
  match wq_list q with
  | [] => Ok (Some 0, s)
  | t :: _ =>
      s ← wait_queue_unlink w t s;
      th ← get_thread t s;
      _ ← ASSERT (is_state THREAD_BLOCKED th);
      let s := upd_thread t (mark_woken err) s in
      s ← (if reschedule
           then insert_in_run_queue_head (current_thread s) (upd_current (set_state THREAD_READY) s)
           else Ok s);
      s ← insert_in_run_queue_head t s;
      if reschedule then invoke [FRet 1] thread_resched s else Ok (Some 1, s)
  end.

(** The loop of [wait_queue_wake_all]; [fuel] is the length of the queue, and
    each round removes one thread. *)
Fixpoint wake_all_loop (fuel : nat) (w : oid) (err ret : Z) (s : kstate) : res (Z * kstate) :=
  q ← get_wait_queue w s;
  match wq_list q, fuel with
  | [], _ => Ok (ret, s)
  | _ :: _, O => Fault
  | t :: _, S fuel =>
      s ← wait_queue_unlink w t s;
      th ← get_thread t s;
      _ ← ASSERT (is_state THREAD_BLOCKED th);
      let s := upd_thread t (mark_woken err) s in
      s ← insert_in_run_queue_head t s;
      wake_all_loop fuel w err (ret + 1) s
  end.

Definition wait_queue_wake_all (w : oid) (reschedule : bool) (err : Z) (s : kstate) : res kret :=
  q ← get_wait_queue w s;
  _ ← ASSERT (wq_magic q =? WAIT_QUEUE_MAGIC);
  _ ← ASSERT (in_critical_section s);
  s ← (if reschedule && (0 <? wq_count q)
       then insert_in_run_queue_head (current_thread s) (upd_current (set_state THREAD_READY) s)
       else Ok s);
  '(ret, s) ← wake_all_loop (length (wq_list q)) w err 0 s;
  q ← get_wait_queue w s;
  _ ← ASSERT (wq_count q =? 0);
  if reschedule && (0 <? ret) then invoke [FRet ret] thread_resched s else Ok (Some ret, s).

Definition wait_queue_destroy (w : oid) (reschedule : bool) (s : kstate) : res kret :=
  q ← get_wait_queue w s;
  _ ← ASSERT (wq_magic q =? WAIT_QUEUE_MAGIC);
  _ ← ASSERT (in_critical_section s);
  invoke [FWaitQueueDestroy w] (wait_queue_wake_all w reschedule ERR_OBJECT_DESTROYED) s.
