(* ===== verification/KSync.v ===== *)
(** Mutexes, events, deferred procedure calls, thread exit and the timer
    interrupt (src/bootable/lk/kernel/mutex.c, event.c, dpc.c, timer.c and the
    rest of thread.c), then the kernel as a transition system: one step is a
    kernel call made by the current thread or a timer interrupt. *)
From Stdlib Require Import ZArith.
From stdpp Require Import base numbers list gmap strings relations.
From S2P Require Import Prelude KState KTimer KThread.

(** * Mutexes *)

Definition mutex_init (m : oid) (s : kstate) : kstate :=
  wait_queue_init m (put_mutex m (mkMutex MUTEX_MAGIC 0 None) s).

Definition mutex_destroy (m : oid) (s : kstate) : res kret :=
  let s := enter_critical_section s in
  x ← get_mutex m s;
  _ ← ASSERT (m_magic x =? MUTEX_MAGIC);
  let s := put_mutex m (set_m_count 0 (set_m_magic 0 x)) s in
  invoke [FExit] (wait_queue_destroy m true) s.

Definition mutex_acquire (m : oid) (s : kstate) : res kret :=
  x ← get_mutex m s;
  if bool_decide (m_holder x = Some (current_thread s)) then Panic
  else
    let s := enter_critical_section s in
    _ ← ASSERT (m_magic x =? MUTEX_MAGIC);
    let x := set_m_count (m_count x + 1) x in
    let s := put_mutex m x s in
    if 1 <? m_count x
    then invoke [FMutexAcquire m] (wait_queue_block m INFINITE_TIME) s
    else
      let s := put_mutex m (set_m_holder (Some (current_thread s)) x) s in
      Ok (Some NO_ERROR, exit_critical_section s).

Definition mutex_acquire_timeout (m : oid) (timeout : Z) (s : kstate) : res kret :=
  x ← get_mutex m s;
  if bool_decide (m_holder x = Some (current_thread s)) then Panic
  else if timeout =? INFINITE_TIME then mutex_acquire m s
  else
    let s := enter_critical_section s in
    _ ← ASSERT (m_magic x =? MUTEX_MAGIC);
    let x := set_m_count (m_count x + 1) x in
    let s := put_mutex m x s in
    if 1 <? m_count x
    then invoke [FMutexAcquireTimeout m] (wait_queue_block m timeout) s
    else
      let s := put_mutex m (set_m_holder (Some (current_thread s)) x) s in
      Ok (Some NO_ERROR, exit_critical_section s).

Definition mutex_release (m : oid) (s : kstate) : res kret :=
  x ← get_mutex m s;
  if negb (bool_decide (m_holder x = Some (current_thread s))) then Panic
  else
    let s := enter_critical_section s in
    _ ← ASSERT (m_magic x =? MUTEX_MAGIC);
    let x := set_m_count (m_count x - 1) (set_m_holder None x) in
    let s := put_mutex m x s in
    if 1 <=? m_count x
    then invoke [FExit; FRet NO_ERROR] (wait_queue_wake_one m true NO_ERROR) s
    else Ok (Some NO_ERROR, exit_critical_section s).

(** * Events *)

Definition event_init (e : oid) (initial : bool) (flags : Z) (s : kstate) : kstate :=
  wait_queue_init e (put_event e (mkEvent EVENT_MAGIC initial flags) s).

Definition event_destroy (e : oid) (s : kstate) : res kret :=
  let s := enter_critical_section s in
  x ← get_event e s;
  _ ← ASSERT (e_magic x =? EVENT_MAGIC);
  let s := put_event e (mkEvent 0 false 0) s in
  invoke [FExit] (wait_queue_destroy e true) s.

Definition autounsignal (x : event) : bool :=
  negb (Z.land (e_flags x) EVENT_FLAG_AUTOUNSIGNAL =? 0).

Definition event_wait_timeout (e : oid) (timeout : Z) (s : kstate) : res kret :=
  let s := enter_critical_section s in
  x ← get_event e s;
  _ ← ASSERT (e_magic x =? EVENT_MAGIC);
  if e_signalled x then
    let s := if autounsignal x then put_event e (set_e_signalled false x) s else s in
    Ok (Some NO_ERROR, exit_critical_section s)
  else invoke [FExit] (wait_queue_block e timeout) s.

Definition event_wait (e : oid) (s : kstate) : res kret := event_wait_timeout e INFINITE_TIME s.

Definition event_signal (e : oid) (reschedule : bool) (s : kstate) : res kret :=
  let s := enter_critical_section s in
  x ← get_event e s;
  _ ← ASSERT (e_magic x =? EVENT_MAGIC);
  if negb (e_signalled x) then
    if autounsignal x
    then invoke [FEventSignal e] (wait_queue_wake_one e reschedule NO_ERROR) s
    else invoke [FExit; FRet NO_ERROR] (wait_queue_wake_all e reschedule NO_ERROR)
           (put_event e (set_e_signalled true x) s)
  else Ok (Some NO_ERROR, exit_critical_section s).

Definition event_unsignal (e : oid) (s : kstate) : res kret :=
  let s := enter_critical_section s in
  x ← get_event e s;
  _ ← ASSERT (e_magic x =? EVENT_MAGIC);
  let s := put_event e (set_e_signalled false x) s in
  Ok (Some NO_ERROR, exit_critical_section s).

(** * Deferred procedure calls; [dpc_event] is the identifier of the static event *)

Section Dpc.
Context (dpc_event : oid).

(** [alloc_ok]: whether malloc returned a structure (its result is not checked). *)
Definition dpc_queue (alloc_ok : bool) (cb : dpc_callback) (arg : tid) (flags : Z) (s : kstate)
    : res kret :=
  if negb alloc_ok then Fault
  else
    let s := enter_critical_section s in
    let s := set_dpc_list (dpc_list s ++ [mkDpc cb arg]) s in
    invoke [FExit; FRet NO_ERROR]
      (event_signal dpc_event (Z.land flags DPC_FLAG_NORESCHED =? 0)) s.

Definition thread_cleanup_dpc (t : tid) (s : kstate) : res kstate :=
  th ← get_thread t s;
  _ ← ASSERT (is_state THREAD_DEATH th);
  _ ← ASSERT (bool_decide (blocking_wait_queue th = None));
  _ ← ASSERT (negb (queue_node th));
  let s := enter_critical_section s in
  let s := set_thread_list (filter (λ x, x ≠ t) (thread_list s)) s in
  let s := exit_critical_section s in
  Ok (set_threads (delete t (threads s)) s).

(** One round of [dpc_thread_routine] after [event_wait] has returned. *)
Definition dpc_thread_round (s : kstate) : res kret :=
  let s := enter_critical_section s in
  match dpc_list s with
  | [] =>
      '(_, s) ← event_unsignal dpc_event s;
      Ok (Some NO_ERROR, exit_critical_section s)
  | d :: ds =>
      let s := exit_critical_section (set_dpc_list ds s) in
      s ← (match dpc_cb d with thread_cleanup_dpc_cb => thread_cleanup_dpc (dpc_arg d) s end);
      Ok (Some NO_ERROR, s)
  end.

Definition thread_exit (alloc_ok : bool) (rc : Z) (s : kstate) : res kret :=
  th ← get_current s;
  _ ← ASSERT (is_state THREAD_RUNNING th);
  let s := enter_critical_section s in
  let s := upd_current (set_state THREAD_DEATH) s in
  let s := upd_current (set_retcode rc) s in
  '(_, s) ← dpc_queue alloc_ok thread_cleanup_dpc_cb (current_thread s) DPC_FLAG_NORESCHED s;
  '(r, s) ← thread_resched s;
  match r with
  | Some _ => Panic
  | None => Ok (None, s)
  end.

(** * The timer interrupt *)

Definition run_timer_callback (cb : timer_callback) (arg : option tid) (s : kstate)
    : res (handler_return * kstate) :=
  match cb with
  | CbThreadSleep => thread_sleep_handler arg s
  | CbWaitQueueTimeout => wait_queue_timeout_handler arg s
  | CbDriver r => Ok (r, s)
  end.

(** The body of the loop of [timer_tick] on the timer at the head of the queue. *)
Definition timer_tick_one (now : Z) (tm : timer_id) (rest : list timer_id) (t : timer) (s : kstate)
    : res (handler_return * kstate) :=
  let s := set_timer_queue rest s in
  let periodic := 0 <? periodic_time t in
  cb ← deref (callback t);
  '(r, s) ← run_timer_callback cb (tm_arg t) s;
  t' ← get_timer tm s;
  if periodic && negb (timer_in_list tm s) && (0 <? periodic_time t') then
    let s := put_timer tm (set_scheduled_time (u32 (now + periodic_time t')) t') s in
    s ← insert_timer_in_queue tm s;
    Ok (r, s)
  else Ok (r, s).

Fixpoint timer_tick_loop (fuel : nat) (now : Z) (s : kstate) : res kstate :=
  match timer_queue s with
  | [] => Ok s
  | tm :: rest =>
      t ← get_timer tm s;
      if TIME_LT now (scheduled_time t) then Ok s
      else
        match fuel with
        | O => Fault
        | S fuel => '(_, s) ← timer_tick_one now tm rest t s; timer_tick_loop fuel now s
        end
  end.

(** The C loop has no bound; it runs at most once per queued timer, so the length
    of the queue is the fuel.  The result is INT_RESCHEDULE whatever the callbacks
    and the quantum say (the source marks this with XXX). *)
Definition timer_tick (now : Z) (s : kstate) : res (handler_return * kstate) :=
  s ← timer_tick_loop (length (timer_queue s)) now s;
  '(_, s) ← thread_timer_tick s;
  Ok (INT_RESCHEDULE, s).

(** [arm_irq] with the platform's timer interrupt at time [now]: the hardware
    masks interrupts, the count goes up, and the handler's answer decides
    whether the thread is preempted. *)
Definition timer_irq (now : Z) (s : kstate) : res kret :=
  th ← get_current s;
  let s := set_current_time now (set_ints_enabled false s) in
  let s := set_critical_section_count (critical_section_count s + 1) s in
  invoke [FIrqReturn (r0 th)]
    (λ s, '(r, s) ← timer_tick now s;
          match r with
          | INT_RESCHEDULE => thread_preempt s
          | INT_NO_RESCHEDULE => Ok (Some 0, s)
          end) s.

(** * The kernel as a transition system *)

(** What the current thread can ask of the kernel. *)
Inductive call :=
  | CYield
  | CCreate (alloc : option tid) (stack_ok : bool) (name : string) (entry arg prio ssize : Z)
  | CResume (t : tid)
  | CExit (alloc_ok : bool) (rc : Z)
  | CSleep (delay : Z)
  | CSetPriority (p : Z)
  | CBecomeIdle
  | CEnterCritical
  | CExitCritical
  | CMutexInit (m : oid)
  | CMutexAcquire (m : oid)
  | CMutexAcquireTimeout (m : oid) (timeout : Z)
  | CMutexRelease (m : oid)
  | CMutexDestroy (m : oid)
  | CEventInit (e : oid) (initial : bool) (flags : Z)
  | CEventWait (e : oid) (timeout : Z)
  | CEventSignal (e : oid) (reschedule : bool)
  | CEventUnsignal (e : oid)
  | CEventDestroy (e : oid)
  | CUnblock (t : tid) (reschedule : bool) (err : Z)
  | CDpcRound
  | CTimerInit (tm : nat)
  | CTimerOneshot (tm : nat) (delay : Z) (r : handler_return)
  | CTimerPeriodic (tm : nat) (period : Z) (r : handler_return)
  | CTimerCancel (tm : nat).

Definition returns (v : Z) (s : kstate) : res kret := Ok (Some v, s).

Definition do_call (c : call) (s : kstate) : res kret :=
  match c with
  | CYield => thread_yield s
  | CCreate a so name entry arg prio ssize =>
      let '(t, s) := thread_create a so name entry arg prio ssize s in
      returns (match t with Some t => Z.of_nat t | None => 0 end) s
  | CResume t => thread_resume t s
  | CExit ok rc => thread_exit ok rc s
  | CSleep d => thread_sleep d s
  | CSetPriority p => returns 0 (thread_set_priority p s)
  | CBecomeIdle => returns 0 (thread_become_idle s)
  | CEnterCritical => returns 0 (enter_critical_section s)
  | CExitCritical => returns 0 (exit_critical_section s)
  | CMutexInit m => returns 0 (mutex_init m s)
  | CMutexAcquire m => mutex_acquire m s
  | CMutexAcquireTimeout m t => mutex_acquire_timeout m t s
  | CMutexRelease m => mutex_release m s
  | CMutexDestroy m => mutex_destroy m s
  | CEventInit e i f => returns 0 (event_init e i f s)
  | CEventWait e t => event_wait_timeout e t s
  | CEventSignal e b => event_signal e b s
  | CEventUnsignal e => event_unsignal e s
  | CEventDestroy e => event_destroy e s
  | CUnblock t b err => thread_unblock_from_wait_queue t b err s
  | CDpcRound => dpc_thread_round s
  | CTimerInit n => returns 0 (timer_initialize (inr n) s)
  | CTimerOneshot n d r => s ← timer_set_oneshot (inr n) d (CbDriver r) None s; returns 0 s
  | CTimerPeriodic n p r => s ← timer_set_periodic (inr n) p (CbDriver r) None s; returns 0 s
  | CTimerCancel n => s ← timer_cancel (inr n) s; returns 0 s
  end.

(** Back to thread code: the pending code of the thread that now runs is executed
    and the value of its kernel call is delivered to it. *)
Definition finish (r : kret) : res kstate :=
  match r with
  | (Some v, s) => Ok (upd_current (set_r0 v) s)
  | (None, s) =>
      th ← get_current s;
      '(v, s) ← run_frames (kstack th) 0 (upd_current (set_kstack []) s);
      Ok (upd_current (set_r0 v) s)
  end.

Definition exec_call (c : call) (s : kstate) : res kstate := r ← do_call c s; finish r.
Definition exec_irq (now : Z) (s : kstate) : res kstate := r ← timer_irq now s; finish r.

Inductive kevent := EvCall (c : call) | EvIrq (now : Z).

(** An interrupt is taken only while the processor accepts them. *)
Definition exec_event (ev : kevent) (s : kstate) : res kstate :=
  match ev with
  | EvCall c => exec_call c s
  | EvIrq now => if ints_enabled s then exec_irq now s else Ok s
  end.

Fixpoint exec_events (evs : list kevent) (s : kstate) : res kstate :=
  match evs with
  | [] => Ok s
  | ev :: evs => s ← exec_event ev s; exec_events evs s
  end.

End Dpc.
