(* ===== verification/KQueues.v ===== *)
(** The queue discipline of the scheduler.

    [inv_q F s] relates the thread states to the run queues, the bitmap and the
    wait queues.  [F] is the set of threads that are between queues: the running
    thread when the kernel is at rest, and in the middle of a kernel function also
    a thread just taken off a queue.  Each primitive of thread.c moves one thread
    in or out of [F]. *)
From Stdlib Require Import ZArith.
From stdpp Require Import base numbers list gmap.
From S2P Require Import Prelude KState KTimer KThread.

Record inv_q (F : gset tid) (s : kstate) : Prop := {
  iq_len : length (run_queue s) = 32%nat;
  iq_range : 0 ≤ run_queue_bitmap s < 2 ^ 32;
  iq_bit p q : run_queue s !! p = Some q →
    Z.testbit (run_queue_bitmap s) (Z.of_nat p) = bool_decide (q ≠ []);
  iq_nodup p q : run_queue s !! p = Some q → NoDup q;
  iq_ready p q t : run_queue s !! p = Some q →
    t ∈ q ↔ ∃ th, threads s !! t = Some th ∧ t ∉ F ∧ state th = THREAD_READY
                  ∧ priority th = Z.of_nat p;
  iq_wait w q : wait_queues s !! w = Some q →
    NoDup (wq_list q) ∧ wq_count q = Z.of_nat (length (wq_list q));
  iq_blocked w q t : wait_queues s !! w = Some q →
    t ∈ wq_list q ↔ ∃ th, threads s !! t = Some th ∧ t ∉ F ∧ state th = THREAD_BLOCKED
                          ∧ blocking_wait_queue th = Some w;
  iq_blocked_on t th : threads s !! t = Some th → t ∉ F → state th = THREAD_BLOCKED →
    ∃ w q, blocking_wait_queue th = Some w ∧ wait_queues s !! w = Some q
           ∧ wq_magic q = WAIT_QUEUE_MAGIC;
  iq_node t th : threads s !! t = Some th →
    queue_node th = true ↔ t ∉ F ∧ (state th = THREAD_READY ∨ state th = THREAD_BLOCKED);
  iq_prio t th : threads s !! t = Some th → 0 ≤ priority th < 32;
  iq_bwq t th : threads s !! t = Some th → state th ≠ THREAD_BLOCKED →
    blocking_wait_queue th = None;
  iq_running t th : threads s !! t = Some th → t ∉ F → state th ≠ THREAD_RUNNING;
}.

(** What [inv_q] sees of a thread. *)
Definition sched_view (th : thread) := (state th, priority th, queue_node th, blocking_wait_queue th).

Lemma lookup_view (m m' : gmap tid thread) t th :
  sched_view <$> m = sched_view <$> m' → m !! t = Some th →
  ∃ th', m' !! t = Some th' ∧ sched_view th' = sched_view th.
Proof.
  intros E Ht. pose proof (f_equal (λ x, x !! t) E) as E'.
  cbn in E'. rewrite !lookup_fmap, Ht in E'. cbn in E'.
  destruct (m' !! t) as [th'|]; [|done]. exists th'. split; [done|]. cbn in E'. congruence.
Qed.

(** [inv_q] reads only the queues and the scheduling view of the threads. *)
Lemma inv_q_ext F s s' :
  sched_view <$> threads s' = sched_view <$> threads s →
  run_queue s' = run_queue s → run_queue_bitmap s' = run_queue_bitmap s →
  wait_queues s' = wait_queues s → inv_q F s → inv_q F s'.
Proof.
  intros Hv Hrq Hbm Hwq [].
  constructor; rewrite ?Hrq, ?Hbm, ?Hwq; auto.
  - intros p q t Hq. rewrite (iq_ready0 p q t Hq). split; intros (th & Ht & ?).
    + destruct (lookup_view _ _ _ _ (eq_sym Hv) Ht) as (th' & ? & [= ????]). exists th'. intuition congruence.
    + destruct (lookup_view _ _ _ _ Hv Ht) as (th' & ? & [= ????]). exists th'. intuition congruence.
  - intros w q t Hq. rewrite (iq_blocked0 w q t Hq). split; intros (th & Ht & ?).
    + destruct (lookup_view _ _ _ _ (eq_sym Hv) Ht) as (th' & ? & [= ????]). exists th'. intuition congruence.
    + destruct (lookup_view _ _ _ _ Hv Ht) as (th' & ? & [= ????]). exists th'. intuition congruence.
  - intros t th Ht HF Hs. destruct (lookup_view _ _ _ _ Hv Ht) as (th' & Ht' & [= E1 E2 E3 E4]).
    rewrite <- E4. eapply iq_blocked_on0; [done..|congruence].
  - intros t th Ht. destruct (lookup_view _ _ _ _ Hv Ht) as (th' & Ht' & [= E1 E2 E3 E4]).
    rewrite <- E1, <- E3. eauto.
  - intros t th Ht. destruct (lookup_view _ _ _ _ Hv Ht) as (th' & Ht' & [= E1 E2 E3 E4]).
    rewrite <- E2. eauto.
  - intros t th Ht. destruct (lookup_view _ _ _ _ Hv Ht) as (th' & Ht' & [= E1 E2 E3 E4]).
    rewrite <- E1, <- E4. eauto.
  - intros t th Ht ?. destruct (lookup_view _ _ _ _ Hv Ht) as (th' & Ht' & [= E1 E2 E3 E4]).
    rewrite <- E1. eauto.
Qed.

Lemma view_alter (f : thread → thread) (t : tid) (m : gmap tid thread) :
  (∀ th, sched_view (f th) = sched_view th) →
  sched_view <$> alter f t m = sched_view <$> m.
Proof.
  intros Hf. apply map_eq. intros i. rewrite !lookup_fmap, lookup_alter.
  case_decide; [|done]. subst. destruct (m !! i); cbn; [|done]. by rewrite Hf.
Qed.

Lemma inv_q_upd_view F s t f :
  (∀ th, sched_view (f th) = sched_view th) → inv_q F s → inv_q F (upd_thread t f s).
Proof. intros Hf. apply inv_q_ext; [|done..]. by apply view_alter. Qed.

(** A thread between queues may change state and priority freely. *)
Lemma inv_q_upd_float F s t f :
  t ∈ F → inv_q F s →
  (∀ th, queue_node (f th) = queue_node th) →
  (∀ th, threads s !! t = Some th → 0 ≤ priority (f th) < 32) →
  (∀ th, threads s !! t = Some th → state (f th) ≠ THREAD_BLOCKED →
     blocking_wait_queue (f th) = None) →
  inv_q F (upd_thread t f s).
Proof.
  intros HF Hinv Hn Hp Hb. destruct Hinv. unfold upd_thread. constructor; cbn; auto.
  - intros p q x Hq. rewrite (iq_ready0 p q x Hq). split; intros (th & Ht & ? & ?).
    + exists th. rewrite lookup_alter_ne by set_solver. done.
    + rewrite lookup_alter_ne in Ht by set_solver. eauto.
  - intros w q x Hq. rewrite (iq_blocked0 w q x Hq). split; intros (th & Ht & ? & ?).
    + exists th. rewrite lookup_alter_ne by set_solver. done.
    + rewrite lookup_alter_ne in Ht by set_solver. eauto.
  - intros x th Ht ??. rewrite lookup_alter_ne in Ht by set_solver. eauto.
  - intros x th. rewrite lookup_alter. case_decide; [|eauto]. subst.
    destruct (threads s !! x) as [th0|] eqn:E; [|done]. intros [= <-]. rewrite Hn, iq_node0 by done.
    set_solver.
  - intros x th. rewrite lookup_alter. case_decide; [|eauto]. subst.
    destruct (threads s !! x) as [th0|] eqn:E; [|done]. intros [= <-]. eauto.
  - intros x th. rewrite lookup_alter. case_decide; [|eauto]. subst.
    destruct (threads s !! x) as [th0|] eqn:E; [|done]. intros [= <-]. eauto.
  - intros x th Ht ?. rewrite lookup_alter_ne in Ht by set_solver. eauto.
Qed.

(** Leaving [F] without joining a queue. *)
Lemma inv_q_park F s t :
  inv_q F s →
  (∀ th, threads s !! t = Some th →
     state th ≠ THREAD_READY ∧ state th ≠ THREAD_BLOCKED ∧ state th ≠ THREAD_RUNNING) →
  inv_q (F ∖ {[t]}) s.
Proof.
  intros Hinv Hs. destruct Hinv.
  assert (∀ x th, threads s !! x = Some th →
    state th = THREAD_READY ∨ state th = THREAD_BLOCKED ∨ state th = THREAD_RUNNING →
    x ∉ F ∖ {[t]} ↔ x ∉ F) as Haux.
  { intros x th Hx Hst. destruct (decide (x = t)) as [->|]; [|set_solver].
    apply Hs in Hx. naive_solver. }
  constructor; auto.
  - intros p q x Hq. rewrite (iq_ready0 p q x Hq).
    split; intros (th & Ht & HF & ? & ?); exists th; split_and!; try done;
      eapply Haux; eauto.
  - intros w q x Hq. rewrite (iq_blocked0 w q x Hq).
    split; intros (th & Ht & HF & ? & ?); exists th; split_and!; try done;
      eapply Haux; eauto.
  - intros x th Ht HF ?. eapply iq_blocked_on0; [done| |done]. eapply Haux; eauto.
  - intros x th Ht. rewrite (iq_node0 x th Ht).
    split; intros [? ?]; (split; [eapply Haux; [done| |done]; tauto|done]).
  - intros x th Ht HF Hr. eapply iq_running0; [done| |done]. eapply Haux; eauto.
Qed.

Lemma inv_q_current_ne F s p q t :
  inv_q F s → run_queue s !! p = Some q → t ∈ q → t ∉ F ∧ is_Some (threads s !! t).
Proof. intros Hinv Hq Ht. apply (iq_ready _ _ Hinv p q t Hq) in Ht as (th & -> & ? & _). eauto. Qed.

(** * Joining a run queue *)

(** [add] links one thread into a queue: at the head or at the tail. *)
Class QueueAdd (add : tid → list tid → list tid) : Prop := {
  add_elem t q x : x ∈ add t q ↔ x = t ∨ x ∈ q;
  add_nodup t q : NoDup q → t ∉ q → NoDup (add t q);
}.

#[global] Instance add_head_queue : QueueAdd (λ t q, t :: q).
Proof. split; [set_solver|]. intros. by apply NoDup_cons. Qed.

#[global] Instance add_tail_queue : QueueAdd (λ t q, q ++ [t]).
Proof.
  split; [set_solver|]. intros t q Hq Ht.
  apply NoDup_app. split_and!; [done|set_solver|apply NoDup_singleton].
Qed.

Definition rq_inserted (add : tid → list tid → list tid) (t : tid) (p : Z) (q : list tid) (s : kstate)
    : kstate :=
  set_run_queue_bitmap (Z.lor (run_queue_bitmap s) (u32 (Z.shiftl 1 p)))
    (upd_thread t (set_queue_node true)
       (set_run_queue (<[Z.to_nat p := add t q]> (run_queue s)) s)).

Lemma inv_q_inserted add `{!QueueAdd add} F s t th q :
  inv_q F s → t ∈ F → threads s !! t = Some th → state th = THREAD_READY →
  run_queue s !! Z.to_nat (priority th) = Some q →
  inv_q (F ∖ {[t]}) (rq_inserted add t (priority th) q s).
Proof.
  intros Hinv HF Ht Hs Hq. pose proof (iq_prio _ _ Hinv _ _ Ht) as Hp.
  assert (∀ x, x ∈ q → x ≠ t) as Hqt.
  { intros x Hx ->. apply (iq_ready _ _ Hinv _ _ _ Hq) in Hx as (? & ? & ? & _). done. }
  assert (queue_node th = false) as Hnode.
  { destruct (queue_node th) eqn:E; [|done]. by apply (iq_node _ _ Hinv _ _ Ht) in E as [? _]. }
  destruct Hinv. unfold rq_inserted, upd_thread. constructor; cbn.
  - by rewrite length_insert.
  - by apply bit_set_range.
  - intros i q' Hi. rewrite bit_set_spec by lia. destruct (decide (i = Z.to_nat (priority th))) as [->|Hne].
    + rewrite list_lookup_insert_eq in Hi by eauto using lookup_lt_Some. simplify_eq.
      rewrite Z2Nat.id, Z.eqb_refl, orb_true_r by lia. symmetry. apply bool_decide_eq_true.
      intros E. assert (t ∈ add t q) by (apply add_elem; auto). rewrite E in *. set_solver.
    + rewrite list_lookup_insert_ne in Hi by done. rewrite (proj2 (Z.eqb_neq _ _)) by lia.
      rewrite orb_false_r. eauto.
  - intros i q' Hi. destruct (decide (i = Z.to_nat (priority th))) as [->|Hne].
    + rewrite list_lookup_insert_eq in Hi by eauto using lookup_lt_Some. simplify_eq.
      apply add_nodup; [eauto|]. intros ?. by eapply Hqt.
    + rewrite list_lookup_insert_ne in Hi by done. eauto.
  - intros i q' x Hi. assert (x ∈ q' ↔ (x = t ∧ i = Z.to_nat (priority th)) ∨
      ∃ th', threads s !! x = Some th' ∧ x ∉ F ∧ state th' = THREAD_READY ∧ priority th' = Z.of_nat i) as ->.
    { destruct (decide (i = Z.to_nat (priority th))) as [->|Hne].
      - rewrite list_lookup_insert_eq in Hi by eauto using lookup_lt_Some. simplify_eq.
        rewrite add_elem, (iq_ready0 _ _ _ Hq). tauto.
      - rewrite list_lookup_insert_ne in Hi by done. rewrite (iq_ready0 _ _ _ Hi). tauto. }
    rewrite lookup_alter. case_decide as E; subst.
    + rewrite Ht. cbn. split.
      * intros [[_ ->]|(?&?&?&_)]; [|done]. eexists. split_and!; [done|set_solver|done|].
        cbn. rewrite Z2Nat.id; lia.
      * intros (th' & [= <-] & _ & _ & Hpr). cbn in Hpr. left. split; [done|]. rewrite Hpr. lia.
    + split.
      * intros [[-> _]|(th' & ? & ? & ? & ?)]; [done|]. exists th'. split_and!; [done|set_solver|done..].
      * intros (th' & ? & ? & ? & ?). right. exists th'. split_and!; [done|set_solver|done..].
  - done.
  - intros w wq x Hw. rewrite (iq_blocked0 _ _ _ Hw), lookup_alter. case_decide as E; subst.
    + rewrite Ht. cbn. split; [intros (?&?&?&_); done|].
      intros (th' & [= <-] & _ & Hb & _). cbn in Hb. congruence.
    + split; intros (th' & ? & ? & ?); exists th'; (split_and!; [done|set_solver|tauto..]).
  - intros x th'. rewrite lookup_alter. case_decide as E; subst.
    + rewrite Ht. cbn. intros [= <-] _. cbn. congruence.
    + intros. eapply iq_blocked_on0; [done|set_solver|done].
  - intros x th'. rewrite lookup_alter. case_decide as E; subst.
    + rewrite Ht. cbn. intros [= <-]. cbn. set_solver.
    + intros Hx. rewrite (iq_node0 _ _ Hx). set_solver.
  - intros x th'. rewrite lookup_alter. case_decide as E; subst; [|eauto].
    rewrite Ht. cbn. by intros [= <-].
  - intros x th'. rewrite lookup_alter. case_decide as E; subst; [|eauto].
    rewrite Ht. cbn. intros [= <-]. cbn. eauto.
  - intros x th'. rewrite lookup_alter. case_decide as E; subst.
    + rewrite Ht. cbn. intros [= <-] _. cbn. congruence.
    + intros. eapply iq_running0; [done|set_solver].
Qed.

(** Both insertion functions, on a READY thread between queues. *)
Lemma insert_in_run_queue_spec add `{!QueueAdd add} F s t th :
  inv_q F s → t ∈ F → threads s !! t = Some th → state th = THREAD_READY →
  in_critical_section s = true →
  ∃ q, insert_in_run_queue add t s = Ok (rq_inserted add t (priority th) q s) ∧
       inv_q (F ∖ {[t]}) (rq_inserted add t (priority th) q s).
Proof.
  intros Hinv HF Ht Hs Hc. pose proof (iq_prio _ _ Hinv _ _ Ht) as Hp.
  destruct (lookup_lt_is_Some_2 (run_queue s) (Z.to_nat (priority th))) as [q Hq].
  { rewrite (iq_len _ _ Hinv). lia. }
  exists q. split; [|by eapply inv_q_inserted].
  assert (queue_node th = false) as Hnode.
  { destruct (queue_node th) eqn:E; [|done]. by apply (iq_node _ _ Hinv _ _ Ht) in E as [? _]. }
  unfold insert_in_run_queue, get_thread, is_state. rewrite Ht. cbn.
  rewrite Hs, Hnode, Hc, !bool_decide_eq_true_2 by (done || lia). cbn. rewrite Hq. done.
Qed.

(** * Leaving a run queue *)

(** The bitmap has the bits of the queues that are not empty. *)
Record bitmap_agrees (s : kstate) : Prop := {
  ba_len : length (run_queue s) = 32%nat;
  ba_range : 0 ≤ run_queue_bitmap s < 2 ^ 32;
  ba_bit p q : run_queue s !! p = Some q → Z.testbit (run_queue_bitmap s) (Z.of_nat p) = bool_decide (q ≠ []);
}.

Lemma inv_q_agrees F s : inv_q F s → bitmap_agrees s.
Proof. intros []. by constructor. Qed.

Lemma bitmap_zero_iff s :
  bitmap_agrees s → run_queue_bitmap s = 0 ↔ ∀ p q, run_queue s !! p = Some q → q = [].
Proof.
  intros Hinv. split.
  - intros E p q Hq. pose proof (ba_bit _ Hinv _ _ Hq) as Hb. rewrite E, Z.bits_0 in Hb.
    symmetry in Hb. apply bool_decide_eq_false in Hb. by apply dec_stable.
  - intros Hall. apply Z.bits_inj'. intros k Hk. rewrite Z.bits_0.
    destruct (decide (k < 32)) as [Hlt|].
    + destruct (lookup_lt_is_Some_2 (run_queue s) (Z.to_nat k)) as [q Hq].
      { rewrite (ba_len _ Hinv). lia. }
      pose proof (ba_bit _ Hinv _ _ Hq) as Hb. rewrite Z2Nat.id in Hb by done.
      rewrite Hb. apply bool_decide_eq_false. intros H. by apply H, (Hall _ _ Hq).
    + apply bits_above_32; [apply (ba_range _ Hinv)|lia].
Qed.

Lemma scan_run_queue_skip rq (n p : nat) :
  (p ≤ n)%nat → (∀ i q, (p ≤ i < n)%nat → rq !! i = Some q → q = []) →
  scan_run_queue rq n = scan_run_queue rq p.
Proof.
  intros Hle He. induction n as [|n IH]; [by replace p with 0%nat by lia|].
  destruct (decide (p = S n)) as [->|]; [done|]. cbn.
  rewrite <- IH; [|lia|intros i q ?; apply He; lia].
  destruct (rq !! n) as [[|x q]|] eqn:E; [done| |done].
  apply He in E; [done|lia].
Qed.

(** The bitmap leads to the queue that the linear search finds. *)
Lemma next_queue_scan s :
  bitmap_agrees s → run_queue_bitmap s ≠ 0 →
  ∃ p t q, HIGHEST_PRIORITY - builtin_clz (run_queue_bitmap s) - (32 - NUM_PRIORITIES) = Z.of_nat p ∧
    run_queue s !! p = Some (t :: q) ∧ (p < 32)%nat ∧
    scan_run_queue (run_queue s) 32 = Some (p, t) ∧
    ∀ i q', (p < i)%nat → run_queue s !! i = Some q' → q' = [].
Proof.
  intros Hinv Hne. pose proof (ba_range _ Hinv) as Hr. set (bm := run_queue_bitmap s) in *.
  assert (0 ≤ Z.log2 bm < 32).
  { split; [apply Z.log2_nonneg|]. apply Z.log2_lt_pow2; lia. }
  exists (Z.to_nat (Z.log2 bm)).
  destruct (lookup_lt_is_Some_2 (run_queue s) (Z.to_nat (Z.log2 bm))) as [q Hq].
  { rewrite (ba_len _ Hinv). lia. }
  pose proof (ba_bit _ Hinv _ _ Hq) as Hb. rewrite Z2Nat.id in Hb by lia. fold bm in Hb.
  rewrite Z.bit_log2 in Hb by lia. symmetry in Hb. apply bool_decide_eq_true in Hb.
  destruct q as [|t q]; [done|]. exists t, q.
  assert (∀ i q', (Z.to_nat (Z.log2 bm) < i)%nat → run_queue s !! i = Some q' → q' = []) as Habove.
  { intros i q' Hi Hq'. pose proof (ba_bit _ Hinv _ _ Hq') as Hb'. fold bm in Hb'.
    rewrite Z.bits_above_log2 in Hb' by lia. symmetry in Hb'. apply bool_decide_eq_false in Hb'.
    by apply dec_stable. }
  split_and!; [|done|lia| |done].
  - unfold HIGHEST_PRIORITY, builtin_clz, NUM_PRIORITIES. lia.
  - rewrite (scan_run_queue_skip _ 32 (S (Z.to_nat (Z.log2 bm)))).
    + cbn. by rewrite Hq.
    + lia.
    + intros i q' Hi. apply Habove. lia.
Qed.

(** Nothing is queued when the bitmap is zero. *)
Lemma scan_none s : bitmap_agrees s → run_queue_bitmap s = 0 → scan_run_queue (run_queue s) 32 = None.
Proof.
  intros Hb Hz. rewrite (scan_run_queue_skip _ 32 0); [done|lia|]. intros i q _ Hi. by apply (proj1 (bitmap_zero_iff s Hb) Hz i q).
Qed.

(** Inserting and removing keep the agreement, whoever is queued. *)
Lemma insert_agrees add t s s' :
  (∀ t q, add t q ≠ []) → bitmap_agrees s → insert_in_run_queue add t s = Ok s' → bitmap_agrees s'.
Proof.
  intros Hadd Hb. unfold insert_in_run_queue. intros (th & Ht & Hr)%res_bind_ok. do 3 apply res_bind_ok in Hr as (_ & _ & Hr).
  case_bool_decide as Hp; [|done]. apply res_bind_ok in Hr as (q & Hq & Hr). injection Hr as <-.
  destruct (run_queue s !! Z.to_nat (priority th)) as [q'|] eqn:E; [|done]. injection Hq as ->.
  assert (priority th < 32) as Hlt by (apply lookup_lt_Some in E; rewrite (ba_len _ Hb) in E; lia). destruct Hb as [H1 H2 H3].
  constructor; cbn.
  - by rewrite length_insert.
  - by apply bit_set_range.
  - intros i qi Hi. rewrite bit_set_spec by lia. destruct (decide (i = Z.to_nat (priority th))) as [-> |Hne].
    + rewrite list_lookup_insert_eq in Hi by eauto using lookup_lt_Some. injection Hi as <-.
      rewrite Z2Nat.id, Z.eqb_refl, orb_true_r by lia. symmetry. by apply bool_decide_eq_true.
    + rewrite list_lookup_insert_ne in Hi by done. rewrite (proj2 (Z.eqb_neq _ _)), orb_false_r by lia. eauto.
Qed.

Lemma rq_removed_eq p t q s :
  ∃ bm, rq_removed p t q s =
    set_run_queue_bitmap bm
      (upd_thread t (set_queue_node false) (set_run_queue (<[p := q]> (run_queue s)) s)) ∧
    bm = if bool_decide (q = [])
         then Z.land (run_queue_bitmap s) (Z.lnot (Z.shiftl 1 (Z.of_nat p)))
         else run_queue_bitmap s.
Proof. unfold rq_removed. case_bool_decide; eexists; (split; [|done]); done. Qed.

Lemma removed_agrees s p t q : bitmap_agrees s → run_queue s !! p = Some (t :: q) → bitmap_agrees (rq_removed p t q s).
Proof.
  intros Hb Hq. assert (p < 32)%nat as Hp by (rewrite <- (ba_len _ Hb); by eapply lookup_lt_Some).
  destruct (rq_removed_eq p t q s) as (bm & -> & Hbm). destruct Hb as [H1 H2 H3]. constructor; cbn.
  - by rewrite length_insert.
  - rewrite Hbm. case_bool_decide; [apply bit_clear_range; lia|done].
  - intros i q' Hi. assert (Z.testbit bm (Z.of_nat i) =
      Z.testbit (run_queue_bitmap s) (Z.of_nat i) && negb (bool_decide (q = [] ∧ i = p))) as ->.
    { rewrite Hbm. repeat case_bool_decide; rewrite ?bit_clear_spec by lia; cbn;
        rewrite ?andb_true_r; try done; destruct (Z.eqb_spec (Z.of_nat i) (Z.of_nat p));
        cbn; rewrite ?andb_true_r; try done; exfalso; intuition lia. }
    destruct (decide (i = p)) as [->|Hne].
    + rewrite list_lookup_insert_eq in Hi by (rewrite H1; lia). simplify_eq.
      rewrite (H3 _ _ Hq), (bool_decide_eq_true_2 (t :: q' ≠ [])) by done.
      destruct q'; [|by rewrite bool_decide_eq_false_2 by (intros [? _]; done)].
      rewrite bool_decide_eq_true_2 by done. symmetry. apply bool_decide_eq_false. intros Hn. by destruct Hn.
    + rewrite list_lookup_insert_ne in Hi by done. rewrite (H3 _ _ Hi).
      rewrite (bool_decide_eq_false_2 (_ ∧ _)) by (intros [_ ?]; done). by rewrite andb_true_r.
Qed.

Lemma inv_q_removed F s p t q :
  inv_q F s → run_queue s !! p = Some (t :: q) → inv_q ({[t]} ∪ F) (rq_removed p t q s).
Proof.
  intros Hinv Hq. assert (p < 32)%nat as Hp.
  { rewrite <- (iq_len _ _ Hinv). by eapply lookup_lt_Some. }
  pose proof (iq_nodup _ _ Hinv _ _ Hq) as [Htq Hnd]%NoDup_cons.
  destruct (proj1 (iq_ready _ _ Hinv _ _ t Hq) ltac:(set_solver)) as (th & Ht & HtF & Hs & Hpr).
  pose proof (removed_agrees s p t q (inv_q_agrees _ _ Hinv) Hq) as Hag.
  destruct (rq_removed_eq p t q s) as (bm & Er & Hbm). rewrite Er in *. clear Er.
  destruct Hinv. unfold upd_thread in *. constructor; cbn.
  - apply Hag.
  - apply Hag.
  - apply Hag.
  - intros i q' Hi. destruct (decide (i = p)) as [->|Hne].
    + rewrite list_lookup_insert_eq in Hi by (rewrite iq_len0; lia). by simplify_eq.
    + rewrite list_lookup_insert_ne in Hi by done. eauto.
  - intros i q' x Hi. assert (x ∈ q' ↔ x ≠ t ∧
      ∃ th', threads s !! x = Some th' ∧ x ∉ F ∧ state th' = THREAD_READY ∧ priority th' = Z.of_nat i) as ->.
    { destruct (decide (i = p)) as [->|Hne].
      - rewrite list_lookup_insert_eq in Hi by (rewrite iq_len0; lia). simplify_eq.
        rewrite <- (iq_ready0 _ _ x Hq). set_solver.
      - rewrite list_lookup_insert_ne in Hi by done. rewrite (iq_ready0 _ _ x Hi).
        split; [|by intros [_ ?]]. intros (th' & Hx & Hx'). split; [|eauto]. intros ->.
        rewrite Ht in Hx. simplify_eq. destruct_and!. lia. }
    rewrite lookup_alter. case_decide as E; subst.
    + split; [intros [Hn _]; by destruct Hn|]. intros (? & _ & ? & _). set_solver.
    + split; [intros (_ & th' & ? & ? & ?)|intros (th' & ? & ? & ?); split; [done|]];
        exists th'; (split_and!; [done|set_solver|tauto..]).
  - done.
  - intros w wq x Hw. rewrite (iq_blocked0 _ _ _ Hw), lookup_alter. case_decide as E; subst.
    + split; [|intros (? & _ & ? & _); set_solver]. intros (th' & Hx & _ & Hb & _).
      rewrite Ht in Hx. simplify_eq. congruence.
    + split; intros (th' & ? & ? & ?); exists th'; (split_and!; [done|set_solver|tauto..]).
  - intros x th'. rewrite lookup_alter. case_decide as E; subst; [set_solver|].
    intros. eapply iq_blocked_on0; [done|set_solver|done].
  - intros x th'. rewrite lookup_alter. case_decide as E; subst.
    + rewrite Ht. cbn. intros [= <-]. cbn. set_solver.
    + intros Hx. rewrite (iq_node0 _ _ Hx). set_solver.
  - intros x th'. rewrite lookup_alter. case_decide as E; subst; [|eauto].
    rewrite Ht. cbn. intros [= <-]. cbn. eauto.
  - intros x th'. rewrite lookup_alter. case_decide as E; subst; [|eauto].
    rewrite Ht. cbn. intros [= <-]. cbn. eauto.
  - intros x th'. rewrite lookup_alter. case_decide as E; subst; [set_solver|].
    intros. eapply iq_running0; [done|set_solver].
Qed.

(** * Wait queues *)

Definition wq_removed (t : tid) (q : wait_queue) : wait_queue :=
  mkWaitQueue (wq_magic q) (filter (λ x, x ≠ t) (wq_list q)) (wq_count q - 1).

Lemma inv_q_unlinked F s w q t :
  inv_q F s → wait_queues s !! w = Some q → t ∈ wq_list q →
  wait_queue_unlink w t s = Ok (upd_thread t (set_queue_node false) (put_wait_queue w (wq_removed t q) s)) ∧
  inv_q ({[t]} ∪ F) (upd_thread t (set_queue_node false) (put_wait_queue w (wq_removed t q) s)).
Proof.
  intros Hinv Hw Htq. split.
  { unfold wait_queue_unlink, get_wait_queue. by rewrite Hw. }
  destruct (proj1 (iq_blocked _ _ Hinv _ _ t Hw) Htq) as (th & Ht & HtF & Hs & Hbw).
  pose proof (iq_wait _ _ Hinv _ _ Hw) as [Hnd Hcount].
  destruct Hinv. unfold upd_thread, put_wait_queue. constructor; cbn; auto.
  - intros p q' x Hq'. rewrite (iq_ready0 _ _ x Hq'), lookup_alter. case_decide as E; subst.
    + split; [|intros (? & _ & ? & _); set_solver]. intros (th' & Hx & _ & Hb & _).
      rewrite Ht in Hx. simplify_eq. congruence.
    + split; intros (th' & ? & ? & ?); exists th'; (split_and!; [done|set_solver|tauto..]).
  - intros w' q'. rewrite lookup_insert. case_decide; [|eauto]. subst. intros [= <-]. cbn.
    split; [by apply NoDup_filter|]. pose proof (length_filter_ne t _ Hnd Htq). lia.
  - intros w' q' x. rewrite lookup_insert. intros Hw'.
    assert (x ∈ wq_list q' ↔ x ≠ t ∧ ∃ th', threads s !! x = Some th' ∧ x ∉ F ∧
              state th' = THREAD_BLOCKED ∧ blocking_wait_queue th' = Some w') as ->.
    { case_decide; subst.
      - simplify_eq. cbn. rewrite elem_of_filter_ne, (iq_blocked0 _ _ x Hw). done.
      - rewrite (iq_blocked0 _ _ x Hw'). split; [|by intros [_ ?]]. intros (th' & Hx & ?).
        split; [|eauto]. intros ->. rewrite Ht in Hx. destruct_and?. congruence. }
    rewrite lookup_alter. destruct (decide (t = x)) as [E|E]; subst.
    + split; [intros [Hn _]; by destruct Hn|]. intros (? & _ & ? & _). set_solver.
    + split; [intros (_ & th' & ? & ? & ?)|intros (th' & ? & ? & ?); split; [done|]];
        exists th'; (split_and!; [done|set_solver|tauto..]).
  - intros x th'. rewrite lookup_alter. case_decide as E; subst; [set_solver|]. intros Hx HF Hb.
    destruct (iq_blocked_on0 _ _ Hx ltac:(set_solver) Hb) as (w' & q' & Hbx & Hq' & Hm).
    exists w'. rewrite lookup_insert. case_decide; subst; [|eauto]. simplify_eq. eauto.
  - intros x th'. rewrite lookup_alter. case_decide as E; subst.
    + rewrite Ht. cbn. intros [= <-]. cbn. set_solver.
    + intros Hx. rewrite (iq_node0 _ _ Hx). set_solver.
  - intros x th'. rewrite lookup_alter. case_decide as E; subst; [|eauto].
    rewrite Ht. cbn. intros [= <-]. cbn. eauto.
  - intros x th'. rewrite lookup_alter. case_decide as E; subst; [|eauto].
    rewrite Ht. cbn. intros [= <-]. cbn. eauto.
  - intros x th'. rewrite lookup_alter. case_decide as E; subst; [set_solver|].
    intros. eapply iq_running0; [done|set_solver].
Qed.

(** What [wait_queue_block] does to the current thread before it blocks. *)
Definition block_on (w : oid) (th : thread) : thread :=
  set_wait_queue_block_ret NO_ERROR
    (set_blocking_wait_queue (Some w) (set_state THREAD_BLOCKED (set_queue_node true th))).

Definition wq_joined (t : tid) (q : wait_queue) : wait_queue :=
  mkWaitQueue (wq_magic q) (wq_list q ++ [t]) (wq_count q + 1).

Lemma inv_q_joined F s w q t :
  inv_q F s → t ∈ F → is_Some (threads s !! t) → wait_queues s !! w = Some q →
  wq_magic q = WAIT_QUEUE_MAGIC →
  inv_q (F ∖ {[t]}) (upd_thread t (block_on w) (put_wait_queue w (wq_joined t q) s)).
Proof.
  intros Hinv HF [th Ht] Hw Hmag.
  assert (∀ w' q', wait_queues s !! w' = Some q' → t ∉ wq_list q') as Hnin.
  { intros w' q' Hw' Hin. apply (iq_blocked _ _ Hinv _ _ _ Hw') in Hin as (? & ? & ? & _). done. }
  pose proof (iq_wait _ _ Hinv _ _ Hw) as [Hnd Hcount].
  destruct Hinv. unfold upd_thread, put_wait_queue. constructor; cbn; auto.
  - intros p q' x Hq'. rewrite (iq_ready0 _ _ x Hq'), lookup_alter. case_decide as E; subst.
    + rewrite Ht. cbn. split; [intros (?&?&?&_); done|]. intros (th' & [= <-] & _ & Hb & _). done.
    + split; intros (th' & ? & ? & ?); exists th'; (split_and!; [done|set_solver|tauto..]).
  - intros w' q'. rewrite lookup_insert. case_decide; [|eauto]. subst. intros [= <-]. cbn.
    rewrite length_app. cbn. split; [|lia]. apply NoDup_app. split_and!; [done| |apply NoDup_singleton].
    pose proof (Hnin _ _ Hw). set_solver.
  - intros w' q' x. rewrite lookup_insert. intros Hw'.
    assert (x ∈ wq_list q' ↔ (x = t ∧ w' = w) ∨ ∃ th', threads s !! x = Some th' ∧ x ∉ F ∧
              state th' = THREAD_BLOCKED ∧ blocking_wait_queue th' = Some w') as ->.
    { case_decide; subst.
      - simplify_eq. cbn. rewrite elem_of_app, list_elem_of_singleton, (iq_blocked0 _ _ x Hw). tauto.
      - rewrite (iq_blocked0 _ _ x Hw'). intuition congruence. }
    rewrite lookup_alter. destruct (decide (t = x)) as [E|E]; subst.
    + rewrite Ht. cbn. split.
      * intros [[_ ->]|(? & ? & ? & _)]; [|done]. eexists. split_and!; [done|set_solver|done..].
      * intros (th' & [= <-] & _ & _ & Hb). cbn in Hb. left. split; congruence.
    + split.
      * intros [[-> _]|(th' & ? & ? & ?)]; [done|]. exists th'. split_and!; [done|set_solver|tauto..].
      * intros (th' & ? & ? & ?). right. exists th'. split_and!; [done|set_solver|tauto..].
  - intros x th'. rewrite lookup_alter. case_decide as E; subst.
    + rewrite Ht. cbn. intros [= <-] _ _. exists w, (wq_joined x q). cbn. by rewrite lookup_insert_eq.
    + intros Hx HF' Hb. destruct (iq_blocked_on0 _ _ Hx ltac:(set_solver) Hb) as (w' & q' & Hbx & Hq' & Hm).
      exists w'. rewrite lookup_insert. case_decide; subst; [|eauto]. simplify_eq. eauto.
  - intros x th'. rewrite lookup_alter. case_decide as E; subst.
    + rewrite Ht. cbn. intros [= <-]. cbn. set_solver.
    + intros Hx. rewrite (iq_node0 _ _ Hx). set_solver.
  - intros x th'. rewrite lookup_alter. case_decide as E; subst; [|eauto].
    rewrite Ht. cbn. intros [= <-]. cbn. eauto.
  - intros x th'. rewrite lookup_alter. case_decide as E; subst; [|eauto].
    rewrite Ht. cbn. intros [= <-]. cbn. done.
  - intros x th'. rewrite lookup_alter. case_decide as E; subst.
    + rewrite Ht. cbn. by intros [= <-].
    + intros. eapply iq_running0; [done|set_solver].
Qed.

(** The magic of a wait queue nobody waits on may change. *)
Lemma inv_q_put_empty F s w q q' :
  inv_q F s → wait_queues s !! w = Some q → wq_list q = [] → wq_list q' = [] → wq_count q' = 0 →
  inv_q F (put_wait_queue w q' s).
Proof.
  intros Hinv Hw Hl Hl' Hc'. destruct Hinv. constructor; cbn; auto.
  - intros w' q1. rewrite lookup_insert. case_decide; [|eauto]. intros [= <-]. rewrite Hl', Hc'.
    split; [apply NoDup_nil_2|done].
  - intros w' q1 t. rewrite lookup_insert. case_decide; [|eauto]. subst. intros [= <-].
    rewrite Hl', <- (iq_blocked0 _ _ t Hw), Hl. done.
  - intros t th Ht HF Hb. destruct (iq_blocked_on0 _ _ Ht HF Hb) as (w' & q1 & Hbw & Hq1 & Hm).
    exists w', q1. split_and!; [done| |done]. rewrite lookup_insert_ne; [done|]. intros <-.
    simplify_eq. assert (t ∈ wq_list q) as Hin; [|rewrite Hl in Hin; set_solver].
    apply (iq_blocked0 _ _ t Hw). eauto.
Qed.

(** A new wait queue. *)
Lemma inv_q_new_wait F s w :
  inv_q F s → wait_queues s !! w = None → inv_q F (wait_queue_init w s).
Proof.
  intros Hinv Hw. destruct Hinv. constructor; cbn; auto.
  - intros w' q1. rewrite lookup_insert. case_decide; [|eauto]. intros [= <-]. cbn.
    split; [apply NoDup_nil_2|done].
  - intros w' q1 t. rewrite lookup_insert. case_decide; [|eauto]. subst. intros [= <-]. cbn.
    split; [set_solver|]. intros (th & Ht & HF & Hb & Hbw).
    destruct (iq_blocked_on0 _ _ Ht HF Hb) as (w'' & q1 & ? & ? & _). congruence.
  - intros t th Ht HF Hb. destruct (iq_blocked_on0 _ _ Ht HF Hb) as (w' & q1 & Hbw & Hq1 & Hm).
    exists w', q1. split_and!; [done| |done]. rewrite lookup_insert_ne; [done|]. intros <-. congruence.
Qed.

(** A new, suspended thread. *)
Lemma inv_q_new_thread F s t th :
  inv_q F s → threads s !! t = None → state th = THREAD_SUSPENDED → queue_node th = false →
  blocking_wait_queue th = None → 0 ≤ priority th < 32 →
  inv_q F (set_threads (<[t := th]> (threads s)) s).
Proof.
  intros Hinv Hnew Hs Hn Hb Hp. destruct Hinv. constructor; cbn; auto.
  - intros p q x Hq. rewrite (iq_ready0 _ _ x Hq), lookup_insert. case_decide as E; subst; [|done].
    rewrite Hnew. split; [intros (?&?&_); done|]. intros (th' & [= <-] & _ & ? & _). congruence.
  - intros w q x Hq. rewrite (iq_blocked0 _ _ x Hq), lookup_insert. case_decide as E; subst; [|done].
    rewrite Hnew. split; [intros (?&?&_); done|]. intros (th' & [= <-] & _ & ? & _). congruence.
  - intros x th'. rewrite lookup_insert. case_decide as E; subst; [|eauto]. intros [= <-] _ ?. congruence.
  - intros x th'. rewrite lookup_insert. case_decide as E; subst; [|eauto]. intros [= <-].
    rewrite Hn. split; [done|]. intros [_ [?|?]]; congruence.
  - intros x th'. rewrite lookup_insert. case_decide as E; subst; [|eauto]. by intros [= <-].
  - intros x th'. rewrite lookup_insert. case_decide as E; subst; [|eauto]. by intros [= <-].
  - intros x th'. rewrite lookup_insert. case_decide as E; subst; [|eauto]. intros [= <-] _. congruence.
Qed.

(** A dead thread may be freed. *)
Lemma inv_q_free F s t th :
  inv_q F s → threads s !! t = Some th → state th = THREAD_DEATH →
  inv_q F (set_threads (delete t (threads s)) s).
Proof.
  intros Hinv Ht Hs. destruct Hinv. constructor; cbn; auto.
  - intros p q x Hq. rewrite (iq_ready0 _ _ x Hq), lookup_delete. case_decide as E; subst; [|done].
    split; [|intros (?&?&_); done]. intros (th' & Hx & _ & ? & _). congruence.
  - intros w q x Hq. rewrite (iq_blocked0 _ _ x Hq), lookup_delete. case_decide as E; subst; [|done].
    split; [|intros (?&?&_); done]. intros (th' & Hx & _ & ? & _). congruence.
  - intros x th'. rewrite lookup_delete. case_decide; [done|eauto].
  - intros x th'. rewrite lookup_delete. case_decide; [done|eauto].
  - intros x th'. rewrite lookup_delete. case_decide; [done|eauto].
  - intros x th'. rewrite lookup_delete. case_decide; [done|eauto].
  - intros x th'. rewrite lookup_delete. case_decide; [done|eauto].
Qed.

(** A thread outside the queues may be seen as between queues. *)
Lemma inv_q_unpark F s t :
  inv_q F s →
  (∀ th, threads s !! t = Some th →
     state th ≠ THREAD_READY ∧ state th ≠ THREAD_BLOCKED ∧ state th ≠ THREAD_RUNNING) →
  inv_q ({[t]} ∪ F) s.
Proof.
  intros Hinv Hs. destruct Hinv.
  assert (∀ x th, threads s !! x = Some th →
    state th = THREAD_READY ∨ state th = THREAD_BLOCKED ∨ state th = THREAD_RUNNING →
    x ∉ {[t]} ∪ F ↔ x ∉ F) as Haux.
  { intros x th Hx Hst. destruct (decide (x = t)) as [->|]; [|set_solver].
    apply Hs in Hx. naive_solver. }
  constructor; auto.
  - intros p q x Hq. rewrite (iq_ready0 p q x Hq).
    split; intros (th & Ht & HF & ? & ?); exists th; split_and!; try done;
      eapply Haux; eauto.
  - intros w q x Hq. rewrite (iq_blocked0 w q x Hq).
    split; intros (th & Ht & HF & ? & ?); exists th; split_and!; try done;
      eapply Haux; eauto.
  - intros x th Ht HF ?. eapply iq_blocked_on0; [done| |done]. set_solver.
  - intros x th Ht. rewrite (iq_node0 x th Ht).
    split; intros [? ?]; (split; [eapply Haux; [done| |done]; tauto|done]).
  - intros x th Ht HF Hr. eapply iq_running0; [done| |done]. set_solver.
Qed.
