(* ===== verification/KInv.v ===== *)
(** The invariant of the kernel.

    [Mid F s] holds at every point of a kernel function: the queue discipline
    [inv_q F s], and [Rest s] about everything else: the code pending on the
    stacks of the suspended threads, their critical section counts, the timers,
    the deferred calls and the synchronisation objects.  [Inv s] is what holds
    between kernel calls.  The primitives of the scheduler, the wait queues and
    the timers are shown to run without panic or fault and to keep [Mid]. *)
From Stdlib Require Import ZArith.
From stdpp Require Import base numbers list gmap.
From S2P Require Import Prelude KState KTimer KThread KSync KQueues.

(** * What pending code promises *)

(** How often the pending code leaves a critical section. *)
Definition exit_weight (f : frame) : Z :=
  match f with
  | FExit | FInitialThread | FIrqReturn _ | FMutexAcquire _ | FMutexAcquireTimeout _
  | FEventSignal _ => 1
  | _ => 0
  end.

Fixpoint exits (k : list frame) : Z :=
  match k with [] => 0 | f :: k => exit_weight f + exits k end.

Lemma exits_app k1 k2 : exits (k1 ++ k2) = exits k1 + exits k2.
Proof. induction k1; cbn; lia. Qed.
Lemma exits_nonneg k : 0 ≤ exits k.
Proof. induction k as [|[] ?]; cbn; lia. Qed.

(** The pending code will cancel the timer on the thread's stack. *)
Definition frame_timer (f : frame) : bool :=
  match f with FWaitQueueBlock t => negb (t =? INFINITE_TIME) | _ => false end.
Definition has_timer (k : list frame) : bool := existsb frame_timer k.

Lemma has_timer_app k1 k2 : has_timer (k1 ++ k2) = has_timer k1 || has_timer k2.
Proof. apply existsb_app. Qed.

Section Invariant.
(** [root]: the bootstrap thread, which becomes the idle thread;
    [dpc_event]: the event of the DPC thread. *)
Context (root : tid) (dpc_event : oid).

(** The objects that the pending code uses exist. *)
Definition frame_okC (mx : gmap oid mutex) (ev : gmap oid event) (wq : gmap oid wait_queue)
    (f : frame) : Prop :=
  match f with
  | FMutexAcquire m | FMutexAcquireTimeout m => is_Some (mx !! m)
  | FEventSignal e => is_Some (ev !! e)
  | FWaitQueueDestroy w =>
      (∃ q, wq !! w = Some q ∧ wq_list q = [] ∧ wq_count q = 0) ∧
      (∀ x, mx !! w = Some x → m_magic x ≠ MUTEX_MAGIC) ∧
      (∀ x, ev !! w = Some x → e_magic x ≠ EVENT_MAGIC)
  | _ => True
  end.

Definition stack_timer_ok (tms : gmap timer_id timer) (t : tid) (th : thread) : Prop :=
  ∃ x, tms !! inl t = Some x ∧
    ((callback x = Some CbThreadSleep ∧ state th = THREAD_SLEEPING) ∨
     (callback x = Some CbWaitQueueTimeout ∧ has_timer (kstack th) = true ∧
      state th ≠ THREAD_SLEEPING)).

(** A thread that may be switched out, [cnt] being its critical section count. *)
Definition stk_okC (mx : gmap oid mutex) (ev : gmap oid event) (wq : gmap oid wait_queue)
    (tq : list timer_id) (tms : gmap timer_id timer) (t : tid) (th : thread) (cnt : Z) : Prop :=
  Forall (frame_okC mx ev wq) (kstack th) ∧ exits (kstack th) ≤ cnt ∧
  (has_timer (kstack th) = true → is_Some (tms !! inl t)) ∧
  (state th = THREAD_DEATH → kstack th = []) ∧
  (inl t ∈ tq → stack_timer_ok tms t th) ∧
  (state th = THREAD_SLEEPING → inl t ∈ tq).

Definition timer_okC (thr : gmap tid thread) (tm : timer_id) (x : timer) : Prop :=
  match callback x with
  | None => False
  | Some (CbDriver _) => ∃ n, tm = inr n
  | Some _ => ∃ t, tm = inl t ∧ tm_arg x = Some t ∧ is_Some (thr !! t) ∧ periodic_time x = 0
  end.

Record RestC (thr : gmap tid thread) (tl : list tid) (cur : tid) (tq : list timer_id)
    (tms : gmap timer_id timer) (dl : list dpc) (mx : gmap oid mutex) (ev : gmap oid event)
    (wq : gmap oid wait_queue) : Prop := {
  rc_cur : is_Some (thr !! cur);
  rc_list : NoDup tl ∧ ∀ t, t ∈ tl ↔ is_Some (thr !! t);
  rc_stk t th : thr !! t = Some th → t ≠ cur →
    1 ≤ saved_critical_section_count th ∧
    stk_okC mx ev wq tq tms t th (saved_critical_section_count th);
  rc_tnodup : NoDup tq;
  rc_timer tm : tm ∈ tq → ∃ x, tms !! tm = Some x ∧ timer_okC thr tm x;
  rc_period tm x : tms !! tm = Some x → 0 ≤ periodic_time x < 2 ^ 31;
  rc_idle : ∃ th, thr !! root = Some th ∧ (state th = THREAD_READY ∨ state th = THREAD_RUNNING);
  rc_dpc : NoDup (dpc_arg <$> dl) ∧
    ∀ d, d ∈ dl → ∃ th, thr !! dpc_arg d = Some th ∧ state th = THREAD_DEATH;
  rc_mutex m x : mx !! m = Some x → ev !! m = None ∧
    ∃ q, wq !! m = Some q ∧ (m_magic x = MUTEX_MAGIC → wq_magic q = WAIT_QUEUE_MAGIC);
  rc_event e x : ev !! e = Some x → mx !! e = None ∧
    ∃ q, wq !! e = Some q ∧ (e_magic x = EVENT_MAGIC → wq_magic q = WAIT_QUEUE_MAGIC);
  rc_dpc_event : ∃ x, ev !! dpc_event = Some x ∧ e_magic x = EVENT_MAGIC;
}.

(** On the kernel state; written over the components so that it is insensitive to
    the others by computation. *)
Definition frame_ok (s : kstate) : frame → Prop :=
  frame_okC (mutexes s) (events s) (wait_queues s).
Definition stk_ok (s : kstate) : tid → thread → Z → Prop :=
  stk_okC (mutexes s) (events s) (wait_queues s) (timer_queue s) (timers s).
Definition Rest (s : kstate) : Prop :=
  RestC (threads s) (thread_list s) (current_thread s) (timer_queue s) (timers s) (dpc_list s)
    (mutexes s) (events s) (wait_queues s).

Definition Mid (F : gset tid) (s : kstate) : Prop := inv_q F s ∧ Rest s.

(** The current thread has state [st] and pending code [k]. *)
Definition cur_is (st : thread_state) (k : list frame) (s : kstate) : Prop :=
  ∃ th, threads s !! current_thread s = Some th ∧ state th = st ∧ kstack th = k.

Definition Inv (s : kstate) : Prop :=
  Mid {[current_thread s]} s ∧ cur_is THREAD_RUNNING [] s ∧
  inl (current_thread s) ∉ timer_queue s ∧ 0 ≤ critical_section_count s.

(** * Changes that [Rest] survives *)

(** The threads as [Rest] sees them. *)
Definition rest_view (th : thread) := (state th, saved_critical_section_count th, kstack th).

Lemma rest_view_lookup (m : gmap tid thread) f t t' th :
  (∀ th, rest_view (f th) = rest_view th) → alter f t m !! t' = Some th →
  ∃ th0, m !! t' = Some th0 ∧ rest_view th = rest_view th0.
Proof.
  intros Hf. rewrite lookup_alter. case_decide; [|eauto]. subst.
  destruct (m !! t') as [th0|]; cbn; [|done]. intros [= <-]. exists th0. by rewrite Hf.
Qed.

Lemma is_Some_alter (m : gmap tid thread) f t t' :
  is_Some (alter f t m !! t') ↔ is_Some (m !! t').
Proof. rewrite lookup_alter. case_decide; subst; [|done]. by rewrite fmap_is_Some. Qed.

Lemma timer_okC_alter thr f t tm x : timer_okC thr tm x → timer_okC (alter f t thr) tm x.
Proof.
  unfold timer_okC. destruct (callback x) as [[]|]; [| |done..];
    intros (t0 & ? & ? & ? & ?); exists t0; by rewrite is_Some_alter.
Qed.

(** Updates of a thread that keep its state, saved count and pending code. *)
Lemma rest_upd_view s t f :
  (∀ th, rest_view (f th) = rest_view th) → Rest s → Rest (upd_thread t f s).
Proof.
  intros Hf [H1 H2 H3 H4 H5 H6 H7 H8 H9 H10 H11]. constructor; cbn; auto.
  - by rewrite is_Some_alter.
  - destruct H2 as [? H2]. split; [done|]. intros x. by rewrite is_Some_alter.
  - intros x th Hx Hne. destruct (rest_view_lookup _ _ _ _ _ Hf Hx) as (th0 & Hx0 & [= E1 E2 E3]).
    destruct (H3 _ _ Hx0 Hne) as [? Hstk]. rewrite E2. split; [done|].
    unfold stk_okC, stack_timer_ok in *. by rewrite E1, E3.
  - intros tm Hin. destruct (H5 tm Hin) as (x & ? & ?). eauto using timer_okC_alter.
  - destruct H7 as (th & Ht & Hst). rewrite lookup_alter. case_decide; [|eauto]. subst.
    rewrite Ht. cbn. eexists. split; [done|]. pose proof (Hf th) as [= -> _ _]. done.
  - destruct H8 as [? H8]. split; [done|]. intros d Hd. destruct (H8 d Hd) as (th & Ht & Hst).
    rewrite lookup_alter. case_decide; [|eauto]. subst. rewrite Ht. cbn. eexists.
    split; [done|]. pose proof (Hf th) as [= -> _ _]. done.
Qed.

(** The current thread's stack and count are not looked at until it is switched out. *)
Lemma rest_upd_current s f :
  (∀ th, threads s !! current_thread s = Some th →
     (current_thread s = root → state (f th) = THREAD_READY ∨ state (f th) = THREAD_RUNNING) ∧
     (state th = THREAD_DEATH → state (f th) = THREAD_DEATH)) →
  Rest s → Rest (upd_current f s).
Proof.
  intros Hf [H1 H2 H3 H4 H5 H6 H7 H8 H9 H10 H11].
  destruct H1 as [tc Hc]. destruct (Hf tc Hc) as [Hroot Hdead].
  unfold upd_current, upd_thread. constructor; cbn; auto.
  - rewrite is_Some_alter. eauto.
  - destruct H2 as [? H2]. split; [done|]. intros x. by rewrite is_Some_alter.
  - intros x th Hx Hne. rewrite lookup_alter_ne in Hx by done. by apply H3.
  - intros tm Hin. destruct (H5 tm Hin) as (x & ? & ?). eauto using timer_okC_alter.
  - destruct H7 as (th & Ht & Hst). rewrite lookup_alter. case_decide; [|eauto]. subst.
    rewrite Ht. cbn. eexists. split; [done|]. simplify_eq. by apply Hroot.
  - destruct H8 as [? H8]. split; [done|]. intros d Hd. destruct (H8 d Hd) as (th & Ht & Hst).
    rewrite lookup_alter. case_decide as E; [|eauto]. rewrite <- E, Ht in *. cbn.
    eexists. split; [done|]. rewrite Hc in Ht. simplify_eq. auto.
Qed.

(** A thread other than the current one becomes READY. *)
Lemma rest_ready s t th f :
  t ≠ current_thread s → threads s !! t = Some th →
  state th ≠ THREAD_SLEEPING → state th ≠ THREAD_DEATH →
  state (f th) = THREAD_READY → kstack (f th) = kstack th →
  saved_critical_section_count (f th) = saved_critical_section_count th →
  Rest s → Rest (upd_thread t f s).
Proof.
  intros Hne Ht Hns Hnd Hr Hk Hsv [H1 H2 H3 H4 H5 H6 H7 H8 H9 H10 H11]. constructor; cbn; auto.
  - by rewrite is_Some_alter.
  - destruct H2 as [? H2]. split; [done|]. intros x. by rewrite is_Some_alter.
  - intros x thx. rewrite lookup_alter. case_decide; [|eauto]. subst. rewrite Ht. cbn. intros [= <-] _.
    destruct (H3 _ _ Ht Hne) as (? & ? & ? & ? & ? & Htm & ?). rewrite Hsv. split; [done|].
    unfold stk_okC. rewrite Hk, Hr. split_and!; try done.
    intros Hin. destruct (Htm Hin) as (y & Hy & [[_ ?]|(? & ? & ?)]); [done|].
    exists y. rewrite Hk, Hr. auto.
  - intros tm Hin. destruct (H5 tm Hin) as (x & ? & ?). eauto using timer_okC_alter.
  - destruct H7 as (thr & Hrt & Hst). rewrite lookup_alter. case_decide; [|eauto]. subst.
    rewrite Ht. cbn. eauto.
  - destruct H8 as [? H8]. split; [done|]. intros d Hd. destruct (H8 d Hd) as (thd & Hdt & Hst).
    rewrite lookup_alter. case_decide; [|eauto]. subst. congruence.
Qed.

(** The switch from the current thread to a READY thread [t]. *)
Lemma rest_switch s t th thc f :
  Rest s → threads s !! current_thread s = Some thc →
  stk_ok s (current_thread s) thc (critical_section_count s) → 1 ≤ critical_section_count s →
  threads s !! t = Some th → t ≠ current_thread s → state th = THREAD_READY →
  state (f th) = THREAD_RUNNING →
  Rest (set_current_thread t
          (upd_thread (current_thread s)
             (set_saved_critical_section_count (critical_section_count s)) (upd_thread t f s))).
Proof.
  intros [H1 H2 H3 H4 H5 H6 H7 H8 H9 H10 H11] Hc Hstk Hcnt Ht Hne Hs Hr. constructor; cbn; auto.
  - rewrite !is_Some_alter. eauto.
  - destruct H2 as [? H2]. split; [done|]. intros x. by rewrite !is_Some_alter.
  - intros x thx. rewrite lookup_alter. case_decide as E; subst.
    + rewrite lookup_alter_ne, Hc by done. cbn. intros [= <-] _. split; [done|].
      destruct Hstk as (?&?&?&?&?&?). split_and!; done.
    + rewrite lookup_alter. case_decide; [done|]. eauto.
  - intros tm Hin. destruct (H5 tm Hin) as (x & ? & ?). eauto using timer_okC_alter.
  - destruct H7 as (thr & Hrt & Hst).
    rewrite lookup_alter. case_decide as E; subst.
    + rewrite lookup_alter_ne, Hrt by congruence. cbn. eauto.
    + rewrite lookup_alter. case_decide; subst; [|eauto]. rewrite Ht. cbn. eauto.
  - destruct H8 as [? H8]. split; [done|]. intros d Hd. destruct (H8 d Hd) as (thd & Hdt & Hst).
    rewrite lookup_alter. case_decide as E; subst.
    + rewrite lookup_alter_ne, Hc by done. cbn. eexists. split; [done|]. cbn. congruence.
    + rewrite lookup_alter. case_decide; subst; [|eauto]. congruence.
Qed.

(** * Rescheduling *)

(** How a function that may switch threads leaves the kernel, when it was called by
    [cur0] with pending code [k]. *)
Definition Post (cur0 : tid) (k : list frame) (r : kret) : Prop :=
  let s := r.2 in
  Mid {[current_thread s]} s ∧
  ∃ th, threads s !! current_thread s = Some th ∧ state th = THREAD_RUNNING ∧
    stk_ok s (current_thread s) th (critical_section_count s) ∧
    match r.1 with
    | Some _ => current_thread s = cur0 ∧ kstack th = k
    | None => current_thread s ≠ cur0
    end.

Definition resched_out (p : nat) (t : tid) (q : list tid) (nt : thread) (s : kstate) : kret :=
  let s1 := upd_thread t (set_state THREAD_RUNNING) (rq_removed p t q s) in
  if bool_decide (t = current_thread s) then (Some 0, s1)
  else
    (None,
     set_critical_section_count (saved_critical_section_count nt)
       (set_current_thread t
          (upd_thread (current_thread s) (set_saved_critical_section_count (critical_section_count s))
             (if remaining_quantum nt <=? 0
              then upd_thread t (set_remaining_quantum 5) s1 else s1)))).

Lemma rq_removed_proj p t q s :
  current_thread (rq_removed p t q s) = current_thread s ∧
  critical_section_count (rq_removed p t q s) = critical_section_count s ∧
  threads (rq_removed p t q s) = alter (set_queue_node false) t (threads s) ∧
  thread_list (rq_removed p t q s) = thread_list s ∧
  timer_queue (rq_removed p t q s) = timer_queue s ∧ timers (rq_removed p t q s) = timers s ∧
  dpc_list (rq_removed p t q s) = dpc_list s ∧ mutexes (rq_removed p t q s) = mutexes s ∧
  events (rq_removed p t q s) = events s ∧ wait_queues (rq_removed p t q s) = wait_queues s.
Proof. unfold rq_removed. case_bool_decide; done. Qed.

Lemma thread_resched_eq s p t q th :
  1 ≤ critical_section_count s → run_queue_bitmap s ≠ 0 →
  HIGHEST_PRIORITY - builtin_clz (run_queue_bitmap s) - (32 - NUM_PRIORITIES) = Z.of_nat p →
  run_queue s !! p = Some (t :: q) → threads s !! t = Some th →
  (t ≠ current_thread s → 1 ≤ saved_critical_section_count th) →
  thread_resched s = Ok (resched_out p t q (set_queue_node false th) s).
Proof.
  intros Hc Hbm Hp Hq Ht Hsv. unfold thread_resched.
  assert (in_critical_section s = true) as Hcs by (apply Z.ltb_lt; lia).
  rewrite Hcs. cbn -[HIGHEST_PRIORITY NUM_PRIORITIES]. rewrite (proj2 (Z.eqb_neq _ _) Hbm).
  cbn -[HIGHEST_PRIORITY NUM_PRIORITIES]. rewrite Hp, Nat2Z.id, Hq. cbn [deref mbind res_bind].
  destruct (rq_removed_proj p t q s) as (P1 & P2 & P3 & _).
  unfold get_thread, resched_out. rewrite P3, lookup_alter_eq, Ht.
  cbn [fmap option_fmap option_map deref mbind res_bind]. case_bool_decide as E; [done|].
  assert (0 <? saved_critical_section_count (set_queue_node false th) = true) as ->.
  { apply Z.ltb_lt. cbn. specialize (Hsv E). lia. }
  unfold in_critical_section in *. case_match; cbn -[Z.ltb]; rewrite P2, Hcs; reflexivity.
Qed.

(** Some thread is READY whenever the current one is off the processor. *)
Lemma bitmap_nonzero s : Mid ∅ s → run_queue_bitmap s ≠ 0.
Proof.
  intros [Hq HR] E. destruct (rc_idle _ _ _ _ _ _ _ _ _ HR) as (th & Ht & Hst).
  assert (state th = THREAD_READY) as Hr.
  { destruct Hst; [done|]. by apply (iq_running _ _ Hq) in Ht; [|set_solver]. }
  pose proof (iq_prio _ _ Hq _ _ Ht) as Hp.
  destruct (lookup_lt_is_Some_2 (run_queue s) (Z.to_nat (priority th))) as [q Hin].
  { rewrite (iq_len _ _ Hq). lia. }
  assert (root ∈ q) as Hroot.
  { apply (iq_ready _ _ Hq _ _ _ Hin). exists th. split_and!; [done|set_solver|done|lia]. }
  rewrite (proj1 (bitmap_zero_iff _ (inv_q_agrees _ _ Hq)) E _ _ Hin) in Hroot. set_solver.
Qed.

Lemma rest_removed p t q s : Rest s → Rest (rq_removed p t q s).
Proof.
  intros H. unfold Rest.
  destruct (rq_removed_proj p t q s) as (-> & _ & -> & -> & -> & -> & -> & -> & -> & ->).
  by apply (rest_upd_view s t (set_queue_node false)).
Qed.

Lemma stk_ok_view s t th th' c :
  rest_view th' = rest_view th → stk_ok s t th c → stk_ok s t th' c.
Proof. intros [= E1 E2 E3]. unfold stk_ok, stk_okC, stack_timer_ok. by rewrite E1, E3. Qed.

(** A READY or RUNNING thread is neither dead nor asleep: its stack conditions do
    not depend on which of the two it is. *)
Lemma stk_ok_run s t th th' c :
  state th = THREAD_READY → state th' = THREAD_RUNNING → kstack th' = kstack th →
  stk_ok s t th c → stk_ok s t th' c.
Proof.
  intros E E' Ek (H1 & H2 & H3 & _ & H5 & _). split_and!; rewrite ?Ek, ?E'; try done.
  intros Hin. destruct (H5 Hin) as (x & Hx & [[_ ?]|(? & ? & ?)]); [congruence|].
  exists x. rewrite Ek, E'. auto.
Qed.

Lemma inv_q_picked s p t q th :
  inv_q ∅ s → run_queue s !! p = Some (t :: q) → threads s !! t = Some th → state th = THREAD_READY →
  inv_q {[t]} (upd_thread t (set_state THREAD_RUNNING) (rq_removed p t q s)).
Proof.
  intros Hq Hin Ht Hs. destruct (rq_removed_proj p t q s) as (_ & _ & P3 & _).
  apply inv_q_upd_float; [set_solver| |done| |].
  - pose proof (inv_q_removed ∅ s p t q Hq Hin) as H. by rewrite union_empty_r_L in H.
  - rewrite P3, lookup_alter_eq, Ht. intros ? [= <-]. apply (iq_prio _ _ Hq _ _ Ht).
  - rewrite P3, lookup_alter_eq, Ht. intros ? [= <-] _. cbn. apply (iq_bwq _ _ Hq _ _ Ht). congruence.
Qed.

Lemma stk_ok_removed p t q s x y c : stk_ok s x y c → stk_ok (rq_removed p t q s) x y c.
Proof.
  unfold stk_ok. destruct (rq_removed_proj p t q s) as (_ & _ & _ & _ & -> & -> & _ & -> & -> & ->). done.
Qed.

(** The current thread is picked again. *)
Lemma resched_out_same s p t q th :
  Mid ∅ s → run_queue s !! p = Some (t :: q) → threads s !! t = Some th → state th = THREAD_READY →
  t = current_thread s → stk_ok s t th (critical_section_count s) →
  Post t (kstack th) (Some 0, upd_thread t (set_state THREAD_RUNNING) (rq_removed p t q s)).
Proof.
  intros [Hq HR] Hin Ht Hs E Hstk. pose proof (inv_q_picked s p t q th Hq Hin Ht Hs) as Hq1.
  pose proof (rest_removed p t q s HR) as HR1.
  destruct (rq_removed_proj p t q s) as (P1 & P2 & P3 & _).
  unfold Post. cbn [fst snd].
  assert (current_thread (upd_thread t (set_state THREAD_RUNNING) (rq_removed p t q s)) = t) as Ec
    by (cbn; congruence).
  rewrite Ec. split; [split; [done|]|].
  - pose proof (rest_upd_current (rq_removed p t q s) (set_state THREAD_RUNNING)) as H.
    unfold upd_current in H. rewrite P1, <- E in H. apply H; [|done].
    rewrite P3, lookup_alter_eq, Ht. intros ? [= <-]. cbn. split; [auto|]. congruence.
  - eexists. split; [cbn; rewrite P3, !lookup_alter_eq, Ht; done|]. split; [done|]. split; [|done].
    cbn. rewrite P2. apply (stk_ok_removed p t q s). by eapply (stk_ok_run s t th).
Qed.

(** What the incoming thread looks like. *)
Definition take_over (th : thread) : thread :=
  let th := set_state THREAD_RUNNING th in
  if remaining_quantum th <=? 0 then set_remaining_quantum 5 th else th.

Lemma resched_out_other_eq s p t q th :
  threads s !! t = Some th → t ≠ current_thread s →
  resched_out p t q (set_queue_node false th) s =
    (None, set_critical_section_count (saved_critical_section_count th)
       (set_current_thread t
          (upd_thread (current_thread s) (set_saved_critical_section_count (critical_section_count s))
             (upd_thread t take_over (rq_removed p t q s))))).
Proof.
  intros Ht Hne. destruct (rq_removed_proj p t q s) as (P1 & P2 & P3 & _).
  assert (alter take_over t (threads (rq_removed p t q s)) =
    let m := alter (set_state THREAD_RUNNING) t (threads (rq_removed p t q s)) in
    if remaining_quantum (set_queue_node false th) <=? 0
    then alter (set_remaining_quantum 5) t m else m) as Hg.
  { rewrite P3. apply map_eq. intros i. cbn zeta. destruct (decide (t = i)) as [<-|Hi].
    - rewrite !lookup_alter_eq, Ht. unfold take_over. cbn.
      case_match; by rewrite ?lookup_alter_eq, ?Ht.
    - case_match; by rewrite !lookup_alter_ne. }
  unfold resched_out. rewrite bool_decide_eq_false_2 by done.
  unfold upd_thread, set_threads. cbn in *. rewrite Hg. by destruct (remaining_quantum th <=? 0).
Qed.

(** Another thread takes over. *)
Lemma resched_out_other s p t q th thc :
  Mid ∅ s → run_queue s !! p = Some (t :: q) → threads s !! t = Some th → state th = THREAD_READY →
  t ≠ current_thread s → threads s !! current_thread s = Some thc → 1 ≤ critical_section_count s →
  stk_ok s (current_thread s) thc (critical_section_count s) →
  Post (current_thread s) (kstack thc) (resched_out p t q (set_queue_node false th) s).
Proof.
  intros [Hq HR] Hin Ht Hs Hne Hc Hcnt Hstk. pose proof (inv_q_picked s p t q th Hq Hin Ht Hs) as Hq1.
  pose proof (rest_removed p t q s HR) as HR1.
  destruct (rq_removed_proj p t q s) as (P1 & P2 & P3 & _).
  assert (state (take_over (set_queue_node false th)) = THREAD_RUNNING ∧
          kstack (take_over (set_queue_node false th)) = kstack th) as [Hfs Hfk]
    by (unfold take_over; case_match; done).
  rewrite (resched_out_other_eq s p t q th) by done. unfold Post. cbn [fst snd]. split; [split|].
  - eapply inv_q_ext; [| | | |exact Hq1]; [|done..]. cbn. rewrite view_alter by done.
    apply map_eq. intros i. rewrite !lookup_fmap, !lookup_alter. case_decide; [|done].
    destruct (threads (rq_removed p t q s) !! t); cbn; [|done]. unfold take_over. by case_match.
  - rewrite <- P1, <- P2.
    change (Rest (set_current_thread t (upd_thread (current_thread (rq_removed p t q s))
      (set_saved_critical_section_count (critical_section_count (rq_removed p t q s)))
      (upd_thread t take_over (rq_removed p t q s))))).
    apply (rest_switch _ t (set_queue_node false th) thc); rewrite ?P1, ?P2, ?P3; try done.
    + by rewrite lookup_alter_ne.
    + by apply stk_ok_removed.
    + by rewrite lookup_alter_eq, Ht.
  - exists (take_over (set_queue_node false th)). cbn [threads current_thread]. split.
    { cbn. rewrite lookup_alter_ne, P3, !lookup_alter_eq, Ht by done. done. }
    split; [done|]. split; [|done]. cbn. apply (stk_ok_removed p t q s).
    destruct (rc_stk _ _ _ _ _ _ _ _ _ HR _ _ Ht Hne) as [_ Hok].
    by eapply (stk_ok_run s t th).
Qed.

Lemma thread_resched_spec s thc :
  Mid ∅ s → threads s !! current_thread s = Some thc → 1 ≤ critical_section_count s →
  stk_ok s (current_thread s) thc (critical_section_count s) →
  ∃ r, thread_resched s = Ok r ∧ Post (current_thread s) (kstack thc) r.
Proof.
  intros HM Hc Hcnt Hstk. pose proof (bitmap_nonzero s HM) as Hbm. pose proof HM as [Hq HR].
  destruct (next_queue_scan s (inv_q_agrees _ _ Hq) Hbm) as (p & t & q & Hp & Hin & _ & _ & _).
  destruct (proj1 (iq_ready _ _ Hq _ _ t Hin) ltac:(set_solver)) as (th & Ht & _ & Hs & Hpr).
  eexists. split.
  { apply (thread_resched_eq s p t q th); try done.
    intros Hne. by destruct (rc_stk _ _ _ _ _ _ _ _ _ HR _ _ Ht Hne). }
  destruct (decide (t = current_thread s)) as [E|Hne]; [|by apply resched_out_other].
  unfold resched_out. rewrite bool_decide_eq_true_2, <- E by done.
  assert (thc = th) as -> by congruence. apply resched_out_same; [done..|]. by rewrite E.
Qed.

(** * Critical sections and the current thread's own fields *)

Lemma enter_eq s :
  ∃ i, enter_critical_section s =
         set_ints_enabled i (set_critical_section_count (critical_section_count s + 1) s).
Proof.
  unfold enter_critical_section. cbn. case_match; [by eexists|].
  exists (ints_enabled s). by destruct s.
Qed.

Lemma exit_eq s :
  ∃ i, exit_critical_section s =
         set_ints_enabled i (set_critical_section_count (critical_section_count s - 1) s).
Proof.
  unfold exit_critical_section. cbn. case_match; [by eexists|].
  exists (ints_enabled s). by destruct s.
Qed.

Lemma inv_q_same F s s' :
  threads s' = threads s → run_queue s' = run_queue s → run_queue_bitmap s' = run_queue_bitmap s →
  wait_queues s' = wait_queues s → inv_q F s → inv_q F s'.
Proof. intros Ht. apply inv_q_ext. by rewrite Ht. Qed.

(** Count and interrupt flag are not looked at by [Mid]. *)
Lemma mid_count F s c i :
  Mid F s → Mid F (set_ints_enabled i (set_critical_section_count c s)).
Proof. intros [Hq HR]. split; [|exact HR]. by eapply inv_q_same; [..|exact Hq]. Qed.

(** * Timers *)

Lemma timer_cancel_eq tm x s :
  timers s !! tm = Some x →
  ∃ i, timer_cancel tm s =
    Ok (set_ints_enabled i
          (put_timer tm (set_tm_arg None (set_callback None (set_periodic_time 0 x)))
             (set_timer_queue (filter (λ y, y ≠ tm) (timer_queue s)) s))).
Proof.
  intros Hx. unfold timer_cancel, get_timer. rewrite Hx. cbn [deref mbind res_bind].
  destruct (enter_eq s) as [i ->]. set (s2 := put_timer _ _ _).
  destruct (exit_eq s2) as [j ->]. exists j. f_equal. subst s2.
  unfold timer_in_list. cbn [timer_queue set_ints_enabled set_critical_section_count].
  case_bool_decide as Hin; [|rewrite filter_ne_id by done]; destruct s; cbn;
    rewrite Z.add_simpl_r; reflexivity.
Qed.

(** A timer that is the current thread's own or not on a thread's stack. *)
Definition own_timer (s : kstate) (tm : timer_id) : Prop := ∀ t, tm = inl t → t = current_thread s.

Lemma rest_cancel s i tm x x' :
  Rest s → own_timer s tm → timers s !! tm = Some x → periodic_time x' = 0 →
  Rest (set_ints_enabled i (put_timer tm x'
          (set_timer_queue (filter (λ y, y ≠ tm) (timer_queue s)) s))).
Proof.
  intros [H1 H2 H3 H4 H5 H6 H7 H8 H9 H10 H11] Hown Hx Hp. constructor; cbn; auto.
  - intros t th Ht Hne. destruct (H3 _ _ Ht Hne) as (? & ? & ? & Htm & ? & Hin & Hsl).
    split; [done|]. assert (inl t ≠ tm) by (intros <-; by apply Hne, Hown).
    split_and!; try done.
    + intros ?. rewrite lookup_insert_ne by done. auto.
    + intros Hin'%elem_of_filter_ne. destruct (Hin (proj2 Hin')) as (y & Hy & ?).
      exists y. by rewrite lookup_insert_ne.
    + intros ?. apply elem_of_filter_ne. auto.
  - by apply NoDup_filter.
  - intros tm' [? Hin]%elem_of_filter_ne. destruct (H5 tm' Hin) as (y & ? & ?). exists y.
    by rewrite lookup_insert_ne.
  - intros tm' y. rewrite lookup_insert. case_decide; [|eauto]. intros [= <-]. lia.
Qed.

(** * Running the pending code *)

(** The current thread runs, with [K] on top of its stack. *)
Definition run_pre (s : kstate) (K : list frame) : Prop :=
  ∃ th, threads s !! current_thread s = Some th ∧ state th = THREAD_RUNNING ∧
    stk_ok s (current_thread s) (set_kstack (K ++ kstack th) th) (critical_section_count s).

Definition frame_step (s s' : kstate) (K : list frame) : Prop :=
  Mid {[current_thread s']} s' ∧ current_thread s' = current_thread s ∧
  threads s' = threads s ∧ run_pre s' K.

Lemma frame_step_count s f K c i :
  Mid {[current_thread s]} s → run_pre s (f :: K) → frame_timer f = false →
  c = critical_section_count s - exit_weight f →
  frame_step s (set_ints_enabled i (set_critical_section_count c s)) K.
Proof.
  intros HM (th & Hc & Hr & Hf & He & Ht & Hd & Hin & Hsl) Hft ->. split_and!; try done; [by apply mid_count|].
  exists th. split_and!; [done|done|]. inversion_clear Hf. unfold stack_timer_ok in *. cbn in *.
  rewrite Hft in *. split_and!; try done; cbn; [lia|congruence].
Qed.

(** A change of one object that keeps the promises of the pending code. *)
Lemma frame_step_objs s s1 f K c i :
  Mid {[current_thread s]} s1 → run_pre s (f :: K) → frame_timer f = false →
  threads s1 = threads s → current_thread s1 = current_thread s →
  timer_queue s1 = timer_queue s → timers s1 = timers s →
  (∀ g, frame_ok s g → frame_ok s1 g) →
  c = critical_section_count s - exit_weight f →
  frame_step s (set_ints_enabled i (set_critical_section_count c s1)) K.
Proof.
  intros HM (th & Hc & Hr & Hf & He & Ht & Hd & Hin & Hsl) Hft Eth Ec Etq Etm Hmono ->.
  split_and!; [|done..|].
  { cbn. rewrite Ec. by apply mid_count. }
  exists th. cbn. rewrite Eth, Ec. split_and!; [done|done|].
  apply Forall_cons in Hf as [_ Hf]. unfold stk_ok, stk_okC, stack_timer_ok in *. cbn in *.
  rewrite Hft in *. rewrite Etq, Etm.
  split_and!; try done; [|lia|congruence].
  eapply Forall_impl; [exact Hf|]. apply Hmono.
Qed.

(** Replacing a mutex without reviving a destroyed one. *)
Lemma mid_put_mutex F s m x x' :
  mutexes s !! m = Some x → (m_magic x' = MUTEX_MAGIC → m_magic x = MUTEX_MAGIC) →
  Mid F s → Mid F (put_mutex m x' s) ∧ ∀ g, frame_ok s g → frame_ok (put_mutex m x' s) g.
Proof.
  intros Hm Hmag [Hq HR].
  assert (∀ g, frame_ok s g → frame_ok (put_mutex m x' s) g) as Hmono.
  { intros []; cbn; try done; [|by rewrite lookup_insert_is_Some'; auto..].
    intros (? & Hmx & ?). split_and!; [done| |done]. intros y. rewrite lookup_insert. case_decide; [|eauto].
    subst. intros [= <-] E. eapply Hmx; eauto. }
  split; [|done]. split; [by eapply inv_q_same; [..|exact Hq]|].
  destruct HR as [H1 H2 H3 H4 H5 H6 H7 H8 H9 H10 H11]. constructor; cbn; auto.
  - intros t th Ht Hne. destruct (H3 _ _ Ht Hne) as (? & Hf & ?). split; [done|].
    split; [|done]. eapply Forall_impl; [exact Hf|]. apply Hmono.
  - intros m' y. rewrite lookup_insert. case_decide; [|eauto]. subst. intros [= <-].
    destruct (H9 _ _ Hm) as (? & q & ? & ?). split; [done|]. exists q. auto.
  - intros e y He. destruct (H10 _ _ He) as (Hn & ?). split; [|done]. rewrite lookup_insert_ne; [done|].
    intros ->. congruence.
Qed.

Lemma mid_put_event F s e x x' :
  events s !! e = Some x → (e_magic x' = EVENT_MAGIC → e_magic x = EVENT_MAGIC) →
  (e = dpc_event → e_magic x' = EVENT_MAGIC) →
  Mid F s → Mid F (put_event e x' s) ∧ ∀ g, frame_ok s g → frame_ok (put_event e x' s) g.
Proof.
  intros He Hmag Hdpc [Hq HR].
  assert (∀ g, frame_ok s g → frame_ok (put_event e x' s) g) as Hmono.
  { intros []; cbn; try done; [|by rewrite lookup_insert_is_Some'; auto].
    intros (? & ? & Hev). split_and!; [done|done|]. intros y. rewrite lookup_insert. case_decide; [|eauto].
    subst. intros [= <-] E. eapply Hev; eauto. }
  split; [|done]. split; [by eapply inv_q_same; [..|exact Hq]|].
  destruct HR as [H1 H2 H3 H4 H5 H6 H7 H8 H9 H10 H11]. constructor; cbn; auto.
  - intros t th Ht Hne. destruct (H3 _ _ Ht Hne) as (? & Hf & ?). split; [done|].
    split; [|done]. eapply Forall_impl; [exact Hf|]. apply Hmono.
  - intros m y Hm. destruct (H9 _ _ Hm) as (Hn & ?). split; [|done]. rewrite lookup_insert_ne; [done|].
    intros ->. congruence.
  - intros e' y. rewrite lookup_insert. case_decide; [|eauto]. subst. intros [= <-].
    destruct (H10 _ _ He) as (? & q & ? & ?). split; [done|]. exists q. auto.
  - destruct H11 as (y & Hy & ?). rewrite lookup_insert. case_decide; [|eauto]. subst. eauto.
Qed.

(** Marking a wait queue nobody waits on as destroyed. *)
Lemma mid_destroy_wait F s w q :
  frame_ok s (FWaitQueueDestroy w) → wait_queues s !! w = Some q → Mid F s →
  Mid F (put_wait_queue w (set_wq_magic 0 q) s) ∧
  ∀ g, frame_ok s g → frame_ok (put_wait_queue w (set_wq_magic 0 q) s) g.
Proof.
  intros ((q0 & Hw0 & Hl & Hc) & Hmx & Hev) Hw [Hq HR]. assert (q0 = q) as -> by congruence.
  assert (∀ g, frame_ok s g → frame_ok (put_wait_queue w (set_wq_magic 0 q) s) g) as Hmono.
  { intros []; cbn; try done. intros ((q1 & ? & ? & ?) & ? & ?). split_and!; [|done..].
    rewrite lookup_insert. case_decide; [|eauto]. subst. simplify_eq. eexists. split_and!; done. }
  split; [|done]. split; [by eapply inv_q_put_empty|].
  destruct HR as [H1 H2 H3 H4 H5 H6 H7 H8 H9 H10 H11]. constructor; cbn; auto.
  - intros t th Ht Hne. destruct (H3 _ _ Ht Hne) as (? & Hf & ?). split; [done|].
    split; [|done]. eapply Forall_impl; [exact Hf|]. apply Hmono.
  - intros m y Hm. destruct (H9 _ _ Hm) as (? & q1 & Hq1 & Hmg). split; [done|].
    rewrite lookup_insert. case_decide; [|eauto]. subst. eexists. split; [done|].
    intros E. by apply Hmx in Hm.
  - intros e y He. destruct (H10 _ _ He) as (? & q1 & Hq1 & Hmg). split; [done|].
    rewrite lookup_insert. case_decide; [|eauto]. subst. eexists. split; [done|].
    intros E. by apply Hev in He.
Qed.

Lemma frame_step_cancel s x i timeout K :
  Mid {[current_thread s]} s → run_pre s (FWaitQueueBlock timeout :: K) →
  timers s !! inl (current_thread s) = Some x →
  frame_step s (set_ints_enabled i
    (put_timer (inl (current_thread s)) (set_tm_arg None (set_callback None (set_periodic_time 0 x)))
       (set_timer_queue (filter (λ y, y ≠ inl (current_thread s)) (timer_queue s)) s))) K.
Proof.
  intros [Hq HR] (th & Hc & Hr & Hf & He & Ht & Hd & Hin & Hsl) Hx. split_and!; try done.
  - split; [by eapply inv_q_same; [..|exact Hq]|]. eapply rest_cancel; try done. by intros ? [= ->].
  - exists th. split_and!; [done|done|]. apply Forall_cons in Hf as [_ Hf].
    unfold stk_ok, stk_okC. cbn in *. split_and!; try done.
    + intros _. rewrite lookup_insert_eq. eauto.
    + congruence.
    + by intros [? _]%elem_of_filter_ne.
    + congruence.
Qed.

(** Pending code that leaves the kernel state alone. *)
Lemma frame_step_id s f K :
  Mid {[current_thread s]} s → run_pre s (f :: K) → frame_timer f = false → exit_weight f = 0 →
  frame_step s s K.
Proof.
  intros HM Hpre Hf Hw.
  pose proof (frame_step_count s f K (critical_section_count s) (ints_enabled s) HM Hpre Hf ltac:(lia)) as H.
  destruct s. exact H.
Qed.

(** Each piece of pending code runs to its end. *)
Lemma run_frame_spec f v s K :
  Mid {[current_thread s]} s → run_pre s (f :: K) →
  ∃ v' s', run_frame f v s = Ok (v', s') ∧ frame_step s s' K.
Proof.
  intros HM Hpre. pose proof Hpre as (th & Hc & Hr & Hf & _ & Htm & _).
  apply Forall_cons in Hf as [Hf _]. destruct f; cbn [run_frame].
  - destruct (exit_eq s) as [i ->]. eauto using frame_step_count.
  - eauto using frame_step_id.
  - eexists _, _. split; [done|]. by apply (frame_step_count s (FIrqReturn r0) K).
  - destruct (exit_eq s) as [i ->]. eauto using frame_step_count.
  - destruct (Z.eqb_spec timeout INFINITE_TIME) as [E|E]; cbn.
    + unfold get_current, get_thread. rewrite Hc. cbn. eexists _, s. split; [done|].
      eapply frame_step_id; [done..|cbn|done]. by apply negb_false_iff, Z.eqb_eq.
    + destruct Htm as [x Hx].
      { cbn. apply orb_true_iff. left. by apply negb_true_iff, Z.eqb_neq. }
      destruct (timer_cancel_eq _ _ _ Hx) as [i ->]. cbn [mbind res_bind].
      unfold get_current, get_thread. cbn. rewrite Hc. cbn. eauto using frame_step_cancel.
  - destruct Hf as [(q & Hw & Hl & Hcn) Hrest]. unfold get_wait_queue. rewrite Hw. cbn.
    destruct (mid_destroy_wait {[current_thread s]} s w q) as [HM' Hmono]; [split; eauto|done|done|].
    eexists _, _. split; [done|].
    pose proof (frame_step_objs s _ (FWaitQueueDestroy w) K (critical_section_count s) (ints_enabled s)
      HM' Hpre eq_refl eq_refl eq_refl eq_refl eq_refl Hmono ltac:(cbn; lia)) as H.
    destruct s. exact H.
  - destruct Hf as [x Hx]. unfold get_mutex. rewrite Hx. cbn [deref mbind res_bind].
    case_match.
    + destruct (exit_eq s) as [i ->]. eauto using frame_step_count.
    + destruct (mid_put_mutex {[current_thread s]} s m x (set_m_holder (Some (current_thread s)) x)) as [HM' Hmono]; [done..|].
      set (s1 := put_mutex _ _ _) in *. destruct (exit_eq s1) as [i ->].
      eexists _, _. split; [done|]. by eapply (frame_step_objs s s1 (FMutexAcquire m)).
  - destruct Hf as [x Hx]. unfold get_mutex. rewrite Hx. cbn [deref mbind res_bind].
    assert (∀ x' : mutex, m_magic x' = m_magic x → ∃ v' s',
      Ok (v, exit_critical_section (put_mutex m x' s)) = Ok (v', s') ∧ frame_step s s' K) as Hput.
    { intros x' Hmg. destruct (mid_put_mutex {[current_thread s]} s m x x') as [HM' Hmono]; [done|congruence|done|].
      set (s1 := put_mutex _ _ _) in *. destruct (exit_eq s1) as [i ->].
      eexists _, _. split; [done|]. by eapply (frame_step_objs s s1 (FMutexAcquireTimeout m)). }
    case_match; by apply Hput.
  - destruct Hf as [x Hx]. unfold get_event. rewrite Hx. cbn [deref mbind res_bind].
    case_match; cbn [mbind res_bind].
    + destruct (mid_put_event {[current_thread s]} s e x (set_e_signalled true x)) as [HM' Hmono]; [done|done| |done|].
      { intros ->. destruct (rc_dpc_event _ _ _ _ _ _ _ _ _ (proj2 HM)) as (y & Hy & ?). cbn. congruence. }
      set (s1 := put_event _ _ _) in *. destruct (exit_eq s1) as [i ->].
      eexists _, _. split; [done|]. by eapply (frame_step_objs s s1 (FEventSignal e)).
    + destruct (exit_eq s) as [i ->]. eauto using frame_step_count.
Qed.

Lemma run_frames_spec K v s :
  Mid {[current_thread s]} s → run_pre s K →
  ∃ v' s', run_frames K v s = Ok (v', s') ∧ frame_step s s' [].
Proof.
  revert v s. induction K as [|f K IH]; intros v s HM Hpre.
  - exists v, s. done.
  - destruct (run_frame_spec f v s K HM Hpre) as (v1 & s1 & Hrun & HM1 & Hc1 & Ht1 & Hpre1).
    cbn. rewrite Hrun. cbn. destruct (IH v1 s1 HM1 Hpre1) as (v2 & s2 & -> & HM2 & Hc2 & Ht2 & Hpre2).
    exists v2, s2. split; [done|]. split_and!; [done|congruence|congruence|done].
Qed.

(** * Calling and returning *)

Definition Returns (cur0 : tid) (k : list frame) (r : res kret) : Prop :=
  ∃ x, r = Ok x ∧ Post cur0 k x.

Lemma mid_upd_kstack F s k : Mid F s → Mid F (upd_current (set_kstack k) s).
Proof.
  intros [Hq HR]. split; [by apply inv_q_upd_view|]. apply rest_upd_current; [|done].
  intros th Ht. split; [|done]. intros E. destruct (rc_idle _ _ _ _ _ _ _ _ _ HR) as (th' & Ht' & ?).
  cbn. congruence.
Qed.

Lemma upd_current_ext s th f g :
  threads s !! current_thread s = Some th → f th = g th → upd_current f s = upd_current g s.
Proof.
  intros Hc E. unfold upd_current, upd_thread. f_equal. apply map_eq. intros i.
  rewrite !lookup_alter. case_decide; [|done]. subst. rewrite Hc. cbn. by rewrite E.
Qed.

(** [invoke]: the pending code [K] runs when the callee returns. *)
Lemma invoke_spec K k op s :
  kstack <$> threads s !! current_thread s = Some k →
  Returns (current_thread s) (K ++ k) (op (push_frames K s)) →
  Returns (current_thread s) k (invoke K op s).
Proof.
  intros Hk ([o s1] & Hop & HP). unfold Returns, invoke. rewrite Hop. cbn [mbind res_bind].
  destruct o as [v|]; [|eexists; split; [done|exact HP]].
  destruct HP as (HM & th & Hc & Hr & Hstk & Hcur & Hk1). cbn [fst snd] in *.
  assert (pop_frames (length K) s1 = upd_current (set_kstack k) s1) as ->.
  { apply (upd_current_ext _ th); [done|]. by rewrite Hk1, drop_app_length. }
  destruct (run_frames_spec K v (upd_current (set_kstack k) s1)) as (v' & s' & Hrun & HM' & Hc' & Ht' & Hpre').
  - by apply mid_upd_kstack.
  - exists (set_kstack k th). cbn. rewrite lookup_alter_eq, Hc. split_and!; [done..|].
    apply (stk_ok_view s1 _ th); [|done]. unfold rest_view. cbn. by rewrite Hk1.
  - rewrite Hrun. cbn. eexists. split; [done|]. unfold Post. cbn [fst snd]. split; [done|].
    destruct Hpre' as (th' & Hth' & Hr' & Hstk'). exists th'. split_and!; [done|done| |cbn in *; congruence|].
    + by destruct th'.
    + rewrite Hc', Ht' in Hth'. cbn in Hth'. rewrite lookup_alter_eq, Hc in Hth'.
      cbn in Hth'. by simplify_eq.
Qed.

Lemma mid_upd_r0 F s v : Mid F s → Mid F (upd_current (set_r0 v) s).
Proof. intros [Hq HR]. split; [by apply inv_q_upd_view|by apply rest_upd_view]. Qed.

Lemma run_inv s v :
  Mid {[current_thread s]} s → run_pre s [] → cur_is THREAD_RUNNING [] s →
  Inv (upd_current (set_r0 v) s).
Proof.
  intros HM (th & Hc & Hr & Hstk) (th' & Hc' & _ & Hk).
  assert (th' = th) as -> by congruence.
  destruct Hstk as (_ & He & _ & _ & Hin & _). cbn in *. rewrite Hk in *. split_and!.
  - by apply mid_upd_r0.
  - exists (set_r0 v th). cbn. by rewrite lookup_alter_eq, Hc.
  - intros H. destruct (Hin H) as (x & _ & [[_ ?]|(_ & ? & _)]); cbn in *; congruence.
  - cbn in *. lia.
Qed.

(** Back in thread code the kernel is at rest again. *)
Lemma finish_spec cur0 r : Post cur0 [] r → ∃ s', finish r = Ok s' ∧ Inv s'.
Proof.
  destruct r as [[v|] s]; intros (HM & th & Hc & Hr & Hstk & Hx); cbn [fst snd] in *.
  - eexists. split; [done|]. destruct Hx as [_ Hk]. apply run_inv; [done| |by exists th].
    exists th. split_and!; [done..|]. by destruct th.
  - cbn. unfold get_current, get_thread. rewrite Hc. cbn.
    destruct (run_frames_spec (kstack th) 0 (upd_current (set_kstack []) s)) as (v' & s' & Hrun & HM' & Hc' & Ht' & Hpre').
    + by apply mid_upd_kstack.
    + exists (set_kstack [] th). cbn. rewrite lookup_alter_eq, Hc, app_nil_r. split_and!; [done..|].
      by apply (stk_ok_view s _ th).
    + rewrite Hrun. cbn. eexists. split; [done|]. apply run_inv; [done..|].
      exists (set_kstack [] th). rewrite Hc', Ht'. cbn. by rewrite lookup_alter_eq, Hc.
Qed.

(** * The running thread calls the kernel *)

(** The current thread has state [st] and pending code [P ++ k], of which [k] is known
    to be able to run, and may leave a critical section [n] times more than [k] does. *)
Definition At (P : list frame) (F : gset tid) (st : thread_state) (n : Z) (k : list frame)
    (s : kstate) : Prop :=
  Mid F s ∧ cur_is st (P ++ k) s ∧ Forall (frame_ok s) k ∧
  exits k + n ≤ critical_section_count s ∧ has_timer k = false ∧
  inl (current_thread s) ∉ timer_queue s.

Definition Run (n : Z) (k : list frame) (s : kstate) : Prop :=
  At [] {[current_thread s]} THREAD_RUNNING n k s.

Lemma inv_run s : Inv s ↔ Run 0 [] s.
Proof.
  split.
  - intros (? & ? & ? & ?). split_and!; done.
  - intros (? & ? & _ & ? & _ & ?). split_and!; done.
Qed.

Lemma run_post n k s v : 0 ≤ n → Run n k s → Post (current_thread s) k (Some v, s).
Proof.
  intros Hn (HM & (th & Hc & Hr & Hk) & Hf & He & Ht & Hin).
  cbn in Hk. subst k. split; [done|]. exists th.
  split_and!; try done. cbn. split_and!; try done; try congruence. lia.
Qed.

Lemma run_returns n k s v cur0 :
  0 ≤ n → Run n k s → current_thread s = cur0 → Returns cur0 k (Ok (Some v, s)).
Proof. intros Hn H <-. eexists. split; [done|]. by eapply run_post. Qed.

Lemma run_enter n k s : Run n k s → Run (n + 1) k (enter_critical_section s).
Proof.
  destruct (enter_eq s) as [i ->]. intros (? & ? & ? & ? & ? & ?). split_and!; try done.
  - by apply mid_count.
  - cbn. lia.
Qed.

Lemma run_exit n k s : Run (n + 1) k s → Run n k (exit_critical_section s).
Proof.
  destruct (exit_eq s) as [i ->]. intros (? & ? & ? & ? & ? & ?). split_and!; try done.
  - by apply mid_count.
  - cbn. lia.
Qed.

Lemma enter_current s : current_thread (enter_critical_section s) = current_thread s.
Proof. by destruct (enter_eq s) as [i ->]. Qed.
Lemma exit_current s : current_thread (exit_critical_section s) = current_thread s.
Proof. by destruct (exit_eq s) as [i ->]. Qed.

Lemma run_in_cs n k s : 1 ≤ exits k + n → Run n k s → in_critical_section s = true.
Proof. intros ? (_ & _ & _ & ? & _). apply Z.ltb_lt. lia. Qed.

Lemma run_kstack n k s : Run n k s → kstack <$> threads s !! current_thread s = Some k.
Proof. intros (_ & (th & -> & _ & E) & _). cbn. by rewrite E. Qed.

Lemma run_push n K k s :
  Run n k s → Forall (frame_ok s) K → has_timer K = false →
  Run (n - exits K) (K ++ k) (push_frames K s).
Proof.
  intros (HM & (th & Hc & Hr & Hk) & Hf & He & Ht & Hin) HK HtK. split_and!; try done.
  - destruct HM as [Hq HR]. split; [by apply inv_q_upd_view|]. apply rest_upd_current; [|done].
    intros th' Ht'. split; [|done]. intros E. destruct (rc_idle _ _ _ _ _ _ _ _ _ HR) as (th2 & Ht2 & ?).
    cbn. congruence.
  - exists (set_kstack (K ++ kstack th) th). cbn. rewrite lookup_alter_eq, Hc. cbn. by rewrite Hk.
  - by apply Forall_app.
  - rewrite exits_app. cbn. lia.
  - by rewrite has_timer_app, HtK, Ht.
Qed.

(** Calling an operation from the running thread. *)
Lemma run_invoke n K k op s :
  Run n k s → Forall (frame_ok s) K → has_timer K = false →
  (Run (n - exits K) (K ++ k) (push_frames K s) →
   Returns (current_thread s) (K ++ k) (op (push_frames K s))) →
  Returns (current_thread s) k (invoke K op s).
Proof.
  intros HR HK Ht Hop. apply invoke_spec; [by eapply run_kstack|]. apply Hop. by apply run_push.
Qed.

End Invariant.
