(* ===== verification/KOps.v ===== *)
(** Every kernel function keeps the invariant.

    For each operation of thread.c, mutex.c, event.c, dpc.c and timer.c: called by
    the running thread within its contract it runs without panic or fault, it
    terminates, and it leaves the kernel in a state where the thread that then
    runs can go on ([Returns]). *)
From Stdlib Require Import ZArith.
From stdpp Require Import base numbers list gmap strings.
From S2P Require Import Prelude KState KTimer KThread KSync KQueues KInv.

Section Ops.
Context (root : tid) (dpc_event : oid).

#[local] Notation Mid := (KInv.Mid root dpc_event).
#[local] Notation Rest := (KInv.Rest root dpc_event).
#[local] Notation Run := (KInv.Run root dpc_event).
#[local] Notation Post := (KInv.Post root dpc_event).
#[local] Notation Returns := (KInv.Returns root dpc_event).

(** * Putting threads on the run queues *)

Lemma mid_inserted add `{!QueueAdd add} F s t th :
  Mid F s → t ∈ F → threads s !! t = Some th → state th = THREAD_READY →
  in_critical_section s = true →
  ∃ q, insert_in_run_queue add t s = Ok (rq_inserted add t (priority th) q s) ∧
       Mid (F ∖ {[t]}) (rq_inserted add t (priority th) q s).
Proof.
  intros [Hq HR] HF Ht Hs Hcs.
  destruct (insert_in_run_queue_spec add F s t th Hq HF Ht Hs Hcs) as (q & Hi & Hq').
  exists q. split; [done|]. split; [done|]. by apply (rest_upd_view _ _ s t (set_queue_node true)).
Qed.

(** The state that [thread_resched] may be called in: the current thread is on a
    queue, asleep or dead. *)
Lemma resched_returns s th :
  Mid ∅ s → threads s !! current_thread s = Some th → 1 ≤ critical_section_count s →
  stk_ok s (current_thread s) th (critical_section_count s) →
  Returns (current_thread s) (kstack th) (thread_resched s).
Proof. intros HM Hc Hn Hs. by apply thread_resched_spec. Qed.

(** ... called with the code [K] to run after it. *)
Lemma resched_invoke K s th :
  Mid ∅ s → threads s !! current_thread s = Some th → 1 ≤ critical_section_count s →
  stk_ok s (current_thread s) (set_kstack (K ++ kstack th) th) (critical_section_count s) →
  Returns (current_thread s) (kstack th) (invoke K thread_resched s).
Proof.
  intros HM Hc Hn Hs. apply invoke_spec; [by rewrite Hc|].
  apply (resched_returns (push_frames K s) (set_kstack (K ++ kstack th) th)).
  - unfold push_frames. rewrite (upd_current_ext s th (λ th, set_kstack (K ++ kstack th) th)
      (set_kstack (K ++ kstack th)) Hc eq_refl).
    by apply mid_upd_kstack.
  - cbn. by rewrite lookup_alter_eq, Hc.
  - done.
  - exact Hs.
Qed.

#[local] Notation At := (KInv.At root dpc_event).

Lemma at_stk F st n k s th c :
  At [] F st n k s → threads s !! current_thread s = Some th →
  st ≠ THREAD_DEATH → st ≠ THREAD_SLEEPING → exits k ≤ c →
  stk_ok s (current_thread s) th c.
Proof.
  intros (_ & (th' & Hc' & Hst & Hk) & Hf & _ & Ht & Hin) Hc Hd Hs He. cbn in Hk. subst k.
  assert (th' = th) as -> by congruence.
  split_and!; try done; congruence.
Qed.

Lemma at_enter {P} F st n k s : At P F st n k s → At P F st (n + 1) k (enter_critical_section s).
Proof.
  destruct (enter_eq s) as [i ->]. intros (? & ? & ? & ? & ? & ?). split_and!; try done.
  - by apply mid_count.
  - cbn. lia.
Qed.

Lemma at_exit {P} F st n k s : At P F st (n + 1) k s → At P F st n k (exit_critical_section s).
Proof.
  destruct (exit_eq s) as [i ->]. intros (? & ? & ? & ? & ? & ?). split_and!; try done.
  - by apply mid_count.
  - cbn. lia.
Qed.

Lemma at_in_cs {P} F st n k s : 1 ≤ exits k + n → At P F st n k s → in_critical_section s = true.
Proof. intros ? (_ & _ & _ & ? & _). apply Z.ltb_lt. lia. Qed.

Lemma at_push F st n K k s :
  At [] F st n k s → Forall (frame_ok s) K → has_timer K = false →
  At [] F st (n - exits K) (K ++ k) (push_frames K s).
Proof.
  intros (HM & (th & Hc & Hr & Hk) & Hf & He & Ht & Hin) HK HtK. split_and!; try done.
  - unfold push_frames. rewrite (upd_current_ext s th (λ th, set_kstack (K ++ kstack th) th)
      (set_kstack (K ++ kstack th)) Hc eq_refl). by apply mid_upd_kstack.
  - exists (set_kstack (K ++ kstack th) th). cbn. rewrite lookup_alter_eq, Hc. cbn. by rewrite Hk.
  - by apply Forall_app.
  - rewrite exits_app. cbn. lia.
  - by rewrite has_timer_app, HtK, Ht.
Qed.

(** The current thread is out of the way: reschedule. *)
Lemma at_resched K st n k s :
  At [] ∅ st n k s → st ≠ THREAD_DEATH → st ≠ THREAD_SLEEPING →
  Forall (frame_ok s) K → has_timer K = false → exits K ≤ n → 1 ≤ exits k + n →
  Returns (current_thread s) k (invoke K thread_resched s).
Proof.
  intros HA Hd Hs HK HtK Hn H1. pose proof HA as (HM & (th & Hc & Hst & Hk) & _ & He & _).
  cbn in Hk. rewrite <- Hk. apply resched_invoke; [done..|lia|].
  pose proof (at_push _ _ _ _ _ _ HA HK HtK) as HP.
  apply (at_stk _ _ _ _ _ (set_kstack (K ++ kstack th) th) (critical_section_count s) HP); try done.
  - cbn. by rewrite lookup_alter_eq, Hc.
  - rewrite exits_app. lia.
Qed.

(** The running thread makes itself READY and goes on a run queue. *)
Definition requeues (g : thread → thread) : Prop :=
  ∀ th, state (g th) = THREAD_READY ∧ priority (g th) = priority th ∧
        queue_node (g th) = queue_node th ∧ blocking_wait_queue (g th) = blocking_wait_queue th ∧
        kstack (g th) = kstack th.

Lemma at_requeue {P} add `{!QueueAdd add} F n k s g :
  At P F THREAD_RUNNING n k s → current_thread s ∈ F → 1 ≤ exits k + n → requeues g →
  ∃ s', insert_in_run_queue add (current_thread s) (upd_current g s) = Ok s' ∧
        At P (F ∖ {[current_thread s]}) THREAD_READY n k s' ∧ current_thread s' = current_thread s ∧
        (∀ x, x ≠ current_thread s → threads s' !! x = threads s !! x) ∧
        wait_queues s' = wait_queues s ∧ mutexes s' = mutexes s ∧ events s' = events s.
Proof.
  intros HA HF Hn Hg. pose proof HA as ([Hq HR] & (th & Hc & Hr & Hk) & Hf & He & Ht & Hin).
  destruct (Hg th) as (G1 & G2 & G3 & G4 & G5).
  assert (Mid F (upd_current g s)) as HM1.
  { split.
    - apply inv_q_upd_float; [done|done|apply Hg| |].
      + intros th' Hc'. destruct (Hg th') as (_ & -> & _). by apply (iq_prio _ _ Hq) in Hc'.
      + intros th' Hc' _. destruct (Hg th') as (_ & _ & _ & -> & _).
        apply (iq_bwq _ _ Hq _ _ Hc'). congruence.
    - apply rest_upd_current; [|done]. intros th' Hc'. destruct (Hg th') as (-> & _).
      split; [auto|]. congruence. }
  destruct (mid_inserted add F (upd_current g s) (current_thread s) (g th)) as (q & Hi & HM2);
    [done|done| |done| |].
  - cbn. by rewrite lookup_alter_eq, Hc.
  - apply (at_in_cs _ _ _ _ _ Hn HA).
  - eexists. split; [exact Hi|]. split.
    2:{ split_and!; try done. intros x Hx. cbn. by rewrite !lookup_alter_ne. }
    split_and!; try done. exists (set_queue_node true (g th)). cbn. rewrite !lookup_alter_eq, Hc. cbn. by rewrite G5.
Qed.

(** * Yielding and preemption *)

Lemma upd_current_twice f g s : upd_current g (upd_current f s) = upd_current (g ∘ f) s.
Proof.
  unfold upd_current, upd_thread, set_threads. cbn. f_equal. apply map_eq. intros i.
  rewrite !lookup_alter. repeat case_decide; try done. by destruct (threads s !! current_thread s).
Qed.

(** Both put the running thread on a run queue and reschedule. *)
Lemma thread_yield_eq n k s :
  0 ≤ n → Run n k s →
  ∃ s', thread_yield s = invoke [FExit] thread_resched s' ∧ At [] ∅ THREAD_READY (n + 1) k s' ∧
        current_thread s' = current_thread s.
Proof.
  intros Hn HR. pose proof HR as (_ & (th & Hc & Hr & Hk) & _). pose proof (exits_nonneg k).
  unfold thread_yield, get_current, get_thread, is_state. rewrite Hc. cbn [deref mbind res_bind].
  rewrite bool_decide_eq_true_2 by done. cbn [ASSERT mbind res_bind].
  rewrite <- (enter_current s). apply run_enter in HR. set (s1 := enter_critical_section s) in *.
  rewrite upd_current_twice.
  destruct (at_requeue (λ t q, q ++ [t]) _ _ _ _ (set_remaining_quantum 0 ∘ set_state THREAD_READY) HR)
    as (s2 & Hi & HA & Ec & _); [set_solver|lia|done|].
  unfold insert_in_run_queue_tail, upd_current, upd_thread in Hi |- *. cbn [current_thread set_threads] in *.
  rewrite Hi. cbn [mbind res_bind]. rewrite difference_diag_L in HA. eauto.
Qed.

Lemma thread_preempt_eq n k s :
  0 ≤ n → Run n k s →
  ∃ s', thread_preempt s = invoke [FExit] thread_resched s' ∧ At [] ∅ THREAD_READY (n + 1) k s' ∧
        current_thread s' = current_thread s.
Proof.
  intros Hn HR. pose proof HR as (_ & (th & Hc & Hr & Hk) & _). pose proof (exits_nonneg k).
  unfold thread_preempt, get_current, get_thread, is_state. rewrite Hc. cbn [deref mbind res_bind].
  rewrite bool_decide_eq_true_2 by done. cbn [ASSERT mbind res_bind].
  rewrite <- (enter_current s). apply run_enter in HR. set (s1 := enter_critical_section s) in *.
  assert (∀ add `{!QueueAdd add}, ∃ s',
    (s ← insert_in_run_queue add (current_thread (upd_current (set_state THREAD_READY) s1))
           (upd_current (set_state THREAD_READY) s1); invoke [FExit] thread_resched s)
      = invoke [FExit] thread_resched s' ∧ At [] ∅ THREAD_READY (n + 1) k s' ∧
    current_thread s' = current_thread s1) as Hgo.
  { intros add ?. destruct (at_requeue add _ _ _ _ (set_state THREAD_READY) HR)
      as (s2 & Hi & HA & Ec & _); [set_solver|lia|done|].
    cbn [current_thread upd_current upd_thread set_threads]. rewrite Hi. cbn [mbind res_bind].
    rewrite difference_diag_L in HA. eauto. }
  case_match; apply Hgo; apply _.
Qed.

Lemma requeued_resched n k s :
  0 ≤ n → At [] ∅ THREAD_READY (n + 1) k s →
  Returns (current_thread s) k (invoke [FExit] thread_resched s).
Proof.
  intros Hn HA. pose proof (exits_nonneg k).
  eapply at_resched; [exact HA|done|done|by repeat constructor|done|cbn; lia|lia].
Qed.

Lemma thread_yield_spec n k s : 0 ≤ n → Run n k s → Returns (current_thread s) k (thread_yield s).
Proof.
  intros Hn HR. destruct (thread_yield_eq n k s Hn HR) as (s' & -> & HA & <-). by eapply requeued_resched.
Qed.

Lemma thread_preempt_spec n k s : 0 ≤ n → Run n k s → Returns (current_thread s) k (thread_preempt s).
Proof.
  intros Hn HR. destruct (thread_preempt_eq n k s Hn HR) as (s' & -> & HA & <-). by eapply requeued_resched.
Qed.

(** * Making another thread READY *)

Definition same_objs (s s' : kstate) : Prop :=
  mutexes s' = mutexes s ∧ events s' = events s ∧ timers s' = timers s ∧
  timer_queue s' = timer_queue s.

Lemma same_objs_trans s1 s2 s3 : same_objs s1 s2 → same_objs s2 s3 → same_objs s1 s3.
Proof. unfold same_objs. intuition congruence. Qed.

Lemma at_change {P} F F' st n n' k s s' :
  At P F st n k s → Mid F' s' → current_thread s' = current_thread s →
  threads s' !! current_thread s = threads s !! current_thread s →
  (∀ g, frame_ok s g → frame_ok s' g) → exits k + n' ≤ critical_section_count s' →
  (inl (current_thread s) ∈ timer_queue s' → inl (current_thread s) ∈ timer_queue s) →
  At P F' st n' k s'.
Proof.
  intros (HM & Hc & Hf & He & Ht & Hin) HM' Ec Et Hmono Hcnt Hq. split_and!; try done.
  - unfold cur_is. by rewrite Ec, Et.
  - eapply Forall_impl; [exact Hf|]. apply Hmono.
  - rewrite Ec. auto.
Qed.

Lemma at_keep {P} F F' st n k s s' :
  At P F st n k s → Mid F' s' → current_thread s' = current_thread s →
  threads s' !! current_thread s = threads s !! current_thread s →
  (∀ g, frame_ok s g → frame_ok s' g) →
  critical_section_count s ≤ critical_section_count s' →
  (inl (current_thread s) ∈ timer_queue s' → inl (current_thread s) ∈ timer_queue s) →
  At P F' st n k s'.
Proof. intros HA ? ? ? ? ? ?. pose proof HA as (_ & _ & _ & ? & _). eapply at_change; eauto. lia. Qed.

(** Insertion of a thread other than the current one. *)
Lemma at_insert {P} add `{!QueueAdd add} F st n k s t th :
  At P F st n k s → t ∈ F → t ≠ current_thread s → threads s !! t = Some th →
  state th = THREAD_READY → 1 ≤ exits k + n →
  ∃ s', insert_in_run_queue add t s = Ok s' ∧ At P (F ∖ {[t]}) st n k s' ∧
        current_thread s' = current_thread s ∧ wait_queues s' = wait_queues s ∧
        same_objs s s'.
Proof.
  intros HA HF Hne Ht Hs Hn. pose proof HA as (HM & _).
  destruct (mid_inserted add F s t th HM HF Ht Hs (at_in_cs _ _ _ _ _ Hn HA)) as (q & Hi & HM').
  eexists. split; [exact Hi|]. split_and!; try done.
  eapply at_keep; [exact HA|exact HM'|try done..]. cbn. by rewrite lookup_alter_ne.
Qed.

Lemma at_ready_suspended {P} F st n k s t th :
  At P F st n k s → t ≠ current_thread s → threads s !! t = Some th → state th = THREAD_SUSPENDED →
  At P ({[t]} ∪ F) st n k (upd_thread t (set_state THREAD_READY) s).
Proof.
  intros HA Hne Ht Hs. pose proof HA as ([Hq HR] & _).
  assert (inv_q ({[t]} ∪ F) s) as Hq'.
  { apply inv_q_unpark; [done|]. intros th' Ht'. by simplify_eq; rewrite Hs. }
  eapply at_keep; [exact HA| |done| |done|done|done].
  - split.
    + apply inv_q_upd_float; [set_solver|done|done| |]; intros th' Ht'; cbn.
      * by apply (iq_prio _ _ Hq) in Ht'.
      * intros _. apply (iq_bwq _ _ Hq _ _ Ht'). simplify_eq. congruence.
    + eapply (rest_ready root dpc_event s t th); try done; congruence.
  - cbn. by rewrite lookup_alter_ne.
Qed.

Lemma thread_resume_spec n k s t th :
  0 ≤ n → Run n k s → threads s !! t = Some th →
  state th = THREAD_SUSPENDED ∨ state th = THREAD_READY ∨ state th = THREAD_RUNNING →
  Returns (current_thread s) k (thread_resume t s).
Proof.
  intros Hn HR Ht Hst. pose proof (exits_nonneg k).
  unfold thread_resume, get_thread, is_state. rewrite Ht. cbn [deref mbind res_bind].
  rewrite (bool_decide_eq_false_2 (state th = THREAD_DEATH)) by (destruct Hst as [E|[E|E]]; by rewrite E).
  cbn [negb ASSERT mbind res_bind].
  destruct Hst as [Hs|Hst].
  2:{ assert (bool_decide (state th = THREAD_READY) || bool_decide (state th = THREAD_RUNNING) = true) as ->
        by (destruct Hst as [E|E]; by rewrite E).
      by apply (run_returns _ _ n). }
  rewrite Hs. cbn [orb bool_decide].
  assert (t ≠ current_thread s) as Hne.
  { intros ->. destruct HR as (_ & (th' & ? & ? & ?) & _). simplify_eq. congruence. }
  rewrite <- (enter_current s). pose proof (run_enter _ _ _ _ _ HR) as HR1.
  assert (threads (enter_critical_section s) !! t = Some th) as Ht1.
  { by destruct (enter_eq s) as [i ->]. }
  rewrite <- (enter_current s) in Hne. set (s1 := enter_critical_section s) in *.
  pose proof (at_ready_suspended _ _ _ _ _ _ _ HR1 Hne Ht1 Hs) as HA.
  destruct (at_insert (λ t q, t :: q) _ _ _ _ _ t (set_state THREAD_READY th) HA) as (s2 & Hi & HA2 & Ec & _);
    [set_solver|done|cbn; by rewrite lookup_alter_eq, Ht1|done|lia|].
  unfold insert_in_run_queue_head. rewrite Hi. cbn [mbind res_bind].
  change (current_thread (upd_thread t (set_state THREAD_READY) s1)) with (current_thread s1) in Ec.
  rewrite <- Ec. eapply (run_invoke _ _ (n + 1)); [|by repeat constructor|done|].
  - unfold KInv.Run. rewrite Ec. replace ({[current_thread s1]} : gset tid) with
      ((({[t]} ∪ {[current_thread s1]}) ∖ {[t]}) : gset tid) by set_solver. done.
  - intros HR3. change (current_thread s2) with (current_thread (push_frames [FExit; FRet NO_ERROR] s2)).
    eapply thread_yield_spec; [|exact HR3]. cbn. lia.
Qed.

(** * Wait queues *)

(** Taking a waiting thread off its queue. *)
Lemma rest_unlinked s w q t :
  Rest s → wait_queues s !! w = Some q → t ∈ wq_list q →
  Rest (put_wait_queue w (wq_removed t q) s) ∧
  ∀ g, frame_ok s g → frame_ok (put_wait_queue w (wq_removed t q) s) g.
Proof.
  intros HR Hw Hin.
  assert (∀ g, frame_ok s g → frame_ok (put_wait_queue w (wq_removed t q) s) g) as Hmono.
  { intros []; cbn; try done. intros ((q1 & Hq1 & Hl & ?) & ? & ?). split_and!; [|done..].
    rewrite lookup_insert_ne; [eauto|]. intros ->. simplify_eq. rewrite Hl in Hin. set_solver. }
  split; [|done].
  destruct HR as [H1 H2 H3 H4 H5 H6 H7 H8 H9 H10 H11]. constructor; cbn; auto.
  - intros x th Ht Hne. destruct (H3 _ _ Ht Hne) as (? & Hf & ?). split; [done|].
    split; [|done]. eapply Forall_impl; [exact Hf|]. apply Hmono.
  - intros m y Hm. destruct (H9 _ _ Hm) as (? & q1 & Hq1 & Hmg). split; [done|].
    rewrite lookup_insert. case_decide; [|eauto]. subst. simplify_eq. eauto.
  - intros e y He. destruct (H10 _ _ He) as (? & q1 & Hq1 & Hmg). split; [done|].
    rewrite lookup_insert. case_decide; [|eauto]. subst. simplify_eq. eauto.
Qed.

Definition woken (w : oid) (q : wait_queue) (t : tid) (err : Z) (s : kstate) : kstate :=
  upd_thread t (mark_woken err)
    (upd_thread t (set_queue_node false) (put_wait_queue w (wq_removed t q) s)).

Lemma at_unlink {P} F st n k s w q t err :
  At P F st n k s → st ≠ THREAD_BLOCKED → wait_queues s !! w = Some q → t ∈ wq_list q →
  wait_queue_unlink w t s = Ok (upd_thread t (set_queue_node false) (put_wait_queue w (wq_removed t q) s)) ∧
  t ≠ current_thread s ∧ t ∉ F ∧
  ∃ th, threads s !! t = Some th ∧ state th = THREAD_BLOCKED ∧
        At P ({[t]} ∪ F) st n k (woken w q t err s).
Proof.
  intros HA Hst Hw Hin. pose proof HA as ([Hq HR] & (thc & Hc & Hcs & _) & _).
  destruct (inv_q_unlinked F s w q t Hq Hw Hin) as [Hu Hq'].
  destruct (proj1 (iq_blocked _ _ Hq _ _ t Hw) Hin) as (th & Ht & HF & Hs & Hb).
  assert (t ≠ current_thread s) as Hne by (intros ->; simplify_eq; congruence).
  destruct (rest_unlinked s w q t HR Hw Hin) as [HR' Hmono].
  split_and!; [done..|]. exists th. split_and!; [done..|].
  eapply at_keep; [exact HA| |done| |exact Hmono|done|done].
  - split.
    + apply inv_q_upd_float; [set_solver|done|done| |done].
      intros th' Ht'. cbn in *. by apply (iq_prio _ _ Hq') in Ht'.
    + apply (rest_ready root dpc_event _ t (set_queue_node false th)); try done; cbn.
      * by rewrite lookup_alter_eq, Ht.
      * congruence.
      * congruence.
      * apply (rest_upd_view root dpc_event (put_wait_queue w (wq_removed t q) s)); done.
  - cbn. by rewrite !lookup_alter_ne.
Qed.

Lemma woken_lookup w q t err s th :
  threads s !! t = Some th →
  threads (woken w q t err s) !! t = Some (mark_woken err (set_queue_node false th)).
Proof. intros Ht. cbn. by rewrite !lookup_alter_eq, Ht. Qed.

(** Waking one thread: off its wait queue, on the run queue of its priority. *)
Lemma at_wake {P} F st n k s w q t err :
  At P F st n k s → st ≠ THREAD_BLOCKED → wait_queues s !! w = Some q → t ∈ wq_list q →
  1 ≤ exits k + n →
  ∃ s', insert_in_run_queue_head t (woken w q t err s) = Ok s' ∧ At P F st n k s' ∧
        current_thread s' = current_thread s ∧
        wait_queues s' = <[w := wq_removed t q]> (wait_queues s) ∧
        same_objs s s'.
Proof.
  intros HA Hst Hw Hin Hn.
  destruct (at_unlink _ _ _ _ _ _ _ _ err HA Hst Hw Hin) as (_ & Hne & HF & th & Ht & Hs & HA').
  destruct (at_insert (λ t q, t :: q) _ _ _ _ _ t (mark_woken err (set_queue_node false th)) HA') as (s' & Hi & HA2 & Ec & Ew & Ee);
    [set_solver|done|by apply woken_lookup|done|done|].
  exists s'. split_and!; try done. by replace F with (({[t]} ∪ F) ∖ {[t]}) by set_solver.
Qed.

Lemma wake_one_false_spec {P} F st n k s w q err :
  At P F st n k s → st ≠ THREAD_BLOCKED → 1 ≤ exits k + n →
  wait_queues s !! w = Some q → wq_magic q = WAIT_QUEUE_MAGIC →
  ∃ v s', wait_queue_wake_one w false err s = Ok (Some v, s') ∧ At P F st n k s' ∧
    current_thread s' = current_thread s ∧ same_objs s s'.
Proof.
  intros HA Hst Hn Hw Hm. unfold wait_queue_wake_one, get_wait_queue. rewrite Hw.
  cbn [deref mbind res_bind]. rewrite Hm, Z.eqb_refl, (at_in_cs _ _ _ _ _ Hn HA).
  cbn [ASSERT mbind res_bind]. destruct (wq_list q) as [|t ts] eqn:El; [by eexists _, s|].
  assert (t ∈ wq_list q) as Hin by (rewrite El; set_solver).
  destruct (at_unlink _ _ _ _ _ _ _ _ err HA Hst Hw Hin) as (Hu & _ & _ & th & Ht & Hs & _).
  rewrite Hu. cbn [mbind res_bind]. unfold get_thread. cbn. rewrite lookup_alter_eq, Ht. cbn.
  unfold is_state. cbn [state set_queue_node]. rewrite Hs. cbn.
  destruct (at_wake _ _ _ _ _ _ _ _ err HA Hst Hw Hin Hn) as (s' & Hi & HA' & Ec & _ & Ee).
  unfold woken in Hi. rewrite Hi. cbn. eauto 10.
Qed.

Lemma wake_one_true_spec n k s w q err :
  Run n k s → 1 ≤ exits k + n → 0 ≤ n →
  wait_queues s !! w = Some q → wq_magic q = WAIT_QUEUE_MAGIC →
  Returns (current_thread s) k (wait_queue_wake_one w true err s).
Proof.
  intros HA Hn H0 Hw Hm. unfold wait_queue_wake_one, get_wait_queue. rewrite Hw.
  cbn [deref mbind res_bind]. rewrite Hm, Z.eqb_refl, (at_in_cs _ _ _ _ _ Hn HA).
  cbn [ASSERT mbind res_bind]. destruct (wq_list q) as [|t ts] eqn:El; [by apply (run_returns _ _ n)|].
  assert (t ∈ wq_list q) as Hin by (rewrite El; set_solver).
  destruct (at_unlink _ _ _ _ _ _ _ _ err HA ltac:(done) Hw Hin) as (Hu & Hne & HF & th & Ht & Hs & HA1).
  rewrite Hu. cbn [mbind res_bind]. unfold get_thread. cbn -[insert_in_run_queue_head upd_current].
  rewrite lookup_alter_eq, Ht. cbn -[insert_in_run_queue_head upd_current].
  unfold is_state. cbn [state set_queue_node]. rewrite Hs. cbn -[insert_in_run_queue_head upd_current].
  fold (woken w q t err s).
  destruct (at_requeue (λ t q, t :: q) _ _ _ _ (set_state THREAD_READY) HA1) as (s2 & Hi & HA2 & Ec & Eo & _);
    [cbn; set_solver|done|done|].
  change (insert_in_run_queue_head (current_thread s)) with (insert_in_run_queue (λ t q, t :: q) (current_thread (woken w q t err s))).
  rewrite Hi. cbn [mbind res_bind].
  change (current_thread (woken w q t err s)) with (current_thread s) in *.
  destruct (at_insert (λ t q, t :: q) _ _ _ _ _ t (mark_woken err (set_queue_node false th)) HA2)
    as (s3 & Hi3 & HA3 & Ec3 & _); [set_solver|congruence| |done|done|].
  { rewrite Eo by done. by apply woken_lookup. }
  unfold insert_in_run_queue_head. rewrite Hi3. cbn [mbind res_bind].
  rewrite <- Ec, <- Ec3. apply (at_resched [FRet 1] THREAD_READY n); try done; [|by repeat constructor].
  replace (∅ : gset tid) with (({[t]} ∪ {[current_thread s]}) ∖ {[current_thread s]} ∖ {[t]} : gset tid) by set_solver.
  done.
Qed.

(** [n] rounds wake the [n] waiting threads. *)
Lemma wake_all_loop_spec {P} F st n k w err m s q ret :
  At P F st n k s → st ≠ THREAD_BLOCKED → 1 ≤ exits k + n →
  wait_queues s !! w = Some q → length (wq_list q) = m →
  ∃ s' q', wake_all_loop m w err ret s = Ok (ret + Z.of_nat m, s') ∧ At P F st n k s' ∧
    current_thread s' = current_thread s ∧ wait_queues s' !! w = Some q' ∧
    wq_list q' = [] ∧ wq_count q' = 0 ∧ wq_magic q' = wq_magic q ∧
    same_objs s s'.
Proof.
  intros HA Hst Hn. revert s q ret HA. induction m as [|m IH]; intros s q ret HA Hw Hl.
  - pose proof HA as ([Hq _] & _). destruct (iq_wait _ _ Hq _ _ Hw) as [_ Hcnt].
    apply nil_length_inv in Hl. cbn. unfold get_wait_queue. rewrite Hw. cbn. rewrite Hl.
    exists s, q. rewrite Hl in Hcnt. rewrite Z.add_0_r. split_and!; done.
  - destruct (wq_list q) as [|t ts] eqn:El; [done|]. injection Hl as Hl.
    assert (t ∈ wq_list q) as Hin by (rewrite El; set_solver).
    cbn [wake_all_loop]. unfold get_wait_queue. rewrite Hw. cbn [deref mbind res_bind]. rewrite El.
    destruct (at_unlink _ _ _ _ _ _ _ _ err HA Hst Hw Hin) as (Hu & _ & _ & th & Ht & Hs & _).
    rewrite Hu. cbn [mbind res_bind]. unfold get_thread. cbn -[insert_in_run_queue_head wake_all_loop].
    rewrite lookup_alter_eq, Ht. cbn -[insert_in_run_queue_head wake_all_loop].
    unfold is_state. cbn [state set_queue_node]. rewrite Hs. cbn -[insert_in_run_queue_head wake_all_loop].
    destruct (at_wake _ _ _ _ _ _ _ _ err HA Hst Hw Hin Hn) as (s1 & Hi & HA1 & Ec & Ew & Ee).
    unfold woken in Hi. rewrite Hi. cbn [mbind res_bind].
    pose proof HA as ([Hq _] & _). destruct (iq_wait _ _ Hq _ _ Hw) as [Hnd _]. rewrite El in Hnd.
    apply NoDup_cons in Hnd as [Hnin _].
    destruct (IH s1 (wq_removed t q) (ret + 1) HA1) as (s' & q' & -> & HA' & Ec' & Hw' & Hq' & Hc' & Hm' & Ee').
    + rewrite Ew. by rewrite lookup_insert_eq.
    + cbn. rewrite El. rewrite filter_cons_False by (intros ?; done). by rewrite filter_ne_id.
    + exists s', q'. replace (ret + 1 + Z.of_nat m) with (ret + Z.of_nat (S m)) by lia.
      split_and!; try done; [congruence|by eapply same_objs_trans].
Qed.

Lemma wake_all_false_spec {P} F st n k s w q err :
  At P F st n k s → st ≠ THREAD_BLOCKED → 1 ≤ exits k + n →
  wait_queues s !! w = Some q → wq_magic q = WAIT_QUEUE_MAGIC →
  ∃ v s', wait_queue_wake_all w false err s = Ok (Some v, s') ∧ At P F st n k s' ∧
    current_thread s' = current_thread s ∧ same_objs s s'.
Proof.
  intros HA Hst Hn Hw Hm. unfold wait_queue_wake_all, get_wait_queue. rewrite Hw.
  cbn [deref mbind res_bind]. rewrite Hm, Z.eqb_refl, (at_in_cs _ _ _ _ _ Hn HA).
  cbn [ASSERT mbind res_bind andb].
  destruct (wake_all_loop_spec _ _ _ _ w err _ s q 0 HA Hst Hn Hw eq_refl)
    as (s' & q' & -> & HA' & Ec & Hw' & _ & Hc' & _ & Ee).
  cbn [mbind res_bind]. rewrite Hw'. cbn. rewrite Hc'. cbn. eauto 10.
Qed.

(** The pending code in front is able to run too. *)
Lemma at_join P F st n k s :
  At P F st n k s → Forall (frame_ok s) P → has_timer P = false →
  At [] F st (n - exits P) (P ++ k) s.
Proof.
  intros (HM & Hc & Hf & He & Ht & Hin) HP HtP. split_and!; try done.
  - by apply Forall_app.
  - rewrite exits_app. lia.
  - by rewrite has_timer_app, HtP, Ht.
Qed.

(** [P] is code that can only run once the queue is empty (wait_queue_destroy). *)
Lemma wake_all_true_spec P n k s w q err :
  At P {[current_thread s]} THREAD_RUNNING n k s → 1 ≤ exits k + n → 0 ≤ n →
  has_timer P = false → exits P = 0 →
  wait_queues s !! w = Some q → wq_magic q = WAIT_QUEUE_MAGIC →
  (∀ s' q', wait_queues s' !! w = Some q' → wq_list q' = [] → wq_count q' = 0 →
     mutexes s' = mutexes s → events s' = events s → Forall (frame_ok s') P) →
  Returns (current_thread s) (P ++ k) (wait_queue_wake_all w true err s).
Proof.
  intros HA Hn H0 HtP HeP Hw Hm HP. unfold wait_queue_wake_all, get_wait_queue. rewrite Hw.
  cbn [deref mbind res_bind]. rewrite Hm, Z.eqb_refl, (at_in_cs _ _ _ _ _ Hn HA).
  cbn [ASSERT mbind res_bind andb]. pose proof HA as ([Hq _] & _).
  destruct (iq_wait _ _ Hq _ _ Hw) as [_ Hcnt]. destruct (Z.ltb_spec 0 (wq_count q)) as [Hpos|Hz].
  - destruct (at_requeue (λ t q, t :: q) _ _ _ _ (set_state THREAD_READY) HA)
      as (s1 & Hi & HA1 & Ec1 & _ & Ew1 & Em1 & Ee1); [set_solver|done|done|].
    unfold insert_in_run_queue_head. rewrite Hi. cbn [mbind res_bind].
    rewrite <- Ew1 in Hw.
    destruct (wake_all_loop_spec _ _ _ _ w err _ s1 q 0 HA1 ltac:(done) Hn Hw eq_refl)
      as (s' & q' & -> & HA' & Ec' & Hw' & Hl' & Hc' & _ & [Em' [Ee' _]]).
    cbn [mbind res_bind]. rewrite Hw'. cbn [deref mbind res_bind]. rewrite Hc'. cbn [ASSERT mbind res_bind Z.eqb].
    destruct (Z.ltb_spec 0 (0 + Z.of_nat (length (wq_list q)))); [|lia].
    rewrite difference_diag_L in HA'. apply at_join in HA'; [|eapply HP; eauto; congruence|done].
    rewrite <- Ec1, <- Ec'. eapply at_resched; [exact HA'|done|done|by repeat constructor|done|cbn; lia|].
    rewrite exits_app. lia.
  - cbn [mbind res_bind].
    destruct (wake_all_loop_spec _ _ _ _ w err _ s q 0 HA ltac:(done) Hn Hw eq_refl)
      as (s' & q' & -> & HA' & Ec' & Hw' & Hl' & Hc' & _ & [Em' [Ee' _]]).
    cbn [mbind res_bind]. rewrite Hw'. cbn [deref mbind res_bind]. rewrite Hc'. cbn [ASSERT mbind res_bind Z.eqb].
    destruct (Z.ltb_spec 0 (0 + Z.of_nat (length (wq_list q)))); [lia|].
    apply at_join in HA'; [|by eapply HP; eauto|done]. rewrite <- Ec' in HA'.
    eapply run_returns; [|exact HA'|done]. lia.
Qed.

(** A destroyed object that nobody can wait on any more. *)
Definition dead_object (w : oid) (s : kstate) : Prop :=
  (∀ x, mutexes s !! w = Some x → m_magic x ≠ MUTEX_MAGIC) ∧
  (∀ x, events s !! w = Some x → e_magic x ≠ EVENT_MAGIC).

Lemma wait_queue_destroy_spec n k s w q :
  Run n k s → 1 ≤ exits k + n → 0 ≤ n → dead_object w s →
  wait_queues s !! w = Some q → wq_magic q = WAIT_QUEUE_MAGIC →
  Returns (current_thread s) k (wait_queue_destroy w true s).
Proof.
  intros HA Hn H0 [Hdm Hde] Hw Hm. unfold wait_queue_destroy, get_wait_queue. rewrite Hw.
  cbn [deref mbind res_bind]. rewrite Hm, Z.eqb_refl, (at_in_cs _ _ _ _ _ Hn HA).
  cbn [ASSERT mbind res_bind]. apply invoke_spec; [by eapply run_kstack|].
  change (current_thread s) with (current_thread (push_frames [FWaitQueueDestroy w] s)).
  apply (wake_all_true_spec _ n _ _ _ q); try done.
  - destruct HA as (HM & (th & Hc & Hr & Hk) & Hf & He & Ht & Hin). split_and!; try done.
    + unfold push_frames. rewrite (upd_current_ext s th (λ th, set_kstack ([FWaitQueueDestroy w] ++ kstack th) th)
        (set_kstack ([FWaitQueueDestroy w] ++ kstack th)) Hc eq_refl). by apply mid_upd_kstack.
    + exists (set_kstack ([FWaitQueueDestroy w] ++ kstack th) th). cbn. rewrite lookup_alter_eq, Hc.
      cbn. by rewrite Hk.
  - intros s' q' Hw' Hl Hc Em Ee. repeat constructor; [by eauto|cbn in *..].
    + by rewrite Em.
    + by rewrite Ee.
Qed.

(** * Timers *)

Lemma insert_sorted_total tms tm time q :
  (∀ x, x ∈ q → is_Some (tms !! x)) →
  ∃ l, insert_sorted tms tm time q = Ok l ∧ l ≡ₚ tm :: q.
Proof.
  induction q as [|e q IH]; intros Hq; cbn; [by eexists|].
  destruct (Hq e) as [x ->]; [set_solver|]. cbn. case_match; [by eexists|].
  destruct IH as (l & -> & Hp); [set_solver|]. cbn. eexists. split; [done|].
  rewrite Hp. by constructor.
Qed.

Lemma timer_set_eq tm delay period cb arg s :
  (∀ x, x ∈ timer_queue s → is_Some (timers s !! x)) → is_Some (timers s !! tm) →
  tm ∉ timer_queue s →
  ∃ i l, timer_set tm delay period cb arg s =
    Ok (set_ints_enabled i (set_timer_queue l
          (put_timer tm (mkTimer (u32 (current_time s + delay)) period (Some cb) arg) s))) ∧
    l ≡ₚ tm :: timer_queue s.
Proof.
  intros Hq [x Hx] Hin. unfold timer_set, get_timer, timer_in_list. rewrite Hx. cbn [deref mbind res_bind].
  rewrite bool_decide_eq_false_2 by done. set (x' := mkTimer _ _ _ _).
  destruct (enter_eq (put_timer tm x' s)) as [i ->]. unfold insert_timer_in_queue, get_timer. cbn.
  rewrite lookup_insert_eq. cbn.
  destruct (insert_sorted_total (<[tm := x']> (timers s)) tm (u32 (current_time s + delay)) (timer_queue s))
    as (l & -> & Hl).
  { intros y Hy. rewrite lookup_insert. case_decide; eauto. }
  cbn. set (s2 := set_timer_queue _ _). destruct (exit_eq s2) as [j ->]. subst s2.
  exists j, l. split; [|done]. f_equal. destruct s; cbn. by rewrite Z.add_simpl_r.
Qed.

Lemma rest_put_timer s tm x :
  Rest s → own_timer s tm → tm ∉ timer_queue s → 0 ≤ periodic_time x < 2 ^ 31 →
  Rest (put_timer tm x s).
Proof.
  intros [H1 H2 H3 H4 H5 H6 H7 H8 H9 H10 H11] Hown Hin Hp. constructor; cbn; auto.
  - intros t th Ht Hne. destruct (H3 _ _ Ht Hne) as (? & ? & ? & Htm & ? & Hti & Hsl).
    assert (inl t ≠ tm) by (intros <-; by apply Hne, Hown).
    split; [done|]. split_and!; try done; intros ?.
    + rewrite lookup_insert_ne by done. auto.
    + destruct Hti as (y & ? & ?); [done|]. exists y. by rewrite lookup_insert_ne.
  - intros tm' Hin'. destruct (H5 tm' Hin') as (y & ? & ?). exists y.
    rewrite lookup_insert_ne; [done|]. by intros ->.
  - intros tm' y. rewrite lookup_insert. case_decide; [|eauto]. by intros [= <-].
Qed.

Lemma rest_queue_timer s i tm x l :
  Rest s → own_timer s tm → tm ∉ timer_queue s → 0 ≤ periodic_time x < 2 ^ 31 →
  timer_okC (threads s) tm x → l ≡ₚ tm :: timer_queue s →
  Rest (set_ints_enabled i (set_timer_queue l (put_timer tm x s))).
Proof.
  intros HR Hown Hin Hp Hok Hl. pose proof (rest_put_timer s tm x HR Hown Hin Hp) as HR'.
  destruct HR' as [H1 H2 H3 H4 H5 H6 H7 H8 H9 H10 H11]. constructor; cbn in *; auto.
  - intros t th Ht Hne. destruct (H3 _ _ Ht Hne) as (? & ? & ? & Htm & ? & Hti & Hsl).
    assert (inl t ≠ tm) by (intros <-; by apply Hne, Hown).
    split; [done|]. split_and!; try done.
    + rewrite Hl. intros [?|?]%elem_of_cons; auto; done.
    + intros ?. rewrite Hl. set_solver.
  - rewrite Hl. by constructor.
  - intros tm'. rewrite Hl. intros [->|?]%elem_of_cons; [|auto].
    exists x. by rewrite lookup_insert_eq.
Qed.

(** * Blocking *)

Lemma stk_ok_push s t th c K :
  stk_ok s t th c → Forall (frame_ok s) K → has_timer K = false → state th ≠ THREAD_DEATH →
  stk_ok s t (set_kstack (K ++ kstack th) th) (c + exits K).
Proof.
  intros (H1 & H2 & H3 & H4 & H5 & H6) HK HtK Hd.
  split_and!; cbn; rewrite ?has_timer_app, ?exits_app, ?HtK; try done.
  - by apply Forall_app.
  - lia.
  - intros Hin. destruct (H5 Hin) as (x & ? & Hx). exists x. cbn. rewrite has_timer_app, HtK. done.
Qed.

Lemma thread_block_spec s th :
  Mid ∅ s → threads s !! current_thread s = Some th → state th = THREAD_BLOCKED →
  0 ≤ critical_section_count s → stk_ok s (current_thread s) th (critical_section_count s) →
  Returns (current_thread s) (kstack th) (thread_block s).
Proof.
  intros HM Hc Hs Hn Hstk. unfold thread_block, get_current, get_thread, is_state. rewrite Hc.
  cbn [deref mbind res_bind]. rewrite Hs. cbn. destruct (enter_eq s) as [i ->].
  set (s1 := set_ints_enabled _ _). change (current_thread s) with (current_thread s1).
  apply resched_invoke; [by apply mid_count|done|cbn; lia|].
  apply (stk_ok_push s1 _ _ (critical_section_count s)); [done|by repeat constructor|done|congruence].
Qed.

(** A wait queue that no pending code is about to destroy. *)
Definition live_queue (w : oid) (s : kstate) : Prop :=
  (∃ x, mutexes s !! w = Some x ∧ m_magic x = MUTEX_MAGIC) ∨
  (∃ x, events s !! w = Some x ∧ e_magic x = EVENT_MAGIC).

Lemma rest_joined s w q t :
  Rest s → wait_queues s !! w = Some q → live_queue w s →
  Rest (put_wait_queue w (wq_joined t q) s) ∧
  ∀ g, frame_ok s g → frame_ok (put_wait_queue w (wq_joined t q) s) g.
Proof.
  intros HR Hw Hlive.
  assert (∀ g, frame_ok s g → frame_ok (put_wait_queue w (wq_joined t q) s) g) as Hmono.
  { intros []; cbn; try done. intros ((q1 & Hq1 & Hl & ?) & Hm & He). split_and!; [|done..].
    rewrite lookup_insert_ne; [eauto|]. intros ->.
    destruct Hlive as [(x & Hx & ?)|(x & Hx & ?)]; [by eapply Hm|by eapply He]. }
  split; [|done].
  destruct HR as [H1 H2 H3 H4 H5 H6 H7 H8 H9 H10 H11]. constructor; cbn; auto.
  - intros x th Ht Hne. destruct (H3 _ _ Ht Hne) as (? & Hf & ?). split; [done|].
    split; [|done]. eapply Forall_impl; [exact Hf|]. apply Hmono.
  - intros m y Hm. destruct (H9 _ _ Hm) as (? & q1 & Hq1 & Hmg). split; [done|].
    rewrite lookup_insert. case_decide; [|eauto]. subst. simplify_eq. eauto.
  - intros e y He. destruct (H10 _ _ He) as (? & q1 & Hq1 & Hmg). split; [done|].
    rewrite lookup_insert. case_decide; [|eauto]. subst. simplify_eq. eauto.
Qed.

(** The state in which [wait_queue_block] has put the current thread on the queue. *)
Definition joined (w : oid) (q : wait_queue) (s : kstate) : kstate :=
  upd_current (block_on w) (put_wait_queue w (wq_joined (current_thread s) q) s).

Lemma at_joined n k s w q :
  Run n k s → current_thread s ≠ root → live_queue w s →
  wait_queues s !! w = Some q → wq_magic q = WAIT_QUEUE_MAGIC →
  At [] ∅ THREAD_BLOCKED n k (joined w q s).
Proof.
  intros HA Hroot Hlive Hw Hm. pose proof HA as ([Hq HR] & (th & Hc & Hr & Hk) & Hf & He & Ht & Hin).
  destruct (rest_joined s w q (current_thread s) HR Hw Hlive) as [HR' Hmono].
  split_and!; try done.
  - split.
    + rewrite <- (difference_diag_L {[current_thread s]}).
      apply inv_q_joined; [done|set_solver|eauto|done..].
    + apply rest_upd_current; [|done]. cbn. intros th' Hc'. split; [done|congruence].
  - exists (block_on w th). cbn. by rewrite lookup_alter_eq, Hc.
  - eapply Forall_impl; [exact Hf|]. apply Hmono.
Qed.

Lemma upd_current_block w s :
  upd_current (set_wait_queue_block_ret NO_ERROR)
    (upd_current (set_blocking_wait_queue (Some w))
       (upd_current (set_state THREAD_BLOCKED) (upd_current (set_queue_node true) s))) =
  upd_current (block_on w) s.
Proof. by rewrite !upd_current_twice. Qed.

(** The timer of a timed wait: on the thread's own stack, cancelled by the pending code. *)
Lemma timed_wait_spec n k s timeout :
  At [] ∅ THREAD_BLOCKED n k s → 0 ≤ n → timeout ≠ INFINITE_TIME →
  ∃ s', timer_set_oneshot (inl (current_thread s)) timeout CbWaitQueueTimeout (Some (current_thread s))
          (timer_initialize (inl (current_thread s)) s) = Ok s' ∧
    Mid ∅ s' ∧ current_thread s' = current_thread s ∧ critical_section_count s' = critical_section_count s ∧
    threads s' = threads s ∧
    ∀ th, threads s !! current_thread s = Some th →
      stk_ok s' (current_thread s) (set_kstack (FWaitQueueBlock timeout :: k) th) (critical_section_count s).
Proof.
  intros ([Hq HR] & (th & Hc & Hr & Hk) & Hf & He & Ht & Hin) Hn Hinf.
  set (cur := current_thread s) in *. set (s0 := timer_initialize (inl cur) s).
  assert (Rest s0) as HR0.
  { apply rest_put_timer; [done|by intros ? [= <-]|done|cbn; lia]. }
  destruct (timer_set_eq (inl cur) (if timeout =? 0 then 1 else timeout) 0 CbWaitQueueTimeout (Some cur) s0)
    as (i & l & Hset & Hl).
  - intros x Hx. destruct (rc_timer _ _ _ _ _ _ _ _ _ _ _ HR0 x Hx) as (y & -> & _). eauto.
  - cbn. rewrite lookup_insert_eq. eauto.
  - done.
  - unfold timer_set_oneshot. rewrite Hset. eexists. split; [done|].
    set (x := mkTimer _ _ _ _). split_and!; try done.
    + split; [by apply (inv_q_same ∅ s)|].
      apply (rest_queue_timer s0 i (inl cur) x l); try done.
      * by intros ? [= <-].
      * exists cur. split_and!; done.
    + intros th' Hc'. assert (th' = th) as -> by congruence. cbn in Hk, Hr.
      split_and!; cbn.
      * constructor; [done|]. exact Hf.
      * lia.
      * intros _. rewrite lookup_insert_eq. eauto.
      * congruence.
      * intros _. exists x. rewrite lookup_insert_eq. split; [done|]. right. split; [done|].
        cbn. split; [|congruence]. apply orb_true_iff. left. by apply negb_true_iff, Z.eqb_neq.
      * congruence.
Qed.

Lemma wait_queue_block_spec n k s w q timeout :
  Run n k s → 1 ≤ exits k + n → 0 ≤ n → current_thread s ≠ root → live_queue w s →
  wait_queues s !! w = Some q → wq_magic q = WAIT_QUEUE_MAGIC →
  Returns (current_thread s) k (wait_queue_block w timeout s).
Proof.
  intros HR Hn H0 Hroot Hlive Hw Hm. pose proof HR as (_ & (th & Hc & Hr & Hk) & _).
  unfold wait_queue_block, get_wait_queue, get_current, get_thread, is_state. rewrite Hw, Hc.
  cbn [deref mbind res_bind]. rewrite Hm, Hr, Z.eqb_refl, (at_in_cs _ _ _ _ _ Hn HR).
  cbn [ASSERT mbind res_bind]. rewrite bool_decide_eq_true_2 by done. cbn [ASSERT mbind res_bind].
  destruct (timeout =? 0); [by apply (run_returns _ _ n)|].
  rewrite upd_current_block, <- Hm.
  pose proof (at_joined n k s w q HR Hroot Hlive Hw Hm) as HA.
  change (upd_current (block_on w) _) with (joined w q s).
  change (current_thread s) with (current_thread (joined w q s)) at 2 3 4.
  pose proof (exits_nonneg k). pose proof HA as (HM & (thb & Hcb & Hsb & Hkb) & Hfb & Heb & Htb & Hinb).
  assert (∀ s', Mid ∅ s' → current_thread s' = current_thread s →
    critical_section_count s' = critical_section_count s → threads s' = threads (joined w q s) →
    stk_ok s' (current_thread s) (set_kstack (FWaitQueueBlock timeout :: k) thb) (critical_section_count s) →
    Returns (current_thread s) k (invoke [FWaitQueueBlock timeout] thread_block s')) as Hblock.
  { intros s' HM' Ec En Et Hstk. rewrite <- Ec in Hstk |- *. rewrite <- En in Hstk.
    assert (threads s' !! current_thread s' = Some thb) as Hc' by (rewrite Et, Ec; exact Hcb).
    apply invoke_spec; [rewrite Hc'; cbn; by rewrite Hkb|]. cbn [app] in *.
    change k with (kstack (set_kstack k thb)).
    apply (thread_block_spec (push_frames [FWaitQueueBlock timeout] s') (set_kstack (FWaitQueueBlock timeout :: k) thb)); try done.
    - unfold push_frames. rewrite (upd_current_ext s' thb (λ th, set_kstack ([FWaitQueueBlock timeout] ++ kstack th) th)
        (set_kstack ([FWaitQueueBlock timeout] ++ kstack thb)) Hc' eq_refl). by apply mid_upd_kstack.
    - cbn. rewrite lookup_alter_eq, Hc'. cbn. by rewrite Hkb.
    - cbn. rewrite En. cbn in Heb. lia. }
  destruct (Z.eqb_spec timeout INFINITE_TIME) as [->|Hinf]; cbn [mbind res_bind].
  - apply Hblock; try done. cbn in Hkb.
    pose proof (at_stk _ _ _ _ _ thb (critical_section_count s) HA Hcb ltac:(done) ltac:(done)) as Hstk.
    specialize (Hstk ltac:(cbn in *; lia)). rewrite <- Hkb.
    replace (critical_section_count s) with (critical_section_count s + exits [FWaitQueueBlock INFINITE_TIME]) by (cbn; lia).
    apply (stk_ok_push _ _ _ _ [FWaitQueueBlock INFINITE_TIME]); [exact Hstk|by repeat constructor|done|congruence].
  - destruct (timed_wait_spec n k (joined w q s) timeout HA H0 Hinf) as (s' & Hset & HM' & Ec & En & Et & Hs).
    rewrite Hset. cbn [mbind res_bind]. apply Hblock; try done. by apply Hs.
Qed.

Lemma thread_sleep_spec n k s delay :
  Run n k s → 0 ≤ n → current_thread s ≠ root →
  Returns (current_thread s) k (thread_sleep delay s).
Proof.
  intros HR H0 Hroot. pose proof HR as ([Hq HRest] & (th & Hc & Hr & Hk) & Hf & He & Ht & Hin).
  pose proof (exits_nonneg k). unfold thread_sleep, get_current, get_thread, is_state. rewrite Hc.
  cbn [deref mbind res_bind]. rewrite bool_decide_eq_true_2 by done. cbn [ASSERT mbind res_bind].
  set (s0 := timer_initialize (inl (current_thread s)) s).
  assert (Rest s0) as HR0.
  { apply rest_put_timer; [done|by intros ? [= <-]|done|cbn; lia]. }
  destruct (enter_eq s0) as [i ->]. set (s1 := set_ints_enabled _ _).
  destruct (timer_set_eq (inl (current_thread s)) (if delay =? 0 then 1 else delay) 0 CbThreadSleep (Some (current_thread s)) s1)
    as (j & l & Hset & Hl).
  - intros x Hx. destruct (rc_timer _ _ _ _ _ _ _ _ _ _ _ HR0 x Hx) as (y & Hy & _). cbn in *. eauto.
  - cbn. rewrite lookup_insert_eq. eauto.
  - done.
  - unfold timer_set_oneshot. rewrite Hset. cbn [mbind res_bind]. set (x := mkTimer _ _ _ _).
    set (s2 := set_ints_enabled j _).
    assert (Mid {[(current_thread s)]} s2) as [Hq2 HR2].
    { split; [by apply (inv_q_same _ s)|].
      apply (rest_queue_timer s1 j (inl (current_thread s)) x l); try done; [by intros ? [= <-]|].
      exists (current_thread s). split_and!; done. }
    change (current_thread s) with (current_thread (upd_current (set_state THREAD_SLEEPING) s2)) at 1.
    cbn in Hk. rewrite <- Hk. change (kstack th) with (kstack (set_state THREAD_SLEEPING th)). apply resched_invoke.
    + split.
      * rewrite <- (difference_diag_L {[(current_thread s)]}). apply inv_q_park.
        -- apply inv_q_upd_float; [set_solver|done|done| |]; intros th' Ht'.
           ++ by apply (iq_prio _ _ Hq2) in Ht'.
           ++ intros _. apply (iq_bwq _ _ Hq2 _ _ Ht'). cbn in *. congruence.
        -- cbn. rewrite lookup_alter_eq, Hc. by intros ? [= <-].
      * apply rest_upd_current; [|done]. cbn. intros th' Hc'. split; [done|]. congruence.
    + cbn. by rewrite lookup_alter_eq, Hc.
    + cbn. lia.
    + split_and!; cbn; try done.
      * constructor; [done|]. rewrite Hk. exact Hf.
      * rewrite Hk. cbn. lia.
      * intros _. rewrite lookup_insert_eq. eauto.
      * intros _. exists x. rewrite lookup_insert_eq. auto.
      * intros _. rewrite Hl. set_solver.
Qed.

(** [thread_unblock_from_wait_queue] without rescheduling.  When the thread is not
    blocked the critical section count stays raised. *)
Lemma thread_unblock_spec n k s t th err :
  Run n k s → 0 ≤ n → threads s !! t = Some th →
  ∃ v s', thread_unblock_from_wait_queue t false err s = Ok (Some v, s') ∧ Run n k s' ∧
          current_thread s' = current_thread s ∧ same_objs s s'.
Proof.
  intros HR H0 Ht. pose proof (exits_nonneg k).
  pose proof (run_enter _ _ _ _ _ HR) as HR1. destruct (enter_eq s) as [i Ei].
  unfold thread_unblock_from_wait_queue. rewrite Ei in *. set (s1 := set_ints_enabled _ _) in *.
  unfold get_thread, is_state. change (threads s1) with (threads s). rewrite Ht. cbn [deref mbind res_bind].
  case_bool_decide as Hs; cbn [negb].
  2:{ eexists _, s1. split; [done|]. split_and!; try done.
      destruct HR1 as (? & ? & ? & ? & ? & ?). split_and!; try done. lia. }
  pose proof HR1 as ([Hq _] & (thc & Hc & Hr & _) & _).
  assert (t ∉ ({[current_thread s1]} : gset tid)) as HF.
  { intros ->%elem_of_singleton. cbn in *. simplify_eq. congruence. }
  destruct (iq_blocked_on _ _ Hq t th Ht HF Hs) as (w & q & Hb & Hw & Hm).
  assert (t ∈ wq_list q) as Hin by (apply (iq_blocked _ _ Hq w q t Hw); eauto).
  rewrite Hb. cbn [mbind res_bind]. unfold get_wait_queue. rewrite Hw. cbn [deref mbind res_bind].
  rewrite Hm, Z.eqb_refl. cbn [ASSERT mbind res_bind].
  rewrite (proj2 (iq_node _ _ Hq t th Ht)) by auto. cbn [ASSERT mbind res_bind].
  destruct (at_unlink _ _ _ _ _ _ _ _ err HR1 ltac:(done) Hw Hin) as (Hu & Hne & _).
  rewrite Hu. cbn [mbind res_bind].
  destruct (at_wake _ _ _ _ _ _ _ _ err HR1 ltac:(done) Hw Hin ltac:(lia)) as (s2 & Hi & HA & Ec & _ & Eo).
  change (upd_thread t (mark_woken err) _) with (woken w q t err s1). rewrite Hi. cbn [mbind res_bind].
  rewrite <- Ec in HA. apply run_exit in HA. eexists _, _. split; [done|]. split; [exact HA|].
  rewrite exit_current. split; [exact Ec|]. destruct (exit_eq s2) as [j ->]. exact Eo.
Qed.

(** * Mutexes *)

Lemma at_put_mutex {P} F st n k s m x x' :
  At P F st n k s → mutexes s !! m = Some x → (m_magic x' = MUTEX_MAGIC → m_magic x = MUTEX_MAGIC) →
  At P F st n k (put_mutex m x' s).
Proof.
  intros HA Hm Hmag. pose proof HA as (HM & _).
  destruct (mid_put_mutex _ _ F s m x x' Hm Hmag HM) as [HM' Hmono]. by eapply at_keep.
Qed.

Lemma at_put_event {P} F st n k s e x x' :
  At P F st n k s → events s !! e = Some x → (e_magic x' = EVENT_MAGIC → e_magic x = EVENT_MAGIC) →
  (e = dpc_event → e_magic x' = EVENT_MAGIC) →
  At P F st n k (put_event e x' s).
Proof.
  intros HA Hm Hmag Hd. pose proof HA as (HM & _).
  destruct (mid_put_event _ _ F s e x x' Hm Hmag Hd HM) as [HM' Hmono]. by eapply at_keep.
Qed.

Lemma mutex_queue F s m x :
  Mid F s → mutexes s !! m = Some x → m_magic x = MUTEX_MAGIC →
  ∃ q, wait_queues s !! m = Some q ∧ wq_magic q = WAIT_QUEUE_MAGIC.
Proof. intros [_ HR] Hm Hx. destruct (rc_mutex _ _ _ _ _ _ _ _ _ _ _ HR m x Hm) as (_ & q & ? & ?). eauto. Qed.

Lemma event_queue F s e x :
  Mid F s → events s !! e = Some x → e_magic x = EVENT_MAGIC →
  ∃ q, wait_queues s !! e = Some q ∧ wq_magic q = WAIT_QUEUE_MAGIC.
Proof. intros [_ HR] Hm Hx. destruct (rc_event _ _ _ _ _ _ _ _ _ _ _ HR e x Hm) as (_ & q & ? & ?). eauto. Qed.

(** Waiting for a mutex with [f] as the rest of the function. *)
Lemma mutex_wait_spec n k s m x f timeout :
  Run (n + 1) k s → 0 ≤ n → current_thread s ≠ root → mutexes s !! m = Some x → m_magic x = MUTEX_MAGIC →
  f = FMutexAcquire m ∨ f = FMutexAcquireTimeout m →
  Returns (current_thread s) k (invoke [f] (wait_queue_block m timeout) s).
Proof.
  intros HR Hn Hroot Hm Hx Hf. pose proof (exits_nonneg k).
  destruct (mutex_queue _ s m x (proj1 HR) Hm Hx) as (q & Hw & Hq).
  assert (exits [f] = 1) as Ef by (by destruct Hf as [-> | ->]).
  apply (run_invoke _ _ (n + 1)); [done| |by destruct Hf as [-> | ->]|].
  { repeat constructor. by destruct Hf as [-> | ->]; exists x. }
  intros HR1. change (current_thread s) with (current_thread (push_frames [f] s)).
  eapply (wait_queue_block_spec _ _ _ _ q); [exact HR1| | |done| |done|done].
  - rewrite exits_app. lia.
  - lia.
  - left. eauto.
Qed.

Lemma mutex_take_spec n k s m x v :
  Run (n + 1) k s → 0 ≤ n → mutexes s !! m = Some x →
  Returns (current_thread s) k
    (Ok (Some v, exit_critical_section (put_mutex m (set_m_holder (Some (current_thread s)) x) s))).
Proof.
  intros HR Hn Hm. apply (run_returns _ _ n); [done| |by rewrite exit_current].
  apply run_exit. by eapply at_put_mutex.
Qed.

Lemma mutex_acquire_spec n k s m x :
  Run n k s → 0 ≤ n → current_thread s ≠ root → mutexes s !! m = Some x → m_magic x = MUTEX_MAGIC →
  m_holder x ≠ Some (current_thread s) →
  Returns (current_thread s) k (mutex_acquire m s).
Proof.
  intros HR Hn Hroot Hm Hx Hh. unfold mutex_acquire, get_mutex. rewrite Hm. cbn [deref mbind res_bind].
  rewrite bool_decide_eq_false_2 by done. rewrite Hx, Z.eqb_refl. cbn [ASSERT mbind res_bind].
  apply run_enter in HR. rewrite <- (enter_current s) in *.
  assert (mutexes (enter_critical_section s) !! m = Some x) as Hm1 by (by destruct (enter_eq s) as [i ->]).
  set (s1 := enter_critical_section s) in *. set (x' := set_m_count _ x).
  pose proof (at_put_mutex _ _ _ _ _ m x x' HR Hm1 ltac:(done)) as HR2.
  assert (mutexes (put_mutex m x' s1) !! m = Some x') as Hm2 by (cbn; by rewrite lookup_insert_eq).
  change (current_thread s1) with (current_thread (put_mutex m x' s1)) in *.
  case_match; [|by eapply mutex_take_spec]. by eapply mutex_wait_spec; eauto.
Qed.

Lemma mutex_acquire_timeout_spec n k s m x timeout :
  Run n k s → 0 ≤ n → current_thread s ≠ root → mutexes s !! m = Some x → m_magic x = MUTEX_MAGIC →
  m_holder x ≠ Some (current_thread s) →
  Returns (current_thread s) k (mutex_acquire_timeout m timeout s).
Proof.
  intros HR Hn Hroot Hm Hx Hh. unfold mutex_acquire_timeout, get_mutex. rewrite Hm. cbn [deref mbind res_bind].
  rewrite bool_decide_eq_false_2 by done. case_match; [by eapply mutex_acquire_spec|].
  rewrite Hx, Z.eqb_refl. cbn [ASSERT mbind res_bind].
  apply run_enter in HR. rewrite <- (enter_current s) in *.
  assert (mutexes (enter_critical_section s) !! m = Some x) as Hm1 by (by destruct (enter_eq s) as [i ->]).
  set (s1 := enter_critical_section s) in *. set (x' := set_m_count _ x).
  pose proof (at_put_mutex _ _ _ _ _ m x x' HR Hm1 ltac:(done)) as HR2.
  assert (mutexes (put_mutex m x' s1) !! m = Some x') as Hm2 by (cbn; by rewrite lookup_insert_eq).
  change (current_thread s1) with (current_thread (put_mutex m x' s1)) in *.
  case_match; [|by eapply mutex_take_spec]. by eapply mutex_wait_spec; eauto.
Qed.

Lemma mutex_release_spec n k s m x :
  Run n k s → 0 ≤ n → mutexes s !! m = Some x → m_magic x = MUTEX_MAGIC →
  m_holder x = Some (current_thread s) →
  Returns (current_thread s) k (mutex_release m s).
Proof.
  intros HR Hn Hm Hx Hh. unfold mutex_release, get_mutex. rewrite Hm. cbn [deref mbind res_bind].
  rewrite bool_decide_eq_true_2 by done. rewrite Hx, Z.eqb_refl. cbn [ASSERT mbind res_bind negb].
  apply run_enter in HR. rewrite <- (enter_current s) in *.
  assert (mutexes (enter_critical_section s) !! m = Some x) as Hm1 by (by destruct (enter_eq s) as [i ->]).
  set (s1 := enter_critical_section s) in *. set (x' := set_m_count _ _).
  pose proof (at_put_mutex _ _ _ _ _ m x x' HR Hm1 ltac:(done)) as HR2.
  change (current_thread s1) with (current_thread (put_mutex m x' s1)) in *.
  destruct (mutex_queue _ _ m x' (proj1 HR2)) as (q & Hw & Hq); [cbn; by rewrite lookup_insert_eq|done|].
  case_match.
  - apply (run_invoke _ _ (n + 1)); [done|by repeat constructor|done|]. intros HR3.
    change (current_thread (put_mutex m x' s1)) with (current_thread (push_frames [FExit; FRet NO_ERROR] (put_mutex m x' s1))).
    pose proof (exits_nonneg k). eapply (wake_one_true_spec _ _ _ _ q); [exact HR3| | |done|done].
    + rewrite exits_app. cbn. lia.
    + cbn. lia.
  - apply (run_returns _ _ n); [done|by apply run_exit|by rewrite exit_current].
Qed.

(** Destroying the wait queue of an object already marked dead. *)
Lemma destroy_queue_spec n k s w q :
  Run (n + 1) k s → 0 ≤ n → dead_object w s → wait_queues s !! w = Some q →
  wq_magic q = WAIT_QUEUE_MAGIC →
  Returns (current_thread s) k (invoke [FExit] (wait_queue_destroy w true) s).
Proof.
  intros HR Hn Hd Hw Hq. pose proof (exits_nonneg k).
  apply (run_invoke _ _ (n + 1)); [done|by repeat constructor|done|]. intros HR3.
  change (current_thread s) with (current_thread (push_frames [FExit] s)).
  eapply (wait_queue_destroy_spec _ _ _ _ q); [exact HR3| | |done|done|done].
  - rewrite exits_app. cbn. lia.
  - cbn. lia.
Qed.

Lemma mutex_destroy_spec n k s m x :
  Run n k s → 0 ≤ n → mutexes s !! m = Some x → m_magic x = MUTEX_MAGIC →
  Returns (current_thread s) k (mutex_destroy m s).
Proof.
  intros HR Hn Hm Hx. unfold mutex_destroy. apply run_enter in HR. rewrite <- (enter_current s) in *.
  assert (mutexes (enter_critical_section s) !! m = Some x) as Hm1 by (by destruct (enter_eq s) as [i ->]).
  set (s1 := enter_critical_section s) in *. unfold get_mutex. rewrite Hm1. cbn [deref mbind res_bind].
  rewrite Hx, Z.eqb_refl. cbn [ASSERT mbind res_bind]. set (x' := set_m_count _ _).
  destruct (mutex_queue _ _ m x (proj1 HR) Hm1 Hx) as (q & Hw & Hq).
  change (current_thread s1) with (current_thread (put_mutex m x' s1)).
  eapply (destroy_queue_spec n _ _ _ q); [|done| |done|done].
  - by eapply at_put_mutex.
  - destruct (rc_mutex _ _ _ _ _ _ _ _ _ _ _ (proj2 (proj1 HR)) m x Hm1) as (He & _). split; cbn.
    + rewrite lookup_insert_eq. by intros ? [= <-].
    + rewrite He. done.
Qed.

(** * Events *)

Lemma run_enter_event n k s e x :
  Run n k s → events s !! e = Some x →
  Run (n + 1) k (enter_critical_section s) ∧ events (enter_critical_section s) !! e = Some x.
Proof. intros HR He. split; [by apply run_enter|]. by destruct (enter_eq s) as [i ->]. Qed.

(** Writing an event without touching its magic number. *)
Lemma at_mark_event {P} F st n k s e x b :
  At P F st n k s → events s !! e = Some x → At P F st n k (put_event e (set_e_signalled b x) s).
Proof.
  intros HA He. eapply at_put_event; [done..|]. intros ->. destruct HA as ([_ HR] & _).
  destruct (rc_dpc_event _ _ _ _ _ _ _ _ _ _ _ HR) as (y & Hy & ?). cbn. congruence.
Qed.

Lemma event_wait_timeout_spec n k s e x timeout :
  Run n k s → 0 ≤ n → current_thread s ≠ root → events s !! e = Some x → e_magic x = EVENT_MAGIC →
  Returns (current_thread s) k (event_wait_timeout e timeout s).
Proof.
  intros HR Hn Hroot He Hx. unfold event_wait_timeout. pose proof (exits_nonneg k).
  destruct (run_enter_event _ _ _ _ _ HR He) as [HR1 He1]. rewrite <- (enter_current s) in *.
  set (s1 := enter_critical_section s) in *. unfold get_event. rewrite He1. cbn [deref mbind res_bind].
  rewrite Hx, Z.eqb_refl. cbn [ASSERT mbind res_bind]. case_match.
  - case_match.
    + apply (run_returns _ _ n); [done| |by rewrite exit_current].
      apply run_exit. by apply (at_mark_event _ _ _ _ _ e x).
    + apply (run_returns _ _ n); [done| |by rewrite exit_current]. by apply run_exit.
  - destruct (event_queue _ _ e x (proj1 HR1) He1 Hx) as (q & Hw & Hq).
    apply (run_invoke _ _ (n + 1)); [done|by repeat constructor|done|]. intros HR3.
    change (current_thread s1) with (current_thread (push_frames [FExit] s1)).
    eapply (wait_queue_block_spec _ _ _ _ q); [exact HR3| | |done| |done|done].
    + rewrite exits_app. cbn. lia.
    + cbn. lia.
    + right. eauto.
Qed.

Lemma event_signal_true_spec n k s e x :
  Run n k s → 0 ≤ n → events s !! e = Some x → e_magic x = EVENT_MAGIC →
  Returns (current_thread s) k (event_signal e true s).
Proof.
  intros HR Hn He Hx. unfold event_signal. pose proof (exits_nonneg k).
  destruct (run_enter_event _ _ _ _ _ HR He) as [HR1 He1]. rewrite <- (enter_current s) in *.
  set (s1 := enter_critical_section s) in *. unfold get_event. rewrite He1. cbn [deref mbind res_bind].
  rewrite Hx, Z.eqb_refl. cbn [ASSERT mbind res_bind].
  destruct (event_queue _ _ e x (proj1 HR1) He1 Hx) as (q & Hw & Hq). case_match.
  2:{ apply (run_returns _ _ n); [done|by apply run_exit|by rewrite exit_current]. }
  case_match.
  - apply (run_invoke _ _ (n + 1)); [done|repeat constructor; by exists x|done|]. intros HR3.
    change (current_thread s1) with (current_thread (push_frames [FEventSignal e] s1)).
    eapply (wake_one_true_spec _ _ _ _ q); [exact HR3| | |done|done].
    + rewrite exits_app. cbn. lia.
    + cbn. lia.
  - pose proof (at_mark_event _ _ _ _ _ e x true HR1 He1) as HR2. set (s2 := put_event _ _ _) in *.
    change (current_thread s1) with (current_thread s2).
    apply (run_invoke _ _ (n + 1)); [done|by repeat constructor|done|]. intros HR3.
    change (current_thread s2) with (current_thread (push_frames [FExit; FRet NO_ERROR] s2)).
    apply (wake_all_true_spec [] (n + 1 - exits [FExit; FRet NO_ERROR]) _ _ _ q); try done; cbn; lia.
Qed.

(** Pushing pending code that need not be able to run yet, and popping it. *)
Lemma at_push_pending P F st n K k s :
  At P F st n k s → At (K ++ P) F st n k (push_frames K s).
Proof.
  intros (HM & (th & Hc & Hr & Hk) & Hf & He & Ht & Hin). split_and!; try done.
  - unfold push_frames. rewrite (upd_current_ext s th (λ th, set_kstack (K ++ kstack th) th)
      (set_kstack (K ++ kstack th)) Hc eq_refl). by apply mid_upd_kstack.
  - exists (set_kstack (K ++ kstack th) th). cbn. rewrite lookup_alter_eq, Hc. cbn.
    by rewrite Hk, app_assoc.
Qed.

Lemma at_pop P F st n K k s :
  At (K ++ P) F st n k s → At P F st n k (pop_frames (length K) s).
Proof.
  intros (HM & (th & Hc & Hr & Hk) & Hf & He & Ht & Hin). rewrite <- app_assoc in Hk.
  assert (pop_frames (length K) s = upd_current (set_kstack (P ++ k)) s) as ->.
  { apply (upd_current_ext _ th); [done|]. by rewrite Hk, drop_app_length. }
  split_and!; try done; [by apply mid_upd_kstack|].
  exists (set_kstack (P ++ k) th). cbn. by rewrite lookup_alter_eq, Hc.
Qed.

(** Signalling without rescheduling only moves threads to the run queues; the
    caller may be in any state but BLOCKED (thread_exit calls it when dying). *)
Lemma event_signal_false_spec P F st n k s e x :
  At P F st n k s → 0 ≤ n → st ≠ THREAD_BLOCKED → events s !! e = Some x → e_magic x = EVENT_MAGIC →
  ∃ v s', event_signal e false s = Ok (Some v, s') ∧ At P F st n k s' ∧
          current_thread s' = current_thread s.
Proof.
  intros HA Hn Hst He Hx. unfold event_signal. pose proof (exits_nonneg k).
  apply at_enter in HA. assert (events (enter_critical_section s) !! e = Some x) as He1
    by (by destruct (enter_eq s) as [i ->]). rewrite <- (enter_current s) in *.
  set (s1 := enter_critical_section s) in *. unfold get_event. rewrite He1. cbn [deref mbind res_bind].
  rewrite Hx, Z.eqb_refl. cbn [ASSERT mbind res_bind].
  destruct (event_queue _ _ e x (proj1 HA) He1 Hx) as (q & Hw & Hq). case_match.
  2:{ eexists _, _. split; [done|]. split; [by apply at_exit|apply exit_current]. }
  case_match; unfold invoke.
  - apply (at_push_pending _ _ _ _ [FEventSignal e]) in HA.
    destruct (wake_one_false_spec _ _ _ _ _ e q NO_ERROR HA Hst) as (v & s2 & -> & HA2 & Ec & _ & Ee & _);
      [lia|done|done|].
    cbn [mbind res_bind]. apply at_pop in HA2. set (s3 := pop_frames _ s2) in *.
    assert (current_thread s3 = current_thread s1) as Ec3 by exact Ec.
    assert (events s3 !! e = Some x) as He3 by (cbn in *; by rewrite Ee).
    cbn [run_frames run_frame]. unfold get_event. rewrite He3. case_match; cbn [deref mbind res_bind].
    + eexists _, _. split; [done|]. rewrite exit_current. split; [|exact Ec3].
      apply at_exit. by apply at_mark_event.
    + eexists _, _. split; [done|]. rewrite exit_current. split; [|exact Ec3]. by apply at_exit.
  - pose proof (at_mark_event _ _ _ _ _ e x true HA He1) as HA1.
    apply (at_push_pending _ _ _ _ [FExit; FRet NO_ERROR]) in HA1.
    destruct (wake_all_false_spec _ _ _ _ _ e q NO_ERROR HA1 Hst) as (v & s2 & -> & HA2 & Ec & _);
      [lia|done|done|].
    cbn [mbind res_bind]. apply (at_pop _ _ _ _ [FExit; FRet NO_ERROR]) in HA2.
    set (s3 := pop_frames _ s2) in *. cbn [run_frames run_frame mbind res_bind].
    eexists _, _. split; [done|]. rewrite exit_current. split; [by apply at_exit|exact Ec].
Qed.

Lemma event_unsignal_spec n k s e x :
  Run n k s → 0 ≤ n → events s !! e = Some x → e_magic x = EVENT_MAGIC →
  ∃ v s', event_unsignal e s = Ok (Some v, s') ∧ Run n k s' ∧ current_thread s' = current_thread s.
Proof.
  intros HR Hn He Hx. unfold event_unsignal.
  destruct (run_enter_event _ _ _ _ _ HR He) as [HR1 He1]. rewrite <- (enter_current s) in *.
  set (s1 := enter_critical_section s) in *. unfold get_event. rewrite He1. cbn [deref mbind res_bind].
  rewrite Hx, Z.eqb_refl. cbn [ASSERT mbind res_bind].
  eexists _, _. split; [done|]. split; [|by rewrite exit_current].
  apply run_exit. by apply (at_mark_event _ _ _ _ _ e x).
Qed.

Lemma event_destroy_spec n k s e x :
  Run n k s → 0 ≤ n → events s !! e = Some x → e_magic x = EVENT_MAGIC → e ≠ dpc_event →
  Returns (current_thread s) k (event_destroy e s).
Proof.
  intros HR Hn He Hx Hd. unfold event_destroy.
  destruct (run_enter_event _ _ _ _ _ HR He) as [HR1 He1]. rewrite <- (enter_current s) in *.
  set (s1 := enter_critical_section s) in *. unfold get_event. rewrite He1. cbn [deref mbind res_bind].
  rewrite Hx, Z.eqb_refl. cbn [ASSERT mbind res_bind].
  destruct (event_queue _ _ e x (proj1 HR1) He1 Hx) as (q & Hw & Hq).
  change (current_thread s1) with (current_thread (put_event e (mkEvent 0 false 0) s1)).
  eapply (destroy_queue_spec n _ _ _ q); [|done| |done|done].
  - by eapply at_put_event.
  - destruct (rc_event _ _ _ _ _ _ _ _ _ _ _ (proj2 (proj1 HR1)) e x He1) as (Hm & _). split; cbn.
    + rewrite Hm. done.
    + rewrite lookup_insert_eq. by intros ? [= <-].
Qed.

(** * Exiting *)

(** A thread that is not READY does not get the processor back. *)
Lemma thread_resched_leaves s thc :
  Mid ∅ s → threads s !! current_thread s = Some thc → 1 ≤ critical_section_count s →
  state thc ≠ THREAD_READY →
  ∃ s', thread_resched s = Ok (None, s').
Proof.
  intros HM Hc Hcnt Hns. pose proof (bitmap_nonzero _ _ s HM) as Hbm. pose proof HM as [Hq HR].
  destruct (next_queue_scan s (inv_q_agrees _ _ Hq) Hbm) as (p & t & q & Hp & Hin & _).
  destruct (proj1 (iq_ready _ _ Hq _ _ t Hin) ltac:(set_solver)) as (th & Ht & _ & Hs & _).
  assert (t ≠ current_thread s) as Hne by (intros ->; congruence).
  rewrite (thread_resched_eq s p t q th); try done.
  - unfold resched_out. rewrite bool_decide_eq_false_2 by done. eauto.
  - intros _. by destruct (rc_stk _ _ _ _ _ _ _ _ _ _ _ HR _ _ Ht Hne).
Qed.

Lemma at_queue_dpc P F st n k s :
  At P F st n k s → st = THREAD_DEATH → current_thread s ∉ (dpc_arg <$> dpc_list s) →
  At P F st n k (set_dpc_list (dpc_list s ++ [mkDpc thread_cleanup_dpc_cb (current_thread s)]) s).
Proof.
  intros HA -> Hnin. pose proof HA as ([Hq HR] & (th & Hc & Hst & _) & _).
  eapply at_keep; [exact HA| |done..]. split; [by apply (inv_q_same _ s)|].
  destruct HR as [H1 H2 H3 H4 H5 H6 H7 H8 H9 H10 H11]. constructor; cbn; auto.
  destruct H8 as [Hnd Hd]. split.
  - rewrite fmap_app. apply NoDup_app. split_and!; [done| |apply NoDup_singleton]. set_solver.
  - intros d [?|Hl]%elem_of_app; [auto|]. apply list_elem_of_singleton in Hl as ->. cbn. eauto.
Qed.

(** The dying thread: marked, then queued for the DPC thread. *)
Lemma at_die n s f :
  Run n [] s → current_thread s ≠ root →
  (∀ th, state (f th) = THREAD_DEATH ∧ priority (f th) = priority th ∧ kstack (f th) = kstack th ∧
     queue_node (f th) = queue_node th ∧ blocking_wait_queue (f th) = blocking_wait_queue th) →
  At [] {[current_thread s]} THREAD_DEATH n [] (upd_current f s) ∧
  current_thread s ∉ (dpc_arg <$> dpc_list s).
Proof.
  intros ([Hq HR] & (th & Hc & Hr & Hk) & Hf & He & Ht & Hin) Hroot Hg.
  destruct (Hg th) as (G1 & G2 & G3 & G4 & G5). split.
  - split_and!; try done.
    + split.
      * apply inv_q_upd_float; [set_solver|done|apply Hg| |]; intros th' Ht'; destruct (Hg th') as (? & G2' & _ & _ & G5').
        -- rewrite G2'. by apply (iq_prio _ _ Hq) in Ht'.
        -- intros _. rewrite G5'. apply (iq_bwq _ _ Hq _ _ Ht'). congruence.
      * apply rest_upd_current; [|done]. intros th' Ht'. split; [done|]. intros _. apply Hg.
    + exists (f th). cbn. rewrite lookup_alter_eq, Hc. cbn. by rewrite G3.
  - intros ([] & E & Hd)%list_elem_of_fmap. destruct (rc_dpc _ _ _ _ _ _ _ _ _ _ _ HR) as [_ Hdead].
    destruct (Hdead _ Hd) as (th' & Ht' & ?). cbn in *. congruence.
Qed.

Lemma dpc_queue_dying_spec n s :
  At [] {[current_thread s]} THREAD_DEATH n [] s → 0 ≤ n →
  current_thread s ∉ (dpc_arg <$> dpc_list s) →
  ∃ v s', dpc_queue dpc_event true thread_cleanup_dpc_cb (current_thread s) DPC_FLAG_NORESCHED s
            = Ok (Some v, s') ∧
    At [] {[current_thread s]} THREAD_DEATH n [] s' ∧ current_thread s' = current_thread s.
Proof.
  intros HA Hn Hnin. unfold dpc_queue. cbn [negb].
  destruct (rc_dpc_event _ _ _ _ _ _ _ _ _ _ _ (proj2 (proj1 HA))) as (x & He & Hx).
  apply at_enter in HA. destruct (enter_eq s) as [i Ei]. rewrite Ei in *. set (s1 := set_ints_enabled _ _) in *.
  pose proof (at_queue_dpc _ _ _ _ _ s1 HA eq_refl Hnin) as HA1. set (s2 := set_dpc_list _ s1) in *.
  change (set_dpc_list _ s1) with s2. unfold invoke.
  apply (at_push_pending _ _ _ _ [FExit; FRet NO_ERROR]) in HA1.
  destruct (event_signal_false_spec _ _ _ _ _ _ dpc_event x HA1) as (v & s3 & Hs & HA3 & Ec);
    [lia|done|done|done|].
  change (Z.land DPC_FLAG_NORESCHED DPC_FLAG_NORESCHED =? 0) with false. rewrite Hs. cbn [mbind res_bind].
  apply (at_pop _ _ _ _ [FExit; FRet NO_ERROR]) in HA3. cbn [run_frames run_frame mbind res_bind].
  eexists _, _. split; [done|]. rewrite exit_current. split; [|exact Ec].
  apply at_exit. exact HA3.
Qed.

Lemma dead_resched_spec n s :
  At [] {[current_thread s]} THREAD_DEATH n [] s → 1 ≤ n →
  ∃ s', thread_resched s = Ok (None, s') ∧ Post (current_thread s) [] (None, s').
Proof.
  intros ([Hq HR] & (th & Hc & Hd & Hk) & _ & He & _ & Hin) Hn. cbn in He, Hk.
  assert (Mid ∅ s) as HM.
  { split; [|done]. rewrite <- (difference_diag_L {[current_thread s]}). apply inv_q_park; [done|].
    intros th' Hc'. simplify_eq. by rewrite Hd. }
  destruct (thread_resched_leaves s th HM Hc) as (s' & Hs'); [lia|congruence|].
  destruct (thread_resched_spec _ _ s th HM Hc) as (r & Hr & HP); [lia| |].
  { split_and!; rewrite ?Hk; try done; cbn; [lia|congruence]. }
  exists s'. split; [done|]. rewrite Hs' in Hr. injection Hr as <-. by rewrite Hk in HP.
Qed.

Lemma thread_exit_eq s th ok rc :
  threads s !! current_thread s = Some th → state th = THREAD_RUNNING →
  thread_exit dpc_event ok rc s =
    let s1 := upd_current (set_retcode rc ∘ set_state THREAD_DEATH) (enter_critical_section s) in
    '(_, s2) ← dpc_queue dpc_event ok thread_cleanup_dpc_cb (current_thread s1) DPC_FLAG_NORESCHED s1;
    '(r, s3) ← thread_resched s2;
    match r with Some _ => Panic | None => Ok (None, s3) end.
Proof.
  intros Hc Hr. unfold thread_exit, get_current, get_thread, is_state. rewrite Hc.
  cbn [deref mbind res_bind]. rewrite bool_decide_eq_true_2 by done.
  cbn [ASSERT mbind res_bind]. by rewrite upd_current_twice.
Qed.

Lemma thread_exit_spec n s rc :
  Run n [] s → 0 ≤ n → current_thread s ≠ root →
  Returns (current_thread s) [] (thread_exit dpc_event true rc s).
Proof.
  intros HR Hn Hroot. pose proof HR as (_ & (th & Hc & Hr & Hk) & _).
  rewrite (thread_exit_eq s th true rc Hc Hr). apply run_enter in HR.
  clear Hc Hr Hk th. rewrite <- (enter_current s) in *. generalize dependent (enter_critical_section s). clear s.
  intros s HR Hroot.
  destruct (at_die _ _ (set_retcode rc ∘ set_state THREAD_DEATH) HR Hroot ltac:(done)) as [HA Hnin].
  set (s2 := upd_current _ s) in *.
  assert (current_thread s = current_thread s2) as E1 by done.
  assert (dpc_list s = dpc_list s2) as E2 by done. rewrite E1, E2 in Hnin. rewrite E1 in HA |- *.
  clearbody s2. cbn zeta.
  destruct (dpc_queue_dying_spec _ s2 HA ltac:(lia) Hnin) as (v & s3 & -> & HA3 & Ec).
  cbn [mbind res_bind]. rewrite <- Ec in HA3 |- *.
  destruct (dead_resched_spec _ s3 HA3 ltac:(lia)) as (s4 & -> & HP).
  cbn [mbind res_bind]. by exists (None, s4).
Qed.

(** * The DPC thread *)

Lemma rest_free s t th d ds :
  Rest s → dpc_list s = d :: ds → dpc_arg d = t → threads s !! t = Some th →
  state th = THREAD_DEATH → t ≠ current_thread s →
  Rest (set_threads (delete t (threads s))
          (set_thread_list (filter (λ x, x ≠ t) (thread_list s)) (set_dpc_list ds s))).
Proof.
  intros [H1 H2 H3 H4 H5 H6 H7 H8 H9 H10 H11] Hd <- Ht Hs Hne. set (t := dpc_arg d) in *.
  assert (inl t ∉ timer_queue s) as Hnt.
  { intros Hin. destruct (H3 _ _ Ht Hne) as (_ & _ & _ & _ & Hk & Htm & _). specialize (Hk Hs).
    destruct (Htm Hin) as (x & _ & [[_ ?]|(_ & E & _)]); [congruence|]. by rewrite Hk in E. }
  constructor; cbn; auto.
  - by rewrite lookup_delete_ne.
  - destruct H2 as [? H2]. split; [by apply NoDup_filter|]. intros x. rewrite elem_of_filter_ne, H2.
    destruct (decide (x = t)) as [->|]; [|rewrite lookup_delete_ne by done; tauto].
    rewrite lookup_delete_eq. split; [by intros [? _]|by intros [? ?]].
  - intros x thx Hx. apply lookup_delete_Some in Hx as [_ Hx]. eauto.
  - intros tm Hin. destruct (H5 tm Hin) as (x & ? & Hok). exists x. split; [done|]. unfold timer_okC in *.
    destruct (callback x) as [[]|]; try done; destruct Hok as (t0 & -> & ? & ? & ?); exists t0;
      (rewrite lookup_delete_ne; [done|by intros ->]).
  - destruct H7 as (thr & Hrt & Hst). exists thr. split; [|done]. rewrite lookup_delete_ne; [done|].
    intros <-. destruct Hst; congruence.
  - destruct H8 as [Hnd Hdead]. rewrite Hd in Hnd, Hdead. cbn in Hnd. apply NoDup_cons in Hnd as [Hnin Hnd].
    split; [done|]. intros d' Hd'. destruct (Hdead d') as (th' & ? & ?); [set_solver|].
    exists th'. split; [|done]. rewrite lookup_delete_ne; [done|]. intros E. apply Hnin.
    apply list_elem_of_fmap. eauto.
Qed.

Lemma dead_thread_unlinked F s t th :
  inv_q F s → threads s !! t = Some th → state th = THREAD_DEATH →
  queue_node th = false ∧ blocking_wait_queue th = None.
Proof.
  intros Hq Ht Hs. split.
  - apply not_true_is_false. intros E. apply (iq_node _ _ Hq _ _ Ht) in E as [_ [E|E]]; congruence.
  - apply (iq_bwq _ _ Hq _ _ Ht). congruence.
Qed.

Lemma thread_cleanup_eq s t th :
  threads s !! t = Some th → state th = THREAD_DEATH → queue_node th = false → blocking_wait_queue th = None →
  ∃ i, thread_cleanup_dpc t s =
    Ok (set_ints_enabled i (set_threads (delete t (threads s))
          (set_thread_list (filter (λ x, x ≠ t) (thread_list s)) s))).
Proof.
  intros Ht Hs Hn Hb. unfold thread_cleanup_dpc, get_thread, is_state. rewrite Ht. cbn [deref mbind res_bind].
  rewrite Hs, Hn, Hb. cbn -[enter_critical_section exit_critical_section].
  destruct (enter_eq s) as [i ->]. set (s1 := set_thread_list _ _). destruct (exit_eq s1) as [j ->].
  exists j. subst s1. f_equal. destruct s; cbn. by rewrite Z.add_simpl_r.
Qed.

Lemma run_ints n k s i : Run n k s → Run n k (set_ints_enabled i s).
Proof.
  intros (HM & ?). split; [|done].
  pose proof (mid_count _ _ {[current_thread s]} s (critical_section_count s) i HM) as HM'. by destruct s.
Qed.

Lemma dpc_thread_round_spec n k s :
  Run n k s → 0 ≤ n → Returns (current_thread s) k (dpc_thread_round dpc_event s).
Proof.
  intros HR Hn. unfold dpc_thread_round. pose proof (run_enter _ _ _ _ _ HR) as HR1.
  rewrite <- (enter_current s). set (s1 := enter_critical_section s) in *. clearbody s1. clear HR s.
  pose proof HR1 as ([Hq HRest] & (thc & Hc & Hrc & _) & _).
  destruct (dpc_list s1) as [|d ds] eqn:Ed.
  - destruct (rc_dpc_event _ _ _ _ _ _ _ _ _ _ _ HRest) as (x & He & Hx).
    destruct (event_unsignal_spec (n + 1) k s1 dpc_event x) as (v & s2 & -> & HR2 & Ec); [done|lia|done..|].
    cbn [mbind res_bind]. apply (run_returns _ _ n); [done|by apply run_exit|by rewrite exit_current].
  - destruct (rc_dpc _ _ _ _ _ _ _ _ _ _ _ HRest) as [_ Hdead].
    destruct (Hdead d) as (th & Ht & Hs); [rewrite Ed; set_solver|].
    destruct (dead_thread_unlinked _ _ _ _ Hq Ht Hs) as [Hn1 Hb1].
    assert (dpc_arg d ≠ current_thread s1) as Hne by (intros E; rewrite E in Ht; congruence).
    destruct (exit_eq (set_dpc_list ds s1)) as [i ->]. set (s2 := set_ints_enabled _ _).
    destruct (thread_cleanup_eq s2 (dpc_arg d) th Ht Hs Hn1 Hb1) as [j Hj].
    destruct d as [[] t]. cbn [dpc_cb dpc_arg] in *. rewrite Hj. cbn [mbind res_bind].
    apply (run_returns _ _ n); [done| |done].
    apply run_ints. pose proof HR1 as (_ & _ & _ & He & _).
    eapply at_change; [exact HR1| |done| |done|cbn; lia|done].
    + split; [|by eapply (rest_free s1)].
      apply (inv_q_same _ (set_threads (delete t (threads s1)) s1)); [done..|]. by eapply inv_q_free.
    + cbn. by rewrite lookup_delete_ne.
Qed.

(** * Creating threads and objects *)

Lemma rest_new_thread s t th :
  Rest s → threads s !! t = None → state th = THREAD_SUSPENDED →
  saved_critical_section_count th = 1 → kstack th = [FInitialThread] →
  Rest (set_thread_list (t :: thread_list s) (set_threads (<[t := th]> (threads s)) s)).
Proof.
  intros [H1 H2 H3 H4 H5 H6 H7 H8 H9 H10 H11] Hn Hs Hsv Hk.
  assert (∀ x y, threads s !! x = Some y → <[t := th]> (threads s) !! x = Some y) as Hold.
  { intros x y Hx. rewrite lookup_insert_ne; [done|]. intros ->. congruence. }
  assert (inl t ∉ timer_queue s) as Hnt.
  { intros Hin. destruct (H5 _ Hin) as (x & _ & Hok). unfold timer_okC in Hok.
    destruct (callback x) as [[]|]; [| |by destruct Hok|done];
      destruct Hok as (? & [= <-] & _ & [? ?] & _); congruence. }
  constructor; cbn; auto.
  - destruct H1. eauto.
  - destruct H2 as [Hnd H2]. split.
    + constructor; [|done]. rewrite H2, Hn. by intros [? ?].
    + intros x. rewrite elem_of_cons, H2, lookup_insert_is_Some.
      destruct (decide (t = x)); split; intuition congruence.
  - intros x thx. rewrite lookup_insert. case_decide as E; [|eauto]. subst x. intros [= <-] _.
    rewrite Hsv. split; [done|]. unfold stk_okC. rewrite Hk, Hs.
    split_and!; try done. by repeat constructor.
  - intros tm Hin. destruct (H5 tm Hin) as (x & ? & Hok). exists x. split; [done|]. unfold timer_okC in *.
    destruct (callback x) as [[]|]; [| |done..];
      destruct Hok as (t0 & -> & ? & [? ?] & ?); exists t0; eauto 10.
  - destruct H7 as (thr & ? & ?). eauto.
  - destruct H8 as [? H8]. split; [done|]. intros d Hd. destruct (H8 d Hd) as (thd & ? & ?). eauto.
Qed.

Lemma thread_create_spec n k s alloc so name entry arg prio ssize :
  Run n k s → 0 ≤ n → 0 ≤ prio < 32 → (∀ t, alloc = Some t → threads s !! t = None) →
  Run n k (thread_create alloc so name entry arg prio ssize s).2 ∧
  current_thread (thread_create alloc so name entry arg prio ssize s).2 = current_thread s.
Proof.
  intros HR Hn Hp Hfresh. unfold thread_create. destruct alloc as [t|]; [|done].
  destruct so; [|done]. specialize (Hfresh t eq_refl). cbn zeta.
  set (th := mkThread _ _ _ _ _ _ _ _ _ _ _ _ _ _). set (s1 := set_threads _ s).
  destruct (enter_eq s1) as [i ->]. set (s2 := set_thread_list _ _). destruct (exit_eq s2) as [j ->].
  cbn [snd]. split; [|done]. apply run_ints. pose proof HR as ([Hq HRest] & _ & _ & He & _).
  eapply at_change; [exact HR| |done| |done|cbn; lia|done].
  - split; [|by apply (rest_new_thread s t th)].
    apply (inv_q_same _ s1); [done..|]. by apply inv_q_new_thread.
  - cbn. rewrite lookup_insert_ne; [done|]. intros ->. destruct HR as (_ & (thc & Hc & _) & _). congruence.
Qed.

(** A fresh identifier: no object lives at that address. *)
Definition fresh_obj (o : oid) (s : kstate) : Prop :=
  mutexes s !! o = None ∧ events s !! o = None ∧ wait_queues s !! o = None.

(** Adding an object with its empty wait queue. *)
Lemma at_new_object n k s o mx ev :
  Run n k s → fresh_obj o s →
  (mx = mutexes s ∨ ∃ x, mx = <[o := x]> (mutexes s)) → (ev = events s ∨ ∃ x, ev = <[o := x]> (events s)) →
  mx = mutexes s ∨ ev = events s →
  Run n k (wait_queue_init o (set_mutexes mx (set_events ev s))).
Proof.
  intros HR (Hm & He & Hw) Hmx Hev Hone. pose proof HR as ([Hq [H1 H2 H3 H4 H5 H6 H7 H8 H9 H10 H11]] & _).
  assert (∀ g, frame_ok s g → frame_ok (wait_queue_init o (set_mutexes mx (set_events ev s))) g) as Hmono.
  { intros []; cbn; try done.
    - intros ((q & Hq1 & ? & ?) & Hm1 & He1). assert (w ≠ o) by congruence. split_and!.
      + exists q. by rewrite lookup_insert_ne.
      + destruct Hmx as [-> |[x ->]]; [done|]. by rewrite lookup_insert_ne.
      + destruct Hev as [-> |[x ->]]; [done|]. by rewrite lookup_insert_ne.
    - destruct Hmx as [-> |[x ->]]; [done|]. rewrite lookup_insert_is_Some'. auto.
    - destruct Hmx as [-> |[x ->]]; [done|]. rewrite lookup_insert_is_Some'. auto.
    - destruct Hev as [-> |[x ->]]; [done|]. rewrite lookup_insert_is_Some'. auto. }
  eapply at_keep; [exact HR| |done|done|exact Hmono|done|done]. split.
  { apply inv_q_new_wait; [|done]. by apply (inv_q_same _ s). }
  constructor; cbn; auto.
  - intros t th Ht Hne. destruct (H3 _ _ Ht Hne) as (? & Hf & ?). split; [done|].
    split; [|done]. eapply Forall_impl; [exact Hf|]. apply Hmono.
  - intros m x Hx. destruct (decide (m = o)) as [-> |Hne].
    + rewrite lookup_insert_eq. split; [|by eexists]. destruct Hone as [-> | ->]; [congruence|done].
    + rewrite lookup_insert_ne by done. assert (mutexes s !! m = Some x) as Hx0.
      { destruct Hmx as [-> |[y ->]]; [done|]. by rewrite lookup_insert_ne in Hx. }
      destruct (H9 _ _ Hx0) as (? & ?). split; [|done].
      destruct Hev as [-> |[y ->]]; [done|]. by rewrite lookup_insert_ne.
  - intros e x Hx. destruct (decide (e = o)) as [-> |Hne].
    + rewrite lookup_insert_eq. split; [|by eexists]. destruct Hone as [-> | ->]; [done|congruence].
    + rewrite lookup_insert_ne by done. assert (events s !! e = Some x) as Hx0.
      { destruct Hev as [-> |[y ->]]; [done|]. by rewrite lookup_insert_ne in Hx. }
      destruct (H10 _ _ Hx0) as (? & ?). split; [|done].
      destruct Hmx as [-> |[y ->]]; [done|]. by rewrite lookup_insert_ne.
  - destruct H11 as (x & Hx & ?). exists x. split; [|done].
    destruct Hev as [-> |[y ->]]; [done|]. rewrite lookup_insert_ne; [done|]. congruence.
Qed.

Lemma mutex_init_spec n k s m : Run n k s → fresh_obj m s → Run n k (mutex_init m s).
Proof.
  intros HR Hf. pose proof (at_new_object n k s m (<[m := mkMutex MUTEX_MAGIC 0 None]> (mutexes s)) (events s)
    HR Hf ltac:(eauto) ltac:(eauto) ltac:(eauto)) as H. by destruct s.
Qed.

Lemma event_init_spec n k s e i f : Run n k s → fresh_obj e s → Run n k (event_init e i f s).
Proof.
  intros HR Hf. pose proof (at_new_object n k s e (mutexes s) (<[e := mkEvent EVENT_MAGIC i f]> (events s))
    HR Hf ltac:(eauto) ltac:(eauto) ltac:(eauto)) as H. by destruct s.
Qed.

(** * Priorities *)

Lemma thread_set_priority_spec n k s p : Run n k s → Run n k (thread_set_priority p s).
Proof.
  intros ([Hq HR] & (th & Hc & Hr & Hk) & Hf & He & Ht & Hin). unfold thread_set_priority.
  set (p' := if _ <? _ then _ else _). assert (0 ≤ p' < 32) as Hp.
  { subst p'. unfold HIGHEST_PRIORITY, NUM_PRIORITIES, LOWEST_PRIORITY. repeat case_match; lia. }
  split_and!; try done.
  - split; [|by apply rest_upd_view]. apply inv_q_upd_float; [set_solver|done..|].
    intros th' Ht'. cbn. apply (iq_bwq _ _ Hq _ _ Ht').
  - exists (set_priority p' th). cbn. by rewrite lookup_alter_eq, Hc.
Qed.

Lemma thread_become_idle_spec n k s : Run n k s → Run n k (thread_become_idle s).
Proof.
  intros HR. unfold thread_become_idle. cbn zeta.
  assert (Run n k (thread_set_name "idle" s)) as HR1.
  { destruct HR as ([Hq HR] & (th & Hc & Hr & Hk) & Hf & He & Ht & Hin). split_and!; try done.
    - split; [by apply inv_q_upd_view|by apply rest_upd_view].
    - exists (set_th_name (String.substring 0 THREAD_NAME_MAX "idle") th). cbn. by rewrite lookup_alter_eq, Hc. }
  apply (thread_set_priority_spec n k _ IDLE_PRIORITY) in HR1.
  set (s1 := thread_set_priority _ _) in *. clearbody s1.
  destruct HR1 as ([Hq HR1] & ?). split; [|done]. split; [by apply (inv_q_same _ s1)|exact HR1].
Qed.

(** * Driver timers *)

Lemma timer_initialize_spec n k s tm :
  Run n k s → inr tm ∉ timer_queue s → Run n k (timer_initialize (inr tm) s).
Proof.
  intros HR Hin. pose proof HR as ([Hq HRest] & _). eapply at_keep; [exact HR| |done..].
  split; [by apply (inv_q_same _ s)|]. by apply rest_put_timer.
Qed.

Lemma timer_set_driver_spec n k s tm delay period r :
  Run n k s → inr tm ∉ timer_queue s → is_Some (timers s !! inr tm) → 0 ≤ period < 2 ^ 31 →
  ∃ s', timer_set (inr tm) delay period (CbDriver r) None s = Ok s' ∧ Run n k s' ∧
        current_thread s' = current_thread s.
Proof.
  intros HR Hin Htm Hp. pose proof HR as ([Hq HRest] & _).
  destruct (timer_set_eq (inr tm) delay period (CbDriver r) None s) as (i & l & Hset & Hl); [|done..|].
  { intros x Hx. destruct (rc_timer _ _ _ _ _ _ _ _ _ _ _ HRest x Hx) as (y & -> & _). eauto. }
  eexists. split; [done|]. split; [|done]. set (x := mkTimer _ _ _ _).
  eapply at_keep; [exact HR| |done|done|done|done|].
  - split; [by apply (inv_q_same _ s)|]. apply rest_queue_timer; try done. by exists tm.
  - cbn. rewrite Hl. set_solver.
Qed.

Lemma timer_cancel_driver_spec n k s tm :
  Run n k s → is_Some (timers s !! inr tm) →
  ∃ s', timer_cancel (inr tm) s = Ok s' ∧ Run n k s' ∧ current_thread s' = current_thread s.
Proof.
  intros HR [x Hx]. pose proof HR as ([Hq HRest] & _).
  destruct (timer_cancel_eq (inr tm) x s Hx) as [i ->]. eexists. split; [done|]. split; [|done].
  eapply at_keep; [exact HR| |done|done|done|done|].
  - split; [by apply (inv_q_same _ s)|]. by eapply rest_cancel.
  - cbn. by intros [_ ?]%elem_of_filter_ne.
Qed.

(** * The timer interrupt *)

(** The timer at the head of the queue leaves it. *)
Lemma rest_pop s tm rest :
  Rest s → timer_queue s = tm :: rest →
  (∀ t th, tm = inl t → threads s !! t = Some th → state th ≠ THREAD_SLEEPING) →
  Rest (set_timer_queue rest s).
Proof.
  intros [H1 H2 H3 H4 H5 H6 H7 H8 H9 H10 H11] Hq Hns. rewrite Hq in *. constructor; cbn; auto.
  - intros t th Ht Hne. destruct (H3 _ _ Ht Hne) as (? & ? & ? & ? & ? & Htm & Hsl).
    split; [done|]. split_and!; try done.
    + intros Hin. apply Htm. set_solver.
    + intros Hs. specialize (Hsl Hs). apply elem_of_cons in Hsl as [<-|?]; [|done].
      by destruct (Hns t th eq_refl Ht).
  - by inversion H4.
  - intros x Hx. apply H5. set_solver.
Qed.

Lemma rest_wake_sleeper s t th rest :
  Rest s → timer_queue s = inl t :: rest → threads s !! t = Some th → state th = THREAD_SLEEPING →
  t ≠ current_thread s →
  Rest (upd_thread t (set_state THREAD_READY) (set_timer_queue rest s)).
Proof.
  intros [H1 H2 H3 H4 H5 H6 H7 H8 H9 H10 H11] Hq Ht Hs Hne. rewrite Hq in *. constructor; cbn; auto.
  - by rewrite is_Some_alter.
  - destruct H2 as [? H2]. split; [done|]. intros x. by rewrite is_Some_alter.
  - intros x thx. rewrite lookup_alter. inversion_clear H4 as [|? ? Hnin _].
    destruct (decide (t = x)) as [<-|Hx].
    + rewrite Ht. intros [= <-] _. destruct (H3 _ _ Ht Hne) as (? & ? & ? & ? & ? & Htm & Hsl).
      split; [done|]. by split_and!.
    + intros Hthx Hnex. destruct (H3 _ _ Hthx Hnex) as (? & ? & ? & ? & ? & Htm & Hsl).
      split; [done|]. split_and!; try done.
      * intros Hin. apply Htm. set_solver.
      * intros Hsx. specialize (Hsl Hsx). set_solver.
  - by inversion H4.
  - intros tm Hin. destruct (H5 tm) as (x & ? & ?); [set_solver|]. eauto using timer_okC_alter.
  - destruct H7 as (thr & Hrt & Hst). rewrite lookup_alter. case_decide; [|eauto]. subst.
    destruct Hst; congruence.
  - destruct H8 as [? H8]. split; [done|]. intros d Hd. destruct (H8 d Hd) as (thd & Hdt & Hst).
    rewrite lookup_alter. case_decide; [|eauto]. subst. congruence.
Qed.

Lemma run_pop n k s tm rest :
  Run n k s → timer_queue s = tm :: rest →
  (∀ t th, tm = inl t → threads s !! t = Some th → state th ≠ THREAD_SLEEPING) →
  Run n k (set_timer_queue rest s).
Proof.
  intros HR Hq Hns. pose proof HR as ([Hiq HRest] & _). eapply at_keep; [exact HR| |done|done|done|done|].
  - split; [by apply (inv_q_same _ s)|]. by eapply rest_pop.
  - cbn. rewrite Hq. set_solver.
Qed.

(** What a callback of a popped timer may do. *)
Definition callback_ran (n : Z) (k : list frame) (rest : list timer_id) (s : kstate)
    (r : res (handler_return * kstate)) : Prop :=
  ∃ h s', r = Ok (h, s') ∧ Run n k s' ∧ current_thread s' = current_thread s ∧
          timers s' = timers s ∧ timer_queue s' = rest.

Lemma sleep_callback_spec n k s t th rest :
  Run n k s → 1 ≤ exits k + n → timer_queue s = inl t :: rest →
  threads s !! t = Some th → state th = THREAD_SLEEPING →
  callback_ran n k rest s (thread_sleep_handler (Some t) (set_timer_queue rest s)).
Proof.
  intros HR Hn Hq Ht Hs. pose proof HR as ([Hiq HRest] & (thc & Hc & Hrc & _) & _).
  assert (t ≠ current_thread s) as Hne by (intros ->; congruence).
  assert (At [] ({[t]} ∪ {[current_thread s]}) THREAD_RUNNING n k
            (upd_thread t (set_state THREAD_READY) (set_timer_queue rest s))) as HA.
  { eapply at_keep; [exact HR| |done| |done|done|].
    - split; [|by eapply rest_wake_sleeper].
      apply inv_q_upd_float; [set_solver| |done| |]; cbn.
      + apply inv_q_unpark; [by apply (inv_q_same _ s)|]. cbn. intros th' Ht'. simplify_eq. by rewrite Hs.
      + intros th' Ht'. by apply (iq_prio _ _ Hiq) in Ht'.
      + intros th' Ht' _. apply (iq_bwq _ _ Hiq _ _ Ht'). congruence.
    - cbn. by rewrite lookup_alter_ne.
    - cbn. rewrite Hq. set_solver. }
  unfold thread_sleep_handler, get_thread, is_state. cbn [deref mbind res_bind].
  change (threads (set_timer_queue rest s)) with (threads s). rewrite Ht. cbn [deref mbind res_bind].
  rewrite bool_decide_eq_true_2 by done. cbn [ASSERT mbind res_bind].
  destruct (at_insert (λ t q, t :: q) _ _ _ _ _ t (set_state THREAD_READY th) HA) as (s' & Hi & HA2 & Ec & _ & Eo);
    [set_solver|done|cbn; by rewrite lookup_alter_eq, Ht|done|done|].
  unfold insert_in_run_queue_head. rewrite Hi. cbn [mbind res_bind]. eexists _, s'. split; [done|].
  split; [|split_and!; [done|apply Eo..]]. unfold KInv.Run. rewrite Ec.
  replace ({[current_thread s]} : gset tid) with ((({[t]} ∪ {[current_thread s]}) ∖ {[t]}) : gset tid) by set_solver.
  done.
Qed.

Lemma timeout_callback_spec n k s t th rest :
  Run n k s → 0 ≤ n → timer_queue s = inl t :: rest →
  threads s !! t = Some th → state th ≠ THREAD_SLEEPING →
  callback_ran n k rest s (wait_queue_timeout_handler (Some t) (set_timer_queue rest s)).
Proof.
  intros HR Hn Hq Ht Hs. assert (Run n k (set_timer_queue rest s)) as HR1.
  { eapply run_pop; [done..|]. intros t' th' [= <-] Ht'. congruence. }
  destruct (thread_unblock_spec n k _ t th ERR_TIMED_OUT HR1 Hn Ht) as (v & s' & Hu & HR2 & Ec & _ & _ & Etm & Etq).
  unfold wait_queue_timeout_handler. cbn [deref mbind res_bind]. rewrite Hu. cbn [mbind res_bind].
  eexists _, s'. split; [done|]. by split_and!.
Qed.

(** Any queued timer can fire. *)
Lemma timer_callback_spec n k s tm rest x cb :
  Run n k s → 0 ≤ n → 1 ≤ exits k + n → timer_queue s = tm :: rest → timers s !! tm = Some x →
  callback x = Some cb →
  callback_ran n k rest s (run_timer_callback cb (tm_arg x) (set_timer_queue rest s)).
Proof.
  intros HR Hn H1 Hq Hx Hcb. pose proof HR as ([_ HRest] & _ & _ & _ & _ & Hown).
  destruct (rc_timer _ _ _ _ _ _ _ _ _ _ _ HRest tm) as (y & Hy & Hok); [rewrite Hq; set_solver|].
  assert (y = x) as -> by congruence. unfold timer_okC in Hok. rewrite Hcb in Hok.
  assert (∀ t th, tm = inl t → threads s !! t = Some th → stack_timer_ok (timers s) t th) as Hst.
  { intros t th -> Ht. assert (t ≠ current_thread s) as Hne by (intros ->; rewrite Hq in Hown; set_solver).
    destruct (rc_stk _ _ _ _ _ _ _ _ _ _ _ HRest _ _ Ht Hne) as (_ & _ & _ & _ & _ & H & _).
    apply H. rewrite Hq. set_solver. }
  destruct cb; cbn [run_timer_callback].
  - destruct Hok as (t & -> & -> & [th Ht] & _). destruct (Hst t th eq_refl Ht) as (y & Hy' & Hd).
    assert (y = x) as -> by congruence.
    destruct Hd as [[_ Hs]|[E _]]; [|congruence]. by eapply sleep_callback_spec.
  - destruct Hok as (t & -> & -> & [th Ht] & _). destruct (Hst t th eq_refl Ht) as (y & Hy' & Hd).
    assert (y = x) as -> by congruence.
    destruct Hd as [[E _]|(_ & _ & Hs)]; [congruence|]. by eapply timeout_callback_spec.
  - destruct Hok as [m ->]. eexists _, _. split; [done|]. split_and!; try done. by eapply run_pop.
Qed.

(** A timer that the tick at [now] finds due. *)
Definition due (now : Z) (tms : gmap timer_id timer) (tm : timer_id) : Prop :=
  match tms !! tm with Some x => TIME_LT now (scheduled_time x) = false | None => False end.

#[local] Instance due_dec now tms tm : Decision (due now tms tm).
Proof. unfold due. destruct (tms !! tm); apply _. Defined.

Definition dues (now : Z) (s : kstate) : nat := length (filter (due now (timers s)) (timer_queue s)).

Lemma time_lt_later now p : 0 < p < 2 ^ 31 → TIME_LT now (u32 (now + p)) = true.
Proof. intros Hp. unfold TIME_LT, s32, u32. apply Z.ltb_lt. Z.div_mod_to_equations. lia. Qed.

Lemma filter_due_insert now tms tm x (l : list timer_id) :
  tm ∉ l → filter (due now (<[tm := x]> tms)) l = filter (due now tms) l.
Proof.
  induction l as [|y l IH]; intros Hin; [done|]. rewrite !filter_cons.
  assert (due now (<[tm:=x]> tms) y ↔ due now tms y) as E.
  { unfold due. rewrite lookup_insert_ne; [done|set_solver]. }
  rewrite IH by set_solver. repeat case_decide; tauto.
Qed.

(** One round of the loop: a due timer goes, and a periodic one comes back later. *)
Lemma timer_tick_one_spec n k s now tm rest x :
  Run n k s → 0 ≤ n → 1 ≤ exits k + n → timer_queue s = tm :: rest → timers s !! tm = Some x →
  TIME_LT now (scheduled_time x) = false →
  ∃ h s', timer_tick_one now tm rest x s = Ok (h, s') ∧ Run n k s' ∧
          current_thread s' = current_thread s ∧ dues now s = S (dues now s').
Proof.
  intros HR Hn H1 Hq Hx Hdue. pose proof HR as ([_ HRest] & _).
  destruct (rc_timer _ _ _ _ _ _ _ _ _ _ _ HRest tm) as (y & Hy & Hok); [rewrite Hq; set_solver|].
  assert (y = x) as -> by congruence.
  assert (∃ cb, callback x = Some cb) as [cb Hcb] by (unfold timer_okC in Hok; destruct (callback x); [eauto|done]).
  destruct (timer_callback_spec n k s tm rest x cb HR Hn H1 Hq Hx Hcb) as (h & s1 & Hcbr & HR1 & Ec & Etm & Etq).
  pose proof (rc_tnodup _ _ _ _ _ _ _ _ _ _ _ HRest) as Hnd. rewrite Hq in Hnd.
  apply NoDup_cons in Hnd as [Hnin _].
  assert (dues now s = S (length (filter (due now (timers s)) rest))) as Hd.
  { unfold dues. rewrite Hq, filter_cons_True; [done|]. unfold due. by rewrite Hx. }
  unfold timer_tick_one. rewrite Hcb. cbn [deref mbind res_bind]. rewrite Hcbr. cbn [mbind res_bind].
  unfold get_timer, timer_in_list. rewrite Etm, Hx. cbn [deref mbind res_bind].
  rewrite Etq, bool_decide_eq_false_2 by done.
  destruct (Z.ltb_spec 0 (periodic_time x)) as [Hper|]; cbn [andb negb].
  2:{ eexists _, s1. split; [done|]. split_and!; [done..|]. rewrite Hd. unfold dues. by rewrite Etq, Etm. }
  assert (own_timer s1 tm) as Hown.
  { unfold timer_okC in Hok. rewrite Hcb in Hok. destruct cb as [| |]; [..|destruct Hok as [m ->]; done];
      destruct Hok as (? & _ & _ & _ & E); lia. }
  pose proof HR1 as ([Hiq1 HRest1] & _).
  set (x' := set_scheduled_time _ x). unfold insert_timer_in_queue, get_timer. cbn. rewrite lookup_insert_eq. cbn.
  destruct (insert_sorted_total (<[tm := x']> (timers s1)) tm (u32 (now + periodic_time x)) rest) as (l & Hl & Hperm).
  { intros z Hz. rewrite lookup_insert. case_decide; [eauto|].
    destruct (rc_timer _ _ _ _ _ _ _ _ _ _ _ HRest1 z) as (w & -> & _); [by rewrite Etq|eauto]. }
  rewrite Etq, Hl. cbn. eexists _, _. split; [done|]. split_and!; [|done|].
  - pose proof (rc_period _ _ _ _ _ _ _ _ _ _ _ HRest tm x Hx) as Hp.
    pose proof (rest_queue_timer s1 (ints_enabled s1) tm x' l HRest1 Hown) as HR2.
    eapply at_keep; [exact HR1| |done|done|done|done|].
    + split; [by apply (inv_q_same _ s1)|]. apply HR2; [by rewrite Etq|done| |by rewrite Etq].
      unfold timer_okC in *. cbn. rewrite Hcb in *. destruct cb; [..|done]; destruct Hok as (? & _ & _ & _ & E); lia.
    + cbn. rewrite Hperm. intros [E|?]%elem_of_cons; [|by rewrite Etq].
      exfalso. unfold timer_okC in Hok. rewrite <- E, Hcb in Hok.
      destruct cb; [..|by destruct Hok]; destruct Hok as (? & _ & _ & _ & ?); lia.
  - rewrite Hd. unfold dues. cbn [timers timer_queue set_timer_queue put_timer set_timers]. f_equal.
    rewrite Hperm, filter_cons_False, filter_due_insert, Etm; [done|done|].
    unfold due. rewrite lookup_insert_eq. cbn. rewrite time_lt_later; [done|].
    pose proof (rc_period _ _ _ _ _ _ _ _ _ _ _ HRest tm x Hx). lia.
Qed.

(** The loop of [timer_tick] ends: it runs once per due timer. *)
Lemma timer_tick_loop_spec n k now fuel s :
  Run n k s → 0 ≤ n → 1 ≤ exits k + n → (dues now s ≤ fuel)%nat →
  ∃ s', timer_tick_loop fuel now s = Ok s' ∧ Run n k s' ∧ current_thread s' = current_thread s.
Proof.
  revert s. induction fuel as [|fuel IH]; intros s HR Hn H1 Hf; cbn [timer_tick_loop].
  all: destruct (timer_queue s) as [|tm rest] eqn:Eq; [by eauto|].
  all: pose proof HR as ([_ HRest] & _).
  all: destruct (rc_timer _ _ _ _ _ _ _ _ _ _ _ HRest tm) as (x & Hx & _); [rewrite Eq; set_solver|].
  all: unfold get_timer; rewrite Hx; cbn [deref mbind res_bind].
  all: destruct (TIME_LT now (scheduled_time x)) eqn:Ed; [by eauto|].
  - exfalso. unfold dues in Hf. rewrite Eq, filter_cons_True in Hf; [cbn in Hf; lia|]. unfold due. by rewrite Hx.
  - destruct (timer_tick_one_spec n k s now tm rest x HR Hn H1 Eq Hx Ed) as (h & s1 & -> & HR1 & Ec & Hd).
    cbn [mbind res_bind]. destruct (IH s1 HR1 Hn H1 ltac:(lia)) as (s' & -> & HR' & Ec').
    exists s'. split_and!; [done..|congruence].
Qed.

Lemma timer_tick_spec n k now s :
  Run n k s → 0 ≤ n → 1 ≤ exits k + n →
  ∃ s', timer_tick now s = Ok (INT_RESCHEDULE, s') ∧ Run n k s' ∧ current_thread s' = current_thread s.
Proof.
  intros HR Hn H1. unfold timer_tick.
  destruct (timer_tick_loop_spec n k now (length (timer_queue s)) s HR Hn H1) as (s1 & -> & HR1 & Ec).
  { unfold dues. apply length_filter. }
  cbn [mbind res_bind]. unfold thread_timer_tick. case_bool_decide; cbn [mbind res_bind]; [by eauto|].
  destruct HR1 as ([Hq HRest] & (th & Hc & Hr & Hk) & Hf & He & Ht & Hin).
  unfold get_current, get_thread. rewrite Hc. cbn. eexists. split; [done|]. split; [|done].
  split_and!; try done.
  - split; [by apply inv_q_upd_view|by apply rest_upd_view].
  - eexists. cbn. rewrite lookup_alter_eq, Hc. split; [done|]. done.
Qed.

Lemma timer_irq_spec now s :
  Run 0 [] s → Returns (current_thread s) [] (timer_irq now s).
Proof.
  intros HR. pose proof HR as (HM & (th & Hc & Hr & Hk) & Hf & He & Ht & Hin).
  unfold timer_irq, get_current, get_thread. rewrite Hc. cbn [deref mbind res_bind].
  set (s1 := set_critical_section_count _ _). assert (Run 1 [] s1) as HR1.
  { eapply at_change; [exact HR| |done|done|done|cbn in *; lia|done].
    destruct HM as [Hq HRest]. split; [by apply (inv_q_same _ s)|exact HRest]. }
  change (current_thread s) with (current_thread s1). clearbody s1.
  apply (run_invoke _ _ 1); [done|by repeat constructor|done|]. intros HR2.
  destruct (timer_tick_spec (1 - exits [FIrqReturn (r0 th)]) _ now _ HR2) as (s2 & -> & HR3 & Ec); [cbn; lia..|].
  cbn [mbind res_bind]. change (current_thread s1) with (current_thread (push_frames [FIrqReturn (r0 th)] s1)).
  rewrite <- Ec. eapply thread_preempt_spec; [|exact HR3]. cbn; lia.
Qed.

End Ops.
