(* ===== verification/KSafe.v ===== *)
(** The kernel is safe: from the state left by the boot code, any sequence of
    kernel calls made within their contracts, interleaved with timer interrupts at
    any point where the processor accepts them, runs without a failed assertion,
    without following a dangling pointer and without an endless loop, and keeps
    the run queues, wait queues, timers and stacks consistent. *)
From Stdlib Require Import ZArith.
From stdpp Require Import base numbers list gmap strings relations.
From S2P Require Import Prelude KState KTimer KThread KSync KQueues KInv KOps.

Section Safe.
Context (root : tid) (dpc_event : oid).

(** * The contracts of the kernel calls *)

Definition is_mutex (m : oid) (s : kstate) (P : mutex → bool) : bool :=
  match mutexes s !! m with Some x => (m_magic x =? MUTEX_MAGIC) && P x | None => false end.
Definition is_event (e : oid) (s : kstate) : bool :=
  match events s !! e with Some x => e_magic x =? EVENT_MAGIC | None => false end.
Definition is_fresh (o : oid) (s : kstate) : bool :=
  bool_decide (mutexes s !! o = None) && bool_decide (events s !! o = None) &&
  bool_decide (wait_queues s !! o = None).
Definition may_block (s : kstate) : bool := bool_decide (current_thread s ≠ root).
Definition idle_timer (n : nat) (s : kstate) : bool :=
  bool_decide (is_Some (timers s !! inr n)) && bool_decide (inr n ∉ timer_queue s).

(** What a caller must respect: objects are initialised once and not used before or
    after their life, a mutex is released by its holder and not taken twice, the
    idle thread does not block, the allocator returns fresh memory. *)
Definition call_ok (c : call) (s : kstate) : bool :=
  match c with
  | CCreate alloc _ _ _ _ prio _ =>
      (0 <=? prio) && (prio <? NUM_PRIORITIES) &&
      match alloc with Some t => bool_decide (threads s !! t = None) | None => true end
  | CResume t =>
      match threads s !! t with
      | Some th => is_state THREAD_SUSPENDED th || is_state THREAD_READY th || is_state THREAD_RUNNING th
      | None => false
      end
  | CExit alloc_ok _ => alloc_ok && may_block s
  | CSleep _ => may_block s
  | CExitCritical => 0 <? critical_section_count s
  | CMutexInit m => is_fresh m s
  | CMutexAcquire m | CMutexAcquireTimeout m _ =>
      may_block s && is_mutex m s (λ x, bool_decide (m_holder x ≠ Some (current_thread s)))
  | CMutexRelease m => is_mutex m s (λ x, bool_decide (m_holder x = Some (current_thread s)))
  | CMutexDestroy m => is_mutex m s (λ _, true)
  | CEventInit e _ _ => is_fresh e s
  | CEventWait e _ => may_block s && is_event e s
  | CEventSignal e _ | CEventUnsignal e => is_event e s
  | CEventDestroy e => is_event e s && bool_decide (e ≠ dpc_event)
  | CUnblock t reschedule _ => negb reschedule && bool_decide (is_Some (threads s !! t))
  | CTimerInit n => bool_decide (inr n ∉ timer_queue s)
  | CTimerOneshot n _ _ => idle_timer n s
  | CTimerPeriodic n period _ => idle_timer n s && (0 <=? period) && (period <? 2 ^ 31)
  | CTimerCancel n => bool_decide (is_Some (timers s !! inr n))
  | CYield | CSetPriority _ | CBecomeIdle | CEnterCritical | CDpcRound => true
  end.

Definition event_ok (ev : kevent) (s : kstate) : bool :=
  match ev with EvCall c => call_ok c s | EvIrq _ => true end.

(** The contracts along a run; a step that did not succeed asks for nothing more. *)
Fixpoint trace_ok (evs : list kevent) (s : kstate) : bool :=
  match evs with
  | [] => true
  | ev :: evs =>
      event_ok ev s &&
      match exec_event dpc_event ev s with Ok s' => trace_ok evs s' | _ => true end
  end.

(** The state in which [kmain] starts to create threads: after [thread_init_early]
    and the [event_init] of [dpc_init]. *)
Definition kernel_boot : kstate := event_init dpc_event false 0 (thread_init_early root).

#[local] Notation Inv := (KInv.Inv root dpc_event).
#[local] Notation Run := (KInv.Run root dpc_event).
#[local] Notation Returns := (KInv.Returns root dpc_event).

Lemma is_mutex_spec m s P :
  is_mutex m s P = true → ∃ x, mutexes s !! m = Some x ∧ m_magic x = MUTEX_MAGIC ∧ P x = true.
Proof.
  unfold is_mutex. destruct (mutexes s !! m) as [x|]; [|done].
  intros [?%Z.eqb_eq ?]%andb_prop. eauto.
Qed.

Lemma is_event_spec e s :
  is_event e s = true → ∃ x, events s !! e = Some x ∧ e_magic x = EVENT_MAGIC.
Proof. unfold is_event. destruct (events s !! e) as [x|]; [|done]. intros ?%Z.eqb_eq. eauto. Qed.

Lemma is_fresh_spec o s : is_fresh o s = true → fresh_obj o s.
Proof.
  unfold is_fresh. intros [[?%bool_decide_eq_true ?%bool_decide_eq_true]%andb_prop
    ?%bool_decide_eq_true]%andb_prop. done.
Qed.

Lemma may_block_spec s : may_block s = true → current_thread s ≠ root.
Proof. apply bool_decide_eq_true. Qed.

Lemma idle_timer_spec n s :
  idle_timer n s = true → is_Some (timers s !! inr n) ∧ inr n ∉ timer_queue s.
Proof. unfold idle_timer. by intros [?%bool_decide_eq_true ?%bool_decide_eq_true]%andb_prop. Qed.

(** A call that never switches threads. *)
Lemma plain_returns s s' v :
  Run 0 [] s' → current_thread s' = current_thread s → Returns (current_thread s) [] (returns v s').
Proof. intros HR Ec. by apply (run_returns _ _ 0). Qed.

Lemma plain_bind s r v :
  (∃ s', r = Ok s' ∧ Run 0 [] s' ∧ current_thread s' = current_thread s) →
  Returns (current_thread s) [] (s' ← r; returns v s').
Proof. intros (s' & -> & ? & ?). by apply plain_returns. Qed.

(** Split a contract into the facts the lemmas ask for. *)
Ltac contract :=
  repeat match goal with
  | H : _ && _ = true |- _ => apply andb_prop in H as [? ?]
  | H : may_block _ = true |- _ => apply may_block_spec in H
  | H : is_fresh _ _ = true |- _ => apply is_fresh_spec in H
  | H : is_event _ _ = true |- _ => apply is_event_spec in H as (? & ? & ?)
  | H : is_mutex _ _ _ = true |- _ => apply is_mutex_spec in H as (? & ? & ? & ?)
  | H : idle_timer _ _ = true |- _ => apply idle_timer_spec in H as [? ?]
  | H : bool_decide _ = true |- _ => apply bool_decide_eq_true in H
  | H : (_ <=? _) = true |- _ => apply Z.leb_le in H
  | H : (_ <? _) = true |- _ => apply Z.ltb_lt in H
  end.

Lemma create_call_spec s alloc so name entry arg prio ssize :
  Run 0 [] s → call_ok (CCreate alloc so name entry arg prio ssize) s = true →
  Returns (current_thread s) [] (do_call dpc_event (CCreate alloc so name entry arg prio ssize) s).
Proof.
  intros HR Hok. cbn [call_ok do_call] in *. contract.
  destruct (thread_create_spec root dpc_event 0 [] s alloc so name entry arg prio ssize HR) as [HR' Ec];
    [lia|done| |].
  { intros t ->. by contract. }
  destruct (thread_create _ _ _ _ _ _ _ s). by apply plain_returns.
Qed.

Lemma resume_call_spec s t :
  Run 0 [] s → call_ok (CResume t) s = true →
  Returns (current_thread s) [] (do_call dpc_event (CResume t) s).
Proof.
  intros HR Hok. cbn [call_ok do_call] in *. destruct (threads s !! t) as [th|] eqn:Ht; [|done].
  eapply (thread_resume_spec _ _ 0); [lia|done..|]. unfold is_state in Hok.
  repeat case_bool_decide; auto; done.
Qed.

Lemma critical_call_spec s c :
  Run 0 [] s → c = CEnterCritical ∨ c = CExitCritical → call_ok c s = true →
  Returns (current_thread s) [] (do_call dpc_event c s).
Proof.
  intros HR Hc Hok. destruct Hc as [-> | ->]; cbn [call_ok do_call] in *; contract.
  - apply plain_returns; [|apply enter_current].
    apply run_enter in HR as (? & ? & ? & ? & ? & ?). split_and!; try done; lia.
  - apply plain_returns; [|apply exit_current]. apply run_exit.
    destruct HR as (? & ? & ? & ? & ? & ?). split_and!; try done. cbn. lia.
Qed.

Lemma event_signal_call_spec s e x b :
  Run 0 [] s → events s !! e = Some x → e_magic x = EVENT_MAGIC →
  Returns (current_thread s) [] (event_signal e b s).
Proof.
  intros HR He Hx. destruct b; [by eapply (event_signal_true_spec _ _ 0)|].
  destruct (event_signal_false_spec root dpc_event [] {[current_thread s]} THREAD_RUNNING 0 [] s e x HR)
    as (v & s' & -> & HA & Ec); [lia|done..|].
  apply (run_returns _ _ 0); [done| |done]. unfold KInv.Run. by rewrite Ec.
Qed.

(** Every call made within its contract succeeds. *)
Lemma do_call_spec c s :
  Inv s → call_ok c s = true → Returns (current_thread s) [] (do_call dpc_event c s).
Proof.
  intros HR%inv_run Hok.
  destruct c; try (by apply create_call_spec); try (by apply resume_call_spec);
    try (by apply critical_call_spec; auto); cbn [call_ok do_call] in *; contract.
  - by eapply (thread_yield_spec _ _ 0).
  - subst. by eapply (thread_exit_spec _ _ 0).
  - by eapply (thread_sleep_spec _ _ 0).
  - apply plain_returns; [by apply thread_set_priority_spec|done].
  - apply plain_returns; [by apply thread_become_idle_spec|done].
  - apply plain_returns; [by apply mutex_init_spec|done].
  - by eapply (mutex_acquire_spec _ _ 0).
  - by eapply (mutex_acquire_timeout_spec _ _ 0).
  - by eapply (mutex_release_spec _ _ 0).
  - by eapply (mutex_destroy_spec _ _ 0).
  - apply plain_returns; [by apply event_init_spec|done].
  - by eapply (event_wait_timeout_spec _ _ 0).
  - by eapply event_signal_call_spec.
  - destruct (event_unsignal_spec root dpc_event 0 [] s e x) as (v & s' & -> & ? & ?); [done..|].
    by apply plain_returns.
  - by eapply (event_destroy_spec _ _ 0).
  - destruct reschedule; [done|]. destruct H0 as [th Ht].
    destruct (thread_unblock_spec root dpc_event 0 [] s t th err HR) as (v & s' & -> & ? & ? & _); [lia|done|].
    by apply plain_returns.
  - by apply (dpc_thread_round_spec _ _ 0).
  - apply plain_returns; [by apply timer_initialize_spec|done].
  - apply plain_bind. unfold timer_set_oneshot. by apply timer_set_driver_spec.
  - apply plain_bind. unfold timer_set_periodic. apply timer_set_driver_spec; try done. case_match; lia.
  - apply plain_bind. by apply timer_cancel_driver_spec.
Qed.

Lemma exec_event_inv ev s :
  Inv s → event_ok ev s = true → ∃ s', exec_event dpc_event ev s = Ok s' ∧ Inv s'.
Proof.
  intros HI Hok. destruct ev as [c|now]; cbn [exec_event event_ok] in *.
  - destruct (do_call_spec c s HI Hok) as (r & Hr & HP). unfold exec_call. rewrite Hr.
    by apply finish_spec in HP.
  - destruct (ints_enabled s); [|by eauto]. apply inv_run in HI.
    destruct (timer_irq_spec _ _ now s HI) as (r & Hr & HP). unfold exec_irq. rewrite Hr.
    by apply finish_spec in HP.
Qed.

(** * The boot state *)

Lemma boot_queues : inv_q {[root]} (thread_init_early root).
Proof.
  constructor; cbn -[replicate]; try done.
  - intros p q Hq. apply lookup_replicate in Hq as [-> ?]. by rewrite Z.bits_0.
  - intros p q Hq. apply lookup_replicate in Hq as [-> ?]. constructor.
  - intros p q t Hq. apply lookup_replicate in Hq as [-> ?]. split; [set_solver|].
    intros (th & [<- ?]%lookup_singleton_Some & ? & ?). set_solver.
  - intros t th [<- ?]%lookup_singleton_Some HF. set_solver.
  - intros t th [<- <-]%lookup_singleton_Some. cbn. set_solver.
  - intros t th [<- <-]%lookup_singleton_Some. cbn. done.
  - intros t th [<- <-]%lookup_singleton_Some. done.
  - intros t th [<- ?]%lookup_singleton_Some ?. set_solver.
Qed.

Lemma boot_inv : Inv kernel_boot.
Proof.
  split_and!; cbn; [| |set_solver|lia].
  2:{ eexists. cbn. rewrite lookup_singleton_eq. done. }
  split; [apply inv_q_new_wait; [|done]; by apply (inv_q_same _ (thread_init_early root)), boot_queues|].
  constructor; cbn; try done.
  - by rewrite lookup_singleton_eq.
  - split; [apply NoDup_singleton|]. intros t. rewrite list_elem_of_singleton.
    split; [intros ->; by rewrite lookup_singleton_eq|]. by intros [? [<- _]%lookup_singleton_Some].
  - intros t th [<- _]%lookup_singleton_Some. done.
  - constructor.
  - set_solver.
  - eexists. rewrite lookup_singleton_eq. split; [done|]. auto.
  - split; [constructor|set_solver].
  - intros e x [<- <-]%lookup_singleton_Some. split; [done|]. rewrite lookup_insert_eq. by eexists.
  - rewrite lookup_insert_eq. by eexists.
Qed.

(** * The reachable states *)

Inductive reachable : kstate → Prop :=
  | reach_boot : reachable kernel_boot
  | reach_step ev s s' :
      reachable s → event_ok ev s = true → exec_event dpc_event ev s = Ok s' → reachable s'.

Lemma reachable_inv s : reachable s → Inv s.
Proof.
  induction 1 as [|ev s s' _ IH Hok He]; [apply boot_inv|].
  destruct (exec_event_inv ev s IH Hok) as (s1 & Hs1 & HI). congruence.
Qed.

Lemma trace_reachable evs s s' :
  reachable s → trace_ok evs s = true → exec_events dpc_event evs s = Ok s' → reachable s'.
Proof.
  revert s. induction evs as [|ev evs IH]; intros s Hr Hok He; cbn in *; [by simplify_eq|].
  contract. destruct (exec_event dpc_event ev s) as [s1| |] eqn:E; cbn in *; [|done..].
  eapply (IH s1); [by eapply reach_step|done..].
Qed.

(** C1: in every reachable state, a kernel call made within its contract, or a timer
    interrupt, runs to the end: no assertion of the kernel fails, no dangling pointer
    is followed, no loop runs on, and the state it leaves is reachable again. *)
Theorem kernel_safe ev s :
  reachable s → event_ok ev s = true →
  ∃ s', exec_event dpc_event ev s = Ok s' ∧ reachable s'.
Proof.
  intros Hr Hok. destruct (exec_event_inv ev s (reachable_inv s Hr) Hok) as (s' & Hs' & _).
  exists s'. split; [done|]. by eapply reach_step.
Qed.

(** C2: in every reachable state the scheduler's bookkeeping is exact: the current
    thread is the only RUNNING one; a thread is on the run queue of its priority
    exactly when it is READY, and on a wait queue exactly when it is BLOCKED on it;
    no queue holds a thread twice; the bitmap has the bits of the non-empty run
    queues; a wait queue's count is its length; no BLOCKED thread is on no queue. *)
Theorem reachable_scheduling s :
  reachable s →
  (∀ t th, threads s !! t = Some th → state th = THREAD_RUNNING ↔ t = current_thread s) ∧
  (∀ p q t, run_queue s !! p = Some q →
     t ∈ q ↔ ∃ th, threads s !! t = Some th ∧ state th = THREAD_READY ∧ priority th = Z.of_nat p) ∧
  (∀ p q, run_queue s !! p = Some q →
     NoDup q ∧ Z.testbit (run_queue_bitmap s) (Z.of_nat p) = bool_decide (q ≠ [])) ∧
  (∀ w q t, wait_queues s !! w = Some q →
     t ∈ wq_list q ↔ ∃ th, threads s !! t = Some th ∧ state th = THREAD_BLOCKED ∧
                           blocking_wait_queue th = Some w) ∧
  (∀ w q, wait_queues s !! w = Some q →
     NoDup (wq_list q) ∧ wq_count q = Z.of_nat (length (wq_list q))) ∧
  (∀ t th, threads s !! t = Some th → state th = THREAD_BLOCKED →
     ∃ w q, wait_queues s !! w = Some q ∧ t ∈ wq_list q).
Proof.
  intros Hr. destruct (reachable_inv s Hr) as ([Hq _] & (thc & Hc & Hrc & _) & _).
  assert (∀ t th, threads s !! t = Some th → state th ≠ THREAD_RUNNING → t ∉ ({[current_thread s]} : gset tid)) as HF.
  { intros t th Ht Hst ->%elem_of_singleton. congruence. }
  split_and!.
  - intros t th Ht. split; [|intros ->; congruence]. intros Hst.
    destruct (decide (t = current_thread s)); [done|].
    by destruct (iq_running _ _ Hq t th Ht); [set_solver|].
  - intros p q t Hp. rewrite (iq_ready _ _ Hq p q t Hp). split; intros (th & ? & ?); exists th; [tauto|].
    split_and!; try tauto. eapply HF; [done|]. intuition congruence.
  - intros p q Hp. split; [by eapply iq_nodup|by apply (iq_bit _ _ Hq)].
  - intros w q t Hw. rewrite (iq_blocked _ _ Hq w q t Hw). split; intros (th & ? & ?); exists th; [tauto|].
    split_and!; try tauto. eapply HF; [done|]. intuition congruence.
  - intros w q. apply (iq_wait _ _ Hq).
  - intros t th Ht Hst. assert (t ∉ ({[current_thread s]} : gset tid)) as Hn by (eapply HF; eauto; congruence).
    destruct (iq_blocked_on _ _ Hq t th Ht Hn Hst) as (w & q & ? & Hw & _). exists w, q. split; [done|].
    apply (iq_blocked _ _ Hq w q t Hw). eauto.
Qed.

(** C37: no thread is lost asleep: in every reachable state a SLEEPING thread has its
    timer in the timer queue, with the callback that wakes it and itself as argument. *)
Theorem reachable_sleepers s t th :
  reachable s → threads s !! t = Some th → state th = THREAD_SLEEPING →
  inl t ∈ timer_queue s ∧
  ∃ x, timers s !! inl t = Some x ∧ callback x = Some CbThreadSleep ∧ tm_arg x = Some t.
Proof.
  intros Hr Ht Hs. destruct (reachable_inv s Hr) as ([_ HR] & (thc & Hc & Hrc & _) & _).
  assert (t ≠ current_thread s) as Hne by (intros ->; congruence).
  destruct (rc_stk _ _ _ _ _ _ _ _ _ _ _ HR t th Ht Hne) as (_ & _ & _ & _ & _ & Htm & Hsl).
  specialize (Hsl Hs). split; [done|]. destruct (Htm Hsl) as (x & Hx & [[Hcb _]|(_ & _ & ?)]); [|done].
  exists x. split_and!; [done..|].
  destruct (rc_timer _ _ _ _ _ _ _ _ _ _ _ HR _ Hsl) as (y & Hy & Hok). simplify_eq.
  unfold timer_okC in Hok. rewrite Hcb in Hok. by destruct Hok as (t' & [= <-] & ? & _).
Qed.

(** * Who runs *)

(** No READY thread has a higher priority than the current one. *)
Definition highest (s : kstate) : Prop :=
  ∀ t th thc, threads s !! t = Some th → state th = THREAD_READY →
    threads s !! current_thread s = Some thc → priority th ≤ priority thc.

(** [highest] looks at states, priorities and who runs. *)
Definition order_view (th : thread) := (state th, priority th).

Lemma highest_ext s s' :
  order_view <$> threads s' = order_view <$> threads s → current_thread s' = current_thread s →
  highest s → highest s'.
Proof.
  intros Ev Ec Hh t th thc Ht Hs Hc. rewrite Ec in Hc.
  assert (∀ x y, threads s' !! x = Some y → ∃ y', threads s !! x = Some y' ∧ order_view y' = order_view y) as Hl.
  { intros x y Hx. pose proof (f_equal (λ m, m !! x) Ev) as E. cbn in E. rewrite !lookup_fmap, Hx in E.
    destruct (threads s !! x) as [y'|]; [|done]. exists y'. split; [done|]. cbn in E. congruence. }
  destruct (Hl _ _ Ht) as (th' & Ht' & [= Es Ep]). destruct (Hl _ _ Hc) as (thc' & Hc' & [= _ Epc]).
  rewrite <- Ep, <- Epc. eapply Hh; [done|congruence|done].
Qed.

Lemma order_alter f t (m : gmap tid thread) :
  (∀ th, order_view (f th) = order_view th) → order_view <$> alter f t m = order_view <$> m.
Proof.
  intros Hf. apply map_eq. intros i. rewrite !lookup_fmap, lookup_alter. case_decide; [|done].
  subst. destruct (m !! i); cbn; [|done]. by rewrite Hf.
Qed.

Lemma resched_out_order p t q nt s :
  order_view <$> threads (resched_out p t q nt s).2 =
    alter (λ v, (THREAD_RUNNING, v.2)) t (order_view <$> threads s).
Proof.
  destruct (rq_removed_proj p t q s) as (_ & _ & P3 & _).
  assert (order_view <$> alter (set_state THREAD_RUNNING) t (threads (rq_removed p t q s)) =
    alter (λ v, (THREAD_RUNNING, v.2)) t (order_view <$> threads s)) as E.
  { rewrite P3. apply map_eq. intros i. rewrite lookup_fmap. destruct (decide (t = i)) as [<-|].
    - rewrite !lookup_alter_eq, lookup_fmap. by destruct (threads s !! t).
    - by rewrite !lookup_alter_ne, lookup_fmap. }
  unfold resched_out. case_bool_decide; cbn [snd]; [exact E|].
  destruct (remaining_quantum nt <=? 0); cbn; rewrite ?order_alter by done; exact E.
Qed.

(** The scheduler picks the highest READY priority. *)
Lemma thread_resched_highest s r :
  KInv.Mid root dpc_event ∅ s → 1 ≤ critical_section_count s → thread_resched s = Ok r → highest r.2.
Proof.
  intros HM Hcnt Hres. pose proof (bitmap_nonzero _ _ s HM) as Hbm. pose proof HM as [Hq HR].
  destruct (next_queue_scan s (inv_q_agrees _ _ Hq) Hbm) as (p & t & q & Hp & Hin & _ & _ & Hhi).
  destruct (proj1 (iq_ready _ _ Hq _ _ t Hin) ltac:(set_solver)) as (th & Ht & _ & Hs & Hpr).
  rewrite (thread_resched_eq s p t q th) in Hres; try done.
  2:{ intros Hne. by destruct (rc_stk _ _ _ _ _ _ _ _ _ _ _ HR _ _ Ht Hne). }
  injection Hres as <-. set (r := resched_out _ _ _ _ _).
  pose proof (resched_out_order p t q (set_queue_node false th) s) as Ho. fold r in Ho.
  assert (current_thread r.2 = t) as Ec.
  { subst r. unfold resched_out. case_bool_decide as E; cbn; [|done].
    destruct (rq_removed_proj p t q s) as (-> & _). done. }
  assert (∀ x y, threads r.2 !! x = Some y → ∃ y', threads s !! x = Some y' ∧ priority y = priority y' ∧
            (state y = THREAD_READY → state y' = THREAD_READY)) as Hl.
  { intros x y Hx. pose proof (f_equal (λ m, m !! x) Ho) as E. cbn in E.
    rewrite lookup_fmap, Hx in E. destruct (decide (t = x)) as [<-|].
    - rewrite lookup_alter_eq, lookup_fmap, Ht in E. cbn in E. injection E as E1 E2. exists th. split_and!; [done|exact E2|congruence].
    - rewrite lookup_alter_ne, lookup_fmap in E by done.
      destruct (threads s !! x) as [y'|]; [|done]. exists y'. cbn in E. injection E as E1 E2.
      split_and!; [done|exact E2|congruence]. }
  intros x y yc Hx Hsx Hc. rewrite Ec in Hc.
  destruct (Hl _ _ Hx) as (y' & Hy' & -> & Hr'). destruct (Hl _ _ Hc) as (th' & Hth' & -> & _).
  assert (th' = th) as -> by congruence. rewrite Hpr. pose proof (iq_prio _ _ Hq _ _ Hy') as Hpy.
  destruct (decide (priority y' ≤ Z.of_nat p)) as [|Hgt]; [done|]. exfalso.
  destruct (lookup_lt_is_Some_2 (run_queue s) (Z.to_nat (priority y'))) as [q' Hq'].
  { rewrite (iq_len _ _ Hq). lia. }
  assert (x ∈ q') as Hx'. { apply (iq_ready _ _ Hq _ _ _ Hq'). exists y'. split_and!; [done|set_solver|auto|lia]. }
  rewrite (Hhi (Z.to_nat (priority y')) q' ltac:(lia) Hq') in Hx'. set_solver.
Qed.

(** The pending code of a thread does not touch the threads' states. *)
Lemma run_frame_threads f v s v' s' :
  run_frame f v s = Ok (v', s') → threads s' = threads s ∧ current_thread s' = current_thread s.
Proof.
  assert (∀ s, threads (exit_critical_section s) = threads s ∧
               current_thread (exit_critical_section s) = current_thread s) as Hexit
    by (intros s0; by destruct (exit_eq s0) as [i ->]).
  destruct f; cbn [run_frame].
  - intros [= <- <-]. apply Hexit.
  - by intros [= <- <-].
  - by intros [= <- <-].
  - intros [= <- <-]. apply Hexit.
  - case_match; cbn [mbind res_bind].
    + destruct (get_current s); [|done..]. by intros [= <- <-].
    + destruct (timers s !! inl (current_thread s)) as [x|] eqn:Hx.
      * destruct (timer_cancel_eq _ x s Hx) as [i ->]. cbn [mbind res_bind].
        destruct (get_current _); [|done..]. by intros [= <- <-].
      * unfold timer_cancel, get_timer. by rewrite Hx.
  - destruct (get_wait_queue w s); [|done..]. by intros [= <- <-].
  - destruct (get_mutex m s); [|done..]. cbn [mbind res_bind]. intros [= <- <-].
    case_match; by rewrite !(proj1 (Hexit _)), !(proj2 (Hexit _)).
  - destruct (get_mutex m s); [|done..]. cbn [mbind res_bind]. intros [= <- <-].
    case_match; by rewrite !(proj1 (Hexit _)), !(proj2 (Hexit _)).
  - case_match; cbn [mbind res_bind].
    + destruct (get_event e s); [|done..]. cbn [mbind res_bind]. intros [= <- <-].
      by rewrite !(proj1 (Hexit _)), !(proj2 (Hexit _)).
    + intros [= <- <-]. apply Hexit.
Qed.

Lemma run_frames_highest k v s v' s' : run_frames k v s = Ok (v', s') → highest s → highest s'.
Proof.
  revert v s. induction k as [|f k IH]; intros v s; cbn; [by intros [= <- <-]|].
  destruct (run_frame f v s) as [[v1 s1]| |] eqn:E; [|done..]. cbn.
  apply run_frame_threads in E as [Et Ec]. intros Hrun Hh. eapply IH; [done|].
  eapply highest_ext; [by rewrite Et|done..].
Qed.

Lemma upd_kstack_highest f s :
  (∀ th, order_view (f th) = order_view th) → highest s → highest (upd_current f s).
Proof. intros Hf. apply highest_ext; [by apply order_alter|done]. Qed.

Lemma invoke_highest k op s r :
  (∀ r', op (push_frames k s) = Ok r' → highest r'.2) → invoke k op s = Ok r → highest r.2.
Proof.
  intros Hop. unfold invoke. destruct (op (push_frames k s)) as [[o s1]| |] eqn:E; [|done..].
  cbn [mbind res_bind]. specialize (Hop _ eq_refl). cbn in Hop. destruct o as [v|]; [|by intros [= <-]].
  destruct (run_frames k v _) as [[v2 s2]| |] eqn:E2; [|done..]. cbn. intros [= <-]. cbn.
  eapply run_frames_highest; [exact E2|]. by apply upd_kstack_highest.
Qed.

Lemma finish_highest r s' : finish r = Ok s' → highest r.2 → highest s'.
Proof.
  destruct r as [[v|] s]; cbn.
  - intros [= <-] Hh. by apply upd_kstack_highest.
  - destruct (get_current s) as [th| |]; [|done..]. cbn.
    destruct (run_frames _ _ _) as [[v2 s2]| |] eqn:E; [|done..]. cbn. intros [= <-] Hh.
    apply upd_kstack_highest; [done|]. eapply run_frames_highest; [exact E|]. by apply upd_kstack_highest.
Qed.

Lemma requeued_highest n k s r :
  0 ≤ n → KInv.At root dpc_event [] ∅ THREAD_READY (n + 1) k s →
  invoke [FExit] thread_resched s = Ok r → highest r.2.
Proof.
  intros Hn (HM & (th & Hc & _) & _ & He & _). pose proof (exits_nonneg k).
  apply invoke_highest. intros r'. apply thread_resched_highest; [|cbn; lia].
  unfold push_frames. rewrite (upd_current_ext s th (λ th, set_kstack ([FExit] ++ kstack th) th)
    (set_kstack ([FExit] ++ kstack th)) Hc eq_refl). by apply mid_upd_kstack.
Qed.

Lemma timer_irq_highest now s r : Run 0 [] s → timer_irq now s = Ok r → highest r.2.
Proof.
  intros HR. pose proof HR as (HM & (th & Hc & Hr & Hk) & Hf & He & Ht & Hin).
  unfold timer_irq, get_current, get_thread. rewrite Hc. cbn [deref mbind res_bind].
  set (s1 := set_critical_section_count _ _). assert (Run 1 [] s1) as HR1.
  { eapply at_change; [exact HR| |done|done|done|cbn in *; lia|done].
    destruct HM as [Hq HRest]. split; [by apply (inv_q_same _ s)|exact HRest]. }
  clearbody s1. apply invoke_highest. intros r'.
  pose proof (run_push _ _ _ [FIrqReturn (r0 th)] _ _ HR1 ltac:(by repeat constructor) eq_refl) as HR2.
  destruct (timer_tick_spec _ _ (1 - exits [FIrqReturn (r0 th)]) _ now _ HR2) as (s2 & -> & HR3 & Ec); [cbn; lia..|].
  cbn [mbind res_bind].
  destruct (thread_preempt_eq _ _ (1 - exits [FIrqReturn (r0 th)]) _ s2 ltac:(cbn; lia) HR3) as (s3 & -> & HA & _).
  apply (requeued_highest (1 - exits [FIrqReturn (r0 th)]) _ _ _ ltac:(cbn; lia) HA).
Qed.

(** C24: preemptive priority scheduling: after a timer interrupt, and after a thread
    has yielded, no READY thread has a higher priority than the thread that runs. *)
Theorem highest_priority_runs ev s s' :
  reachable s → ev = EvCall CYield ∨ (∃ now, ev = EvIrq now) ∧ ints_enabled s = true →
  exec_event dpc_event ev s = Ok s' →
  ∀ t th thc, threads s' !! t = Some th → state th = THREAD_READY →
    threads s' !! current_thread s' = Some thc → priority th ≤ priority thc.
Proof.
  intros Hr Hev Hex. pose proof (proj1 (inv_run _ _ s) (reachable_inv s Hr)) as HR.
  change (highest s'). destruct Hev as [-> |[[now ->] Hi]]; cbn in Hex.
  - unfold exec_call in Hex. cbn [do_call] in Hex.
    destruct (thread_yield_eq _ _ 0 [] s ltac:(lia) HR) as (s1 & E & HA & _). rewrite E in Hex.
    destruct (invoke [FExit] thread_resched s1) as [r| |] eqn:Er; [|done..].
    apply (finish_highest r); [done|]. by eapply (requeued_highest 0).
  - rewrite Hi in Hex. unfold exec_irq in Hex.
    destruct (timer_irq now s) as [r| |] eqn:Er; [|done..].
    apply (finish_highest r); [done|]. by eapply timer_irq_highest.
Qed.

(** The tail of thread_resched leaves the queues alone. *)
Lemma resched_agrees s v s' : bitmap_agrees s → thread_resched s = Ok (v, s') → bitmap_agrees s'.
Proof.
  intros Hb. unfold thread_resched. intros (_ & _ & Hr)%res_bind_ok. apply res_bind_ok in Hr as (_ & _ & Hr).
  set (p := Z.to_nat _) in Hr. destruct (run_queue s !! p) as [q|] eqn:Eq; [|done]. cbn [deref mbind res_bind] in Hr.
  destruct q as [|t q]; [done|]. apply res_bind_ok in Hr as (nt & _ & Hr).
  assert (bitmap_agrees (rq_removed p t q s)) as [H1 H2 H3] by (by apply removed_agrees).
  destruct (bool_decide _); [injection Hr as <- <-; by constructor|].
  do 2 apply res_bind_ok in Hr as (_ & _ & Hr). injection Hr as <- <-. constructor; cbn; case_match; done.
Qed.

(** C36: thread_resched, which finds the next thread with the bitmap of the run queues and
    count-leading-zeros, does exactly what it would do with the linear search over the
    queues that the code keeps under #if 0: same thread, same state afterwards, same
    failures.  It does so in every state whose bitmap agrees with its queues; that is so
    in every reachable state, and the operations that change the queues, which are those
    that insert a thread and thread_resched itself, keep it. *)
Theorem resched_is_scan :
  (∀ s, reachable s → bitmap_agrees s) ∧
  (∀ s t s', bitmap_agrees s → insert_in_run_queue_head t s = Ok s' ∨ insert_in_run_queue_tail t s = Ok s' → bitmap_agrees s') ∧
  (∀ s v s', bitmap_agrees s → thread_resched s = Ok (v, s') → bitmap_agrees s') ∧
  (∀ s, bitmap_agrees s → thread_resched s = thread_resched_scan s).
Proof.
  split_and!.
  - intros s Hr. destruct (reachable_inv s Hr) as ([Hq _] & _). by eapply inv_q_agrees.
  - intros s t s' Hb [Hi|Hi]; (eapply insert_agrees; [|exact Hb|exact Hi]); [done|by intros x []].
  - intros s v s'. apply resched_agrees.
  - intros s Hb. unfold thread_resched, thread_resched_scan. destruct (ASSERT (in_critical_section s)); [|done..]. cbn [mbind res_bind].
    destruct (Z.eqb_spec (run_queue_bitmap s) 0) as [E|E]; [by rewrite (scan_none s Hb E)|]. cbn [negb ASSERT mbind res_bind].
    destruct (next_queue_scan s Hb E) as (p & t & q & -> & Hq & _ & -> & _). by rewrite Nat2Z.id, Hq.
Qed.

End Safe.

(** * An uncontended mutex *)

(** Writing a mutex inside a critical section. *)
Lemma put_mutex_section m a i s :
  ∃ j, exit_critical_section (put_mutex m a
         (set_ints_enabled i (set_critical_section_count (critical_section_count s + 1) s))) =
       set_ints_enabled j (put_mutex m a s).
Proof.
  match goal with |- context [exit_critical_section ?x] => destruct (exit_eq x) as [j ->] end.
  exists j. destruct s as [th tl cu cn ie rq bm id wq mx ev tq tm ct dl]. unfold put_mutex. cbn.
  rewrite Z.add_simpl_r. reflexivity.
Qed.

Lemma put_put_mutex m a b s : put_mutex m a (put_mutex m b s) = put_mutex m a s.
Proof. unfold put_mutex, set_mutexes. cbn. by rewrite insert_insert_eq. Qed.

(** a free mutex is taken and given back without touching the scheduler: acquire
    answers NO_ERROR and makes the caller its holder with count 1, release by the same
    thread then answers NO_ERROR and restores the mutex; nothing else of the kernel
    state changes but the interrupt flag. *)
Theorem mutex_uncontended m s :
  mutexes s !! m = Some (mkMutex MUTEX_MAGIC 0 None) →
  ∃ i j, let held := put_mutex m (mkMutex MUTEX_MAGIC 1 (Some (current_thread s))) s in
    mutex_acquire m s = Ok (Some NO_ERROR, set_ints_enabled i held) ∧
    mutex_release m (set_ints_enabled i held) = Ok (Some NO_ERROR, set_ints_enabled j s).
Proof.
  intros Hm. unfold mutex_acquire, get_mutex. rewrite Hm. cbn [deref mbind res_bind m_holder].
  rewrite bool_decide_eq_false_2 by done.
  cbn -[enter_critical_section exit_critical_section].
  change (1 <? 0 + 1) with false. cbn match.
  destruct (enter_eq s) as [i ->]. rewrite put_put_mutex.
  destruct (put_mutex_section m (mkMutex MUTEX_MAGIC 1 (Some (current_thread s))) i s) as [j Hj].
  exists j. unfold mutex_release, get_mutex. cbn -[enter_critical_section exit_critical_section put_mutex].
  set (held := put_mutex m (mkMutex MUTEX_MAGIC 1 (Some (current_thread s))) s) in *.
  assert (mutexes held !! m = Some (mkMutex MUTEX_MAGIC 1 (Some (current_thread s)))) as Hh
    by (cbn; by rewrite lookup_insert_eq).
  rewrite Hh. cbn [deref mbind res_bind m_holder].
  rewrite bool_decide_eq_true_2 by done. cbn -[enter_critical_section exit_critical_section put_mutex].
  change (1 <=? 1 - 1) with false. cbn match.
  destruct (enter_eq (set_ints_enabled j held)) as [i2 ->].
  destruct (put_mutex_section m (mkMutex MUTEX_MAGIC 0 None) i2 (set_ints_enabled j held)) as [j2 Hj2].
  exists j2. split; [by rewrite <- Hj|]. do 2 f_equal. etransitivity; [exact Hj2|].
  transitivity (set_ints_enabled j2 (put_mutex m (mkMutex MUTEX_MAGIC 0 None) s)).
  - unfold held, put_mutex, set_mutexes. cbn. by rewrite insert_insert_eq.
  - unfold put_mutex. rewrite insert_id by done. by destruct s.
Qed.

Lemma mutex_uncontended_witness :
  ∃ i j, let s := mutex_init 5 (kernel_boot 0 0) in
    let held := put_mutex 5 (mkMutex MUTEX_MAGIC 1 (Some 0%nat)) s in
    mutex_acquire 5 s = Ok (Some NO_ERROR, set_ints_enabled i held) ∧
    mutex_release 5 (set_ints_enabled i held) = Ok (Some NO_ERROR, set_ints_enabled j s).
Proof. apply (mutex_uncontended 5 (mutex_init 5 (kernel_boot 0 0))). vm_compute. reflexivity. Defined.
