(* ===== verification/KTraces.v ===== *)
(** Concrete runs of the kernel: a boot and a few threads at work, which instantiate
    the theorems of [KSafe], and runs that show what the code does where it departs
    from its comments or loses track of a thread.

    Thread 0 is the bootstrap thread that becomes idle, thread 1 the DPC thread,
    thread 2 "bootstrap2"; the DPC event is object 0. *)
From stdpp Require Import base numbers list gmap strings.
From S2P Require Import Prelude KState KTimer KThread KSync KQueues KInv KOps KSafe.

Definition new_thread (t : tid) (name : string) (prio : Z) : list kevent :=
  [EvCall (CCreate (Some t) true name 0 0 prio 8192); EvCall (CResume t)].

(** [kmain] from [dpc_init] on, then the first timer interrupt; the DPC thread runs
    first and waits for work, and bootstrap2 gets the processor. *)
Definition kmain : list kevent :=
  new_thread 1 "dpc" DPC_PRIORITY ++ new_thread 2 "bootstrap2" DEFAULT_PRIORITY ++
  [EvCall CExitCritical; EvCall CBecomeIdle; EvIrq 10; EvCall (CEventWait 0 INFINITE_TIME)].

Definition run (evs : list kevent) : res kstate := exec_events 0 evs (kernel_boot 0 0).
Definition in_contract (evs : list kevent) : bool := trace_ok 0 0 evs (kernel_boot 0 0).

(** The state after a run (the boot state if it failed). *)
Definition after (evs : list kevent) : kstate :=
  match run evs with Ok s => s | _ => kernel_boot 0 0 end.

Definition thread_view (t : tid) (s : kstate) : option (thread_state * Z) :=
  (λ th, (state th, saved_critical_section_count th)) <$> threads s !! t.

Lemma after_reachable evs :
  in_contract evs = true → (∃ s, run evs = Ok s) → reachable 0 0 (after evs).
Proof.
  intros Hok [s Hs]. unfold after. rewrite Hs. eapply trace_reachable; [apply reach_boot|done|exact Hs].
Qed.

Ltac run_reachable := apply after_reachable; [vm_compute; reflexivity|eexists; vm_compute; reflexivity].

(** bootstrap2 creates a worker, goes to sleep for 20 ms and a tick comes. *)
Definition sleep_trace : list kevent :=
  kmain ++ new_thread 3 "worker" 10 ++ [EvCall (CSleep 20)].

Lemma kernel_safe_witness :
  ∃ s', exec_event 0 (EvIrq 40) (after sleep_trace) = Ok s' ∧ reachable 0 0 s'.
Proof. apply (kernel_safe 0 0 (EvIrq 40)); [run_reachable|reflexivity]. Defined.

Lemma reachable_scheduling_witness :
  ∃ th, threads (after sleep_trace) !! 3%nat = Some th ∧
    (state th = THREAD_RUNNING ↔ 3%nat = current_thread (after sleep_trace)).
Proof.
  destruct (threads (after sleep_trace) !! 3%nat) as [th|] eqn:E; [|vm_compute in E; discriminate].
  exists th. split; [done|]. apply (reachable_scheduling 0 0); [run_reachable|exact E].
Defined.

Lemma reachable_sleepers_witness :
  inl 2%nat ∈ timer_queue (after sleep_trace) ∧
  ∃ x, timers (after sleep_trace) !! inl 2%nat = Some x ∧ callback x = Some CbThreadSleep ∧
       tm_arg x = Some 2%nat.
Proof.
  destruct (threads (after sleep_trace) !! 2%nat) as [th|] eqn:E; [|vm_compute in E; discriminate].
  apply (reachable_sleepers 0 0 (after sleep_trace) 2 th); [run_reachable|exact E|].
  vm_compute in E. injection E as <-. reflexivity.
Defined.

Lemma highest_priority_runs_witness : highest (after (sleep_trace ++ [EvIrq 40])).
Proof.
  unfold highest.
  apply (highest_priority_runs 0 0 (EvIrq 40) (after sleep_trace)); [run_reachable|right; split|];
    [eexists; reflexivity|vm_compute; reflexivity|vm_compute; reflexivity].
Defined.

(** In the middle of a yield the two ways of choosing are at work on queues with a thread. *)
Example resched_is_scan_runs :
  let s := set_critical_section_count 1 (after sleep_trace) in
  run_queue_bitmap s ≠ 0 ∧ ∃ r, thread_resched s = Ok r ∧ thread_resched_scan s = Ok r.
Proof. split; [by vm_compute|]. eexists. split; vm_compute; reflexivity. Qed.

(** * What the runs show of the code *)

(** A thread waits for event 1 for 30 ms; it is signalled in time but its priority
    does not let it run before the timeout comes. *)
Definition leak_trace : list kevent :=
  kmain ++ [EvCall (CEventInit 1 false 0)] ++ new_thread 3 "waiter" 10 ++
  [EvCall (CSleep 5); EvCall (CEventWait 1 30); EvIrq 20; EvCall (CEventSignal 1 false)].

(** a timeout that comes when its thread has just been woken raises the critical
    section count of the interrupted thread for good: the early return of
    thread_unblock_from_wait_queue (ERR_NOT_BLOCKED) does not leave the critical
    section it entered.  The interrupted thread goes on with interrupts enabled and a
    count of 1 although it is in no critical section. *)
Theorem timeout_leaks_critical_section :
  in_contract (leak_trace ++ [EvIrq 50]) = true ∧
  (critical_section_count (after leak_trace), current_thread (after leak_trace)) = (0, 2%nat) ∧
  ∃ s, run (leak_trace ++ [EvIrq 50]) = Ok s ∧ current_thread s = 2%nat ∧
       critical_section_count s = 1 ∧ ints_enabled s = true.
Proof. split_and!; [vm_compute; reflexivity..|]. eexists. split_and!; vm_compute; reflexivity. Qed.

Definition lost_trace : list kevent :=
  kmain ++ [EvCall (CEventInit 1 false 0)] ++ new_thread 3 "waiter" 10 ++
  [EvCall (CSleep 5); EvCall (CEventWait 1 INFINITE_TIME); EvIrq 20; EvCall (CUnblock 3 true 0)].

(** thread_unblock_from_wait_queue with [reschedule] set switches away from the
    caller without putting it on a run queue: the caller (thread 2) is still marked
    RUNNING, is not the current thread, and no run queue holds it. *)
Theorem unblock_resched_loses_caller :
  ∃ s, run lost_trace = Ok s ∧ current_thread s = 3%nat ∧
       fst <$> thread_view 2 s = Some THREAD_RUNNING ∧ 2%nat ∉ concat (run_queue s).
Proof. eexists. split_and!; [vm_compute; reflexivity..|]. vm_compute. set_solver. Qed.

Definition race_trace : list kevent :=
  kmain ++ [EvCall (CMutexInit 1); EvCall (CMutexAcquire 1)] ++ new_thread 3 "low" 5 ++
  [EvCall (CSleep 5); EvCall (CMutexAcquireTimeout 1 20); EvIrq 20] ++ new_thread 4 "other" 10 ++
  [EvIrq 40; EvCall (CMutexRelease 1); EvCall (CSleep 100); EvCall (CMutexAcquire 1)].

(** a mutex can be left with nobody holding it and a thread waiting for it: when
    the owner releases it after a waiter's timeout has fired and before that waiter
    has taken itself off the count, a third thread that then acquires the mutex
    blocks without a timeout, and no thread can release it. *)
Theorem mutex_timeout_strands_waiter :
  in_contract race_trace = true ∧
  ∃ s, run race_trace = Ok s ∧ mutexes s !! 1%nat = Some (mkMutex MUTEX_MAGIC 1 None) ∧
       wq_list <$> wait_queues s !! 1%nat = Some [4%nat] ∧
       fst <$> thread_view 4 s = Some THREAD_BLOCKED ∧ inl 4%nat ∉ timer_queue s ∧
       mutex_release 1 s = Panic.
Proof.
  split; [vm_compute; reflexivity|]. eexists. split_and!; [vm_compute; reflexivity..| |vm_compute; reflexivity].
  vm_compute. set_solver.
Qed.

Definition resume_trace : list kevent :=
  kmain ++ [EvCall (CEventInit 1 false 0)] ++ new_thread 3 "waiter" 10 ++
  [EvCall (CSleep 5); EvCall (CEventWait 1 INFINITE_TIME); EvIrq 20].

(** thread_resume on a BLOCKED thread does not answer ERR_NOT_SUSPENDED, as its
    comment says: it goes on to the run queue insertion, whose assertion fails. *)
Theorem resume_blocked_panics :
  fst <$> thread_view 3 (after resume_trace) = Some THREAD_BLOCKED ∧
  run (resume_trace ++ [EvCall (CResume 3)]) = Panic.
Proof. split; vm_compute; reflexivity. Qed.
