(* ===== verification/Bytes.v ===== *)
(** Byte buffers, as the boot loader reads and patches them: a buffer is a list of
    bytes, an access outside it is [Fault], and the little-endian accessors are those
    of src/bootable/lk/platform/msm_shared/include/partition_parser.h and mmc.h.
    C strings are NUL-terminated byte buffers; [c_string] is the text they hold. *)
From Stdlib Require Import ZArith Ascii.
From stdpp Require Import base numbers list strings.
From S2P Require Import Prelude.

Abbreviation buffer := (list Z).

Definition is_byte (b : Z) : Prop := 0 ≤ b < 256.

#[global] Instance is_byte_dec b : Decision (is_byte b).
Proof. unfold is_byte. apply _. Defined.

(** * Access with bounds *)

Definition in_range (b : buffer) (off : Z) (n : nat) : bool :=
  (0 <=? off) && (off + Z.of_nat n <=? Z.of_nat (length b)).

Definition slice (b : buffer) (off : Z) (n : nat) : res (list Z) :=
  if in_range b off n then Ok (take n (drop (Z.to_nat off) b)) else Fault.

Definition store (b : buffer) (off : Z) (bs : list Z) : res buffer :=
  if in_range b off (length bs)
  then Ok (take (Z.to_nat off) b ++ bs ++ drop (Z.to_nat off + length bs) b) else Fault.

Definition byte_at (b : buffer) (off : Z) : res Z :=
  l ← slice b off 1; deref (head l).

(** * Little-endian words *)

(** [x0 | x1 << 8 | x2 << 16 | ...] *)
Fixpoint le_or (shift : Z) (bs : list Z) : Z :=
  match bs with
  | [] => 0
  | b :: bs => Z.lor (Z.shiftl b shift) (le_or (shift + 8) bs)
  end.

(** [y & 0xff], [(y >> 8) & 0xff], ... *)
Fixpoint le_bytes (n : nat) (shift : Z) (y : Z) : list Z :=
  match n with
  | O => []
  | S n => Z.land (Z.shiftr y shift) 0xff :: le_bytes n (shift + 8) y
  end.

Definition GET_LWORD_FROM_BYTE (b : buffer) (off : Z) : res Z := l ← slice b off 4; Ok (le_or 0 l).
Definition GET_LLWORD_FROM_BYTE (b : buffer) (off : Z) : res Z := l ← slice b off 8; Ok (le_or 0 l).
Definition PUT_LONG (b : buffer) (off y : Z) : res buffer := store b off (le_bytes 4 0 y).
Definition PUT_LONG_LONG (b : buffer) (off y : Z) : res buffer := store b off (le_bytes 8 0 y).

(** * Lemmas *)

Lemma in_range_spec b off n :
  in_range b off n = true ↔ 0 ≤ off ∧ off + Z.of_nat n ≤ Z.of_nat (length b).
Proof. unfold in_range. rewrite andb_true_iff, !Z.leb_le. done. Qed.

Lemma slice_ok b off n l :
  slice b off n = Ok l ↔
  0 ≤ off ∧ off + Z.of_nat n ≤ Z.of_nat (length b) ∧ l = take n (drop (Z.to_nat off) b).
Proof.
  unfold slice. destruct (in_range b off n) eqn:E.
  - apply in_range_spec in E as [? ?]. split; [by intros [= <-]|]. by intros (_ & _ & ->).
  - split; [done|]. intros (H1 & H2 & _). by rewrite (proj2 (in_range_spec _ _ _)) in E.
Qed.

Lemma store_ok b off bs b' :
  store b off bs = Ok b' ↔
  0 ≤ off ∧ off + Z.of_nat (length bs) ≤ Z.of_nat (length b) ∧
  b' = take (Z.to_nat off) b ++ bs ++ drop (Z.to_nat off + length bs) b.
Proof.
  unfold store. destruct (in_range b off (length bs)) eqn:E.
  - apply in_range_spec in E as [? ?]. split; [by intros [= <-]|]. by intros (_ & _ & ->).
  - split; [done|]. intros (H1 & H2 & _). by rewrite (proj2 (in_range_spec _ _ _)) in E.
Qed.

Lemma store_in b off bs :
  0 ≤ off → off + Z.of_nat (length bs) ≤ Z.of_nat (length b) → ∃ b', store b off bs = Ok b'.
Proof. intros. eexists. by apply store_ok. Qed.

Lemma store_length b off bs b' : store b off bs = Ok b' → length b' = length b.
Proof. intros (? & ? & ->)%store_ok. rewrite !length_app, length_take, length_drop. lia. Qed.

Lemma length_slice b off n l : slice b off n = Ok l → length l = n.
Proof. intros (? & ? & ->)%slice_ok. rewrite length_take, length_drop. lia. Qed.

(** A range in the middle of a concatenation. *)
Lemma slice_mid l1 l2 l3 off n :
  off = Z.of_nat (length l1) → n = length l2 → slice (l1 ++ l2 ++ l3) off n = Ok l2.
Proof.
  intros -> ->. apply slice_ok. rewrite !length_app. split_and!; [lia..|].
  by rewrite Nat2Z.id, drop_app_length, take_app_length.
Qed.

(** Reading back what was stored. *)
Lemma slice_store_same b off bs b' : store b off bs = Ok b' → slice b' off (length bs) = Ok bs.
Proof.
  intros Hs. pose proof (store_length _ _ _ _ Hs) as Hl. apply store_ok in Hs as (H0 & H1 & ->).
  apply slice_ok. rewrite Hl. split_and!; [lia..|].
  rewrite drop_app_ge by (rewrite length_take; lia). rewrite length_take.
  replace (Z.to_nat off - _)%nat with 0%nat by lia. by rewrite drop_0, take_app_length.
Qed.

(** Reading beside what was stored. *)
Lemma slice_store_other b off bs b' i n :
  store b off bs = Ok b' → i + Z.of_nat n ≤ off ∨ off + Z.of_nat (length bs) ≤ i →
  slice b' i n = slice b i n.
Proof.
  intros Hs Hd. pose proof (store_length _ _ _ _ Hs) as Hl. apply store_ok in Hs as (H0 & H1 & ->).
  unfold slice, in_range. rewrite Hl. case_match eqn:E; [|done].
  apply andb_prop in E as [Hi%Z.leb_le Hn%Z.leb_le]. f_equal. apply list_eq. intros k.
  destruct (decide (k < n)%nat) as [Hk|Hk]; [|by rewrite !lookup_take_ge by lia].
  rewrite !lookup_take, !lookup_drop by lia. destruct Hd as [Hd|Hd].
  - case_decide; [|done]. rewrite lookup_app_l by (rewrite length_take; lia).
    rewrite lookup_take by lia. by case_decide; [|lia].
  - case_decide; [|done]. rewrite lookup_app_r; rewrite length_take; [|lia].
    rewrite lookup_app_r by lia. rewrite lookup_drop. f_equal. lia.
Qed.

Lemma length_le_bytes n s y : length (le_bytes n s y) = n.
Proof. revert s. induction n; intros s; cbn; auto. Qed.

Lemma byte_testbit y i : Z.testbit (Z.land y 0xff) i = bool_decide (0 ≤ i < 8) && Z.testbit y i.
Proof.
  change 0xff with (Z.ones 8). rewrite Z.land_spec.
  destruct (decide (0 ≤ i < 8)) as [H|H].
  - rewrite bool_decide_eq_true_2, Z.ones_spec_low by lia. by rewrite andb_true_r.
  - rewrite bool_decide_eq_false_2 by done. destruct (decide (i < 0)).
    + by rewrite !Z.testbit_neg_r by lia.
    + rewrite Z.ones_spec_high by lia. by rewrite andb_false_r.
Qed.

Lemma le_or_testbit n s y i :
  0 ≤ s → Z.testbit (le_or s (le_bytes n s y)) i = bool_decide (s ≤ i < s + 8 * Z.of_nat n) && Z.testbit y i.
Proof.
  revert s. induction n as [|n IH]; intros s Hs; cbn [le_bytes le_or].
  - rewrite Z.bits_0. by rewrite bool_decide_eq_false_2 by lia.
  - destruct (decide (0 ≤ i)) as [Hi|Hi]; [|by rewrite !Z.testbit_neg_r, ?andb_false_r by lia].
    rewrite Z.lor_spec, IH, Z.shiftl_spec, byte_testbit by lia.
    destruct (decide (s ≤ i)) as [Hsi|]; [rewrite Z.shiftr_spec by lia; replace (i - s + s) with i by lia|].
    + destruct (Z.testbit y i); [|by rewrite !andb_false_r]. rewrite !andb_true_r.
      repeat case_bool_decide; try done; lia.
    + repeat case_bool_decide; try done; lia.
Qed.

Lemma le_roundtrip n y : le_or 0 (le_bytes n 0 y) = y mod 2 ^ (8 * Z.of_nat n).
Proof.
  apply Z.bits_inj_iff'. intros i Hi. rewrite le_or_testbit by lia.
  case_bool_decide; [rewrite Z.mod_pow2_bits_low by lia; done|].
  by rewrite Z.mod_pow2_bits_high by lia.
Qed.

Lemma le_bytes_range n s y : Forall is_byte (le_bytes n s y).
Proof.
  revert s. induction n; intros s; constructor; [|done]. unfold is_byte. change 0xff with (Z.ones 8).
  rewrite Z.land_ones by lia. apply Z.mod_pos_bound. lia.
Qed.

(** The word accessors read back what they wrote, modulo their width. *)
Lemma get_put_long b off y b' : PUT_LONG b off y = Ok b' → GET_LWORD_FROM_BYTE b' off = Ok (u32 y).
Proof.
  intros Hs%slice_store_same. rewrite length_le_bytes in Hs. unfold GET_LWORD_FROM_BYTE. rewrite Hs.
  cbn [mbind res_bind]. by rewrite le_roundtrip.
Qed.

Lemma get_put_long_long b off y b' : PUT_LONG_LONG b off y = Ok b' → GET_LLWORD_FROM_BYTE b' off = Ok (u64 y).
Proof.
  intros Hs%slice_store_same. rewrite length_le_bytes in Hs. unfold GET_LLWORD_FROM_BYTE. rewrite Hs.
  cbn [mbind res_bind]. by rewrite le_roundtrip.
Qed.

Lemma le_or_range s bs :
  0 ≤ s → Forall is_byte bs → 0 ≤ le_or s bs < 2 ^ (s + 8 * Z.of_nat (length bs)).
Proof.
  intros Hs HF. revert s Hs. induction HF as [|b bs Hb HF IH]; intros s Hs; cbn [le_or length].
  { split; [done|]. apply Z.pow_pos_nonneg; lia. }
  destruct (IH (s + 8) ltac:(lia)) as [H0 H1]. replace (s + 8 + 8 * Z.of_nat (length bs)) with
    (s + 8 * Z.of_nat (S (length bs))) in H1 by lia.
  assert (0 ≤ Z.shiftl b s) by (apply Z.shiftl_nonneg; unfold is_byte in Hb; lia).
  split; [by apply Z.lor_nonneg|]. set (m := s + 8 * Z.of_nat (S (length bs))) in *.
  assert (Z.shiftl b s < 2 ^ m) as Hb2.
  { rewrite Z.shiftl_mul_pow2 by lia. unfold is_byte in Hb.
    assert (2 ^ m = 2 ^ s * 2 ^ (8 * Z.of_nat (S (length bs)))) as -> by (subst m; rewrite Z.pow_add_r; lia).
    assert (2 ^ 8 ≤ 2 ^ (8 * Z.of_nat (S (length bs)))) by (apply Z.pow_le_mono_r; lia).
    assert (0 < 2 ^ s) by (apply Z.pow_pos_nonneg; lia). nia. }
  destruct (decide (Z.lor (Z.shiftl b s) (le_or (s + 8) bs) = 0)) as [->|Hne];
    [apply Z.pow_pos_nonneg; lia|].
  apply Z.log2_lt_pow2; [pose proof (proj2 (Z.lor_nonneg (Z.shiftl b s) (le_or (s + 8) bs))); lia|].
  rewrite Z.log2_lor by done. apply Z.max_lub_lt.
  all: match goal with |- Z.log2 ?x < _ => destruct (decide (x = 0)) as [->|]; [cbn; subst m; lia|] end.
  all: apply Z.log2_lt_pow2; lia.
Qed.


(** * C strings *)

Definition bytes_of (s : string) : list Z :=
  (λ c, Z.of_nat (nat_of_ascii c)) <$> String.list_ascii_of_string s.

(** [strlen] on an array: the bytes before the first NUL; reading on past the array is [Fault]. *)
Fixpoint strlen (b : list Z) : res Z :=
  match b with
  | [] => Fault
  | c :: b => if c =? 0 then Ok 0 else n ← strlen b; Ok (n + 1)
  end.

(** [!memcmp(a, b, n)], comparing byte after byte up to the first difference. *)
Fixpoint memeq (a b : list Z) (n : nat) : res bool :=
  match n with
  | O => Ok true
  | S n =>
      match a, b with
      | x :: a, y :: b => if x =? y then memeq a b n else Ok false
      | _, _ => Fault
      end
  end.

(** The string an array holds: the bytes before the first NUL. *)
Fixpoint c_string (b : list Z) : list Z :=
  match b with
  | [] => []
  | c :: b => if c =? 0 then [] else c :: c_string b
  end.

Lemma strlen_c_string b : 0 ∈ b → strlen b = Ok (Z.of_nat (length (c_string b))).
Proof.
  induction b as [|c b IH]; intros Hin; [by apply not_elem_of_nil in Hin|]. cbn [strlen c_string].
  destruct (Z.eqb_spec c 0) as [->|Hc]; [done|]. apply elem_of_cons in Hin as [Hin|Hin]; [done|].
  rewrite IH by done. cbn [mbind res_bind length]. f_equal. lia.
Qed.

Lemma memeq_prefix nm b :
  (length nm ≤ length b)%nat → ∃ same, memeq nm b (length nm) = Ok same ∧ (same = true ↔ take (length nm) b = nm).
Proof.
  revert b. induction nm as [|x nm IH]; intros b Hl; [by exists true|]. destruct b as [|y b]; cbn in Hl; [lia|].
  cbn [memeq length take]. destruct (Z.eqb_spec x y) as [->|Hne].
  - destruct (IH b ltac:(lia)) as (same & -> & Hs). exists same. split; [done|]. rewrite Hs.
    split; [by intros ->|]. by intros [= ?].
  - exists false. split; [done|]. split; [done|]. intros [= ? ?]. congruence.
Qed.

Lemma c_string_prefix nm b :
  0 ∉ nm → c_string b = nm ↔ take (length nm) b = nm ∧ length (c_string b) = length nm.
Proof.
  revert b. induction nm as [|x nm IH]; intros b Hn.
  { split; [by intros ->|]. intros [_ H]. by apply nil_length_inv. }
  rewrite not_elem_of_cons in Hn. destruct Hn as [Hx Hn]. destruct b as [|c b]; cbn [c_string].
  { split; [done|]. by intros [? _]. }
  destruct (Z.eqb_spec c 0) as [->|Hc]; cbn [length take].
  - split; [done|]. intros [[= ?] _]. congruence.
  - specialize (IH b Hn). split.
    + intros [= -> Hb]. destruct (proj1 IH Hb) as [H1 H2]. split; [by f_equal|by f_equal].
    + intros [[= -> H1] [= H2]]. f_equal. by apply IH.
Qed.
