(* ===== verification/Crc32.v ===== *)
(** The CRC-32 of the partition parser (reflect and calculate_crc32 of
    src/bootable/lk/platform/msm_shared/partition_parser.c).

    The code shifts a register to the left over reflected bytes and reflects the
    result; [crc32_ref] is the usual definition (IEEE 802.3, as in the UEFI
    specification of the GPT): bits least significant first, a register shifted to
    the right, polynomial 0xEDB88320. *)
From Stdlib Require Import ZArith.
From stdpp Require Import base numbers list.
From S2P Require Import Prelude Bytes.

(** * The code *)

(** The loop of [reflect] from [i]; [data] is an int, so [>>] is arithmetic. *)
Fixpoint reflect_loop (fuel : nat) (i len data ref : Z) : Z :=
  match fuel with
  | O => ref
  | S fuel =>
      let ref := if Z.odd data then Z.lor ref (Z.shiftl 1 (len - 1 - i)) else ref in
      reflect_loop fuel (i + 1) len (Z.shiftr data 1) ref
  end.

Definition reflect (data len : Z) : Z := reflect_loop (Z.to_nat len) 0 len data 0.

Definition POLYNOMIAL : Z := 0x04C11DB7.  (* 0x104C11DB7 truncated to an int *)

(** The body of the inner loop, on the register and the data byte. *)
Definition crc_step (rd : Z * Z) : Z * Z :=
  let '(regs, data_byte) := rd in
  let msb := Z.land (Z.shiftr data_byte 7) 1 in
  let regs_msb := Z.land (Z.shiftr regs 31) 1 in
  let regs := u32 (Z.shiftl regs 1) in
  let regs := if negb (Z.lxor regs_msb msb =? 0) then Z.lxor regs POLYNOMIAL else regs in
  (u32 regs, Z.shiftl data_byte 1).

Definition crc_byte (regs byte : Z) : Z := (Nat.iter 8 crc_step (regs, reflect byte 8)).1.

Definition calculate_crc32 (buf : list Z) : Z :=
  let regs := foldl crc_byte 0xFFFFFFFF buf in
  Z.lxor (reflect regs 32) 0xFFFFFFFF.

(** * The reference definition *)

Definition crc32_step (r : Z) (bit : bool) : Z :=
  let r' := Z.shiftr r 1 in
  if xorb (Z.testbit r 0) bit then Z.lxor r' 0xEDB88320 else r'.

Definition byte_bits (b : Z) : list bool := (λ i, Z.testbit b (Z.of_nat i)) <$> seq 0 8.

Definition crc32_ref (buf : list Z) : Z :=
  Z.lxor (foldl crc32_step 0xFFFFFFFF (buf ≫= byte_bits)) 0xFFFFFFFF.

(** * The two agree *)

(** [reflect] reverses the low [len] bits. *)
Lemma reflect_loop_bits fuel i len data ref k :
  0 ≤ i → i + Z.of_nat fuel = len → 0 ≤ k →
  Z.testbit (reflect_loop fuel i len data ref) k =
    Z.testbit ref k || (bool_decide (k < len - i) && Z.testbit data (len - 1 - i - k)).
Proof.
  revert i data ref. induction fuel as [|fuel IH]; intros i data ref Hi Hf Hk; cbn [reflect_loop].
  - rewrite bool_decide_eq_false_2 by lia. by rewrite orb_false_r.
  - rewrite IH by lia. rewrite <- Z.bit0_odd.
    assert (Z.testbit (if Z.testbit data 0 then Z.lor ref (Z.shiftl 1 (len - 1 - i)) else ref) k =
      Z.testbit ref k || (bool_decide (k = len - 1 - i) && Z.testbit data 0)) as ->.
    { destruct (Z.testbit data 0); [|by rewrite andb_false_r, orb_false_r].
      rewrite Z.lor_spec, Z.shiftl_1_l, andb_true_r, Z.pow2_bits_eqb by lia. f_equal.
      case_bool_decide; [apply Z.eqb_eq|apply Z.eqb_neq]; lia. }
    destruct (Z.testbit ref k); [done|]. cbn [orb]. destruct (decide (k = len - 1 - i)) as [->|Hne].
    + rewrite (bool_decide_eq_true_2 (len - 1 - i = len - 1 - i)),
        (bool_decide_eq_false_2 (len - 1 - i < len - (i + 1))),
        (bool_decide_eq_true_2 (len - 1 - i < len - i)) by lia.
      cbn [andb]. rewrite orb_false_r. replace (len - 1 - i - (len - 1 - i)) with 0 by lia. done.
    + rewrite (bool_decide_eq_false_2 (k = _)) by done. cbn [andb orb].
      destruct (decide (k < len - (i + 1))).
      * rewrite !bool_decide_eq_true_2, Z.shiftr_spec by lia. cbn [andb]. f_equal. lia.
      * by rewrite !bool_decide_eq_false_2 by lia.
Qed.

Lemma reflect_bits len data k :
  0 ≤ len → 0 ≤ k → Z.testbit (reflect data len) k = bool_decide (k < len) && Z.testbit data (len - 1 - k).
Proof.
  intros Hl Hk. unfold reflect. rewrite reflect_loop_bits by lia. rewrite Z.bits_0. cbn.
  by rewrite !Z.sub_0_r.
Qed.

Lemma bit_at (x k : Z) : 0 ≤ k → Z.land (Z.shiftr x k) 1 = Z.b2z (Z.testbit x k).
Proof.
  intros Hk. apply Z.bits_inj_iff'. intros i Hi. rewrite Z.land_spec, Z.shiftr_spec by lia.
  destruct (decide (i = 0)) as [->|].
  - rewrite Z.b2z_bit0, andb_true_r. f_equal.
  - rewrite (Z.bits_above_log2 1) by (cbn; lia). rewrite andb_false_r.
    destruct (Z.testbit x k); cbn; [rewrite (Z.bits_above_log2 1) by (cbn; lia)|rewrite Z.bits_0]; done.
Qed.

Lemma reflect_polynomial : reflect POLYNOMIAL 32 = 0xEDB88320.
Proof. reflexivity. Qed.

#[local] Opaque reflect.

(** One step to the left on [r] is one step to the right on the reflected register. *)
Lemma u32_testbit x k : 0 ≤ k → Z.testbit (u32 x) k = bool_decide (k < 32) && Z.testbit x k.
Proof.
  intros Hk. unfold u32. case_bool_decide; [by rewrite Z.mod_pow2_bits_low by lia|].
  by rewrite Z.mod_pow2_bits_high by lia.
Qed.

Lemma crc_step_reflect r d :
  0 ≤ r < 2 ^ 32 →
  reflect (crc_step (r, d)).1 32 = crc32_step (reflect r 32) (Z.testbit d 7) ∧
  0 ≤ (crc_step (r, d)).1 < 2 ^ 32.
Proof.
  intros Hr. unfold crc_step. cbn [fst]. rewrite !bit_at by lia. split; [|apply u32_range].
  assert (negb (Z.lxor (Z.b2z (Z.testbit r 31)) (Z.b2z (Z.testbit d 7)) =? 0) =
          xorb (Z.testbit (reflect r 32) 0) (Z.testbit d 7)) as ->.
  { rewrite reflect_bits by lia. change (32 - 1 - 0) with 31. by destruct (Z.testbit r 31), (Z.testbit d 7). }
  unfold crc32_step. apply Z.bits_inj_iff'. intros k Hk. rewrite reflect_bits by lia.
  set (c := xorb _ _). clearbody c.
  assert (∀ j, 0 ≤ j < 32 → Z.testbit (u32 (Z.shiftl r 1)) j = bool_decide (1 ≤ j) && Z.testbit r (j - 1)) as Hsh.
  { intros j Hj. rewrite u32_testbit, bool_decide_eq_true_2, Z.shiftl_spec by lia. cbn.
    case_bool_decide; [done|]. by rewrite Z.testbit_neg_r by lia. }
  destruct (decide (k < 32)) as [Hlt|Hge].
  - rewrite bool_decide_eq_true_2, u32_testbit, bool_decide_eq_true_2 by lia. cbn [andb].
    assert (Z.testbit (Z.shiftr (reflect r 32) 1) k = Z.testbit (u32 (Z.shiftl r 1)) (31 - k)) as Hs.
    { rewrite Hsh, Z.shiftr_spec, reflect_bits by lia.
      destruct (decide (k = 31)) as [->|]; [done|]. rewrite !bool_decide_eq_true_2 by lia. cbn. f_equal. lia. }
    destruct c; [|by rewrite Hs]. rewrite !Z.lxor_spec, Hs. f_equal.
    rewrite <- reflect_polynomial.
    by rewrite reflect_bits, bool_decide_eq_true_2 by lia.
  - rewrite bool_decide_eq_false_2 by lia. cbn. symmetry.
    assert (Z.testbit (Z.shiftr (reflect r 32) 1) k = false) as Hs.
    { rewrite Z.shiftr_spec, reflect_bits, bool_decide_eq_false_2 by lia. done. }
    destruct c; [|done]. rewrite Z.lxor_spec, Hs. apply Z.bits_above_log2; [done|]. cbn. lia.
Qed.

Lemma crc_step_data r d : (crc_step (r, d)).2 = Z.shiftl d 1.
Proof. reflexivity. Qed.

(** Eight steps consume the bits of the byte, least significant first. *)
#[local] Opaque crc_step crc32_step.

Lemma crc_steps_reflect n r d :
  0 ≤ r < 2 ^ 32 →
  let '(r', d') := Nat.iter n crc_step (r, d) in
  reflect r' 32 = foldl crc32_step (reflect r 32) ((λ i, Z.testbit d (7 - Z.of_nat i)) <$> seq 0 n) ∧
  0 ≤ r' < 2 ^ 32 ∧ d' = Z.shiftl d (Z.of_nat n).
Proof.
  intros Hr. induction n as [|n IH].
  { split; [reflexivity|]. split; [exact Hr|]. symmetry. apply Z.shiftl_0_r. }
  rewrite Nat.iter_succ.
  destruct (Nat.iter n crc_step (r, d)) as [r1 d1]. destruct IH as (Hr1 & Hb1 & ->).
  destruct (crc_step_reflect r1 (Z.shiftl d (Z.of_nat n)) Hb1) as [Hs Hb].
  destruct (crc_step (r1, _)) as [r2 d2] eqn:E. cbn [fst] in Hs, Hb. split; [|split; [exact Hb|]].
  - rewrite seq_S, fmap_app, foldl_app, <- Hr1, Hs, Z.shiftl_spec by lia. reflexivity.
  - assert (d2 = Z.shiftl (Z.shiftl d (Z.of_nat n)) 1) as ->
      by (pose proof (f_equal snd E) as E2; rewrite crc_step_data in E2; by symmetry).
    rewrite Z.shiftl_shiftl by lia. f_equal. lia.
Qed.

Lemma crc_byte_reflect r b :
  0 ≤ r < 2 ^ 32 →
  reflect (crc_byte r b) 32 = foldl crc32_step (reflect r 32) (byte_bits b) ∧
  0 ≤ crc_byte r b < 2 ^ 32.
Proof.
  intros Hr. unfold crc_byte. pose proof (crc_steps_reflect 8 r (reflect b 8) Hr) as H.
  destruct (Nat.iter 8 crc_step (r, reflect b 8)) as [r' d']. destruct H as (H1 & H2 & _).
  cbn [fst]. split; [|exact H2]. rewrite H1.
  enough (((λ i, Z.testbit (reflect b 8) (7 - Z.of_nat i)) <$> seq 0 8) = byte_bits b) as -> by reflexivity.
  unfold byte_bits. apply list_fmap_ext. intros j x Hx. apply lookup_seq in Hx as [-> Hj].
  rewrite reflect_bits, bool_decide_eq_true_2 by lia. cbn [andb]. f_equal. lia.
Qed.

Lemma crc_bytes_reflect buf r :
  0 ≤ r < 2 ^ 32 →
  reflect (foldl crc_byte r buf) 32 = foldl crc32_step (reflect r 32) (buf ≫= byte_bits).
Proof.
  revert r. induction buf as [|b buf IH]; intros r Hr; [done|].
  destruct (crc_byte_reflect r b Hr) as [H1 H2]. cbn [foldl mbind list_bind].
  rewrite IH by done. by rewrite foldl_app, H1.
Qed.

(** C27: calculate_crc32 is the standard CRC-32 of the buffer (the one the GPT headers
    must carry), for every buffer: the code's left-shifting register over reflected
    bytes computes the same value as the reference definition over the bits. *)
Theorem calculate_crc32_standard buf : calculate_crc32 buf = crc32_ref buf.
Proof.
  unfold calculate_crc32, crc32_ref. rewrite crc_bytes_reflect by lia. done.
Qed.

#[local] Transparent reflect crc_step crc32_step.

(** The check value of the standard: the CRC-32 of "123456789" is 0xCBF43926. *)
Example crc32_check_value :
  calculate_crc32 [0x31; 0x32; 0x33; 0x34; 0x35; 0x36; 0x37; 0x38; 0x39] = 0xCBF43926.
Proof. reflexivity. Qed.
