(* ===== verification/Mmc.v ===== *)
(** The eMMC card as the boot loader uses it (src/bootable/lk/platform/msm_shared/mmc.c).

    [BlockDevice] is the interface to the card driver, which [MmcDriver] models: one transfer to or from the
    card (mmc_boot_read_from_card, mmc_boot_write_to_card) and the erase commands
    (mmc_erase_card), each with its status.  A read that fails may leave anything in
    the buffer.  [mmc_write] and [mmc_read] are the functions that the parser, the
    boot image code and fastboot call.  [ram_disk] is an instance that stores the
    bytes in memory. *)
From Stdlib Require Import ZArith.
From stdpp Require Import base numbers list.
From S2P Require Import Prelude Bytes.

Definition MMC_BOOT_E_SUCCESS : Z := 0.
Definition MMC_BOOT_E_FAILURE : Z := 1.
Definition MMC_BOOT_E_INVAL : Z := 3.

Class BlockDevice (D : Type) := {
  capacity : D → Z;  (* mmc_card.capacity, in bytes *)
  read_from_card : D → Z → nat → Z * buffer;
  write_to_card : D → Z → list Z → Z * D;
  erase_card : D → Z → Z → Z * D;
}.

(** What the driver guarantees: a transfer fills the buffer it is given with bytes,
    and the capacity of the card does not change. *)
Class BlockDeviceLaws (D : Type) `{BlockDevice D} : Prop := {
  read_length d a n : length (read_from_card d a n).2 = n;
  read_bytes d a n : Forall is_byte (read_from_card d a n).2;
  write_capacity d a bs : capacity (write_to_card d a bs).2 = capacity d;
  erase_capacity d a n : capacity (erase_card d a n).2 = capacity d;
}.

(** A card that keeps what is written to it. *)
Class BlockStore (D : Type) `{BlockDevice D} : Prop :=
  read_written d a bs d' :
    Forall is_byte bs → write_to_card d a bs = (0, d') → read_from_card d' a (length bs) = (0, bs).

Section Mmc.
Context {D : Type} `{BlockDevice D}.

(** [((unsigned)(0xFFFFFF / 512)) * 512], the largest single transfer. *)
Definition WRITE_SIZE : Z := 0xFFFFFF / 512 * 512.

(** [ROUND_TO_PAGE(x, y)]: [((x) + (y)) & (~(y))] on 32 bits *)
Definition ROUND_TO_PAGE (x y : Z) : Z := Z.land (u32 (x + y)) (u32 (Z.lnot y)).

(** The transfers of [mmc_write]: [len] bytes of [buf] from [sptr] on.  [fuel] bounds
    the number of full transfers. *)
Fixpoint mmc_write_loop (fuel : nat) (buf : buffer) (sptr addr offset len : Z) (d : D) : res (Z * D) :=
  if WRITE_SIZE <? len then
    match fuel with
    | O => Fault
    | S fuel =>
        bs ← slice buf sptr (Z.to_nat WRITE_SIZE);
        let '(val, d) := write_to_card d (u64 (addr + offset)) bs in
        if negb (val =? 0) then Ok (val, d)
        else mmc_write_loop fuel buf (sptr + WRITE_SIZE) addr (u32 (offset + WRITE_SIZE))
               (u32 (len - WRITE_SIZE)) d
    end
  else if negb (len =? 0) then
    bs ← slice buf sptr (Z.to_nat len);
    Ok (write_to_card d (u64 (addr + offset)) bs)
  else Ok (0, d).

(** [in] is the address [off] in [buf]; 2^32 / WRITE_SIZE = 256 transfers are enough. *)
Definition mmc_write (data_addr data_len : Z) (buf : buffer) (off : Z) (d : D) : res (Z * D) :=
  let data_len := if negb (data_len mod 512 =? 0) then ROUND_TO_PAGE data_len 511 else data_len in
  mmc_write_loop 257 buf off data_addr 0 data_len d.

Definition mmc_read (data_addr : Z) (data_len : nat) (d : D) : Z * buffer :=
  read_from_card d data_addr data_len.

(** Rounding up to a power of two. *)
Lemma round_to_page_pow2 x k :
  0 ≤ k → 0 ≤ x → x + (2 ^ k - 1) < 2 ^ 32 →
  ROUND_TO_PAGE x (2 ^ k - 1) = (x + (2 ^ k - 1)) / 2 ^ k * 2 ^ k.
Proof.
  intros Hk H0 H1. unfold ROUND_TO_PAGE. assert (0 < 2 ^ k) by (apply Z.pow_pos_nonneg; lia).
  rewrite u32_small by lia. rewrite <- Z.shiftr_div_pow2, <- Z.shiftl_mul_pow2, <- Z.ldiff_ones_r by lia.
  rewrite Z.ones_equiv, Z.ldiff_land, <- Z.sub_1_r. apply Z.bits_inj_iff'. intros i Hi. rewrite !Z.land_spec.
  destruct (decide (i < 32)).
  - unfold u32. by rewrite Z.mod_pow2_bits_low by lia.
  - rewrite (bits_above_32 (x + (2 ^ k - 1)) i) by lia. done.
Qed.

Lemma round_to_page_sector x : 0 ≤ x → x + 511 < 2 ^ 32 → ROUND_TO_PAGE x 511 = (x + 511) / 512 * 512.
Proof. apply (round_to_page_pow2 x 9). lia. Qed.

(** A single sector-aligned transfer, as the partition code makes them. *)
Lemma mmc_write_one addr len buf off d :
  0 < len ≤ WRITE_SIZE → len mod 512 = 0 →
  mmc_write addr len buf off d =
    bs ← slice buf off (Z.to_nat len); Ok (write_to_card d (u64 addr) bs).
Proof.
  intros Hl Hm. unfold mmc_write. rewrite Hm. cbn [negb Z.eqb mmc_write_loop].
  rewrite (proj2 (Z.ltb_ge _ _)) by lia. rewrite (proj2 (Z.eqb_neq _ _)) by lia.
  cbn [negb]. by rewrite Z.add_0_r.
Qed.

Lemma mmc_write_rounds len :
  0 ≤ len → len + 511 < 2 ^ 32 →
  (if negb (len mod 512 =? 0) then ROUND_TO_PAGE len 511 else len) = (len + 511) / 512 * 512.
Proof.
  intros Hl Hw. destruct (Z.eqb_spec (len mod 512) 0) as [E|E]; cbn [negb].
  - Z.div_mod_to_equations. lia.
  - by apply round_to_page_sector.
Qed.

Lemma mmc_write_ok addr len buf off d :
  0 ≤ len → len + 511 < 2 ^ 32 → 0 ≤ off →
  off + (len + 511) / 512 * 512 ≤ Z.of_nat (length buf) →
  ∃ r, mmc_write addr len buf off d = Ok r.
Proof.
  intros Hl Hw Ho Hb. unfold mmc_write.
  rewrite mmc_write_rounds by done.
  set (l' := (len + 511) / 512 * 512) in *.
  assert (0 ≤ l' ≤ 257 * WRITE_SIZE) as Hl'.
  { unfold WRITE_SIZE. subst l'. Z.div_mod_to_equations. lia. }
  assert (l' < 2 ^ 32) as H32 by (subst l'; Z.div_mod_to_equations; lia).
  assert (0 < WRITE_SIZE) as HW by reflexivity.
  clearbody l'. clear len Hl Hw. change 257 with (Z.of_nat 257) in Hl'. generalize 0 as o.
  revert l' off d Ho Hb Hl' H32. generalize 257%nat as fuel.
  induction fuel as [|fuel IH]; intros l' off d Ho Hb Hl' H32 o; cbn [mmc_write_loop].
  - rewrite (proj2 (Z.ltb_ge _ _)) by lia. case_match; [|by eexists].
    rewrite (proj2 (slice_ok _ _ _ _)) by (split_and!; [lia|lia|reflexivity]). cbn. by eexists.
  - destruct (Z.ltb_spec WRITE_SIZE l') as [Hlt|Hge].
    + rewrite (proj2 (slice_ok _ _ _ _)) by (split_and!; [lia|unfold WRITE_SIZE in *; lia|reflexivity]).
      cbn [mbind res_bind]. destruct (write_to_card d _ _) as [val d']. case_match; [by eexists|].
      rewrite (u32_small (l' - _)) by (unfold WRITE_SIZE in *; lia).
      apply IH; unfold WRITE_SIZE in *; lia.
    + case_match; [|by eexists].
      rewrite (proj2 (slice_ok _ _ _ _)) by (split_and!; [lia|lia|reflexivity]). cbn. by eexists.
Qed.
(** mmc_write always comes to an end, whatever the length: the loop leaves its
    full transfers behind after at most 256 rounds, so a result that is not the
    driver's can only come from reading past the caller's buffer; with a buffer that
    holds the rounded length it returns the driver's status. *)
Theorem mmc_write_returns addr len buf off d :
  0 ≤ len → len + 511 < 2 ^ 32 → 0 ≤ off →
  off + (len + 511) / 512 * 512 ≤ Z.of_nat (length buf) →
  ∃ r, mmc_write addr len buf off d = Ok r.
Proof. apply mmc_write_ok. Qed.
End Mmc.

(** * A card that records what is written where *)

Record logged (D : Type) := mkLogged { base : D; log : list (Z * Z) }.
Arguments mkLogged {_}. Arguments base {_}. Arguments log {_}.

(** An address and a length for every transfer. *)
#[global] Instance logged_device {D} `{BlockDevice D} : BlockDevice (logged D) := {
  capacity d := capacity (base d);
  read_from_card d := read_from_card (base d);
  write_to_card d a bs :=
    let '(r, d') := write_to_card (base d) a bs in (r, mkLogged d' (log d ++ [(a, Z.of_nat (length bs))]));
  erase_card d a n := let '(r, d') := erase_card (base d) a n in (r, mkLogged d' (log d ++ [(a, n)]));
}.

(** The transfer lies in [lo, hi). *)
Definition within (lo hi : Z) (w : Z * Z) : Prop := lo ≤ w.1 ∧ w.1 + w.2 ≤ hi.

Section Footprint.
Context {D : Type} `{BlockDevice D}.

Lemma mmc_write_loop_footprint fuel buf sptr addr o l (d : logged D) r d' :
  0 ≤ addr → 0 ≤ o → 0 ≤ l → o + l < 2 ^ 32 → addr + o + l ≤ 2 ^ 64 →
  mmc_write_loop fuel buf sptr addr o l d = Ok (r, d') →
  ∃ new, log d' = log d ++ new ∧ Forall (within (addr + o) (addr + o + l)) new.
Proof.
  assert (0 < WRITE_SIZE) as HW by reflexivity.
  revert sptr o l d. induction fuel as [|fuel IH]; intros sptr o l d Ha Ho Hl H32 H64; cbn [mmc_write_loop].
  all: destruct (Z.ltb_spec WRITE_SIZE l) as [Hlt|Hge].
  all: try (destruct (Z.eqb_spec l 0) as [->|Hne]; cbn [negb];
    [by intros [= <- <-]; exists []; rewrite app_nil_r
    |intros (bs & (_ & _ & Hbs)%slice_ok & Hw)%res_bind_ok]).
  1: done.
  2: intros (bs & Hs & Hr)%res_bind_ok.
  1, 3: cbn in Hw; destruct (write_to_card (base d) _ bs) as [r' d1]; injection Hw as <- <-; eexists; (split; [done|]);
    constructor; [|done]; unfold within; cbn [fst snd]; unfold u64; rewrite Z.mod_small by lia;
    assert (Z.of_nat (length bs) ≤ l) by (subst bs; rewrite length_take; lia); lia.
  cbn in Hr. pose proof (length_slice _ _ _ _ Hs) as Hbl.
  destruct (write_to_card (base d) _ bs) as [r' d1]. destruct (negb (r' =? 0)) eqn:Er.
  - injection Hr as <- <-. eexists. split; [done|]. constructor; [|done]. unfold within. cbn [fst snd]. unfold u64.
    rewrite Z.mod_small by lia. lia.
  - rewrite (u32_small (o + WRITE_SIZE)), (u32_small (l - WRITE_SIZE)) in Hr by lia.
    apply IH in Hr as (new & E & Hn); [|lia..]. cbn in E.
    eexists. rewrite E, <- app_assoc. split; [done|]. constructor.
    + unfold within. cbn [fst snd]. unfold u64. rewrite Z.mod_small by lia. lia.
    + eapply Forall_impl; [exact Hn|]. unfold within. intros w Hw. lia.
Qed.

(** mmc_write touches the sectors of its range only. *)
Lemma mmc_write_footprint addr len buf off (d : logged D) r d' :
  0 ≤ addr → 0 ≤ len → len + 511 < 2 ^ 32 → addr + (len + 511) / 512 * 512 ≤ 2 ^ 64 →
  mmc_write addr len buf off d = Ok (r, d') →
  ∃ new, log d' = log d ++ new ∧ Forall (within addr (addr + (len + 511) / 512 * 512)) new.
Proof.
  intros Ha Hl Hw H64. unfold mmc_write. rewrite mmc_write_rounds by done. intros Hr.
  assert ((len + 511) / 512 * 512 < 2 ^ 32 ∧ 0 ≤ (len + 511) / 512 * 512) as [? ?] by (Z.div_mod_to_equations; lia).
  apply mmc_write_loop_footprint in Hr; [|lia..]. by rewrite !Z.add_0_r in Hr.
Qed.
End Footprint.

(** * A card in memory *)

Record ram_disk := mkRam { ram : list Z }.

(** A cell holds a byte. *)
Definition ram_read (d : ram_disk) (a : Z) (n : nat) : Z * buffer :=
  match slice (ram d) a n with
  | Ok bs => (0, (λ b, b mod 256) <$> bs)
  | _ => (1, replicate n 0)
  end.

Definition ram_write (d : ram_disk) (a : Z) (bs : list Z) : Z * ram_disk :=
  match store (ram d) a bs with Ok b => (0, mkRam b) | _ => (1, d) end.

#[global] Instance ram_disk_device : BlockDevice ram_disk := {
  capacity d := Z.of_nat (length (ram d));
  read_from_card := ram_read;
  write_to_card := ram_write;
  erase_card d a n := ram_write d a (replicate (Z.to_nat n) 0);
}.

Lemma ram_write_length d a bs : length (ram (ram_write d a bs).2) = length (ram d).
Proof. unfold ram_write. destruct (store _ _ _) as [b| |] eqn:E; [|done..]. by apply store_length in E. Qed.

#[global] Instance ram_disk_laws : BlockDeviceLaws ram_disk.
Proof.
  split; intros d a n; cbn.
  - unfold ram_read. destruct (slice _ _ _) as [l| |] eqn:E; cbn; rewrite ?length_replicate; [|done..].
    rewrite length_fmap. by apply length_slice in E.
  - unfold ram_read. destruct (slice _ _ _) as [l| |] eqn:E; cbn; [|by apply Forall_replicate; unfold is_byte; lia..].
    apply Forall_fmap, Forall_true. intros x. apply Z.mod_pos_bound. lia.
  - by rewrite ram_write_length.
  - by rewrite ram_write_length.
Qed.

#[global] Instance ram_disk_store : BlockStore ram_disk.
Proof.
  intros d a bs d' Hb Hw. cbn in *. unfold ram_write in Hw. destruct (store (ram d) a bs) as [b| |] eqn:E; [|done..].
  injection Hw as <-. unfold ram_read. cbn [ram]. rewrite (slice_store_same _ _ _ _ E). f_equal. clear E.
  induction Hb as [|x bs Hx Hb IH]; [done|]. rewrite fmap_cons, IH. f_equal. by apply Z.mod_small.
Qed.

Lemma mmc_write_returns_witness :
  ∃ r, mmc_write 0 5 (replicate 512 7) 0 (mkRam (replicate 512 0)) = Ok r.
Proof. apply (mmc_write_returns 0 5 (replicate 512 7) 0 (mkRam (replicate 512 0))); [lia|lia|lia|]. vm_compute. discriminate. Defined.
