(* ===== verification/MmcDriver.v ===== *)
(** The driver of the SD/MMC controller and of the card behind it
    (src/bootable/lk/platform/msm_shared/mmc.c and include/mmc.h), down to the registers
    of the controller.

    [Mci] is the hardware: 32-bit registers that are read and written by their offset from
    the base of the slot, delays and clocks.  A function of the driver is a computation
    [M A]: it works on the hardware and on the static variables of mmc.c and returns a
    value, does something undefined ([Undef]) or still polls after [polls] rounds of a
    polling loop ([Spin]); its state so far is kept in every case.  mmc_host and mmc_card
    are the only objects that host and card ever point to, so the checks for NULL do not
    appear.  MMC_BOOT_ADM is set by no target: data moves through the FIFO.  [uninit] is
    what an uninitialised variable, or the result of [return;], holds. *)
From Stdlib Require Import ZArith.
From stdpp Require Import base numbers list.
From S2P Require Import Prelude Bytes Mmc.

(** * Registers and bits (mmc.h) *)

Definition MMC_BOOT_MCI_POWER : Z := 0x000.
Definition MMC_BOOT_MCI_PWR_UP : Z := 0x02.
Definition MMC_BOOT_MCI_PWR_ON : Z := 0x03.
Definition MMC_BOOT_MCI_CLK : Z := 0x004.
Definition MMC_BOOT_MCI_CLK_WIDEBUS_MODE : Z := Z.shiftl 3 10.
Definition MMC_BOOT_MCI_CLK_WIDEBUS_1_BIT : Z := 0.
Definition MMC_BOOT_MCI_CLK_WIDEBUS_4_BIT : Z := Z.shiftl 2 10.
Definition MMC_BOOT_MCI_CLK_WIDEBUS_8_BIT : Z := Z.shiftl 1 10.
Definition MMC_BOOT_MCI_CLK_ENA_FLOW : Z := Z.shiftl 1 12.
Definition MMC_BOOT_BUS_WIDTH_1_BIT : Z := 0.
Definition MMC_BOOT_BUS_WIDTH_4_BIT : Z := 2.
Definition MMC_BOOT_BUS_WIDTH_8_BIT : Z := 3.
Definition MMC_BOOT_MCI_ARGUMENT : Z := 0x008.
Definition MMC_BOOT_MCI_CMD : Z := 0x00C.
Definition MMC_BOOT_MCI_CMD_RESPONSE : Z := Z.shiftl 1 6.
Definition MMC_BOOT_MCI_CMD_LONGRSP : Z := Z.shiftl 1 7.
Definition MMC_BOOT_MCI_CMD_PENDING : Z := Z.shiftl 1 9.
Definition MMC_BOOT_MCI_CMD_ENABLE : Z := Z.shiftl 1 10.
Definition MMC_BOOT_MCI_CMD_PROG_ENA : Z := Z.shiftl 1 11.
Definition MMC_BOOT_MCI_RESP_CMD : Z := 0x010.
Definition MMC_BOOT_MCI_RESP_0 : Z := 0x014.
Definition MMC_BOOT_MCI_DATA_TIMER : Z := 0x024.
Definition MMC_BOOT_MCI_DATA_LENGTH : Z := 0x028.
Definition MMC_BOOT_MCI_DATA_CTL : Z := 0x02C.
Definition MMC_BOOT_MCI_DATA_ENABLE : Z := Z.shiftl 1 0.
Definition MMC_BOOT_MCI_DATA_DIR : Z := Z.shiftl 1 1.
Definition MMC_BOOT_MCI_BLKSIZE_POS : Z := 4.
Definition MMC_BOOT_MCI_STATUS : Z := 0x034.
Definition MMC_BOOT_MCI_STAT_CMD_CRC_FAIL : Z := Z.shiftl 1 0.
Definition MMC_BOOT_MCI_STAT_DATA_CRC_FAIL : Z := Z.shiftl 1 1.
Definition MMC_BOOT_MCI_STAT_CMD_TIMEOUT : Z := Z.shiftl 1 2.
Definition MMC_BOOT_MCI_STAT_DATA_TIMEOUT : Z := Z.shiftl 1 3.
Definition MMC_BOOT_MCI_STAT_TX_UNDRUN : Z := Z.shiftl 1 4.
Definition MMC_BOOT_MCI_STAT_RX_OVRRUN : Z := Z.shiftl 1 5.
Definition MMC_BOOT_MCI_STAT_CMD_RESP_END : Z := Z.shiftl 1 6.
Definition MMC_BOOT_MCI_STAT_CMD_SENT : Z := Z.shiftl 1 7.
Definition MMC_BOOT_MCI_STAT_DATA_END : Z := Z.shiftl 1 8.
Definition MMC_BOOT_MCI_STAT_START_BIT_ERR : Z := Z.shiftl 1 9.
Definition MMC_BOOT_MCI_STAT_DATA_BLK_END : Z := Z.shiftl 1 10.
Definition MMC_BOOT_MCI_STAT_CMD_ACTIVE : Z := Z.shiftl 1 11.
Definition MMC_BOOT_MCI_STAT_TX_FIFO_HFULL : Z := Z.shiftl 1 14.
Definition MMC_BOOT_MCI_STAT_RX_FIFO_HFULL : Z := Z.shiftl 1 15.
Definition MMC_BOOT_MCI_STAT_TX_FIFO_FULL : Z := Z.shiftl 1 16.
Definition MMC_BOOT_MCI_STAT_RX_DATA_AVLBL : Z := Z.shiftl 1 21.
Definition MMC_BOOT_MCI_STAT_PROG_DONE : Z := Z.shiftl 1 23.
Definition MMC_BOOT_MCI_STAT_ATA_CMD_CMPL : Z := Z.shiftl 1 24.
Definition MMC_BOOT_MCI_STAT_CCS_TIMEOUT : Z := Z.shiftl 1 26.
Definition MMC_BOOT_MCI_SDIO_INTR_CLR : Z := Z.shiftl 1 22.
Definition MMC_BOOT_MCI_STATIC_STATUS : Z :=
  foldr Z.lor 0
    [MMC_BOOT_MCI_STAT_CMD_CRC_FAIL; MMC_BOOT_MCI_STAT_DATA_CRC_FAIL; MMC_BOOT_MCI_STAT_CMD_TIMEOUT;
     MMC_BOOT_MCI_STAT_DATA_TIMEOUT; MMC_BOOT_MCI_STAT_TX_UNDRUN; MMC_BOOT_MCI_STAT_RX_OVRRUN;
     MMC_BOOT_MCI_STAT_CMD_RESP_END; MMC_BOOT_MCI_STAT_CMD_SENT; MMC_BOOT_MCI_STAT_DATA_END;
     MMC_BOOT_MCI_STAT_START_BIT_ERR; MMC_BOOT_MCI_STAT_DATA_BLK_END; MMC_BOOT_MCI_SDIO_INTR_CLR;
     MMC_BOOT_MCI_STAT_PROG_DONE; MMC_BOOT_MCI_STAT_ATA_CMD_CMPL; MMC_BOOT_MCI_STAT_CCS_TIMEOUT].
Definition MMC_BOOT_MCI_CLEAR : Z := 0x038.
Definition MMC_BOOT_MCI_FIFO : Z := 0x080.
Definition MMC_BOOT_CARD_STATUS (x : Z) : Z := Z.land (Z.shiftr x 9) 0x0F.
Definition MMC_BOOT_TRAN_STATE : Z := 4.
Definition MMC_BOOT_PROG_STATE : Z := 7.

Definition CMD0_GO_IDLE_STATE : Z := 0.
Definition CMD1_SEND_OP_COND : Z := 1.
Definition CMD2_ALL_SEND_CID : Z := 2.
Definition CMD3_SEND_RELATIVE_ADDR : Z := 3.
Definition CMD6_SWITCH_FUNC : Z := 6.
Definition ACMD6_SET_BUS_WIDTH : Z := 6.
Definition CMD7_SELECT_DESELECT_CARD : Z := 7.
Definition CMD8_SEND_EXT_CSD : Z := 8.
Definition CMD8_SEND_IF_COND : Z := 8.
Definition CMD9_SEND_CSD : Z := 9.
Definition CMD12_STOP_TRANSMISSION : Z := 12.
Definition CMD13_SEND_STATUS : Z := 13.
Definition CMD16_SET_BLOCKLEN : Z := 16.
Definition CMD17_READ_SINGLE_BLOCK : Z := 17.
Definition CMD18_READ_MULTIPLE_BLOCK : Z := 18.
Definition CMD23_SET_BLOCK_COUNT : Z := 23.
Definition CMD24_WRITE_SINGLE_BLOCK : Z := 24.
Definition CMD25_WRITE_MULTIPLE_BLOCK : Z := 25.
Definition CMD28_SET_WRITE_PROTECT : Z := 28.
Definition CMD29_CLEAR_WRITE_PROTECT : Z := 29.
Definition CMD31_SEND_WRITE_PROT_TYPE : Z := 31.
Definition CMD35_ERASE_GROUP_START : Z := 35.
Definition CMD36_ERASE_GROUP_END : Z := 36.
Definition CMD38_ERASE : Z := 38.
Definition ACMD41_SEND_OP_COND : Z := 41.
Definition CMD55_APP_CMD : Z := 55.

Definition MMC_BOOT_OCR_27_36 : Z := Z.shiftl 0x1FF 15.
Definition MMC_BOOT_OCR_SEC_MODE : Z := Z.shiftl 2 29.
Definition MMC_BOOT_OCR_BUSY : Z := Z.shiftl 1 31.
Definition MMC_BOOT_CMD_BCAST : Z := Z.shiftl 1 0.
Definition MMC_BOOT_CMD_BCAST_W_RESP : Z := Z.shiftl 1 1.
Definition MMC_BOOT_CMD_ADDRESS : Z := Z.shiftl 1 2.
Definition MMC_BOOT_RESP_NONE : Z := 0.
Definition MMC_BOOT_RESP_R1 : Z := Z.shiftl 1 0.
Definition MMC_BOOT_RESP_R1B : Z := Z.shiftl 1 1.
Definition MMC_BOOT_RESP_R2 : Z := Z.shiftl 1 2.
Definition MMC_BOOT_RESP_R3 : Z := Z.shiftl 1 3.
Definition MMC_BOOT_RESP_R6 : Z := Z.shiftl 1 6.
Definition MMC_BOOT_RESP_R7 : Z := Z.shiftl 1 7.
Definition MMC_BOOT_R1_WP_ERASE_SKIP : Z := Z.shiftl 1 15.
Definition MMC_BOOT_R1_BLOCK_LEN_ERR : Z := Z.shiftl 1 29.
Definition MMC_BOOT_R1_ADDR_ERR : Z := Z.shiftl 1 30.
Definition MMC_BOOT_R1_OUT_OF_RANGE : Z := Z.shiftl 1 31.
Definition MMC_BOOT_E_TIMEOUT : Z := 2.
Definition MMC_BOOT_E_CRC_FAIL : Z := 4.
Definition MMC_BOOT_E_CMD_INDX_MISMATCH : Z := 6.
Definition MMC_BOOT_E_NOT_SUPPORTED : Z := 8.
Definition MMC_BOOT_E_CARD_BUSY : Z := 9.
Definition MMC_BOOT_E_BLOCKLEN_ERR : Z := 14.
Definition MMC_BOOT_E_ADDRESS_ERR : Z := 15.
Definition MMC_BOOT_E_DATA_CRC_FAIL : Z := 16.
Definition MMC_BOOT_E_DATA_TIMEOUT : Z := 17.
Definition MMC_BOOT_E_RX_OVRRUN : Z := 18.
Definition MMC_BOOT_ACCESS_WRITE : Z := 0x3.
Definition MMC_BOOT_EXT_USER_WP : Z := 171.
Definition MMC_BOOT_EXT_ERASE_GROUP_DEF : Z := 175.
Definition MMC_BOOT_EXT_CMMC_BUS_WIDTH : Z := 183.
Definition MMC_BOOT_EXT_CMMC_HS_TIMING : Z := 185.
Definition MMC_BOOT_EXT_HC_WP_GRP_SIZE : Z := 221.
Definition MMC_BOOT_EXT_HC_ERASE_GRP_SIZE : Z := 224.
Definition MMC_BOOT_US_PERM_WP_EN : Z := 2.
Definition MMC_BOOT_US_PWR_WP_DIS : Z := 3.
Definition MMC_BOOT_US_PERM_WP_DIS : Z := Z.shiftl 1 4.
Definition MMC_BOOT_US_PWR_WP_EN : Z := 1.
Definition MMC_BOOT_SD_HC_VOLT_SUPPLIED : Z := 0x000001AA.
Definition MMC_BOOT_SD_NEG_OCR : Z := 0x00FF8000.
Definition MMC_BOOT_SD_HC_HCS : Z := 0x40000000.
Definition MMC_BOOT_SD_DEV_READY : Z := 0x80000000.
Definition MMC_BOOT_SD_SWITCH_HS : Z := 0x80FFFFF1.
Definition MMC_BOOT_XFER_MODE_BLOCK : Z := 0.
Definition MMC_BOOT_XFER_MODE_STREAM : Z := 1.
Definition MMC_BOOT_TYPE_STD_SD : Z := 0.
Definition MMC_BOOT_TYPE_SDHC : Z := 1.
Definition MMC_BOOT_TYPE_MMCHC : Z := 3.
Definition MMC_BOOT_TYPE_STD_MMC : Z := 4.
Definition MMC_BOOT_STATUS_INACTIVE : Z := 0.
Definition MMC_BOOT_STATUS_ACTIVE : Z := 1.
Definition MMC_BOOT_XFER_MULTI_BLOCK : Z := 0.
Definition MMC_BOOT_XFER_SINGLE_BLOCK : Z := 1.
Definition MMC_RCA : Z := 2.
Definition MMC_BOOT_MAX_COMMAND_RETRY : nat := 1000.
Definition MMC_BOOT_RD_BLOCK_LEN : Z := 512.
Definition MMC_BOOT_WR_BLOCK_LEN : Z := 512.
Definition MMC_BOOT_MCI_FIFO_DEPTH : nat := 16.
Definition MMC_BOOT_MCI_HFIFO_COUNT : nat := MMC_BOOT_MCI_FIFO_DEPTH / 2.
Definition MMC_BOOT_MCI_FIFO_SIZE : nat := MMC_BOOT_MCI_FIFO_DEPTH * 4.
Definition MMC_CLK_400KHZ : Z := 400000.
Definition MMC_CLK_50MHZ : Z := 49152000.

(** [x & m], used as a condition. *)
Definition any (x m : Z) : bool := negb (Z.land x m =? 0).

Definition IS_RESP_136_BITS (x : Z) : bool := any x MMC_BOOT_RESP_R2.
Definition IS_ADDR_OUT_OF_RANGE (resp : Z) : bool := any (Z.shiftr resp 31) 0x01.

(** * Structures *)

Record mmc_boot_command := mkCommand {
  cmd_index : Z; argument : Z; cmd_type : Z; resp : list Z; resp_type : Z; prg_enabled : Z; xfer_mode : Z }.

Record mmc_boot_csd := mkCsd {
  cmmc_structure : Z; spec_vers : Z; card_cmd_class : Z; write_blk_len : Z; read_blk_len : Z; r2w_factor : Z;
  sector_size : Z; c_size_mult : Z; c_size : Z; nsac_clk_cycle : Z; taac_ns : Z; tran_speed : Z;
  erase_grp_size : Z; erase_grp_mult : Z; wp_grp_size : Z; wp_grp_enable : Z; perm_wp : Z; temp_wp : Z;
  erase_blk_len : Z; read_blk_misalign : Z; write_blk_misalign : Z; read_blk_partial : Z; write_blk_partial : Z }.

Record mmc_boot_cid := mkCid {
  mid : Z; oid : Z; pnm : list Z; prv : Z; psn : Z; month : Z; year : Z }.

Record mmc_boot_card := mkCard {
  rca : Z; ocr : Z; card_capacity : Z; type : Z; status : Z; rd_timeout_ns : Z; wr_timeout_ns : Z;
  rd_block_len : Z; wr_block_len : Z; cid : mmc_boot_cid; csd : mmc_boot_csd }.

Record mmc_boot_host := mkHost { mclk_rate : Z; host_ocr : Z; cmd_retry : nat }.

Definition no_csd : mmc_boot_csd := mkCsd 0 0 0 0 0 0 0 0 0 0 0 0 0 0 0 0 0 0 0 0 0 0 0.
Definition no_cid : mmc_boot_cid := mkCid 0 0 (replicate 7 0) 0 0 0 0.
Definition no_card : mmc_boot_card := mkCard 0 0 0 0 0 0 0 0 0 no_cid no_csd.

Definition set_rca v c := mkCard v (ocr c) (card_capacity c) (type c) (status c) (rd_timeout_ns c) (wr_timeout_ns c)
  (rd_block_len c) (wr_block_len c) (cid c) (csd c).
Definition set_ocr v c := mkCard (rca c) v (card_capacity c) (type c) (status c) (rd_timeout_ns c) (wr_timeout_ns c)
  (rd_block_len c) (wr_block_len c) (cid c) (csd c).
Definition set_capacity v c := mkCard (rca c) (ocr c) v (type c) (status c) (rd_timeout_ns c) (wr_timeout_ns c)
  (rd_block_len c) (wr_block_len c) (cid c) (csd c).
Definition set_type v c := mkCard (rca c) (ocr c) (card_capacity c) v (status c) (rd_timeout_ns c) (wr_timeout_ns c)
  (rd_block_len c) (wr_block_len c) (cid c) (csd c).
Definition set_status v c := mkCard (rca c) (ocr c) (card_capacity c) (type c) v (rd_timeout_ns c) (wr_timeout_ns c)
  (rd_block_len c) (wr_block_len c) (cid c) (csd c).
Definition set_rd_timeout v c := mkCard (rca c) (ocr c) (card_capacity c) (type c) (status c) v (wr_timeout_ns c)
  (rd_block_len c) (wr_block_len c) (cid c) (csd c).
Definition set_wr_timeout v c := mkCard (rca c) (ocr c) (card_capacity c) (type c) (status c) (rd_timeout_ns c) v
  (rd_block_len c) (wr_block_len c) (cid c) (csd c).
Definition set_block_lens r w c := mkCard (rca c) (ocr c) (card_capacity c) (type c) (status c) (rd_timeout_ns c)
  (wr_timeout_ns c) r w (cid c) (csd c).
Definition set_cid v c := mkCard (rca c) (ocr c) (card_capacity c) (type c) (status c) (rd_timeout_ns c) (wr_timeout_ns c)
  (rd_block_len c) (wr_block_len c) v (csd c).
Definition set_csd v c := mkCard (rca c) (ocr c) (card_capacity c) (type c) (status c) (rd_timeout_ns c) (wr_timeout_ns c)
  (rd_block_len c) (wr_block_len c) (cid c) v.

Definition is_sd (c : mmc_boot_card) : bool := (type c =? MMC_BOOT_TYPE_SDHC) || (type c =? MMC_BOOT_TYPE_STD_SD).
Definition is_hc (c : mmc_boot_card) : bool := (type c =? MMC_BOOT_TYPE_MMCHC) || (type c =? MMC_BOOT_TYPE_SDHC).

(** * The registers CSD and CID *)

Definition word_at (array : list Z) (i : Z) : Z := nth (Z.to_nat i) array 0.

(** Up to 32 bits from a register of 32-bit words, the least significant word first. *)
Definition UNPACK_BITS (array : list Z) (start len size_of : Z) : Z :=
  let indx := start / size_of in
  let offset := start mod size_of in
  let mask := u32 ((if len <? size_of then Z.shiftl 1 len else 0) - 1) in
  let unpck := Z.shiftr (word_at array indx) offset in
  let indx2 := (start + len - 1) / size_of in
  let unpck := if indx <? indx2 then Z.lor unpck (u32 (Z.shiftl (word_at array indx2) (size_of - offset))) else unpck in
  Z.land unpck mask.

Definition taac_unit : list Z := [1; 10; 100; 1000; 10000; 100000; 1000000; 10000000].
Definition taac_value : list Z := [0; 10; 12; 13; 15; 20; 25; 30; 35; 40; 45; 50; 55; 60; 70; 80].
Definition xfer_rate_unit : list Z := [100; 1000; 10000; 100000; 0; 0; 0; 0].
Definition xfer_rate_value : list Z := [0; 10; 12; 13; 15; 20; 26; 30; 35; 40; 45; 52; 55; 60; 70; 80].

(** An entry of each table, multiplied; all products fit in 32 bits. *)
Definition scaled (value unit : list Z) (raw : list Z) (pos : Z) : Z :=
  word_at value (UNPACK_BITS raw (pos + 3) 4 32) * word_at unit (UNPACK_BITS raw pos 3 32) / 10.

(** Block lengths 9 to 11 of an SD card, 512 otherwise. *)
Definition sd_blk_len (mmc_temp : Z) : Z := if (8 <? mmc_temp) && (mmc_temp <? 12) then Z.shiftl 1 mmc_temp else 512.

(** [(1 << (c_size_mult + 2)) * (c_size + 1) * read_blk_len] *)
Definition csd_bytes (mult size blk : Z) : Z := u32 (u32 (Z.shiftl 1 (mult + 2) * (size + 1)) * blk).

(** mmc_boot_decode_and_save_csd: the CSD and the capacity in bytes.  The fields that a
    branch does not set keep what is on the stack. *)
Definition decode_csd (uninit : Z) (c : mmc_boot_card) (ext_csd_buf : buffer) (raw : list Z) : mmc_boot_csd * Z :=
  let bits start len := UNPACK_BITS raw start len 32 in
  let structure := bits 126 2 in
  if is_sd c then
    if structure =? 1 then
      let size := bits 48 22 in
      (mkCsd structure uninit (bits 84 12) 512 512 0x2 uninit 0 size (bits 104 8 * 100)
         (scaled taac_value taac_unit raw 112) (scaled xfer_rate_value xfer_rate_unit raw 96)
         uninit uninit 0 0 (bits 13 1) (bits 12 1) 1 0 0 0 0,
       u32 ((1 + size) * 512 * 1024))
    else
      let rlen := sd_blk_len (bits 80 4) in
      let mult := bits 47 3 in
      let size := bits 62 12 in
      (mkCsd structure uninit (bits 84 12) (sd_blk_len (bits 22 4)) rlen (bits 26 3) (bits 39 7 + 1) mult size
         (bits 104 8 * 100) (scaled taac_value taac_unit raw 112) (scaled xfer_rate_value xfer_rate_unit raw 96)
         uninit uninit (bits 32 7) (bits 31 1) (bits 13 1) (bits 12 1) (bits 46 1) (bits 77 1) (bits 78 1) (bits 79 1)
         (bits 21 1),
       csd_bytes mult size rlen)
  else
    let rlen := Z.shiftl 1 (bits 80 4) in
    let mult := bits 47 3 in
    let size := bits 62 12 in
    (mkCsd structure (bits 122 4) (bits 84 12) (Z.shiftl 1 (bits 22 4)) rlen (bits 26 3) uninit mult size
       (bits 104 8 * 100) (scaled taac_value taac_unit raw 112) 0 (bits 42 5) (bits 37 5) (bits 32 5) (bits 31 1)
       (bits 13 1) (bits 12 1) (uninit mod 2) (bits 77 1) (bits 78 1) (bits 79 1) (bits 21 1),
     if negb (size =? 0xFFF) then csd_bytes mult size rlen
     else
       (* the sum of int shifts is an int, widened with its sign *)
       let ext i := word_at ext_csd_buf i in
       let sec_count := s32 (Z.lor (Z.shiftl (ext 215) 24)
                          (Z.lor (Z.shiftl (ext 214) 16) (Z.lor (Z.shiftl (ext 213) 8) (ext 212)))) in
       u64 (u64 sec_count * 512)).

(** mmc_boot_decode_and_save_cid *)
Definition decode_cid (c : mmc_boot_card) (raw : list Z) : mmc_boot_cid :=
  let bits start len := UNPACK_BITS raw start len 32 in
  let name n := (λ i, bits (104 - 8 * (Z.of_nat i + 1)) 8) <$> seq 0 n in
  if is_sd c then
    mkCid (bits 120 8) (bits 104 16) (name 5%nat ++ [0; 0]) (bits 56 8) (bits 24 32) (bits 8 4) (bits 12 8 + 2000)
  else
    mkCid (bits 120 8) (bits 104 16) (name 6%nat ++ [0]) (bits 48 8) (bits 16 32) (bits 8 4) (bits 12 4 + 1997).

(** * Computations of the driver *)

Class Mci (H : Type) := {
  reg_read : Z → H → Z * H;
  reg_write : Z → Z → H → H;
  delay : Z → H → H;               (* udelay, mdelay, in microseconds *)
  clock_init : H → H;              (* clock_init_mmc(mmc_slot) *)
  clock_config : Z → H → H;        (* clock_config_mmc(mmc_slot, rate) *)
}.

Inductive outcome (A : Type) : Type :=
  | Ret (a : A)
  | Undef   (* division by zero, an access outside a buffer *)
  | Spin.   (* the hardware does not come forward *)
Arguments Ret {_} _.
Arguments Undef {_}.
Arguments Spin {_}.

(** The hardware and the static variables of mmc.c. *)
Record mmc_state (H : Type) := mkMmc {
  hw : H; mmc_host : mmc_boot_host; mmc_card : mmc_boot_card; ext_csd_buf : buffer; wp_status_buf : buffer }.
Arguments mkMmc {_}. Arguments hw {_}. Arguments mmc_host {_}. Arguments mmc_card {_}. Arguments ext_csd_buf {_}.
Arguments wp_status_buf {_}.

Definition drv (H A : Type) : Type := mmc_state H → outcome A * mmc_state H.
#[global] Instance drv_ret {H} : MRet (drv H) := λ A a s, (Ret a, s).
#[global] Instance drv_bind {H} : MBind (drv H) := λ A B f m s,
  match m s with
  | (Ret a, s) => f a s
  | (Undef, s) => (Undef, s)
  | (Spin, s) => (Spin, s)
  end.

Section Computations.
Context {H : Type} `{Mci H}.
#[local] Notation M := (drv H).

Definition undef {A} : M A := λ s, (Undef, s).
Definition spin {A} : M A := λ s, (Spin, s).

Definition on_hw (f : H → H) : M unit := λ s,
  (Ret tt, mkMmc (f (hw s)) (mmc_host s) (mmc_card s) (ext_csd_buf s) (wp_status_buf s)).
Definition readl (off : Z) : M Z := λ s,
  let '(v, h) := reg_read off (hw s) in
  (Ret v, mkMmc h (mmc_host s) (mmc_card s) (ext_csd_buf s) (wp_status_buf s)).
Definition writel (v off : Z) : M unit := on_hw (reg_write off v).
Definition udelay (us : Z) : M unit := on_hw (delay us).
Definition mdelay (ms : Z) : M unit := on_hw (delay (1000 * ms)).

Definition host : M mmc_boot_host := λ s, (Ret (mmc_host s), s).
Definition card : M mmc_boot_card := λ s, (Ret (mmc_card s), s).
Definition ext_csd : M buffer := λ s, (Ret (ext_csd_buf s), s).
Definition set_host (v : mmc_boot_host) : M unit := λ s,
  (Ret tt, mkMmc (hw s) v (mmc_card s) (ext_csd_buf s) (wp_status_buf s)).
Definition set_card (v : mmc_boot_card) : M unit := λ s,
  (Ret tt, mkMmc (hw s) (mmc_host s) v (ext_csd_buf s) (wp_status_buf s)).
Definition upd_card (f : mmc_boot_card → mmc_boot_card) : M unit := c ← card; set_card (f c).
Definition set_ext_csd (v : buffer) : M unit := λ s,
  (Ret tt, mkMmc (hw s) (mmc_host s) (mmc_card s) v (wp_status_buf s)).
Definition set_wp_status (v : buffer) : M unit := λ s,
  (Ret tt, mkMmc (hw s) (mmc_host s) (mmc_card s) (ext_csd_buf s) v).

(** [mmc_ret = m; if (mmc_ret != MMC_BOOT_E_SUCCESS) return f(mmc_ret); k] *)
Definition on_success {A} (f : Z → M A) (m : M Z) (k : M A) : M A :=
  mmc_ret ← m; if mmc_ret =? MMC_BOOT_E_SUCCESS then k else f mmc_ret.
End Computations.

Notation "'TRY' m ; k" := (on_success mret m k) (at level 20, m at level 100, k at level 200, right associativity).

Section Driver.
Context {H : Type} `{Mci H} (polls : nat) (uninit : Z).
#[local] Notation M := (drv H).

(** * Commands *)

(** A command whose other fields memset has cleared. *)
Definition command (index arg ctype rtype : Z) : mmc_boot_command :=
  mkCommand index arg ctype (replicate 4 0) rtype 0 MMC_BOOT_XFER_MODE_BLOCK.
Definition with_resp (l : list Z) (cmd : mmc_boot_command) : mmc_boot_command :=
  mkCommand (cmd_index cmd) (argument cmd) (cmd_type cmd) l (resp_type cmd) (prg_enabled cmd) (xfer_mode cmd).
Definition with_prg (v : Z) (cmd : mmc_boot_command) : mmc_boot_command :=
  mkCommand (cmd_index cmd) (argument cmd) (cmd_type cmd) (resp cmd) (resp_type cmd) v (xfer_mode cmd).
Definition resp0 (cmd : mmc_boot_command) : Z := word_at (resp cmd) 0.

(** The value written to MMC_BOOT_MCI_CMD. *)
Definition command_register (cmd : mmc_boot_command) : Z :=
  let r := cmd_index cmd in
  let r := if negb (cmd_index cmd =? CMD0_GO_IDLE_STATE) then Z.lor r MMC_BOOT_MCI_CMD_RESPONSE else r in
  let r := if IS_RESP_136_BITS (resp_type cmd) then Z.lor r MMC_BOOT_MCI_CMD_LONGRSP else r in
  let r := if xfer_mode cmd =? MMC_BOOT_XFER_MODE_STREAM then Z.lor r MMC_BOOT_MCI_CMD_PENDING else r in
  let r := Z.lor r MMC_BOOT_MCI_CMD_ENABLE in
  if ((cmd_index cmd =? CMD12_STOP_TRANSMISSION) || (cmd_index cmd =? CMD13_SEND_STATUS)) && negb (prg_enabled cmd =? 0)
  then Z.lor r MMC_BOOT_MCI_CMD_PROG_ENA else r.

Fixpoint wait_cmd_inactive (fuel : nat) : M unit :=
  match fuel with
  | O => spin
  | S fuel =>
      mmc_status ← readl MMC_BOOT_MCI_STATUS;
      if any mmc_status MMC_BOOT_MCI_STAT_CMD_ACTIVE then wait_cmd_inactive fuel else mret tt
  end.

(** MCI_RESP0 to 3 for a long response, MCI_RESP0 otherwise. *)
Definition read_response (cmd : mmc_boot_command) : M mmc_boot_command :=
  if IS_RESP_136_BITS (resp_type cmd) then
    r0 ← readl MMC_BOOT_MCI_RESP_0;
    r1 ← readl (MMC_BOOT_MCI_RESP_0 + 4);
    r2 ← readl (MMC_BOOT_MCI_RESP_0 + 8);
    r3 ← readl (MMC_BOOT_MCI_RESP_0 + 12);
    mret (with_resp [r3; r2; r1; r0] cmd)
  else
    r0 ← readl MMC_BOOT_MCI_RESP_0;
    mret (with_resp (r0 :: drop 1 (resp cmd)) cmd).

(** A response without the index of its command. *)
Definition no_index (rtype : Z) : bool :=
  (rtype =? MMC_BOOT_RESP_R2) || (rtype =? MMC_BOOT_RESP_R3) || (rtype =? MMC_BOOT_RESP_R6) || (rtype =? MMC_BOOT_RESP_R7).

Fixpoint wait_response (fuel : nat) (cmd : mmc_boot_command) : M (Z * mmc_boot_command) :=
  match fuel with
  | O => spin
  | S fuel =>
      wait_cmd_inactive polls;;
      mmc_status ← readl MMC_BOOT_MCI_STATUS;
      if (resp_type cmd =? MMC_BOOT_RESP_NONE) && any mmc_status MMC_BOOT_MCI_STAT_CMD_SENT then
        mret (MMC_BOOT_E_SUCCESS, cmd)
      else if any mmc_status MMC_BOOT_MCI_STAT_CMD_TIMEOUT then mret (MMC_BOOT_E_TIMEOUT, cmd)
      else if any mmc_status MMC_BOOT_MCI_STAT_CMD_RESP_END || (cmd_index cmd =? CMD1_SEND_OP_COND)
              || (cmd_index cmd =? CMD8_SEND_IF_COND) then
        mmc_resp ← readl MMC_BOOT_MCI_RESP_CMD;
        if (Z.land mmc_resp 0x3F =? cmd_index cmd) || no_index (resp_type cmd) then
          cmd ← read_response cmd; mret (MMC_BOOT_E_SUCCESS, cmd)
        else mret (MMC_BOOT_E_CMD_INDX_MISMATCH, cmd)
      else if any mmc_status MMC_BOOT_MCI_STAT_CMD_CRC_FAIL then
        if cmd_index cmd =? ACMD41_SEND_OP_COND then
          r0 ← readl MMC_BOOT_MCI_RESP_0;
          mret (MMC_BOOT_E_SUCCESS, with_resp (r0 :: drop 1 (resp cmd)) cmd)
        else mret (MMC_BOOT_E_CRC_FAIL, cmd)
      else wait_response fuel cmd
  end.

Definition mmc_boot_send_command (cmd : mmc_boot_command) : M (Z * mmc_boot_command) :=
  writel (argument cmd) MMC_BOOT_MCI_ARGUMENT;;
  udelay 21;;
  writel MMC_BOOT_MCI_STATIC_STATUS MMC_BOOT_MCI_CLEAR;;
  writel (command_register cmd) MMC_BOOT_MCI_CMD;;
  wait_response polls cmd.

(** [mmc_ret = mmc_boot_send_command(&cmd); if (mmc_ret != SUCCESS) return mmc_ret; k] *)
Definition sent (cmd : mmc_boot_command) (k : mmc_boot_command → M Z) : M Z :=
  '(mmc_ret, cmd) ← mmc_boot_send_command cmd;
  if mmc_ret =? MMC_BOOT_E_SUCCESS then k cmd else mret mmc_ret.

Definition mmc_boot_reset_cards : M Z :=
  '(mmc_ret, _) ← mmc_boot_send_command (command CMD0_GO_IDLE_STATE 0 MMC_BOOT_CMD_BCAST MMC_BOOT_RESP_NONE);
  mret mmc_ret.

Definition mmc_boot_send_op_cond : M Z :=
  h ← host;
  sent (command CMD1_SEND_OP_COND (host_ocr h) MMC_BOOT_CMD_BCAST_W_RESP MMC_BOOT_RESP_R3) (λ cmd,
    let mmc_resp := resp0 cmd in
    upd_card (set_ocr mmc_resp);;
    if negb (any mmc_resp MMC_BOOT_OCR_BUSY) then mret MMC_BOOT_E_CARD_BUSY
    else
      upd_card (set_type (if any mmc_resp MMC_BOOT_OCR_SEC_MODE then MMC_BOOT_TYPE_MMCHC else MMC_BOOT_TYPE_STD_MMC));;
      mret MMC_BOOT_E_SUCCESS).

Definition mmc_boot_all_send_cid : M Z :=
  sent (command CMD2_ALL_SEND_CID 0 MMC_BOOT_CMD_BCAST_W_RESP MMC_BOOT_RESP_R2) (λ cmd,
    upd_card (λ c, set_cid (decode_cid c (resp cmd)) c);;
    mret MMC_BOOT_E_SUCCESS).

Definition mmc_boot_send_relative_address : M Z :=
  c ← card;
  if is_sd c then
    sent (command CMD3_SEND_RELATIVE_ADDR 0 MMC_BOOT_CMD_BCAST_W_RESP MMC_BOOT_RESP_R6) (λ cmd,
      upd_card (set_rca (Z.shiftr (resp0 cmd) 16));;
      mret MMC_BOOT_E_SUCCESS)
  else
    let arg := Z.shiftl MMC_RCA 16 in
    upd_card (set_rca (Z.shiftr arg 16));;
    sent (command CMD3_SEND_RELATIVE_ADDR arg MMC_BOOT_CMD_ADDRESS MMC_BOOT_RESP_R1) (λ _, mret MMC_BOOT_E_SUCCESS).

(** The status and the register. *)
Definition mmc_boot_send_csd : M (Z * list Z) :=
  c ← card;
  '(mmc_ret, cmd) ← mmc_boot_send_command
    (command CMD9_SEND_CSD (u32 (Z.shiftl (rca c) 16)) MMC_BOOT_CMD_ADDRESS MMC_BOOT_RESP_R2);
  mret (mmc_ret, resp cmd).

Definition mmc_boot_select_card (r : Z) : M Z :=
  c ← card;
  let rtype := if (r =? rca c) && negb (r =? 0) then (if is_sd c then MMC_BOOT_RESP_R1B else MMC_BOOT_RESP_R1)
               else MMC_BOOT_RESP_NONE in
  sent (command CMD7_SELECT_DESELECT_CARD (u32 (Z.shiftl r 16)) MMC_BOOT_CMD_ADDRESS rtype) (λ _, mret MMC_BOOT_E_SUCCESS).

Definition mmc_boot_set_block_len (block_len : Z) : M Z :=
  sent (command CMD16_SET_BLOCKLEN block_len MMC_BOOT_CMD_ADDRESS MMC_BOOT_RESP_R1) (λ cmd,
    mret (if any (resp0 cmd) MMC_BOOT_R1_BLOCK_LEN_ERR then MMC_BOOT_E_BLOCKLEN_ERR else MMC_BOOT_E_SUCCESS)).

Definition mmc_boot_send_stop_transmission (prg : Z) : M Z :=
  sent (with_prg prg (command CMD12_STOP_TRANSMISSION 0 MMC_BOOT_CMD_ADDRESS MMC_BOOT_RESP_R1B)) (λ _,
    mret MMC_BOOT_E_SUCCESS).

(** [*status] is left alone when the command fails. *)
Definition mmc_boot_get_card_status (prg status : Z) : M (Z * Z) :=
  c ← card;
  '(mmc_ret, cmd) ← mmc_boot_send_command
    (with_prg prg (command CMD13_SEND_STATUS (u32 (Z.shiftl (rca c) 16)) MMC_BOOT_CMD_ADDRESS MMC_BOOT_RESP_R1));
  if negb (mmc_ret =? MMC_BOOT_E_SUCCESS) then mret (mmc_ret, status)
  else if IS_ADDR_OUT_OF_RANGE (resp0 cmd) then mret (MMC_BOOT_E_FAILURE, status)
  else mret (MMC_BOOT_E_SUCCESS, resp0 cmd).

Definition mmc_boot_switch_cmd (access index value : Z) : M Z :=
  let arg := u32 (Z.lor (Z.lor (Z.shiftl access 24) (Z.shiftl index 16)) (Z.shiftl value 8)) in
  sent (command CMD6_SWITCH_FUNC arg MMC_BOOT_CMD_ADDRESS MMC_BOOT_RESP_R1B) (λ _, mret MMC_BOOT_E_SUCCESS).

(** The checks of a card status that mmc_boot_send_read_command and
    mmc_boot_send_write_command make. *)
Definition check_transfer (cmd : mmc_boot_command) : M Z :=
  if any (resp0 cmd) MMC_BOOT_R1_BLOCK_LEN_ERR then mret MMC_BOOT_E_BLOCKLEN_ERR
  else if any (resp0 cmd) MMC_BOOT_R1_ADDR_ERR then mret MMC_BOOT_E_ADDRESS_ERR
  else mret MMC_BOOT_E_SUCCESS.

Definition mmc_boot_send_read_command (xfer_type data_addr : Z) : M Z :=
  let index := if xfer_type =? MMC_BOOT_XFER_MULTI_BLOCK then CMD18_READ_MULTIPLE_BLOCK else CMD17_READ_SINGLE_BLOCK in
  sent (command index data_addr MMC_BOOT_CMD_ADDRESS MMC_BOOT_RESP_R1) check_transfer.

Definition mmc_boot_send_write_command (xfer_type data_addr : Z) : M Z :=
  let index := if xfer_type =? MMC_BOOT_XFER_MULTI_BLOCK then CMD25_WRITE_MULTIPLE_BLOCK else CMD24_WRITE_SINGLE_BLOCK in
  sent (command index data_addr MMC_BOOT_CMD_ADDRESS MMC_BOOT_RESP_R1) check_transfer.

Definition mmc_boot_set_block_count (block_count : Z) : M Z :=
  sent (command CMD23_SET_BLOCK_COUNT block_count MMC_BOOT_CMD_ADDRESS MMC_BOOT_RESP_R1) (λ cmd,
    mret (if any (resp0 cmd) MMC_BOOT_R1_OUT_OF_RANGE then MMC_BOOT_E_BLOCKLEN_ERR else MMC_BOOT_E_SUCCESS)).

Definition mmc_boot_send_app_cmd (r : Z) : M Z :=
  sent (command CMD55_APP_CMD (u32 (Z.shiftl r 16)) MMC_BOOT_CMD_ADDRESS MMC_BOOT_RESP_R1) (λ _, mret MMC_BOOT_E_SUCCESS).

(** * Data *)

Definition mmc_boot_status_error (mmc_status : Z) : Z :=
  if any mmc_status MMC_BOOT_MCI_STAT_DATA_CRC_FAIL then MMC_BOOT_E_DATA_CRC_FAIL
  else if any mmc_status MMC_BOOT_MCI_STAT_DATA_TIMEOUT then MMC_BOOT_E_DATA_TIMEOUT
  else if any mmc_status MMC_BOOT_MCI_STAT_RX_OVRRUN then MMC_BOOT_E_RX_OVRRUN
  else if any mmc_status MMC_BOOT_MCI_STAT_TX_UNDRUN then MMC_BOOT_E_RX_OVRRUN
  else MMC_BOOT_E_SUCCESS.

Definition read_error : Z :=
  Z.lor (Z.lor MMC_BOOT_MCI_STAT_DATA_CRC_FAIL MMC_BOOT_MCI_STAT_DATA_TIMEOUT) MMC_BOOT_MCI_STAT_RX_OVRRUN.
Definition write_error : Z :=
  Z.lor (Z.lor MMC_BOOT_MCI_STAT_DATA_CRC_FAIL MMC_BOOT_MCI_STAT_DATA_TIMEOUT) MMC_BOOT_MCI_STAT_TX_UNDRUN.

(** The FIFO has 16 words at consecutive addresses. *)
Definition fifo_reg (mmc_count : Z) : Z := MMC_BOOT_MCI_FIFO + mmc_count mod Z.of_nat MMC_BOOT_MCI_FIFO_SIZE.

(** [n] words from the FIFO to the buffer. *)
Fixpoint fifo_words_in (n : nat) (mmc_count : Z) (buf : buffer) : M (Z * buffer) :=
  match n with
  | O => mret (mmc_count, buf)
  | S n =>
      w ← readl (fifo_reg mmc_count);
      match store buf mmc_count (le_bytes 4 0 w) with
      | Ok buf => fifo_words_in n (u32 (mmc_count + 4)) buf
      | _ => undef
      end
  end.

(** [n] words from the buffer to the FIFO. *)
Fixpoint fifo_words_out (n : nat) (mmc_count : Z) (buf : buffer) : M Z :=
  match n with
  | O => mret mmc_count
  | S n =>
      match GET_LWORD_FROM_BYTE buf mmc_count with
      | Ok w => writel w (fifo_reg mmc_count);; fifo_words_out n (u32 (mmc_count + 4)) buf
      | _ => undef
      end
  end.

Fixpoint fifo_read_loop (fuel : nat) (data_len mmc_count : Z) (buf : buffer) : M (Z * buffer) :=
  match fuel with
  | O => spin
  | S fuel =>
      mmc_status ← readl MMC_BOOT_MCI_STATUS;
      if any mmc_status read_error then mret (mmc_boot_status_error mmc_status, buf)
      else if any mmc_status MMC_BOOT_MCI_STAT_RX_DATA_AVLBL then
        let read_count := if any mmc_status MMC_BOOT_MCI_STAT_RX_FIFO_HFULL then MMC_BOOT_MCI_HFIFO_COUNT else 1%nat in
        '(mmc_count, buf) ← fifo_words_in read_count mmc_count buf;
        if mmc_count =? data_len then mret (MMC_BOOT_E_SUCCESS, buf) else fifo_read_loop fuel data_len mmc_count buf
      else if any mmc_status MMC_BOOT_MCI_STAT_DATA_END then mret (MMC_BOOT_E_SUCCESS, buf)
      else fifo_read_loop fuel data_len mmc_count buf
  end.

Definition mmc_boot_fifo_read (data_len : Z) (buf : buffer) : M (Z * buffer) := fifo_read_loop polls data_len 0 buf.

Fixpoint fifo_write_loop (fuel : nat) (data_len mmc_count : Z) (buf : buffer) : M Z :=
  match fuel with
  | O => spin
  | S fuel =>
      mmc_status ← readl MMC_BOOT_MCI_STATUS;
      if any mmc_status write_error then mret (mmc_boot_status_error mmc_status)
      else if (Z.of_nat (MMC_BOOT_MCI_FIFO_SIZE / 2) <=? u32 (data_len - mmc_count))
              && any mmc_status MMC_BOOT_MCI_STAT_TX_FIFO_HFULL then
        mmc_count ← fifo_words_out MMC_BOOT_MCI_HFIFO_COUNT mmc_count buf;
        fifo_write_loop fuel data_len mmc_count buf
      else if negb (any mmc_status MMC_BOOT_MCI_STAT_TX_FIFO_FULL) && negb (mmc_count =? data_len) then
        mmc_count ← fifo_words_out 1 mmc_count buf;
        fifo_write_loop fuel data_len mmc_count buf
      else if any mmc_status MMC_BOOT_MCI_STAT_DATA_END then mret MMC_BOOT_E_SUCCESS
      else fifo_write_loop fuel data_len mmc_count buf
  end.

Definition mmc_boot_fifo_write (data_len : Z) (buf : buffer) : M Z := fifo_write_loop polls data_len 0 buf.

(** mmc_boot_fifo_data_transfer with direction MMC_BOOT_DATA_READ is mmc_boot_fifo_read,
    with MMC_BOOT_DATA_WRITE mmc_boot_fifo_write. *)

(** Set the FLOW_ENA bit of MCI_CLK. *)
Definition enable_flow : M unit :=
  mmc_reg ← readl MMC_BOOT_MCI_CLK;
  writel (Z.lor mmc_reg MMC_BOOT_MCI_CLK_ENA_FLOW) MMC_BOOT_MCI_CLK.

Definition read_control (len : Z) : Z :=
  Z.lor (Z.lor MMC_BOOT_MCI_DATA_ENABLE MMC_BOOT_MCI_DATA_DIR) (u32 (Z.shiftl len MMC_BOOT_MCI_BLKSIZE_POS)).

(** CMD16 for cards that are not of high capacity. *)
Definition block_len_if_needed (len : Z) : M Z :=
  c ← card; if negb (is_hc c) then mmc_boot_set_block_len len else mret MMC_BOOT_E_SUCCESS.

(** mmc_boot_send_ext_cmd(card, ext_csd_buf) *)
Definition mmc_boot_send_ext_cmd : M Z :=
  set_ext_csd (replicate 512 0);;
  TRY block_len_if_needed 512;
  enable_flow;;
  writel 0xFFFFFFFF MMC_BOOT_MCI_DATA_TIMER;;
  writel 512 MMC_BOOT_MCI_DATA_LENGTH;;
  writel (read_control 512) MMC_BOOT_MCI_DATA_CTL;;
  sent (command CMD8_SEND_EXT_CSD 0 MMC_BOOT_CMD_ADDRESS MMC_BOOT_RESP_R1) (λ _,
    '(mmc_ret, buf) ← mmc_boot_fifo_read 512 (replicate 512 0);
    set_ext_csd buf;;
    mret mmc_ret).

(** Wait for the card to complete a switch: [wait_count] status requests at most. *)
Fixpoint wait_switched (wait_count : nat) : M Z :=
  match wait_count with
  | O => mret MMC_BOOT_E_FAILURE
  | S wait_count =>
      '(mmc_ret, status) ← mmc_boot_get_card_status 0 uninit;
      if negb (mmc_ret =? MMC_BOOT_E_SUCCESS) then mret mmc_ret
      else if (wait_count =? 0)%nat then mret MMC_BOOT_E_FAILURE
      else if MMC_BOOT_CARD_STATUS status =? MMC_BOOT_PROG_STATE then wait_switched wait_count
      else mret MMC_BOOT_E_SUCCESS
  end.

(** The bus width in MCI_CLK. *)
Definition set_widebus (width : Z) : M unit :=
  mmc_reg ← readl MMC_BOOT_MCI_CLK;
  let mmc_reg := Z.land mmc_reg (Z.lnot MMC_BOOT_MCI_CLK_WIDEBUS_MODE) in
  writel (Z.lor mmc_reg
    (if width =? MMC_BOOT_BUS_WIDTH_1_BIT then MMC_BOOT_MCI_CLK_WIDEBUS_1_BIT
     else if width =? MMC_BOOT_BUS_WIDTH_4_BIT then MMC_BOOT_MCI_CLK_WIDEBUS_4_BIT
     else if width =? MMC_BOOT_BUS_WIDTH_8_BIT then MMC_BOOT_MCI_CLK_WIDEBUS_8_BIT else 0)) MMC_BOOT_MCI_CLK;;
  mdelay 10.

Definition mmc_boot_set_bus_width (width : Z) : M Z :=
  let mmc_width := if negb (width =? MMC_BOOT_BUS_WIDTH_1_BIT) then u32 (width - 1) else 0 in
  TRY mmc_boot_switch_cmd MMC_BOOT_ACCESS_WRITE MMC_BOOT_EXT_CMMC_BUS_WIDTH mmc_width;
  TRY wait_switched 100;
  set_widebus width;;
  mret MMC_BOOT_E_SUCCESS.

(** The address of a transfer: in sectors for cards of high capacity, in bytes otherwise. *)
Definition card_address (c : mmc_boot_card) (data_addr : Z) : Z :=
  if negb (is_hc c) then u32 data_addr else u32 (data_addr / 512).

Definition transfer_type (c : mmc_boot_card) (data_len : Z) : Z :=
  if rd_block_len c <? data_len then MMC_BOOT_XFER_MULTI_BLOCK else MMC_BOOT_XFER_SINGLE_BLOCK.

Fixpoint wait_prog_done (fuel : nat) : M Z :=
  match fuel with
  | O => spin
  | S fuel =>
      mmc_status ← readl MMC_BOOT_MCI_STATUS;
      if any mmc_status MMC_BOOT_MCI_STAT_PROG_DONE then mret MMC_BOOT_E_SUCCESS else wait_prog_done fuel
  end.

Definition mmc_boot_write_to_card (data_addr data_len : Z) (inb : buffer) : M Z :=
  c ← card;
  TRY block_len_if_needed (wr_block_len c);
  let xfer_type := transfer_type c data_len in
  let addr := card_address c data_addr in
  enable_flow;;
  writel 0xFFFFFFFF MMC_BOOT_MCI_DATA_TIMER;;
  writel data_len MMC_BOOT_MCI_DATA_LENGTH;;
  TRY mmc_boot_send_write_command xfer_type addr;
  writel (Z.lor MMC_BOOT_MCI_DATA_ENABLE (u32 (Z.shiftl (wr_block_len c) MMC_BOOT_MCI_BLKSIZE_POS))) MMC_BOOT_MCI_DATA_CTL;;
  mmc_ret ← mmc_boot_fifo_write data_len inb;
  if negb (mmc_ret =? MMC_BOOT_E_SUCCESS) then
    (if xfer_type =? MMC_BOOT_XFER_MULTI_BLOCK then mmc_boot_send_stop_transmission 1;; mret mmc_ret else mret mmc_ret)
  else
    TRY (if xfer_type =? MMC_BOOT_XFER_MULTI_BLOCK then mmc_boot_send_stop_transmission 1
         else '(mmc_ret, _) ← mmc_boot_get_card_status 1 uninit; mret mmc_ret);
    wait_prog_done polls.

Definition mmc_boot_adjust_interface_speed : M Z :=
  TRY mmc_boot_switch_cmd MMC_BOOT_ACCESS_WRITE MMC_BOOT_EXT_CMMC_HS_TIMING 1;
  TRY wait_switched 100;
  on_hw (clock_config MMC_CLK_50MHZ);;
  h ← host;
  set_host (mkHost MMC_CLK_50MHZ (host_ocr h) (cmd_retry h));;
  mret MMC_BOOT_E_SUCCESS.

(** The value of MCI_DATA_TIMER for a read. *)
Definition read_timer (h : mmc_boot_host) (c : mmc_boot_card) : Z :=
  u32 (u32 (rd_timeout_ns c / 1000000 * (mclk_rate h / 1000)) + 1000) / 2.

(** The status and the buffer, [out] before. *)
Definition mmc_boot_read_from_card (data_addr data_len : Z) (out : buffer) : M (Z * buffer) :=
  let fail mmc_ret := mret (mmc_ret, out) in
  c ← card;
  h ← host;
  on_success fail (block_len_if_needed (rd_block_len c))
  (let xfer_type := transfer_type c data_len in
  let counted := (xfer_type =? MMC_BOOT_XFER_MULTI_BLOCK)
                 && ((type c =? MMC_BOOT_TYPE_MMCHC) || (type c =? MMC_BOOT_TYPE_STD_MMC)) in
  on_success fail (if counted then mmc_boot_set_block_count (data_len / rd_block_len c) else mret MMC_BOOT_E_SUCCESS)
  (writel (read_timer h c) MMC_BOOT_MCI_DATA_TIMER;;
  writel data_len MMC_BOOT_MCI_DATA_LENGTH;;
  let addr := card_address c data_addr in
  writel (read_control (rd_block_len c)) MMC_BOOT_MCI_DATA_CTL;;
  on_success fail (mmc_boot_send_read_command xfer_type addr)
  ('(mmc_ret, out) ← mmc_boot_fifo_read data_len out;
  if negb (mmc_ret =? MMC_BOOT_E_SUCCESS) then mret (mmc_ret, out)
  else if (xfer_type =? MMC_BOOT_XFER_MULTI_BLOCK) && negb counted then
    mmc_ret ← mmc_boot_send_stop_transmission 0;
    mret (mmc_ret, out)
  else mret (MMC_BOOT_E_SUCCESS, out)))).

(** mmc_boot_read_reg *)
Definition mmc_boot_read_reg (data_len index addr : Z) (out : buffer) : M (Z * buffer) :=
  enable_flow;;
  writel 0xFFFFFFFF MMC_BOOT_MCI_DATA_TIMER;;
  writel data_len MMC_BOOT_MCI_DATA_LENGTH;;
  writel (read_control data_len) MMC_BOOT_MCI_DATA_CTL;;
  '(mmc_ret, _) ← mmc_boot_send_command (command index addr MMC_BOOT_CMD_ADDRESS MMC_BOOT_RESP_R1);
  if negb (mmc_ret =? MMC_BOOT_E_SUCCESS) then mret (mmc_ret, out)
  else mmc_boot_fifo_read data_len out.

(** * Initialisation *)

(** [nsac / (host->mclk_rate / 1000000000)] divides by zero for every clock below 1 GHz. *)
Definition access_time_ns (h : mmc_boot_host) (c : mmc_boot_card) : M Z :=
  let ghz := mclk_rate h / 1000000000 in
  if ghz =? 0 then undef else mret (u32 (10 * (taac_ns (csd c) + nsac_clk_cycle (csd c) / ghz))).

Definition mmc_boot_set_read_timeout : M Z :=
  h ← host;
  c ← card;
  if is_hc c then upd_card (set_rd_timeout 100000000);; mret MMC_BOOT_E_SUCCESS
  else if (type c =? MMC_BOOT_TYPE_STD_SD) || (type c =? MMC_BOOT_TYPE_STD_MMC) then
    timeout_ns ← access_time_ns h c;
    upd_card (set_rd_timeout timeout_ns);; mret MMC_BOOT_E_SUCCESS
  else mret MMC_BOOT_E_NOT_SUPPORTED.

Definition mmc_boot_set_write_timeout : M Z :=
  h ← host;
  c ← card;
  if is_hc c then upd_card (set_wr_timeout 100000000);; mret MMC_BOOT_E_SUCCESS
  else if (type c =? MMC_BOOT_TYPE_STD_SD) || (type c =? MMC_BOOT_TYPE_STD_MMC) then
    timeout_ns ← access_time_ns h c;
    upd_card (set_wr_timeout (u32 (Z.shiftl timeout_ns (r2w_factor (csd c)))));; mret MMC_BOOT_E_SUCCESS
  else mret MMC_BOOT_E_NOT_SUPPORTED.

Definition mmc_boot_decode_and_save_csd (raw_csd : list Z) : M Z :=
  ext ← ext_csd;
  upd_card (λ c, let '(v, bytes) := decode_csd uninit c ext raw_csd in set_csd v (set_capacity bytes c));;
  mret MMC_BOOT_E_SUCCESS.

Definition mmc_boot_init : M Z :=
  on_hw clock_init;;
  on_hw (clock_config MMC_CLK_400KHZ);;
  set_host (mkHost MMC_CLK_400KHZ (Z.lor MMC_BOOT_OCR_27_36 MMC_BOOT_OCR_SEC_MODE) MMC_BOOT_MAX_COMMAND_RETRY);;
  mdelay 2;;
  writel (Z.lor MMC_BOOT_MCI_PWR_ON MMC_BOOT_MCI_PWR_UP) MMC_BOOT_MCI_POWER;;
  mdelay 2;;
  mret MMC_BOOT_E_SUCCESS.

Definition mmc_boot_identify_card : M Z :=
  TRY mmc_boot_all_send_cid;
  TRY mmc_boot_send_relative_address;
  '(mmc_return, raw_csd) ← mmc_boot_send_csd;
  if negb (mmc_return =? MMC_BOOT_E_SUCCESS) then mret mmc_return else
  c ← card;
  TRY mmc_boot_select_card (rca c);
  upd_card (set_status MMC_BOOT_STATUS_ACTIVE);;
  TRY (if (type c =? MMC_BOOT_TYPE_STD_MMC) || (type c =? MMC_BOOT_TYPE_MMCHC) then mmc_boot_send_ext_cmd
       else mret MMC_BOOT_E_SUCCESS);
  TRY mmc_boot_decode_and_save_csd raw_csd;
  TRY mmc_boot_set_read_timeout;
  TRY mmc_boot_set_write_timeout;
  mret MMC_BOOT_E_SUCCESS.

(** CMD8, [n] times at most: the argument for ACMD41 and the command structure, or the
    result of the function. *)
Fixpoint sd_if_cond (n : nat) (ocr_cmd_arg : Z) (cmd : mmc_boot_command) : M (Z + Z * mmc_boot_command) :=
  match n with
  | O => mret (inr (ocr_cmd_arg, cmd))
  | S n =>
      '(mmc_ret, cmd) ← mmc_boot_send_command (with_resp (resp cmd)
        (command CMD8_SEND_IF_COND MMC_BOOT_SD_HC_VOLT_SUPPLIED MMC_BOOT_CMD_BCAST_W_RESP MMC_BOOT_RESP_R7));
      if mmc_ret =? MMC_BOOT_E_SUCCESS then
        if negb (resp0 cmd =? MMC_BOOT_SD_HC_VOLT_SUPPLIED) then mret (inl MMC_BOOT_E_FAILURE)
        else mret (inr (Z.lor MMC_BOOT_SD_NEG_OCR MMC_BOOT_SD_HC_HCS, cmd))
      else mdelay 1;; sd_if_cond n ocr_cmd_arg cmd
  end.

(** ACMD41, [n] times at most. *)
Fixpoint sd_op_cond (n : nat) (ocr_cmd_arg : Z) (cmd : mmc_boot_command) : M Z :=
  match n with
  | O => mret MMC_BOOT_E_SUCCESS
  | S n =>
      TRY mmc_boot_send_app_cmd 0;
      sent (with_resp (resp cmd)
        (command ACMD41_SEND_OP_COND ocr_cmd_arg MMC_BOOT_CMD_BCAST_W_RESP MMC_BOOT_RESP_R3)) (λ cmd,
        if any (resp0 cmd) MMC_BOOT_SD_DEV_READY then
          upd_card (set_type (if any (resp0 cmd) (Z.shiftl 1 30) then MMC_BOOT_TYPE_SDHC else MMC_BOOT_TYPE_STD_SD));;
          mret MMC_BOOT_E_SUCCESS
        else mdelay 50;; sd_op_cond n ocr_cmd_arg cmd)
  end.

Definition mmc_boot_sd_init_card : M Z :=
  r ← sd_if_cond 3 uninit (command 0 0 0 0);
  match r with
  | inl mmc_ret => mret mmc_ret
  | inr (ocr_cmd_arg, cmd) => sd_op_cond 20 ocr_cmd_arg cmd
  end.

(** CMD1 until the card is not busy; [n] is what host->cmd_retry leaves. *)
Fixpoint op_cond_loop (n : nat) : M Z :=
  mmc_return ← mmc_boot_send_op_cond;
  if mmc_return =? MMC_BOOT_E_CARD_BUSY then
    mdelay 1;;
    match n with
    | O => mret MMC_BOOT_E_CARD_BUSY
    | S n => op_cond_loop n
    end
  else if mmc_return =? MMC_BOOT_E_SUCCESS then mret MMC_BOOT_E_SUCCESS
  else mmc_boot_sd_init_card.

Definition mmc_boot_init_card : M Z :=
  TRY mmc_boot_reset_cards;
  h ← host;
  op_cond_loop (pred (cmd_retry h)).

Definition mmc_boot_set_sd_bus_width (width : Z) : M Z :=
  c ← card;
  TRY mmc_boot_send_app_cmd (rca c);
  let arg := if width =? MMC_BOOT_BUS_WIDTH_1_BIT then 0
             else if width =? MMC_BOOT_BUS_WIDTH_4_BIT then Z.shiftl 1 1 else 0 in
  sent (command ACMD6_SET_BUS_WIDTH arg MMC_BOOT_CMD_ADDRESS MMC_BOOT_RESP_R1) (λ _,
    set_widebus width;;
    mret MMC_BOOT_E_SUCCESS).

(** sw_buf is a local array. *)
Definition mmc_boot_set_sd_hs : M Z :=
  '(mmc_ret, _) ← mmc_boot_read_reg 64 CMD6_SWITCH_FUNC MMC_BOOT_SD_SWITCH_HS (replicate 64 (uninit mod 256));
  if negb (mmc_ret =? MMC_BOOT_E_SUCCESS) then mret mmc_ret else
  mdelay 1;;
  on_hw (clock_config MMC_CLK_50MHZ);;
  h ← host;
  set_host (mkHost MMC_CLK_50MHZ (host_ocr h) (cmd_retry h));;
  mret MMC_BOOT_E_SUCCESS.

Definition mmc_boot_init_and_identify_cards : M Z :=
  upd_card (λ c, set_block_lens MMC_BOOT_RD_BLOCK_LEN MMC_BOOT_WR_BLOCK_LEN (set_status MMC_BOOT_STATUS_INACTIVE c));;
  TRY mmc_boot_init_card;
  TRY mmc_boot_identify_card;
  c ← card;
  TRY (if is_sd c then
         TRY mmc_boot_set_sd_hs;
         mmc_return ← mmc_boot_set_sd_bus_width MMC_BOOT_BUS_WIDTH_4_BIT;
         if negb (mmc_return =? MMC_BOOT_E_SUCCESS) then mmc_boot_set_sd_bus_width MMC_BOOT_BUS_WIDTH_1_BIT
         else mret MMC_BOOT_E_SUCCESS
       else
         TRY mmc_boot_adjust_interface_speed;
         mmc_boot_set_bus_width MMC_BOOT_BUS_WIDTH_4_BIT);
  '(mmc_return, status) ← mmc_boot_get_card_status 0 uninit;
  if negb (mmc_return =? MMC_BOOT_E_SUCCESS) then mret mmc_return
  else if negb (MMC_BOOT_CARD_STATUS status =? MMC_BOOT_TRAN_STATE) then mret MMC_BOOT_E_FAILURE
  else mret MMC_BOOT_E_SUCCESS.

(** mmc_boot_main; [read_table] is partition_read_table. *)
Definition mmc_boot_main (read_table : M Z) : M Z :=
  set_host (mkHost 0 0 0);;
  set_card no_card;;
  mmc_ret ← mmc_boot_init;
  if negb (mmc_ret =? MMC_BOOT_E_SUCCESS) then mret MMC_BOOT_E_FAILURE else
  mmc_ret ← mmc_boot_init_and_identify_cards;
  if negb (mmc_ret =? MMC_BOOT_E_SUCCESS) then mret MMC_BOOT_E_FAILURE else
  read_table.

Definition mmc_get_psn : M Z := c ← card; mret (psn (cid c)).

(** * Transfers of any length *)

(** The loop of mmc_write: the bytes from [sptr] on. *)
Fixpoint card_write_loop (fuel : nat) (buf : buffer) (sptr addr offset len : Z) : M Z :=
  if WRITE_SIZE <? len then
    match fuel with
    | O => spin
    | S fuel =>
        TRY mmc_boot_write_to_card (u64 (addr + offset)) WRITE_SIZE (drop (Z.to_nat sptr) buf);
        card_write_loop fuel buf (sptr + WRITE_SIZE) addr (u32 (offset + WRITE_SIZE)) (u32 (len - WRITE_SIZE))
    end
  else if negb (len =? 0) then mmc_boot_write_to_card (u64 (addr + offset)) len (drop (Z.to_nat sptr) buf)
  else mret 0.

(** mmc_write, at most 256 full transfers. *)
Definition card_write (data_addr data_len : Z) (buf : buffer) : M Z :=
  let data_len := if negb (data_len mod 512 =? 0) then ROUND_TO_PAGE data_len 511 else data_len in
  card_write_loop 257 buf 0 data_addr 0 data_len.

(** mmc_read *)
Definition card_read (data_addr : Z) (out : buffer) (data_len : Z) : M (Z * buffer) :=
  mmc_boot_read_from_card data_addr data_len out.

(** * Erase and write protection *)

(** [do { ... } while] the card is programming: the status of the last request. *)
Fixpoint wait_tran (fuel : nat) (status : Z) : M Z :=
  match fuel with
  | O => spin
  | S fuel =>
      '(mmc_ret, status) ← mmc_boot_get_card_status 0 status;
      if MMC_BOOT_CARD_STATUS status =? MMC_BOOT_TRAN_STATE then mret mmc_ret
      else if (mmc_ret =? MMC_BOOT_E_SUCCESS) && (MMC_BOOT_CARD_STATUS status =? MMC_BOOT_PROG_STATE)
      then wait_tran fuel status
      else mret mmc_ret
  end.

Definition erase_group (index data_addr : Z) : M Z :=
  sent (command index (u32 data_addr) MMC_BOOT_CMD_ADDRESS MMC_BOOT_RESP_R1) (λ cmd,
    mret (if IS_ADDR_OUT_OF_RANGE (resp0 cmd) then MMC_BOOT_E_BLOCKLEN_ERR else MMC_BOOT_E_SUCCESS)).
Definition mmc_boot_send_erase_group_start (data_addr : Z) : M Z := erase_group CMD35_ERASE_GROUP_START data_addr.
Definition mmc_boot_send_erase_group_end (data_addr : Z) : M Z := erase_group CMD36_ERASE_GROUP_END data_addr.

(** [return;] when the card skipped write-protected blocks. *)
Definition mmc_boot_send_erase : M Z :=
  TRY wait_tran polls uninit;
  sent (command CMD38_ERASE 0 MMC_BOOT_CMD_ADDRESS MMC_BOOT_RESP_R1B) (λ cmd,
    if any (resp0 cmd) MMC_BOOT_R1_WP_ERASE_SKIP then mret uninit
    else wait_tran polls uninit).

Definition ERASE_OUT : buffer := replicate (4096 * 4) 0.

(** The size of an erase group in sectors. *)
Definition erase_group_sectors (c : mmc_boot_card) (ext : buffer) : Z :=
  if negb (word_at ext MMC_BOOT_EXT_ERASE_GROUP_DEF =? 0) then
    512 * word_at ext MMC_BOOT_EXT_HC_ERASE_GRP_SIZE * 1024 / 512
  else u32 (u32 (erase_grp_size (csd c) + 1) * u32 (erase_grp_mult (csd c) + 1)).

(** The arguments of CMD35 and CMD36 for [size] sectors: the first and the last group. *)
Definition erase_range (c : mmc_boot_card) (data_addr size grp : Z) : Z * Z :=
  let start := card_address c data_addr in
  (start, u64 (start + u64 (grp * (size / grp - 1)))).

Definition mmc_erase_card (data_addr size : Z) : M Z :=
  c ← card;
  ext ← ext_csd;
  let size := size / 512 in
  let grp := erase_group_sectors c ext in
  if grp =? 0 then mret MMC_BOOT_E_FAILURE
  else
    let loop_count := size / grp in
    if loop_count <? 1 then card_write data_addr (4096 * 4) ERASE_OUT
    else
      let '(data_addr, data_end) := erase_range c data_addr size grp in
      TRY mmc_boot_send_erase_group_start data_addr;
      TRY mmc_boot_send_erase_group_end data_end;
      TRY mmc_boot_send_erase;
      mret MMC_BOOT_E_SUCCESS.

Definition IS_BIT_SET_EXT_CSD (ext : buffer) (val bit : Z) : bool := any (word_at ext val) (Z.shiftl 1 bit).

(** The size of a write-protect group in sectors; the product of ints wraps. *)
Definition wp_group_sectors (c : mmc_boot_card) (ext : buffer) : Z :=
  if negb (word_at ext MMC_BOOT_EXT_ERASE_GROUP_DEF =? 0) then
    u32 (Z.quot (s32 (512 * 1024 * word_at ext MMC_BOOT_EXT_HC_WP_GRP_SIZE * word_at ext MMC_BOOT_EXT_HC_ERASE_GRP_SIZE))
                MMC_BOOT_WR_BLOCK_LEN)
  else u32 (u32 (u32 (erase_grp_size (csd c) + 1) * u32 (erase_grp_mult (csd c) + 1)) * u32 (wp_grp_size (csd c) + 1)).

(** CMD28 or CMD29 for the groups from [i] on. *)
Fixpoint wp_loop (n : nat) (index addr i wp_group_size : Z) (cmd_resp : list Z) : M Z :=
  match n with
  | O => mret MMC_BOOT_E_SUCCESS
  | S n =>
      sent (with_resp cmd_resp
        (command index (u32 (addr + u32 (i * wp_group_size))) MMC_BOOT_CMD_ADDRESS MMC_BOOT_RESP_R1B)) (λ cmd,
        if IS_ADDR_OUT_OF_RANGE (resp0 cmd) then mret MMC_BOOT_E_FAILURE
        else
          TRY wait_tran polls uninit;
          wp_loop n index addr (i + 1) wp_group_size (resp cmd))
  end.

Definition mmc_boot_set_clr_power_on_wp_user (addr size set_clear_wp : Z) : M Z :=
  TRY mmc_boot_switch_cmd MMC_BOOT_ACCESS_WRITE MMC_BOOT_EXT_USER_WP MMC_BOOT_US_PERM_WP_DIS;
  TRY wait_tran polls uninit;
  TRY mmc_boot_send_ext_cmd;
  c ← card;
  ext ← ext_csd;
  if IS_BIT_SET_EXT_CSD ext MMC_BOOT_EXT_USER_WP MMC_BOOT_US_PERM_WP_EN
     || IS_BIT_SET_EXT_CSD ext MMC_BOOT_EXT_USER_WP MMC_BOOT_US_PWR_WP_DIS
  then mret MMC_BOOT_E_FAILURE
  else
    let wp_group_size := wp_group_sectors c ext in
    if wp_group_size =? 0 then mret MMC_BOOT_E_FAILURE
    else
      TRY mmc_boot_switch_cmd MMC_BOOT_ACCESS_WRITE MMC_BOOT_EXT_USER_WP MMC_BOOT_US_PWR_WP_EN;
      TRY wait_tran polls uninit;
      let loop_count := if negb (size mod wp_group_size =? 0) then size / wp_group_size + 1 else size / wp_group_size in
      let index := if negb (set_clear_wp =? 0) then CMD28_SET_WRITE_PROTECT else CMD29_CLEAR_WRITE_PROTECT in
      wp_loop (Z.to_nat loop_count) index addr 0 wp_group_size (replicate 4 0).

Definition mmc_boot_get_wp_status (sector : Z) : M Z :=
  '(rc, buf) ← mmc_boot_read_reg 8 CMD31_SEND_WRITE_PROT_TYPE sector (replicate 8 0);
  set_wp_status buf;;
  mret rc.

Definition mmc_wp (sector size set_clear_wp : Z) : M Z :=
  c ← card;
  if negb (wp_grp_enable (csd c) =? 0) then
    mmc_boot_get_wp_status sector;;
    mmc_boot_set_clr_power_on_wp_user sector size set_clear_wp;;
    mmc_boot_get_wp_status sector
  else mret MMC_BOOT_E_FAILURE.
End Driver.
