(* ===== verification/MmcProto.v ===== *)
(** The driver of mmc.c with any hardware: what it reads out of the registers of a card,
    and which commands it sends in which order.

    [wp] is the calculus for computations of the driver.  [monitor] watches the register
    MCI_CMD of any controller and follows the states that a card goes through by its
    specification; a command that the specification does not allow there is recorded. *)
From Stdlib Require Import ZArith.
From stdpp Require Import base numbers list.
From S2P Require Import Prelude Bytes Mmc MmcDriver.

(** * Fields of CSD and CID *)

(** The register as one number of 128 bits. *)
Fixpoint reg_value (raw : list Z) : Z :=
  match raw with
  | [] => 0
  | w :: raw => w + 2 ^ 32 * reg_value raw
  end.

(** Bits [start] to [start + len - 1] of a number. *)
Definition field (v start len : Z) : Z := v / 2 ^ start mod 2 ^ len.

Definition words32 (raw : list Z) : Prop := Forall (λ w, 0 ≤ w < 2 ^ 32) raw.

Lemma word_at_range raw i : words32 raw → 0 ≤ word_at raw i < 2 ^ 32.
Proof.
  intros Hw. unfold word_at. destruct (decide (Z.to_nat i < length raw)%nat) as [Hi|Hi].
  - apply (proj1 (List.Forall_forall _ _) Hw). by apply nth_In.
  - rewrite nth_overflow by lia. lia.
Qed.

Lemma reg_value_nonneg raw : words32 raw → 0 ≤ reg_value raw.
Proof. induction 1 as [|w raw Hw _ IH]; cbn [reg_value]; lia. Qed.

(** Bit [i] of the register is bit [i mod 32] of word [i / 32]. *)
Lemma reg_value_testbit raw i :
  words32 raw → 0 ≤ i → Z.testbit (reg_value raw) i = Z.testbit (word_at raw (i / 32)) (i mod 32).
Proof.
  intros Hw. revert i. induction Hw as [|w raw Hw Hr IH]; intros i Hi; cbn [reg_value].
  - unfold word_at. rewrite Z.bits_0. by destruct (Z.to_nat (i / 32)); cbn [nth]; rewrite Z.bits_0.
  - rewrite (Z.mul_comm (2 ^ 32)), <- Z.shiftl_mul_pow2 by lia.
    assert (Z.land w (Z.shiftl (reg_value raw) 32) = 0) as Hd.
    { apply Z.bits_inj_iff'. intros k Hk. rewrite Z.land_spec, Z.bits_0. destruct (decide (k < 32)).
      - rewrite Z.shiftl_spec_low by lia. apply andb_false_r.
      - by rewrite bits_above_32 by lia. }
    rewrite Z.add_nocarry_lxor by done. rewrite Z.lxor_lor by done. rewrite Z.lor_spec. unfold word_at.
    destruct (decide (i < 32)) as [Hlt|Hge].
    + rewrite Z.shiftl_spec_low by lia. rewrite orb_false_r, Z.div_small, Z.mod_small by lia. done.
    + rewrite bits_above_32 by lia. cbn [orb]. rewrite Z.shiftl_spec, IH by lia.
      replace i with (i - 32 + 1 * 32) at 3 4 by lia. rewrite Z.div_add, Z.mod_add by lia.
      rewrite Z2Nat.inj_add by (try apply Z.div_pos; lia). rewrite Nat.add_comm. cbn [Nat.add nth]. done.
Qed.

(** C26: UNPACK_BITS reads exactly the bits it is asked for, also across the border of two
    words and for whole words: for a register of 32-bit words and a field of 1 to 32 bits
    the result is the number that bits start to start + len - 1 of the register form. *)
Theorem unpack_bits_field (raw : list Z) (start len : Z) :
  words32 raw → 0 ≤ start → 1 ≤ len ≤ 32 →
  UNPACK_BITS raw start len 32 = field (reg_value raw) start len.
Proof.
  intros Hw Hs Hl. unfold field. rewrite <- Z.shiftr_div_pow2, <- Z.land_ones by lia.
  assert (u32 ((if len <? 32 then Z.shiftl 1 len else 0) - 1) = Z.ones len) as Hm.
  { destruct (Z.ltb_spec len 32); [|replace len with 32 by lia; reflexivity].
    rewrite Z.shiftl_1_l, Z.ones_equiv, Z.sub_1_r. apply u32_small.
    pose proof (Z.pow_lt_mono_r 2 len 32). pose proof (Z.pow_pos_nonneg 2 len). lia. }
  unfold UNPACK_BITS. rewrite Hm. set (q := start / 32). set (o := start mod 32).
  assert (start = 32 * q + o ∧ 0 ≤ o < 32 ∧ 0 ≤ q) as (He & Ho & Hq) by (subst q o; Z.div_mod_to_equations; lia).
  apply Z.bits_inj_iff'. intros i Hi. rewrite !Z.land_spec. destruct (decide (i < len)) as [Hlt|Hge];
    [|by rewrite Z.ones_spec_high, !andb_false_r by lia].
  apply (f_equal2 andb); [|done]. rewrite (Z.shiftr_spec (reg_value raw)), reg_value_testbit by (try done; lia).
  destruct (decide (o + i < 32)) as [Hin|Hout].
  - replace ((i + start) / 32) with q by (Z.div_mod_to_equations; lia).
    replace ((i + start) mod 32) with (o + i) by (Z.div_mod_to_equations; lia).
    destruct (q <? _); [|rewrite Z.shiftr_spec by lia; f_equal; lia].
    rewrite Z.lor_spec, Z.shiftr_spec by lia. unfold u32. rewrite Z.mod_pow2_bits_low by lia.
    rewrite Z.shiftl_spec_low by lia. rewrite orb_false_r. f_equal. lia.
  - replace ((i + start) / 32) with (q + 1) by (Z.div_mod_to_equations; lia).
    replace ((i + start) mod 32) with (o + i - 32) by (Z.div_mod_to_equations; lia).
    replace ((start + len - 1) / 32) with (q + 1) by (Z.div_mod_to_equations; lia).
    rewrite (proj2 (Z.ltb_lt _ _)) by lia. rewrite Z.lor_spec, Z.shiftr_spec by lia.
    rewrite bits_above_32 by (try apply word_at_range; done || lia). cbn [orb].
    unfold u32. rewrite Z.mod_pow2_bits_low, Z.shiftl_spec by lia. f_equal. lia.
Qed.

Lemma field_range v start len : 0 ≤ len → 0 ≤ field v start len < 2 ^ len.
Proof. intros. apply Z.mod_pos_bound, Z.pow_pos_nonneg; lia. Qed.

(** The number of sectors in the extended CSD, bytes 212 to 215. *)
Definition sec_count (ext : buffer) : Z :=
  word_at ext 212 + 2 ^ 8 * word_at ext 213 + 2 ^ 16 * word_at ext 214 + 2 ^ 24 * word_at ext 215.

Lemma lor_shift_add a b k : 0 ≤ k → 0 ≤ b < 2 ^ k → Z.lor (Z.shiftl a k) b = a * 2 ^ k + b.
Proof.
  intros Hk Hb. rewrite <- Z.shiftl_mul_pow2 by done. assert (Z.land (Z.shiftl a k) b = 0) as Hz.
  { apply Z.bits_inj_iff'. intros i Hi. rewrite Z.land_spec, Z.bits_0. destruct (decide (i < k)).
    - by rewrite Z.shiftl_spec_low by lia.
    - rewrite <- (Z.mod_small b (2 ^ k)) by lia. rewrite Z.mod_pow2_bits_high by lia. apply andb_false_r. }
  rewrite Z.add_nocarry_lxor by done. by rewrite Z.lxor_lor.
Qed.

Lemma word_at_byte ext i : Forall is_byte ext → is_byte (word_at ext i).
Proof.
  intros Hb. unfold word_at. destruct (nth_in_or_default (Z.to_nat i) ext 0) as [Hi| ->]; [|unfold is_byte; lia].
  by apply (proj1 (List.Forall_forall _ _) Hb).
Qed.

Lemma sec_count_nonneg ext : Forall is_byte ext → 0 ≤ sec_count ext.
Proof.
  intros Hb. unfold sec_count. pose proof (word_at_byte ext 212 Hb) as [? _]. pose proof (word_at_byte ext 213 Hb) as [? _].
  pose proof (word_at_byte ext 214 Hb) as [? _]. pose proof (word_at_byte ext 215 Hb) as [? _]. lia.
Qed.

Lemma sec_count_lor ext :
  Forall is_byte ext →
  Z.lor (Z.shiftl (word_at ext 215) 24)
    (Z.lor (Z.shiftl (word_at ext 214) 16) (Z.lor (Z.shiftl (word_at ext 213) 8) (word_at ext 212))) = sec_count ext.
Proof.
  intros Hb. pose proof (word_at_byte ext 212 Hb). pose proof (word_at_byte ext 213 Hb).
  pose proof (word_at_byte ext 214 Hb). pose proof (word_at_byte ext 215 Hb). unfold sec_count, is_byte in *.
  rewrite (lor_shift_add (word_at ext 213)), (lor_shift_add (word_at ext 214)), lor_shift_add by lia. lia.
Qed.

(** What the specifications say of the capacity: (C_SIZE + 1) * 2^(C_SIZE_MULT + 2) blocks
    of 2^READ_BL_LEN bytes; the sectors of the extended CSD for larger MMC cards; and
    (C_SIZE + 1) * 512 KB for SD cards with CSD version 2. *)
Definition spec_capacity (sd : bool) (v : Z) (ext : buffer) : Z :=
  if sd then (field v 48 22 + 1) * 512 * 1024
  else if field v 62 12 =? 0xFFF then sec_count ext * 512
  else (field v 62 12 + 1) * 2 ^ (field v 47 3 + 2) * 2 ^ field v 80 4.

(** C25: The capacity that the driver computes is the one the specifications define, for
    MMC cards with the block lengths that are not reserved and less than 2^31 sectors, and
    for SD cards with CSD version 2 below 4 GB. *)
Theorem csd_capacity (uninit : Z) (c : mmc_boot_card) (ext : buffer) (raw : list Z) :
  words32 raw → Forall is_byte ext → sec_count ext < 2 ^ 31 →
  (if is_sd c then field (reg_value raw) 126 2 = 1 ∧ field (reg_value raw) 48 22 + 1 < 8192
   else field (reg_value raw) 80 4 ≤ 11) →
  (decode_csd uninit c ext raw).2 = spec_capacity (is_sd c) (reg_value raw) ext.
Proof.
  intros Hw Hb Hs Hc. unfold decode_csd, spec_capacity. rewrite !unpack_bits_field by (done || lia).
  pose proof (field_range (reg_value raw) 62 12). pose proof (field_range (reg_value raw) 47 3).
  pose proof (field_range (reg_value raw) 80 4). pose proof (field_range (reg_value raw) 48 22).
  destruct (is_sd c).
  - destruct Hc as [-> Hc]. cbn [Z.eqb Pos.eqb snd]. rewrite u32_small by lia. lia.
  - cbn [snd]. destruct (Z.eqb_spec (field (reg_value raw) 62 12) 0xFFF) as [He|He]; cbn [negb].
    + rewrite sec_count_lor by done. pose proof (sec_count_nonneg ext Hb).
      rewrite s32_small by lia. unfold u64. rewrite (Z.mod_small (sec_count ext)) by lia. by rewrite Z.mod_small by lia.
    + unfold csd_bytes. rewrite !Z.shiftl_1_l.
      set (k := field (reg_value raw) 47 3) in *. set (b := field (reg_value raw) 80 4) in *. set (n := field (reg_value raw) 62 12) in *.
      assert (0 < 2 ^ (k + 2) ≤ 2 ^ 9) by (split; [apply Z.pow_pos_nonneg|apply Z.pow_le_mono_r]; lia).
      assert (0 < 2 ^ b ≤ 2 ^ 11) by (split; [apply Z.pow_pos_nonneg|apply Z.pow_le_mono_r]; lia).
      assert (0 ≤ 2 ^ (k + 2) * (n + 1) ≤ 2 ^ 9 * 4095) by nia.
      rewrite (u32_small (2 ^ (k + 2) * _)) by lia. rewrite u32_small by nia. lia.
Qed.

(** A 4 GB eMMC card: C_SIZE is 0xFFF and the extended CSD counts the sectors. *)
Definition emmc_csd : list Z := [0; 0xC0000000; 0x3FF + Z.shiftl 9 16; 0].
Definition emmc_ext : buffer := <[213%nat := 0x40]> (<[214%nat := 0x73]> (replicate 512 0)).

Lemma csd_capacity_witness : (decode_csd 7 (set_type MMC_BOOT_TYPE_MMCHC no_card) emmc_ext emmc_csd).2 = 7553024 * 512.
Proof.
  rewrite (csd_capacity 7 (set_type MMC_BOOT_TYPE_MMCHC no_card) emmc_ext emmc_csd).
  - vm_compute. reflexivity.
  - repeat constructor; vm_compute; done.
  - apply (bool_decide_unpack _). vm_compute. exact I.
  - vm_compute. reflexivity.
  - vm_compute. discriminate.
Defined.

Lemma unpack_bits_field_witness : UNPACK_BITS emmc_csd 62 12 32 = 0xFFF.
Proof. rewrite (unpack_bits_field emmc_csd 62 12); [vm_compute; reflexivity|repeat constructor; vm_compute; done|lia|lia]. Defined.

(** The capacity of larger cards wraps: an SD card of 8 GB has none, and an eMMC card with
    2^31 sectors has almost 2^64 bytes. *)
Example capacity_wraps :
  (decode_csd 0 (set_type MMC_BOOT_TYPE_SDHC no_card) [] [0; 0x3FFF * 2 ^ 16; 0; 2 ^ 30]).2 = 0 ∧
  (decode_csd 0 (set_type MMC_BOOT_TYPE_MMCHC no_card) (<[215%nat := 0x80]> (replicate 512 0)) emmc_csd).2
    = 2 ^ 64 - 2 ^ 40.
Proof. vm_compute. done. Qed.

(** * Reasoning about computations *)

Section Wp.
Context {H : Type}.
Implicit Types (s : mmc_state H) (E : mmc_state H → Prop).

(** The run of [m] from [s] ends with [Q], or stops early in [E]. *)
Definition wp {A} (m : drv H A) (Q : A → mmc_state H → Prop) E s : Prop :=
  match m s with
  | (Ret a, s) => Q a s
  | (_, s) => E s
  end.

Lemma wp_ret {A} (a : A) (Q : A → mmc_state H → Prop) E s : Q a s → wp (mret a) Q E s.
Proof. done. Qed.

Lemma wp_bind {A B} (m : drv H A) (f : A → drv H B) Q E s :
  wp m (λ a, wp (f a) Q E) E s → wp (m ≫= f) Q E s.
Proof. unfold wp, mbind, drv_bind. by destruct (m s) as [[a| |] s']. Qed.

Lemma wp_eq {A} (m : drv H A) a s' (Q : A → mmc_state H → Prop) E s : m s = (Ret a, s') → Q a s' → wp m Q E s.
Proof. unfold wp. by intros ->. Qed.

Lemma wp_mono {A} (m : drv H A) (Q Q' : A → mmc_state H → Prop) E E' s :
  wp m Q E s → (∀ a s', Q a s' → Q' a s') → (∀ s', E s' → E' s') → wp m Q' E' s.
Proof. unfold wp. destruct (m s) as [[a| |] s']; auto. Qed.
End Wp.

(** * The states of a card *)

(** [App st]: CMD55 was the last command, in [st].  [OpCond]: the operating conditions
    were asked for; [Counted]: CMD23 has set the number of blocks.  [Prog signal]: the card
    programs, erases or switches, and accepts nothing but CMD13; [signal] says that the last
    command asked the controller for the status bit PROG_DONE (PROG_ENA). *)
Inductive cstate :=
  | Unknown | Idle | OpCond | Ident | Stby | Tran | Counted | Sending | Receiving1 | Receiving
  | Erase1 | Erase2 | Prog (signal : bool) | App (st : cstate).

(** The state after command [i] with argument [arg], if the card may be sent it.  CMD6
    with bit 31 of its argument is the one of SD cards, which sends a block of data. *)
Fixpoint next (st : cstate) (i arg : Z) (signal : bool) : option cstate :=
  if i =? 0 then Some Idle else
  match st, i with
  | Idle, 1 | OpCond, 1 => Some OpCond
  | Idle, 8 => Some Idle
  | OpCond, 8 => Some OpCond
  | OpCond, 2 => Some Ident
  | Ident, 3 => Some Stby
  | Stby, 9 | Stby, 13 => Some Stby
  | Stby, 7 => Some Tran
  | Tran, (8 | 13 | 16 | 17 | 31) => Some Tran
  | Tran, 6 => Some (if Z.testbit arg 31 then Tran else Prog signal)
  | Tran, (28 | 29) => Some (Prog signal)
  | Tran, 23 => Some Counted
  | Tran, 18 => Some Sending
  | Tran, 24 => Some Receiving1
  | Tran, 25 => Some Receiving
  | Tran, 35 => Some Erase1
  | Counted, 18 | Sending, 12 => Some Tran
  | Receiving1, 13 | Receiving, 12 | Erase2, 38 | Prog _, 13 => Some (Prog signal)
  | Erase1, 36 | Erase2, 13 => Some Erase2
  | (Idle | OpCond | Tran), 55 => Some (App st)
  | App (Idle | OpCond), 41 => Some OpCond
  | App Tran, 6 => Some Tran
  | App st, i => next st i arg signal
  | _, _ => None
  end.

(** [phase] is [None] once a command was out of order; [count] counts the commands;
    [args] is the register MCI_ARGUMENT; [asked]: the last command was CMD13, and [told] is
    the state that the card gave in its answer. *)
Record watch := mkWatch { phase : option cstate; count : nat; args : Z; asked : bool; told : option Z }.
Record monitored (H : Type) := mkMon { inner : H; seen : watch }.
Arguments mkMon {_}. Arguments inner {_}. Arguments seen {_}.

(** The register [off] is written. *)
Definition observe (off v : Z) (w : watch) : watch :=
  if off =? MMC_BOOT_MCI_ARGUMENT then mkWatch (phase w) (count w) v (asked w) (told w)
  else if off =? MMC_BOOT_MCI_CMD then
    mkWatch (st ← phase w; next st (Z.land v 63) (args w) (any v MMC_BOOT_MCI_CMD_PROG_ENA)) (S (count w)) (args w)
      (Z.land v 63 =? CMD13_SEND_STATUS) None
  else w.

(** The card is back in the transfer state if it was programming; [all] also without the
    signal of the controller. *)
Definition settle (all : bool) (p : option cstate) : option cstate :=
  match p with
  | Some (Prog signal) => if all || signal then Some Tran else p
  | _ => p
  end.

(** [v] is read from the register [off]: programming ends with PROG_DONE, or with an
    answer to CMD13 that does not name the programming state. *)
Definition hear (off v : Z) (w : watch) : watch :=
  if off =? MMC_BOOT_MCI_STATUS then
    mkWatch (if any v MMC_BOOT_MCI_STAT_PROG_DONE then settle false (phase w) else phase w)
      (count w) (args w) (asked w) (told w)
  else if (off =? MMC_BOOT_MCI_RESP_0) && asked w then
    mkWatch (if MMC_BOOT_CARD_STATUS v =? MMC_BOOT_PROG_STATE then phase w else settle true (phase w))
      (count w) (args w) (asked w) (Some (MMC_BOOT_CARD_STATUS v))
  else w.

#[global] Instance monitor {H} `{Mci H} : Mci (monitored H) := {
  reg_read off h := let '(v, h') := reg_read off (inner h) in (v, mkMon h' (hear off v (seen h)));
  reg_write off v h := mkMon (reg_write off v (inner h)) (observe off v (seen h));
  delay us h := mkMon (delay us (inner h)) (seen h);
  clock_init h := mkMon (clock_init (inner h)) (seen h);
  clock_config r h := mkMon (clock_config r (inner h)) (seen h);
}.

(** [reached p st]: the card is in [st], or has left the programming state [st]. *)
Definition reached (p st : cstate) : Prop := p = st ∨ p = Tran ∧ ∃ signal, st = Prog signal.

(** What reading registers may change: programming has ended. *)
Definition eases (p p' : option cstate) : Prop := p' = p ∨ p' = Some Tran ∧ ∃ signal, p = Some (Prog signal).

Lemma eases_trans p p' p'' : eases p p' → eases p' p'' → eases p p''.
Proof. intros [-> |[-> [b ->]]] [-> |[-> [b' Hb]]]; unfold eases; naive_solver. Qed.

Lemma settle_eases all p : eases p (settle all p).
Proof. unfold eases, settle. destruct p as [[]|]; eauto. destruct (all || signal); eauto. Qed.

Lemma hear_eases off v w :
  eases (phase w) (phase (hear off v w)) ∧ count (hear off v w) = count w ∧ asked (hear off v w) = asked w.
Proof.
  unfold hear. repeat case_match; cbn [phase count asked]; split_and!; try done; try apply settle_eases; by left.
Qed.

Lemma reached_eases p st p' : reached p st → eases (Some p) p' → ∃ q, p' = Some q ∧ reached q st.
Proof. intros Hb [-> |[-> [b [= ->]]]]; [eauto|]. destruct Hb as [<-|[[=] _]]. exists Tran. unfold reached. eauto. Qed.

(** A card that has left the programming state accepts all that it accepted there. *)
Lemma next_reached p st i arg g st' :
  reached p st → next st i arg g = Some st' → ∃ q, next p i arg g = Some q ∧ reached q st'.
Proof.
  intros [-> |[-> [b ->]]] Hn; [unfold reached; eauto|]. unfold next in Hn. destruct (Z.eqb_spec i 0) as [->|Hi].
  - injection Hn as <-. exists Idle. split; [done|by left].
  - assert (i = 13 ∧ st' = Prog g) as [-> ->]; [|exists Tran; split; [done|right; eauto]].
    repeat (case_match; try done). all: by injection Hn as <-.
Qed.

Section Protocol.
Context {H : Type} `{Mci H} (polls : nat) (uninit : Z) (retry : nat).
#[local] Notation M := (drv (monitored H)).
#[local] Notation st_ := (mmc_state (monitored H)).

(** Sends no command. *)
Definition stays (s s' : st_) : Prop :=
  eases (phase (seen (hw s))) (phase (seen (hw s'))) ∧ count (seen (hw s')) = count (seen (hw s)) ∧
  asked (seen (hw s')) = asked (seen (hw s)) ∧ cmd_retry (mmc_host s') = cmd_retry (mmc_host s).
Definition quiet {A} (m : M A) : Prop := ∀ s, stays s (m s).2.

Lemma stays_refl s : stays s s.
Proof. split_and!; try done. by left. Qed.

Lemma stays_trans s s' s'' : stays s s' → stays s' s'' → stays s s''.
Proof. intros (? & ? & ? & ?) (? & ? & ? & ?). split_and!; [by eapply eases_trans|congruence..]. Qed.

Lemma quiet_ret {A} (a : A) : quiet (mret a).
Proof. intros s. apply stays_refl. Qed.

Lemma quiet_bind {A B} (m : M A) (f : A → M B) : quiet m → (∀ a, quiet (f a)) → quiet (m ≫= f).
Proof.
  intros Hm Hf s. specialize (Hm s). unfold mbind, drv_bind. destruct (m s) as [[a| |] s']; cbn in *; [|done..].
  eapply stays_trans; [exact Hm|apply Hf].
Qed.

Lemma quiet_readl off : quiet (readl off).
Proof.
  intros s. unfold readl, stays. cbn [reg_read monitor]. destruct (reg_read off (inner (hw s))) as [v h].
  cbn [snd hw seen mmc_host]. destruct (hear_eases off v (seen (hw s))) as (? & ? & ?). done.
Qed.

Lemma quiet_writel v off : off ≠ MMC_BOOT_MCI_CMD → quiet (writel v off).
Proof.
  intros Ho s. unfold stays. cbn. unfold observe. rewrite (proj2 (Z.eqb_neq off MMC_BOOT_MCI_CMD)) by done.
  destruct (off =? MMC_BOOT_MCI_ARGUMENT); split_and!; try done; by left.
Qed.

Lemma quiet_if {A} (b : bool) (m1 m2 : M A) : quiet m1 → quiet m2 → quiet (if b then m1 else m2).
Proof. by destruct b. Qed.

(** A new clock rate keeps the rest of the host. *)
Lemma quiet_set_rate {A} rate (k : M A) :
  quiet k → quiet (h ← host; set_host (mkHost rate (host_ocr h) (cmd_retry h));; k).
Proof.
  intros Hk s. unfold mbind, drv_bind. cbn [host set_host]. match goal with |- stays s (k ?s1).2 => specialize (Hk s1) end.
  exact Hk.
Qed.

(** Nothing but the static variables and the clocks changes. *)
Lemma quiet_stays {A} (m : M A) : (∀ s, seen (hw (m s).2) = seen (hw s) ∧ cmd_retry (mmc_host (m s).2) = cmd_retry (mmc_host s)) → quiet m.
Proof. intros Hm s. destruct (Hm s) as [Hs Hr]. unfold stays. rewrite Hs, Hr. split_and!; try done. by left. Qed.

Ltac quiet_static :=
  match goal with
  | |- quiet (udelay _) => idtac | |- quiet (mdelay _) => idtac | |- quiet (on_hw _) => idtac | |- quiet host => idtac
  | |- quiet card => idtac | |- quiet ext_csd => idtac | |- quiet (set_ext_csd _) => idtac | |- quiet (upd_card _) => idtac
  | |- quiet (set_card _) => idtac | |- quiet undef => idtac | |- quiet spin => idtac
  end; apply quiet_stays; by intros ?.

Ltac quiet := repeat first
  [ match goal with
    | |- quiet (mret _) => apply quiet_ret
    | |- quiet (readl _) => apply quiet_readl
    | |- quiet (writel _ _) => apply quiet_writel; discriminate
    | |- quiet (if _ then _ else _) => apply quiet_if
    | |- quiet (mbind _ _) => first [apply quiet_set_rate|apply quiet_bind; [|intros ?]]
    | |- quiet (let _ := _ in _) => cbv zeta
    end
  | quiet_static | solve [auto 2 with nocore] ].

Lemma quiet_wait_inactive fuel : quiet (wait_cmd_inactive fuel).
Proof. induction fuel; cbn [wait_cmd_inactive]; quiet. Qed.

Lemma quiet_read_response cmd : quiet (read_response cmd).
Proof. unfold read_response. quiet. Qed.

Lemma quiet_wait_response fuel cmd : quiet (wait_response polls fuel cmd).
Proof.
  revert cmd. induction fuel as [|fuel IH]; intros cmd; cbn [wait_response]; quiet;
    auto using quiet_wait_inactive, quiet_read_response.
Qed.

Lemma fifo_reg_range c : MMC_BOOT_MCI_FIFO ≤ fifo_reg c < MMC_BOOT_MCI_FIFO + 64.
Proof. unfold fifo_reg. pose proof (Z.mod_pos_bound c (Z.of_nat MMC_BOOT_MCI_FIFO_SIZE)). change (Z.of_nat MMC_BOOT_MCI_FIFO_SIZE) with 64 in *. lia. Qed.

Lemma quiet_read_words n c buf : quiet (fifo_words_in n c buf).
Proof. revert c buf. induction n; intros c buf; cbn [fifo_words_in]; quiet. destruct (store _ _ _); quiet. Qed.

Lemma quiet_write_words n c buf : quiet (fifo_words_out n c buf).
Proof.
  revert c. induction n; intros c; cbn [fifo_words_out]; quiet. destruct (GET_LWORD_FROM_BYTE buf c); quiet.
  apply quiet_writel. pose proof (fifo_reg_range c). unfold MMC_BOOT_MCI_FIFO, MMC_BOOT_MCI_CMD in *. lia.
Qed.

Lemma quiet_fifo_read fuel len c buf : quiet (fifo_read_loop fuel len c buf).
Proof.
  revert c buf. induction fuel; intros c buf; cbn [fifo_read_loop]; quiet; [apply quiet_read_words|].
  match goal with p : (Z * buffer)%type |- _ => destruct p end. quiet.
Qed.

Lemma quiet_fifo_write fuel len c buf : quiet (fifo_write_loop fuel len c buf).
Proof. revert c. induction fuel; intros c; cbn [fifo_write_loop]; quiet; apply quiet_write_words. Qed.

(** The card is in [st], [n] commands were sent at most, and host->cmd_retry is
    [retry]. *)
Definition legal (n : nat) (s : st_) : Prop :=
  is_Some (phase (seen (hw s))) ∧ (count (seen (hw s)) ≤ n)%nat ∧ cmd_retry (mmc_host s) = retry.
Definition at_ (st : cstate) (n : nat) (s : st_) : Prop :=
  (∃ p, phase (seen (hw s)) = Some p ∧ reached p st) ∧ legal n s.

(** From [st], [m] sends [k] commands at most, all in order, and takes the card to [st']
    when its result is a success. *)
Definition does {A} (ok : A → bool) (st st' : cstate) (k : nat) (m : M A) : Prop :=
  ∀ n s, at_ st n s → wp m (λ a s', if ok a then at_ st' (n + k) s' else legal (n + k) s') (legal (n + k)) s.

Definition always {A} (a : A) : bool := true.
Definition succeeded (r : Z) : bool := r =? MMC_BOOT_E_SUCCESS.
Definition succeeded1 {A} (r : Z * A) : bool := r.1 =? MMC_BOOT_E_SUCCESS.

Lemma at_legal st n s : at_ st n s → legal n s.
Proof. by intros [_ ?]. Qed.

Lemma at_mono st n n' s : at_ st n s → (n ≤ n')%nat → at_ st n' s.
Proof. intros [? (? & ? & ?)] ?. split; [done|]. split_and!; [done|lia|done]. Qed.

Lemma legal_mono n n' s : legal n s → (n ≤ n')%nat → legal n' s.
Proof. intros (? & ? & ?) ?. split_and!; [done|lia|done]. Qed.

(** The index in the command register. *)
Lemma command_register_index cmd :
  0 ≤ cmd_index cmd < 64 → Z.land (command_register cmd) 63 = cmd_index cmd.
Proof.
  intros Hi. unfold command_register.
  assert (∀ x (b : bool) m, Z.land m 63 = 0 → Z.land (if b then Z.lor x m else x) 63 = Z.land x 63) as Hor.
  { intros x b m Hm. destruct b; [|done]. by rewrite Z.land_lor_distr_l, Hm, Z.lor_0_r. }
  rewrite Hor by done. rewrite (Hor _ true) by done. rewrite !Hor by done.
  change 63 with (Z.ones 6). rewrite Z.land_ones by lia. by apply Z.mod_small.
Qed.

Lemma at_stays st n s s' : at_ st n s → stays s s' → at_ st n s'.
Proof.
  intros [(p & Hp & Hb) (_ & Hc & Hr)] (He & Hc' & _ & Hr'). rewrite Hp in He.
  destruct (reached_eases _ _ _ Hb He) as (q & Hq & Hbq). split; [eauto|]. split_and!; [by eexists|lia|congruence].
Qed.

(** Sending a command, up to the wait for its response. *)
Lemma issue_command st st' n s cmd :
  at_ st n s → 0 ≤ cmd_index cmd < 64 →
  next st (cmd_index cmd) (argument cmd) (any (command_register cmd) MMC_BOOT_MCI_CMD_PROG_ENA) = Some st' →
  ∀ A (k : M A) Q E,
  (∀ s', at_ st' (n + 1) s' → asked (seen (hw s')) = (cmd_index cmd =? CMD13_SEND_STATUS) → wp k Q E s') →
  wp (writel (argument cmd) MMC_BOOT_MCI_ARGUMENT;; udelay 21;; writel MMC_BOOT_MCI_STATIC_STATUS MMC_BOOT_MCI_CLEAR;;
      writel (command_register cmd) MMC_BOOT_MCI_CMD;; k) Q E s.
Proof.
  intros [(p & Hp & Hb) (_ & Hc & Hr)] Hi Hn A k Q E Hk. destruct (next_reached _ _ _ _ _ _ Hb Hn) as (q & Hq & Hbq).
  do 4 (apply wp_bind; eapply wp_eq; [reflexivity|]). apply Hk; cbn -[next Z.land any command_register];
    unfold at_, legal; cbn -[next Z.land any command_register]; rewrite ?command_register_index by done; [|done].
  rewrite Hp. cbn [mbind option_bind]. rewrite Hq. split_and!; [by exists q|by eexists|lia|done].
Qed.

Lemma does_weaken {A} (ok ok' : A → bool) st st' k k' (m : M A) :
  does ok st st' k m → (∀ a, ok' a = true → ok a = true) → (k ≤ k')%nat → does ok' st st' k' m.
Proof.
  intros Hm Ho Hk n s Hs. eapply wp_mono; [exact (Hm n s Hs)| |].
  - cbv beta. intros a s' Ha. specialize (Ho a). destruct (ok' a).
    + rewrite Ho in Ha by done. eapply at_mono; [exact Ha|lia].
    + apply legal_mono with (n + k)%nat; [|lia]. destruct (ok a); [by eapply at_legal|done].
  - intros s' Hl. eapply legal_mono; [exact Hl|lia].
Qed.

Lemma does_quiet {A} (ok : A → bool) st (m : M A) : quiet m → does ok st st 0 m.
Proof.
  intros Hm n s Hs. specialize (Hm s). rewrite Nat.add_0_r. pose proof (at_stays st n s _ Hs Hm) as Hk. revert Hk.
  clear. unfold wp. destruct (m s) as [[a| |] s']; [destruct (ok a)|..]; eauto using at_legal.
Qed.

(** Sequence: where the first part fails, the rest only returns an error. *)
Lemma does_bind {A B} (ok1 : A → bool) (ok2 : B → bool) st st1 st2 k1 k2 (m : M A) (f : A → M B) :
  does ok1 st st1 k1 m → (∀ a, ok1 a = true → does ok2 st1 st2 k2 (f a)) →
  (∀ a, ok1 a = false → ∃ b, f a = mret b ∧ ok2 b = false) →
  does ok2 st st2 (k1 + k2) (m ≫= f).
Proof.
  intros Hm Hf He n s Hs. apply wp_bind. eapply wp_mono; [exact (Hm n s Hs)| |].
  - cbv beta. intros a s' Ha. destruct (ok1 a) eqn:E.
    + rewrite Nat.add_assoc. by apply Hf.
    + destruct (He a E) as (b & -> & Hb). apply wp_ret. rewrite Hb. eapply legal_mono; [exact Ha|lia].
  - intros s' Hl. eapply legal_mono; [exact Hl|lia].
Qed.

Lemma does_then {A B} (ok2 : B → bool) st st1 st2 k1 k2 (m : M A) (f : A → M B) :
  does always st st1 k1 m → (∀ a, does ok2 st1 st2 k2 (f a)) → does ok2 st st2 (k1 + k2) (m ≫= f).
Proof. intros Hm Hf. eapply does_bind; [exact Hm|auto|done]. Qed.

Lemma does_ret {A} (ok : A → bool) st (a : A) : does ok st st 0 (mret a).
Proof. apply does_quiet, quiet_ret. Qed.

Lemma does_after {A B} (ok : B → bool) st st' k (m : M A) (f : A → M B) :
  quiet m → (∀ a, does ok st st' k (f a)) → does ok st st' k (m ≫= f).
Proof. intros Hm Hf. change k with (0 + k)%nat. by eapply does_then; [apply does_quiet|]. Qed.

Lemma does_try {A} (ok : A → bool) st st1 st2 k1 k2 f (m : M Z) (k : M A) :
  does succeeded st st1 k1 m → does ok st1 st2 k2 k →
  (∀ r, r ≠ 0 → ∃ b, f r = mret b ∧ ok b = false) → does ok st st2 (k1 + k2) (on_success f m k).
Proof.
  intros Hm Hk Hf. eapply does_bind; [exact Hm| |]; unfold succeeded; intros r Hr; rewrite Hr; [done|].
  apply Hf. by apply Z.eqb_neq in Hr.
Qed.

Lemma does_TRY st st1 st2 k1 k2 (m k : M Z) :
  does succeeded st st1 k1 m → does succeeded st1 st2 k2 k → does succeeded st st2 (k1 + k2) (TRY m; k).
Proof.
  intros Hm Hk. eapply does_try; [done..|]. intros r Hr. exists r. split; [done|]. by apply Z.eqb_neq.
Qed.

Notation admits st cmd st' :=
  (next st (cmd_index cmd) (argument cmd) (any (command_register cmd) MMC_BOOT_MCI_CMD_PROG_ENA) = Some st').

Lemma does_command st st' cmd :
  0 ≤ cmd_index cmd < 64 → admits st cmd st' → does always st st' 1 (mmc_boot_send_command polls cmd).
Proof.
  intros Hi Hn n s Hs. unfold mmc_boot_send_command. eapply issue_command; [exact Hs|done|exact Hn|].
  intros s' Hs' _. pose proof (does_quiet always st' _ (quiet_wait_response polls cmd) _ _ Hs') as Hw.
  by rewrite Nat.add_0_r in Hw.
Qed.

Lemma does_sent st st1 st2 k cmd (f : mmc_boot_command → M Z) :
  0 ≤ cmd_index cmd < 64 → admits st cmd st1 →
  (∀ cmd', does succeeded st1 st2 k (f cmd')) → does succeeded st st2 (1 + k) (sent polls cmd f).
Proof.
  intros Hi Hn Hf. unfold sent. eapply does_bind with (ok1 := succeeded1).
  - eapply does_weaken; [by apply (does_command st st1 cmd)|done|lia].
  - intros [r cmd'] Hr. unfold succeeded1 in Hr. cbn in Hr. rewrite Hr. apply Hf.
  - intros [r cmd'] Hr. unfold succeeded1 in Hr. cbn in Hr. exists r. by rewrite Hr.
Qed.

(** The steps of a computation, one after the other. *)
Ltac does_step :=
  match goal with
  | |- does _ _ _ _ (on_success mret _ _) => eapply does_TRY
  | |- does _ _ _ _ (sent _ _ _) => eapply does_sent; [done|reflexivity|intros ?]
  | |- does _ _ _ _ (mret _) => apply does_ret
  | |- does _ _ _ _ (mbind _ _) =>
      first [apply does_quiet; solve [quiet]
            |eapply does_after; [solve [quiet]|intros ?]
            |eapply does_bind with (ok1 := succeeded1);
              [|intros [? ?] Hr; unfold succeeded1 in Hr; cbn in Hr; rewrite ?Hr; cbn [negb]
               |intros [r ?] Hr; exists r; unfold succeeded1 in Hr; cbn in Hr; split; [by rewrite Hr|exact Hr]]]
  | |- does _ _ _ _ (let _ := _ in _) => cbv zeta
  | |- does _ _ _ _ (if _ then _ else _) => apply does_quiet; solve [quiet]
  | |- does _ _ _ _ _ => solve [eauto 2 with does]
  end.

Create HintDb does.

(** Bounded: solve with the count that comes out, then compare. *)
Ltac does := eapply does_weaken; [repeat does_step|by intros|cbn; try lia].

Lemma does_reset_cards st : does succeeded st Idle 1 (mmc_boot_reset_cards polls).
Proof.
  unfold mmc_boot_reset_cards. change 1%nat with (1 + 0)%nat. eapply does_then; [by apply does_command; [|destruct st]|].
  intros [r cmd]. apply does_ret.
Qed.

Lemma does_send_op_cond st : st = Idle ∨ st = OpCond → does always st OpCond 1 (mmc_boot_send_op_cond polls).
Proof.
  intros Hst. unfold mmc_boot_send_op_cond. apply does_after; [solve [quiet]|intros h]. unfold sent. change 1%nat with (1 + 0)%nat.
  eapply does_then; [by apply does_command; [|destruct Hst as [-> | ->]]|]. intros [r cmd]. apply does_quiet.
  apply quiet_if; quiet.
Qed.

Lemma does_all_send_cid : does succeeded OpCond Ident 1 (mmc_boot_all_send_cid polls).
Proof. unfold mmc_boot_all_send_cid. does. Qed.
#[local] Hint Resolve does_all_send_cid : does.

Lemma does_relative_address : does succeeded Ident Stby 1 (mmc_boot_send_relative_address polls).
Proof.
  unfold mmc_boot_send_relative_address. apply does_after; [solve [quiet]|intros c]. destruct (is_sd c); [does|].
  cbv zeta. does.
Qed.
#[local] Hint Resolve does_relative_address : does.

Lemma does_send_csd : does succeeded1 Stby Stby 1 (mmc_boot_send_csd polls).
Proof.
  unfold mmc_boot_send_csd. apply does_after; [solve [quiet]|intros c]. change 1%nat with (1 + 0)%nat.
  eapply does_then; [by apply does_command|]. intros [r cmd]. apply does_ret.
Qed.
#[local] Hint Resolve does_send_csd : does.

Lemma does_select_card r : does succeeded Stby Tran 1 (mmc_boot_select_card polls r).
Proof. unfold mmc_boot_select_card. apply does_after; [solve [quiet]|intros c]. cbv zeta. does. Qed.

Lemma does_set_block_len len : does succeeded Tran Tran 1 (mmc_boot_set_block_len polls len).
Proof. unfold mmc_boot_set_block_len. does. Qed.

Lemma does_block_len len : does succeeded Tran Tran 1 (block_len_if_needed polls len).
Proof.
  unfold block_len_if_needed. apply does_after; [solve [quiet]|intros c]. case_match; [apply does_set_block_len|].
  eapply does_weaken; [apply does_ret|done|lia].
Qed.

(** The answer to CMD13 is what was asked for: [told] is the state in it, and a card that
    says it is not programming is not. *)
Definition answered (x : Z) (s : st_) : Prop :=
  told (seen (hw s)) = Some (MMC_BOOT_CARD_STATUS x) ∧
  (MMC_BOOT_CARD_STATUS x ≠ MMC_BOOT_PROG_STATE → ∀ signal, phase (seen (hw s)) ≠ Some (Prog signal)).

Lemma hear_answered v w :
  asked w = true →
  told (hear MMC_BOOT_MCI_RESP_0 v w) = Some (MMC_BOOT_CARD_STATUS v) ∧
  (MMC_BOOT_CARD_STATUS v ≠ MMC_BOOT_PROG_STATE → ∀ signal, phase (hear MMC_BOOT_MCI_RESP_0 v w) ≠ Some (Prog signal)).
Proof.
  intros Ha. unfold hear. rewrite Ha. cbn [Z.eqb andb MMC_BOOT_MCI_RESP_0 MMC_BOOT_MCI_STATUS Pos.eqb told phase].
  split; [done|]. intros Hv b. rewrite (proj2 (Z.eqb_neq _ _)) by done. by destruct (phase w) as [[]|].
Qed.

(** [wp] of a part that sends no command. *)
Lemma wp_quiet {A} (m : M A) st n b s :
  quiet m → at_ st n s → asked (seen (hw s)) = b →
  wp m (λ _ s', at_ st n s' ∧ asked (seen (hw s')) = b) (legal n) s.
Proof.
  intros Hm Hs Ha. specialize (Hm s). pose proof (at_stays st n s _ Hs Hm) as Hk. destruct Hm as (_ & _ & Ha' & _).
  unfold wp. destruct (m s) as [[a| |] s']; cbn [snd] in *; [by rewrite Ha'|by eapply at_legal..].
Qed.

Lemma wait_status_told fuel st n cmd s :
  cmd_index cmd = CMD13_SEND_STATUS → resp_type cmd = MMC_BOOT_RESP_R1 → at_ st n s → asked (seen (hw s)) = true →
  wp (wait_response polls fuel cmd)
    (λ '(r, cmd') s', at_ st n s' ∧ (r = MMC_BOOT_E_SUCCESS → answered (resp0 cmd') s')) (legal n) s.
Proof.
  intros Hi Ht. revert s. induction fuel as [|fuel IH]; intros s Hs Ha; cbn [wait_response]; [by apply at_legal in Hs|].
  apply wp_bind. eapply wp_mono; [exact (wp_quiet _ _ _ _ _ (quiet_wait_inactive polls) Hs Ha)|cbv beta|done].
  clear s Hs Ha. intros _ s [Hs Ha]. apply wp_bind.
  eapply wp_mono; [exact (wp_quiet _ _ _ _ _ (quiet_readl MMC_BOOT_MCI_STATUS) Hs Ha)|cbv beta|done].
  clear s Hs Ha. intros v s [Hs Ha]. rewrite Hi, Ht. change (MMC_BOOT_RESP_R1 =? MMC_BOOT_RESP_NONE) with false.
  change (CMD13_SEND_STATUS =? ACMD41_SEND_OP_COND) with false. cbn [andb].
  destruct (any v MMC_BOOT_MCI_STAT_CMD_TIMEOUT); [by apply wp_ret|].
  destruct (_ || _); [|destruct (any v MMC_BOOT_MCI_STAT_CMD_CRC_FAIL); [by apply wp_ret|by apply IH]].
  apply wp_bind. eapply wp_mono; [exact (wp_quiet _ _ _ _ _ (quiet_readl MMC_BOOT_MCI_RESP_CMD) Hs Ha)|cbv beta|done].
  clear s Hs Ha. intros w s [Hs Ha]. case_match; [|by apply wp_ret].
  unfold read_response. rewrite Ht. change (IS_RESP_136_BITS MMC_BOOT_RESP_R1) with false. cbv iota.
  apply wp_bind, wp_bind. pose proof (quiet_readl MMC_BOOT_MCI_RESP_0 s) as Hq. revert Hq. unfold readl. unfold wp at 1.
  cbn [reg_read monitor]. destruct (reg_read MMC_BOOT_MCI_RESP_0 (inner (hw s))) as [r h]. cbn [snd]. intros Hq.
  do 2 apply wp_ret. split; [by eapply at_stays|intros _]. apply (hear_answered r (seen (hw s)) Ha).
Qed.

Lemma status_signal prg arg :
  any (command_register (with_prg prg (command CMD13_SEND_STATUS arg MMC_BOOT_CMD_ADDRESS MMC_BOOT_RESP_R1))) MMC_BOOT_MCI_CMD_PROG_ENA
  = negb (prg =? 0).
Proof. unfold command_register. cbn [prg_enabled with_prg]. by destruct (prg =? 0). Qed.

Lemma status_told st st' prg v n s :
  at_ st n s → (∀ arg, next st CMD13_SEND_STATUS arg (negb (prg =? 0)) = Some st') →
  wp (mmc_boot_get_card_status polls prg v)
    (λ '(r, x) s', at_ st' (n + 1) s' ∧ (r = MMC_BOOT_E_SUCCESS → answered x s')) (legal (n + 1)) s.
Proof.
  intros Hs Hn. unfold mmc_boot_get_card_status. apply wp_bind. eapply wp_eq; [reflexivity|]. apply wp_bind.
  unfold mmc_boot_send_command. eapply issue_command; [exact Hs|done|rewrite status_signal; apply Hn|].
  intros s1 Hs1 Ha. eapply wp_mono; [by apply (wait_status_told polls st')| |done].
  intros [r cmd] s2 [Hs2 Ht]. destruct (Z.eqb_spec r MMC_BOOT_E_SUCCESS) as [->|Hr]; cbn [negb]; [|by apply wp_ret].
  case_match; apply wp_ret; [by split|auto].
Qed.

Lemma does_get_status st st' prg v :
  (∀ arg, next st CMD13_SEND_STATUS arg (negb (prg =? 0)) = Some st') →
  does always st st' 1 (mmc_boot_get_card_status polls prg v).
Proof. intros Hn n s Hs. eapply wp_mono; [exact (status_told st st' prg v n s Hs Hn)| |done]. by intros [r x] s' [? _]. Qed.

(** A card that is not programming any more is in the transfer state. *)
Lemma answered_tran signal x n s :
  at_ (Prog signal) n s → answered x s → MMC_BOOT_CARD_STATUS x ≠ MMC_BOOT_PROG_STATE → at_ Tran n s.
Proof.
  intros [(p & Hp & Hb) Hl] [_ Hx] Hne. split; [|done]. destruct Hb as [-> |[-> _]]; [by apply Hx in Hp|].
  exists Tran. split; [done|by left].
Qed.

Lemma does_switch_cmd a i v :
  Z.testbit (u32 (Z.lor (Z.lor (Z.shiftl a 24) (Z.shiftl i 16)) (Z.shiftl v 8))) 31 = false →
  does succeeded Tran (Prog false) 1 (mmc_boot_switch_cmd polls a i v).
Proof.
  intros Ha. unfold mmc_boot_switch_cmd. cbv zeta. eapply (does_sent _ (Prog false) _ 0); [done| |intros; apply does_ret].
  cbn [next cmd_index command argument CMD6_SWITCH_FUNC]. by rewrite Ha.
Qed.
#[local] Hint Resolve does_select_card does_block_len : does.

Lemma does_fifo_read {A} (ok : A → bool) st len buf (f : Z * buffer → M A) :
  (∀ r, quiet (f r)) → does ok st st 0 (mmc_boot_fifo_read polls len buf ≫= f).
Proof. intros Hf. apply does_quiet, quiet_bind; [apply quiet_fifo_read|done]. Qed.

Lemma does_send_ext_cmd : does succeeded Tran Tran 2 (mmc_boot_send_ext_cmd polls).
Proof.
  unfold mmc_boot_send_ext_cmd, enable_flow. apply does_after; [solve [quiet]|intros _]. does; [|reflexivity].
  apply does_fifo_read. intros [r b]. quiet.
Qed.
#[local] Hint Resolve does_send_ext_cmd : does.

(** The card says that it has left the programming state. *)
Lemma does_wait_switched n : does succeeded (Prog false) Tran n (wait_switched polls uninit n).
Proof.
  induction n as [|n IH]; intros k s Hs; cbn [wait_switched]; [eapply wp_ret, legal_mono; [by eapply at_legal|lia]|].
  apply wp_bind. eapply wp_mono; [by apply (status_told (Prog false) (Prog false))| |intros s' Hl; eapply legal_mono; [exact Hl|lia]].
  intros [r x] s1 [Hs1 Ht]. unfold succeeded. replace (k + S n)%nat with (k + 1 + n)%nat by lia.
  assert (legal (k + 1 + n) s1) as Hl by (eapply legal_mono; [by eapply at_legal|lia]).
  destruct (Z.eqb_spec r MMC_BOOT_E_SUCCESS) as [->|Hr]; cbn [negb].
  2:{ apply wp_ret. by rewrite (proj2 (Z.eqb_neq _ _)). }
  destruct (n =? 0)%nat; [by apply wp_ret|]. destruct (Z.eqb_spec (MMC_BOOT_CARD_STATUS x) MMC_BOOT_PROG_STATE); [by apply IH|].
  apply wp_ret. rewrite Z.eqb_refl. eapply at_mono; [eapply answered_tran; eauto|lia].
Qed.
#[local] Hint Resolve does_wait_switched : does.

Lemma does_set_bus_width : does succeeded Tran Tran 101 (mmc_boot_set_bus_width polls uninit MMC_BOOT_BUS_WIDTH_4_BIT).
Proof.
  unfold mmc_boot_set_bus_width, set_widebus. cbv zeta. change 101%nat with (1 + 100)%nat.
  eapply does_TRY; [by apply does_switch_cmd|]. does.
Qed.

Lemma does_adjust_speed : does succeeded Tran Tran 101 (mmc_boot_adjust_interface_speed polls uninit).
Proof.
  unfold mmc_boot_adjust_interface_speed. change 101%nat with (1 + 100)%nat.
  eapply does_TRY; [by apply does_switch_cmd|]. does.
Qed.
#[local] Hint Resolve does_set_bus_width does_adjust_speed : does.

(** ** Initialisation *)

Lemma does_identify : does succeeded OpCond Tran 6 (mmc_boot_identify_card polls uninit).
Proof.
  unfold mmc_boot_identify_card. does.
  - case_match; [apply does_send_ext_cmd|]. eapply does_weaken; [apply does_ret|done|lia].
  - apply does_quiet. unfold mmc_boot_decode_and_save_csd. quiet.
  - apply does_quiet. unfold mmc_boot_set_read_timeout, access_time_ns. quiet.
  - apply does_quiet. unfold mmc_boot_set_write_timeout, access_time_ns. quiet.
  - reflexivity.
Qed.
#[local] Hint Resolve does_identify : does.

Lemma does_app_cmd st r :
  st = OpCond ∨ st = Tran ∨ st = App OpCond ∨ st = App Tran →
  does succeeded st (match st with App st => App st | st => App st end) 1 (mmc_boot_send_app_cmd polls r).
Proof. intros Hst. unfold mmc_boot_send_app_cmd. destruct_or! Hst; subst; does. Qed.

Definition sd_ready {A} (r : Z + A) : bool := match r with inl r => r =? 0 | inr _ => true end.

Lemma does_sd_if_cond n arg cmd : does sd_ready OpCond OpCond n (sd_if_cond polls n arg cmd).
Proof.
  revert cmd. induction n as [|n IH]; intros cmd; cbn [sd_if_cond]; [by apply does_ret|]. change (S n) with (1 + n)%nat.
  eapply does_then; [by apply does_command|]. intros [r cmd']. case_match.
  - case_match; eapply does_weaken; (apply does_ret || done || lia).
  - apply does_after; [solve [quiet]|intros _]. apply IH.
Qed.

Lemma does_sd_op_cond n arg cmd : does succeeded OpCond OpCond (2 * n) (sd_op_cond polls n arg cmd).
Proof.
  revert cmd. induction n as [|n IH]; intros cmd; cbn [sd_op_cond]; [by apply does_ret|].
  eapply does_weaken; [eapply does_TRY; [apply does_app_cmd; by left|]|done|].
  - eapply (does_sent _ OpCond _ (2 * n)); [done|done|intros cmd']. case_match.
    + eapply does_weaken; [by apply does_quiet; quiet|done|lia].
    + apply does_after; [solve [quiet]|intros _]. apply IH.
  - lia.
Qed.

Lemma does_sd_init : does succeeded OpCond OpCond 43 (mmc_boot_sd_init_card polls uninit).
Proof.
  unfold mmc_boot_sd_init_card. change 43%nat with (3 + 40)%nat. eapply does_bind; [apply does_sd_if_cond| |].
  - intros [r|[arg cmd]] Hr; [eapply does_weaken; [apply does_ret|done|lia]|]. apply (does_sd_op_cond 20).
  - intros [r|[arg cmd]] Hr; [|done]. by exists r.
Qed.

Lemma does_op_cond_loop st n :
  st = Idle ∨ st = OpCond → does succeeded st OpCond (n + 44) (op_cond_loop polls uninit n).
Proof.
  revert st. induction n as [|n IH]; intros st Hst; cbn [op_cond_loop].
  all: match goal with |- does _ _ _ (?k + 44) _ => replace (k + 44)%nat with (1 + (k + 43))%nat by lia end.
  all: eapply does_then; [by apply does_send_op_cond|intros r].
  all: destruct (r =? MMC_BOOT_E_CARD_BUSY); [apply does_after; [solve [quiet]|intros _]|
         destruct (r =? MMC_BOOT_E_SUCCESS); [|by eapply does_weaken; [apply does_sd_init|done|lia]]].
  3: by replace (S n + 43)%nat with (n + 44)%nat by lia; apply IH; right.
  all: by eapply does_weaken; [apply does_ret|done|lia].
Qed.

(** host->cmd_retry is read from the state. *)
Lemma does_init_card st :
  retry = MMC_BOOT_MAX_COMMAND_RETRY → does succeeded st OpCond 1044 (mmc_boot_init_card polls uninit).
Proof.
  intros Hmax. unfold mmc_boot_init_card. change 1044%nat with (1 + (999 + 44))%nat.
  eapply does_TRY; [apply does_reset_cards|]. intros n s Hs. apply wp_bind. unfold wp, host at 1.
  pose proof Hs as [_ (_ & _ & Hr)]. rewrite Hr, Hmax. apply (does_op_cond_loop Idle 999); [by left|done].
Qed.

Lemma does_sd_hs : does succeeded Tran Tran 1 (mmc_boot_set_sd_hs polls uninit).
Proof.
  unfold mmc_boot_set_sd_hs, mmc_boot_read_reg, enable_flow. change 1%nat with (1 + 0)%nat.
  eapply does_then; [|intros [r b]; apply does_quiet; solve [quiet]].
  repeat (apply does_after; [solve [quiet]|intros ?]). change 1%nat with (1 + 0)%nat.
  eapply does_then; [by apply does_command|]. intros [r cmd]. apply does_quiet, quiet_if; [solve [quiet]|apply quiet_fifo_read].
Qed.
#[local] Hint Resolve does_sd_hs : does.

(** The card stays in the transfer state even when a command fails. *)
Lemma does_sd_bus_width st w :
  st = Tran ∨ st = App Tran → ∀ n s, at_ st n s →
  wp (mmc_boot_set_sd_bus_width polls w)
    (λ r s', if succeeded r then at_ Tran (n + 2) s' else at_ Tran (n + 2) s' ∨ at_ (App Tran) (n + 2) s') (legal (n + 2)) s.
Proof.
  intros Hst n s Hs. unfold mmc_boot_set_sd_bus_width. apply wp_bind, wp_ret. unfold on_success. apply wp_bind.
  assert (does always st (App Tran) 1 (mmc_boot_send_app_cmd polls (rca (mmc_card s)))) as Ha.
  { unfold mmc_boot_send_app_cmd, sent. change 1%nat with (1 + 0)%nat.
    eapply does_then; [apply does_command; [done|by destruct Hst as [-> | ->]]|]. intros [r c]. apply does_quiet. quiet. }
  eapply wp_mono; [exact (Ha n s Hs)| |intros s' Hl; eapply legal_mono; [exact Hl|lia]].
  intros r s1 Hs1. cbn [always] in Hs1. unfold succeeded. destruct (r =? MMC_BOOT_E_SUCCESS) eqn:Er.
  2:{ apply wp_ret. rewrite Er. right. eapply at_mono; [exact Hs1|lia]. }
  cbv zeta. unfold sent. apply wp_bind. replace (n + 2)%nat with (n + 1 + 1)%nat by lia.
  match goal with |- context [mmc_boot_send_command _ ?c] =>
    eapply wp_mono; [exact (does_command (App Tran) Tran c ltac:(done) ltac:(done) _ _ Hs1)| |done] end.
  intros [r2 c2] s2 Hs2. cbn [always] in Hs2. assert (quiet (set_widebus w;; mret MMC_BOOT_E_SUCCESS : M Z)) as Hq
    by (unfold set_widebus; quiet).
  destruct (r2 =? MMC_BOOT_E_SUCCESS) eqn:E2; [|apply wp_ret; rewrite E2; by left].
  pose proof (does_quiet always Tran _ Hq _ _ Hs2) as Hw. rewrite Nat.add_0_r in Hw.
  eapply wp_mono; [exact Hw| |done]. intros a s3 Hs3. destruct (a =? _); [done|by left].
Qed.

Lemma does_sd_setup :
  does succeeded Tran Tran 5
    (TRY mmc_boot_set_sd_hs polls uninit;
     mmc_return ← mmc_boot_set_sd_bus_width polls MMC_BOOT_BUS_WIDTH_4_BIT;
     if negb (mmc_return =? MMC_BOOT_E_SUCCESS) then mmc_boot_set_sd_bus_width polls MMC_BOOT_BUS_WIDTH_1_BIT
     else mret MMC_BOOT_E_SUCCESS).
Proof.
  change 5%nat with (1 + 4)%nat. eapply does_TRY; [apply does_sd_hs|]. intros n s Hs. apply wp_bind.
  eapply wp_mono; [apply (does_sd_bus_width Tran); [by left|exact Hs]| |intros s' Hl; eapply legal_mono; [exact Hl|lia]].
  intros r s1 Hs1. unfold succeeded in Hs1 at 1. destruct (r =? MMC_BOOT_E_SUCCESS); cbn [negb].
  { apply wp_ret. eapply at_mono; [exact Hs1|lia]. }
  replace (n + 4)%nat with (n + 2 + 2)%nat by lia.
  assert (∃ st, (st = Tran ∨ st = App Tran) ∧ at_ st (n + 2) s1) as (st & Hst & Hs2) by (destruct Hs1; eauto).
  eapply wp_mono; [by apply (does_sd_bus_width st)| |done]. cbv beta. intros a s2. destruct (succeeded a); [done|].
  intros [?|?]; by eapply at_legal.
Qed.
#[local] Hint Resolve does_sd_setup : does.

(** The card has said that it is in the transfer state. *)
Definition confirmed (s : st_) : Prop := told (seen (hw s)) = Some MMC_BOOT_TRAN_STATE.

Lemma does_setup c :
  does succeeded Tran Tran 202
    (if is_sd c then
       TRY mmc_boot_set_sd_hs polls uninit;
       mmc_return ← mmc_boot_set_sd_bus_width polls MMC_BOOT_BUS_WIDTH_4_BIT;
       if negb (mmc_return =? MMC_BOOT_E_SUCCESS) then mmc_boot_set_sd_bus_width polls MMC_BOOT_BUS_WIDTH_1_BIT
       else mret MMC_BOOT_E_SUCCESS
     else
       TRY mmc_boot_adjust_interface_speed polls uninit;
       mmc_boot_set_bus_width polls uninit MMC_BOOT_BUS_WIDTH_4_BIT).
Proof.
  destruct (is_sd c); [eapply does_weaken; [apply does_sd_setup|done|lia]|].
  change 202%nat with (101 + 101)%nat. eapply does_TRY; [apply does_adjust_speed|apply does_set_bus_width].
Qed.

(** [wp] of a step whose failure is returned. *)
Lemma wp_TRY st st' j k n (m f : M Z) (Q : Z → st_ → Prop) s :
  does succeeded st st' j m → at_ st n s → (j ≤ k)%nat →
  (∀ r s', legal (n + k) s' → r ≠ MMC_BOOT_E_SUCCESS → Q r s') →
  (∀ s', at_ st' (n + j) s' → wp f Q (legal (n + k)) s') → wp (TRY m; f) Q (legal (n + k)) s.
Proof.
  intros Hm Hs Hj He Hf. unfold on_success. apply wp_bind.
  eapply wp_mono; [exact (Hm n s Hs)|cbv beta|intros s' Hl; eapply legal_mono; [exact Hl|lia]].
  intros r s' Hs'. unfold succeeded in Hs'. destruct (Z.eqb_spec r MMC_BOOT_E_SUCCESS) as [->|Hr]; [by apply Hf|].
  apply wp_ret, He; [eapply legal_mono; [exact Hs'|lia]|done].
Qed.

Lemma init_and_identify_tran st n s :
  retry = MMC_BOOT_MAX_COMMAND_RETRY → at_ st n s →
  wp (mmc_boot_init_and_identify_cards polls uninit)
    (λ r s', if succeeded r then at_ Tran (n + 1253) s' ∧ confirmed s' else legal (n + 1253) s') (legal (n + 1253)) s.
Proof.
  intros Hmax Hs. unfold mmc_boot_init_and_identify_cards.
  assert (∀ (r : Z) s', legal (n + 1253) s' → r ≠ MMC_BOOT_E_SUCCESS →
    if succeeded r then at_ Tran (n + 1253) s' ∧ confirmed s' else legal (n + 1253) s') as He.
  { intros r s' Hl Hr. unfold succeeded. by rewrite (proj2 (Z.eqb_neq _ _)). }
  apply wp_bind. eapply wp_eq; [reflexivity|].
  eapply wp_TRY; [by apply does_init_card|exact Hs|lia|done|]. clear s Hs. intros s Hs.
  replace (n + 1253)%nat with (n + 1044 + 209)%nat in * by lia. eapply wp_TRY; [apply does_identify|exact Hs|lia|done|].
  clear s Hs. intros s Hs. apply wp_bind. eapply wp_eq; [reflexivity|].
  replace (n + 1044 + 209)%nat with (n + 1044 + 6 + 203)%nat in * by lia.
  eapply wp_TRY; [apply does_setup|exact Hs|lia|done|]. clear s Hs. intros s Hs. apply wp_bind.
  replace (n + 1044 + 6 + 203)%nat with (n + 1044 + 6 + 202 + 1)%nat in * by lia.
  eapply wp_mono; [by apply (status_told Tran Tran)| |done]. intros [r x] s1 [Hs1 Ha].
  destruct (Z.eqb_spec r MMC_BOOT_E_SUCCESS) as [->|Hr]; cbn [negb]; [|by apply wp_ret, He; [eapply at_legal|]].
  destruct (Z.eqb_spec (MMC_BOOT_CARD_STATUS x) MMC_BOOT_TRAN_STATE) as [Hx|Hx]; cbn [negb]; apply wp_ret; [|by apply He; [eapply at_legal|]].
  split; [done|]. destruct (Ha eq_refl) as [Ht _]. unfold confirmed. by rewrite Ht, Hx.
Qed.

(** ** Transfers *)

Lemma does_stop_read : does succeeded Sending Tran 1 (mmc_boot_send_stop_transmission polls 0).
Proof. unfold mmc_boot_send_stop_transmission. does. Qed.

Lemma does_stop_write : does succeeded Receiving (Prog true) 1 (mmc_boot_send_stop_transmission polls 1).
Proof. unfold mmc_boot_send_stop_transmission. does. Qed.

(** Blocks are read up to their number or until CMD12. *)
Lemma does_read_from_card a len out : does succeeded1 Tran Tran 4 (mmc_boot_read_from_card polls a len out).
Proof.
  unfold mmc_boot_read_from_card. apply does_after; [solve [quiet]|intros c]. apply does_after; [solve [quiet]|intros h].
  set (mult := transfer_type c len =? MMC_BOOT_XFER_MULTI_BLOCK).
  set (counted := mult && ((type c =? MMC_BOOT_TYPE_MMCHC) || (type c =? MMC_BOOT_TYPE_STD_MMC))).
  change 4%nat with (1 + (1 + (1 + 1)))%nat.
  assert (∀ (r : Z), r ≠ 0 → ∃ b : Z * buffer, mret (r, out) = (mret b : M _) ∧ succeeded1 b = false) as Hf.
  { intros r Hr. eexists. split; [done|]. by apply Z.eqb_neq. }
  eapply does_try; [apply does_block_len| |done]. cbv zeta.
  eapply (does_try _ _ (if counted then Counted else Tran)); [|repeat (apply does_after; [solve [quiet]|intros ?])|done].
  { destruct counted; [unfold mmc_boot_set_block_count; does|eapply does_weaken; [apply does_ret|done|lia]]. }
  eapply (does_try _ _ (if mult && negb counted then Sending else Tran)); [| |done].
  { unfold mmc_boot_send_read_command, check_transfer. subst mult counted.
    destruct (transfer_type c len =? MMC_BOOT_XFER_MULTI_BLOCK); cbn [andb negb]; [case_match; cbn [negb]|]; does. }
  apply does_after; [apply quiet_fifo_read|intros [r b]]. destruct (r =? MMC_BOOT_E_SUCCESS) eqn:Er; cbn [negb].
  - destruct (mult && negb counted).
    + change 1%nat with (1 + 0)%nat. eapply does_bind; [apply does_stop_read|intros v Hv; apply does_ret|].
      intros v Hv. by eexists.
    + eapply does_weaken; [apply does_ret|done|lia].
  - intros n s Hs. apply wp_ret. unfold succeeded1. cbn [fst]. rewrite Er. eapply legal_mono; [by eapply at_legal|lia].
Qed.

(** The controller signals the end of programming. *)
Lemma does_wait_prog_done fuel : does succeeded (Prog true) Tran 0 (wait_prog_done fuel).
Proof.
  induction fuel as [|fuel IH]; intros n s Hs; cbn [wait_prog_done]; [eapply legal_mono; [by eapply at_legal|lia]|].
  apply wp_bind. pose proof (quiet_readl MMC_BOOT_MCI_STATUS s) as Hq. revert Hq. unfold readl. unfold wp at 1.
  cbn [reg_read monitor]. destruct (reg_read MMC_BOOT_MCI_STATUS (inner (hw s))) as [v h]. cbn [snd]. intros Hq.
  pose proof (at_stays _ _ _ _ Hs Hq) as Hs'. destruct (any v MMC_BOOT_MCI_STAT_PROG_DONE) eqn:E; [|by apply IH].
  apply wp_ret. cbn [succeeded MMC_BOOT_E_SUCCESS Z.eqb]. rewrite Nat.add_0_r. split; [|by eapply at_legal].
  destruct Hs as [(p & Hp & Hb) _]. exists Tran. split; [|by left]. cbn. unfold hear. cbn. rewrite E, Hp.
  by destruct Hb as [-> |[-> _]].
Qed.

Lemma does_write_to_card a len inb : does succeeded Tran Tran 3 (mmc_boot_write_to_card polls uninit a len inb).
Proof.
  unfold mmc_boot_write_to_card. apply does_after; [solve [quiet]|intros c]. change 3%nat with (1 + (1 + 1))%nat.
  set (mult := transfer_type c len =? MMC_BOOT_XFER_MULTI_BLOCK). eapply does_TRY; [apply does_block_len|]. cbv zeta.
  do 3 (apply does_after; [by unfold enable_flow; quiet|intros _]).
  eapply (does_TRY _ (if mult then Receiving else Receiving1)).
  { unfold mmc_boot_send_write_command, check_transfer. subst mult.
    destruct (transfer_type c len =? MMC_BOOT_XFER_MULTI_BLOCK); does. }
  apply does_after; [solve [quiet]|intros _]. apply does_after; [apply quiet_fifo_write|intros r].
  destruct (r =? MMC_BOOT_E_SUCCESS) eqn:Er; cbn [negb].
  - change 1%nat with (1 + 0)%nat. eapply does_TRY; [|apply does_wait_prog_done].
    destruct mult; [apply does_stop_write|]. change 1%nat with (1 + 0)%nat.
    eapply does_then; [by apply (does_get_status Receiving1 (Prog true))|intros [v x]; apply does_ret].
  - destruct mult; intros n s Hs; [apply wp_bind|apply wp_ret; unfold succeeded; rewrite Er;
      eapply legal_mono; [by eapply at_legal|lia]].
    eapply wp_mono; [exact (does_stop_write n s Hs)| |done]. intros v s1 Hs1. apply wp_ret.
    unfold succeeded in *. rewrite Er. destruct (v =? _); [by eapply at_legal|exact Hs1].
Qed.

Lemma does_card_write_loop fuel buf p a o len :
  does succeeded Tran Tran (3 * S fuel) (card_write_loop polls uninit fuel buf p a o len).
Proof.
  revert p o len. induction fuel as [|fuel IH]; intros p o len; cbn [card_write_loop].
  - repeat case_match; [by eapply does_weaken; [apply does_quiet; quiet|done|lia]|apply does_write_to_card|].
    eapply does_weaken; [apply does_ret|done|lia].
  - case_match; [replace (3 * S (S fuel))%nat with (3 + 3 * S fuel)%nat by lia; eapply does_TRY; [apply does_write_to_card|apply IH]|].
    case_match; (eapply does_weaken; [apply does_write_to_card || apply does_ret|done|lia]).
Qed.

(** Polling with CMD13: the card stays where it is, and has left the programming state
    when the poll succeeds. *)
Lemma does_wait_tran st st' fuel v :
  (st = Erase2 ∧ st' = Erase2) ∨ (st = Prog false ∧ st' = Tran) → does succeeded st st' fuel (wait_tran polls fuel v).
Proof.
  intros Hst. assert (∀ arg, next st CMD13_SEND_STATUS arg false = Some st) as Hn by (by destruct Hst as [[-> _]|[-> _]]).
  assert (∀ x n s, at_ st n s → answered x s → MMC_BOOT_CARD_STATUS x ≠ MMC_BOOT_PROG_STATE → at_ st' n s) as Ht.
  { destruct Hst as [[-> ->]|[-> ->]]; [done|]. intros. by eapply answered_tran. }
  clear Hst. revert v. induction fuel as [|fuel IH]; intros v n s Hs; cbn [wait_tran];
    [eapply legal_mono; [by eapply at_legal|lia]|].
  apply wp_bind. eapply wp_mono; [by apply (status_told st st)| |intros s' Hl; eapply legal_mono; [exact Hl|lia]].
  intros [r x] s1 [Hs1 Ha]. replace (n + S fuel)%nat with (n + 1 + fuel)%nat by lia.
  assert (MMC_BOOT_CARD_STATUS x ≠ MMC_BOOT_PROG_STATE ∨ r ≠ MMC_BOOT_E_SUCCESS →
    wp (mret r) (λ a s', if succeeded a then at_ st' (n + 1 + fuel) s' else legal (n + 1 + fuel) s') (legal (n + 1 + fuel)) s1) as Hr.
  { intros Hx. apply wp_ret. unfold succeeded. destruct (Z.eqb_spec r MMC_BOOT_E_SUCCESS) as [->|Hr].
    - destruct Hx; [|done]. eapply at_mono; [eapply Ht; eauto|lia].
    - eapply legal_mono; [by eapply at_legal|lia]. }
  destruct (Z.eqb_spec (MMC_BOOT_CARD_STATUS x) MMC_BOOT_TRAN_STATE) as [Hx|_]; [apply Hr; left; by rewrite Hx|].
  destruct (Z.eqb_spec r MMC_BOOT_E_SUCCESS); cbn [andb]; [|auto].
  destruct (Z.eqb_spec (MMC_BOOT_CARD_STATUS x) MMC_BOOT_PROG_STATE); [by apply IH|auto].
Qed.

(** Where mmc_boot_send_erase returns nothing, the card may still be erasing. *)
Definition erased : cstate := if uninit =? 0 then Prog false else Tran.

Lemma at_erased n s : at_ Tran n s → at_ erased n s.
Proof.
  intros [(p & Hp & [-> |[-> _]]) Hl]; (split; [|done]); exists Tran; (split; [done|]); unfold erased, reached;
    destruct (uninit =? 0); eauto.
Qed.

Lemma does_erased {A} (ok : A → bool) st k (m : M A) : does ok st Tran k m → does ok st erased k m.
Proof.
  intros Hm n s Hs. eapply wp_mono; [exact (Hm n s Hs)|cbv beta|done]. intros a s'. destruct (ok a); auto using at_erased.
Qed.

Lemma does_send_erase : does succeeded Erase2 erased (1 + 2 * polls) (mmc_boot_send_erase polls uninit).
Proof.
  unfold mmc_boot_send_erase. replace (1 + 2 * polls)%nat with (polls + (1 + polls))%nat by lia.
  eapply does_TRY; [apply (does_wait_tran Erase2 Erase2); by left|].
  eapply (does_sent _ (Prog false)); [done|done|intros cmd]. case_match; [|by apply does_erased, does_wait_tran; right].
  intros n s Hs. apply wp_ret. unfold succeeded, erased. destruct (uninit =? MMC_BOOT_E_SUCCESS) eqn:E.
  - unfold MMC_BOOT_E_SUCCESS in E. rewrite E. eapply at_mono; [exact Hs|lia].
  - eapply legal_mono; [by eapply at_legal|lia].
Qed.

Lemma does_erase_group st st' i a : i = CMD35_ERASE_GROUP_START ∨ i = CMD36_ERASE_GROUP_END → (∀ arg, next st i arg false = Some st') →
  does succeeded st st' 1 (erase_group polls i a).
Proof.
  intros Hi Hn. unfold erase_group. eapply (does_sent _ st' _ 0); [|destruct Hi as [-> | ->]; apply Hn|intros cmd; apply does_ret].
  by destruct Hi as [-> | ->].
Qed.

Lemma does_erase_card a size : does succeeded Tran erased (774 + 2 * polls) (mmc_erase_card polls uninit a size).
Proof.
  unfold mmc_erase_card. apply does_after; [solve [quiet]|intros c]. apply does_after; [solve [quiet]|intros ext]. cbv zeta.
  case_match; [apply does_erased; eapply does_weaken; [apply does_ret|done|lia]|].
  case_match; [apply does_erased; eapply does_weaken; [apply (does_card_write_loop 257)|done|lia]|]. unfold erase_range.
  eapply does_weaken; [eapply (does_TRY _ Erase1); [by apply does_erase_group; [left|]|eapply (does_TRY _ Erase2);
    [by apply does_erase_group; [right|]|eapply does_TRY; [apply does_send_erase|apply does_ret]]]|done|lia].
Qed.
End Protocol.

(** The state after mmc_boot_init. *)
Definition powered {H} `{Mci H} (s : mmc_state H) : mmc_state H :=
  mkMmc (delay 2000 (reg_write MMC_BOOT_MCI_POWER (Z.lor MMC_BOOT_MCI_PWR_ON MMC_BOOT_MCI_PWR_UP)
           (delay 2000 (clock_config MMC_CLK_400KHZ (clock_init (hw s))))))
    (mkHost MMC_CLK_400KHZ (Z.lor MMC_BOOT_OCR_27_36 MMC_BOOT_OCR_SEC_MODE) MMC_BOOT_MAX_COMMAND_RETRY)
    (mmc_card s) (ext_csd_buf s) (wp_status_buf s).

Lemma mmc_boot_init_run {H} `{Mci H} (s : mmc_state H) : mmc_boot_init s = (Ret MMC_BOOT_E_SUCCESS, powered s).
Proof. reflexivity. Qed.

Lemma main_legal {H} `{Mci H} polls uninit st n (s : mmc_state (monitored H)) :
  phase (seen (hw s)) = Some st → (count (seen (hw s)) ≤ n)%nat →
  wp (mmc_boot_main polls uninit (mret MMC_BOOT_E_SUCCESS))
    (λ r s', if succeeded r then at_ 1000 Tran (n + 1253) s' ∧ confirmed s' else legal 1000 (n + 1253) s') (legal 1000 (n + 1253)) s.
Proof.
  intros Hp Hc. unfold mmc_boot_main. do 2 (apply wp_bind; eapply wp_eq; [reflexivity|]). apply wp_bind.
  eapply wp_eq; [apply mmc_boot_init_run|]. change (negb (MMC_BOOT_E_SUCCESS =? MMC_BOOT_E_SUCCESS)) with false.
  cbv iota. apply wp_bind. eapply wp_mono; [apply (init_and_identify_tran polls uninit 1000 st n); [done|]| |done].
  - unfold at_, legal, powered. cbn [hw mmc_host cmd_retry].
    change (seen (delay _ _)) with (seen (hw s)). rewrite Hp. split_and!; [exists st; split; [done|by left]|by eexists|done|done].
  - intros r s1. unfold succeeded at 1. destruct (r =? MMC_BOOT_E_SUCCESS); intros Hs1; apply wp_ret; exact Hs1.
Qed.

Lemma at_tran {H} retry n (s : mmc_state (monitored H)) : at_ retry Tran n s → phase (seen (hw s)) = Some Tran.
Proof. by intros [(p & Hp & [-> |[-> _]]) _]. Qed.

(** C12: Whatever the controller and the card answer, and wherever the run is cut off,
    mmc_boot_main sends commands only in the order that the specifications of MMC and SD
    cards allow, from a reset on: no command but CMD13 while the card completes a switch
    and has not said that it is done.  It sends at most 1253 of them, so neither a busy card
    nor one that never completes a switch holds it up.  When it reports success the card is
    in the transfer state, and has said so in its answer to the last command, a CMD13. *)
Theorem init_commands_legal {H : Type} `{Mci H} (polls : nat) (uninit : Z) (s : mmc_state (monitored H)) :
  is_Some (phase (seen (hw s))) →
  let '(o, s') := mmc_boot_main polls uninit (mret MMC_BOOT_E_SUCCESS) s in
  is_Some (phase (seen (hw s'))) ∧ (count (seen (hw s')) ≤ count (seen (hw s)) + 1253)%nat ∧
  (o = Ret MMC_BOOT_E_SUCCESS →
   phase (seen (hw s')) = Some Tran ∧ told (seen (hw s')) = Some MMC_BOOT_TRAN_STATE).
Proof.
  intros [st Hp]. pose proof (main_legal polls uninit st _ s Hp (le_n _)) as Hw. revert Hw. unfold wp.
  generalize (mmc_boot_main polls uninit (mret MMC_BOOT_E_SUCCESS) s). generalize (count (seen (hw s)) + 1253)%nat.
  clear. intros n [o s']. destruct o as [r| |]; [|by intros (? & ? & _)..].
  unfold succeeded. destruct (Z.eqb_spec r MMC_BOOT_E_SUCCESS) as [->|Hr].
  - intros [Ht Hc]. pose proof (at_tran _ _ _ Ht) as Hp. destruct Ht as [_ (? & ? & _)]. done.
  - intros (? & ? & _). split_and!; [done|done|]. by intros [= ->].
Qed.

(** What [does] says of a run, on its own. *)
Lemma does_run {H : Type} `{Mci H} {A} (ok : A → bool) st st' k (m : drv (monitored H) A) s :
  does (cmd_retry (mmc_host s)) ok st st' k m → phase (seen (hw s)) = Some st →
  let '(o, s') := m s in
  is_Some (phase (seen (hw s'))) ∧
  (∀ a, o = Ret a → ok a = true → ∃ p, phase (seen (hw s')) = Some p ∧ reached p st').
Proof.
  intros Hd Hp. assert (at_ (cmd_retry (mmc_host s)) st (count (seen (hw s))) s) as Ha.
  { unfold at_, legal. cbn. rewrite Hp. split_and!; [exists st; split; [done|by left]|by eexists|lia|done]. }
  specialize (Hd _ _ Ha). revert Hd. unfold wp. generalize (m s). intros [[a| |] s']; [|by intros (? & _)..].
  intros Hs'. split; [|intros b [= <-] Hb; rewrite Hb in Hs'; by destruct Hs'].
  destruct (ok a); [destruct Hs' as [_ [? _]]|destruct Hs' as [? _]]; done.
Qed.

Lemma reached_tran (w : watch) : (∃ p, phase w = Some p ∧ reached p Tran) → phase w = Some Tran.
Proof. by intros (p & Hp & [-> |[-> _]]). Qed.

(** C23: In the transfer state, reading, writing and erasing send commands only in the
    order that the card allows, whatever it answers and wherever the run is cut off: the
    blocks of a multi-block read are counted beforehand or the read is stopped, a write is
    stopped or its status is asked for, erasing follows start, end, erase, and while the
    card programs or erases nothing but CMD13 is sent until PROG_DONE or the answer to a
    CMD13 says that it has finished.  Each operation that reports success leaves the card in
    the transfer state; only an erase whose [return;] without a value reads as success may
    leave it erasing. *)
Theorem transfer_commands_legal {H : Type} `{Mci H} (polls : nat) (uninit addr len : Z) (buf : buffer) (s : mmc_state (monitored H)) :
  phase (seen (hw s)) = Some Tran →
  (let '(o, s') := mmc_boot_read_from_card polls addr len buf s in
   is_Some (phase (seen (hw s'))) ∧ (∀ out, o = Ret (0, out) → phase (seen (hw s')) = Some Tran)) ∧
  (let '(o, s') := card_write polls uninit addr len buf s in
   is_Some (phase (seen (hw s'))) ∧ (o = Ret 0 → phase (seen (hw s')) = Some Tran)) ∧
  (let '(o, s') := mmc_erase_card polls uninit addr len s in
   is_Some (phase (seen (hw s'))) ∧
   (o = Ret 0 → phase (seen (hw s')) = Some Tran ∨ uninit = 0 ∧ phase (seen (hw s')) = Some (Prog false))).
Proof.
  intros Hp. split_and!.
  - pose proof (does_run succeeded1 Tran Tran 4 (mmc_boot_read_from_card polls addr len buf) s
      (does_read_from_card polls _ addr len buf) Hp) as Hr.
    revert Hr. generalize (mmc_boot_read_from_card polls addr len buf s). intros [o s'] [? Hr].
    split; [done|]. intros out Ho. by apply reached_tran, (Hr _ Ho).
  - pose proof (does_run succeeded Tran Tran _ (card_write polls uninit addr len buf) s
      (does_card_write_loop polls uninit _ 257 buf 0 addr 0 _) Hp) as Hr.
    revert Hr. generalize (card_write polls uninit addr len buf s). intros [o s'] [? Hr]. split; [done|].
    intros Ho. by apply reached_tran, (Hr _ Ho).
  - pose proof (does_run succeeded Tran (erased uninit) _ (mmc_erase_card polls uninit addr len) s
      (does_erase_card polls uninit _ addr len) Hp) as Hr.
    revert Hr. generalize (mmc_erase_card polls uninit addr len s). intros [o s'] [? Hr]. split; [done|]. intros Ho.
    destruct (Hr _ Ho eq_refl) as (p & -> & Hb). unfold erased in Hb. destruct (Z.eqb_spec uninit 0).
    + destruct Hb as [-> |[-> _]]; [right|left]; done.
    + left. by destruct Hb as [-> |[-> _]].
Qed.

(** Erasing stays in its range: on a card of high capacity, for whole sectors from a
    sector on and at least one erase group, the groups from the argument of CMD35 to that of
    CMD36 begin at the first sector of the range and end in it, and less than one group at
    its end is left. *)
Theorem erase_range_inside (c : mmc_boot_card) (addr size grp : Z) :
  is_hc c = true → 0 ≤ addr → addr mod 512 = 0 → 0 ≤ size → size mod 512 = 0 → addr + size ≤ 2 ^ 41 → 0 < grp ≤ size / 512 →
  let '(first, last) := erase_range c addr (size / 512) grp in
  first * 512 = addr ∧ first ≤ last ∧ (last + grp) * 512 ≤ addr + size ∧ addr + size - (last + grp) * 512 < grp * 512.
Proof.
  intros Hc Ha Ham Hs Hsm H41 Hg. unfold erase_range, card_address. rewrite Hc. cbn [negb].
  assert (size = size / 512 * 512) as Hsz by (Z.div_mod_to_equations; lia).
  set (n := size / 512) in *. clearbody n. subst size. clear Hsm Hs. set (q := n / grp).
  assert (1 ≤ q ∧ grp * q ≤ n < grp * q + grp) as [Hq Hn] by (subst q; Z.div_mod_to_equations; nia).
  clearbody q. assert (0 ≤ addr / 512 < 2 ^ 32 ∧ addr / 512 * 512 = addr) as [Hr He] by (Z.div_mod_to_equations; lia).
  rewrite (u32_small (addr / 512)) by lia. set (a := addr / 512) in *. clearbody a. subst addr.
  assert (grp * (q - 1) = grp * q - grp) as -> by lia. set (w := grp * q) in *. assert (grp ≤ w) by (subst w; nia). clearbody w.
  unfold u64. rewrite (Z.mod_small (w - grp)) by lia. rewrite Z.mod_small by lia. lia.
Qed.

Lemma erase_range_inside_witness :
  let '(first, last) := erase_range (set_type MMC_BOOT_TYPE_MMCHC no_card) (1024 * 512) ((3000 * 512) / 512) 1024 in
  first * 512 = 1024 * 512 ∧ first ≤ last ∧ (last + 1024) * 512 ≤ 1024 * 512 + 3000 * 512 ∧
  1024 * 512 + 3000 * 512 - (last + 1024) * 512 < 1024 * 512.
Proof. apply (erase_range_inside (set_type MMC_BOOT_TYPE_MMCHC no_card) (1024 * 512) (3000 * 512) 1024); vm_compute; done. Defined.
