(* ===== verification/MmcCard.v ===== *)
(** Transfers of the driver of mmc.c with a controller and a card of high capacity that
    behave as documented.

    [port] is what the driver can know of the controller and the card in the transfer
    state; [write_step] and [read_step] say what an access to a register does.  They leave
    the timing open: a command is answered, a word arrives or is taken, and programming
    ends after any number of polls, [slack] at most.  [Conforms] is the law for hardware,
    and the theorems hold for every instance of it: the driver implements the block device
    that the rest of the boot loader uses. *)
From Stdlib Require Import ZArith.
From stdpp Require Import base numbers list relations.
From S2P Require Import Prelude Bytes Mmc MmcDriver MmcProto.

(** * Words and bytes *)

Definition bytes_of_words (ws : list Z) : list Z := ws ≫= le_bytes 4 0.

Fixpoint words_of (n : nat) (bs : list Z) : list Z :=
  match n with
  | O => []
  | S n => le_or 0 (take 4 bs) :: words_of n (drop 4 bs)
  end.

Fixpoint le_value (bs : list Z) : Z := match bs with [] => 0 | b :: bs => b + 2 ^ 8 * le_value bs end.

Lemma le_or_value s bs : 0 ≤ s → Forall is_byte bs → le_or s bs = le_value bs * 2 ^ s.
Proof.
  intros Hs Hb. revert s Hs. induction Hb as [|b bs Hb _ IH]; intros s Hs; cbn [le_or le_value]; [done|].
  rewrite IH by lia. rewrite <- Z.shiftl_mul_pow2, (Z.add_comm s 8), <- Z.shiftl_shiftl, <- Z.shiftl_lor by lia.
  rewrite Z.lor_comm, lor_shift_add by (unfold is_byte in Hb; lia). rewrite Z.shiftl_mul_pow2 by lia. lia.
Qed.

Lemma le_bytes_or bs : length bs = 4%nat → Forall is_byte bs → le_bytes 4 0 (le_or 0 bs) = bs.
Proof.
  intros Hl Hb. rewrite le_or_value, Z.mul_1_r by (done || lia). destruct bs as [|b0 [|b1 [|b2 [|b3 [|]]]]]; try done.
  unfold is_byte in Hb. do 4 (apply Forall_cons in Hb as [? Hb]). cbn [le_value le_bytes].
  change 0xff with (Z.ones 8). rewrite !Z.land_ones, !Z.shiftr_div_pow2 by lia.
  change (2 ^ 0) with 1. change (2 ^ (0 + 8)) with 256. change (2 ^ (0 + 8 + 8)) with 65536.
  change (2 ^ (0 + 8 + 8 + 8)) with 16777216. change (2 ^ 8) with 256. repeat f_equal; Z.div_mod_to_equations; lia.
Qed.

Lemma bytes_words n bs : length bs = (4 * n)%nat → Forall is_byte bs → bytes_of_words (words_of n bs) = bs.
Proof.
  revert bs. induction n as [|n IH]; intros bs Hl Hb; [by destruct bs|]. cbn [words_of bytes_of_words].
  unfold bytes_of_words in *. cbn [mbind list_bind]. rewrite <- (take_drop 4 bs) at 3. f_equal.
  - apply le_bytes_or; [rewrite length_take; lia|by apply Forall_take].
  - apply IH; [rewrite length_drop; lia|by apply Forall_drop].
Qed.

Lemma length_words_of n bs : length (words_of n bs) = n.
Proof. revert bs. induction n; intros bs; cbn; auto. Qed.

Lemma length_bytes_of_words ws : length (bytes_of_words ws) = (4 * length ws)%nat.
Proof. unfold bytes_of_words. induction ws as [|w ws IH]; [done|]. cbn [mbind list_bind length]. rewrite length_app, length_le_bytes, IH. lia. Qed.

Lemma bytes_of_words_snoc ws w : bytes_of_words (ws ++ [w]) = bytes_of_words ws ++ le_bytes 4 0 w.
Proof. unfold bytes_of_words. by rewrite bind_app. Qed.

(** * The controller and the card *)

(** A command: none under way, on its way for [n] more polls at most, answered. *)
Inductive cmd_phase := CDone | CWait (n : nat) (index resp : Z) | CAnswered (index resp : Z).

(** Data: none; the words still to come, [avail] of them in the FIFO; a write command that
    waits for MCI_DATA_CTL; the words taken so far of [total], with [room] for more in the
    FIFO; all words there, the card programs once it was told; programmed; all words of an
    open-ended read delivered.  [multi] is a multi-block transfer, [k] the polls left. *)
Inductive data_phase :=
  | DIdle
  | DRead (avail k : nat) (ws : list Z) (open : bool)
  | DReady (multi : bool) (addr : Z)
  | DWrite (multi : bool) (addr : Z) (room k : nat) (got : list Z) (total : nat)
  | DProg (multi told : bool) (addr : Z) (k : nat) (ws : list Z)
  | DDone
  | DOpen.

Record port := mkPort {
  p_arg : Z; p_len : Z; p_ctl : Z; p_count : option Z; p_disk : list Z; p_cmd : cmd_phase; p_data : data_phase }.

(** The bits of an answer that report an error of an address or a length. *)
Definition clean (resp : Z) : Prop :=
  any resp MMC_BOOT_R1_BLOCK_LEN_ERR = false ∧ any resp MMC_BOOT_R1_ADDR_ERR = false ∧
  any resp MMC_BOOT_R1_OUT_OF_RANGE = false ∧ IS_ADDR_OUT_OF_RANGE resp = false.

Section Port.
Context (slack : nat).

(** The card has the sectors. *)
Definition in_card (c : port) : bool :=
  (0 <=? p_arg c) && (p_arg c * 512 + p_len c <=? Z.of_nat (length (p_disk c))).

(** The words of a read. *)
Definition read_data (c : port) : list Z :=
  words_of (Z.to_nat (p_len c / 4)) (drop (Z.to_nat (p_arg c * 512)) (p_disk c)).

(** What command [i] starts; [None] when the card is not to be sent it. *)
Definition accept (c : port) (i : Z) (prog_ena : bool) : option data_phase :=
  match i, p_data c with
  | 13, DIdle | 23, DIdle => Some DIdle
  | 17, DIdle =>
      if in_card c && (p_len c =? 512) && (p_ctl c =? read_control 512) then Some (DRead 0 slack (read_data c) false) else None
  | 18, DIdle =>
      if in_card c && (0 <? p_len c) && (p_len c mod 512 =? 0) && (p_ctl c =? read_control 512)
      then match p_count c with
           | Some n => if n * 512 =? p_len c then Some (DRead 0 slack (read_data c) false) else None
           | None => Some (DRead 0 slack (read_data c) true)
           end
      else None
  | 24, DIdle => if in_card c && (p_len c =? 512) then Some (DReady false (p_arg c)) else None
  | 25, DIdle => if in_card c && (0 <? p_len c) && (p_len c mod 512 =? 0) then Some (DReady true (p_arg c)) else None
  | 12, DOpen => Some DIdle
  | 12, DProg true false a k ws => if prog_ena then Some (DProg true true a slack ws) else None
  | 13, DProg false false a k ws => if prog_ena then Some (DProg false true a slack ws) else None
  | _, _ => None
  end.

Definition set_cmd_data (c : port) (cm : cmd_phase) (d : data_phase) : port :=
  mkPort (p_arg c) (p_len c) (p_ctl c) (p_count c) (p_disk c) cm d.

Definition is_fifo (off : Z) : Prop := MMC_BOOT_MCI_FIFO ≤ off < MMC_BOOT_MCI_FIFO + 64.

Inductive write_step (c : port) : Z → Z → port → Prop :=
  | W_clock off v : off = MMC_BOOT_MCI_CLK ∨ off = MMC_BOOT_MCI_DATA_TIMER → write_step c off v c
  | W_arg v : write_step c MMC_BOOT_MCI_ARGUMENT v
      (mkPort v (p_len c) (p_ctl c) (p_count c) (p_disk c) (p_cmd c) (p_data c))
  | W_len v : p_data c = DIdle ∨ p_data c = DDone → write_step c MMC_BOOT_MCI_DATA_LENGTH v
      (mkPort (p_arg c) v (p_ctl c) (p_count c) (p_disk c) (p_cmd c) (p_data c))
  | W_read_ctl v : p_data c = DIdle ∨ p_data c = DDone → write_step c MMC_BOOT_MCI_DATA_CTL v
      (mkPort (p_arg c) (p_len c) v (p_count c) (p_disk c) (p_cmd c) (p_data c))
  | W_write_ctl multi a v : p_data c = DReady multi a →
      v = Z.lor MMC_BOOT_MCI_DATA_ENABLE (Z.shiftl 512 MMC_BOOT_MCI_BLKSIZE_POS) →
      write_step c MMC_BOOT_MCI_DATA_CTL v
        (mkPort (p_arg c) (p_len c) v (p_count c) (p_disk c) (p_cmd c) (DWrite multi a 0 slack [] (Z.to_nat (p_len c / 4))))
  | W_clear : write_step c MMC_BOOT_MCI_CLEAR MMC_BOOT_MCI_STATIC_STATUS
      (set_cmd_data c (match p_cmd c with CAnswered _ _ => CDone | cm => cm end)
         (match p_data c with DDone => DIdle | d => d end))
  | W_cmd v resp d : p_cmd c = CDone → clean resp →
      accept c (Z.land v 63) (any v MMC_BOOT_MCI_CMD_PROG_ENA) = Some d →
      write_step c MMC_BOOT_MCI_CMD v
        (mkPort (p_arg c) (p_len c) (p_ctl c) (if Z.land v 63 =? 23 then Some (p_arg c) else None) (p_disk c)
           (CWait slack (Z.land v 63) resp) d)
  | W_fifo off v multi a room k got total : is_fifo off → p_data c = DWrite multi a (S room) k got total →
      (length got < total)%nat →
      write_step c off v (set_cmd_data c (p_cmd c) (DWrite multi a room k (got ++ [v]) total)).

(** The command in the status register. *)
Inductive cmd_status (v : Z) : cmd_phase → cmd_phase → Prop :=
  | S_done : cmd_status v CDone CDone
  | S_waiting n i r : any v MMC_BOOT_MCI_STAT_CMD_RESP_END = false → any v MMC_BOOT_MCI_STAT_CMD_TIMEOUT = false →
      any v MMC_BOOT_MCI_STAT_CMD_CRC_FAIL = false → cmd_status v (CWait (S n) i r) (CWait n i r)
  | S_end n i r : any v MMC_BOOT_MCI_STAT_CMD_ACTIVE = false → any v MMC_BOOT_MCI_STAT_CMD_RESP_END = true →
      any v MMC_BOOT_MCI_STAT_CMD_TIMEOUT = false → cmd_status v (CWait n i r) (CAnswered i r)
  | S_answered i r : any v MMC_BOOT_MCI_STAT_CMD_ACTIVE = false → any v MMC_BOOT_MCI_STAT_CMD_RESP_END = true →
      any v MMC_BOOT_MCI_STAT_CMD_TIMEOUT = false → cmd_status v (CAnswered i r) (CAnswered i r).

(** The data in the status register, and the card's memory. *)
Inductive data_status (v : Z) : data_phase * list Z → data_phase * list Z → Prop :=
  | S_quiet d disk : d = DIdle ∨ d = DOpen ∨ (∃ m a, d = DReady m a) ∨ (∃ m a k ws, d = DProg m false a k ws) →
      data_status v (d, disk) (d, disk)
  | S_word avail avail' k ws open disk : (avail ≤ avail')%nat → (0 < avail' ≤ length ws)%nat →
      any v read_error = false → any v MMC_BOOT_MCI_STAT_RX_DATA_AVLBL = true →
      (any v MMC_BOOT_MCI_STAT_RX_FIFO_HFULL = true → (8 ≤ avail')%nat) →
      data_status v (DRead avail k ws open, disk) (DRead avail' k ws open, disk)
  | S_no_word k ws open disk : any v read_error = false → any v MMC_BOOT_MCI_STAT_RX_DATA_AVLBL = false →
      any v MMC_BOOT_MCI_STAT_DATA_END = false →
      data_status v (DRead 0 (S k) ws open, disk) (DRead 0 k ws open, disk)
  | S_room m a room room' k got total disk : (room ≤ room')%nat → (0 < room')%nat → (length got < total)%nat →
      any v write_error = false → any v MMC_BOOT_MCI_STAT_TX_FIFO_FULL = false →
      (any v MMC_BOOT_MCI_STAT_TX_FIFO_HFULL = true → (8 ≤ room')%nat) →
      data_status v (DWrite m a room k got total, disk) (DWrite m a room' k got total, disk)
  | S_full m a k got total disk : (length got < total)%nat →
      any v write_error = false → any v MMC_BOOT_MCI_STAT_TX_FIFO_FULL = true →
      any v MMC_BOOT_MCI_STAT_TX_FIFO_HFULL = false → any v MMC_BOOT_MCI_STAT_DATA_END = false →
      data_status v (DWrite m a 0 (S k) got total, disk) (DWrite m a 0 k got total, disk)
  | S_drain m a room k got total disk : length got = total →
      any v write_error = false → any v MMC_BOOT_MCI_STAT_DATA_END = false →
      data_status v (DWrite m a room (S k) got total, disk) (DWrite m a room k got total, disk)
  | S_data_end m a room k got total disk : length got = total →
      any v write_error = false → any v MMC_BOOT_MCI_STAT_DATA_END = true →
      data_status v (DWrite m a room k got total, disk) (DProg m false a 0 got, disk)
  | S_programming m a k ws disk : any v MMC_BOOT_MCI_STAT_PROG_DONE = false →
      data_status v (DProg m true a (S k) ws, disk) (DProg m true a k ws, disk)
  | S_programmed m a k ws disk disk' : any v MMC_BOOT_MCI_STAT_PROG_DONE = true →
      store disk (a * 512) (bytes_of_words ws) = Ok disk' →
      data_status v (DProg m true a k ws, disk) (DDone, disk')
  | S_stays_done disk : any v MMC_BOOT_MCI_STAT_PROG_DONE = true → data_status v (DDone, disk) (DDone, disk).

Definition set_phases (c : port) (cm : cmd_phase) (x : data_phase * list Z) : port :=
  mkPort (p_arg c) (p_len c) (p_ctl c) (p_count c) x.2 cm x.1.

Inductive read_step (c : port) : Z → Z → port → Prop :=
  | R_clock v : read_step c MMC_BOOT_MCI_CLK v c
  | R_resp_cmd i r : p_cmd c = CAnswered i r → read_step c MMC_BOOT_MCI_RESP_CMD i c
  | R_resp i r : p_cmd c = CAnswered i r → read_step c MMC_BOOT_MCI_RESP_0 r c
  | R_status v cm x : cmd_status v (p_cmd c) cm → data_status v (p_data c, p_disk c) x →
      read_step c MMC_BOOT_MCI_STATUS v (set_phases c cm x)
  | R_fifo off avail k w ws open : is_fifo off → p_data c = DRead (S avail) k (w :: ws) open →
      read_step c off w (set_cmd_data c (p_cmd c)
        (match ws with [] => if open then DOpen else DIdle | _ => DRead avail k ws open end)).

(** Hardware conforms: related to a port, an access that is allowed gives what the port
    allows, and the status can always be read. *)
Class Conforms {H : Type} `{Mci H} (R : H → port → Prop) : Prop := {
  write_conforms h c off v : R h c → (∃ c', write_step c off v c') → ∃ c', write_step c off v c' ∧ R (reg_write off v h) c';
  read_conforms h c off : R h c → (∃ v c', read_step c off v c') ∨ off = MMC_BOOT_MCI_STATUS →
    let '(v, h') := reg_read off h in ∃ c', read_step c off v c' ∧ R h' c';
  delay_conforms h c us : R h c → R (delay us h) c;
}.
End Port.

(** * Runs with hardware that conforms *)

Definition with_hw {H} (h : H) (s : mmc_state H) : mmc_state H :=
  mkMmc h (mmc_host s) (mmc_card s) (ext_csd_buf s) (wp_status_buf s).

Section Runs.
Context {H : Type} `{Mci H} (R : H → port → Prop) (slack : nat) `{!Conforms slack R}.
Context (polls : nat) (uninit : Z) (s0 : mmc_state H).
#[local] Notation M := (drv H).
#[local] Notation write_step := (write_step slack).

(** [s0] with hardware at [c]. *)
Definition on (c : port) (s : mmc_state H) : Prop := ∃ h, s = with_hw h s0 ∧ R h c.

(** From [c], [m] returns, with [Φ] of its result and the port. *)
Definition runs {A} (c : port) (m : M A) (Φ : A → port → Prop) : Prop :=
  ∀ s, on c s → wp m (λ a s', ∃ c', Φ a c' ∧ on c' s') (λ _, False) s.

Lemma runs_ret {A} c (a : A) (Φ : A → port → Prop) : Φ a c → runs c (mret a) Φ.
Proof. intros HΦ s Hs. apply wp_ret. eauto. Qed.

Lemma runs_bind {A B} c (m : M A) (f : A → M B) (Φ : A → port → Prop) (Ψ : B → port → Prop) :
  runs c m Φ → (∀ a c', Φ a c' → runs c' (f a) Ψ) → runs c (m ≫= f) Ψ.
Proof.
  intros Hm Hf s Hs. apply wp_bind. eapply wp_mono; [exact (Hm s Hs)| |done]. intros a s' (c' & Ha & Hs').
  exact (Hf a c' Ha s' Hs').
Qed.

Lemma runs_mono {A} c (m : M A) (Φ Ψ : A → port → Prop) :
  runs c m Φ → (∀ a c', Φ a c' → Ψ a c') → runs c m Ψ.
Proof. intros Hm HΨ s Hs. eapply wp_mono; [exact (Hm s Hs)| |done]. intros a s' (c' & Ha & Hs'). eauto. Qed.

Lemma runs_writel c off v (Φ : unit → port → Prop) :
  (∃ c', write_step c off v c') → (∀ c', write_step c off v c' → Φ tt c') → runs c (writel v off) Φ.
Proof.
  intros He HΦ s (h & -> & Hh). destruct (write_conforms slack h c off v Hh He) as (c' & Hw & Hr).
  unfold wp. exists c'. split; [by apply HΦ|]. eexists. by split.
Qed.

Lemma runs_readl c off (Φ : Z → port → Prop) :
  (∃ v c', read_step c off v c') ∨ off = MMC_BOOT_MCI_STATUS → (∀ v c', read_step c off v c' → Φ v c') →
  runs c (readl off) Φ.
Proof.
  intros He HΦ s (h & -> & Hh). pose proof (read_conforms slack h c off Hh He) as Hr. unfold wp, readl. cbn [with_hw hw].
  destruct (reg_read off h) as [v h']. destruct Hr as (c' & Hr & Hh'). exists c'. split; [by apply HΦ|]. eexists. by split.
Qed.

Lemma runs_delay c us (Φ : unit → port → Prop) : Φ tt c → runs c (udelay us) Φ.
Proof. intros HΦ s (h & -> & Hh). exists c. split; [done|]. eexists. split; [done|]. by apply (delay_conforms slack h c us). Qed.

Lemma runs_card c (Φ : mmc_boot_card → port → Prop) : Φ (mmc_card s0) c → runs c card Φ.
Proof. intros HΦ s (h & -> & Hh). exists c. split; [done|]. by eexists. Qed.

Lemma runs_host c (Φ : mmc_boot_host → port → Prop) : Φ (mmc_host s0) c → runs c host Φ.
Proof. intros HΦ s (h & -> & Hh). exists c. split; [done|]. by eexists. Qed.

(** One access after the other. *)
Lemma runs_then {A B} c (m : M A) (f : A → M B) (Ψ : B → port → Prop) :
  runs c m (λ a c', runs c' (f a) Ψ) → runs c (m ≫= f) Ψ.
Proof. intros Hm. eapply runs_bind; [exact Hm|done]. Qed.

Lemma runs_try {A} c f (m : M Z) (k : M A) (Ψ : A → port → Prop) :
  runs c m (λ r c', r = 0 ∧ runs c' k Ψ) → runs c (on_success f m k) Ψ.
Proof. intros Hm. eapply runs_bind; [exact Hm|]. by intros r c' [-> Hk]. Qed.

(** ** Commands *)

(** What data does while the status is read. *)
Definition evolve : relation (data_phase * list Z) := rtc (λ x y, ∃ v, data_status v x y).

Lemma runs_status c (Φ : Z → port → Prop) :
  (∀ v cm x, cmd_status v (p_cmd c) cm → data_status v (p_data c, p_disk c) x → Φ v (set_phases c cm x)) →
  runs c (readl MMC_BOOT_MCI_STATUS) Φ.
Proof.
  intros HΦ. apply runs_readl; [by right|]. intros v c' Hr. inversion Hr as [| | |? cm x Hc Hd|off ? ? ? ? ? Hf]; subst; [auto|].
  unfold is_fifo in Hf. by destruct Hf as [Hf _].
Qed.

(** Waiting for the answer [r] of command [i], [n] polls at most; or it is there. *)
Definition waiting (n : nat) (i r : Z) (cm : cmd_phase) : Prop := (∃ m, m < n ∧ cm = CWait m i r)%nat ∨ cm = CAnswered i r.

Lemma runs_wait_inactive c n i r fuel :
  p_cmd c = CWait n i r → (n < fuel)%nat →
  runs c (wait_cmd_inactive fuel)
    (λ _ c', ∃ cm x, c' = set_phases c cm x ∧ evolve (p_data c, p_disk c) x ∧ waiting n i r cm).
Proof.
  revert c n. induction fuel as [|fuel IH]; intros c n Hc Hn; [lia|]. cbn [wait_cmd_inactive].
  apply runs_then, runs_status. intros v cm x Hcm Hd. rewrite Hc in Hcm.
  assert (evolve (p_data c, p_disk c) x) as He by (eapply rtc_l; [by eexists|constructor]).
  inversion Hcm as [|m ? ? E1 E2 E3|? ? ? E1 E2 E3|]; subst.
  - case_match.
    + eapply runs_mono; [apply (IH _ m); [done|lia]|]. intros _ c' (cm & x' & -> & He' & Hw).
      exists cm, x'. split; [by destruct x'|]. split; [etrans; [exact He|by destruct x]|].
      destruct Hw as [(k & ? & ->)| ->]; [left; exists k; split; [lia|done]|by right].
    + apply runs_ret. exists (CWait m i r), x. split_and!; [done..|]. left. eauto.
  - rewrite E1. apply runs_ret. exists (CAnswered i r), x. split_and!; [done..|]. by right.
Qed.

(** A command with a response of type R1 or R1b that is neither CMD1 nor CMD8. *)
Definition plain (cmd : mmc_boot_command) : Prop :=
  0 ≤ cmd_index cmd < 64 ∧ cmd_index cmd ≠ 1 ∧ cmd_index cmd ≠ 8 ∧
  (resp_type cmd = MMC_BOOT_RESP_R1 ∨ resp_type cmd = MMC_BOOT_RESP_R1B).

Definition answered (r : Z) (cmd : mmc_boot_command) : Z * mmc_boot_command := (0, with_resp (r :: drop 1 (resp cmd)) cmd).

Lemma runs_read_answer c cmd r :
  plain cmd → p_cmd c = CAnswered (cmd_index cmd) r →
  runs c (mmc_resp ← readl MMC_BOOT_MCI_RESP_CMD;
          if (Z.land mmc_resp 0x3F =? cmd_index cmd) || no_index (resp_type cmd) then
            cmd ← read_response cmd; mret (MMC_BOOT_E_SUCCESS, cmd)
          else mret (MMC_BOOT_E_CMD_INDX_MISMATCH, cmd))
    (λ a c', a = answered r cmd ∧ c' = c).
Proof.
  intros (Hi & _ & _ & Hr) Hc. apply runs_then, runs_readl; [left; eexists _, _; by eapply R_resp_cmd|].
  intros v c' Hv. inversion Hv as [|? ? E| | |? ? ? ? ? ? [Hf _]]; subst; [|done].
  rewrite Hc in E. injection E as <- <-. change 0x3F with (Z.ones 6). rewrite Z.land_ones, Z.mod_small, Z.eqb_refl by lia.
  cbn [orb]. unfold read_response. assert (IS_RESP_136_BITS (resp_type cmd) = false) as -> by (by destruct Hr as [-> | ->]).
  apply runs_then, runs_then, runs_readl; [left; eexists _, _; by eapply R_resp|].
  intros w c'' Hw. inversion Hw as [| |? ? E| |? ? ? ? ? ? [Hf _]]; subst; [|done].
  rewrite Hc in E. injection E as <- <-. apply runs_ret, runs_ret. done.
Qed.

Lemma runs_wait_response c cmd n r fuel :
  plain cmd → p_cmd c = CWait n (cmd_index cmd) r → (n < fuel)%nat → (n < polls)%nat →
  runs c (wait_response polls fuel cmd)
    (λ a c', a = answered r cmd ∧ ∃ x, c' = set_phases c (CAnswered (cmd_index cmd) r) x ∧ evolve (p_data c, p_disk c) x).
Proof.
  intros Hp. revert c n. induction fuel as [|fuel IH]; intros c n Hc Hf Hn; [lia|]. cbn [wait_response].
  destruct Hp as (Hi & H1 & H8 & Hr) eqn:Ep. clear Ep.
  eapply runs_bind; [by apply runs_wait_inactive|]. intros _ c1 (cm & x & -> & He & Hw).
  apply runs_then, runs_status. intros v cm2 x2 Hcm Hd. cbn [set_phases p_cmd p_data p_disk] in Hcm, Hd.
  assert (evolve (p_data c, p_disk c) x2) as He2.
  { etrans; [exact He|]. eapply rtc_l; [exists v; by destruct x|constructor]. }
  assert ((resp_type cmd =? MMC_BOOT_RESP_NONE) = false) as -> by (by destruct Hr as [-> | ->]).
  rewrite (proj2 (Z.eqb_neq (cmd_index cmd) CMD1_SEND_OP_COND)), (proj2 (Z.eqb_neq (cmd_index cmd) CMD8_SEND_IF_COND)) by done.
  cbn [andb]. rewrite !orb_false_r.
  assert (∀ c', c' = set_phases c (CAnswered (cmd_index cmd) r) x2 →
    runs c' (mmc_resp ← readl MMC_BOOT_MCI_RESP_CMD;
      if (Z.land mmc_resp 0x3F =? cmd_index cmd) || no_index (resp_type cmd) then
        cmd ← read_response cmd; mret (MMC_BOOT_E_SUCCESS, cmd)
      else mret (MMC_BOOT_E_CMD_INDX_MISMATCH, cmd))
    (λ a c', a = answered r cmd ∧ ∃ x, c' = set_phases c (CAnswered (cmd_index cmd) r) x ∧ evolve (p_data c, p_disk c) x))
    as Hans.
  { intros c' ->. eapply runs_mono; [by apply runs_read_answer|]. intros a c' [-> ->]. eauto. }
  destruct Hw as [(m & Hm & ->)| ->]; inversion Hcm as [|k ? ? E1 E2 E3|? ? ? E1 E2 E3|? ? E1 E2 E3]; subst.
  - rewrite E1, E2, E3. eapply runs_mono; [by apply (IH _ k); [|lia|lia]|].
    intros a c' [-> (y & -> & Hy)]. split; [done|]. exists y. split; [done|]. etrans; [exact He2|by destruct x2].
  - rewrite E2, E3. by apply Hans.
  - rewrite E2, E3. by apply Hans.
Qed.

(** The port after the argument is written and the status bits are cleared. *)
Definition cleared (arg : Z) (c : port) : port :=
  mkPort arg (p_len c) (p_ctl c) (p_count c) (p_disk c) CDone (match p_data c with DDone => DIdle | d => d end).

Definition no_command (c : port) : Prop := match p_cmd c with CWait _ _ _ => False | _ => True end.

(** The port after command [i] was answered. *)
Definition after_command (c : port) (arg i r : Z) (x : data_phase * list Z) : port :=
  mkPort arg (p_len c) (p_ctl c) (if i =? 23 then Some arg else None) x.2 (CAnswered i r) x.1.

Lemma clean_0 : clean 0.
Proof. done. Qed.

Lemma write_step_cmd c v c' :
  write_step c MMC_BOOT_MCI_CMD v c' → ∃ resp d, clean resp ∧ accept slack c (Z.land v 63) (any v MMC_BOOT_MCI_CMD_PROG_ENA) = Some d ∧
    c' = mkPort (p_arg c) (p_len c) (p_ctl c) (if Z.land v 63 =? 23 then Some (p_arg c) else None) (p_disk c)
           (CWait slack (Z.land v 63) resp) d.
Proof.
  intros Hw. inversion Hw as [? ? [?|?]| | | | | |? resp d|? ? ? ? ? ? ? ? [Hf _]]; subst; try done. eauto.
Qed.

Lemma runs_send_command c cmd d :
  no_command c → plain cmd → (slack < polls)%nat →
  accept slack (cleared (argument cmd) c) (cmd_index cmd) (any (command_register cmd) MMC_BOOT_MCI_CMD_PROG_ENA) = Some d →
  runs c (mmc_boot_send_command polls cmd)
    (λ a c', ∃ r x, clean r ∧ a = answered r cmd ∧ evolve (d, p_disk c) x ∧
       c' = after_command c (argument cmd) (cmd_index cmd) r x).
Proof.
  intros Hc Hp Hs Ha. unfold mmc_boot_send_command.
  assert (Z.land (command_register cmd) 63 = cmd_index cmd) as Hi by (apply command_register_index; by destruct Hp).
  apply runs_then, runs_writel; [eexists; apply W_arg|]. intros c1 H1.
  inversion H1 as [? ? [?|?]| | | | | | |? ? ? ? ? ? ? ? [Hf _]]; subst; try done. clear H1.
  apply runs_then, runs_delay.
  apply runs_then, runs_writel; [eexists; apply W_clear|]. intros c2 H2.
  inversion H2 as [? ? [?|?]| | | | | | |? ? ? ? ? ? ? ? [Hf _]]; subst; try done. clear H2.
  cbn [p_cmd p_data]. unfold no_command in Hc.
  match goal with |- runs ?p _ _ => replace p with (cleared (argument cmd) c) end.
  2:{ unfold cleared, set_cmd_data. cbn. by destruct (p_cmd c). }
  apply runs_then, runs_writel.
  { eexists. eapply W_cmd; [done|apply clean_0|]. by rewrite Hi. }
  intros c3 (r & d' & Hr & Hd & ->)%write_step_cmd. rewrite Hi in *. rewrite Ha in Hd. injection Hd as <-.
  eapply runs_mono; [eapply (runs_wait_response _ cmd slack r); done|].
  intros a c' [-> (x & -> & He)]. exists r, x. done.
Qed.

(** ** Registers of a transfer *)

Ltac inv_write Hw := inversion Hw as [? ? [?|?]| | | | | | |? ? ? ? ? ? ? ? [? ?]]; subst; try done.

Lemma runs_clock_write c off v (Φ : unit → port → Prop) :
  off = MMC_BOOT_MCI_CLK ∨ off = MMC_BOOT_MCI_DATA_TIMER → Φ tt c → runs c (writel v off) Φ.
Proof.
  intros Ho HΦ. apply runs_writel; [eexists; by apply W_clock|]. intros c' Hw. destruct Ho; subst; by inv_write Hw.
Qed.

Lemma runs_enable_flow c (Φ : unit → port → Prop) : Φ tt c → runs c enable_flow Φ.
Proof.
  intros HΦ. unfold enable_flow. apply runs_then, runs_readl; [left; eexists 0, _; apply R_clock|].
  intros v c' Hr. inversion Hr as [| | | |? ? ? ? ? ? [? ?]]; subst; try done. apply runs_clock_write; [by left|done].
Qed.

Definition set_len (v : Z) (c : port) : port := mkPort (p_arg c) v (p_ctl c) (p_count c) (p_disk c) (p_cmd c) (p_data c).
Definition set_ctl (v : Z) (c : port) : port := mkPort (p_arg c) (p_len c) v (p_count c) (p_disk c) (p_cmd c) (p_data c).

Lemma runs_length c v (Φ : unit → port → Prop) :
  p_data c = DIdle ∨ p_data c = DDone → Φ tt (set_len v c) → runs c (writel v MMC_BOOT_MCI_DATA_LENGTH) Φ.
Proof. intros Hd HΦ. apply runs_writel; [eexists; by apply W_len|]. intros c' Hw. by inv_write Hw. Qed.

Lemma runs_read_ctl c v (Φ : unit → port → Prop) :
  p_data c = DIdle ∨ p_data c = DDone → Φ tt (set_ctl v c) → runs c (writel v MMC_BOOT_MCI_DATA_CTL) Φ.
Proof.
  intros Hd HΦ. apply runs_writel; [eexists; by apply W_read_ctl|]. intros c' Hw. inv_write Hw. by destruct Hd; congruence.
Qed.

Definition write_control : Z := Z.lor MMC_BOOT_MCI_DATA_ENABLE (Z.shiftl 512 MMC_BOOT_MCI_BLKSIZE_POS).

Lemma runs_write_ctl c m a (Φ : unit → port → Prop) :
  p_data c = DReady m a →
  Φ tt (mkPort (p_arg c) (p_len c) write_control (p_count c) (p_disk c) (p_cmd c)
          (DWrite m a 0 slack [] (Z.to_nat (p_len c / 4)))) →
  runs c (writel write_control MMC_BOOT_MCI_DATA_CTL) Φ.
Proof.
  intros Hd HΦ. apply runs_writel; [eexists; by eapply W_write_ctl|]. intros c' Hw. inv_write Hw.
  - match goal with Hx : _ ∨ _ |- _ => by rewrite Hd in Hx; destruct Hx end.
  - match goal with Hx : p_data c = DReady _ _ |- _ => rewrite Hd in Hx; by injection Hx as <- <- end.
Qed.

Definition set_data (d : data_phase) (c : port) : port := set_cmd_data c (p_cmd c) d.

Lemma runs_fifo_write c off v m a room k got total (Φ : unit → port → Prop) :
  is_fifo off → p_data c = DWrite m a (S room) k got total → (length got < total)%nat →
  Φ tt (set_data (DWrite m a room k (got ++ [v]) total) c) → runs c (writel v off) Φ.
Proof.
  intros Ho Hd Hl HΦ. apply runs_writel; [eexists; by eapply W_fifo|]. intros c' Hw.
  inversion Hw as [? ? [E|E]| | | | | | |? ? ? ? ? ? ? ? _ E]; subst; try (by destruct Ho).
  rewrite Hd in E. by injection E as <- <- <- <- <- <-.
Qed.

(** What follows the last word. *)
Definition reading (avail k : nat) (ws : list Z) (open : bool) : data_phase :=
  match ws with [] => if open then DOpen else DIdle | _ => DRead avail k ws open end.

Lemma runs_fifo_read c off avail k w ws open (Φ : Z → port → Prop) :
  is_fifo off → p_data c = DRead (S avail) k (w :: ws) open →
  Φ w (set_data (reading avail k ws open) c) → runs c (readl off) Φ.
Proof.
  intros Ho Hd HΦ. apply runs_readl; [left; eexists _, _; by eapply R_fifo|]. intros v c' Hr.
  inversion Hr as [| | | |? ? ? ? ? ? _ E]; subst; try (by destruct Ho).
  rewrite Hd in E. by injection E as <- <- <- <- <-.
Qed.

Lemma fifo_reg_is_fifo n : is_fifo (fifo_reg n).
Proof. apply fifo_reg_range. Qed.

(** ** Reading the FIFO *)

Lemma set_data_twice d d' c : set_data d (set_data d' c) = set_data d c.
Proof. done. Qed.

(** Storing behind what was read so far. *)
Lemma store_next done rest bs :
  (length bs ≤ length rest)%nat →
  store (done ++ rest) (Z.of_nat (length done)) bs = Ok (done ++ bs ++ drop (length bs) rest).
Proof.
  intros Hl. apply store_ok. rewrite length_app. split_and!; [lia..|]. rewrite Nat2Z.id, take_app_length.
  by rewrite <- drop_drop, drop_app_length.
Qed.

Lemma runs_read_words c n avail k ws open done rest :
  p_data c = reading avail k ws open → (n ≤ avail)%nat → (n ≤ length ws)%nat → length rest = (4 * length ws)%nat →
  Z.of_nat (length (done ++ rest)) < 2 ^ 32 →
  runs c (fifo_words_in n (Z.of_nat (length done)) (done ++ rest))
    (λ a c', a = (Z.of_nat (length done + 4 * n), (done ++ bytes_of_words (take n ws)) ++ drop (4 * n) rest) ∧
             c' = set_data (reading (avail - n) k (drop n ws) open) c).
Proof.
  revert c avail ws done rest. induction n as [|n IH]; intros c avail ws done rest Hd Hn Hw Hr H32; cbn [fifo_words_in].
  - apply runs_ret. rewrite Nat.mul_0_r, Nat.add_0_r, Nat.sub_0_r, take_0, !drop_0, app_nil_r. split; [done|].
    rewrite <- Hd. by destruct c.
  - destruct ws as [|w ws]; [cbn in Hw; lia|]. destruct avail as [|avail]; [lia|]. cbn [length] in Hw, Hr.
    apply runs_then. eapply runs_fifo_read; [apply fifo_reg_is_fifo|exact Hd|].
    rewrite store_next by (rewrite length_le_bytes; lia). rewrite length_le_bytes. rewrite app_assoc.
    rewrite length_app in H32.
    replace (u32 (Z.of_nat (length done) + 4)) with (Z.of_nat (length (done ++ le_bytes 4 0 w)))
      by (rewrite length_app, length_le_bytes, u32_small by lia; lia).
    eapply runs_mono.
    + apply (IH _ avail ws); [done|lia|lia|rewrite length_drop; lia|].
      rewrite !length_app, length_drop, length_le_bytes. lia.
    + intros a c' [-> ->]. rewrite set_data_twice. rewrite length_app, length_le_bytes. split; [|done].
      replace (length done + 4 + 4 * n)%nat with (length done + 4 * S n)%nat by lia. f_equal. rewrite drop_drop.
      replace (4 + 4 * n)%nat with (4 * S n)%nat by lia. by rewrite <- !app_assoc.
Qed.

(** Polling leaves an answer and its absence alone. *)
Lemma cmd_status_settled v c cm : no_command c → cmd_status v (p_cmd c) cm → cm = p_cmd c.
Proof. unfold no_command. intros Hn Hc. inversion Hc as [|? ? ? _ _ _ E|? ? ? _ _ _ E|]; try done; by rewrite <- E in Hn. Qed.

Lemma runs_fifo_read_loop fuel c avail k ws open done rest :
  no_command c → p_data c = DRead avail k ws open → (avail ≤ length ws)%nat → ws ≠ [] → length rest = (4 * length ws)%nat →
  Z.of_nat (length (done ++ rest)) < 2 ^ 32 → (k + length ws < fuel)%nat →
  runs c (fifo_read_loop fuel (Z.of_nat (length (done ++ rest))) (Z.of_nat (length done)) (done ++ rest))
    (λ a c', a = (0, done ++ bytes_of_words ws) ∧ c' = set_data (if open then DOpen else DIdle) c).
Proof.
  intros Hn Hd. revert c Hn avail k ws done rest Hd.
  induction fuel as [|fuel IH]; intros c Hn avail k ws done rest Hd Ha Hws Hr H32 Hf; [lia|]. cbn [fifo_read_loop].
  apply runs_then, runs_status. intros v cm x ->%cmd_status_settled Hs; [|done]. rewrite Hd in Hs.
  inversion Hs as [? ? Hq|? avail' ? ? ? ? Hav Hl E1 E2 E3|? ? ? ? E1 E2 E3| | | | | | |]; subst.
  - destruct Hq as [?|[?|[(?&?&?)|(?&?&?&?&?)]]]; done.
  - rewrite E1, E2. set (n := if any v MMC_BOOT_MCI_STAT_RX_FIFO_HFULL then MMC_BOOT_MCI_HFIFO_COUNT else 1%nat).
    assert (1 ≤ n ≤ avail')%nat as Hn'.
    { subst n. destruct (any v MMC_BOOT_MCI_STAT_RX_FIFO_HFULL); [specialize (E3 eq_refl)|]; change MMC_BOOT_MCI_HFIFO_COUNT with 8%nat; lia. }
    clearbody n. eapply runs_bind.
    { apply (runs_read_words _ n avail' k ws open); [by destruct ws|lia|lia|done|done]. }
    intros a c' [-> ->]. destruct (decide (n = length ws)) as [->|Hne].
    + rewrite (proj2 (Z.eqb_eq _ _)) by (rewrite length_app; lia). rewrite firstn_all. rewrite (drop_ge rest) by lia. rewrite app_nil_r.
      apply runs_ret. split; [done|]. rewrite drop_all. done.
    + rewrite (proj2 (Z.eqb_neq _ _)) by (rewrite length_app; lia).
      assert (reading (avail' - n) k (drop n ws) open = DRead (avail' - n) k (drop n ws) open) as ->.
      { destruct (drop n ws) eqn:E; [|done]. apply (f_equal length) in E. rewrite length_drop in E. cbn in E. lia. }
      replace (Z.of_nat (length done + 4 * n)) with (Z.of_nat (length (done ++ bytes_of_words (take n ws))))
        by (rewrite length_app, length_bytes_of_words, length_take; lia).
      replace (Z.of_nat (length (done ++ rest))) with (Z.of_nat (length ((done ++ bytes_of_words (take n ws)) ++ drop (4 * n) rest)))
        by (rewrite !length_app, length_bytes_of_words, length_take, length_drop; lia).
      eapply runs_mono.
      { eapply (λ c' Hc', IH c' Hc' (avail' - n)%nat k (drop n ws)); [exact Hn|done|rewrite length_drop; lia| |rewrite !length_drop; lia| |rewrite length_drop; lia].
        - intros E. apply (f_equal length) in E. rewrite length_drop in E. cbn in E. lia.
        - rewrite !length_app, length_bytes_of_words, length_take, length_drop in *. lia. }
      intros a c' [-> ->]. split; [|done]. rewrite <- app_assoc. unfold bytes_of_words. rewrite <- bind_app, take_drop. done.
  - rewrite E1, E2, E3. eapply runs_mono; [eapply (λ c' Hc', IH c' Hc' 0%nat); (exact Hn || done || lia)|]. intros a c' [-> ->]. done.
Qed.

(** ** Writing the FIFO *)

(** The words taken so far are those of the buffer. *)
Definition taken (got : list Z) (buf : buffer) : Prop := bytes_of_words got = take (4 * length got) buf.

Lemma taken_next got buf :
  Forall is_byte buf → (4 * S (length got) ≤ length buf)%nat → taken got buf →
  ∃ w, GET_LWORD_FROM_BYTE buf (4 * Z.of_nat (length got)) = Ok w ∧ taken (got ++ [w]) buf.
Proof.
  intros Hb Hl Ht. set (l := take 4 (drop (4 * length got) buf)).
  assert (length l = 4%nat) as Hll by (unfold l; rewrite length_take, length_drop; lia).
  exists (le_or 0 l). split.
  - unfold GET_LWORD_FROM_BYTE. rewrite (proj2 (slice_ok buf (4 * Z.of_nat (length got)) 4 l)); [done|].
    split_and!; [lia|lia|]. by replace (Z.to_nat (4 * Z.of_nat (length got))) with (4 * length got)%nat by lia.
  - unfold taken. rewrite bytes_of_words_snoc, Ht, le_bytes_or by (done || by apply Forall_take, Forall_drop).
    rewrite length_app. cbn [length]. replace (4 * (length got + 1))%nat with (4 * length got + 4)%nat by lia.
    unfold l. by rewrite take_take_drop.
Qed.

Lemma runs_write_words c n m a room k got total buf :
  p_data c = DWrite m a room k got total → (n ≤ room)%nat → (length got + n ≤ total)%nat →
  Forall is_byte buf → (4 * total ≤ length buf)%nat → Z.of_nat (4 * total) < 2 ^ 32 → taken got buf →
  runs c (fifo_words_out n (4 * Z.of_nat (length got)) buf)
    (λ x c', ∃ got', taken got' buf ∧ length got' = (length got + n)%nat ∧ x = 4 * Z.of_nat (length got') ∧
       c' = set_data (DWrite m a (room - n) k got' total) c).
Proof.
  revert c room got. induction n as [|n IH]; intros c room got Hd Hn Ht Hb Hl H32 Hg; cbn [fifo_words_out].
  - apply runs_ret. exists got. rewrite Nat.add_0_r, Nat.sub_0_r, <- Hd. by destruct c.
  - destruct (taken_next got buf Hb) as (w & -> & Hg'); [lia|done|]. destruct room as [|room]; [lia|].
    apply runs_then. eapply runs_fifo_write; [apply fifo_reg_is_fifo|exact Hd|lia|].
    replace (u32 (4 * Z.of_nat (length got) + 4)) with (4 * Z.of_nat (length (got ++ [w])))
      by (rewrite length_app, u32_small by lia; cbn [length]; lia).
    eapply runs_mono; [apply (IH _ room (got ++ [w])); try done; [lia|rewrite length_app; cbn [length]; lia]|].
    intros x c' (got' & ? & Hl' & -> & ->). exists got'. rewrite length_app in Hl'. cbn [length] in Hl'. split_and!; [done|lia|done|done].
Qed.

Lemma runs_fifo_write_loop fuel c m a room k got total buf :
  no_command c → p_data c = DWrite m a room k got total → (length got ≤ total)%nat →
  Forall is_byte buf → (4 * total ≤ length buf)%nat → Z.of_nat (4 * total) < 2 ^ 32 → taken got buf →
  (k + (total - length got) < fuel)%nat →
  runs c (fifo_write_loop fuel (Z.of_nat (4 * total)) (4 * Z.of_nat (length got)) buf)
    (λ r c', ∃ ws, r = 0 ∧ length ws = total ∧ taken ws buf ∧ c' = set_data (DProg m false a 0 ws) c).
Proof.
  intros Hn Hd. revert c Hn room k got Hd.
  induction fuel as [|fuel IH]; intros c Hn room k got Hd Hg Hb Hl H32 Ht Hf; [lia|]. cbn [fifo_write_loop].
  apply runs_then, runs_status. intros v cm x ->%cmd_status_settled Hs; [|done]. rewrite Hd in Hs.
  rewrite (u32_small (Z.of_nat (4 * total) - _)) by lia. change (Z.of_nat (MMC_BOOT_MCI_FIFO_SIZE / 2)) with 32.
  assert (∀ n room', (1 ≤ n ≤ room')%nat → (length got + n ≤ total)%nat →
    runs (set_phases c (p_cmd c) (DWrite m a room' k got total, p_disk c))
      (mmc_count ← fifo_words_out n (4 * Z.of_nat (length got)) buf; fifo_write_loop fuel (Z.of_nat (4 * total)) mmc_count buf)
      (λ r c', ∃ ws, r = 0 ∧ length ws = total ∧ taken ws buf ∧ c' = set_data (DProg m false a 0 ws) c)) as Hstep.
  { intros n room' Hn' Ht'. eapply runs_bind; [by apply (runs_write_words _ n m a room' k got total); try done; lia|].
    intros y c' (got' & Hg' & Hl' & -> & ->). eapply runs_mono.
    - eapply (λ c' Hc', IH c' Hc' (room' - n)%nat k got'); (exact Hn || done || lia).
    - intros r c' (ws & -> & ? & ? & ->). by exists ws. }
  inversion Hs as [? ? Hq| | |? ? ? room' ? ? ? ? Hr Hp Hlt E1 E2 E3|? ? ? ? ? ? Hlt E1 E2 E3 E4|? ? ? ? ? ? ? Heq E1 E2|? ? ? ? ? ? ? Heq E1 E2| | |]; subst.
  - destruct Hq as [?|[?|[(?&?&?)|(?&?&?&?&?)]]]; done.
  - rewrite E1, E2. rewrite (proj2 (Z.eqb_neq (4 * Z.of_nat (length got)) _)) by lia. cbn [negb andb].
    destruct (any v MMC_BOOT_MCI_STAT_TX_FIFO_HFULL); [specialize (E3 eq_refl)|rewrite andb_false_r; apply Hstep; lia].
    rewrite andb_true_r. destruct (Z.leb_spec 32 (Z.of_nat (4 * total) - 4 * Z.of_nat (length got))).
    + change MMC_BOOT_MCI_HFIFO_COUNT with 8%nat. apply Hstep; lia.
    + apply Hstep; lia.
  - rewrite E1, E2, E3, E4, andb_false_r. cbn [negb andb]. eapply runs_mono.
    + eapply (λ c' Hc', IH c' Hc' 0%nat); (exact Hn || done || lia).
    + intros r c' (ws & -> & ? & ? & ->). by exists ws.
  - rewrite E1, E2. rewrite (proj2 (Z.leb_gt _ _)) by lia. rewrite (proj2 (Z.eqb_eq _ _)) by lia. cbn [andb negb]. rewrite andb_false_r.
    eapply runs_mono; [eapply (λ c' Hc', IH c' Hc' room); (exact Hn || done || lia)|].
    intros r c' (ws & -> & ? & ? & ->). by exists ws.
  - rewrite E1, E2. rewrite (proj2 (Z.leb_gt _ _)) by lia. rewrite (proj2 (Z.eqb_eq _ _)) by lia. cbn [andb negb]. rewrite andb_false_r.
    apply runs_ret. by exists got.
Qed.

(** ** The card programs *)

Lemma runs_prog_done fuel c m a k ws :
  no_command c → p_data c = DProg m true a k ws ∨ p_data c = DDone → (k < fuel)%nat →
  runs c (wait_prog_done fuel)
    (λ r c', r = 0 ∧ ∃ disk', c' = set_phases c (p_cmd c) (DDone, disk') ∧
       (if p_data c is DDone then disk' = p_disk c else store (p_disk c) (a * 512) (bytes_of_words ws) = Ok disk')).
Proof.
  intros Hn Hd. revert c Hn k Hd. induction fuel as [|fuel IH]; intros c Hn k Hd Hk; [lia|]. cbn [wait_prog_done].
  apply runs_then, runs_status. intros v cm x ->%cmd_status_settled Hs; [|done].
  destruct Hd as [Hd|Hd]; rewrite Hd in Hs |- *.
  - inversion Hs as [? ? Hq| | | | | | |? ? k1 ? ? E|? ? ? ? ? disk' E Hst|]; subst.
    + destruct Hq as [?|[?|[(?&?&?)|(?&?&?&?&?)]]]; done.
    + rewrite E. eapply runs_mono; [eapply (λ c' Hc', IH c' Hc' k1); [exact Hn|by left|lia]|].
      intros r c' [-> (disk' & -> & Hst)]. split; [done|]. by exists disk'.
    + rewrite E. apply runs_ret. split; [done|]. by exists disk'.
  - inversion Hs as [? ? Hq| | | | | | | | |? E]; subst.
    + destruct Hq as [?|[?|[(?&?&?)|(?&?&?&?&?)]]]; done.
    + rewrite E. apply runs_ret. split; [done|]. by exists (p_disk c).
Qed.

(** ** Whole transfers *)

Lemma quiet_phase v d disk x :
  d = DIdle ∨ d = DOpen ∨ (∃ m a, d = DReady m a) → data_status v (d, disk) x → x = (d, disk).
Proof. intros Hd Hs. destruct Hd as [->|[->|(m & a & ->)]]; by inversion Hs. Qed.

Lemma evolve_quiet d disk x :
  d = DIdle ∨ d = DOpen ∨ (∃ m a, d = DReady m a) → evolve (d, disk) x → x = (d, disk).
Proof.
  intros Hd He. remember (d, disk) as y eqn:Ey. induction He as [|y z w [v Hv] _ IH]; [done|]. subst.
  apply quiet_phase in Hv as ->; [by apply IH|done].
Qed.

Lemma evolve_done disk x : evolve (DDone, disk) x → x = (DDone, disk).
Proof.
  intros He. remember (DDone, disk) as y eqn:Ey. induction He as [|y z w [v Hv] _ IH]; [done|]. rewrite Ey in Hv |- *.
  assert (z = (DDone, disk)) as Ez by (by inversion Hv as [? ? [?|[?|[(?&?&?)|(?&?&?&?&?)]]]| | | | | | | | |]).
  rewrite <- Ez. apply IH. done.
Qed.

Lemma evolve_read avail k ws open disk x :
  (avail ≤ length ws)%nat → evolve (DRead avail k ws open, disk) x →
  ∃ avail' k', x = (DRead avail' k' ws open, disk) ∧ (avail' ≤ length ws)%nat ∧ (k' ≤ k)%nat.
Proof.
  intros Ha He. remember (DRead avail k ws open, disk) as y eqn:Ey. revert avail k Ha Ey.
  induction He as [|y z w [v Hv] _ IH]; intros avail k Ha ->; [by eexists _, _|].
  inversion Hv as [? ? Hq|? avail' ? ? ? ? ? ?|k1 ? ? ?| | | | | | |]; subst.
  - destruct Hq as [?|[?|[(?&?&?)|(?&?&?&?&?)]]]; done.
  - apply (IH avail' k); [lia|done].
  - destruct (IH 0%nat k1) as (a' & k' & -> & ? & ?); [lia|done|]. eexists _, _. split; [done|]. lia.
Qed.

Lemma evolve_prog m a k ws disk x :
  evolve (DProg m true a k ws, disk) x →
  (∃ k', x = (DProg m true a k' ws, disk) ∧ (k' ≤ k)%nat) ∨
  (∃ disk', x = (DDone, disk') ∧ store disk (a * 512) (bytes_of_words ws) = Ok disk').
Proof.
  intros He. remember (DProg m true a k ws, disk) as y eqn:Ey. revert k Ey.
  induction He as [|y z w [v Hv] Hr IH]; intros k ->; [by left; eexists|].
  inversion Hv as [? ? Hq| | | | | | |? ? k1 ? ? E|? ? ? ? ? disk' E Hst|]; subst.
  - destruct Hq as [?|[?|[(?&?&?)|(?&?&?&?&?)]]]; done.
  - destruct (IH k1) as [(k' & -> & ?)|?]; [done|left; exists k'; split; [done|lia]|by right].
  - right. exists disk'. split; [by apply evolve_done|done].
Qed.

Lemma resp0_with r l cmd : resp0 (with_resp (r :: l) cmd) = r.
Proof. done. Qed.

Lemma runs_sent c cmd d f (Ψ : Z → port → Prop) :
  no_command c → plain cmd → (slack < polls)%nat →
  accept slack (cleared (argument cmd) c) (cmd_index cmd) (any (command_register cmd) MMC_BOOT_MCI_CMD_PROG_ENA) = Some d →
  (∀ r x, clean r → evolve (d, p_disk c) x →
     runs (after_command c (argument cmd) (cmd_index cmd) r x) (f (with_resp (r :: drop 1 (resp cmd)) cmd)) Ψ) →
  runs c (sent polls cmd f) Ψ.
Proof.
  intros Hn Hp Hs Ha Hf. unfold sent. eapply runs_bind; [by eapply runs_send_command|].
  intros ? c' (r & x & Hr & -> & He & ->). by apply Hf.
Qed.

(** Between transfers. *)
Definition idle (c : port) : Prop := no_command c ∧ p_count c = None ∧ (p_data c = DIdle ∨ p_data c = DDone).

(** A card of high capacity, in the transfer state after initialisation. *)
Definition hc_card (cd : mmc_boot_card) : Prop := is_hc cd = true ∧ rd_block_len cd = 512 ∧ wr_block_len cd = 512.

(** Whole sectors of the card, at an address in 32 bits of sectors. *)
Definition sectors (disk : list Z) (addr len : Z) : Prop :=
  0 ≤ addr ∧ addr mod 512 = 0 ∧ 0 < len ∧ len mod 512 = 0 ∧ len < 2 ^ 32 ∧
  addr + len ≤ Z.of_nat (length disk) ∧ addr / 512 < 2 ^ 32.

Context (Hcard : hc_card (mmc_card s0)).

Lemma runs_block_len c len (Φ : Z → port → Prop) : Φ 0 c → runs c (block_len_if_needed polls len) Φ.
Proof.
  intros HΦ. unfold block_len_if_needed. apply runs_then, runs_card. destruct Hcard as [-> _]. by apply runs_ret.
Qed.

Lemma in_card_sectors c addr len :
  sectors (p_disk c) addr len → p_arg c = addr / 512 → p_len c = len → in_card c = true.
Proof.
  unfold in_card. intros (? & ? & ? & ? & ? & ? & ?) -> ->. apply andb_true_iff. rewrite !Z.leb_le.
  assert (addr / 512 * 512 = addr) by (Z.div_mod_to_equations; lia). split; [apply Z.div_pos|]; lia.
Qed.

Lemma card_address_hc addr : 0 ≤ addr → addr / 512 < 2 ^ 32 → card_address (mmc_card s0) addr = addr / 512.
Proof.
  intros ? ?. unfold card_address. destruct Hcard as [-> _]. cbn [negb]. apply u32_small. split; [apply Z.div_pos|]; lia.
Qed.

Lemma runs_stop c prg d (Ψ : Z → port → Prop) :
  no_command c → (slack < polls)%nat →
  accept slack (cleared 0 c) 12 (negb (prg =? 0)) = Some d →
  (∀ r x, evolve (d, p_disk c) x → Ψ 0 (after_command c 0 12 r x)) →
  runs c (mmc_boot_send_stop_transmission polls prg) Ψ.
Proof.
  intros Hn Hs Ha HΨ. unfold mmc_boot_send_stop_transmission. eapply runs_sent; [done|by repeat split; auto|done| |].
  - cbn [with_prg argument command cmd_index]. rewrite <- Ha. f_equal. unfold command_register. cbn -[Z.lor].
    by destruct (prg =? 0).
  - intros r x _ He. apply runs_ret. by apply HΨ.
Qed.

(** The bytes of the sectors. *)
Definition card_bytes (disk : list Z) (addr len : Z) : list Z := take (Z.to_nat len) (drop (Z.to_nat addr) disk).

Lemma words_of_take n bs : words_of n (take (4 * n) bs) = words_of n bs.
Proof.
  revert bs. induction n as [|n IH]; intros bs; [done|]. cbn [words_of]. rewrite take_take.
  replace (4 `min` (4 * S n))%nat with 4%nat by lia. f_equal.
  rewrite <- (IH (drop 4 bs)), skipn_firstn_comm. by replace (4 * S n - 4)%nat with (4 * n)%nat by lia.
Qed.

Lemma read_data_bytes c addr len :
  sectors (p_disk c) addr len → Forall is_byte (p_disk c) → p_arg c = addr / 512 → p_len c = len →
  bytes_of_words (read_data c) = card_bytes (p_disk c) addr len ∧ length (read_data c) = Z.to_nat (len / 4).
Proof.
  unfold read_data, card_bytes. intros (? & ? & ? & ? & ? & ? & ?) Hb -> ->. split; [|apply length_words_of].
  replace (addr / 512 * 512) with addr by (Z.div_mod_to_equations; lia).
  replace (Z.to_nat len) with (4 * Z.to_nat (len / 4))%nat by (Z.div_mod_to_equations; lia).
  rewrite <- words_of_take. apply bytes_words; [|by apply Forall_take, Forall_drop].
  rewrite length_take, length_drop. Z.div_mod_to_equations. lia.
Qed.

(** The data of a read, through the FIFO and the end of the transfer. *)
Lemma runs_read_data c addr len open k ws (multi : bool) out avail :
  no_command c → p_data c = DRead avail k ws open → p_count c = None → (avail ≤ length ws)%nat → (k ≤ slack)%nat →
  0 < len < 2 ^ 32 → len mod 4 = 0 → length ws = Z.to_nat (len / 4) → length out = Z.to_nat len →
  bytes_of_words ws = card_bytes (p_disk c) addr len → (slack + Z.to_nat (len / 4) < polls)%nat → open = multi →
  runs c ('(mmc_ret, out) ← mmc_boot_fifo_read polls len out;
          if negb (mmc_ret =? MMC_BOOT_E_SUCCESS) then mret (mmc_ret, out)
          else if multi then mmc_ret ← mmc_boot_send_stop_transmission polls 0; mret (mmc_ret, out)
          else mret (MMC_BOOT_E_SUCCESS, out))
    (λ a c', a = (0, card_bytes (p_disk c) addr len) ∧ idle c' ∧ p_disk c' = p_disk c).
Proof.
  intros Hn Hd Hco Ha Hk Hl Hm Hw Ho Hb Hp ->.
  assert (length out = 4 * length ws)%nat as Ho' by (rewrite Ho, Hw; Z.div_mod_to_equations; lia).
  assert (len = Z.of_nat (length out)) as Hlen by lia.
  eapply runs_bind.
  { unfold mmc_boot_fifo_read. rewrite Hlen. apply (runs_fifo_read_loop polls c avail k ws multi [] out); cbn [app length]; try done; try lia.
    intros ->. cbn in Hw. Z.div_mod_to_equations. lia. }
  cbn [app]. intros ? c' [-> ->]. rewrite <- Hb. cbn [negb Z.eqb]. destruct multi.
  - apply runs_then. eapply runs_stop; [exact Hn|lia|done|]. intros r x ->%evolve_quiet; [|by left].
    apply runs_ret. split; [done|]. split; [|done]. split_and!; [done|done|by left].
  - apply runs_ret. split; [done|]. split; [|done]. split_and!; [exact Hn|exact Hco|by left].
Qed.

(** The command for one block, for more blocks with their number known or not, and the
    data. *)
Definition read_blocks (addr len : Z) (out : buffer) (multi counted : bool) : M (Z * buffer) :=
  writel (read_timer (mmc_host s0) (mmc_card s0)) MMC_BOOT_MCI_DATA_TIMER;;
  writel len MMC_BOOT_MCI_DATA_LENGTH;;
  writel (read_control 512) MMC_BOOT_MCI_DATA_CTL;;
  on_success (λ r, mret (r, out))
    (mmc_boot_send_read_command polls (if multi then MMC_BOOT_XFER_MULTI_BLOCK else MMC_BOOT_XFER_SINGLE_BLOCK) (addr / 512))
    ('(mmc_ret, out) ← mmc_boot_fifo_read polls len out;
     if negb (mmc_ret =? MMC_BOOT_E_SUCCESS) then mret (mmc_ret, out)
     else if multi && negb counted then mmc_ret ← mmc_boot_send_stop_transmission polls 0; mret (mmc_ret, out)
     else mret (MMC_BOOT_E_SUCCESS, out)).

Lemma accept_read c addr len (multi counted : bool) :
  sectors (p_disk c) addr len → p_data c = DIdle → p_arg c = addr / 512 → p_len c = len → p_ctl c = read_control 512 →
  multi = (512 <? len) → p_count c = (if multi && counted then Some (len / 512) else None) →
  accept slack c (if multi then 18 else 17) false = Some (DRead 0 slack (read_data c) (multi && negb counted)).
Proof.
  intros Hsec Hd Ha Hl Hctl Hmu Hcnt. pose proof (in_card_sectors c addr len Hsec Ha Hl) as Hin.
  destruct Hsec as (? & ? & ? & Hmod & ? & ? & ?). destruct multi; unfold accept; rewrite Hd, Hin, Hl, Hctl.
  - rewrite Hmod, (proj2 (Z.ltb_lt 0 len)), !Z.eqb_refl by lia. cbn [andb]. rewrite Hcnt.
    destruct counted; cbn [andb negb]; [|done].
    replace (len / 512 * 512) with len by (Z.div_mod_to_equations; lia). by rewrite Z.eqb_refl.
  - symmetry in Hmu. apply Z.ltb_ge in Hmu. assert (len = 512) as -> by (Z.div_mod_to_equations; lia). done.
Qed.

Lemma runs_read_blocks c addr len out (multi counted : bool) :
  no_command c → p_data c = DIdle ∨ p_data c = DDone → multi = (512 <? len) →
  p_count c = (if multi && counted then Some (len / 512) else None) →
  sectors (p_disk c) addr len → Forall is_byte (p_disk c) → length out = Z.to_nat len →
  (slack + Z.to_nat (len / 4) < polls)%nat →
  runs c (read_blocks addr len out multi counted)
    (λ a c', a = (0, card_bytes (p_disk c) addr len) ∧ idle c' ∧ p_disk c' = p_disk c).
Proof.
  intros Hn Hd Hmu Hcnt Hsec Hb Ho Hp. unfold read_blocks.
  apply runs_then, runs_clock_write; [by right|]. apply runs_then, runs_length; [done|].
  apply runs_then, runs_read_ctl; [done|].
  set (c2 := cleared (addr / 512) (set_ctl (read_control 512) (set_len len c))).
  assert (p_data c2 = DIdle) as Hd2 by (cbn; by destruct Hd as [-> | ->]).
  destruct (read_data_bytes c2 addr len) as [Hwords Hwl]; [done..|].
  pose proof (accept_read c2 addr len multi counted Hsec Hd2 eq_refl eq_refl eq_refl Hmu Hcnt) as Hacc.
  apply runs_try. unfold mmc_boot_send_read_command.
  eapply (runs_sent _ _ (DRead 0 slack (read_data c2) (multi && negb counted)));
    [exact Hn|by destruct multi; repeat split; auto|lia|by destruct multi|].
  intros r x (E1 & E2 & _) He. apply evolve_read in He as (avail' & k' & -> & Ha' & Hk'); [|cbn; lia].
  unfold check_transfer. rewrite !resp0_with, E1, E2. apply runs_ret. split; [done|].
  destruct Hsec as (? & ? & ? & ? & ? & ? & ?).
  eapply runs_mono; [eapply (runs_read_data _ addr len (multi && negb counted) k' (read_data c2));
    cbn [after_command no_command p_cmd p_data p_count p_disk]; try done; [by destruct multi|Z.div_mod_to_equations; lia]|].
  intros a c' Ha. exact Ha.
Qed.

Lemma runs_read_from_card c addr len out :
  idle c → sectors (p_disk c) addr len → Forall is_byte (p_disk c) → length out = Z.to_nat len →
  (slack + Z.to_nat (len / 4) < polls)%nat →
  runs c (mmc_boot_read_from_card polls addr len out)
    (λ a c', a = (0, card_bytes (p_disk c) addr len) ∧ idle c' ∧ p_disk c' = p_disk c).
Proof.
  intros (Hn & Hco & Hd) Hsec Hb Ho Hp. pose proof Hcard as (Hhc & Hrd & _). pose proof Hsec as (? & ? & ? & ? & ? & ? & ?).
  unfold mmc_boot_read_from_card. apply runs_then, runs_card, runs_then, runs_host, runs_try, runs_block_len.
  split; [done|]. cbv zeta. unfold transfer_type. rewrite Hrd, card_address_hc by done.
  set (mmc := (type (mmc_card s0) =? MMC_BOOT_TYPE_MMCHC) || (type (mmc_card s0) =? MMC_BOOT_TYPE_STD_MMC)).
  destruct (512 <? len) eqn:Hmu; cbn [Z.eqb MMC_BOOT_XFER_MULTI_BLOCK MMC_BOOT_XFER_SINGLE_BLOCK andb]; [destruct mmc|].
  - apply runs_try. unfold mmc_boot_set_block_count.
    eapply (runs_sent _ _ DIdle); [exact Hn|by repeat split; auto|lia|cbn; by destruct Hd as [-> | ->]|].
    intros r x (E1 & E2 & E3 & _) ->%evolve_quiet; [|by left]. rewrite resp0_with, E3. apply runs_ret. split; [done|]. eapply runs_mono; [by apply (runs_read_blocks _ addr len out true true); [|left|..]|].
    intros a c' Ha. exact Ha.
  - apply runs_try, runs_ret. split; [done|]. by apply (runs_read_blocks _ addr len out true false).
  - apply runs_try, runs_ret. split; [done|]. by apply (runs_read_blocks _ addr len out false true).
Qed.

Lemma accept_write c addr len (multi : bool) :
  sectors (p_disk c) addr len → p_data c = DIdle → p_arg c = addr / 512 → p_len c = len → multi = (512 <? len) →
  accept slack c (if multi then 25 else 24) false = Some (DReady multi (addr / 512)).
Proof.
  intros Hsec Hd Ha Hl Hmu. pose proof (in_card_sectors c addr len Hsec Ha Hl) as Hin.
  destruct Hsec as (? & ? & ? & Hmod & ? & ? & ?). destruct multi; unfold accept; rewrite Hd, Hin, Hl, Ha.
  - by rewrite Hmod, (proj2 (Z.ltb_lt 0 len)) by lia.
  - symmetry in Hmu. apply Z.ltb_ge in Hmu. assert (len = 512) as -> by (Z.div_mod_to_equations; lia). done.
Qed.

(** The end of a write: the card is told and programs. *)
Lemma runs_write_end c (multi : bool) a k ws :
  no_command c → p_data c = DProg multi false a k ws → (slack < polls)%nat →
  runs c (TRY (if multi then mmc_boot_send_stop_transmission polls 1
               else '(mmc_ret, _) ← mmc_boot_get_card_status polls 1 uninit; mret mmc_ret);
          wait_prog_done polls)
    (λ r c', r = 0 ∧ idle c' ∧ store (p_disk c) (a * 512) (bytes_of_words ws) = Ok (p_disk c')).
Proof.
  intros Hn Hd Hp.
  assert (∀ c1 arg i r x, c1 = after_command c arg i r x → i ≠ 23 → evolve (DProg multi true a slack ws, p_disk c) x →
    runs c1 (wait_prog_done polls)
      (λ r c', r = 0 ∧ idle c' ∧ store (p_disk c) (a * 512) (bytes_of_words ws) = Ok (p_disk c'))) as Hwait.
  { intros c1 arg i r x -> Hi [(k' & -> & Hk)|(disk' & -> & Hst)]%evolve_prog.
    - eapply runs_mono; [eapply (runs_prog_done polls _ multi a k' ws); [done|by left|lia]|].
      intros r' c' [-> (disk' & -> & Hst)]. split; [done|]. split; [|exact Hst].
      split_and!; [done|cbn; by rewrite (proj2 (Z.eqb_neq i 23))|by right].
    - eapply runs_mono; [eapply (runs_prog_done polls _ multi a 0 ws); [done|by right|lia]|].
      intros r' c' [-> (disk2 & -> & Hst2)]. split; [done|]. cbn in Hst2. subst disk2. split; [|exact Hst].
      split_and!; [done|cbn; by rewrite (proj2 (Z.eqb_neq i 23))|by right]. }
  apply runs_try. destruct multi.
  - eapply (runs_stop _ 1 (DProg true true a slack ws)); [done|done|by cbn; rewrite Hd|].
    intros r x He. split; [done|]. by eapply Hwait.
  - unfold mmc_boot_get_card_status. apply runs_then, runs_then, runs_card. eapply runs_bind.
    { eapply (runs_send_command _ _ (DProg false true a slack ws)); [done|by repeat split; auto|done|by cbn; rewrite Hd]. }
    intros ? c' (r & x & (_ & _ & _ & Hr) & -> & He & ->). unfold answered. cbn [Z.eqb negb MMC_BOOT_E_SUCCESS].
    rewrite resp0_with, Hr. apply runs_ret, runs_ret. split; [done|]. by eapply Hwait.
Qed.

(** The data of a write. *)
Lemma runs_write_data c multi a len inb :
  no_command c → p_data c = DWrite multi a 0 slack [] (Z.to_nat (len / 4)) → 0 < len < 2 ^ 32 → len mod 4 = 0 →
  Forall is_byte inb → len ≤ Z.of_nat (length inb) → (slack + Z.to_nat (len / 4) < polls)%nat →
  runs c (mmc_boot_fifo_write polls len inb)
    (λ r c', ∃ ws, r = 0 ∧ bytes_of_words ws = take (Z.to_nat len) inb ∧ c' = set_data (DProg multi false a 0 ws) c).
Proof.
  intros Hn Hd Hl Hm Hb Hi Hp. remember (Z.to_nat (len / 4)) as n eqn:En.
  assert (len = Z.of_nat (4 * n)) as Hlen by (subst n; Z.div_mod_to_equations; lia). clear En. subst len. rewrite Nat2Z.id.
  eapply runs_mono; [eapply (runs_fifo_write_loop polls c multi a 0 slack [] n inb); try done; cbn; lia|].
  intros r c' (ws & -> & Hw & Ht & ->). exists ws. split; [done|]. split; [|done]. unfold taken in Ht. by rewrite Hw in Ht.
Qed.

Lemma runs_write_to_card c addr len inb :
  idle c → sectors (p_disk c) addr len → Forall is_byte inb → len ≤ Z.of_nat (length inb) →
  (slack + Z.to_nat (len / 4) < polls)%nat →
  runs c (mmc_boot_write_to_card polls uninit addr len inb)
    (λ r c', r = 0 ∧ idle c' ∧ store (p_disk c) addr (take (Z.to_nat len) inb) = Ok (p_disk c')).
Proof.
  intros (Hn & Hco & Hd) Hsec Hb Hl Hp. pose proof Hcard as (Hhc & Hrd & Hwr). pose proof Hsec as (? & Ha & ? & ? & ? & ? & ?).
  unfold mmc_boot_write_to_card. apply runs_then, runs_card, runs_try, runs_block_len.
  split; [done|]. cbv zeta. unfold transfer_type. rewrite Hrd, Hwr, card_address_hc by done.
  apply runs_then, runs_enable_flow, runs_then, runs_clock_write; [by right|]. apply runs_then, runs_length; [done|].
  remember (512 <? len) as multi eqn:Hmu. set (c2 := cleared (addr / 512) (set_len len c)).
  assert (p_data c2 = DIdle) as Hd2 by (cbn; by destruct Hd as [-> | ->]).
  pose proof (accept_write c2 addr len multi Hsec Hd2 eq_refl eq_refl Hmu) as Hacc.
  apply runs_try. unfold mmc_boot_send_write_command.
  eapply (runs_sent _ _ (DReady multi (addr / 512))); [exact Hn|by destruct multi; repeat split; auto|lia|by destruct multi|].
  intros r x (E1 & E2 & _) ->%evolve_quiet; [|by eauto]. unfold check_transfer. rewrite !resp0_with, E1, E2.
  apply runs_ret. split; [done|]. apply runs_then. eapply runs_write_ctl; [done|].
  eapply runs_bind; [eapply (runs_write_data _ multi (addr / 512) len inb); try done; Z.div_mod_to_equations; lia|].
  intros r' c' (ws & -> & Ht & ->). cbn [Z.eqb negb].
  replace (_ =? MMC_BOOT_XFER_MULTI_BLOCK) with multi by (by destruct multi). eapply runs_mono.
  - eapply (runs_write_end _ multi (addr / 512) 0 ws); [done|done|lia].
  - intros r' c' (-> & Hi & Hst). split; [done|]. split; [done|]. cbn in Hst. rewrite Ht in Hst.
    by replace (addr / 512 * 512) with addr in Hst by (Z.div_mod_to_equations; lia).
Qed.

(** ** Transfers of any length *)

Lemma store_take_drop disk a bs d' :
  store disk a bs = Ok d' → Forall is_byte disk → Forall is_byte bs → Forall is_byte d' ∧ length d' = length disk.
Proof.
  intros Hs Hd Hb. split; [|by eapply store_length]. apply store_ok in Hs as (_ & _ & ->).
  apply Forall_app. split; [by apply Forall_take|]. apply Forall_app. split; [done|by apply Forall_drop].
Qed.

(** One transfer is [ram_write] on the card's memory. *)
Lemma runs_ram_write c addr len inb :
  idle c → sectors (p_disk c) addr len → Forall is_byte (p_disk c) → Forall is_byte inb → len ≤ Z.of_nat (length inb) →
  (slack + Z.to_nat (len / 4) < polls)%nat →
  runs c (mmc_boot_write_to_card polls uninit addr len inb)
    (λ r c', r = 0 ∧ idle c' ∧ ram_write (mkRam (p_disk c)) addr (take (Z.to_nat len) inb) = (0, mkRam (p_disk c')) ∧
       length (p_disk c') = length (p_disk c) ∧ Forall is_byte (p_disk c')).
Proof.
  intros Hi Hs Hd Hb Hl Hp. eapply runs_mono; [by apply runs_write_to_card|]. intros r c' (-> & Hi' & Hst).
  split_and!; [done|done| |..].
  - unfold ram_write. cbn [ram]. by rewrite Hst.
  - by eapply store_length.
  - eapply (proj1 (store_take_drop _ _ _ _ Hst Hd _)). Unshelve. by apply Forall_take.
Qed.

(** [len] bytes from [p] in the buffer fit on the card from [addr + o] on. *)
Definition writable (c : port) (buf : buffer) (p addr o len : Z) : Prop :=
  0 ≤ addr ∧ addr mod 512 = 0 ∧ 0 ≤ p ∧ 0 ≤ o ∧ o mod 512 = 0 ∧ 0 ≤ len ∧ len mod 512 = 0 ∧ o + len < 2 ^ 32 ∧
  addr + o + len ≤ Z.of_nat (length (p_disk c)) ∧ Z.of_nat (length (p_disk c)) ≤ 2 ^ 41 ∧ p + len ≤ Z.of_nat (length buf) ∧
  (slack + Z.to_nat (len / 4) < polls)%nat.

Lemma writable_sectors c buf p addr o len n :
  writable c buf p addr o len → 0 < n ≤ len → n mod 512 = 0 → sectors (p_disk c) (u64 (addr + o)) n.
Proof.
  intros (? & ? & ? & ? & ? & ? & ? & ? & ? & ? & ? & ?) Hn Hm. unfold u64. rewrite Z.mod_small by lia.
  split_and!; try lia; Z.div_mod_to_equations; lia.
Qed.

Lemma writable_step c c' buf p addr o len :
  writable c buf p addr o len → WRITE_SIZE < len → length (p_disk c') = length (p_disk c) →
  writable c' buf (p + WRITE_SIZE) addr (o + WRITE_SIZE) (len - WRITE_SIZE).
Proof.
  intros (? & ? & ? & ? & ? & ? & ? & ? & ? & ? & ? & ?) Hlt Hl.
  assert (0 < WRITE_SIZE ∧ WRITE_SIZE mod 512 = 0) as [? ?] by done.
  assert ((len - WRITE_SIZE) / 4 ≤ len / 4) by (apply Z.div_le_mono; lia).
  unfold writable. rewrite Hl. split_and!; try lia; Z.div_mod_to_equations; lia.
Qed.

Lemma runs_write_part c buf p addr o len n :
  idle c → Forall is_byte (p_disk c) → Forall is_byte buf → writable c buf p addr o len → 0 < n ≤ len → n mod 512 = 0 →
  runs c (mmc_boot_write_to_card polls uninit (u64 (addr + o)) n (drop (Z.to_nat p) buf))
    (λ r c', r = 0 ∧ idle c' ∧
       (bs ← slice buf p (Z.to_nat n); Ok (write_to_card (mkRam (p_disk c)) (u64 (addr + o)) bs)) = Ok (0, mkRam (p_disk c')) ∧
       length (p_disk c') = length (p_disk c) ∧ Forall is_byte (p_disk c')).
Proof.
  intros Hi Hd Hb Hw Hn Hm. pose proof Hw as (? & ? & ? & ? & ? & ? & ? & ? & ? & ? & ? & ?).
  assert (n / 4 ≤ len / 4) by (apply Z.div_le_mono; lia).
  rewrite (proj2 (slice_ok buf p (Z.to_nat n) (take (Z.to_nat n) (drop (Z.to_nat p) buf)))) by (split_and!; [lia|lia|done]).
  cbn [mbind res_bind write_to_card ram_disk_device]. eapply runs_mono.
  - apply runs_ram_write; [done|by eapply writable_sectors|done|by apply Forall_drop|rewrite length_drop; lia|lia].
  - intros r c' (-> & ? & -> & ? & ?). done.
Qed.

Lemma runs_card_write_loop fuel c buf p addr o len :
  idle c → Forall is_byte (p_disk c) → Forall is_byte buf → writable c buf p addr o len →
  len ≤ Z.of_nat (S fuel) * WRITE_SIZE →
  runs c (card_write_loop polls uninit fuel buf p addr o len)
    (λ r c', mmc_write_loop fuel buf p addr o len (mkRam (p_disk c)) = Ok (r, mkRam (p_disk c')) ∧ r = 0 ∧ idle c' ∧
       length (p_disk c') = length (p_disk c) ∧ Forall is_byte (p_disk c')).
Proof.
  assert (0 < WRITE_SIZE < 2 ^ 32 ∧ WRITE_SIZE mod 512 = 0) as [HW HWm] by (split; [done|reflexivity]).
  revert c p o len. induction fuel as [|fuel IH]; intros c p o len Hi Hd Hb Hw Hf; cbn [card_write_loop mmc_write_loop].
  all: pose proof Hw as (? & ? & ? & ? & ? & ? & ? & ? & ? & ? & ? & ?).
  all: assert (len ≤ WRITE_SIZE → runs c (if negb (len =? 0) then
      mmc_boot_write_to_card polls uninit (u64 (addr + o)) len (drop (Z.to_nat p) buf) else mret 0)
    (λ r c', (if negb (len =? 0) then bs ← slice buf p (Z.to_nat len); Ok (write_to_card (mkRam (p_disk c)) (u64 (addr + o)) bs)
       else Ok (0, mkRam (p_disk c))) = Ok (r, mkRam (p_disk c')) ∧ r = 0 ∧ idle c' ∧
       length (p_disk c') = length (p_disk c) ∧ Forall is_byte (p_disk c'))) as Hlast.
  1, 3: intros _; destruct (Z.eqb_spec len 0) as [->|Hne]; cbn [negb]; [by apply runs_ret|];
    eapply runs_mono; [by apply (runs_write_part c buf p addr o len len); [..|lia|]|]; intros r c' (-> & ? & -> & ? & ?); done.
  - rewrite (proj2 (Z.ltb_ge _ _)) by lia. apply Hlast. lia.
  - destruct (Z.ltb_spec WRITE_SIZE len) as [Hlt|Hge]; [|by apply Hlast].
    apply runs_try. eapply runs_mono; [by apply (runs_write_part c buf p addr o len WRITE_SIZE); [..|lia|]|].
    intros r c' (-> & Hi' & Hr & Hlen & Hd'). split; [done|]. apply res_bind_ok in Hr as (bs & -> & Hr).
    cbn [mbind res_bind].
    match type of Hr with Ok ?x = Ok ?y => assert (x = y) as -> by congruence end. cbn [negb Z.eqb].
    rewrite (u32_small (o + WRITE_SIZE)), (u32_small (len - WRITE_SIZE)) by lia. eapply runs_mono.
    + apply IH; [done..|by eapply writable_step|lia].
    + intros r c2 (Hm & -> & Hi2 & Hlen2 & Hd2). split_and!; [exact Hm|done|done|lia|done].
Qed.

(** ** The block device *)

(** A request of the boot loader: mmc_read or mmc_write. *)
Inductive card_request := ReadCard (addr len : Z) | WriteCard (addr len : Z) (buf : buffer).

(** Its answer on the driver, and on the disk in memory. *)
Definition serve (q : card_request) : M (Z * buffer) :=
  match q with
  | ReadCard addr len => card_read polls addr (replicate (Z.to_nat len) 0) len
  | WriteCard addr len buf => r ← card_write polls uninit addr len buf; mret (r, [])
  end.

Definition serve_ram (q : card_request) (d : ram_disk) : res ((Z * buffer) * ram_disk) :=
  match q with
  | ReadCard addr len => Ok (mmc_read addr (Z.to_nat len) d, d)
  | WriteCard addr len buf => '(r, d') ← mmc_write addr len buf 0 d; Ok ((r, []), d')
  end.

Fixpoint serve_all (qs : list card_request) : M (list (Z * buffer)) :=
  match qs with
  | [] => mret []
  | q :: qs => a ← serve q; l ← serve_all qs; mret (a :: l)
  end.

Fixpoint serve_all_ram (qs : list card_request) (d : ram_disk) : res (list (Z * buffer) * ram_disk) :=
  match qs with
  | [] => Ok ([], d)
  | q :: qs => '(a, d) ← serve_ram q d; '(l, d) ← serve_all_ram qs d; Ok (a :: l, d)
  end.

(** Requests for a card of [size] bytes: whole sectors to read, and a buffer that holds the
    rounded length to write; the polls are enough for the words. *)
Definition good_request (size : Z) (q : card_request) : Prop :=
  match q with
  | ReadCard addr len =>
      0 ≤ addr ∧ addr mod 512 = 0 ∧ 0 < len < 2 ^ 32 ∧ len mod 512 = 0 ∧ addr + len ≤ size ∧
      (slack + Z.to_nat (len / 4) < polls)%nat
  | WriteCard addr len buf =>
      0 ≤ addr ∧ addr mod 512 = 0 ∧ 0 ≤ len ∧ len + 511 < 2 ^ 32 ∧ addr + (len + 511) / 512 * 512 ≤ size ∧
      (len + 511) / 512 * 512 ≤ Z.of_nat (length buf) ∧ Forall is_byte buf ∧
      (slack + Z.to_nat ((len + 511) / 512 * 512 / 4) < polls)%nat
  end.

(** A card whose memory is [d]. *)
Definition holds_disk (d : ram_disk) (c : port) : Prop :=
  idle c ∧ p_disk c = ram d ∧ Forall is_byte (ram d).

Lemma ram_read_bytes disk addr len :
  Forall is_byte disk → 0 ≤ addr → 0 ≤ len → addr + len ≤ Z.of_nat (length disk) →
  ram_read (mkRam disk) addr (Z.to_nat len) = (0, card_bytes disk addr len).
Proof.
  intros Hb Ha Hl Hc. unfold ram_read, card_bytes. cbn [ram].
  rewrite (proj2 (slice_ok _ _ _ _)) by (split_and!; [lia|lia|reflexivity]). f_equal.
  rewrite <- (list_fmap_id (take _ _)) at 2. apply list_fmap_ext. intros i b Hi.
  apply lookup_take_Some in Hi as [Hi _]. rewrite lookup_drop in Hi.
  apply Z.mod_small. by eapply Forall_lookup_1 in Hb; [|exact Hi].
Qed.

Lemma runs_serve c q d :
  holds_disk d c → Z.of_nat (length (ram d)) ≤ 2 ^ 41 → good_request (Z.of_nat (length (ram d))) q →
  runs c (serve q) (λ a c', ∃ d', serve_ram q d = Ok (a, d') ∧ holds_disk d' c' ∧ length (ram d') = length (ram d)).
Proof.
  intros (Hi & Hd & Hb) H41 Hq. destruct d as [disk]. cbn [ram] in *. subst disk. destruct q as [addr len|addr len buf]; cbn [serve serve_ram].
  - destruct Hq as (? & ? & ? & ? & ? & ?). eapply runs_mono.
    { apply runs_read_from_card; [done| |done|by rewrite length_replicate|done]. split_and!; try lia. Z.div_mod_to_equations. lia. }
    intros a c' (-> & Hi' & Hd'). exists (mkRam (p_disk c)). split; [|done].
    unfold mmc_read. cbn [read_from_card ram_disk_device]. by rewrite ram_read_bytes by (done || lia).
  - destruct Hq as (? & ? & ? & ? & ? & ? & Hbuf & ?). apply runs_then. unfold card_write, mmc_write.
    rewrite mmc_write_rounds by done. set (n := (len + 511) / 512 * 512) in *.
    assert (0 ≤ n ∧ n mod 512 = 0 ∧ n < 2 ^ 32) as (? & ? & ?) by (subst n; Z.div_mod_to_equations; lia).
    eapply runs_mono.
    { apply (runs_card_write_loop 257 c buf 0 addr 0 n); [done..| |change (Z.of_nat (S 257)) with 258; change WRITE_SIZE with 16776704; lia]. split_and!; try done; lia. }
    intros r c' (-> & -> & Hi' & Hl & Hb'). apply runs_ret. exists (mkRam (p_disk c')). done.
Qed.

Lemma runs_serve_all qs c d :
  holds_disk d c → Z.of_nat (length (ram d)) ≤ 2 ^ 41 → Forall (good_request (Z.of_nat (length (ram d)))) qs →
  runs c (serve_all qs) (λ l c', ∃ d', serve_all_ram qs d = Ok (l, d') ∧ holds_disk d' c').
Proof.
  intros Hh H41 Hq. revert c d Hh H41 Hq. induction qs as [|q qs IH]; intros c d Hh H41 Hq; cbn [serve_all serve_all_ram].
  - apply runs_ret. eauto.
  - apply Forall_cons in Hq as [Hq Hqs]. eapply runs_bind; [by apply runs_serve|].
    intros a c' (d' & -> & Hh' & Hl). cbn [mbind res_bind]. eapply runs_bind; [apply (IH _ d'); [done|by rewrite Hl|by rewrite Hl]|].
    intros l c2 (d2 & -> & Hh2). apply runs_ret. cbn [mbind res_bind]. eauto.
Qed.
End Runs.

(** C11: The driver is a block device.  For every controller and card of high capacity that
    behave as documented, whatever their timing: any sequence of mmc_read and mmc_write
    calls on the card returns, with enough polls for the words of the largest transfer, and
    returns what the same calls return on a disk in memory that holds the card's bytes;
    afterwards the card's memory is that disk. *)
Theorem driver_refines_disk {H : Type} `{Mci H} (R : H → port → Prop) (slack : nat) `{!Conforms slack R}
    (polls : nat) (uninit : Z) (s : mmc_state H) (c : port) (d : ram_disk) (qs : list card_request) :
  R (hw s) c → hc_card (mmc_card s) → holds_disk d c → Z.of_nat (length (ram d)) ≤ 2 ^ 41 →
  Forall (good_request slack polls (Z.of_nat (length (ram d)))) qs →
  ∃ l d' h' c', serve_all polls uninit qs s = (Ret l, with_hw h' s) ∧ serve_all_ram qs d = Ok (l, d') ∧
    R h' c' ∧ holds_disk d' c'.
Proof.
  intros HR Hc Hd Hl Hq. pose proof (runs_serve_all R slack polls uninit s Hc qs c d Hd Hl Hq s) as Hw.
  assert (on R s c s) as Hon by (exists (hw s); split; [by destruct s|done]).
  specialize (Hw Hon). unfold wp in Hw. destruct (serve_all polls uninit qs s) as [[l| |] s']; [|done..].
  destruct Hw as (c' & (d' & Hs & Hd') & h' & -> & HR'). by exists l, d', h', c'.
Qed.
