(* ===== verification/MmcSim.v ===== *)
(** An eMMC card and its controller that run, as an instance of the interfaces of the
    driver: [sim] behaves as [MmcCard] allows, with pauses that depend on a counter, and also
    answers the commands of initialisation.  The driver boots it, reads and writes it; the
    examples at the end show what the driver does with other cards. *)
From Stdlib Require Import ZArith.
From stdpp Require Import base numbers list relations.
From S2P Require Import Prelude Bytes Mmc MmcDriver MmcProto MmcCard.

Definition SLACK : nat := 4.

(** The port, a counter of status reads, how often CMD1 is still answered with busy, the
    operating conditions, the 128-bit answers to CMD2 and CMD9 (the most significant word
    first) and the extended CSD in words. *)
Record sim := mkSim {
  s_port : port; s_tick : nat; s_busy : nat; s_ocr : Z; s_cid : list Z; s_csd : list Z; s_ext : list Z; s_long : list Z }.

Definition set_port (c : port) (h : sim) : sim :=
  mkSim c (s_tick h) (s_busy h) (s_ocr h) (s_cid h) (s_csd h) (s_ext h) (s_long h).

(** The card is in the transfer state and ready. *)
Definition R1_TRAN : Z := Z.lor (Z.shiftl 4 9) (Z.shiftl 1 8).

(** Commands of initialisation: the answer is there at once. *)
Definition boot_command (i : Z) (h : sim) : sim :=
  let c := s_port h in
  let answer r d long busy :=
    mkSim (set_cmd_data c (CAnswered i r) d) (s_tick h) busy (s_ocr h) (s_cid h) (s_csd h) (s_ext h) long in
  if i =? 1 then
    match s_busy h with
    | O => answer (Z.lor (s_ocr h) MMC_BOOT_OCR_BUSY) (p_data c) [] O
    | S n => answer (s_ocr h) (p_data c) [] n
    end
  else if i =? 2 then answer (nth 0 (s_cid h) 0) (p_data c) (s_cid h) (s_busy h)
  else if i =? 9 then answer (nth 0 (s_csd h) 0) (p_data c) (s_csd h) (s_busy h)
  else if i =? 8 then answer R1_TRAN (DRead 0 SLACK (s_ext h) false) [] (s_busy h)
  else answer R1_TRAN (p_data c) [] (s_busy h).

Definition port_write (off v : Z) (c : port) : port :=
  if off =? MMC_BOOT_MCI_ARGUMENT then mkPort v (p_len c) (p_ctl c) (p_count c) (p_disk c) (p_cmd c) (p_data c)
  else if off =? MMC_BOOT_MCI_DATA_LENGTH then set_len v c
  else if off =? MMC_BOOT_MCI_DATA_CTL then
    match p_data c with
    | DReady m a => mkPort (p_arg c) (p_len c) v (p_count c) (p_disk c) (p_cmd c) (DWrite m a 0 SLACK [] (Z.to_nat (p_len c / 4)))
    | _ => set_ctl v c
    end
  else if off =? MMC_BOOT_MCI_CLEAR then
    set_cmd_data c (match p_cmd c with CAnswered _ _ => CDone | cm => cm end) (match p_data c with DDone => DIdle | d => d end)
  else if 0x80 <=? off then
    match p_data c with
    | DWrite m a (S room) k got total => set_data (DWrite m a room k (got ++ [v]) total) c
    | _ => c
    end
  else c.

Definition sim_write (off v : Z) (h : sim) : sim :=
  let c := s_port h in
  if off =? MMC_BOOT_MCI_CMD then
    let i := Z.land v 63 in
    match accept SLACK c i (any v MMC_BOOT_MCI_CMD_PROG_ENA) with
    | Some d =>
        set_port (mkPort (p_arg c) (p_len c) (p_ctl c) (if i =? 23 then Some (p_arg c) else None) (p_disk c)
                    (CWait SLACK i R1_TRAN) d) h
    | None => boot_command i h
    end
  else set_port (port_write off v c) h.

(** The status bits of the command and of the data, and what they become. *)
Definition cmd_bits (tick : nat) (cm : cmd_phase) : Z * cmd_phase :=
  match cm with
  | CDone => (0, CDone)
  | CWait (S n) i r =>
      if (tick mod 3 =? 0)%nat then (MMC_BOOT_MCI_STAT_CMD_ACTIVE, CWait n i r)
      else if (tick mod 3 =? 1)%nat then (0, CWait n i r)
      else (Z.lor MMC_BOOT_MCI_STAT_CMD_RESP_END MMC_BOOT_MCI_STAT_CMD_SENT, CAnswered i r)
  | CWait O i r | CAnswered i r => (Z.lor MMC_BOOT_MCI_STAT_CMD_RESP_END MMC_BOOT_MCI_STAT_CMD_SENT, CAnswered i r)
  end.

Definition data_bits (tick : nat) (d : data_phase) (disk : list Z) : Z * (data_phase * list Z) :=
  let pause := (tick mod 4 =? 0)%nat in
  let few := (tick mod 4 =? 1)%nat in
  match d with
  | DRead avail k ws open =>
      match avail, k, pause with
      | O, S k, true => (0, (DRead 0 k ws open, disk))
      | _, _, _ =>
          let n := Nat.max avail (if few then 1 else Nat.min 16 (length ws)) in
          (Z.lor MMC_BOOT_MCI_STAT_RX_DATA_AVLBL (if (8 <=? n)%nat then MMC_BOOT_MCI_STAT_RX_FIFO_HFULL else 0),
           (DRead n k ws open, disk))
      end
  | DWrite m a room k got total =>
      if (length got <? total)%nat then
        match room, k, pause with
        | O, S k, true => (MMC_BOOT_MCI_STAT_TX_FIFO_FULL, (DWrite m a 0 k got total, disk))
        | _, _, _ =>
            let n := Nat.max room (if few then 1 else 16)%nat in
            (if (8 <=? n)%nat then MMC_BOOT_MCI_STAT_TX_FIFO_HFULL else 0, (DWrite m a n k got total, disk))
        end
      else
        match k, pause with
        | S k, true => (0, (DWrite m a room k got total, disk))
        | _, _ => (MMC_BOOT_MCI_STAT_DATA_END, (DProg m false a 0 got, disk))
        end
  | DProg m true a k ws =>
      match k, store disk (a * 512) (bytes_of_words ws) with
      | S k, _ => (0, (DProg m true a k ws, disk))
      | O, Ok disk' => (MMC_BOOT_MCI_STAT_PROG_DONE, (DDone, disk'))
      | O, _ => (0, (d, disk))
      end
  | DDone => (MMC_BOOT_MCI_STAT_PROG_DONE, (DDone, disk))
  | _ => (0, (d, disk))
  end.

Definition sim_read (off : Z) (h : sim) : Z * sim :=
  let c := s_port h in
  if off =? MMC_BOOT_MCI_STATUS then
    let '(v, cm) := cmd_bits (s_tick h) (p_cmd c) in
    let '(w, x) := data_bits (s_tick h) (p_data c) (p_disk c) in
    (Z.lor v w, mkSim (set_phases c cm x) (S (s_tick h)) (s_busy h) (s_ocr h) (s_cid h) (s_csd h) (s_ext h) (s_long h))
  else if off =? MMC_BOOT_MCI_RESP_CMD then (match p_cmd c with CAnswered i _ => i | _ => 0 end, h)
  else if off =? MMC_BOOT_MCI_RESP_0 then (match p_cmd c with CAnswered _ r => r | _ => 0 end, h)
  else if (off =? 0x18) || (off =? 0x1C) || (off =? 0x20) then (nth (Z.to_nat ((off - 0x14) / 4)) (s_long h) 0, h)
  else if 0x80 <=? off then
    match p_data c with
    | DRead (S avail) k (w :: ws) open => (w, set_port (set_data (reading avail k ws open) c) h)
    | _ => (0, h)
    end
  else (0, h).

#[global] Instance sim_mci : Mci sim := {
  reg_read := sim_read; reg_write := sim_write; delay us h := h; clock_init h := h; clock_config r h := h }.

(** * The simulator conforms *)

(** What keeps a port of the simulator within its card. *)
Definition port_ok (c : port) : Prop :=
  match p_data c with
  | DRead avail k ws open => (avail ≤ length ws)%nat ∧ ws ≠ []
  | DReady m a => 0 ≤ a ∧ 0 < p_len c ∧ a * 512 + p_len c ≤ Z.of_nat (length (p_disk c))
  | DWrite m a room k got total =>
      0 ≤ a ∧ (length got ≤ total)%nat ∧ a * 512 + 4 * Z.of_nat total ≤ Z.of_nat (length (p_disk c))
  | DProg m told a k ws => 0 ≤ a ∧ a * 512 + 4 * Z.of_nat (length ws) ≤ Z.of_nat (length (p_disk c))
  | _ => True
  end.

Definition sim_rel (h : sim) (c : port) : Prop := s_port h = c ∧ port_ok c.

Lemma read_data_some c : 4 ≤ p_len c → read_data c ≠ [].
Proof.
  intros Hl E. apply (f_equal length) in E. unfold read_data in E. rewrite length_words_of in E. cbn in E.
  assert (1 ≤ p_len c / 4) by (apply Z.div_le_lower_bound; lia). lia.
Qed.

Lemma in_card_spec c : in_card c = true ↔ 0 ≤ p_arg c ∧ p_arg c * 512 + p_len c ≤ Z.of_nat (length (p_disk c)).
Proof. unfold in_card. by rewrite andb_true_iff, !Z.leb_le. Qed.

Lemma accept_ok c i b d cnt cm :
  accept SLACK c i b = Some d → port_ok c → port_ok (mkPort (p_arg c) (p_len c) (p_ctl c) cnt (p_disk c) cm d).
Proof.
  intros Ha Hok. unfold accept in Ha. repeat case_match; simplify_eq; try done.
  all: repeat match goal with Hx : _ && _ = true |- _ => apply andb_true_iff in Hx as [? ?] end.
  all: repeat match goal with
    | Hx : in_card _ = true |- _ => apply in_card_spec in Hx
    | Hx : (_ =? _) = true |- _ => apply Z.eqb_eq in Hx
    | Hx : (_ <? _) = true |- _ => apply Z.ltb_lt in Hx end.
  all: unfold port_ok in *; cbn [p_data p_len p_disk].
  all: try match goal with Hx : p_data _ = _, Hy : context [p_data _] |- _ => rewrite Hx in Hy end.
  all: try (split; [lia|apply read_data_some; Z.div_mod_to_equations; lia]).
  all: try (split_and!; Z.div_mod_to_equations; lia).
  all: done.
Qed.

Lemma sim_write_ok h c off v c1 :
  sim_rel h c → write_step SLACK c off v c1 → ∃ c', write_step SLACK c off v c' ∧ sim_rel (sim_write off v h) c'.
Proof.
  intros [Hh Hok] Hw. inversion Hw as [? ? Hoff|? |? Hd|? Hd|m a ? Hd Hv|  |? r d Hc Hr Ha|? ? m a room k got total Hf Hd Hl]; subst.
  - eexists. split; [exact Hw|]. split; [by destruct Hoff; subst|done].
  - eexists. split; [exact Hw|]. done.
  - eexists. split; [exact Hw|]. split; [done|]. unfold port_ok. cbn [p_data]. by destruct Hd as [-> | ->].
  - eexists. split; [exact Hw|]. split; [|unfold port_ok; cbn [p_data]; by destruct Hd as [-> | ->]].
    unfold sim_write, port_write, set_ctl. cbn. by destruct Hd as [-> | ->].
  - eexists. split; [exact Hw|]. unfold port_ok in *. rewrite Hd in Hok. destruct Hok as (? & ? & ?).
    split; [unfold sim_write, port_write; cbn; by rewrite Hd|]. unfold port_ok. cbn [p_data p_disk length].
    pose proof (Z.mul_div_le (p_len (s_port h)) 4). pose proof (Z.div_pos (p_len (s_port h)) 4). split_and!; [done|lia|lia].
  - eexists. split; [exact Hw|]. split; [done|]. unfold port_ok in *. cbn [set_cmd_data p_data p_disk p_len].
    by destruct (p_data (s_port h)).
  - eexists. split; [by apply (W_cmd SLACK (s_port h) v R1_TRAN d)|].
    unfold sim_write. change (MMC_BOOT_MCI_CMD =? MMC_BOOT_MCI_CMD) with true. cbv iota zeta. rewrite Ha.
    split; [done|]. by eapply accept_ok.
  - eexists. split; [exact Hw|]. unfold port_ok in Hok. rewrite Hd in Hok. destruct Hok as (? & ? & ?).
    unfold is_fifo, MMC_BOOT_MCI_FIFO in Hf. split.
    + unfold sim_write, port_write.
      repeat match goal with |- context [off =? ?x] => rewrite (proj2 (Z.eqb_neq off x)) by (unfold MMC_BOOT_MCI_CMD, MMC_BOOT_MCI_ARGUMENT,
        MMC_BOOT_MCI_DATA_LENGTH, MMC_BOOT_MCI_DATA_CTL, MMC_BOOT_MCI_CLEAR; lia) end.
      rewrite (proj2 (Z.leb_le 0x80 off)) by lia. by rewrite Hd.
    + unfold port_ok. cbn [set_cmd_data p_data p_disk]. rewrite length_app. cbn [length]. split_and!; [done|lia|done].
Qed.

(** The bits of commands and those of data are apart. *)
Definition CMD_MASK : Z :=
  foldr Z.lor 0 [MMC_BOOT_MCI_STAT_CMD_ACTIVE; MMC_BOOT_MCI_STAT_CMD_RESP_END; MMC_BOOT_MCI_STAT_CMD_TIMEOUT;
                 MMC_BOOT_MCI_STAT_CMD_CRC_FAIL; MMC_BOOT_MCI_STAT_CMD_SENT].

Lemma any_other v w m M : Z.land w M = 0 → Z.land m M = m → any (Z.lor v w) m = any v m.
Proof.
  intros Hw Hm. unfold any. do 2 f_equal. rewrite Z.land_lor_distr_l. rewrite <- Hm at 2.
  by rewrite (Z.land_comm m M), Z.land_assoc, Hw, Z.land_0_l, Z.lor_0_r.
Qed.

Lemma cmd_bits_ok tick cm w : Z.land w CMD_MASK = 0 → cmd_status (Z.lor (cmd_bits tick cm).1 w) cm (cmd_bits tick cm).2.
Proof.
  intros Hw. assert (∀ v m, Z.land m CMD_MASK = m → any (Z.lor v w) m = any v m) as Ha by (intros; by eapply any_other).
  destruct cm as [|[|n] i r|i r]; cbn [cmd_bits]; [constructor|constructor; by rewrite Ha| |constructor; by rewrite Ha].
  repeat case_match; cbn [fst snd]; constructor; by rewrite Ha.
Qed.

Lemma cmd_bits_mask tick cm m : Z.land m CMD_MASK = 0 → Z.land (cmd_bits tick cm).1 m = 0.
Proof.
  intros Hm. assert (∀ v, Z.land v CMD_MASK = v → Z.land v m = 0) as Hv.
  { intros v <-. by rewrite <- Z.land_assoc, (Z.land_comm _ m), Hm, Z.land_0_r. }
  apply Hv. destruct cm as [|[|n] i r|i r]; cbn [cmd_bits]; repeat case_match; done.
Qed.

Lemma data_bits_mask tick d disk : Z.land (data_bits tick d disk).1 CMD_MASK = 0.
Proof. destruct d; cbn [data_bits]; repeat case_match; done. Qed.

(** Status bits of data with [v] for the command beside them. *)
Lemma data_bits_ok tick c v :
  port_ok c → (∀ m, Z.land m CMD_MASK = 0 → Z.land v m = 0) →
  data_status (Z.lor v (data_bits tick (p_data c) (p_disk c)).1) (p_data c, p_disk c) (data_bits tick (p_data c) (p_disk c)).2.
Proof.
  intros Hok Hv. assert (∀ w m, Z.land m CMD_MASK = 0 → any (Z.lor v w) m = any w m) as Ha.
  { intros w m Hm. unfold any. by rewrite Z.land_lor_distr_l, Hv. }
  unfold port_ok in Hok. destruct (p_data c) as [|avail k ws open|m a|m a room k got total|m told a k ws| |]; cbn [data_bits].
  - constructor. auto.
  - destruct Hok as [Hl Hne]. assert (0 < length ws)%nat by (destruct ws; [done|cbn; lia]).
    assert (∀ n, (avail ≤ n)%nat → (0 < n ≤ length ws)%nat →
      data_status (Z.lor v (Z.lor MMC_BOOT_MCI_STAT_RX_DATA_AVLBL (if (8 <=? n)%nat then MMC_BOOT_MCI_STAT_RX_FIFO_HFULL else 0)))
        (DRead avail k ws open, p_disk c) (DRead n k ws open, p_disk c)) as Hword.
    { intros n H1 H2. destruct (Nat.leb_spec 8 n); apply S_word; rewrite ?Ha by done; (done || intros; (done || lia)). }
    destruct avail as [|avail]; [destruct k as [|k]; [|destruct (tick mod 4 =? 0)%nat]|].
    1, 3, 4: apply Hword; case_match; lia.
    apply S_no_word; by rewrite Ha.
  - constructor. right; right; left. by eexists _, _.
  - destruct Hok as (? & ? & ?). destruct (Nat.ltb_spec (length got) total).
    + assert (∀ n, (room ≤ n)%nat → (0 < n)%nat →
        data_status (Z.lor v (if (8 <=? n)%nat then MMC_BOOT_MCI_STAT_TX_FIFO_HFULL else 0))
          (DWrite m a room k got total, p_disk c) (DWrite m a n k got total, p_disk c)) as Hroom.
      { intros n H1' H2'. destruct (Nat.leb_spec 8 n); apply S_room; rewrite ?Ha by done; (done || intros; (done || lia)). }
      destruct room as [|room]; [destruct k as [|k]; [|destruct (tick mod 4 =? 0)%nat]|].
      1, 3, 4: apply Hroom; case_match; lia.
      apply S_full; rewrite ?Ha by done; done.
    + destruct k as [|k]; [|destruct (tick mod 4 =? 0)%nat]; [apply S_data_end| |apply S_data_end]; rewrite ?Ha by done; try done; try lia.
      apply S_drain; rewrite ?Ha by done; done || lia.
  - destruct told; [|constructor; right; right; right; by eexists _, _, _, _]. destruct Hok as [? ?]. destruct k as [|k]; [|by apply S_programming; rewrite Ha].
    destruct (store_in (p_disk c) (a * 512) (bytes_of_words ws)) as [disk' E]; [lia|rewrite length_bytes_of_words; lia|].
    rewrite E. apply S_programmed; [by rewrite Ha|done].
  - apply S_stays_done. by rewrite Ha.
  - constructor. auto.
Qed.

Lemma data_status_ok v c cm x : data_status v (p_data c, p_disk c) x → port_ok c → port_ok (set_phases c cm x).
Proof.
  unfold port_ok. intros Hs Hok. inversion Hs as [? ? Hq| | | | | | | |? ? ? ? ? ? ? Hst|]; subst; cbn [set_phases p_data p_disk p_len fst snd];
    repeat match goal with Hx : _ = p_data c |- _ => rewrite <- Hx in Hok end; try done; try (destruct Hok; split_and!; (done || lia)).
Qed.

Lemma sim_read_ok h c off :
  sim_rel h c → (∃ v c', read_step c off v c') ∨ off = MMC_BOOT_MCI_STATUS →
  let '(v, h') := sim_read off h in ∃ c', read_step c off v c' ∧ sim_rel h' c'.
Proof.
  intros [<- Hok] Hs. destruct (decide (off = MMC_BOOT_MCI_STATUS)) as [->|Hne].
  - unfold sim_read. change (MMC_BOOT_MCI_STATUS =? MMC_BOOT_MCI_STATUS) with true. cbv iota zeta.
    pose proof (cmd_bits_ok (s_tick h) (p_cmd (s_port h)) _ (data_bits_mask (s_tick h) (p_data (s_port h)) (p_disk (s_port h)))) as Hc.
    pose proof (data_bits_ok (s_tick h) (s_port h) _ Hok (λ m, cmd_bits_mask (s_tick h) (p_cmd (s_port h)) m)) as Hd.
    destruct (cmd_bits _ _) as [v cm], (data_bits _ _ _) as [w x]. cbn [fst snd] in Hc, Hd.
    eexists. split; [by apply R_status|]. split; [done|]. by eapply data_status_ok.
  - destruct Hs as [(v & c' & Hr)|]; [|done].
    inversion Hr as [|i r E|i r E| |? avail k w ws open Hf E]; subst; [..|done|].
    + eexists. split; [apply R_clock|done].
    + unfold sim_read. cbn -[p_cmd]. rewrite E. eexists. split; [exact Hr|done].
    + unfold sim_read. cbn -[p_cmd]. rewrite E. eexists. split; [exact Hr|done].
    + unfold is_fifo, MMC_BOOT_MCI_FIFO in Hf. unfold sim_read, MMC_BOOT_MCI_STATUS, MMC_BOOT_MCI_RESP_CMD, MMC_BOOT_MCI_RESP_0.
      repeat match goal with |- context [off =? ?y] => rewrite (proj2 (Z.eqb_neq off y)) by lia end.
      rewrite (proj2 (Z.leb_le 0x80 off)) by lia. cbn [orb]. rewrite E. eexists. split; [exact Hr|]. split; [done|].
      unfold port_ok in *. rewrite E in Hok. destruct Hok as [? _]. destruct ws; cbn -[length] in *; [by destruct open|].
      split; [cbn in *; lia|done].
Qed.

#[global] Instance sim_conforms : Conforms SLACK sim_rel.
Proof.
  split.
  - intros h c off v Hr [c1 Hw]. by eapply sim_write_ok.
  - intros h c off Hr Hs. by apply sim_read_ok.
  - done.
Qed.

(** * A phone with an eMMC card *)

#[global] Instance good_request_dec slack polls size q : Decision (good_request slack polls size q).
Proof. destruct q; unfold good_request; apply _. Defined.

(** A card of standard capacity never gets its timeout: the code divides by
    [mclk_rate / 1000000000], which is zero for every clock below 1 GHz. *)
Lemma std_card_undefined {H} `{Mci H} (s : mmc_state H) :
  type (mmc_card s) = MMC_BOOT_TYPE_STD_SD ∨ type (mmc_card s) = MMC_BOOT_TYPE_STD_MMC →
  0 ≤ mclk_rate (mmc_host s) < 1000000000 → mmc_boot_set_read_timeout s = (Undef, s).
Proof.
  intros Ht Hc. unfold mmc_boot_set_read_timeout, access_time_ns, is_hc, mbind, drv_bind, host, card.
  rewrite Z.div_small by done. by destruct Ht as [-> | ->].
Qed.

(** Hardware that answers by a script: no card answers CMD1 and CMD8, and the card that
    answers ACMD41 never becomes ready.  It keeps the commands with their arguments. *)
Record script := mkScript { sc_arg : Z; sc_log : list (Z * Z) }.

#[global] Instance script_mci : Mci script := {
  reg_read off h :=
    let i := match last (sc_log h) with Some (i, _) => i | None => 0 end in
    (if off =? MMC_BOOT_MCI_STATUS then
       if i =? 0 then MMC_BOOT_MCI_STAT_CMD_SENT
       else if (i =? 1) || (i =? 8) then MMC_BOOT_MCI_STAT_CMD_TIMEOUT else MMC_BOOT_MCI_STAT_CMD_RESP_END
     else if off =? MMC_BOOT_MCI_RESP_CMD then i else 0, h);
  reg_write off v h :=
    if off =? MMC_BOOT_MCI_ARGUMENT then mkScript v (sc_log h)
    else if off =? MMC_BOOT_MCI_CMD then mkScript (sc_arg h) (sc_log h ++ [(Z.land v 63, sc_arg h)]) else h;
  delay us h := h; clock_init h := h; clock_config r h := h }.

Module Emmc.

(** 4 KB of memory, busy three times, sector addresses. *)
Definition emmc : sim :=
  mkSim (mkPort 0 0 0 None (replicate 4096 0) CDone DIdle) 0 3 0x40FF8080 [0x15010045; 0x4D4D4331; 0x01ABCDEF; 0x01000000]
    (rev emmc_csd) (words_of 128 (<[212%nat := 8]> (replicate 512 0))) [].

Definition powered_on {H} (h : H) : mmc_state H := mkMmc h (mkHost 0 0 0) no_card [] [].
Definition watched {H} (h : H) : monitored H := mkMon h (mkWatch (Some Unknown) 0 0 false None).

Definition POLLS : nat := 300.
Definition JUNK : Z := 0xDEADBEEF.

(** mmc_boot_main finds the card. *)
Definition booted : mmc_state sim := (mmc_boot_main POLLS JUNK (mret MMC_BOOT_E_SUCCESS) (powered_on emmc)).2.

Example emmc_boots :
  (mmc_boot_main POLLS JUNK (mret MMC_BOOT_E_SUCCESS) (powered_on emmc)).1 = Ret 0 ∧
  card_capacity (mmc_card booted) = 4096 ∧ type (mmc_card booted) = MMC_BOOT_TYPE_MMCHC ∧ rca (mmc_card booted) = 2.
Proof. vm_compute. done. Qed.

Definition requests : list card_request :=
  [WriteCard 512 700 (replicate 1024 7); ReadCard 1024 1024; ReadCard 0 512; WriteCard 0 1 (replicate 512 9); ReadCard 0 1024].

Lemma driver_refines_disk_witness :
  ∃ l d' h' c', serve_all POLLS JUNK requests booted = (Ret l, with_hw h' booted) ∧
    serve_all_ram requests (mkRam (replicate 4096 0)) = Ok (l, d') ∧ sim_rel h' c' ∧ holds_disk d' c'.
Proof.
  apply (driver_refines_disk sim_rel SLACK POLLS JUNK booted (s_port (hw booted)) (mkRam (replicate 4096 0)) requests).
  - split; [reflexivity|]. vm_compute. exact I.
  - vm_compute. done.
  - split_and!; [vm_compute; split_and!; [done|done|by left]|vm_compute; reflexivity|].
    apply Forall_replicate. unfold is_byte. lia.
  - vm_compute. discriminate.
  - apply (bool_decide_unpack _). vm_compute. exact I.
Defined.

Lemma init_commands_legal_witness :
  let '(o, s') := mmc_boot_main POLLS JUNK (mret MMC_BOOT_E_SUCCESS) (powered_on (watched emmc)) in
  is_Some (phase (seen (hw s'))) ∧ (count (seen (hw s')) ≤ 0 + 1253)%nat ∧
  (o = Ret MMC_BOOT_E_SUCCESS →
   phase (seen (hw s')) = Some Tran ∧ told (seen (hw s')) = Some MMC_BOOT_TRAN_STATE).
Proof. apply (init_commands_legal POLLS JUNK (powered_on (watched emmc))). by exists Unknown. Defined.

Definition booted_watched : mmc_state (monitored sim) :=
  (mmc_boot_main POLLS JUNK (mret MMC_BOOT_E_SUCCESS) (powered_on (watched emmc))).2.

Lemma booted_tran : phase (seen (hw booted_watched)) = Some Tran.
Proof. vm_compute. reflexivity. Qed.

Lemma transfer_commands_legal_witness :
  let '(o, s') := card_write POLLS JUNK 512 1024 (replicate 1024 7) booted_watched in
  is_Some (phase (seen (hw s'))) ∧ (o = Ret 0 → phase (seen (hw s')) = Some Tran).
Proof.
  pose proof (transfer_commands_legal POLLS JUNK 512 1024 (replicate 1024 7) booted_watched booted_tran) as Hw.
  destruct Hw as [_ [Hw _]]. exact Hw.
Defined.

Example std_card_divides_by_zero :
  (mmc_boot_main POLLS JUNK (mret MMC_BOOT_E_SUCCESS)
     (powered_on (mkSim (s_port emmc) 0 0 0x00FF8080 (s_cid emmc) (s_csd emmc) (s_ext emmc) []))).1 = Undef.
Proof. vm_compute. reflexivity. Qed.

(** The initialisation of an SD card reports success after twenty answers that the card is
    not ready, and ACMD41 is sent with an uninitialised argument when CMD8 failed. *)
Example sd_not_ready_accepted :
  let '(o, s) := mmc_boot_init_card POLLS JUNK (powered_on (mkScript 0 [])) in
  o = Ret 0 ∧ last (sc_log (hw s)) = Some (ACMD41_SEND_OP_COND, JUNK).
Proof. vm_compute. done. Qed.
End Emmc.
