(* ===== verification/Partition.v ===== *)
(** The partition table parser (src/bootable/lk/platform/msm_shared/partition_parser.c):
    reading MBR/EBR chains and GPTs from the card into [partition_entries], looking
    partitions up by name, and writing a new table that arrives over fastboot.

    The static variables of the file are the fields of [pstate].  An array index or a
    buffer access out of bounds is [Fault], a failed ASSERT is [Panic].  Local
    variables keep their C widths: [unsigned int] arithmetic goes through [u32]. *)
From Stdlib Require Import ZArith Ascii.
From stdpp Require Import base numbers list strings sets.
From S2P Require Import Prelude Bytes Crc32 Mmc.

(** * Constants (partition_parser.h) *)

Definition INVALID_PTN : Z := -1.
Definition PARTITION_TYPE_MBR : Z := 0.
Definition PARTITION_TYPE_GPT : Z := 1.
Definition PARTITION_TYPE_GPT_BACKUP : Z := 2.
Definition GPT_SIGNATURE_1 : Z := 0x54524150.
Definition GPT_SIGNATURE_2 : Z := 0x20494645.
Definition MMC_MBR_SIGNATURE_BYTE_0 : Z := 0x55.
Definition MMC_MBR_SIGNATURE_BYTE_1 : Z := 0xAA.
Definition BLOCK_SIZE : Z := 0x200.
Definition PROTECTIVE_MBR_SIZE : Z := BLOCK_SIZE.
Definition HEADER_SIZE_OFFSET : Z := 12.
Definition HEADER_CRC_OFFSET : Z := 16.
Definition PRIMARY_HEADER_OFFSET : Z := 24.
Definition BACKUP_HEADER_OFFSET : Z := 32.
Definition FIRST_USABLE_LBA_OFFSET : Z := 40.
Definition LAST_USABLE_LBA_OFFSET : Z := 48.
Definition PARTITION_ENTRIES_OFFSET : Z := 72.
Definition PARTITION_COUNT_OFFSET : Z := 80.
Definition PENTRY_SIZE_OFFSET : Z := 84.
Definition PARTITION_CRC_OFFSET : Z := 88.
Definition MIN_PARTITION_ARRAY_SIZE : Z := 0x4000.
Definition PARTITION_ENTRY_LAST_LBA : Z := 40.
Definition ENTRY_SIZE : Z := 0x080.
Definition UNIQUE_GUID_OFFSET : Z := 16.
Definition FIRST_LBA_OFFSET : Z := 32.
Definition LAST_LBA_OFFSET : Z := 40.
Definition ATTRIBUTE_FLAG_OFFSET : Z := 48.
Definition PARTITION_NAME_OFFSET : Z := 56.
Definition MAX_GPT_NAME_SIZE : nat := 72.
Definition NUM_PARTITIONS : Z := 32.
Definition TABLE_ENTRY_0 : Z := 0x1BE.
Definition TABLE_ENTRY_1 : Z := 0x1CE.
Definition TABLE_SIGNATURE : Z := 0x1FE.
Definition TABLE_ENTRY_SIZE : Z := 0x010.
Definition OFFSET_STATUS : Z := 0x00.
Definition OFFSET_TYPE : Z := 0x04.
Definition OFFSET_FIRST_SEC : Z := 0x08.
Definition OFFSET_SIZE : Z := 0x0C.
Definition MBR_EBR_TYPE : Z := 0x05.
Definition MBR_PROTECTED_TYPE : Z := 0xEE.

(** * State *)

(** [struct partition_entry] *)
Record partition_entry := mkEntry {
  type_guid : list Z;
  dtype : Z;
  unique_partition_guid : list Z;
  first_lba : Z;
  last_lba : Z;
  size : Z;
  attribute_flag : Z;
  name : list Z;
}.

Definition set_name (v : list Z) (e : partition_entry) : partition_entry :=
  mkEntry (type_guid e) (dtype e) (unique_partition_guid e) (first_lba e) (last_lba e) (size e)
    (attribute_flag e) v.

Definition empty_entry : partition_entry :=
  mkEntry (replicate 16 0) 0 (replicate 16 0) 0 0 0 0 (replicate MAX_GPT_NAME_SIZE 0).

Record pstate := mkP {
  partition_entries : list partition_entry;
  gpt_partitions_exist : bool;
  partition_count : Z;
  ext3_count : Z;
  vfat_count : Z;
}.

(** The static variables at start. *)
Definition partition_init : pstate := mkP (replicate 32 empty_entry) false 0 0 0.

Definition set_entries (v : list partition_entry) (s : pstate) : pstate :=
  mkP v (gpt_partitions_exist s) (partition_count s) (ext3_count s) (vfat_count s).
Definition set_gpt_exist (v : bool) (s : pstate) : pstate :=
  mkP (partition_entries s) v (partition_count s) (ext3_count s) (vfat_count s).
Definition set_count (v : Z) (s : pstate) : pstate :=
  mkP (partition_entries s) (gpt_partitions_exist s) v (ext3_count s) (vfat_count s).
Definition set_name_counts (ext3 vfat : Z) (s : pstate) : pstate :=
  mkP (partition_entries s) (gpt_partitions_exist s) (partition_count s) ext3 vfat.

(** [partition_entries[i]] *)
Definition get_entry (i : Z) (s : pstate) : res partition_entry :=
  if 0 <=? i then deref (partition_entries s !! Z.to_nat i) else Fault.
Definition put_entry (i : Z) (e : partition_entry) (s : pstate) : res pstate :=
  _ ← get_entry i s; Ok (set_entries (<[Z.to_nat i := e]> (partition_entries s)) s).

(** * Strings *)

(** [memcpy(dst, src, strlen(src))] on an array of known size *)
Definition memcpy_to (dst src : list Z) : list Z := src ++ drop (length src) dst.

(** [strlcpy(dst, src, sizeof(dst))] *)
Definition strlcpy_to (dst src : list Z) : list Z :=
  memcpy_to dst (take (length dst - 1) src ++ [0]).

(** * Names of MBR partitions *)

Definition ext3_partitions : list string := ["system"; "userdata"; "persist"; "cache"; "tombstones"].
Definition vfat_partitions : list string := ["modem"; "mdm"; "NONE"].

(** The types with a fixed name; [msm7x27a] is PLATFORM_MSM7X27A. *)
Definition mbr_fixed_name (msm7x27a : bool) (type : Z) : option string :=
  if type =? 0x4D then Some "sbl1" else
  if type =? 0x51 then Some "sbl2" else
  if type =? 0x45 then Some "sbl3" else
  if type =? 0x47 then Some "rpm" else
  if type =? 0x46 then Some "tz" else
  if type =? 0x4C then Some (if msm7x27a then "FOTA" else "aboot") else
  if type =? 0x48 then Some "boot" else
  if type =? 0x4A then Some "modem_st1" else
  if type =? 0x4B then Some "modem_st2" else
  if type =? 0x4E then Some "efs2" else
  if type =? 0x60 then Some "recovery" else
  if type =? 0x63 then Some "misc" else
  if type =? 0x5D then Some "ssd" else None.

Definition index_name (l : list string) (i : Z) : res string :=
  if 0 <=? i then deref (l !! Z.to_nat i) else Fault.

(** The memset in front of the first case label is never executed, so the bytes of
    the old name after the new one stay. *)
Definition mbr_fill_name (msm7x27a : bool) (i type : Z) (s : pstate) : res pstate :=
  e ← get_entry i s;
  if (type =? 0x06) || (type =? 0x0C) then
    n ← index_name vfat_partitions (vfat_count s);
    if String.eqb n "NONE" then Ok s
    else
      s ← put_entry i (set_name (strlcpy_to (name e) (bytes_of n)) e) s;
      Ok (set_name_counts (ext3_count s) (u32 (vfat_count s + 1)) s)
  else if type =? 0x83 then
    if ext3_count s =? 5 then Ok s
    else
      n ← index_name ext3_partitions (ext3_count s);
      s ← put_entry i (set_name (strlcpy_to (name e) (bytes_of n)) e) s;
      Ok (set_name_counts (u32 (ext3_count s + 1)) (vfat_count s) s)
  else
    match mbr_fixed_name msm7x27a type with
    | Some n => put_entry i (set_name (memcpy_to (name e) (bytes_of n)) e) s
    | None => Ok s
    end.

(** * Signatures and headers *)

Definition partition_verify_mbr_signature (sz : Z) (b : buffer) : res Z :=
  if sz <? TABLE_SIGNATURE + 1 then Ok MMC_BOOT_E_FAILURE
  else
    b0 ← byte_at b TABLE_SIGNATURE;
    if negb (b0 =? MMC_MBR_SIGNATURE_BYTE_0) then Ok MMC_BOOT_E_FAILURE
    else
      b1 ← byte_at b (TABLE_SIGNATURE + 1);
      if negb (b1 =? MMC_MBR_SIGNATURE_BYTE_1) then Ok MMC_BOOT_E_FAILURE
      else Ok MMC_BOOT_E_SUCCESS.

(** [*partition_type] is given and returned. *)
Definition mbr_partition_get_type (sz : Z) (b : buffer) (ty : Z) : res Z :=
  if sz <? TABLE_ENTRY_0 + OFFSET_TYPE then Ok ty else byte_at b (TABLE_ENTRY_0 + OFFSET_TYPE).

Definition partition_get_type (sz : Z) (b : buffer) : res (Z * Z) :=
  ret ← partition_verify_mbr_signature sz b;
  if ret =? MMC_BOOT_E_SUCCESS then
    ty ← mbr_partition_get_type sz b PARTITION_TYPE_MBR;
    Ok (MMC_BOOT_E_SUCCESS,
        if ty =? MBR_PROTECTED_TYPE then PARTITION_TYPE_GPT else PARTITION_TYPE_MBR)
  else Ok (ret, PARTITION_TYPE_GPT_BACKUP).

Record gpt_header := mkGptHeader {
  header_size : Z;
  first_usable_lba : Z;
  max_partition_count : Z;
  partition_entry_size : Z;
}.

(** [None]: the signature does not match (the function returns 1); [p] is the offset
    of the header in the buffer. *)
Definition partition_parse_gpt_header (b : buffer) (p : Z) : res (option gpt_header) :=
  w0 ← GET_LWORD_FROM_BYTE b p;
  if negb (w0 =? GPT_SIGNATURE_2) then Ok None
  else
    w1 ← GET_LWORD_FROM_BYTE b (p + 4);
    if negb (w1 =? GPT_SIGNATURE_1) then Ok None
    else
      hs ← GET_LWORD_FROM_BYTE b (p + HEADER_SIZE_OFFSET);
      fu ← GET_LLWORD_FROM_BYTE b (p + FIRST_USABLE_LBA_OFFSET);
      mc ← GET_LWORD_FROM_BYTE b (p + PARTITION_COUNT_OFFSET);
      es ← GET_LWORD_FROM_BYTE b (p + PENTRY_SIZE_OFFSET);
      Ok (Some (mkGptHeader hs fu mc es)).

(** * Looking partitions up *)

Fixpoint find_name (nm : list Z) (n : Z) (es : list partition_entry) : res Z :=
  match es with
  | [] => Ok INVALID_PTN
  | e :: es =>
      same ← memeq nm (name e) (length nm);
      if (same : bool) then
        l ← strlen (name e);
        if Z.of_nat (length nm) =? l then Ok n else find_name nm (n + 1) es
      else find_name nm (n + 1) es
  end.

(** [nm] is the argument without its NUL; INVALID_PTN as an unsigned is 2^32 - 1. *)
Definition partition_get_index (nm : list Z) (s : pstate) : res Z :=
  if NUM_PARTITIONS <=? partition_count s then Ok INVALID_PTN
  else find_name nm 0 (take (Z.to_nat (partition_count s)) (partition_entries s)).

Definition partition_get_size (index : Z) (s : pstate) : res Z :=
  if index =? INVALID_PTN then Ok 0 else e ← get_entry index s; Ok (u64 (size e * BLOCK_SIZE)).

Definition partition_get_offset (index : Z) (s : pstate) : res Z :=
  if index =? INVALID_PTN then Ok 0 else e ← get_entry index s; Ok (u64 (first_lba e * BLOCK_SIZE)).

Section Table.
Context {D : Type} `{BlockDevice D} (msm7x27a : bool).

(** * Reading the MBR and the chain of EBRs *)

(** How the loop over the four MBR entries ends: the function returns, or goes on
    with the type and the first sector of the last entry. *)
Inductive mbr_scan := MbrReturn (s : pstate) | MbrDone (dtype dfirstsec : Z) (s : pstate).

(** Fill the entry at [partition_count] from a table entry at [off]. *)
Definition read_mbr_entry (b : buffer) (off base : Z) (s : pstate) : res (Z * Z * pstate) :=
  let n := partition_count s in
  ty ← byte_at b (off + OFFSET_TYPE);
  st ← byte_at b (off + OFFSET_STATUS);
  fs ← GET_LWORD_FROM_BYTE b (off + OFFSET_FIRST_SEC);
  sz ← GET_LWORD_FROM_BYTE b (off + OFFSET_SIZE);
  e ← get_entry n s;
  let fl := u32 (fs + base) in
  let e := mkEntry (type_guid e) ty (unique_partition_guid e) fl (last_lba e) sz st (name e) in
  s ← put_entry n e s;
  s ← mbr_fill_name msm7x27a n ty s;
  Ok (ty, fl, set_count (u32 (partition_count s + 1)) s).

Fixpoint mbr_loop (fuel : nat) (i : Z) (b : buffer) (ty fs : Z) (s : pstate) : res mbr_scan :=
  match fuel with
  | O => Ok (MbrDone ty fs s)
  | S fuel =>
      t ← byte_at b (TABLE_ENTRY_0 + i * TABLE_ENTRY_SIZE + OFFSET_TYPE);
      if t =? MBR_PROTECTED_TYPE then Ok (MbrReturn (set_gpt_exist true s))
      else
        '(ty, fs, s) ← read_mbr_entry b (TABLE_ENTRY_0 + i * TABLE_ENTRY_SIZE) 0 s;
        if partition_count s =? NUM_PARTITIONS then Ok (MbrReturn s)
        else mbr_loop fuel (i + 1) b ty fs s
  end.

(** The EBR loop; each round fills one entry, so 32 rounds are enough. *)
Fixpoint ebr_loop (fuel : nat) (d : D) (b : buffer) (EBR_first_sec EBR_current_sec : Z) (s : pstate)
    : res (Z * pstate) :=
  match fuel with
  | O => Fault
  | S fuel =>
      ret ← partition_verify_mbr_signature BLOCK_SIZE b;
      if negb (ret =? 0) then Ok (MMC_BOOT_E_SUCCESS, s)
      else
        '(_, _, s) ← read_mbr_entry b TABLE_ENTRY_0 EBR_current_sec s;
        if partition_count s =? NUM_PARTITIONS then Ok (ret, s)
        else
          dfirstsec ← GET_LWORD_FROM_BYTE b (TABLE_ENTRY_1 + OFFSET_FIRST_SEC);
          if dfirstsec =? 0 then Ok (ret, s)
          else
            let '(ret, b) := read_from_card d (u32 (u32 (EBR_first_sec + dfirstsec) * 512))
                               (Z.to_nat BLOCK_SIZE) in
            if negb (ret =? 0) then Ok (ret, s)
            else ebr_loop fuel d b EBR_first_sec (u32 (EBR_first_sec + dfirstsec)) s
  end.

Definition mmc_boot_read_mbr (d : D) (s : pstate) : res (Z * pstate) :=
  let '(ret, b) := read_from_card d 0 (Z.to_nat BLOCK_SIZE) in
  if negb (ret =? 0) then Ok (ret, s)
  else
    ret ← partition_verify_mbr_signature BLOCK_SIZE b;
    if negb (ret =? 0) then Ok (ret, s)
    else
      r ← mbr_loop 4 0 b 0 0 (set_count 0 s);
      match r with
      | MbrReturn s => Ok (ret, s)
      | MbrDone ty dfirstsec s =>
          if negb (ty =? MBR_EBR_TYPE) then Ok (ret, s)
          else
            let '(ret, b) := read_from_card d (u32 (dfirstsec * 512)) (Z.to_nat BLOCK_SIZE) in
            if negb (ret =? 0) then Ok (ret, s)
            else ebr_loop 32 d b dfirstsec dfirstsec s
      end.

(** * Reading the GPT *)

(** The body of the loop over the four entries of a block; [true]: an empty entry ends
    the table (its type has been copied all the same). *)
Definition gpt_entry (data : buffer) (es j : Z) (s : pstate) : res (bool * pstate) :=
  let n := partition_count s in
  let base := u32 (j * es) in
  e ← get_entry n s;
  tg ← slice data base 16;
  let e := mkEntry tg (dtype e) (unique_partition_guid e) (first_lba e) (last_lba e) (size e)
             (attribute_flag e) (name e) in
  s ← put_entry n e s;
  if bool_decide (take 2 tg = [0; 0]) then Ok (true, s)
  else
    ug ← slice data (u32 (base + UNIQUE_GUID_OFFSET)) 16;
    fl ← GET_LLWORD_FROM_BYTE data (u32 (base + FIRST_LBA_OFFSET));
    ll ← GET_LLWORD_FROM_BYTE data (u32 (base + LAST_LBA_OFFSET));
    af ← GET_LLWORD_FROM_BYTE data (u32 (base + ATTRIBUTE_FLAG_OFFSET));
    utf16 ← slice data (u32 (base + PARTITION_NAME_OFFSET)) MAX_GPT_NAME_SIZE;
    let nm := (λ i, default 0 (utf16 !! (2 * i)%nat)) <$> seq 0 36 in
    s ← put_entry n (mkEntry tg (dtype e) ug fl ll (u64 (ll - fl + 1)) af (memcpy_to (name e) nm)) s;
    Ok (false, set_count (u32 (partition_count s + 1)) s).

(** [for (j = 0; j < 4; j++)]: the state, and whether an empty entry was met. *)
Fixpoint gpt_block (fuel : nat) (data : buffer) (es j : Z) (s : pstate) : res (bool * pstate) :=
  match fuel with
  | O => Ok (false, s)
  | S fuel =>
      '(ended, s) ← gpt_entry data es j s;
      if (ended : bool) then Ok (true, s) else gpt_block fuel data es (j + 1) s
  end.

(** The loop over the blocks.  After an empty entry [i] is set to
    [max_partition_count] and then incremented.  [fuel]: see [gpt_read_terminates]. *)
Fixpoint gpt_loop (fuel : nat) (i partition_0 : Z) (h : gpt_header) (ret : Z) (d : D) (s : pstate)
    : res (Z * pstate) :=
  if i <? max_partition_count h / 4 then
    match fuel with
    | O => Fault
    | S fuel =>
        _ ← ASSERT (partition_count s <? NUM_PARTITIONS);
        let '(ret, data) := read_from_card d (u64 (partition_0 * BLOCK_SIZE + u32 (i * BLOCK_SIZE)))
                              (Z.to_nat BLOCK_SIZE) in
        if negb (ret =? 0) then Ok (ret, s)
        else
          '(ended, s) ← gpt_block 4 data (partition_entry_size h) 0 s;
          gpt_loop fuel (u32 ((if (ended : bool) then max_partition_count h else i) + 1)) partition_0 h ret d s
    end
  else Ok (ret, s).

(** The header to use: the primary one, else the backup at the end of the card. *)
Definition gpt_find_header (d : D) : res (Z * option (buffer * gpt_header)) :=
  let '(_, data) := read_from_card d PROTECTIVE_MBR_SIZE (Z.to_nat BLOCK_SIZE) in
  h ← partition_parse_gpt_header data 0;
  match h with
  | Some h => Ok (0, Some (data, h))
  | None =>
      let card_size_sec := capacity d / BLOCK_SIZE in
      _ ← ASSERT (0 <? card_size_sec);
      let '(ret, data) := read_from_card d (u64 ((card_size_sec - 1) * BLOCK_SIZE)) (Z.to_nat BLOCK_SIZE) in
      if negb (ret =? 0) then Ok (ret, None)
      else
        h ← partition_parse_gpt_header data 0;
        match h with Some h => Ok (0, Some (data, h)) | None => Ok (1, None) end
  end.

Definition GPT_FUEL : nat := 64.

Definition mmc_boot_read_gpt (d : D) (s : pstate) : res (Z * pstate) :=
  let s := set_count 0 s in
  '(ret, r) ← gpt_find_header d;
  match r with
  | None => Ok (ret, s)
  | Some (data, h) =>
      partition_0 ← GET_LLWORD_FROM_BYTE data PARTITION_ENTRIES_OFFSET;
      gpt_loop GPT_FUEL 0 partition_0 h ret d s
  end.

Definition partition_read_table (d : D) (s : pstate) : res (Z * pstate) :=
  '(ret, s) ← mmc_boot_read_mbr d s;
  if negb (ret =? MMC_BOOT_E_SUCCESS) then Ok (MMC_BOOT_E_FAILURE, s)
  else if gpt_partitions_exist s then
    '(ret, s) ← mmc_boot_read_gpt d s;
    if negb (ret =? MMC_BOOT_E_SUCCESS) then Ok (MMC_BOOT_E_FAILURE, s) else Ok (MMC_BOOT_E_SUCCESS, s)
  else Ok (MMC_BOOT_E_SUCCESS, s).
End Table.

(** * The table in memory stays well formed *)

(** A name is 72 bytes of which the last 36 are never written. *)
Definition entry_ok (e : partition_entry) : Prop :=
  length (name e) = MAX_GPT_NAME_SIZE ∧ drop 36 (name e) = replicate 36 0.

(** 32 entries, and counters within their arrays. *)
Record table_ok (s : pstate) : Prop := {
  tb_len : length (partition_entries s) = 32%nat;
  tb_entry : Forall entry_ok (partition_entries s);
  tb_count : 0 ≤ partition_count s ≤ NUM_PARTITIONS;
  tb_ext3 : 0 ≤ ext3_count s ≤ 5;
  tb_vfat : 0 ≤ vfat_count s ≤ 2;
}.

Lemma partition_init_ok : table_ok partition_init.
Proof. constructor; try done. by apply Forall_replicate. Qed.

Lemma get_entry_ok s i :
  table_ok s → 0 ≤ i < NUM_PARTITIONS → ∃ e, get_entry i s = Ok e ∧ entry_ok e.
Proof.
  intros Hs Hi. unfold get_entry. rewrite (proj2 (Z.leb_le _ _)) by lia.
  destruct (lookup_lt_is_Some_2 (partition_entries s) (Z.to_nat i)) as [e He].
  { rewrite (tb_len _ Hs). unfold NUM_PARTITIONS in Hi. lia. }
  exists e. rewrite He. split; [done|]. by eapply (Forall_lookup_1 _ _ _ _ (tb_entry _ Hs)).
Qed.

(** [s'] differs from [s] in one entry. *)
Definition entry_written (s s' : pstate) : Prop :=
  table_ok s' ∧ partition_count s' = partition_count s ∧ gpt_partitions_exist s' = gpt_partitions_exist s.

Lemma put_entry_ok s i e :
  table_ok s → 0 ≤ i < NUM_PARTITIONS → entry_ok e →
  ∃ s', put_entry i e s = Ok s' ∧ entry_written s s' ∧
        ext3_count s' = ext3_count s ∧ vfat_count s' = vfat_count s.
Proof.
  intros Hs Hi He. unfold put_entry. destruct (get_entry_ok s i Hs Hi) as (e0 & -> & _).
  cbn. eexists. split; [done|]. split; [|done]. split; [|done]. destruct Hs as [H1 H2 H3 H4 H5].
  constructor; cbn; rewrite ?length_insert; try done. by apply Forall_insert.
Qed.

(** Copying at most 36 bytes over the front of a name. *)
Lemma memcpy_name_ok e src :
  entry_ok e → (length src ≤ 36)%nat →
  length (memcpy_to (name e) src) = MAX_GPT_NAME_SIZE ∧ drop 36 (memcpy_to (name e) src) = replicate 36 0.
Proof.
  intros [Hl Hd] Hs. unfold memcpy_to, MAX_GPT_NAME_SIZE in *. rewrite length_app, length_drop, Hl.
  split; [lia|]. rewrite drop_app_ge, drop_drop by lia. rewrite <- Hd. f_equal. lia.
Qed.

Lemma set_name_ok e src :
  entry_ok e → (length src ≤ 36)%nat → entry_ok (set_name (memcpy_to (name e) src) e).
Proof. intros He Hs. by apply memcpy_name_ok. Qed.

Lemma strlcpy_name_ok e src :
  entry_ok e → (length src ≤ 35)%nat → entry_ok (set_name (strlcpy_to (name e) src) e).
Proof.
  intros He Hs. apply set_name_ok; [done|]. rewrite length_app, length_take. cbn. lia.
Qed.

Lemma fixed_name_short msm ty n : mbr_fixed_name msm ty = Some n → (length (bytes_of n) ≤ 36)%nat.
Proof. unfold mbr_fixed_name. repeat case_match; intros; simplify_eq; cbn; lia. Qed.

Lemma table_name_short l i n :
  Forall (λ n, (length (bytes_of n) ≤ 35)%nat) l → index_name l i = Ok n → (length (bytes_of n) ≤ 35)%nat.
Proof.
  intros HF. unfold index_name. case_match; [|done]. destruct (l !! Z.to_nat i) as [m|] eqn:E; [|done].
  intros [= <-]. by eapply (Forall_lookup_1 _ _ _ _ HF).
Qed.

Lemma index_name_ok l i : 0 ≤ i < Z.of_nat (length l) → ∃ n, index_name l i = Ok n.
Proof.
  intros Hi. unfold index_name. rewrite (proj2 (Z.leb_le _ _)) by lia.
  destruct (lookup_lt_is_Some_2 l (Z.to_nat i)) as [n ->]; [lia|]. by exists n.
Qed.

Lemma set_name_counts_ok s a b :
  table_ok s → 0 ≤ a ≤ 5 → 0 ≤ b ≤ 2 → table_ok (set_name_counts a b s).
Proof. intros [] ? ?. by constructor. Qed.

Lemma mbr_fill_name_ok msm s i ty :
  table_ok s → 0 ≤ i < NUM_PARTITIONS → ∃ s', mbr_fill_name msm i ty s = Ok s' ∧ entry_written s s'.
Proof.
  intros Hs Hi. unfold mbr_fill_name. destruct (get_entry_ok s i Hs Hi) as (e & -> & He).
  cbn [mbind res_bind]. pose proof (tb_ext3 _ Hs). pose proof (tb_vfat _ Hs).
  case_match; [|case_match].
  - destruct (index_name_ok vfat_partitions (vfat_count s)) as [n Hn]; [cbn; lia|].
    rewrite Hn. cbn [mbind res_bind]. destruct (String.eqb n "NONE") eqn:En; [by exists s|].
    assert (vfat_count s ≠ 2) as Hv by (intros E; rewrite E in Hn; injection Hn as <-; done).
    destruct (put_entry_ok s i (set_name (strlcpy_to (name e) (bytes_of n)) e) Hs Hi) as (s' & -> & (Hs' & ? & ?) & E3 & Ev).
    { apply strlcpy_name_ok; [done|]. eapply table_name_short; [|exact Hn]. repeat constructor. }
    cbn [mbind res_bind]. eexists. split; [done|]. split; [|done].
    rewrite E3, Ev, u32_small by lia. apply set_name_counts_ok; [done|lia..].
  - case_match; [by exists s|]. destruct (index_name_ok ext3_partitions (ext3_count s)) as [n Hn].
    { cbn. apply Z.eqb_neq in H3. lia. }
    rewrite Hn. cbn [mbind res_bind]. apply Z.eqb_neq in H3.
    destruct (put_entry_ok s i (set_name (strlcpy_to (name e) (bytes_of n)) e) Hs Hi) as (s' & -> & (Hs' & ? & ?) & E3 & Ev).
    { apply strlcpy_name_ok; [done|]. eapply table_name_short; [|exact Hn]. repeat constructor. }
    cbn [mbind res_bind]. eexists. split; [done|]. split; [|done].
    rewrite E3, Ev, u32_small by lia. apply set_name_counts_ok; [done|lia..].
  - destruct (mbr_fixed_name msm ty) as [n|] eqn:Hn; [|by exists s].
    destruct (put_entry_ok s i (set_name (memcpy_to (name e) (bytes_of n)) e) Hs Hi) as (s' & -> & ? & _).
    { apply set_name_ok; [done|]. by eapply fixed_name_short. }
    by exists s'.
Qed.

(** * Reading is within bounds *)

Lemma slice_in b off n :
  0 ≤ off → off + Z.of_nat n ≤ Z.of_nat (length b) → ∃ l, slice b off n = Ok l ∧ length l = n.
Proof.
  intros H0 H1. exists (take n (drop (Z.to_nat off) b)). split; [by apply slice_ok|].
  rewrite length_take, length_drop. lia.
Qed.

Lemma byte_at_in b off : 0 ≤ off < Z.of_nat (length b) → ∃ x, byte_at b off = Ok x.
Proof.
  intros Hr. unfold byte_at. destruct (slice_in b off 1) as (l & -> & Hl); [lia..|].
  destruct l as [|x l]; [done|]. by exists x.
Qed.

Lemma get_lword_in b off : 0 ≤ off → off + 4 ≤ Z.of_nat (length b) → ∃ x, GET_LWORD_FROM_BYTE b off = Ok x.
Proof.
  intros H0 H1. unfold GET_LWORD_FROM_BYTE. destruct (slice_in b off 4) as (l & -> & _); [lia..|]. by eexists.
Qed.

Lemma get_llword_in b off : 0 ≤ off → off + 8 ≤ Z.of_nat (length b) → ∃ x, GET_LLWORD_FROM_BYTE b off = Ok x.
Proof.
  intros H0 H1. unfold GET_LLWORD_FROM_BYTE. destruct (slice_in b off 8) as (l & -> & _); [lia..|]. by eexists.
Qed.

(** Step through an access that is in bounds. *)
Ltac in_bounds :=
  match goal with
  | |- context [byte_at ?b ?o] => destruct (byte_at_in b o) as [? ->]; [lia|]
  | |- context [GET_LWORD_FROM_BYTE ?b ?o] => destruct (get_lword_in b o) as [? ->]; [lia..|]
  | |- context [GET_LLWORD_FROM_BYTE ?b ?o] => destruct (get_llword_in b o) as [? ->]; [lia..|]
  | |- context [slice ?b ?o ?n] => destruct (slice_in b o n) as (? & -> & ?); [lia..|]
  end; cbn [mbind res_bind].

Lemma verify_signature_in sz b :
  512 ≤ Z.of_nat (length b) → ∃ r, partition_verify_mbr_signature sz b = Ok r.
Proof.
  intros Hb. unfold partition_verify_mbr_signature, TABLE_SIGNATURE.
  do 2 in_bounds. repeat case_match; by eexists.
Qed.

Lemma read_mbr_entry_ok msm b off base s :
  table_ok s → partition_count s < NUM_PARTITIONS → 0 ≤ off → off + 16 ≤ Z.of_nat (length b) →
  ∃ ty fl s', read_mbr_entry msm b off base s = Ok (ty, fl, s') ∧ table_ok s' ∧
    partition_count s' = partition_count s + 1.
Proof.
  intros Hs Hn H0 H1. pose proof (tb_count _ Hs) as Hc. unfold read_mbr_entry.
  unfold OFFSET_TYPE, OFFSET_STATUS, OFFSET_FIRST_SEC, OFFSET_SIZE. do 4 in_bounds.
  destruct (get_entry_ok s (partition_count s) Hs ltac:(lia)) as (e & -> & He). cbn [mbind res_bind].
  match goal with |- context [put_entry _ ?e' s] => destruct (put_entry_ok s (partition_count s) e' Hs ltac:(lia))
    as (s1 & -> & (Hs1 & Ec1 & _) & _); [exact He|] end.
  cbn [mbind res_bind].
  match goal with |- context [mbr_fill_name msm ?n ?t s1] => destruct (mbr_fill_name_ok msm s1 n t Hs1 ltac:(lia))
    as (s2 & -> & Hs2 & Ec2 & _) end.
  cbn [mbind res_bind]. eexists _, _, _. split; [done|]. rewrite Ec2, Ec1. unfold NUM_PARTITIONS in *.
  rewrite u32_small by lia. split; [|done]. destruct Hs2. constructor; cbn; try done. unfold NUM_PARTITIONS. lia.
Qed.

Section Safety.
Context {D : Type} `{BlockDevice D} `{!BlockDeviceLaws D} (msm : bool).

Lemma mbr_loop_ok fuel i b ty fs s :
  table_ok s → 0 ≤ i → i + Z.of_nat fuel ≤ 4 → partition_count s < NUM_PARTITIONS → length b = 512%nat →
  ∃ r, mbr_loop msm fuel i b ty fs s = Ok r ∧
    match r with
    | MbrReturn s' => table_ok s'
    | MbrDone _ _ s' => table_ok s' ∧ partition_count s' < NUM_PARTITIONS
    end.
Proof.
  revert i ty fs s. induction fuel as [|fuel IH]; intros i ty fs s Hs Hi Hf Hn Hb; cbn [mbr_loop].
  { by eexists. }
  unfold TABLE_ENTRY_0, TABLE_ENTRY_SIZE, OFFSET_TYPE. in_bounds. case_match.
  { eexists. split; [done|]. by destruct Hs; constructor. }
  destruct (read_mbr_entry_ok msm b (0x1BE + i * 0x010) 0 s) as (ty' & fl & s' & -> & Hs' & Hc'); [done|done|lia|lia|].
  cbn [mbind res_bind]. case_match eqn:E; [by eexists|]. apply Z.eqb_neq in E.
  pose proof (tb_count _ Hs'). apply IH; [done|lia|lia|lia|done].
Qed.

Lemma ebr_loop_ok fuel (d : D) b first cur s :
  table_ok s → partition_count s < NUM_PARTITIONS → NUM_PARTITIONS - partition_count s ≤ Z.of_nat fuel →
  length b = 512%nat →
  ∃ r s', ebr_loop msm fuel d b first cur s = Ok (r, s') ∧ table_ok s'.
Proof.
  revert b cur s. induction fuel as [|fuel IH]; intros b cur s Hs Hn Hf Hb; cbn [ebr_loop]; [lia|].
  destruct (verify_signature_in BLOCK_SIZE b) as [ret ->]; [lia|]. cbn [mbind res_bind].
  case_match; [by eauto|].
  destruct (read_mbr_entry_ok msm b TABLE_ENTRY_0 cur s) as (ty' & fl & s' & -> & Hs' & Hc');
    [done|done|unfold TABLE_ENTRY_0; lia..|].
  cbn [mbind res_bind]. case_match eqn:E; [by eauto|]. apply Z.eqb_neq in E.
  unfold TABLE_ENTRY_1, OFFSET_FIRST_SEC. in_bounds. case_match; [by eauto|].
  destruct (read_from_card d _ _) as [ret' b'] eqn:Er. case_match; [by eauto|].
  apply IH; [done|pose proof (tb_count _ Hs'); lia|lia|].
  pose proof (read_length d (u32 (u32 (first + x) * 512)) (Z.to_nat BLOCK_SIZE)) as Hl. by rewrite Er in Hl.
Qed.

(** C20: reading an MBR with its chain of EBRs is safe on any card contents: the loops
    end, no access leaves the sector buffer or the 32-entry table, and the table is
    left well formed, with at most 32 partitions. *)
Theorem mmc_boot_read_mbr_safe (d : D) s :
  table_ok s → ∃ ret s', mmc_boot_read_mbr msm d s = Ok (ret, s') ∧ table_ok s'.
Proof.
  intros Hs. unfold mmc_boot_read_mbr. destruct (read_from_card d 0 _) as [ret b] eqn:Er.
  pose proof (read_length d 0 (Z.to_nat BLOCK_SIZE)) as Hl. rewrite Er in Hl. cbn [snd] in Hl.
  case_match; [by eauto|]. destruct (verify_signature_in BLOCK_SIZE b) as [ret' ->]; [by rewrite Hl|].
  cbn [mbind res_bind]. case_match; [by eauto|].
  assert (table_ok (set_count 0 s)) as Hs0 by (destruct Hs; by constructor).
  destruct (mbr_loop_ok 4 0 b 0 0 (set_count 0 s)) as (r & -> & Hr); [done|lia|lia|done|done|].
  cbn [mbind res_bind]. destruct r as [s'|ty fs s']; [by eauto|]. destruct Hr as [Hs' Hc].
  case_match; [by eauto|]. destruct (read_from_card d (u32 (fs * 512)) _) as [ret2 b2] eqn:Er2.
  case_match; [by eauto|]. apply ebr_loop_ok; [done|done| |].
  - pose proof (tb_count _ Hs'). unfold NUM_PARTITIONS in *. lia.
  - pose proof (read_length d (u32 (fs * 512)) (Z.to_nat BLOCK_SIZE)) as Hl2. by rewrite Er2 in Hl2.
Qed.

(** * The GPT *)

Lemma gpt_entry_ok data es j s :
  table_ok s → partition_count s < NUM_PARTITIONS → 0 ≤ es ≤ ENTRY_SIZE → 0 ≤ j ≤ 3 → length data = 512%nat →
  ∃ ended s', gpt_entry data es j s = Ok (ended, s') ∧ table_ok s' ∧
    partition_count s' = if (ended : bool) then partition_count s else partition_count s + 1.
Proof.
  intros Hs Hn Hes Hj Hd. pose proof (tb_count _ Hs) as Hc. unfold ENTRY_SIZE in Hes. unfold gpt_entry.
  assert (0 ≤ j * es ≤ 384) as Hje by nia.
  rewrite (u32_small (j * es)) by lia. unfold UNIQUE_GUID_OFFSET, FIRST_LBA_OFFSET, LAST_LBA_OFFSET,
    ATTRIBUTE_FLAG_OFFSET, PARTITION_NAME_OFFSET. rewrite !u32_small by lia.
  destruct (get_entry_ok s (partition_count s) Hs ltac:(lia)) as (e & -> & He). cbn [mbind res_bind].
  destruct (slice_in data (j * es) 16) as (tg & -> & Htg); [lia..|]. cbn [mbind res_bind].
  match goal with |- context [put_entry _ ?e' s] => destruct (put_entry_ok s (partition_count s) e' Hs ltac:(lia))
    as (s1 & -> & (Hs1 & Ec1 & _) & _); [exact He|] end.
  cbn [mbind res_bind]. case_bool_decide; [by eexists true, s1|].
  destruct (slice_in data (j * es + 56) MAX_GPT_NAME_SIZE) as (utf & -> & Hutf); [unfold MAX_GPT_NAME_SIZE; lia..|].
  do 4 in_bounds.
  match goal with |- context [put_entry _ ?e' s1] => destruct (put_entry_ok s1 (partition_count s) e' Hs1 ltac:(lia))
    as (s2 & -> & (Hs2 & Ec2 & _) & _); [apply memcpy_name_ok; [exact He|by rewrite length_fmap, length_seq]|] end.
  cbn [mbind res_bind]. eexists false, _. split; [done|]. rewrite Ec2, Ec1. unfold NUM_PARTITIONS in *.
  rewrite u32_small by lia. split; [|done]. destruct Hs2. constructor; cbn; try done. unfold NUM_PARTITIONS. lia.
Qed.

Lemma gpt_block_ok fuel data es j s :
  table_ok s → partition_count s + Z.of_nat fuel ≤ NUM_PARTITIONS → 0 ≤ es ≤ ENTRY_SIZE → 0 ≤ j →
  j + Z.of_nat fuel ≤ 4 → length data = 512%nat →
  ∃ ended s', gpt_block fuel data es j s = Ok (ended, s') ∧ table_ok s' ∧
    (ended = false → partition_count s' = partition_count s + Z.of_nat fuel).
Proof.
  revert j s. induction fuel as [|fuel IH]; intros j s Hs Hn Hes Hj Hf Hd; cbn [gpt_block].
  { eexists false, s. split_and!; [done..|lia]. }
  destruct (gpt_entry_ok data es j s) as (ended & s1 & -> & Hs1 & Hc1); [done|lia|done|lia|done|].
  cbn [mbind res_bind]. destruct ended; [by eexists true, s1|].
  destruct (IH (j + 1) s1) as (ended & s2 & -> & Hs2 & Hc2); [done|lia|done|lia|lia|done|].
  exists ended, s2. split_and!; [done..|]. intros E. rewrite Hc2 by done. lia.
Qed.

(** The loop over the blocks: full blocks only until an empty entry ends it. *)
Lemma gpt_loop_ok fuel i p0 h ret (d : D) s :
  table_ok s → partition_count s = 4 * i → 0 ≤ i → (9 - i ≤ Z.of_nat fuel) →
  0 ≤ partition_entry_size h ≤ ENTRY_SIZE → 0 ≤ max_partition_count h < 2 ^ 32 - 1 →
  gpt_loop fuel i p0 h ret d s = Panic ∨
  ∃ r s', gpt_loop fuel i p0 h ret d s = Ok (r, s') ∧ table_ok s'.
Proof.
  revert i ret s. induction fuel as [|fuel IH]; intros i ret s Hs Hc Hi Hf Hes Hmc; cbn [gpt_loop].
  all: case_match eqn:E; [|by right; eauto].
  { pose proof (tb_count _ Hs). unfold NUM_PARTITIONS in *. lia. }
  destruct (Z.ltb_spec (partition_count s) NUM_PARTITIONS) as [Hlt|]; cbn [ASSERT mbind res_bind]; [|by left].
  destruct (read_from_card d _ _) as [ret' data] eqn:Er. case_match; [by right; eauto|].
  unfold NUM_PARTITIONS in Hlt.
  destruct (gpt_block_ok 4 data (partition_entry_size h) 0 s) as (ended & s1 & -> & Hs1 & Hc1);
    [done|unfold NUM_PARTITIONS; lia|done|lia|lia| |].
  { pose proof (read_length d (u64 (p0 * BLOCK_SIZE + u32 (i * BLOCK_SIZE))) (Z.to_nat BLOCK_SIZE)) as Hl.
    by rewrite Er in Hl. }
  cbn [mbind res_bind]. destruct ended.
  - rewrite u32_small by lia. right. exists ret', s1. split; [|done].
    destruct fuel; cbn [gpt_loop]; (rewrite (proj2 (Z.ltb_ge _ _)); [done|]);
      (assert (max_partition_count h / 4 ≤ max_partition_count h) by (apply Z.div_le_upper_bound; lia); lia).
  - rewrite u32_small by lia. apply IH; [done|rewrite Hc1 by done; lia|lia|lia|done|done].
Qed.

Lemma parse_header_range data h :
  Forall is_byte data → partition_parse_gpt_header data 0 = Ok (Some h) →
  0 ≤ partition_entry_size h ∧ 0 ≤ max_partition_count h < 2 ^ 32.
Proof.
  intros Hb. unfold partition_parse_gpt_header.
  assert (∀ off x, GET_LWORD_FROM_BYTE data off = Ok x → 0 ≤ x < 2 ^ 32) as Hr.
  { intros off x. unfold GET_LWORD_FROM_BYTE. destruct (slice data off 4) as [l| |] eqn:El; [|done..].
    intros [= <-]. pose proof (length_slice _ _ _ _ El) as Hl. apply slice_ok in El as (_ & _ & ->).
    pose proof (le_or_range 0 (take 4 (drop (Z.to_nat off) data)) ltac:(lia)) as Hle. rewrite Hl in Hle.
    apply Hle. by apply Forall_take, Forall_drop. }
  destruct (GET_LWORD_FROM_BYTE data 0) as [w0| |]; [|done..]. cbn [mbind res_bind]. case_match; [done|].
  destruct (GET_LWORD_FROM_BYTE data (0 + 4)) as [w1| |]; [|done..]. cbn [mbind res_bind]. case_match; [done|].
  destruct (GET_LWORD_FROM_BYTE data (0 + HEADER_SIZE_OFFSET)) as [hs| |]; [|done..]. cbn [mbind res_bind].
  destruct (GET_LLWORD_FROM_BYTE data _) as [fu| |]; [|done..]. cbn [mbind res_bind].
  destruct (GET_LWORD_FROM_BYTE data (0 + PARTITION_COUNT_OFFSET)) as [mc| |] eqn:Emc; [|done..]. cbn [mbind res_bind].
  destruct (GET_LWORD_FROM_BYTE data (0 + PENTRY_SIZE_OFFSET)) as [es| |] eqn:Ees; [|done..]. cbn [mbind res_bind].
  intros [= <-]. cbn. split; [apply (Hr _ _ Ees)|apply (Hr _ _ Emc)].
Qed.

(** Parsing a header block never leaves the block. *)
Lemma parse_header_in data :
  length data = 512%nat → ∃ h, partition_parse_gpt_header data 0 = Ok h.
Proof.
  intros Hl. unfold partition_parse_gpt_header, HEADER_SIZE_OFFSET, FIRST_USABLE_LBA_OFFSET,
    PARTITION_COUNT_OFFSET, PENTRY_SIZE_OFFSET. do 6 in_bounds. repeat case_match; by eexists.
Qed.

(** What [gpt_find_header] can end with. *)
Lemma gpt_find_header_ok (d : D) :
  gpt_find_header d = Panic ∨
  ∃ ret r, gpt_find_header d = Ok (ret, r) ∧
    ∀ data h, r = Some (data, h) →
      length data = 512%nat ∧ 0 ≤ partition_entry_size h ∧ 0 ≤ max_partition_count h < 2 ^ 32.
Proof.
  unfold gpt_find_header. set (a := PROTECTIVE_MBR_SIZE).
  pose proof (read_length d a (Z.to_nat BLOCK_SIZE)) as Hl. pose proof (read_bytes d a (Z.to_nat BLOCK_SIZE)) as Hb.
  destruct (read_from_card d a _) as [r0 data]. cbn [snd] in *.
  destruct (parse_header_in data Hl) as [h Hh]. rewrite Hh. cbn [mbind res_bind]. destruct h as [h|].
  { right. eexists _, _. split; [done|]. intros ? ? [= <- <-]. split; [done|]. by apply (parse_header_range data). }
  destruct (0 <? capacity d / BLOCK_SIZE); cbn [ASSERT mbind res_bind]; [|by left]. right.
  set (a2 := u64 _).
  pose proof (read_length d a2 (Z.to_nat BLOCK_SIZE)) as Hl2. pose proof (read_bytes d a2 (Z.to_nat BLOCK_SIZE)) as Hb2.
  destruct (read_from_card d a2 _) as [r2 data2]. cbn [snd] in *. case_match; [by eexists _, None|].
  destruct (parse_header_in data2 Hl2) as [h2 Hh2]. rewrite Hh2. cbn [mbind res_bind].
  destruct h2 as [h2|]; [|by eexists _, None].
  eexists _, _. split; [done|]. intros ? ? [= <- <-]. split; [done|]. by apply (parse_header_range data2).
Qed.

(** The header the parser uses describes entries of at most 128 bytes, and fewer than
    2^32 - 1 of them. *)
Definition gpt_sane (d : D) : Prop :=
  ∀ ret data h, gpt_find_header d = Ok (ret, Some (data, h)) →
    partition_entry_size h ≤ ENTRY_SIZE ∧ max_partition_count h ≠ 2 ^ 32 - 1.

(** C19: reading a GPT whose header is sane ends, stays within the sector buffer and the
    32-entry table and leaves the table well formed; the only other outcome is the
    failed assertion (a card without sectors, or more than 32 partitions). *)
Theorem mmc_boot_read_gpt_safe (d : D) s :
  table_ok s → gpt_sane d →
  mmc_boot_read_gpt d s = Panic ∨ ∃ ret s', mmc_boot_read_gpt d s = Ok (ret, s') ∧ table_ok s'.
Proof.
  intros Hs Hsane. unfold mmc_boot_read_gpt.
  assert (table_ok (set_count 0 s)) as Hs0 by (destruct Hs; by constructor).
  destruct (gpt_find_header_ok d) as [-> |(ret & r & Hf & Hr)]; [by left|]. rewrite Hf. cbn [mbind res_bind].
  destruct r as [[data h]|]; [|by right; eauto]. destruct (Hr data h eq_refl) as (Hl & He0 & Hm0).
  destruct (Hsane ret data h Hf) as [He Hm]. unfold PARTITION_ENTRIES_OFFSET. in_bounds.
  apply gpt_loop_ok; [done|done|done| |lia|lia]. by vm_compute.
Qed.
End Safety.

(** A card with a GPT of one partition, "boot", from sector 40 to 99. *)
Definition gpt_entry_bytes (nm : string) (first last : Z) : list Z :=
  [0xA0] ++ replicate 15 1 ++ replicate 16 2 ++ le_bytes 8 0 first ++ le_bytes 8 0 last ++
  replicate 8 0 ++ take 72 ((bytes_of nm ≫= λ c, [c; 0]) ++ replicate 72 0).

Definition gpt_header_bytes (count : Z) : list Z :=
  le_bytes 4 0 GPT_SIGNATURE_2 ++ le_bytes 4 0 GPT_SIGNATURE_1 ++ replicate 4 0 ++ le_bytes 4 0 92 ++
  replicate 56 0 ++ le_bytes 8 0 2 ++ le_bytes 4 0 count ++ le_bytes 4 0 128 ++ replicate 424 0.

Definition gpt_card (count : Z) (entries : list Z) : ram_disk :=
  mkRam (replicate 512 0 ++ gpt_header_bytes count ++ take 1024 (entries ++ replicate 1024 0)).

Definition boot_card : ram_disk := gpt_card 8 (gpt_entry_bytes "boot" 40 99).

Lemma mmc_boot_read_mbr_safe_witness :
  ∃ ret s', mmc_boot_read_mbr false boot_card partition_init = Ok (ret, s') ∧ table_ok s'.
Proof. apply (mmc_boot_read_mbr_safe false boot_card partition_init), partition_init_ok. Defined.

Lemma boot_card_sane : gpt_sane boot_card.
Proof.
  intros ret data h E. vm_compute in E. injection E as _ _ <-. by vm_compute.
Qed.

Lemma mmc_boot_read_gpt_safe_witness :
  mmc_boot_read_gpt boot_card partition_init = Panic ∨
  ∃ ret s', mmc_boot_read_gpt boot_card partition_init = Ok (ret, s') ∧ table_ok s'.
Proof. apply mmc_boot_read_gpt_safe; [apply partition_init_ok|apply boot_card_sane]. Defined.

(** * Looking up by name *)

(** One round of the search, on a well-formed entry. *)
Lemma find_name_round nm n e es :
  entry_ok e → 0 ∉ nm → (length nm ≤ MAX_GPT_NAME_SIZE)%nat →
  find_name nm n (e :: es) = if decide (c_string (name e) = nm) then Ok n else find_name nm (n + 1) es.
Proof.
  intros [Hl Hz] Hn Hlen. cbn [find_name].
  destruct (memeq_prefix nm (name e)) as (same & -> & Hs); [by rewrite Hl|].
  assert (0 ∈ name e) as H0.
  { rewrite <- (take_drop 36 (name e)), Hz. apply elem_of_app. right. by apply elem_of_replicate. }
  cbn [mbind res_bind]. pose proof (c_string_prefix nm (name e) Hn) as Hc. destruct same.
  - rewrite strlen_c_string by done. cbn [mbind res_bind].
    destruct (Z.eqb_spec (Z.of_nat (length nm)) (Z.of_nat (length (c_string (name e))))) as [E|E].
    + rewrite decide_True; [done|]. apply Hc. split; [by apply Hs|lia].
    + rewrite decide_False; [done|]. intros [_ Hc2]%Hc. lia.
  - rewrite decide_False; [done|]. intros [Hc1 _]%Hc. apply Hs in Hc1. done.
Qed.

Lemma find_name_first nm es n :
  Forall entry_ok es → 0 ∉ nm → (length nm ≤ MAX_GPT_NAME_SIZE)%nat →
  find_name nm n es =
    Ok (match list_find (λ e, c_string (name e) = nm) es with Some (i, _) => n + Z.of_nat i | None => INVALID_PTN end).
Proof.
  intros He Hn Hl. revert n. induction He as [|e es He Hes IH]; intros n; [done|].
  rewrite find_name_round by done. cbn [list_find]. case_decide; [by rewrite Z.add_0_r|].
  rewrite IH. destruct (list_find _ es) as [[i e']|]; cbn [fmap option_fmap option_map prod_map fst]; [|done]. f_equal. cbn. lia.
Qed.

(** partition_get_index on a well-formed table that is not full returns the position
    of the first entry whose name is exactly the one asked for, a longer or shorter name
    never matching, and INVALID_PTN when there is none. *)
Theorem partition_get_index_first nm s :
  table_ok s → partition_count s < NUM_PARTITIONS → 0 ∉ nm → (length nm ≤ MAX_GPT_NAME_SIZE)%nat →
  partition_get_index nm s =
    Ok (match list_find (λ e, c_string (name e) = nm)
                (take (Z.to_nat (partition_count s)) (partition_entries s)) with
        | Some (i, _) => Z.of_nat i
        | None => INVALID_PTN
        end).
Proof.
  intros Hs Hc Hn Hl. unfold partition_get_index. rewrite (proj2 (Z.leb_gt _ _)) by done.
  apply find_name_first; [apply Forall_take, Hs|done|done].
Qed.

(** The table after reading [boot_card]. *)
Definition boot_table : pstate :=
  match mmc_boot_read_gpt boot_card partition_init with Ok (_, s) => s | _ => partition_init end.

Lemma boot_table_ok : table_ok boot_table.
Proof.
  constructor; [reflexivity| | | |]; [|by vm_compute..].
  apply Forall_forall. intros e He. vm_compute in He. 
  repeat (apply elem_of_cons in He as [-> |He]; [by vm_compute|]). by apply not_elem_of_nil in He.
Qed.

Lemma partition_get_index_first_witness :
  partition_get_index (bytes_of "boot") boot_table = Ok 0 ∧
  partition_get_index (bytes_of "boo") boot_table = Ok INVALID_PTN.
Proof.
  split.
  - rewrite (partition_get_index_first (bytes_of "boot") boot_table boot_table_ok); [by vm_compute|by vm_compute| |by vm_compute; lia].
    apply (bool_decide_unpack _). by vm_compute.
  - rewrite (partition_get_index_first (bytes_of "boo") boot_table boot_table_ok); [by vm_compute|by vm_compute| |by vm_compute; lia].
    apply (bool_decide_unpack _). by vm_compute.
Defined.
