(* ===== verification/PartitionWrite.v ===== *)
(** Writing a partition table that arrives over fastboot
    (src/bootable/lk/platform/msm_shared/partition_parser.c, from write_mbr_in_blocks to
    write_partition).

    The image lies at the start of the download area; [img] is that area from the start
    of the image on, and a pointer into it is an offset, computed modulo 2^32 as the
    addresses are.  [size] is the number of bytes that were downloaded.  The functions
    return the status, the card, the table and, where they change it, the image. *)
From Stdlib Require Import ZArith.
From stdpp Require Import base numbers list strings.
From S2P Require Import Prelude Bytes Crc32 Mmc Partition.

Section Write.
Context {D : Type} `{BlockDevice D} (msm7x27a : bool).

(** * MBR *)

(** The search for the EBR among the four entries: [dtype] and [i] after the loop. *)
Fixpoint find_ebr (fuel : nat) (i : Z) (img : buffer) (ty : Z) : res (Z * Z) :=
  match fuel with
  | O => Ok (ty, i)
  | S fuel =>
      ty ← byte_at img (TABLE_ENTRY_0 + i * TABLE_ENTRY_SIZE + OFFSET_TYPE);
      if MBR_EBR_TYPE =? ty then Ok (ty, i) else find_ebr fuel (i + 1) img ty
  end.

(** [while (ebrImage < lastAddress)]; every round moves one block on. *)
Fixpoint write_ebrs (fuel : nat) (img : buffer) (ebrImage lastAddress ebrSectorOffset dfirstsec ret : Z) (d : D)
    : res (Z * D) :=
  if ebrImage <? lastAddress then
    match fuel with
    | O => Fault
    | S fuel =>
        '(ret, d) ← mmc_write (u32 (u32 (ebrSectorOffset + dfirstsec) * BLOCK_SIZE)) BLOCK_SIZE img ebrImage d;
        if negb (ret =? 0) then Ok (ret, d)
        else
          dfirstsec ← GET_LWORD_FROM_BYTE img (ebrImage + TABLE_ENTRY_1 + OFFSET_FIRST_SEC);
          write_ebrs fuel img (ebrImage + BLOCK_SIZE) lastAddress ebrSectorOffset dfirstsec ret d
    end
  else Ok (ret, d).

Definition write_mbr_in_blocks (size : Z) (img : buffer) (d : D) : res (Z * D) :=
  '(ret, d) ← mmc_write 0 BLOCK_SIZE img 0 d;
  if negb (ret =? 0) then Ok (ret, d)
  else
    '(ty, i) ← find_ebr 4 0 img 0;
    if negb (MBR_EBR_TYPE =? ty) then Ok (ret, d)
    else
      ebrSectorOffset ← GET_LWORD_FROM_BYTE img (TABLE_ENTRY_0 + i * TABLE_ENTRY_SIZE + OFFSET_FIRST_SEC);
      write_ebrs (Z.to_nat size) img BLOCK_SIZE size ebrSectorOffset 0 ret d.

Definition write_mbr (size : Z) (img : buffer) (d : D) (s : pstate) : res (Z * D * pstate) :=
  ret ← partition_verify_mbr_signature size img;
  if negb (ret =? 0) then Ok (ret, d, s)
  else
    '(ret, d) ← write_mbr_in_blocks size img d;
    if negb (ret =? 0) then Ok (ret, d, s)
    else '(ret, s) ← mmc_boot_read_mbr msm7x27a d s; Ok (ret, d, s).

(** * GPT *)

Definition write_gpt_partition_array (img : buffer) (header partition_array_start array_size : Z) (d : D)
    : res (Z * D) :=
  partition_entry_lba ← GET_LLWORD_FROM_BYTE img (u32 (header + PARTITION_ENTRIES_OFFSET));
  mmc_write (u64 (partition_entry_lba * BLOCK_SIZE)) array_size img partition_array_start d.

(** The entries in front of the first one whose first byte is 0. *)
Fixpoint count_parts (fuel : nat) (img : buffer) (array total_part : Z) : res Z :=
  match fuel with
  | O => Fault
  | S fuel =>
      c ← byte_at img (array + total_part * ENTRY_SIZE);
      if negb (c =? 0) then count_parts fuel img array (total_part + 1) else Ok total_part
  end.

(** [calculate_crc32(img + off, len)] *)
Definition crc_at (img : buffer) (off len : Z) : res Z :=
  bs ← slice img off (Z.to_nat (s32 len)); Ok (calculate_crc32 bs).

(** Recompute the CRC field of the header at [hdr]. *)
Definition patch_header_crc (img : buffer) (hdr : Z) : res buffer :=
  img ← PUT_LONG img (u32 (hdr + HEADER_CRC_OFFSET)) 0;
  crc_value ← crc_at img hdr 92;
  PUT_LONG img (u32 (hdr + HEADER_CRC_OFFSET)) crc_value.

(** [cap] is [mmc_card->capacity]. *)
Definition patch_gpt (img : buffer) (cap array_size max_part_count part_entry_size : Z) : res buffer :=
  let card_size_sec := if cap / 512 =? 0 then 4 * 1024 * 1024 * 2 - 1 else cap / 512 in
  let primary := PROTECTIVE_MBR_SIZE in
  img ← PUT_LONG_LONG img (primary + BACKUP_HEADER_OFFSET) (card_size_sec - 1);
  img ← PUT_LONG_LONG img (primary + LAST_USABLE_LBA_OFFSET) (card_size_sec - 34);
  let offset := u32 (2 * array_size) in
  let secondary := u32 (offset + BLOCK_SIZE + primary) in
  img ← PUT_LONG_LONG img (u32 (secondary + PRIMARY_HEADER_OFFSET)) (card_size_sec - 1);
  img ← PUT_LONG_LONG img (u32 (secondary + LAST_USABLE_LBA_OFFSET)) (card_size_sec - 34);
  img ← PUT_LONG_LONG img (u32 (secondary + PARTITION_ENTRIES_OFFSET)) (card_size_sec - 33);
  let array := primary + BLOCK_SIZE in
  total_part ← count_parts (S (length img)) img array 0;
  let last_part_offset := u32 ((total_part - 1) * ENTRY_SIZE + PARTITION_ENTRY_LAST_LBA) in
  img ← PUT_LONG_LONG img (u32 (array + last_part_offset)) (card_size_sec - 34);
  img ← PUT_LONG_LONG img (u32 (array + last_part_offset + array_size)) (card_size_sec - 34);
  crc_value ← crc_at img array (max_part_count * part_entry_size);
  img ← PUT_LONG img (primary + PARTITION_CRC_OFFSET) crc_value;
  crc_value ← crc_at img (u32 (array + array_size)) (max_part_count * part_entry_size);
  img ← PUT_LONG img (u32 (secondary + PARTITION_CRC_OFFSET)) crc_value;
  img ← patch_header_crc img primary;
  patch_header_crc img secondary.

(** The writes of write_gpt, each one stopping the rest when it fails. *)
Definition write_gpt_blocks (img : buffer) (secondary array_size : Z) (d : D) : res (Z * D) :=
  let primary := PROTECTIVE_MBR_SIZE in
  let '(ret, d) := erase_card d 0 (capacity d) in
  if negb (ret =? 0) then Ok (ret, d)
  else
    '(ret, d) ← mmc_write 0 PROTECTIVE_MBR_SIZE img 0 d;
    if negb (ret =? 0) then Ok (ret, d)
    else
      '(ret, d) ← mmc_write PROTECTIVE_MBR_SIZE BLOCK_SIZE img primary d;
      if negb (ret =? 0) then Ok (ret, d)
      else
        backup_header_lba ← GET_LLWORD_FROM_BYTE img (primary + BACKUP_HEADER_OFFSET);
        '(ret, d) ← mmc_write (u64 (backup_header_lba * BLOCK_SIZE)) BLOCK_SIZE img secondary d;
        if negb (ret =? 0) then Ok (ret, d)
        else
          '(ret, d) ← write_gpt_partition_array img primary (primary + BLOCK_SIZE) array_size d;
          if negb (ret =? 0) then Ok (ret, d)
          else
            write_gpt_partition_array img secondary (u32 (primary + BLOCK_SIZE + array_size)) array_size d.

(** [memset(primary_gpt_header, 0, size)] starts 512 bytes into the image. *)
Definition clear_image (size : Z) (img : buffer) : res buffer :=
  store img PROTECTIVE_MBR_SIZE (replicate (Z.to_nat size) 0).

Definition array_size_of (h : gpt_header) : Z :=
  let n := u32 (partition_entry_size h * max_partition_count h) in
  if n <? MIN_PARTITION_ARRAY_SIZE then MIN_PARTITION_ARRAY_SIZE else n.

Definition write_gpt (size : Z) (img : buffer) (d : D) (s : pstate) : res (Z * buffer * D * pstate) :=
  let primary := PROTECTIVE_MBR_SIZE in
  h ← partition_parse_gpt_header img primary;
  match h with
  | None => Ok (1, img, d, s)
  | Some h =>
      let array_size := array_size_of h in
      let secondary := u32 (u32 (2 * array_size) + BLOCK_SIZE + primary) in
      h2 ← partition_parse_gpt_header img secondary;
      match h2 with
      | None => Ok (1, img, d, s)
      | Some h2 =>
          img ← patch_gpt img (capacity d) array_size (max_partition_count h2) (partition_entry_size h2);
          '(ret, d) ← write_gpt_blocks img secondary array_size d;
          if negb (ret =? 0) then Ok (ret, img, d, s)
          else
            '(ret, s) ← mmc_boot_read_gpt d s;
            if negb (ret =? 0) then Ok (ret, img, d, s)
            else img ← clear_image size img; Ok (ret, img, d, s)
      end
  end.

(** [None] is the NULL image. *)
Definition write_partition (size : Z) (partition : option buffer) (d : D) (s : pstate)
    : res (Z * option buffer * D * pstate) :=
  match partition with
  | None => Ok (MMC_BOOT_E_INVAL, None, d, s)
  | Some img =>
      '(ret, ty) ← partition_get_type size img;
      if negb (ret =? MMC_BOOT_E_SUCCESS) then Ok (ret, Some img, d, s)
      else if ty =? PARTITION_TYPE_MBR then
        '(ret, d, s) ← write_mbr size img d s; Ok (ret, Some img, d, s)
      else if ty =? PARTITION_TYPE_GPT then
        '(ret, img, d, s) ← write_gpt size img d s; Ok (ret, Some img, d, s)
      else Ok (MMC_BOOT_E_INVAL, Some img, d, s)
  end.
End Write.

(** * The patched headers carry the right checksums *)

(** The header at [hdr] is consistent: its own CRC is that of its first 92 bytes with
    the CRC field taken as zero, and the array CRC is that of the [n] bytes at [array]. *)
Definition header_crc_ok (img : buffer) (hdr array : Z) (n : nat) : Prop :=
  (∃ bs, slice img array n = Ok bs ∧
     GET_LWORD_FROM_BYTE img (hdr + PARTITION_CRC_OFFSET) = Ok (u32 (crc32_ref bs))) ∧
  (∃ b0 b1, slice img hdr 16 = Ok b0 ∧ slice img (hdr + 20) 72 = Ok b1 ∧
     GET_LWORD_FROM_BYTE img (hdr + HEADER_CRC_OFFSET) = Ok (u32 (crc32_ref (b0 ++ replicate 4 0 ++ b1)))).

Lemma calculate_crc32_ref bs : calculate_crc32 bs = crc32_ref bs.
Proof. unfold calculate_crc32, crc32_ref. rewrite crc_bytes_reflect by lia. done. Qed.


Lemma put_long_in b off y :
  0 ≤ off → off + 4 ≤ Z.of_nat (length b) → ∃ b', PUT_LONG b off y = Ok b' ∧ length b' = length b ∧
    (∀ i n, i + Z.of_nat n ≤ off ∨ off + 4 ≤ i → slice b' i n = slice b i n) ∧
    slice b' off 4 = Ok (le_bytes 4 0 y).
Proof.
  intros H0 H1. destruct (store_in b off (le_bytes 4 0 y) H0) as [b' Hb]; [by rewrite length_le_bytes|].
  exists b'. split_and!; [done|by eapply store_length| |].
  - intros i n Hd. apply (slice_store_other _ _ _ _ i n Hb). by rewrite length_le_bytes.
  - apply slice_store_same in Hb. by rewrite length_le_bytes in Hb.
Qed.

Lemma put_long_long_in b off y :
  0 ≤ off → off + 8 ≤ Z.of_nat (length b) → ∃ b', PUT_LONG_LONG b off y = Ok b' ∧ length b' = length b ∧
    (∀ i n, i + Z.of_nat n ≤ off ∨ off + 8 ≤ i → slice b' i n = slice b i n) ∧
    slice b' off 8 = Ok (le_bytes 8 0 y).
Proof.
  intros H0 H1. destruct (store_in b off (le_bytes 8 0 y) H0) as [b' Hb]; [by rewrite length_le_bytes|].
  exists b'. split_and!; [done|by eapply store_length| |].
  - intros i n Hd. apply (slice_store_other _ _ _ _ i n Hb). by rewrite length_le_bytes.
  - apply slice_store_same in Hb. by rewrite length_le_bytes in Hb.
Qed.

(** A range is the concatenation of its parts. *)
Lemma slice_app b off n m l1 l2 :
  slice b off n = Ok l1 → slice b (off + Z.of_nat n) m = Ok l2 → slice b off (n + m) = Ok (l1 ++ l2).
Proof.
  intros (H0 & H1 & ->)%slice_ok (_ & H3 & ->)%slice_ok. apply slice_ok. split_and!; [lia..|].
  rewrite Z2Nat.inj_add, <- drop_drop by lia. rewrite Nat2Z.id. by rewrite take_take_drop.
Qed.

Lemma patch_header_crc_ok img hdr :
  0 ≤ hdr → hdr + 512 ≤ Z.of_nat (length img) → hdr + 512 < 2 ^ 32 →
  ∃ img', patch_header_crc img hdr = Ok img' ∧ length img' = length img ∧
    (∀ i n, i + Z.of_nat n ≤ hdr + 16 ∨ hdr + 20 ≤ i → slice img' i n = slice img i n) ∧
    (∃ b0 b1, slice img hdr 16 = Ok b0 ∧ slice img (hdr + 20) 72 = Ok b1 ∧
       slice img' (hdr + 16) 4 = Ok (le_bytes 4 0 (crc32_ref (b0 ++ replicate 4 0 ++ b1)))).
Proof.
  intros H0 H1 H2. unfold patch_header_crc, HEADER_CRC_OFFSET. rewrite u32_small by lia.
  destruct (put_long_in img (hdr + 16) 0) as (i1 & -> & Hl1 & Ho1 & Hz); [lia..|]. cbn [mbind res_bind].
  destruct (slice_in img hdr 16) as (b0 & Hb0 & _); [lia..|].
  destruct (slice_in img (hdr + 20) 72) as (b1 & Hb1 & _); [lia..|].
  unfold crc_at. rewrite s32_small by lia.
  assert (slice i1 hdr (Z.to_nat 92) = Ok (b0 ++ replicate 4 0 ++ b1)) as ->.
  { change (Z.to_nat 92) with (16 + (4 + 72))%nat. apply slice_app; [by rewrite Ho1 by lia|].
    change (hdr + Z.of_nat 16) with (hdr + 16). apply slice_app; [done|].
    rewrite Ho1 by lia. by replace (hdr + 16 + Z.of_nat 4) with (hdr + 20) by lia. }
  cbn [mbind res_bind]. rewrite calculate_crc32_ref.
  destruct (put_long_in i1 (hdr + 16) (crc32_ref (b0 ++ replicate 4 0 ++ b1))) as (i2 & -> & Hl2 & Ho2 & Hc); [lia..|].
  exists i2. split_and!; [done|lia| |].
  - intros i n Hd. by rewrite Ho2, Ho1 by lia.
  - by exists b0, b1.
Qed.

Lemma slice_get_lword b off y : slice b off 4 = Ok (le_bytes 4 0 y) → GET_LWORD_FROM_BYTE b off = Ok (u32 y).
Proof. unfold GET_LWORD_FROM_BYTE. intros ->. cbn [mbind res_bind]. by rewrite le_roundtrip. Qed.

(** The scan for the first empty entry ends at it. *)
Lemma count_parts_ok img array t fuel k :
  0 ≤ k ≤ t → 0 ≤ array → array + t * ENTRY_SIZE < Z.of_nat (length img) → (t - k < Z.of_nat fuel) →
  (∀ j, k ≤ j < t → byte_at img (array + j * ENTRY_SIZE) ≠ Ok 0) →
  byte_at img (array + t * ENTRY_SIZE) = Ok 0 →
  count_parts fuel img array k = Ok t.
Proof.
  unfold ENTRY_SIZE. revert k. induction fuel as [|fuel IH]; intros k Hk Ha Hl Hf Hnz Hz; [lia|]. cbn [count_parts].
  unfold ENTRY_SIZE. destruct (decide (k = t)) as [->|Hne]; [by rewrite Hz|].
  destruct (byte_at_in img (array + k * 128)) as [c Hc]; [lia|]. rewrite Hc. cbn [mbind res_bind].
  destruct (Z.eqb_spec c 0) as [->|]; [by destruct (Hnz k ltac:(lia))|]. cbn [negb].
  apply IH; [lia|done|done|lia| |done]. intros j Hj. apply Hnz. lia.
Qed.

(** An image with [t] partitions, entry arrays of [asz] bytes each, the primary header
    at 512, the arrays at 1024 and 1024 + [asz], and the backup header behind them. *)
Record gpt_image (img : buffer) (asz mc es t : Z) : Prop := {
  gi_asz : MIN_PARTITION_ARRAY_SIZE ≤ asz < 2 ^ 30;
  gi_len : 1536 + 2 * asz ≤ Z.of_nat (length img) < 2 ^ 32;
  gi_crc_len : 0 ≤ mc * es ≤ asz;
  gi_parts : 1 ≤ t ∧ t * ENTRY_SIZE < asz;
  gi_used : ∀ j, 0 ≤ j < t → byte_at img (1024 + j * ENTRY_SIZE) ≠ Ok 0;
  gi_end : byte_at img (1024 + t * ENTRY_SIZE) = Ok 0;
}.

(** Step through a write that is in bounds. *)
Ltac put_in :=
  match goal with
  | |- context [PUT_LONG_LONG ?b ?o ?y] =>
      let b' := fresh "b" in let Hl := fresh "Hl" in let Ho := fresh "Ho" in let Hv := fresh "Hv" in
      destruct (put_long_long_in b o y) as (b' & -> & Hl & Ho & Hv); [lia..|]
  | |- context [PUT_LONG ?b ?o ?y] =>
      let b' := fresh "b" in let Hl := fresh "Hl" in let Ho := fresh "Ho" in let Hv := fresh "Hv" in
      destruct (put_long_in b o y) as (b' & -> & Hl & Ho & Hv); [lia..|]
  end; cbn [mbind res_bind].

(** Reads beside all the later writes. *)
Ltac through :=
  repeat match goal with
  | H : ∀ i n, _ → slice ?b' i n = slice _ i n |- context [slice ?b' _ _] => rewrite H by lia
  end.

(** Close a read that some write has just determined. *)
Ltac written :=
  first
    [ match goal with
      | H : slice ?b ?o' ?n = Ok _ |- slice ?b ?o ?n = _ => replace o with o' by lia; exact H
      end
    | match goal with
      | H : ∀ i n, _ → slice ?b' i n = slice _ i n |- slice ?b' _ _ = _ => rewrite H by lia; written
      end ].

Lemma byte_at_slice b b' off : slice b off 1 = slice b' off 1 → byte_at b off = byte_at b' off.
Proof. unfold byte_at. by intros ->. Qed.

Definition card_sectors (cap : Z) : Z := if cap / 512 =? 0 then 4 * 1024 * 1024 * 2 - 1 else cap / 512.

(** The location fields of both headers and the end of the last partition. *)
Definition patched_fields (img : buffer) (asz t sectors : Z) : Prop :=
  slice img (512 + BACKUP_HEADER_OFFSET) 8 = Ok (le_bytes 8 0 (sectors - 1)) ∧
  slice img (512 + LAST_USABLE_LBA_OFFSET) 8 = Ok (le_bytes 8 0 (sectors - 34)) ∧
  slice img (1024 + 2 * asz + PRIMARY_HEADER_OFFSET) 8 = Ok (le_bytes 8 0 (sectors - 1)) ∧
  slice img (1024 + 2 * asz + LAST_USABLE_LBA_OFFSET) 8 = Ok (le_bytes 8 0 (sectors - 34)) ∧
  slice img (1024 + 2 * asz + PARTITION_ENTRIES_OFFSET) 8 = Ok (le_bytes 8 0 (sectors - 33)) ∧
  slice img (1024 + (t - 1) * ENTRY_SIZE + PARTITION_ENTRY_LAST_LBA) 8 = Ok (le_bytes 8 0 (sectors - 34)) ∧
  slice img (1024 + asz + (t - 1) * ENTRY_SIZE + PARTITION_ENTRY_LAST_LBA) 8 = Ok (le_bytes 8 0 (sectors - 34)).

#[local] Opaque le_bytes crc32_ref.

(** C16: patch_gpt turns a well-laid-out image into one the card can boot from: it
    succeeds, both headers point to each other's place at the two ends of the card, the
    last partition ends at the last usable sector in both entry arrays, and the array
    and header checksums of both headers are the CRC-32 of the bytes as patched. *)
Theorem patch_gpt_valid img cap asz mc es t :
  gpt_image img asz mc es t →
  ∃ img', patch_gpt img cap asz mc es = Ok img' ∧ length img' = length img ∧
    patched_fields img' asz t (card_sectors cap) ∧
    header_crc_ok img' 512 1024 (Z.to_nat (mc * es)) ∧
    header_crc_ok img' (1024 + 2 * asz) (1024 + asz) (Z.to_nat (mc * es)).
Proof.
  intros [Ha Hl Hc [Ht1 Ht2] Hu He]. unfold MIN_PARTITION_ARRAY_SIZE, ENTRY_SIZE in *.
  unfold patch_gpt. fold (card_sectors cap). set (sec := card_sectors cap). clearbody sec.
  unfold PROTECTIVE_MBR_SIZE, BLOCK_SIZE, BACKUP_HEADER_OFFSET, LAST_USABLE_LBA_OFFSET, PRIMARY_HEADER_OFFSET,
    PARTITION_ENTRIES_OFFSET, PARTITION_CRC_OFFSET.
  rewrite (u32_small (2 * asz)), (u32_small (2 * asz + 512 + 512)), !u32_small by lia.
  do 5 put_in.
  rewrite (count_parts_ok b3 _ t); cbn [mbind res_bind]; unfold ENTRY_SIZE; [|lia..| |].
  2: { intros j Hj. erewrite byte_at_slice by (through; reflexivity). by apply Hu. }
  2: { erewrite byte_at_slice by (through; reflexivity). done. }
  unfold PARTITION_ENTRY_LAST_LBA. rewrite (u32_small ((t - 1) * 128 + 40)), !u32_small by lia.
  do 2 put_in. unfold crc_at. rewrite s32_small by lia.
  destruct (slice_in b5 (512 + 512) (Z.to_nat (mc * es))) as (a1 & Ha1 & _); [lia..|].
  rewrite Ha1. cbn [mbind res_bind]. rewrite calculate_crc32_ref. put_in.
  destruct (slice_in b6 (512 + 512 + asz) (Z.to_nat (mc * es))) as (a2 & Ha2 & _); [lia..|].
  rewrite Ha2. cbn [mbind res_bind]. rewrite calculate_crc32_ref. put_in.
  destruct (patch_header_crc_ok b7 512) as (i1 & -> & Hi1 & Hio1 & c1 & c2 & Hc1 & Hc2 & Hcr); [lia..|].
  cbn [mbind res_bind].
  destruct (patch_header_crc_ok i1 (2 * asz + 512 + 512)) as (i2 & -> & Hi2 & Hio2 & c3 & c4 & Hc3 & Hc4 & Hcr2); [lia..|].
  exists i2. split; [done|]. split; [lia|]. clear Hu He.
  split; [unfold patched_fields, BACKUP_HEADER_OFFSET, LAST_USABLE_LBA_OFFSET, PRIMARY_HEADER_OFFSET,
    PARTITION_ENTRIES_OFFSET, ENTRY_SIZE, PARTITION_ENTRY_LAST_LBA; split_and!; written|].
  unfold header_crc_ok, HEADER_CRC_OFFSET, PARTITION_CRC_OFFSET.  split_and!.
  - exists a1. split; [written|]. apply slice_get_lword. written.
  - exists c1, c2. split_and!; [written..|]. apply slice_get_lword. written.
  - exists a2. split; [written|]. apply slice_get_lword. written.
  - exists c3, c4. split_and!; [written..|]. apply slice_get_lword. written.
Qed.

(** An image with a protective MBR and one partition, "boot", and a card of 200 sectors. *)
Definition protective_mbr : list Z :=
  replicate 450 0 ++ [0xEE] ++ replicate 59 0 ++ [0x55; 0xAA].
Definition boot_array : list Z := gpt_entry_bytes "boot" 40 99 ++ replicate 16256 0.
Definition boot_image : buffer :=
  protective_mbr ++ gpt_header_bytes 8 ++ boot_array ++ boot_array ++ gpt_header_bytes 8.
Definition blank_card : ram_disk := mkRam (replicate 102400 0).

Lemma boot_image_layout : gpt_image boot_image MIN_PARTITION_ARRAY_SIZE 8 128 1.
Proof.
  constructor; try by vm_compute.
  intros j Hj. replace j with 0 by lia. by vm_compute.
Qed.

Lemma patch_gpt_valid_witness :
  ∃ img', patch_gpt boot_image 102400 MIN_PARTITION_ARRAY_SIZE 8 128 = Ok img' ∧ length img' = length boot_image ∧
    patched_fields img' MIN_PARTITION_ARRAY_SIZE 1 (card_sectors 102400) ∧
    header_crc_ok img' 512 1024 (Z.to_nat (8 * 128)) ∧
    header_crc_ok img' (1024 + 2 * MIN_PARTITION_ARRAY_SIZE) (1024 + MIN_PARTITION_ARRAY_SIZE) (Z.to_nat (8 * 128)).
Proof. exact (patch_gpt_valid boot_image 102400 MIN_PARTITION_ARRAY_SIZE 8 128 1 boot_image_layout). Defined.

(** Flashing the image and looking the partition up: it starts where the image says and
    ends at the last usable sector of the card.  The area behind the image must be
    512 bytes longer than the image for the final memset. *)
Example flash_and_find :
  match write_partition false (Z.of_nat (length boot_image)) (Some (boot_image ++ replicate 512 0)) blank_card partition_init with
  | Ok (ret, _, _, s) => Some (ret, partition_get_index (bytes_of "boot") s, partition_get_offset 0 s, partition_get_size 0 s)
  | _ => None
  end = Some (0, Ok 0, Ok (40 * 512), Ok ((200 - 34 - 40 + 1) * 512)).
Proof. vm_compute. reflexivity. Qed.

(** The same call when the image ends where the download area ends: the memset of
    [size] bytes from the primary header runs past the image. *)
Theorem write_gpt_clears_past_image :
  write_partition false (Z.of_nat (length boot_image)) (Some boot_image) blank_card partition_init = Fault.
Proof. vm_compute. reflexivity. Qed.

(** An image without partitions: the end of "the last partition" is patched into the
    primary header block, in front of the entry array. *)
Definition empty_image : buffer :=
  protective_mbr ++ gpt_header_bytes 8 ++ replicate 32768 0 ++ gpt_header_bytes 8.

Theorem patch_gpt_empty_table :
  slice empty_image 936 8 = Ok (replicate 8 0) ∧
  (img' ← patch_gpt empty_image 102400 MIN_PARTITION_ARRAY_SIZE 8 128; slice img' 936 8) = Ok (le_bytes 8 0 166).
Proof. split; vm_compute; reflexivity. Qed.

(** * Where reading a table goes wrong *)

(** A table with 32 partitions: all of them are read, and none can be found. *)
Definition full_card : ram_disk :=
  mkRam (replicate 512 0 ++ gpt_header_bytes 32 ++ concat (replicate 32 (gpt_entry_bytes "boot" 40 99))).

Theorem full_table_not_found :
  match mmc_boot_read_gpt full_card partition_init with
  | Ok (ret, s) => Some (ret, partition_count s, c_string ∘ name <$> partition_entries s !! 0%nat, partition_get_index (bytes_of "boot") s)
  | _ => None
  end = Some (0, 32, Some (bytes_of "boot"), Ok INVALID_PTN).
Proof. vm_compute. reflexivity. Qed.

(** A header that announces 2^32 - 1 entries: after the empty entry the counter wraps
    to 0, the same block is read again and again, and the table overflows. *)
Theorem gpt_count_wraps :
  mmc_boot_read_gpt (gpt_card (2 ^ 32 - 1) (gpt_entry_bytes "boot" 40 99)) partition_init = Fault.
Proof. vm_compute. reflexivity. Qed.

(** An entry that held a longer name keeps its tail: a boot partition that takes the
    place of modem_st1 is called "bootm_st1". *)
Theorem mbr_fill_name_keeps_tail :
  match mbr_fill_name false 0 0x4A partition_init with
  | Ok s => match mbr_fill_name false 0 0x48 s with
            | Ok s => c_string ∘ name <$> partition_entries s !! 0%nat
            | _ => None
            end
  | _ => None
  end = Some (bytes_of "bootm_st1").
Proof. vm_compute. reflexivity. Qed.

(** An image of 511 bytes passes the length check, and the check reads its byte 511. *)
Theorem signature_check_past_end :
  partition_verify_mbr_signature 511 (replicate 510 0 ++ [0x55]) = Fault.
Proof. vm_compute. reflexivity. Qed.
