(* ===== verification/Fastboot.v ===== *)
(** The fastboot protocol engine (src/bootable/lk/app/aboot/fastboot.c).

    [fb] holds the static variables of the file.  The USB controller is the list [rx]
    of its answers to the requests to come: what udc_request_queue returned, the status
    that req_complete was called with, and the bytes that arrived; a controller whose
    list is used up refuses every further request.  [tx] are the messages the host has
    received.  The commands that the application registers are the values of a type
    [Cmd], run by [app_handle], on the application's own state [X]; [gone] says that
    such a command has left the loader (a kernel or a reset).

    Strings are lists of bytes without their NUL. *)
From Stdlib Require Import ZArith.
From stdpp Require Import base numbers list strings relations.
From S2P Require Import Prelude Bytes.

Definition MAX_RSP_SIZE : Z := 64.
Definition MAX_USBFS_BULK_SIZE : Z := 16 * 1024.
Definition STATE_OFFLINE : Z := 0.
Definition STATE_COMMAND : Z := 1.
Definition STATE_COMPLETE : Z := 2.
Definition STATE_ERROR : Z := 3.

(** * Hexadecimal numbers *)

(** The value of a digit; the character codes are those of the case labels. *)
Definition hex_digit (c : Z) : option Z :=
  if (48 <=? c) && (c <=? 57) then Some (c - 48)
  else if (97 <=? c) && (c <=? 102) then Some (c - 97 + 10)
  else if (65 <=? c) && (c <=? 70) then Some (c - 65 + 10)
  else None.

Fixpoint hex2unsigned_from (n : Z) (x : list Z) : Z :=
  match x with
  | [] => n
  | c :: x =>
      match hex_digit c with
      | Some v => hex2unsigned_from (Z.lor (u32 (Z.shiftl n 4)) v) x
      | None => n
      end
  end.

Definition hex2unsigned (x : list Z) : Z := hex2unsigned_from 0 x.

(** A digit of [%x], and [%08x]. *)
Definition hex_char (d : Z) : Z := if d <? 10 then 48 + d else 97 + (d - 10).
Definition hex8 (n : Z) : list Z := (λ i, hex_char (Z.land (Z.shiftr n (4 * (7 - Z.of_nat i))) 15)) <$> seq 0 8.

(** * State *)

Record usb_answer := mkAnswer {
  queue_r : Z;        (* the result of udc_request_queue *)
  status : Z;         (* the status of the completed request *)
  payload : list Z;   (* what arrived, for a read *)
}.

Section Fastboot.
Context {Cmd X : Type}.

Inductive handler := H_getvar | H_download | H_app (c : Cmd).

Record fb := mkFb {
  cmdlist : list (list Z * handler);
  varlist : list (list Z * list Z);
  fastboot_state : Z;
  download_max : Z;
  download_size : Z;
  download : buffer;        (* the memory at download_base *)
  cmd_buffer : buffer;      (* buffer[4096] *)
  rx : list usb_answer;
  tx : list (list Z);
  gone : bool;
  app : X;
}.

Definition set_cmdlist v s := mkFb v (varlist s) (fastboot_state s) (download_max s) (download_size s) (download s) (cmd_buffer s) (rx s) (tx s) (gone s) (app s).
Definition set_varlist v s := mkFb (cmdlist s) v (fastboot_state s) (download_max s) (download_size s) (download s) (cmd_buffer s) (rx s) (tx s) (gone s) (app s).
Definition set_state v s := mkFb (cmdlist s) (varlist s) v (download_max s) (download_size s) (download s) (cmd_buffer s) (rx s) (tx s) (gone s) (app s).
Definition set_download_max v s := mkFb (cmdlist s) (varlist s) (fastboot_state s) v (download_size s) (download s) (cmd_buffer s) (rx s) (tx s) (gone s) (app s).
Definition set_download_size v s := mkFb (cmdlist s) (varlist s) (fastboot_state s) (download_max s) v (download s) (cmd_buffer s) (rx s) (tx s) (gone s) (app s).
Definition set_download v s := mkFb (cmdlist s) (varlist s) (fastboot_state s) (download_max s) (download_size s) v (cmd_buffer s) (rx s) (tx s) (gone s) (app s).
Definition set_cmd_buffer v s := mkFb (cmdlist s) (varlist s) (fastboot_state s) (download_max s) (download_size s) (download s) v (rx s) (tx s) (gone s) (app s).
Definition set_usb r t s := mkFb (cmdlist s) (varlist s) (fastboot_state s) (download_max s) (download_size s) (download s) (cmd_buffer s) r t (gone s) (app s).
Definition set_gone v s := mkFb (cmdlist s) (varlist s) (fastboot_state s) (download_max s) (download_size s) (download s) (cmd_buffer s) (rx s) (tx s) v (app s).
Definition set_app v s := mkFb (cmdlist s) (varlist s) (fastboot_state s) (download_max s) (download_size s) (download s) (cmd_buffer s) (rx s) (tx s) (gone s) v.

(** [ok] is whether malloc succeeded. *)
Definition fastboot_register (ok : bool) (prefix : list Z) (h : handler) (s : fb) : fb :=
  if ok then set_cmdlist ((prefix, h) :: cmdlist s) s else s.

Definition fastboot_publish (ok : bool) (name value : list Z) (s : fb) : fb :=
  if ok then set_varlist ((name, value) :: varlist s) s else s.

(** * USB transfers *)

(** The loop of usb_read into [b] at [off]; [None] is the way to [oops].  A request for
    [xfer] bytes never delivers more, and may deliver some before it fails. *)
Fixpoint usb_read_loop (answers : list usb_answer) (b : buffer) (off len count : Z)
    : res (option Z * list usb_answer * buffer) :=
  if 0 <? len then
    let xfer := if MAX_USBFS_BULK_SIZE <? len then MAX_USBFS_BULK_SIZE else len in
    match answers with
    | [] => Ok (None, [], b)
    | a :: answers =>
        if queue_r a <? 0 then Ok (None, answers, b)
        else
          let data := take (Z.to_nat xfer) (payload a) in
          let length := Z.of_nat (length data) in
          b ← store b off data;
          if status a <? 0 then Ok (None, answers, b)
          else if negb (length =? xfer) then Ok (Some (count + length), answers, b)
          else usb_read_loop answers b (off + length) (len - length) (count + length)
    end
  else Ok (Some count, answers, b).

Definition usb_read (b : buffer) (len : Z) (s : fb) : res (Z * buffer * fb) :=
  if fastboot_state s =? STATE_ERROR then Ok (-1, b, set_state STATE_ERROR s)
  else
    '(r, answers, b) ← usb_read_loop (rx s) b 0 len 0;
    let s := set_usb answers (tx s) s in
    match r with
    | Some count => Ok (count, b, s)
    | None => Ok (-1, b, set_state STATE_ERROR s)
    end.

Definition usb_write (buf : list Z) (s : fb) : Z * fb :=
  if fastboot_state s =? STATE_ERROR then (-1, set_state STATE_ERROR s)
  else
    match rx s with
    | [] => (-1, set_state STATE_ERROR s)
    | a :: answers =>
        if (queue_r a <? 0) || (status a <? 0) then (-1, set_state STATE_ERROR (set_usb answers (tx s) s))
        else (Z.of_nat (length buf), set_usb answers (tx s ++ [buf]) s)
    end.

(** * Answers *)

(** [snprintf(response, MAX_RSP_SIZE, ...)] keeps 63 characters. *)
Definition response (msg : list Z) : list Z := take (Z.to_nat (MAX_RSP_SIZE - 1)) msg.

(** A NULL reason is [None]. *)
Definition fastboot_ack (code : string) (reason : option (list Z)) (s : fb) : fb :=
  if negb (fastboot_state s =? STATE_COMMAND) then s
  else (usb_write (response (bytes_of code ++ default [] reason)) (set_state STATE_COMPLETE s)).2.

Definition fastboot_info (reason : option (list Z)) (s : fb) : fb :=
  if negb (fastboot_state s =? STATE_COMMAND) then s
  else
    match reason with
    | None => s
    | Some reason => (usb_write (response (bytes_of "INFO" ++ reason)) s).2
    end.

Definition fastboot_fail (reason : string) (s : fb) : fb := fastboot_ack "FAIL" (Some (bytes_of reason)) s.
Definition fastboot_okay (info : list Z) (s : fb) : fb := fastboot_ack "OKAY" (Some info) s.

(** * The commands of the engine *)

Fixpoint find_var (arg : list Z) (vars : list (list Z * list Z)) : option (list Z) :=
  match vars with
  | [] => None
  | (name, value) :: vars => if bool_decide (name = arg) then Some value else find_var arg vars
  end.

Definition cmd_getvar (arg : list Z) (s : fb) : fb :=
  match find_var arg (varlist s) with
  | Some value => fastboot_okay value s
  | None => fastboot_okay [] s
  end.

(** The part of cmd_download after the DATA answer. *)
Definition download_data (len : Z) (s : fb) : res fb :=
  '(r, b, s) ← usb_read (download s) len s;
  let s := set_download b s in
  if (r <? 0) || negb (u32 r =? len) then Ok (set_state STATE_ERROR s)
  else Ok (fastboot_okay [] (set_download_size len s)).

Definition cmd_download (arg : list Z) (s : fb) : res fb :=
  let len := hex2unsigned arg in
  let s := set_download_size 0 s in
  if download_max s <? len then Ok (fastboot_fail "data too large" s)
  else
    let '(r, s) := usb_write (response (bytes_of "DATA" ++ hex8 len)) s in
    if r <? 0 then Ok s else download_data len s.

(** * The command loop *)

Context (app_handle : Cmd → list Z → fb → res fb).

Definition handle (h : handler) (arg : list Z) (s : fb) : res fb :=
  match h with
  | H_getvar => Ok (cmd_getvar arg s)
  | H_download => cmd_download arg s
  | H_app c => app_handle c arg s
  end.

(** The first registered command whose prefix the buffer starts with. *)
Fixpoint find_cmd (b : buffer) (cmds : list (list Z * handler)) : res (option (list Z * handler)) :=
  match cmds with
  | [] => Ok None
  | (prefix, h) :: cmds =>
      same ← memeq prefix b (length prefix);
      if (same : bool) then Ok (Some (prefix, h)) else find_cmd b cmds
  end.

(** What the loop does with a command in the buffer. *)
Definition dispatch (s : fb) : res fb :=
  c ← find_cmd (cmd_buffer s) (cmdlist s);
  match c with
  | Some (prefix, h) =>
      s ← handle h (c_string (drop (length prefix) (cmd_buffer s))) (set_state STATE_COMMAND s);
      if gone s then Ok s
      else if fastboot_state s =? STATE_COMMAND then Ok (fastboot_fail "unknown reason" s) else Ok s
  | None => Ok (fastboot_fail "unknown command" s)
  end.

Fixpoint command_loop (fuel : nat) (s : fb) : res fb :=
  match fuel with
  | O => Fault
  | S fuel =>
      if fastboot_state s =? STATE_ERROR then Ok (set_state STATE_OFFLINE s)
      else
        '(r, b, s) ← usb_read (cmd_buffer s) MAX_RSP_SIZE s;
        let s := set_cmd_buffer b s in
        if r <? 0 then Ok (set_state STATE_OFFLINE s)
        else
          b ← store (cmd_buffer s) r [0];
          s ← dispatch (set_cmd_buffer b s);
          if gone s then Ok s else command_loop fuel s
  end.

(** Every round uses up an answer of the controller, see [command_loop_ends]. *)
Definition fastboot_command_loop (s : fb) : res fb := command_loop (2 + length (rx s)) s.

(** * Starting *)

(** What fastboot_init obtained from the USB driver and the kernel. *)
Record init_answers := mkInit {
  in_ok : bool; out_ok : bool; req_ok : bool; gadget_ok : bool; malloc_ok : bool; thread_ok : bool;
}.

(** What is still allocated when fastboot_init returns: the endpoints, the request, and
    whether the gadget is registered. *)
Record usb_resources := mkRes { ep_in : bool; ep_out : bool; request : bool; gadget : bool }.

Definition fastboot_init (a : init_answers) (base : buffer) (size : Z) (s : fb) : Z * usb_resources * fb :=
  let s := set_download_max size (set_download base s) in
  if negb (in_ok a) then (-1, mkRes false false false false, s)
  else if negb (out_ok a) then (-1, mkRes false false false false, s)
  else if negb (req_ok a) then (-1, mkRes false false false false, s)
  else if negb (gadget_ok a) then (-1, mkRes false false false false, s)
  else
    let s := fastboot_register (malloc_ok a) (bytes_of "getvar:") H_getvar s in
    let s := fastboot_register (malloc_ok a) (bytes_of "download:") H_download s in
    let s := fastboot_publish (malloc_ok a) (bytes_of "version") (bytes_of "0.5") s in
    if negb (thread_ok a) then (-1, mkRes true true true true, s)
    else (0, mkRes true true true true, s).
End Fastboot.

Arguments handler : clear implicits.
Arguments fb : clear implicits.

(** * Hexadecimal round trip *)

Lemma hex_digit_char d : 0 ≤ d < 16 → hex_digit (hex_char d) = Some d.
Proof.
  intros Hd. unfold hex_char, hex_digit. destruct (Z.ltb_spec d 10).
  - rewrite (proj2 (Z.leb_le _ _)), (proj2 (Z.leb_le _ _)) by lia. cbn. f_equal. lia.
  - rewrite (proj2 (Z.leb_gt (97 + (d - 10)) 57)), andb_false_r by lia.
    rewrite (proj2 (Z.leb_le _ _)), (proj2 (Z.leb_le _ _)) by lia. cbn. f_equal. lia.
Qed.

Lemma nibble_range n k : 0 ≤ Z.land (Z.shiftr n k) 15 < 16.
Proof. change 15 with (Z.ones 4). rewrite Z.land_ones by lia. apply Z.mod_pos_bound. lia. Qed.

Lemma nibble_step n k :
  0 ≤ n < 2 ^ 32 → 0 ≤ k →
  Z.lor (u32 (Z.shiftl (Z.shiftr n (k + 4)) 4)) (Z.land (Z.shiftr n k) 15) = Z.shiftr n k.
Proof.
  intros Hn Hk. assert (0 ≤ Z.shiftl (Z.shiftr n (k + 4)) 4 < 2 ^ 32) as Hr.
  { rewrite Z.shiftl_mul_pow2, Z.shiftr_div_pow2 by lia. rewrite Z.pow_add_r by lia.
    rewrite <- Z.div_div by lia. assert (0 ≤ n / 2 ^ k ≤ n).
    { split; [apply Z.div_pos; lia|]. apply Z.div_le_upper_bound; [lia|]. assert (1 ≤ 2 ^ k) by lia. nia. }
    pose proof (Z.mul_div_le (n / 2 ^ k) (2 ^ 4)). split; [|lia].
    assert (0 ≤ n / 2 ^ k / 2 ^ 4) by (apply Z.div_pos; lia). lia. }
  rewrite u32_small by done. apply Z.bits_inj_iff'. intros i Hi. rewrite Z.lor_spec, Z.land_spec.
  rewrite Z.shiftl_spec by lia. change 15 with (Z.ones 4). destruct (decide (i < 4)).
  - rewrite Z.testbit_neg_r, Z.ones_spec_low by lia. by rewrite andb_true_r.
  - rewrite Z.shiftr_spec, Z.ones_spec_high by lia. rewrite andb_false_r, orb_false_r.
    rewrite Z.shiftr_spec by lia. f_equal. lia.
Qed.

(** the length in a DATA answer reads back as the length: hex2unsigned of the eight
    digits that [%08x] prints is the number itself, for every 32-bit number. *)
Theorem hex_roundtrip n : 0 ≤ n < 2 ^ 32 → hex2unsigned (hex8 n) = n.
Proof.
  intros Hn. unfold hex2unsigned, hex8. cbn [seq fmap list_fmap hex2unsigned_from].
  rewrite !hex_digit_char by apply nibble_range.
  change (4 * (7 - Z.of_nat 0)) with 28. change (4 * (7 - Z.of_nat 1)) with 24.
  change (4 * (7 - Z.of_nat 2)) with 20. change (4 * (7 - Z.of_nat 3)) with 16.
  change (4 * (7 - Z.of_nat 4)) with 12. change (4 * (7 - Z.of_nat 5)) with 8.
  change (4 * (7 - Z.of_nat 6)) with 4. change (4 * (7 - Z.of_nat 7)) with 0.
  assert (Z.shiftr n (28 + 4) = 0) as E by (rewrite Z.shiftr_div_pow2 by lia; by apply Z.div_small).
  pose proof (nibble_step n 28 Hn ltac:(lia)) as H28. rewrite E in H28. rewrite H28.
  do 7 match goal with |- context [Z.lor (u32 (Z.shiftl (Z.shiftr n ?m) 4)) (Z.land (Z.shiftr n ?k) 15)] =>
    change m with (k + 4) at 1; rewrite (nibble_step n k Hn) by lia end.
  apply Z.shiftr_0_r.
Qed.

Lemma hex_roundtrip_witness : hex2unsigned (hex8 0x12ABCDEF) = 0x12ABCDEF.
Proof. apply hex_roundtrip. lia. Defined.

Lemma hex2unsigned_range_from n x : 0 ≤ n < 2 ^ 32 → 0 ≤ hex2unsigned_from n x < 2 ^ 32.
Proof.
  revert n. induction x as [|c x IH]; intros n Hn; cbn [hex2unsigned_from]; [done|].
  destruct (hex_digit c) as [v|] eqn:E; [|done]. apply IH.
  assert (0 ≤ v < 2 ^ 32) as Hv.
  { unfold hex_digit in E. repeat case_match; try done; simplify_eq;
      repeat match goal with H : _ && _ = true |- _ => apply andb_prop in H as [?%Z.leb_le ?%Z.leb_le] end; lia. }
  pose proof (u32_range (Z.shiftl n 4)) as Hu. assert (0 ≤ Z.lor (u32 (Z.shiftl n 4)) v) as H0 by (apply Z.lor_nonneg; lia).
  apply Z.bounded_iff_bits_nonneg'; [lia|done|]. intros l Hl. rewrite Z.lor_spec.
  by rewrite !bits_above_32 by done.
Qed.

Lemma hex2unsigned_range x : 0 ≤ hex2unsigned x < 2 ^ 32.
Proof. by apply hex2unsigned_range_from. Qed.

(** * Every command is answered once *)

(** A final answer is OKAY or FAIL; INFO and DATA are not. *)
Definition is_final (m : list Z) : bool :=
  bool_decide (take 4 m = bytes_of "OKAY") || bool_decide (take 4 m = bytes_of "FAIL").
Definition finals (l : list (list Z)) : nat := length (filter (λ m, is_final m = true) l).

Lemma finals_app l1 l2 : finals (l1 ++ l2) = (finals l1 + finals l2)%nat.
Proof. unfold finals. by rewrite filter_app, length_app. Qed.

Lemma take4_response code msg :
  length (bytes_of code) = 4%nat → take 4 (response (bytes_of code ++ msg)) = bytes_of code.
Proof.
  intros Hc. unfold response. rewrite take_take. change (4 `min` Z.to_nat (MAX_RSP_SIZE - 1))%nat with 4%nat.
  rewrite take_app_le by lia. by rewrite take_ge by lia.
Qed.

Lemma finals_message code msg :
  length (bytes_of code) = 4%nat →
  finals [response (bytes_of code ++ msg)] =
    if bool_decide (bytes_of code = bytes_of "OKAY") || bool_decide (bytes_of code = bytes_of "FAIL") then 1%nat else 0%nat.
Proof.
  intros Hc. unfold finals. rewrite filter_cons, filter_nil. unfold is_final. rewrite take4_response by done.
  by destruct (_ || _).
Qed.

Section Protocol.
Context {Cmd X : Type}.
Notation fbs := (fb Cmd X).
Implicit Types s : fbs.

(** What a command may do with the host, from STATE_COMMAND: it has not answered yet, it
    has given one final answer, or the link has failed. *)
Definition protocol s s' : Prop :=
  ∃ l, tx s' = tx s ++ l ∧
    ((fastboot_state s' = STATE_COMMAND ∧ finals l = 0%nat) ∨
     (fastboot_state s' = STATE_COMPLETE ∧ finals l = 1%nat) ∨
     (fastboot_state s' = STATE_ERROR ∧ (finals l ≤ 1)%nat)).

(** The part of the state that commands leave alone, and the answers they use up. *)
Record engine_kept s s' : Prop := {
  ek_cmds : cmdlist s' = cmdlist s;
  ek_vars : varlist s' = varlist s;
  ek_max : download_max s' = download_max s;
  ek_len : length (download s') = length (download s);
  ek_buf : cmd_buffer s' = cmd_buffer s;
  ek_rx : (length (rx s') ≤ length (rx s))%nat;
}.

#[global] Instance engine_kept_preorder : PreOrder engine_kept.
Proof.
  split; [by intros s; constructor|]. intros s1 s2 s3 [? ? ? ? ? ?] [? ? ? ? ? ?]. constructor; congruence || lia.
Qed.

Lemma protocol_refl s : fastboot_state s = STATE_COMMAND → protocol s s.
Proof. intros Hs. exists []. rewrite app_nil_r. split; [done|]. by left. Qed.

(** Commands that change other parts of the state in between. *)
Lemma protocol_trans s1 s2 s3 :
  protocol s1 s2 → fastboot_state s2 = STATE_COMMAND → protocol s2 s3 → protocol s1 s3.
Proof.
  intros (l1 & E1 & H1) Hc (l2 & E2 & H2). exists (l1 ++ l2). rewrite E2, E1, app_assoc. split; [done|].
  destruct H1 as [[_ Hf]|[[Hs _]|[Hs _]]]; [|by rewrite Hs in Hc..]. rewrite finals_app, Hf. done.
Qed.

Lemma protocol_ext s1 s2 s2' :
  tx s2' = tx s2 → fastboot_state s2' = fastboot_state s2 → protocol s1 s2 → protocol s1 s2'.
Proof. intros Et Es (l & E & Hp). exists l. by rewrite Et, Es. Qed.

(** A message to the host changes nothing else. *)
Record link s s' : Prop := {
  lk_kept : engine_kept s s';
  lk_app : app s' = app s;
  lk_gone : gone s' = gone s;
  lk_size : download_size s' = download_size s;
  lk_area : download s' = download s;
}.

#[global] Instance link_preorder : PreOrder link.
Proof.
  split; [by intros s; constructor|]. intros s1 s2 s3 [K1 ? ? ? ?] [K2 ? ? ? ?].
  constructor; [by etrans|congruence..].
Qed.

Lemma usb_write_spec buf s :
  fastboot_state s ≠ STATE_ERROR →
  link s (usb_write buf s).2 ∧
  ((usb_write buf s).1 = -1 ∧ fastboot_state (usb_write buf s).2 = STATE_ERROR ∧ tx (usb_write buf s).2 = tx s ∨
   (usb_write buf s).1 = Z.of_nat (length buf) ∧ fastboot_state (usb_write buf s).2 = fastboot_state s ∧
     tx (usb_write buf s).2 = tx s ++ [buf]).
Proof.
  intros Hs. unfold usb_write. rewrite (proj2 (Z.eqb_neq _ _)) by done. destruct (rx s) as [|a r] eqn:Er.
  - split; [|by left]. by repeat constructor.
  - case_match; cbn [fst snd]; (split; [|by eauto]).
    all: constructor; [|done..]; constructor; cbn; rewrite ?Er; cbn; try done; lia.
Qed.

(** The final answer. *)
Lemma fastboot_ack_protocol code reason s :
  bytes_of code = bytes_of "OKAY" ∨ bytes_of code = bytes_of "FAIL" →
  fastboot_state s = STATE_COMMAND →
  protocol s (fastboot_ack code reason s) ∧ link s (fastboot_ack code reason s) ∧
  fastboot_state (fastboot_ack code reason s) ≠ STATE_COMMAND.
Proof.
  intros Hc Hs. unfold fastboot_ack. rewrite Hs. change (negb (STATE_COMMAND =? STATE_COMMAND)) with false. cbn iota.
  set (s1 := set_state STATE_COMPLETE s). set (m := response _).
  destruct (usb_write_spec m s1) as (Hk & Hw); [done|].
  assert (finals [m] = 1%nat) as Hm.
  { subst m. rewrite finals_message by (destruct Hc as [-> | ->]; done). by destruct Hc as [-> | ->]. }
  assert (link s s1) by (by repeat constructor). assert (link s (usb_write m s1).2) by (by etrans).
  destruct Hw as [(_ & Es & Et)|(_ & Es & Et)]; rewrite Es; split_and!; try done.
  - exists []. rewrite Et, app_nil_r. split; [done|]. right. right. split; [done|]. cbn. lia.
  - exists [m]. rewrite Et. split; [done|]. right. by left.
Qed.

Lemma fastboot_okay_protocol info s :
  fastboot_state s = STATE_COMMAND → protocol s (fastboot_okay info s) ∧ link s (fastboot_okay info s).
Proof. intros Hs. destruct (fastboot_ack_protocol "OKAY" (Some info) s) as (? & ? & _); auto. Qed.

Lemma fastboot_fail_protocol reason s :
  fastboot_state s = STATE_COMMAND → protocol s (fastboot_fail reason s) ∧ link s (fastboot_fail reason s).
Proof. intros Hs. destruct (fastboot_ack_protocol "FAIL" (Some (bytes_of reason)) s) as (? & ? & _); auto. Qed.

(** A second final answer to the same command is dropped. *)
Lemma fastboot_ack_again code reason s : fastboot_state s ≠ STATE_COMMAND → fastboot_ack code reason s = s.
Proof. intros Hs. unfold fastboot_ack. by rewrite (proj2 (Z.eqb_neq _ _)). Qed.

Lemma fastboot_info_protocol reason s :
  fastboot_state s = STATE_COMMAND → protocol s (fastboot_info reason s) ∧ link s (fastboot_info reason s).
Proof.
  intros Hs. unfold fastboot_info. rewrite Hs. change (negb (STATE_COMMAND =? STATE_COMMAND)) with false. cbn iota.
  destruct reason as [r|]; [|by split; [apply protocol_refl|]]. set (m := response _).
  destruct (usb_write_spec m s) as (Hk & Hw); [by rewrite Hs|]. split; [|done].
  assert (finals [m] = 0%nat) as Hm by (subst m; by rewrite finals_message).
  destruct Hw as [(_ & Es & Et)|(_ & Es & Et)].
  - exists []. rewrite Et, app_nil_r. split; [done|]. right. right. split; [done|]. cbn. lia.
  - exists [m]. rewrite Et, Es. split; [done|]. by left.
Qed.
End Protocol.

(** * Reading *)

(** Any controller: the loop stays within the buffer and uses up answers. *)
Lemma usb_read_loop_ok answers b off len count :
  0 ≤ off → 0 ≤ len → off + len ≤ Z.of_nat (length b) →
  ∃ r answers' b', usb_read_loop answers b off len count = Ok (r, answers', b') ∧
    length b' = length b ∧ (length answers' ≤ length answers)%nat ∧
    (0 < len → r ≠ None → (length answers' < length answers)%nat) ∧
    (∀ i k, i + Z.of_nat k ≤ off ∨ off + len ≤ i → slice b' i k = slice b i k) ∧
    (∀ n, r = Some n → count ≤ n ≤ count + len).
Proof.
  revert b off len count. induction answers as [|a answers IH]; intros b off len count Ho Hl Hb.
  all: cbn [usb_read_loop]; destruct (Z.ltb_spec 0 len) as [Hlt|Hge];
    [|eexists _, _, b; split_and!; [done..|lia|done|intros n [= <-]; lia]].
  { eexists _, _, b. split_and!; done. }
  set (xfer := if MAX_USBFS_BULK_SIZE <? len then _ else _).
  assert (0 < xfer ≤ len) as Hx by (subst xfer; unfold MAX_USBFS_BULK_SIZE; case_match; lia).
  case_match. { eexists _, _, b. split_and!; try done. cbn. lia. }
  set (data := take (Z.to_nat xfer) (payload a)).
  assert (Z.of_nat (length data) ≤ xfer) as Hd by (subst data; rewrite length_take; lia). clearbody data.
  destruct (store b off data) as [b1| |] eqn:Es; [|exfalso; destruct (store_ok b off data b) as [_ _]; revert Es;
    unfold store; rewrite (proj2 (in_range_spec _ _ _)) by lia; done..].
  pose proof (store_length _ _ _ _ Es) as Hl1. cbn [mbind res_bind].
  pose proof (λ i k H, slice_store_other b off data b1 i k Es H) as Hoth.
  case_match. { eexists _, _, b1. split_and!; try done; [cbn; lia|]. intros i k Hik. apply Hoth. lia. }
  destruct (Z.eqb_spec (Z.of_nat (length data)) xfer) as [E|E]; cbn [negb].
  - destruct (IH b1 (off + Z.of_nat (length data)) (len - Z.of_nat (length data)) (count + Z.of_nat (length data)))
      as (r & a' & b' & -> & Hb' & Ha' & _ & Ho' & Hn'); [lia..|].
    eexists _, _, b'. split_and!; [done|lia|cbn; lia|cbn; lia| |].
    + intros i k Hik. rewrite Ho', Hoth by lia. done.
    + intros n Hn. specialize (Hn' n Hn). lia.
  - eexists _, _, b1. split_and!; [done|done|cbn; lia|cbn; lia| |].
    + intros i k Hik. apply Hoth. lia.
    + intros n [= <-]. lia.
Qed.

(** The controller delivers [data], [len] bytes in full packets. *)
Inductive delivers : Z → list usb_answer → list Z → Prop :=
  | delivers_nil : delivers 0 [] []
  | delivers_packet len a answers data :
      0 < len → 0 ≤ queue_r a → 0 ≤ status a →
      Z.of_nat (length (payload a)) = Z.min MAX_USBFS_BULK_SIZE len →
      delivers (len - Z.of_nat (length (payload a))) answers data →
      delivers len (a :: answers) (payload a ++ data).

Lemma delivers_length len answers data : delivers len answers data → len = Z.of_nat (length data).
Proof. induction 1; [done|]. rewrite length_app. lia. Qed.

Lemma store_app b off l1 l2 b1 b2 :
  store b off l1 = Ok b1 → store b1 (off + Z.of_nat (length l1)) l2 = Ok b2 → store b off (l1 ++ l2) = Ok b2.
Proof.
  intros (H0 & H1 & ->)%store_ok (H2 & H3 & ->)%store_ok. apply store_ok.
  rewrite !length_app, length_take, length_drop in H3. rewrite length_app. split_and!; [lia..|].
  assert (take (Z.to_nat off) b ++ l1 ++ drop (Z.to_nat off + length l1) b =
          (take (Z.to_nat off) b ++ l1) ++ drop (Z.to_nat off + length l1) b) as -> by (by rewrite app_assoc).
  assert (Z.to_nat (off + Z.of_nat (length l1)) = length (take (Z.to_nat off) b ++ l1)) as Hl
    by (rewrite length_app, length_take; lia).
  rewrite Hl, take_app_length, drop_app_add, drop_drop, <- !app_assoc.
  by replace (Z.to_nat off + length l1 + length l2)%nat with (Z.to_nat off + (length l1 + length l2))%nat by lia.
Qed.

Lemma usb_read_loop_delivers len answers data rest b off count :
  delivers len answers data → 0 ≤ off → off + len ≤ Z.of_nat (length b) →
  ∃ b', usb_read_loop (answers ++ rest) b off len count = Ok (Some (count + len), rest, b') ∧ store b off data = Ok b'.
Proof.
  intros Hd. revert b off count. induction Hd as [|len a answers data Hlen Hq Hs Hp Hd IH]; intros b off count Ho Hb.
  { exists b. split; [destruct rest; cbn; by rewrite Z.add_0_r|]. apply store_ok. cbn. split_and!; [lia..|].
    by rewrite Nat.add_0_r, take_drop. }
  rewrite <- app_comm_cons. cbn [usb_read_loop]. rewrite (proj2 (Z.ltb_lt _ _)) by done.
  set (xfer := if MAX_USBFS_BULK_SIZE <? len then _ else _).
  assert (xfer = Z.of_nat (length (payload a))) as Ex.
  { subst xfer. destruct (Z.ltb_spec MAX_USBFS_BULK_SIZE len); lia. }
  rewrite (proj2 (Z.ltb_ge _ _)), (proj2 (Z.ltb_ge (status a) _)) by done.
  rewrite Ex, Nat2Z.id, take_ge by lia. clear xfer Ex.
  destruct (store b off (payload a)) as [b1| |] eqn:E1; [|revert E1; unfold store;
    rewrite (proj2 (in_range_spec _ _ _)) by lia; done..].
  cbn [mbind res_bind]. rewrite Z.eqb_refl. cbn [negb]. pose proof (store_length _ _ _ _ E1).
  destruct (IH b1 (off + Z.of_nat (length (payload a))) (count + Z.of_nat (length (payload a)))) as (b' & -> & Hb'); [lia..|].
  exists b'. split; [by replace (count + Z.of_nat (length (payload a)) + (len - Z.of_nat (length (payload a)))) with (count + len) by lia|]. by eapply store_app.
Qed.

Section Engine.
Context {Cmd X : Type}.
Notation fbs := (fb Cmd X).
Implicit Types s : fbs.

(** The static buffers have their sizes, and prefixes are shorter than the command buffer. *)
Record fb_ok s : Prop := {
  ok_buf : length (cmd_buffer s) = 4096%nat;
  ok_max : 0 ≤ download_max s < 2 ^ 31;
  ok_area : download_max s ≤ Z.of_nat (length (download s));
  ok_size : 0 ≤ download_size s ≤ download_max s;
  ok_prefix : Forall (λ c, (length c.1 ≤ 4096)%nat) (cmdlist s);
}.

Lemma fb_ok_kept s s' :
  fb_ok s → engine_kept s s' → 0 ≤ download_size s' ≤ download_max s → fb_ok s'.
Proof. intros [? ? ? ? ?] [E1 E2 E3 E4 E5 E6] ?. constructor; rewrite ?E1, ?E3, ?E4, ?E5; done. Qed.

Lemma fb_ok_link s s' : fb_ok s → link s s' → fb_ok s'.
Proof. intros Hs Hl. apply (fb_ok_kept s); [done|apply Hl|]. rewrite (lk_size _ _ Hl). apply Hs. Qed.

(** Reading into a buffer that is large enough. *)
Lemma usb_read_ok b len s :
  fastboot_state s ≠ STATE_ERROR → 0 ≤ len → len ≤ Z.of_nat (length b) →
  ∃ r b' s', usb_read b len s = Ok (r, b', s') ∧ length b' = length b ∧ link s s' ∧ tx s' = tx s ∧
    (r = -1 ∧ fastboot_state s' = STATE_ERROR ∨
     0 ≤ r ≤ len ∧ fastboot_state s' = fastboot_state s ∧ (0 < len → (length (rx s') < length (rx s))%nat)).
Proof.
  intros Hs Hl Hb. unfold usb_read. rewrite (proj2 (Z.eqb_neq _ _)) by done.
  destruct (usb_read_loop_ok (rx s) b 0 len 0) as (r & a' & b' & -> & Hlb & Ha & Hlt & _ & Hn); [lia..|].
  cbn [mbind res_bind]. destruct r as [n|]; eexists _, b', _; (split_and!; [done|done|by repeat constructor|done..|]).
  - right. specialize (Hn n eq_refl). split_and!; [lia..|done|]. intros. by apply Hlt.
  - by left.
Qed.

(** Once the length has been accepted and announced. *)
Lemma download_data_ok len s :
  fb_ok s → fastboot_state s = STATE_COMMAND → 0 ≤ len ≤ download_max s → download_size s = 0 →
  ∃ s', download_data len s = Ok s' ∧
    fb_ok s' ∧ protocol s s' ∧ engine_kept s s' ∧ app s' = app s ∧ gone s' = gone s.
Proof.
  intros Hok Hs Hl Hz. unfold download_data. destruct (usb_read_ok (download s) len s) as (r & b & s1 & -> & Hb & Hl1 & Ht1 & Hr);
    [by rewrite Hs|lia|pose proof (ok_area _ Hok); lia|].
  cbn [mbind res_bind]. assert (engine_kept s (set_download b s1)) as Hk.
  { destruct (lk_kept _ _ Hl1). constructor; cbn; try done. }
  destruct ((r <? 0) || negb (u32 r =? len)) eqn:E.
  - eexists. split; [done|]. assert (engine_kept s (set_state STATE_ERROR (set_download b s1))) as Hk2 by (destruct Hk; by constructor).
    split_and!; [|by exists []; rewrite app_nil_r; split; [done|right; right; split; [done|cbn; lia]]|done|by destruct Hl1|by destruct Hl1].
    apply (fb_ok_kept s); [done..|]. cbn. rewrite (lk_size _ _ Hl1), Hz. lia.
  - apply orb_false_elim in E as [Hr0%Z.ltb_ge _]. destruct Hr as [[-> _]|(_ & Hs1 & _)]; [lia|].
    set (s2 := set_download_size len (set_download b s1)).
    destruct (fastboot_okay_protocol [] s2) as [Hp Hl2]; [by cbn; rewrite Hs1|].
    eexists. split; [done|]. assert (engine_kept s s2) as Hk2 by (destruct Hk; by constructor).
    assert (fb_ok s2) as Hok2 by (apply (fb_ok_kept s); cbn; [done|done|lia]).
    split_and!; [by eapply fb_ok_link|..].
    + destruct Hp as (l & E & Hp). exists l. split; [|done]. rewrite E. cbn. by rewrite Ht1.
    + etrans; [done|]. apply Hl2.
    + rewrite (lk_app _ _ Hl2). apply Hl1.
    + rewrite (lk_gone _ _ Hl2). apply Hl1.
Qed.

(** A command that announces something first. *)
Lemma protocol_after_data m s0 s1 s2 :
  tx s1 = tx s0 ++ [m] → finals [m] = 0%nat → protocol s1 s2 → protocol s0 s2.
Proof.
  intros Et Hm (l & E & Hp). exists ([m] ++ l). rewrite E, Et, app_assoc. split; [done|].
  by rewrite finals_app, Hm.
Qed.

Lemma cmd_download_ok arg s :
  fb_ok s → fastboot_state s = STATE_COMMAND →
  ∃ s', cmd_download arg s = Ok s' ∧ fb_ok s' ∧ protocol s s' ∧ engine_kept s s' ∧ app s' = app s ∧ gone s' = gone s.
Proof.
  intros Hok Hs. pose proof (hex2unsigned_range arg) as Hr. unfold cmd_download. set (len := hex2unsigned arg) in *.
  clearbody len. set (s0 := set_download_size 0 s).
  assert (engine_kept s s0) as Hk0 by (by constructor).
  assert (fb_ok s0) as Hok0 by (apply (fb_ok_kept s); [done|done|cbn; pose proof (ok_max _ Hok); lia]).
  destruct (Z.ltb_spec (download_max s0) len) as [Hgt|Hle].
  { destruct (fastboot_fail_protocol "data too large" s0) as (Hp & Hl); [done|]. eexists. split; [done|].
    split_and!; [by eapply fb_ok_link|done|etrans; [done|apply Hl]|apply Hl|apply Hl]. }
  destruct (usb_write_spec (response (bytes_of "DATA" ++ hex8 len)) s0) as (Hl1 & Hw); [by cbn; rewrite Hs|].
  destruct (usb_write _ s0) as [r s1]. cbn [fst snd] in *.
  assert (fb_ok s1) as Hok1 by (by eapply fb_ok_link).
  destruct Hw as [(-> & Es & Et)|(-> & Es & Et)].
  - cbn. eexists. split; [done|]. split_and!; [done| |etrans; [done|apply Hl1]|apply Hl1|apply Hl1].
    exists []. rewrite Et, app_nil_r. split; [done|]. right. right. split; [done|]. cbn. lia.
  - rewrite (proj2 (Z.ltb_ge _ _)) by lia.
    destruct (download_data_ok len s1) as (s' & -> & Hok' & Hp & Hk & Ha & Hg);
      [done|by rewrite Es|pose proof (ek_max _ _ (lk_kept _ _ Hl1)); lia|apply Hl1|].
    exists s'. split_and!; [done|done| |etrans; [done|]; etrans; [apply Hl1|done]|rewrite Ha; apply Hl1|rewrite Hg; apply Hl1].
    apply (protocol_after_data (response (bytes_of "DATA" ++ hex8 len)) s s1); [done|by rewrite finals_message|done].
Qed.

(** C35: A download is confined to the download area: whatever length the host asks for
    and whatever the controller delivers, cmd_download ends, never touches memory
    outside the area, records a size of at most download_max, and gives the host at
    most one final answer. *)
Theorem cmd_download_safe arg s :
  fb_ok s → fastboot_state s = STATE_COMMAND →
  ∃ s', cmd_download arg s = Ok s' ∧ 0 ≤ download_size s' ≤ download_max s ∧
    length (download s') = length (download s) ∧ protocol s s'.
Proof.
  intros Hok Hs. destruct (cmd_download_ok arg s Hok Hs) as (s' & -> & Hok' & Hp & Hk & _).
  exists s'. split_and!; [done|apply Hok'|rewrite <- (ek_max _ _ Hk); apply Hok'|apply Hk|done].
Qed.

Definition accepts (a : usb_answer) : Prop := 0 ≤ queue_r a ∧ 0 ≤ status a.

Lemma usb_write_accepted buf s a answers :
  fastboot_state s ≠ STATE_ERROR → rx s = a :: answers → accepts a →
  usb_write buf s = (Z.of_nat (length buf), set_usb answers (tx s ++ [buf]) s).
Proof.
  intros Hs Hr [Hq Ha]. unfold usb_write. rewrite (proj2 (Z.eqb_neq _ _)), Hr by done.
  by rewrite (proj2 (Z.ltb_ge _ _)), (proj2 (Z.ltb_ge _ _)) by done.
Qed.

(** C34: A download that works: the host asks for [len] bytes, no more than fit, and sends
    exactly [data]; then the area begins with exactly [data] and is unchanged behind it,
    download_size is its length, and the host has been sent DATA<len> and OKAY. *)
Theorem cmd_download_stores arg s a1 answers data a2 rest :
  fb_ok s → fastboot_state s = STATE_COMMAND →
  hex2unsigned arg ≤ download_max s → delivers (hex2unsigned arg) answers data →
  rx s = a1 :: answers ++ a2 :: rest → accepts a1 → accepts a2 →
  ∃ s', cmd_download arg s = Ok s' ∧ fastboot_state s' = STATE_COMPLETE ∧
    download s' = data ++ drop (length data) (download s) ∧ download_size s' = Z.of_nat (length data) ∧
    tx s' = tx s ++ [bytes_of "DATA" ++ hex8 (Z.of_nat (length data)); bytes_of "OKAY"].
Proof.
  intros Hok Hs Hle Hd Hr Ha1 Ha2. pose proof (hex2unsigned_range arg) as Hran. unfold cmd_download.
  revert Hran Hle Hd. generalize (hex2unsigned arg) as len. intros len Hran Hle Hd.
  pose proof (delivers_length _ _ _ Hd). subst len. rewrite (proj2 (Z.ltb_ge _ _)) by done.
  rewrite (usb_write_accepted _ _ a1 (answers ++ a2 :: rest)) by (cbn; rewrite ?Hs; done).
  rewrite (proj2 (Z.ltb_ge _ _)) by lia. unfold download_data, usb_read. cbn [fastboot_state set_download_size set_usb rx download].
  rewrite Hs. change (STATE_COMMAND =? STATE_ERROR) with false. cbn iota.
  destruct (usb_read_loop_delivers (Z.of_nat (length data)) answers data (a2 :: rest) (download s) 0 0 Hd) as (b & -> & Hb);
    [lia|pose proof (ok_area _ Hok); lia|].
  cbn [mbind res_bind]. rewrite Z.add_0_l, (proj2 (Z.ltb_ge _ _)) by lia. rewrite u32_small, Z.eqb_refl by lia.
  cbn [orb negb]. unfold fastboot_okay, fastboot_ack. cbn [fastboot_state set_download_size set_download set_usb].
  rewrite Hs. change (negb (STATE_COMMAND =? STATE_COMMAND)) with false. cbn iota.
  rewrite (usb_write_accepted _ _ a2 rest) by (cbn; done). eexists. split; [done|]. cbn [snd fastboot_state set_usb set_state
    download_size set_download_size download tx].
  split_and!; [done| |done|].
  - apply store_ok in Hb as (_ & _ & ->). done.
  - cbn [tx set_usb set_state set_download_size set_download]. rewrite <- app_assoc. reflexivity.
Qed.

(** getvar answers with the value published last under the name, and with an empty
    OKAY for a name that was never published. *)
Theorem cmd_getvar_latest ok name value s :
  cmd_getvar name (fastboot_publish true name value s) = fastboot_okay value (fastboot_publish true name value s) ∧
  (∀ other, other ≠ name →
     find_var other (varlist (fastboot_publish ok name value s)) = find_var other (varlist s)) ∧
  ((∀ v, (name, v) ∉ varlist s) → cmd_getvar name s = fastboot_okay [] s).
Proof.
  split_and!.
  - unfold cmd_getvar. cbn. by rewrite bool_decide_eq_true_2.
  - intros other Ho. destruct ok; cbn; [|done]. by rewrite bool_decide_eq_false_2.
  - intros Hn. unfold cmd_getvar. enough (find_var name (varlist s) = None) as -> by done.
    induction (varlist s) as [|[n v] l IH]; [done|]. cbn. rewrite bool_decide_eq_false_2.
    + apply IH. intros v' Hv'. apply (Hn v'). by right.
    + intros ->. apply (Hn v). by left.
Qed.
End Engine.

(** * The command loop *)

(** What the engine relies on: a command of the application that returns has kept the
    engine's variables and followed the protocol, and when it has left the loader the
    application's state shows it ([departed]).  A command need not return: a wild access or a
    panic in it stops the machine. *)
Class AppContract {Cmd X} (app_handle : Cmd → list Z → fb Cmd X → res (fb Cmd X)) (departed : X → Prop) : Prop :=
  app_kept c arg s s' :
    fb_ok s → fastboot_state s = STATE_COMMAND → gone s = false → app_handle c arg s = Ok s' →
    fb_ok s' ∧ engine_kept s s' ∧ protocol s s' ∧ (gone s' = true → departed (app s')).

Section Loop.
Context {Cmd X : Type} (app_handle : Cmd → list Z → fb Cmd X → res (fb Cmd X)) (departed : X → Prop)
  `{!AppContract app_handle departed}.
Notation fbs := (fb Cmd X).
Implicit Types s : fbs.

(** The commands of the engine itself always return. *)
Lemma engine_command_returns h arg s :
  fb_ok s → fastboot_state s = STATE_COMMAND → (∃ s', handle app_handle h arg s = Ok s') ∨ ∃ c, h = H_app c.
Proof.
  intros Hok Hs. destruct h as [| |c]; cbn [handle]; [left; eauto| |eauto].
  left. destruct (cmd_download_ok arg s Hok Hs) as (s' & -> & _). eauto.
Qed.

Lemma handle_kept h arg s s' :
  fb_ok s → fastboot_state s = STATE_COMMAND → gone s = false → handle app_handle h arg s = Ok s' →
  fb_ok s' ∧ engine_kept s s' ∧ protocol s s' ∧ (gone s' = true → departed (app s')).
Proof.
  intros Hok Hs Hg Hr. destruct h as [| |c]; cbn [handle] in Hr.
  - injection Hr as <-. assert (∀ v, fb_ok (fastboot_okay v s) ∧ engine_kept s (fastboot_okay v s) ∧
      protocol s (fastboot_okay v s) ∧ (gone (fastboot_okay v s) = true → departed (app (fastboot_okay v s)))) as Hv.
    { intros v. destruct (fastboot_okay_protocol v s Hs) as [Hp Hl].
      split_and!; [by eapply fb_ok_link|apply Hl|done|rewrite (lk_gone _ _ Hl), Hg; done]. }
    unfold cmd_getvar. case_match; apply Hv.
  - destruct (cmd_download_ok arg s Hok Hs) as (s1 & E & ? & ? & ? & _ & Hg1). rewrite E in Hr. injection Hr as <-.
    rewrite Hg1, Hg. done.
  - by eapply app_kept.
Qed.

Lemma find_cmd_ok b cmds :
  length b = 4096%nat → Forall (λ c, (length c.1 ≤ 4096)%nat) cmds → ∃ c, @find_cmd Cmd b cmds = Ok c.
Proof.
  intros Hb. induction 1 as [|[p h] cmds Hp Hc IH]; [by eexists|]. cbn [find_cmd].
  destruct (memeq_prefix p b) as (same & -> & _); [cbn in Hp; lia|]. cbn [mbind res_bind].
  destruct same; [by eexists|done].
Qed.

Lemma fb_ok_command s : fb_ok s → fb_ok (set_state STATE_COMMAND s).
Proof. intros []. by constructor. Qed.

(** The argument of a command is what follows its prefix. *)
Definition argument (p : list Z) s : list Z := c_string (drop (length p) (cmd_buffer s)).

(** One command: it returns, or a command of the application has stopped the machine. *)
Lemma dispatch_returns s :
  fb_ok s →
  (∃ s', dispatch app_handle s = Ok s') ∨
  (∃ p c, find_cmd (cmd_buffer s) (cmdlist s) = Ok (Some (p, H_app c)) ∧
     dispatch app_handle s = app_handle c (argument p s) (set_state STATE_COMMAND s) ∧ ∀ s', dispatch app_handle s ≠ Ok s').
Proof.
  intros Hok. unfold dispatch. destruct (find_cmd_ok (cmd_buffer s) (cmdlist s)) as [c Hc]; [apply Hok..|].
  rewrite Hc. cbn [mbind res_bind]. destruct c as [[p h]|]; [|eauto].
  destruct (handle app_handle h _ _) as [s1| |] eqn:E; cbn [mbind res_bind];
    [left; case_match; [|case_match]; eauto|..];
    (destruct (engine_command_returns h (argument p s) (set_state STATE_COMMAND s)) as [[s' E']|[c ->]];
      [by apply fb_ok_command|done|unfold argument in E'; by rewrite E in E'|]);
    right; exists p, c; (split_and!; [done|done|done]).
Qed.

(** Between commands the engine is never in STATE_COMMAND. *)
Lemma dispatch_kept s s' :
  fb_ok s → gone s = false → dispatch app_handle s = Ok s' →
  fb_ok s' ∧ (length (rx s') ≤ length (rx s))%nat ∧ (gone s' = true → departed (app s')) ∧
  (fastboot_state s ≠ STATE_COMMAND → gone s' = false → fastboot_state s' ≠ STATE_COMMAND).
Proof.
  intros Hok Hg. unfold dispatch. destruct (find_cmd _ _) as [[[p h]|]| |]; cbn [mbind res_bind]; try done.
  - intros (s1 & Hr & H)%res_bind_ok. pose proof (fb_ok_command s Hok) as Hok0.
    destruct (handle_kept _ _ _ _ Hok0 eq_refl Hg Hr) as (Hok1 & Hk1 & _ & Hl1). pose proof (ek_rx _ _ Hk1) as Hrx. cbn in Hrx.
    destruct (gone s1) eqn:Eg; [injection H as <-; split_and!; [done|done|auto|congruence]|].
    destruct (Z.eqb_spec (fastboot_state s1) STATE_COMMAND) as [E|E]; injection H as <-; [|by rewrite Eg].
    destruct (fastboot_ack_protocol "FAIL" (Some (bytes_of "unknown reason")) s1) as (_ & Hl2 & Hs2); [by right|done|].
    unfold fastboot_fail. split_and!; [by eapply fb_ok_link| |rewrite (lk_gone _ _ Hl2), Eg; done|done].
    pose proof (ek_rx _ _ (lk_kept _ _ Hl2)). lia.
  - intros [= <-]. unfold fastboot_fail. destruct (decide (fastboot_state s = STATE_COMMAND)) as [E|E].
    + destruct (fastboot_ack_protocol "FAIL" (Some (bytes_of "unknown command")) s) as (_ & Hl & Hs); [by right|done|].
      split_and!; [by eapply fb_ok_link|apply Hl|rewrite (lk_gone _ _ Hl), Hg; done|done].
    + rewrite fastboot_ack_again by done. split_and!; [done|lia|by rewrite Hg|done].
Qed.

(** ** Sessions *)

(** The host's next message has arrived in the buffer, with a zero byte behind it. *)
Definition receives s s' : Prop :=
  ∃ r b s1 b', usb_read (cmd_buffer s) MAX_RSP_SIZE s = Ok (r, b, s1) ∧ 0 ≤ r ∧ store b r [0] = Ok b' ∧ s' = set_cmd_buffer b' s1.

(** One round of the loop, after which it goes on; [rtc round s s'] is that [s'] is the
    state after some commands of the session that starts in [s]. *)
Definition round s s' : Prop :=
  fastboot_state s ≠ STATE_ERROR ∧ ∃ s1, receives s s1 ∧ dispatch app_handle s1 = Ok s' ∧ gone s' = false.

Lemma receives_kept s s' :
  fb_ok s → fastboot_state s ≠ STATE_ERROR → receives s s' →
  fb_ok s' ∧ (length (rx s') < length (rx s))%nat ∧ gone s' = gone s ∧ fastboot_state s' = fastboot_state s ∧ tx s' = tx s.
Proof.
  intros Hok Hs (r & b & s1 & b' & Hr & H0 & Hb' & ->).
  destruct (usb_read_ok (cmd_buffer s) MAX_RSP_SIZE s) as (r' & b1 & s1' & E & Hb & Hl1 & Ht & Hc);
    [done|done|rewrite (ok_buf _ Hok); done|]. rewrite E in Hr. injection Hr as -> -> ->.
  destruct Hc as [[-> _]|(_ & Hs1 & Hlt)]; [lia|]. specialize (Hlt ltac:(done)). split_and!; [|done|apply Hl1|done|done].
  pose proof (fb_ok_link _ _ Hok Hl1) as [H1 H2 H3 H4 H5]. constructor; cbn; [|done..].
  apply store_length in Hb'. rewrite Hb', Hb. apply Hok.
Qed.

Lemma rounds_kept s s' :
  rtc round s s' → fb_ok s → gone s = false → fastboot_state s ≠ STATE_COMMAND →
  fb_ok s' ∧ gone s' = false ∧ fastboot_state s' ≠ STATE_COMMAND.
Proof.
  induction 1 as [|s s1 s' (Hs & s2 & Hr & Hd & Hg1) _ IH]; [done|]. intros Hok Hg Hc.
  destruct (receives_kept s s2 Hok Hs Hr) as (Hok2 & _ & Hg2 & Hs2 & _).
  destruct (dispatch_kept s2 s1) as (Hok1 & _ & _ & Hc1); [done|congruence|done|]. apply IH; [done|done|].
  apply Hc1; [congruence|done].
Qed.

(** The loop: it ends with the link down, or because a command has left the loader, or a
    command of the application stops the machine, and the state it was called in is one
    of the session. *)
Lemma command_loop_ends fuel s :
  fb_ok s → gone s = false → (length (rx s) < fuel)%nat →
  (∃ s', command_loop app_handle fuel s = Ok s' ∧ (gone s' = true ∧ departed (app s') ∨ gone s' = false ∧ fastboot_state s' = STATE_OFFLINE)) ∨
  (∃ s1 s2 p c, rtc round s s1 ∧ receives s1 s2 ∧ find_cmd (cmd_buffer s2) (cmdlist s2) = Ok (Some (p, H_app c)) ∧
     command_loop app_handle fuel s = app_handle c (argument p s2) (set_state STATE_COMMAND s2) ∧
     ∀ s', command_loop app_handle fuel s ≠ Ok s').
Proof.
  revert s. induction fuel as [|fuel IH]; intros s Hok Hg Hf; [lia|]. cbn [command_loop].
  destruct (Z.eqb_spec (fastboot_state s) STATE_ERROR) as [E|E]; [left; eexists; split; [done|by right]|].
  destruct (usb_read_ok (cmd_buffer s) MAX_RSP_SIZE s) as (r & b & s1 & Er & Hb & Hl1 & _ & Hr);
    [done|done|rewrite (ok_buf _ Hok); done|]. pose proof (lk_gone _ _ Hl1) as Hg1.
  rewrite Er. cbn [mbind res_bind]. destruct Hr as [[-> Hs1]|(Hr & Hs1 & _)].
  { cbn. left. eexists. split; [done|]. right. cbn. by rewrite Hg1. }
  rewrite (proj2 (Z.ltb_ge _ _)) by lia. rewrite (ok_buf _ Hok) in Hb. cbn [cmd_buffer set_cmd_buffer].
  destruct (store_in b r [0]) as [b2 Hb2]; [lia|cbn; rewrite Hb; unfold MAX_RSP_SIZE in Hr; lia|].
  rewrite Hb2. cbn [mbind res_bind]. set (s2 := set_cmd_buffer b2 (set_cmd_buffer b s1)).
  assert (receives s s2) as Hrec by (exists r, b, s1, b2; split_and!; [done|lia|done|done]).
  destruct (receives_kept s s2 Hok E Hrec) as (Hok2 & Hlt & Hg2 & _ & _).
  destruct (dispatch_returns s2 Hok2) as [[s3 Hd]|(p & c & Hc & Hd & Hn)].
  - rewrite Hd. cbn [mbind res_bind]. destruct (dispatch_kept s2 s3) as (Hok3 & Hr3 & Hl3 & _); [done|congruence|done|].
    destruct (gone s3) eqn:Eg; [left; exists s3; split; [done|]; left; auto|].
    destruct (IH s3) as [?|(s1' & s2' & p & c & Hrt & ?)]; [done|done|lia|by left|]. right.
    exists s1', s2', p, c. split; [|done]. eapply rtc_l; [|done]. split; [done|]. by exists s2.
  - right. exists s, s2, p, c. split_and!; [done|done|done|..].
    + rewrite <- Hd. destruct (dispatch app_handle s2) as [s3| |]; [by destruct (Hn s3)|done..].
    + intros s' Hs'. apply res_bind_ok in Hs' as (s3 & Hs3 & _). by apply (Hn s3).
Qed.
End Loop.

(** * A session without application commands *)

Module Session.
Definition no_app (c : Empty_set) (arg : list Z) (s : fb Empty_set unit) : res (fb Empty_set unit) := match c with end.

Definition boot_fb : fb Empty_set unit :=
  mkFb [] [] STATE_OFFLINE 0 0 [] (replicate 4096 0) [] [] false ().
Definition started (answers : list usb_answer) : fb Empty_set unit :=
  set_usb answers [] (fastboot_init (mkInit true true true true true true) (replicate 64 0) 64 boot_fb).2.
Definition packet (l : list Z) : usb_answer := mkAnswer 0 0 l.
Definition said (s : string) : usb_answer := packet (bytes_of s).

Lemma init_prefixes : Forall (λ c : list Z * handler Empty_set, (length c.1 ≤ 4096)%nat) (cmdlist (started [])).
Proof. repeat (constructor; [by apply Nat.leb_le|]). constructor. Qed.

Lemma started_ok answers : fb_ok (started answers).
Proof. constructor; [done|done|done|done|apply init_prefixes]. Qed.

(** The host asks for the version, downloads four bytes and unplugs. *)
Definition session : list usb_answer :=
  [said "getvar:version"; packet []; said "download:00000004"; packet []; packet [1; 2; 3; 4]; packet []].

Example session_runs :
  match fastboot_command_loop no_app (started session) with
  | Ok s => Some (tx s, take 5 (download s), download_size s, fastboot_state s)
  | _ => None
  end = Some ([bytes_of "OKAY0.5"; bytes_of "DATA00000004"; bytes_of "OKAY"], [1; 2; 3; 4; 0], 4, STATE_OFFLINE).
Proof. vm_compute. reflexivity. Qed.

Definition commanded (answers : list usb_answer) : fb Empty_set unit := set_state STATE_COMMAND (started answers).

Lemma commanded_ok answers : fb_ok (commanded answers).
Proof. constructor; [done|done|done|done|apply init_prefixes]. Qed.

Lemma cmd_download_safe_witness :
  ∃ s', cmd_download (bytes_of "00000010") (commanded [packet []; packet [1; 2; 3]]) = Ok s' ∧
    0 ≤ download_size s' ≤ download_max (commanded [packet []; packet [1; 2; 3]]) ∧
    length (download s') = length (download (commanded [packet []; packet [1; 2; 3]])) ∧
    protocol (commanded [packet []; packet [1; 2; 3]]) s'.
Proof. apply (cmd_download_safe (bytes_of "00000010") (commanded [packet []; packet [1; 2; 3]])); [apply commanded_ok|done]. Defined.

Definition download_link : list usb_answer := [packet []; packet [1; 2; 3; 4]; packet []].

Lemma cmd_download_stores_witness :
  ∃ s', cmd_download (bytes_of "4") (commanded download_link) = Ok s' ∧ fastboot_state s' = STATE_COMPLETE ∧
    download s' = [1; 2; 3; 4] ++ drop 4 (download (commanded download_link)) ∧ download_size s' = 4 ∧
    tx s' = tx (commanded download_link) ++ [bytes_of "DATA" ++ hex8 4; bytes_of "OKAY"].
Proof.
  apply (cmd_download_stores (bytes_of "4") (commanded download_link) (packet []) [packet [1; 2; 3; 4]] [1; 2; 3; 4] (packet []) []);
    [apply commanded_ok|done|by vm_compute| |done|done|done].
  apply (delivers_packet 4 (packet [1; 2; 3; 4]) [] []); try done. apply delivers_nil.
Defined.
End Session.
