(* ===== verification/BootTags.v ===== *)
(** The ATAG list that boot_linux hands to the kernel
    (src/bootable/lk/app/aboot/aboot.c, boot_linux and ptentry_to_tag).

    [area] is the memory at the tags address; a pointer into it is an offset.  The
    answers of the target (target_is_emmc_boot, target_baseband, ...) are the fields of
    [target]; the words that target_atag_mem writes are its field [atag_mem]. *)
From Stdlib Require Import ZArith.
From stdpp Require Import base numbers list strings.
From S2P Require Import Prelude Bytes.

Definition emmc_cmdline : string := " androidboot.emmc=true".
Definition usb_sn_cmdline : string := " androidboot.serialno=".
Definition battchg_pause : string := " androidboot.mode=charger".
Definition auth_kernel : string := " androidboot.authorized_kernel=true".
Definition boot_up_mode_normal : string := " androidboot.bootupmode=normal".
Definition boot_up_mode_recovery : string := " androidboot.bootupmode=recovery".
Definition reboot_mode_normal : string := " reboot=h".
Definition reboot_mode_recovery : string := " reboot=i".

Inductive baseband_t :=
  BASEBAND_MSM | BASEBAND_APQ | BASEBAND_CSFB | BASEBAND_SVLTE1 | BASEBAND_SVLTE2A | BASEBAND_MDM | BASEBAND_SGLTE |
  BASEBAND_32BITS.

(** The string of the switch; any other baseband adds nothing. *)
Definition baseband_cmdline (b : baseband_t) : option string :=
  match b with
  | BASEBAND_APQ => Some " androidboot.baseband=apq"
  | BASEBAND_MSM => Some " androidboot.baseband=msm"
  | BASEBAND_CSFB => Some " androidboot.baseband=csfb"
  | BASEBAND_SVLTE2A => Some " androidboot.baseband=svlte2a"
  | BASEBAND_MDM => Some " androidboot.baseband=mdm"
  | BASEBAND_SGLTE => Some " androidboot.baseband=sglte"
  | BASEBAND_SVLTE1 | BASEBAND_32BITS => None
  end.

(** [struct ptentry] of the flash partition table *)
Record ptentry := mkPtentry { pt_name : list Z; pt_start : Z; pt_length : Z; pt_flags : Z }.

Record target := mkTarget {
  is_emmc_boot : bool;
  use_signed_kernel : bool;
  pause_for_battery_charge : bool;
  baseband : baseband_t;
  board_machtype : Z;
  atag_mem : list Z;                 (* the words target_atag_mem appends *)
  flash_ptable : option (list ptentry);
}.

(** The variables of aboot.c that boot_linux reads. *)
Record boot_flags := mkFlags { into_recovery : bool; auth_kernel_img : bool; sn_buf : list Z }.

(** * Writing tags *)

Fixpoint put_words (area : buffer) (ptr : Z) (ws : list Z) : res (buffer * Z) :=
  match ws with
  | [] => Ok (area, ptr)
  | w :: ws => area ← PUT_LONG area ptr w; put_words area (ptr + 4) ws
  end.

(** The 28 bytes of a [struct atag_ptbl_entry]: the name cut to 15 characters, the
    start, the length and the flags. *)
Definition atag_ptbl_entry (ptn : ptentry) : list Z :=
  take 15 (pt_name ptn) ++ [0] ++ le_bytes 4 0 (pt_start ptn) ++ le_bytes 4 0 (pt_length ptn) ++ le_bytes 4 0 (pt_flags ptn).

Definition ptentry_to_tag (area : buffer) (ptr : Z) (ptn : ptentry) : res (buffer * Z) :=
  area ← store area ptr (atag_ptbl_entry ptn); Ok (area, ptr + 28).

Fixpoint ptentries_to_tags (area : buffer) (ptr : Z) (ptns : list ptentry) : res (buffer * Z) :=
  match ptns with
  | [] => Ok (area, ptr)
  | p :: ptns => '(area, ptr) ← ptentry_to_tag area ptr p; ptentries_to_tags area ptr ptns
  end.

Definition ATAG_CORE : Z := 0x54410001.
Definition ATAG_INITRD2 : Z := 0x54420005.
Definition ATAG_PTBL : Z := 0x4d534d70.
Definition ATAG_CMDLINE : Z := 0x54410009.

(** * The command line *)

Definition slen (s : string) : Z := Z.of_nat (length (bytes_of s)).

(** The length as the code adds it up; [cmdline] without its NUL, [None] for NULL. *)
Definition cmdline_length (t : target) (f : boot_flags) (cmdline : option (list Z)) : Z :=
  Z.of_nat (length (default [] cmdline)) +
  (if is_emmc_boot t then slen emmc_cmdline else 0) +
  slen usb_sn_cmdline + Z.of_nat (length (sn_buf f)) +
  (if negb (into_recovery f) then slen boot_up_mode_normal + slen reboot_mode_normal
   else slen boot_up_mode_recovery + slen reboot_mode_recovery) +
  (if pause_for_battery_charge t then slen battchg_pause else 0) +
  (if use_signed_kernel t && auth_kernel_img f then slen auth_kernel else 0) +
  match baseband_cmdline (baseband t) with Some s => slen s | None => 0 end.

(** Step back over the NUL when something was copied before, then copy the string with
    its NUL: the copy
    overwrites the NUL of the string before it. *)
Definition append_str (st : buffer * Z * bool) (src : list Z) : res (buffer * Z * bool) :=
  let '(area, dst, have_cmdline) := st in
  let dst := if have_cmdline : bool then dst - 1 else dst in
  area ← store area dst (src ++ [0]);
  Ok (area, dst + Z.of_nat (length src) + 1, true).

Definition append_if (b : bool) (src : list Z) (st : buffer * Z * bool) : res (buffer * Z * bool) :=
  if b then append_str st src else Ok st.

Definition append_opt (o : option string) (st : buffer * Z * bool) : res (buffer * Z * bool) :=
  match o with Some s => append_str st (bytes_of s) | None => Ok st end.

(** The copies, in the order of the code. *)
Definition copy_cmdline (t : target) (f : boot_flags) (cmdline : option (list Z)) (area : buffer) (dst : Z)
    : res buffer :=
  let c := default [] cmdline in
  st ← append_if (negb (bool_decide (c = []))) c (area, dst, false);
  st ← append_if (is_emmc_boot t) (bytes_of emmc_cmdline) st;
  st ← append_str st (bytes_of usb_sn_cmdline);
  st ← append_str st (sn_buf f);
  st ← append_if (pause_for_battery_charge t) (bytes_of battchg_pause) st;
  st ← append_if (use_signed_kernel t && auth_kernel_img f) (bytes_of auth_kernel) st;
  st ← append_opt (baseband_cmdline (baseband t)) st;
  st ← append_str st (bytes_of (if negb (into_recovery f) then boot_up_mode_normal else boot_up_mode_recovery));
  '(area, _, _) ← append_str st (bytes_of (if negb (into_recovery f) then reboot_mode_normal else reboot_mode_recovery));
  Ok area.

(** [n = (cmdline_len + 4) & (~3)] *)
Definition cmdline_space (len : Z) : Z := Z.land (len + 4) (Z.lnot 3).

Definition write_cmdline_tag (t : target) (f : boot_flags) (cmdline : option (list Z)) (area : buffer) (ptr : Z)
    : res (buffer * Z) :=
  let len := cmdline_length t f cmdline in
  if 0 <? len then
    let n := cmdline_space len in
    '(area, ptr) ← put_words area ptr [n / 4 + 2; ATAG_CMDLINE];
    area ← copy_cmdline t f cmdline area ptr;
    Ok (area, ptr + 4 * (n / 4))
  else Ok (area, ptr).

(** The tags up to the command line. *)
Definition write_core_tags (t : target) (ramdisk ramdisk_size : Z) (area : buffer) : res (buffer * Z) :=
  '(area, ptr) ← put_words area 0 [2; ATAG_CORE];
  '(area, ptr) ← (if negb (ramdisk_size =? 0) then put_words area ptr [4; ATAG_INITRD2; ramdisk; ramdisk_size]
                  else Ok (area, ptr));
  '(area, ptr) ← put_words area ptr (atag_mem t);
  if negb (is_emmc_boot t) then
    match flash_ptable t with
    | Some ((_ :: _) as ptable) =>
        '(area, ptr) ← put_words area ptr [2 + Z.of_nat (length ptable) * 7; ATAG_PTBL];
        ptentries_to_tags area ptr ptable
    | _ => Ok (area, ptr)
    end
  else Ok (area, ptr).

(** The jump to the kernel: the address and the three arguments, of which the first one
    is 0, and what the tags point to. *)
Record kernel_entry := mkEntryCall { ke_kernel : Z; ke_zero : Z; ke_machtype : Z; ke_tags : Z; ke_area : buffer }.

Definition boot_linux (t : target) (f : boot_flags) (kernel tags : Z) (cmdline : option (list Z))
    (machtype ramdisk ramdisk_size : Z) (area : buffer) : res kernel_entry :=
  '(area, ptr) ← write_core_tags t ramdisk ramdisk_size area;
  '(area, ptr) ← write_cmdline_tag t f cmdline area ptr;
  '(area, _) ← put_words area ptr [0; 0];
  Ok (mkEntryCall kernel 0 machtype tags area).

(** * What the kernel finds *)

(** [area] holds [bs] at its start and is [a0] behind. *)
Definition written (a0 bs area : buffer) : Prop :=
  area = bs ++ drop (length bs) a0 ∧ (length bs ≤ length a0)%nat.

Lemma written_nil a0 : written a0 [] a0.
Proof. split; [done|cbn; lia]. Qed.

(** Writing at the end, over [x] that is there already. *)
Lemma written_store a0 bs x l area :
  written a0 (bs ++ x) area → (length x ≤ length l)%nat → (length bs + length l ≤ length a0)%nat →
  ∃ area', store area (Z.of_nat (length bs)) l = Ok area' ∧ written a0 (bs ++ l) area'.
Proof.
  intros [-> Hl] Hx Hb. eexists. split.
  - apply store_ok. split_and!; [lia| |reflexivity]. rewrite !length_app, length_drop in *. lia.
  - split; [|rewrite length_app; lia]. rewrite Nat2Z.id, <- !app_assoc, take_app_length.
    rewrite drop_app_add. do 2 f_equal. rewrite !length_app, drop_app_ge, drop_drop by lia. f_equal. lia.
Qed.

Lemma written_append a0 bs l area ptr :
  written a0 bs area → ptr = Z.of_nat (length bs) → (length bs + length l ≤ length a0)%nat →
  ∃ area', store area ptr l = Ok area' ∧ written a0 (bs ++ l) area'.
Proof. intros Hw -> Hl. apply (written_store a0 bs []); [by rewrite app_nil_r|cbn; lia|done]. Qed.

Definition words (ws : list Z) : list Z := ws ≫= le_bytes 4 0.

Lemma length_words ws : length (words ws) = (4 * length ws)%nat.
Proof. induction ws as [|w ws IH]; [done|]. change (words (w :: ws)) with (le_bytes 4 0 w ++ words ws).
  rewrite length_app, length_le_bytes, IH. cbn [length]. lia.
Qed.

Lemma written_words a0 ws bs area ptr :
  written a0 bs area → ptr = Z.of_nat (length bs) → (length bs + 4 * length ws ≤ length a0)%nat →
  ∃ area', put_words area ptr ws = Ok (area', ptr + 4 * Z.of_nat (length ws)) ∧ written a0 (bs ++ words ws) area'.
Proof.
  revert bs area ptr. induction ws as [|w ws IH]; intros bs area ptr Hw Hp Hl; cbn [put_words].
  { exists area. split; [f_equal; f_equal; cbn; lia|]. by rewrite app_nil_r. }
  cbn [length] in Hl. destruct (written_append a0 bs (le_bytes 4 0 w) area ptr) as (a1 & Ha & Hw1);
    [done|done|rewrite length_le_bytes; lia|].
  unfold PUT_LONG. rewrite Ha. cbn [mbind res_bind].
  destruct (IH (bs ++ le_bytes 4 0 w) a1 (ptr + 4)) as (a2 & -> & Hw2);
    [done|rewrite length_app, length_le_bytes; lia|rewrite length_app, length_le_bytes; lia|].
  exists a2. split; [f_equal; f_equal; cbn [length]; lia|].
  change (words (w :: ws)) with (le_bytes 4 0 w ++ words ws). by rewrite app_assoc.
Qed.

Lemma length_atag_ptbl_entry p : (15 ≤ length (pt_name p))%nat → length (atag_ptbl_entry p) = 28%nat.
Proof. intros Hp. unfold atag_ptbl_entry. rewrite !length_app, length_take, !length_le_bytes. change (length [0]) with 1%nat. lia. Qed.

Lemma written_ptentries a0 ps bs area ptr :
  written a0 bs area → ptr = Z.of_nat (length bs) → Forall (λ p, (15 ≤ length (pt_name p))%nat) ps →
  (length bs + 28 * length ps ≤ length a0)%nat →
  ∃ area', ptentries_to_tags area ptr ps = Ok (area', ptr + 28 * Z.of_nat (length ps)) ∧
    written a0 (bs ++ (ps ≫= atag_ptbl_entry)) area'.
Proof.
  intros Hw Hp Hn Hl. revert bs area ptr Hw Hp Hl. induction Hn as [|p ps Hp15 Hn IH]; intros bs area ptr Hw Hp Hl;
    cbn [ptentries_to_tags].
  { exists area. split; [f_equal; f_equal; cbn; lia|]. by rewrite app_nil_r. }
  cbn [length] in Hl. destruct (written_append a0 bs (atag_ptbl_entry p) area ptr) as (a1 & Ha & Hw1);
    [done|done|rewrite length_atag_ptbl_entry by done; lia|].
  unfold ptentry_to_tag. rewrite Ha. cbn [mbind res_bind].
  destruct (IH (bs ++ atag_ptbl_entry p) a1 (ptr + 28)) as (a2 & -> & Hw2);
    [done|rewrite length_app, length_atag_ptbl_entry by done; lia..|].
  exists a2. split; [f_equal; f_equal; cbn [length]; lia|]. cbn [mbind list_bind]. by rewrite app_assoc.
Qed.

(** The command line being built: [text] after [bs], with its NUL once something was copied. *)
Definition building (a0 bs text : buffer) (st : buffer * Z * bool) : Prop :=
  let '(area, dst, have) := st in
  written a0 (bs ++ text ++ (if have : bool then [0] else [])) area ∧
  dst = Z.of_nat (length bs + length text) + (if have then 1 else 0) ∧ (have = false → text = []).

Lemma append_str_building a0 bs text st src :
  building a0 bs text st → (length bs + length text + length src < length a0)%nat →
  ∃ st', append_str st src = Ok st' ∧ building a0 bs (text ++ src) st'.
Proof.
  destruct st as [[area dst] have]. intros (Hw & -> & Hh) Hl. unfold append_str.
  set (d := if have then _ else _). assert (d = Z.of_nat (length (bs ++ text))) as ->
    by (subst d; rewrite length_app; destruct have; lia).
  destruct (written_store a0 (bs ++ text) (if have then [0] else []) (src ++ [0]) area) as (a1 & -> & Hw1);
    [by rewrite <- app_assoc|rewrite length_app; destruct have; cbn; lia|rewrite !length_app; cbn; lia|].
  cbn [mbind res_bind]. eexists. split; [done|]. cbn. split_and!; [|rewrite !length_app; lia|done].
  by rewrite <- !app_assoc in *.
Qed.

Lemma append_if_building a0 bs text st b src :
  building a0 bs text st → (length bs + length text + length (if b : bool then src else []) < length a0)%nat →
  ∃ st', append_if b src st = Ok st' ∧ building a0 bs (text ++ if b then src else []) st'.
Proof.
  intros Hb Hl. destruct b; cbn [append_if]; [by apply append_str_building|]. exists st. by rewrite app_nil_r.
Qed.

Definition opt_bytes (o : option string) : list Z := match o with Some s => bytes_of s | None => [] end.

Lemma append_opt_building a0 bs text st o :
  building a0 bs text st → (length bs + length text + length (opt_bytes o) < length a0)%nat →
  ∃ st', append_opt o st = Ok st' ∧ building a0 bs (text ++ opt_bytes o) st'.
Proof.
  intros Hb Hl. destruct o; cbn [append_opt]; [by apply append_str_building|]. exists st. by rewrite app_nil_r.
Qed.

(** The command line that the pieces make. *)
Definition cmdline_text (t : target) (f : boot_flags) (cmdline : option (list Z)) : list Z :=
  default [] cmdline ++
  (if is_emmc_boot t then bytes_of emmc_cmdline else []) ++
  bytes_of usb_sn_cmdline ++ sn_buf f ++
  (if pause_for_battery_charge t then bytes_of battchg_pause else []) ++
  (if use_signed_kernel t && auth_kernel_img f then bytes_of auth_kernel else []) ++
  opt_bytes (baseband_cmdline (baseband t)) ++
  bytes_of (if negb (into_recovery f) then boot_up_mode_normal else boot_up_mode_recovery) ++
  bytes_of (if negb (into_recovery f) then reboot_mode_normal else reboot_mode_recovery).

(** The two computations agree: the length that was added up is that of the copied text. *)
Lemma cmdline_length_text t f c : cmdline_length t f c = Z.of_nat (length (cmdline_text t f c)).
Proof.
  unfold cmdline_length, cmdline_text, slen. rewrite !length_app, !Nat2Z.inj_add.
  destruct (is_emmc_boot t), (pause_for_battery_charge t), (use_signed_kernel t && auth_kernel_img f),
    (negb (into_recovery f)), (baseband_cmdline (baseband t)); cbn [length opt_bytes]; lia.
Qed.

Lemma cmdline_space_spec len : 0 ≤ len → cmdline_space len = 4 * ((len + 4) / 4).
Proof.
  intros Hl. unfold cmdline_space. rewrite <- Z.ldiff_land. change 3 with (Z.ones 2). rewrite Z.ldiff_ones_r by lia.
  rewrite Z.shiftl_mul_pow2, Z.shiftr_div_pow2 by lia. change (2 ^ 2) with 4. lia.
Qed.

Ltac append_step :=
  match goal with
  | H : building ?a0 ?bs ?text ?st |- context [append_if ?b ?src ?st] =>
      let st' := fresh "st" in let H' := fresh "Hb" in
      destruct (append_if_building a0 bs text st b src H) as (st' & -> & H')
  | H : building ?a0 ?bs ?text ?st |- context [append_opt ?o ?st] =>
      let st' := fresh "st" in let H' := fresh "Hb" in
      destruct (append_opt_building a0 bs text st o H) as (st' & -> & H')
  | H : building ?a0 ?bs ?text ?st |- context [append_str ?st ?src] =>
      let st' := fresh "st" in let H' := fresh "Hb" in
      destruct (append_str_building a0 bs text st src H) as (st' & -> & H')
  end; [repeat rewrite length_app; lia|cbn [mbind res_bind]].

(** Copying stays in the space computed for it. *)
Lemma copy_cmdline_text t f c a0 bs area :
  written a0 bs area → (length bs + length (cmdline_text t f c) < length a0)%nat →
  ∃ area', copy_cmdline t f c area (Z.of_nat (length bs)) = Ok area' ∧
    written a0 (bs ++ cmdline_text t f c ++ [0]) area'.
Proof.
  intros Hw Hl. unfold copy_cmdline. unfold cmdline_text in *. rewrite !length_app in Hl. set (c0 := default [] c) in *.
  assert (building a0 bs [] (area, Z.of_nat (length bs), false)) as Hb.
  { split_and!; [by rewrite !app_nil_r|cbn; lia|done]. }
  assert ((if negb (bool_decide (c0 = [])) then c0 else []) = c0) as Hc by (case_bool_decide as E; cbn; [by rewrite E|done]).
  destruct (append_if_building a0 bs [] _ (negb (bool_decide (c0 = []))) c0 Hb) as (st1 & -> & Hb1);
    [rewrite Hc; cbn [length]; lia|]. cbn [mbind res_bind]. rewrite Hc, app_nil_l in Hb1. clear Hb.
  do 8 append_step. destruct st7 as [[area' d] have]. exists area'. split; [done|].
  match goal with H : building _ _ _ (area', d, have) |- _ => destruct H as (Hw' & _ & Hn) end. destruct have.
  - by rewrite <- !app_assoc in Hw' |- *.
  - specialize (Hn eq_refl). apply app_nil in Hn as [_ Hn]. revert Hn. by destruct (negb (into_recovery f)).
Qed.

(** The tags in front of the command line. *)
Definition ptbl_bytes (t : target) : list Z :=
  if negb (is_emmc_boot t) then
    match flash_ptable t with
    | Some ((_ :: _) as ps) => words [2 + Z.of_nat (length ps) * 7; ATAG_PTBL] ++ (ps ≫= atag_ptbl_entry)
    | _ => []
    end
  else [].

Definition core_bytes (t : target) (ramdisk ramdisk_size : Z) : list Z :=
  words [2; ATAG_CORE] ++
  (if negb (ramdisk_size =? 0) then words [4; ATAG_INITRD2; ramdisk; ramdisk_size] else []) ++
  words (atag_mem t) ++ ptbl_bytes t.

(** The names of the flash partitions fill their arrays. *)
Definition ptable_ok (t : target) : Prop :=
  match flash_ptable t with Some ps => Forall (λ p, length (pt_name p) = 16%nat) ps | None => True end.

Lemma length_ptentries ps :
  Forall (λ p, (15 ≤ length (pt_name p))%nat) ps → length (ps ≫= atag_ptbl_entry) = (28 * length ps)%nat.
Proof.
  induction 1 as [|p ps Hp Hps IH]; [done|]. cbn [mbind list_bind length]. rewrite length_app, length_atag_ptbl_entry by done.
  cbn [mbind] in IH. rewrite IH. lia.
Qed.

#[local] Opaque words le_bytes.

Lemma write_ptbl_bytes t a0 bs area :
  ptable_ok t → written a0 bs area → (length bs + length (ptbl_bytes t) ≤ length a0)%nat →
  ∃ area', (if negb (is_emmc_boot t) then
              match flash_ptable t with
              | Some ((_ :: _) as ptable) =>
                  '(area, ptr) ← put_words area (Z.of_nat (length bs)) [2 + Z.of_nat (length ptable) * 7; ATAG_PTBL];
                  ptentries_to_tags area ptr ptable
              | _ => Ok (area, Z.of_nat (length bs))
              end
            else Ok (area, Z.of_nat (length bs))) = Ok (area', Z.of_nat (length bs + length (ptbl_bytes t))) ∧
    written a0 (bs ++ ptbl_bytes t) area'.
Proof.
  intros Hok Hw Hl. unfold ptable_ok, ptbl_bytes in *.
  destruct (negb (is_emmc_boot t)); [|exists area; by rewrite app_nil_r, Nat.add_0_r].
  destruct (flash_ptable t) as [[|p ps]|]; [exists area; by rewrite app_nil_r, Nat.add_0_r| |exists area; by rewrite app_nil_r, Nat.add_0_r].
  assert (Forall (λ p, (15 ≤ length (pt_name p))%nat) (p :: ps)) as Hp by (eapply Forall_impl; [exact Hok|cbn; lia]).
  set (ps' := p :: ps) in *. rewrite length_app, length_words, length_ptentries in Hl |- * by done. cbn [length] in Hl |- *.
  destruct (written_words a0 [2 + Z.of_nat (length ps') * 7; ATAG_PTBL] bs area (Z.of_nat (length bs))) as (a1 & -> & H1);
    [done|done|cbn [length]; lia|]. cbn [mbind res_bind].
  destruct (written_ptentries a0 ps' _ a1 (Z.of_nat (length bs) + 4 * Z.of_nat 2) H1) as (a2 & E & H2);
    [rewrite length_app, length_words; cbn [length]; lia|done|rewrite length_app, length_words; cbn [length]; lia|].
  exists a2. cbn [length] in *. rewrite E. split; [do 2 f_equal; lia|]. by rewrite <- app_assoc in H2.
Qed.

Lemma write_core_tags_bytes t ramdisk rs a0 :
  ptable_ok t → (length (core_bytes t ramdisk rs) ≤ length a0)%nat →
  ∃ area, write_core_tags t ramdisk rs a0 = Ok (area, Z.of_nat (length (core_bytes t ramdisk rs))) ∧
    written a0 (core_bytes t ramdisk rs) area.
Proof.
  intros Hok Hl. unfold write_core_tags, core_bytes in *.
  set (b1 := words [2; ATAG_CORE]) in *. set (b2 := if negb (rs =? 0) then _ else _) in *.
  set (b3 := words (atag_mem t)) in *. rewrite !length_app in *.
  destruct (written_words a0 [2; ATAG_CORE] [] a0 0) as (a1 & -> & H1);
    [apply written_nil|done|pose proof (length_words [2; ATAG_CORE]); subst b1; cbn [length] in *; lia|].
  cbn [mbind res_bind]. change ([] ++ words [2; ATAG_CORE]) with b1 in H1.
  assert (∃ a2, (if negb (rs =? 0) then put_words a1 (0 + 4 * Z.of_nat 2) [4; ATAG_INITRD2; ramdisk; rs]
                 else Ok (a1, 0 + 4 * Z.of_nat 2)) = Ok (a2, Z.of_nat (length (b1 ++ b2))) ∧ written a0 (b1 ++ b2) a2)
    as (a2 & E2 & H2).
  { subst b2. rewrite length_app. destruct (negb (rs =? 0)); [|exists a1; by rewrite app_nil_r].
    destruct (written_words a0 [4; ATAG_INITRD2; ramdisk; rs] b1 a1 (0 + 4 * Z.of_nat 2)) as (a2 & E & H2);
      [done|done|rewrite length_words in Hl; cbn [length] in *; lia|]. exists a2. split; [|done]. rewrite E, length_words.
    by f_equal. }
  cbn [length] in *. rewrite E2. cbn [mbind res_bind].
  destruct (written_words a0 (atag_mem t) (b1 ++ b2) a2 (Z.of_nat (length (b1 ++ b2)))) as (a3 & -> & H3);
    [done|done|subst b3; rewrite length_words in Hl; rewrite length_app; lia|].
  cbn [mbind res_bind]. rewrite <- app_assoc in H3. fold b3 in H3.
  replace (Z.of_nat (length (b1 ++ b2)) + 4 * Z.of_nat (length (atag_mem t)))
    with (Z.of_nat (length (b1 ++ b2 ++ b3))) by (subst b3; rewrite !length_app, length_words; lia).
  destruct (write_ptbl_bytes t a0 (b1 ++ b2 ++ b3) a3) as (a4 & -> & H4); [done|done|rewrite !length_app; lia|].
  exists a4. split; [|by rewrite <- !app_assoc in H4]. do 2 f_equal. rewrite !length_app. lia.
Qed.

Lemma write_cmdline_tag_bytes t f c a0 bs area :
  let n := cmdline_space (cmdline_length t f c) in
  written a0 bs area → (length bs + 8 + Z.to_nat n ≤ length a0)%nat →
  ∃ area' pad, write_cmdline_tag t f c area (Z.of_nat (length bs)) = Ok (area', Z.of_nat (length bs) + 8 + n) ∧
    written a0 (bs ++ words [n / 4 + 2; ATAG_CMDLINE] ++ cmdline_text t f c ++ [0] ++ pad) area' ∧
    Z.of_nat (length (cmdline_text t f c ++ [0] ++ pad)) = n ∧ (length pad < 4)%nat.
Proof.
  intros n. unfold write_cmdline_tag. fold n. subst n. rewrite cmdline_length_text. set (text := cmdline_text t f c) in *.
  set (n := cmdline_space (Z.of_nat (length text))) in *. intros Hw Hl.
  assert (0 < Z.of_nat (length text)) as H0.
  { subst text. rewrite <- cmdline_length_text. unfold cmdline_length, slen. 
    assert (0 < Z.of_nat (length (bytes_of usb_sn_cmdline))) by done.
    destruct (is_emmc_boot t), (negb (into_recovery f)), (pause_for_battery_charge t),
      (use_signed_kernel t && auth_kernel_img f), (baseband_cmdline (baseband t)); lia. }
  assert (n = 4 * ((Z.of_nat (length text) + 4) / 4)) as En by (subst n; apply cmdline_space_spec; lia).
  rewrite (proj2 (Z.ltb_lt _ _)) by done.
  assert (Z.of_nat (length text) < n ≤ Z.of_nat (length text) + 4) as Hn by (rewrite En; Z.div_mod_to_equations; lia).
  assert (4 * (n / 4) = n) as Hn4 by (rewrite En; Z.div_mod_to_equations; lia). clearbody n.
  destruct (written_words a0 [n / 4 + 2; ATAG_CMDLINE] bs area (Z.of_nat (length bs))) as (a1 & -> & H1);
    [done|done|cbn [length]; lia|]. cbn [mbind res_bind].
  set (bs1 := bs ++ words [n / 4 + 2; ATAG_CMDLINE]) in *.
  assert (length bs1 = (length bs + 8)%nat) as Hb1 by (subst bs1; rewrite length_app, length_words; done).
  replace (Z.of_nat (length bs) + 4 * Z.of_nat (length [n / 4 + 2; ATAG_CMDLINE])) with (Z.of_nat (length bs1))
    by (cbn [length]; lia).
  destruct (copy_cmdline_text t f c a0 bs1 a1) as (a2 & -> & [E2 H2]); [done|fold text; lia|]. cbn [mbind res_bind].
  fold text in E2, H2. set (k := (Z.to_nat n - length text - 1)%nat).
  set (pad := take k (drop (length (bs1 ++ text ++ [0])) a0)). exists a2, pad. rewrite !length_app in H2. cbn [length] in H2.
  assert (length pad = k) as Hk by (subst pad; rewrite length_take, length_drop, !length_app; cbn [length]; lia).
  split_and!; [do 2 f_equal; lia| | |lia].
  - assert (bs ++ words [n / 4 + 2; ATAG_CMDLINE] ++ text ++ [0] ++ pad = (bs1 ++ text ++ [0]) ++ pad) as ->
      by (subst bs1; by rewrite <- !app_assoc).
    assert (drop (length (bs1 ++ text ++ [0])) a0 = pad ++ drop (length ((bs1 ++ text ++ [0]) ++ pad)) a0) as Hd.
    { rewrite (length_app (bs1 ++ text ++ [0])), Hk, <- drop_drop. subst pad. by rewrite take_drop. }
    split; [by rewrite <- app_assoc, <- Hd|rewrite length_app, Hk, !length_app; cbn [length]; lia].
  - rewrite !length_app, Hk. cbn [length]. lia.
Qed.

(** C17: the tag list that boot_linux leaves at the tags address is the one the kernel
    expects, for every command line, serial number, ramdisk, memory layout, partition
    table and mode: CORE, INITRD2, the memory tags, the partition table and a CMDLINE
    tag whose text is exactly the concatenation of the pieces, NUL-terminated inside the
    tag (whose size was computed before the copies), then the empty tag; the registers
    get 0, the machine type and the tags address. *)
Theorem boot_linux_tags t f kernel tags c machtype ramdisk rs a0 :
  let n := cmdline_space (cmdline_length t f c) in
  ptable_ok t → (length (core_bytes t ramdisk rs) + 16 + Z.to_nat n ≤ length a0)%nat →
  ∃ pad rest,
    boot_linux t f kernel tags c machtype ramdisk rs a0 =
      Ok (mkEntryCall kernel 0 machtype tags
            (core_bytes t ramdisk rs ++ words [n / 4 + 2; ATAG_CMDLINE] ++
             (cmdline_text t f c ++ [0] ++ pad) ++ words [0; 0] ++ rest)) ∧
    Z.of_nat (length (cmdline_text t f c ++ [0] ++ pad)) = n ∧ (length pad < 4)%nat.
Proof.
  intros n Hok Hl. unfold boot_linux.
  destruct (write_core_tags_bytes t ramdisk rs a0 Hok) as (a1 & -> & H1); [lia|]. cbn [mbind res_bind].
  destruct (write_cmdline_tag_bytes t f c a0 (core_bytes t ramdisk rs) a1) as (a2 & pad & -> & H2 & Hn & Hp); [done|fold n; lia|].
  cbn [mbind res_bind]. fold n in H2, Hn |- *.
  match type of H2 with written _ ?bs _ => destruct (written_words a0 [0; 0] bs a2
    (Z.of_nat (length (core_bytes t ramdisk rs)) + 8 + n)) as (a3 & -> & H3) end; [done| |cbn [length]|].
  1-2: rewrite !length_app, length_words in *; cbn [length] in *; lia.
  cbn [mbind res_bind]. exists pad. destruct H3 as [-> _]. eexists. split; [|done]. by rewrite <- !app_assoc.
Qed.

#[local] Transparent words le_bytes.

(** A phone that boots from eMMC with 512 MB at 0x200000. *)
Definition phone : target :=
  mkTarget true true false BASEBAND_MSM 3756 [4; 0x54410002; 0x20000000; 0x200000] None.
Definition phone_flags : boot_flags := mkFlags false true (bytes_of "0123456789").
Definition phone_cmdline : option (list Z) := Some (bytes_of "console=null").

Example phone_text :
  cmdline_text phone phone_flags phone_cmdline =
  bytes_of "console=null androidboot.emmc=true androidboot.serialno=0123456789 androidboot.authorized_kernel=true androidboot.baseband=msm androidboot.bootupmode=normal reboot=h".
Proof. reflexivity. Qed.

Lemma boot_linux_tags_witness :
  let n := cmdline_space (cmdline_length phone phone_flags phone_cmdline) in
  ∃ pad rest,
    boot_linux phone phone_flags 0x208000 0x200100 phone_cmdline 3756 0x1200000 100 (replicate 512 0) =
      Ok (mkEntryCall 0x208000 0 3756 0x200100
            (core_bytes phone 0x1200000 100 ++ words [n / 4 + 2; ATAG_CMDLINE] ++
             (cmdline_text phone phone_flags phone_cmdline ++ [0] ++ pad) ++ words [0; 0] ++ rest)) ∧
    Z.of_nat (length (cmdline_text phone phone_flags phone_cmdline ++ [0] ++ pad)) = n ∧ (length pad < 4)%nat.
Proof.
  apply (boot_linux_tags phone phone_flags 0x208000 0x200100 phone_cmdline 3756 0x1200000 100 (replicate 512 0)); [done|].
  apply Nat.leb_le. vm_compute. reflexivity.
Defined.
