(* ===== verification/Aboot.v ===== *)
(** The Android boot loader on an eMMC phone (src/bootable/lk/app/aboot/aboot.c and the
    eMMC half of recovery.c): the device information (unlocked, tampered) kept at the
    end of the "aboot" partition, the recovery message in "misc", and loading,
    authenticating and starting the kernel from the "boot" or "recovery" partition.

    [aboot] holds the variables of the file and of the components below it (the card and
    the partition table).  Memory outside the loader's own buffers is seen through the
    copies made to it, in order ([loads]); [kernel] is set when control has gone to a
    kernel, [reset] when it has gone to reboot_device.  What other code provides is
    [machine]: the target's answers, the memory of the unified boot header, the
    signature check, and the boot information in shared memory. *)
From Stdlib Require Import ZArith.
From stdpp Require Import base numbers list strings.
From S2P Require Import Prelude Bytes Mmc Partition BootTags.

Definition BOOT_MAGIC : string := "ANDROID!".
Definition DEFAULT_CMDLINE : string := "mem=100M console=null".
Definition DEVICE_MAGIC : string := "ANDROID-BOOT!".
Definition RECOVERY_MODE : Z := 0x77665502.
Definition FASTBOOT_MODE : Z := 0x77665500.

(** [device_info]: the magic and two bools, 15 bytes. *)
Record device_info := mkDevice { dev_magic : list Z; is_unlocked : Z; is_tampered : Z }.

Definition device_bytes (dev : device_info) : list Z := dev_magic dev ++ [is_unlocked dev; is_tampered dev].
Definition initial_device : device_info := mkDevice (bytes_of DEVICE_MAGIC) 0 0.

Record machine := mkMachine {
  m_target : target;
  uhdr : buffer;                          (* the memory at EMMC_BOOT_IMG_HEADER_ADDR *)
  image_verify : list Z → list Z → Z;     (* image, signature *)
  tags_area : Z → buffer;                 (* the memory at a tags address *)
  update_status : option Z;               (* get_boot_info_apps(UPDATE_STATUS); None: it failed *)
  stack_junk : list Z;                    (* what an uninitialised local array holds *)
}.

Record aboot (D : Type) := mkAboot {
  card : D;
  table : pstate;
  device : device_info;
  auth_img : Z;                           (* auth_kernel_img *)
  page_size : Z;
  page_mask : Z;
  boot_into_recovery : bool;
  buf : buffer;                           (* buf[4096] *)
  info_buf : buffer;                      (* info_buf[4096] *)
  serial : list Z;                        (* sn_buf[13] *)
  loads : list (Z * list Z);
  kernel : option kernel_entry;
  reset : option Z;
}.
Arguments mkAboot {_}.
Arguments card {_}. Arguments table {_}. Arguments device {_}. Arguments auth_img {_}.
Arguments page_size {_}. Arguments page_mask {_}. Arguments boot_into_recovery {_}. Arguments buf {_}.
Arguments info_buf {_}. Arguments serial {_}. Arguments loads {_}. Arguments kernel {_}. Arguments reset {_}.

Section Setters.
Context {D : Type}.
Implicit Types s : aboot D.
Definition set_card v (s : aboot D) : aboot D := mkAboot v (table s) (device s) (auth_img s) (page_size s) (page_mask s) (boot_into_recovery s) (buf s) (info_buf s) (serial s) (loads s) (kernel s) (reset s).
Definition set_table v (s : aboot D) : aboot D := mkAboot (card s) v (device s) (auth_img s) (page_size s) (page_mask s) (boot_into_recovery s) (buf s) (info_buf s) (serial s) (loads s) (kernel s) (reset s).
Definition set_device v (s : aboot D) : aboot D := mkAboot (card s) (table s) v (auth_img s) (page_size s) (page_mask s) (boot_into_recovery s) (buf s) (info_buf s) (serial s) (loads s) (kernel s) (reset s).
Definition set_auth v (s : aboot D) : aboot D := mkAboot (card s) (table s) (device s) v (page_size s) (page_mask s) (boot_into_recovery s) (buf s) (info_buf s) (serial s) (loads s) (kernel s) (reset s).
Definition set_page v (s : aboot D) : aboot D := mkAboot (card s) (table s) (device s) (auth_img s) v (u32 (v - 1)) (boot_into_recovery s) (buf s) (info_buf s) (serial s) (loads s) (kernel s) (reset s).
Definition set_recovery v (s : aboot D) : aboot D := mkAboot (card s) (table s) (device s) (auth_img s) (page_size s) (page_mask s) v (buf s) (info_buf s) (serial s) (loads s) (kernel s) (reset s).
Definition set_buf v (s : aboot D) : aboot D := mkAboot (card s) (table s) (device s) (auth_img s) (page_size s) (page_mask s) (boot_into_recovery s) v (info_buf s) (serial s) (loads s) (kernel s) (reset s).
Definition set_info_buf v (s : aboot D) : aboot D := mkAboot (card s) (table s) (device s) (auth_img s) (page_size s) (page_mask s) (boot_into_recovery s) (buf s) v (serial s) (loads s) (kernel s) (reset s).
Definition set_serial v (s : aboot D) : aboot D := mkAboot (card s) (table s) (device s) (auth_img s) (page_size s) (page_mask s) (boot_into_recovery s) (buf s) (info_buf s) v (loads s) (kernel s) (reset s).
Definition add_load a bs (s : aboot D) : aboot D := mkAboot (card s) (table s) (device s) (auth_img s) (page_size s) (page_mask s) (boot_into_recovery s) (buf s) (info_buf s) (serial s) (loads s ++ [(a, bs)]) (kernel s) (reset s).
Definition set_kernel v (s : aboot D) : aboot D := mkAboot (card s) (table s) (device s) (auth_img s) (page_size s) (page_mask s) (boot_into_recovery s) (buf s) (info_buf s) (serial s) (loads s) (Some v) (reset s).
Definition set_reset v (s : aboot D) : aboot D := mkAboot (card s) (table s) (device s) (auth_img s) (page_size s) (page_mask s) (boot_into_recovery s) (buf s) (info_buf s) (serial s) (loads s) (kernel s) (Some v).
End Setters.

Definition set_tampered (v : Z) (dev : device_info) : device_info := mkDevice (dev_magic dev) (is_unlocked dev) v.
Definition set_unlocked (v : Z) (dev : device_info) : device_info := mkDevice (dev_magic dev) v (is_tampered dev).

(** The string at an offset of a buffer; running over its end is a fault. *)
Definition c_str (b : buffer) : res (list Z) := _ ← strlen b; Ok (c_string b).

Section Aboot.
Context {D : Type} `{BlockDevice D} (m : machine).
Implicit Types s : aboot D.

(** [mmc_read(addr, b + off, n)]; a read that fails may have filled the buffer. *)
Definition mmc_read_at (addr : Z) (b : buffer) (off n : Z) (d : D) : res (Z * buffer) :=
  let '(ret, data) := mmc_read (u64 addr) (Z.to_nat n) d in
  b ← store b off data; Ok (ret, b).

(** The index and the start of a partition. *)
Definition find_partition (nm : list Z) (t : pstate) : res (Z * Z) :=
  index ← partition_get_index nm t;
  ptn ← partition_get_offset index t;
  Ok (index, ptn).

(** * Device information *)

Definition write_device_info_mmc (dev : device_info) (s : aboot D) : res (aboot D) :=
  '(index, ptn) ← find_partition (bytes_of "aboot") (table s);
  if ptn =? 0 then Ok s
  else
    size ← partition_get_size index (table s);
    info ← store (info_buf s) 0 (device_bytes dev);
    let s := set_info_buf info s in
    '(_, d) ← mmc_write (u64 (ptn + size - 512)) 512 (info_buf s) 0 (card s);
    Ok (set_card d s).

(** The device information as it is in info_buf. *)
Definition info_device (info : buffer) : res device_info :=
  mg ← slice info 0 13; u ← byte_at info 13; t ← byte_at info 14; Ok (mkDevice mg u t).

(** The new value of [*dev] is the device of the state; nothing is changed on the early returns. *)
Definition read_device_info_mmc (s : aboot D) : res (aboot D) :=
  '(index, ptn) ← find_partition (bytes_of "aboot") (table s);
  if ptn =? 0 then Ok s
  else
    size ← partition_get_size index (table s);
    '(ret, info) ← mmc_read_at (ptn + size - 512) (info_buf s) 0 512 (card s);
    let s := set_info_buf info s in
    if negb (ret =? 0) then Ok s
    else
      dev ← info_device (info_buf s);
      if bool_decide (dev_magic dev = bytes_of DEVICE_MAGIC) then Ok (set_device dev s)
      else
        let dev := initial_device in
        s ← write_device_info_mmc dev s;
        dev ← info_device (info_buf s);
        Ok (set_device dev s).

Definition reset_device_info (s : aboot D) : res (aboot D) :=
  let dev := set_tampered 0 (device s) in write_device_info_mmc dev (set_device dev s).

Definition set_device_root (s : aboot D) : res (aboot D) :=
  let dev := set_tampered 1 (device s) in write_device_info_mmc dev (set_device dev s).

(** * The recovery message in the misc partition *)

Record recovery_message := mkMsg { command : list Z; msg_status : list Z; recovery : list Z }.

Definition msg_bytes (msg : recovery_message) : list Z := command msg ++ msg_status msg ++ recovery msg.

(** [ROUND_TO_PAGE(sizeof(struct recovery_message), 511)] *)
Definition MSG_SIZE : Z := 1088.
Definition MSG_SPACE : Z := ROUND_TO_PAGE MSG_SIZE 511.

Definition emmc_set_recovery_msg (msg : recovery_message) (s : aboot D) : res (Z * aboot D) :=
  '(_, ptn) ← find_partition (bytes_of "misc") (table s);
  if ptn =? 0 then Ok (-1, s)
  else
    let data := msg_bytes msg ++ stack_junk m in
    '(ret, d) ← mmc_write ptn MSG_SPACE data 0 (card s);
    Ok (if negb (ret =? 0) then -1 else 0, set_card d s).

Definition emmc_get_recovery_msg (s : aboot D) : res (option recovery_message) :=
  '(_, ptn) ← find_partition (bytes_of "misc") (table s);
  if ptn =? 0 then Ok None
  else
    let '(ret, data) := mmc_read ptn (Z.to_nat MSG_SPACE) (card s) in
    if negb (ret =? 0) then Ok None
    else
      c ← slice data 0 32; st ← slice data 32 32; r ← slice data 64 1024;
      Ok (Some (mkMsg c st r)).

(** [strcmp(name, msg.command) == 0]; the last byte of the command is NUL by then. *)
Definition is_command (name : string) (msg : recovery_message) : bool :=
  bool_decide (c_string (command msg) = bytes_of name).

Definition _emmc_recovery_init (s : aboot D) : res (Z * aboot D) :=
  msg ← emmc_get_recovery_msg s;
  match msg with
  | None => Ok (-1, s)
  | Some msg =>
      let msg := mkMsg (take 31 (command msg) ++ [0]) (msg_status msg) (recovery msg) in
      let '(msg, s) :=
        if is_command "update-radio" msg then
          let ok := match update_status m with Some st => Z.testbit st 0 | None => false end in
          (mkMsg (command msg)
             (strlcpy_to (msg_status msg) (bytes_of (if ok then "OKAY" else "failed-update"))) (recovery msg),
           set_recovery true s)
        else (msg, s) in
      s ← (if is_command "reset-device-info" msg then reset_device_info s else Ok s);
      if is_command "root-detect" msg then
        s ← set_device_root s;
        let msg := mkMsg (strlcpy_to (command msg) []) (msg_status msg) (recovery msg) in
        '(_, s) ← emmc_set_recovery_msg msg s;
        Ok (0, s)
      else Ok (0, s)
  end.

(** * Booting *)

(** [struct boot_img_hdr] in a buffer *)
Definition hdr_magic (b : buffer) : res (list Z) := slice b 0 8.
Definition hdr_kernel_size (b : buffer) : res Z := GET_LWORD_FROM_BYTE b 8.
Definition hdr_kernel_addr (b : buffer) : res Z := GET_LWORD_FROM_BYTE b 12.
Definition hdr_ramdisk_size (b : buffer) : res Z := GET_LWORD_FROM_BYTE b 16.
Definition hdr_ramdisk_addr (b : buffer) : res Z := GET_LWORD_FROM_BYTE b 20.
Definition hdr_tags_addr (b : buffer) : res Z := GET_LWORD_FROM_BYTE b 32.
Definition hdr_page_size (b : buffer) : res Z := GET_LWORD_FROM_BYTE b 36.
Definition HDR_CMDLINE : Z := 64.
Definition HDR_SIZE : Z := 608.

Definition boot_flags_of (s : aboot D) : res boot_flags :=
  sn ← c_str (serial s); Ok (mkFlags (boot_into_recovery s) (negb (auth_img s =? 0)) sn).

(** From unified_boot on: the header's command line or the default one, and the jump. *)
Definition boot_from_header (hdr : buffer) (s : aboot D) : res (aboot D) :=
  c0 ← byte_at hdr HDR_CMDLINE;
  cmdline ← (if negb (c0 =? 0) then c_str (drop (Z.to_nat HDR_CMDLINE) hdr) else Ok (bytes_of DEFAULT_CMDLINE));
  ka ← hdr_kernel_addr hdr; ta ← hdr_tags_addr hdr; ra ← hdr_ramdisk_addr hdr; rs ← hdr_ramdisk_size hdr;
  f ← boot_flags_of s;
  k ← boot_linux (m_target m) f ka ta (Some cmdline) (board_machtype (m_target m)) ra rs (tags_area m ta);
  Ok (set_kernel k s).

(** The branch that authenticates the image in the scratch memory; [None] is [return -1]. *)
Definition load_signed (ptn : Z) (scratch : buffer) (s : aboot D) : res (bool * aboot D * buffer) :=
  ks ← hdr_kernel_size (buf s); rs ← hdr_ramdisk_size (buf s);
  let kernel_actual := ROUND_TO_PAGE ks (page_mask s) in
  let ramdisk_actual := ROUND_TO_PAGE rs (page_mask s) in
  let imagesize_actual := u32 (page_size s + kernel_actual + ramdisk_actual) in
  let s := set_device (set_tampered 1 (device s)) s in
  '(ret, scratch) ← mmc_read_at ptn scratch 0 imagesize_actual (card s);
  if negb (ret =? 0) then Ok (false, s, scratch)
  else
    '(ret, scratch) ← mmc_read_at (ptn + imagesize_actual) scratch imagesize_actual (page_size s) (card s);
    s ← (if negb (ret =? 0) then Ok s
         else
           image ← slice scratch 0 (Z.to_nat imagesize_actual);
           sig ← slice scratch imagesize_actual (Z.to_nat (page_size s));
           let auth := image_verify m image sig in
           let s := set_auth auth s in
           Ok (if negb (auth =? 0) then set_device (set_tampered 0 (device s)) s else s));
    ka ← hdr_kernel_addr (buf s); ra ← hdr_ramdisk_addr (buf s);
    kb ← slice scratch (page_size s) (Z.to_nat ks);
    rb ← slice scratch (u32 (page_size s + kernel_actual)) (Z.to_nat rs);
    let s := add_load ra rb (add_load ka kb s) in
    s ← (if negb (is_tampered (device s) =? 0) then write_device_info_mmc (device s) s else Ok s);
    Ok (true, s, scratch).

(** The branch that loads kernel and ramdisk directly. *)
Definition load_plain (ptn : Z) (s : aboot D) : res (bool * aboot D) :=
  ks ← hdr_kernel_size (buf s); rs ← hdr_ramdisk_size (buf s);
  ka ← hdr_kernel_addr (buf s); ra ← hdr_ramdisk_addr (buf s);
  let offset := page_size s in
  let n := ROUND_TO_PAGE ks (page_mask s) in
  let '(ret, kb) := mmc_read (u64 (ptn + offset)) (Z.to_nat n) (card s) in
  let s := add_load ka kb s in
  if negb (ret =? 0) then Ok (false, s)
  else
    let offset := u32 (offset + n) in
    let n := ROUND_TO_PAGE rs (page_mask s) in
    if negb (n =? 0) then
      let '(ret, rb) := mmc_read (u64 (ptn + offset)) (Z.to_nat n) (card s) in
      let s := add_load ra rb s in
      Ok (ret =? 0, s)
    else Ok (true, s).

Definition boot_linux_from_mmc (scratch : buffer) (s : aboot D) : res (Z * aboot D * buffer) :=
  um ← hdr_magic (uhdr m);
  if bool_decide (um = bytes_of BOOT_MAGIC) then
    s ← boot_from_header (uhdr m) s; Ok (0, s, scratch)
  else
    '(_, ptn) ← find_partition (bytes_of (if boot_into_recovery s then "recovery" else "boot")) (table s);
    if ptn =? 0 then Ok (-1, s, scratch)
    else
      '(ret, b) ← mmc_read_at ptn (buf s) 0 (page_size s) (card s);
      let s := set_buf b s in
      if negb (ret =? 0) then Ok (-1, s, scratch)
      else
        mg ← hdr_magic (buf s);
        if negb (bool_decide (mg = bytes_of BOOT_MAGIC)) then Ok (-1, s, scratch)
        else
          hps ← hdr_page_size (buf s);
          let s := if negb (hps =? 0) && negb (hps =? page_size s) then set_page hps s else s in
          '(ok, s, scratch) ←
            (if use_signed_kernel (m_target m) && (is_unlocked (device s) =? 0) && (is_tampered (device s) =? 0)
             then load_signed ptn scratch s
             else '(ok, s) ← load_plain ptn s; Ok (ok, s, scratch));
          if negb (ok : bool) then Ok (-1, s, scratch)
          else s ← boot_from_header (buf s) s; Ok (0, s, scratch).
End Aboot.

(** * Device information survives a round trip *)

Section DeviceInfo.
Context {D : Type} `{BlockDevice D} `{!BlockDeviceLaws D} `{!BlockStore D} (m : machine).
Implicit Types s : aboot D.

(** The partition table has the partition, at [ptn], with [size] bytes. *)
Record partition_at (t : pstate) (nm : list Z) (ptn size : Z) : Prop := {
  pa_index : ∃ index, partition_get_index nm t = Ok index ∧ partition_get_offset index t = Ok ptn ∧
               partition_get_size index t = Ok size;
  pa_start : ptn ≠ 0;
}.

(** The loader's own buffers have their sizes and hold bytes. *)
Record buffers_ok s : Prop := {
  bo_info : length (info_buf s) = 4096%nat;
  bo_bytes : Forall is_byte (info_buf s);
}.

Definition device_ok (dev : device_info) : Prop :=
  dev_magic dev = bytes_of DEVICE_MAGIC ∧ is_byte (is_unlocked dev) ∧ is_byte (is_tampered dev).

(** Every write of the last sector of the partition succeeds. *)
Definition info_writable (d : D) (ptn size : Z) : Prop :=
  ∀ bs, length bs = 512%nat → (write_to_card d (u64 (ptn + size - 512)) bs).1 = 0.

Lemma u64_idem x : u64 (u64 x) = u64 x.
Proof. unfold u64. by rewrite Z.mod_mod. Qed.

Lemma device_bytes_ok dev : device_ok dev → length (device_bytes dev) = 15%nat ∧ Forall is_byte (device_bytes dev).
Proof.
  intros (Em & Hu & Ht). unfold device_bytes. rewrite Em. split; [reflexivity|].
  apply Forall_app. split; [|by apply Forall_cons; split; [|apply Forall_singleton]].
  apply (bool_decide_unpack _). by vm_compute.
Qed.

(** What a write leaves: info_buf starts with the device, and so does the sector. *)
Lemma write_device_info_ok dev s ptn size :
  device_ok dev → buffers_ok s → partition_at (table s) (bytes_of "aboot") ptn size → info_writable (card s) ptn size →
  ∃ d' info, write_device_info_mmc dev s = Ok (set_card d' (set_info_buf info s)) ∧
    info = device_bytes dev ++ drop 15 (info_buf s) ∧
    read_from_card d' (u64 (ptn + size - 512)) 512 = (0, take 512 info).
Proof.
  intros Hd [Hl Hb] [(index & E1 & E2 & E3) Hp] Hw. destruct (device_bytes_ok dev Hd) as [Hdl Hdb].
  unfold write_device_info_mmc, find_partition. rewrite E1. cbn [mbind res_bind]. rewrite E2. cbn [mbind res_bind].
  rewrite (proj2 (Z.eqb_neq _ _)), E3 by done. cbn [mbind res_bind].
  destruct (store_in (info_buf s) 0 (device_bytes dev)) as [info Hi]; [done|lia|]. rewrite Hi. cbn [mbind res_bind].
  pose proof (store_length _ _ _ _ Hi) as Hil. apply store_ok in Hi as (_ & _ & Ei). rewrite Hdl in Ei.
  change (Z.to_nat 0 + 15)%nat with 15%nat in Ei. change (take (Z.to_nat 0) (info_buf s)) with (@nil Z) in Ei. rewrite app_nil_l in Ei.
  rewrite mmc_write_one by done. cbn [info_buf set_info_buf card].
  rewrite (proj2 (slice_ok info 0 (Z.to_nat 512) (take 512 info))) by (rewrite Hil, Hl; split_and!; [lia|lia|done]).
  cbn [mbind res_bind]. rewrite u64_idem.
  assert (length (take 512 info) = 512%nat) as H512 by (rewrite length_take; lia).
  specialize (Hw (take 512 info) H512). destruct (write_to_card (card s) _ _) as [r d'] eqn:Ew. cbn in Hw. subst r.
  exists d', info. split_and!; [done|done|]. rewrite <- H512 at 1. apply (read_written (card s)); [|done].
  rewrite Ei. apply Forall_take, Forall_app. split; [done|]. by apply Forall_drop.
Qed.

Lemma info_device_bytes dev rest : length (dev_magic dev) = 13%nat → info_device (device_bytes dev ++ rest) = Ok dev.
Proof.
  intros Hm. unfold info_device, device_bytes, byte_at. destruct dev as [mg u t]. cbn [dev_magic is_unlocked is_tampered] in *.
  rewrite <- app_assoc. pose proof (slice_mid [] mg ([u; t] ++ rest) 0 13 eq_refl (eq_sym Hm)) as E. rewrite app_nil_l in E. rewrite E.
  cbn [mbind res_bind].
  change (mg ++ [u; t] ++ rest) with (mg ++ [u] ++ [t] ++ rest).
  rewrite (slice_mid mg [u] ([t] ++ rest) 13 1) by (rewrite ?Hm; done). cbn [mbind res_bind head deref]. rewrite app_assoc.
  rewrite (slice_mid (mg ++ [u]) [t] rest 14 1) by (rewrite ?length_app, ?Hm; done). reflexivity.
Qed.

(** Reading a sector that holds a device. *)
Lemma read_device_info_ok dev s ptn size info :
  device_ok dev → partition_at (table s) (bytes_of "aboot") ptn size →
  info_buf s = info → length info = 4096%nat → take 15 info = device_bytes dev →
  read_from_card (card s) (u64 (ptn + size - 512)) 512 = (0, take 512 info) →
  ∃ s2, read_device_info_mmc s = Ok s2 ∧ device s2 = dev.
Proof.
  intros Hd [(index & E1 & E2 & E3) Hz] Hi Hil Ht Hr. destruct (device_bytes_ok dev Hd) as [Hdl _]. destruct Hd as (Em & _ & _).
  unfold read_device_info_mmc, find_partition. rewrite E1. cbn [mbind res_bind]. rewrite E2.
  cbn [mbind res_bind]. rewrite (proj2 (Z.eqb_neq _ _)), E3 by done. cbn [mbind res_bind].
  unfold mmc_read_at, mmc_read. change (Z.to_nat 512) with 512%nat. rewrite Hi, Hr.
  assert (store info 0 (take 512 info) = Ok info) as ->.
  { apply store_ok. rewrite length_take, Hil. split_and!; [lia|lia|]. cbn [Z.to_nat]. by rewrite take_0, app_nil_l, Nat.add_0_l, take_drop. }
  cbn [mbind res_bind info_buf set_info_buf]. change (negb (0 =? 0)) with false. cbn iota.
  rewrite <- (take_drop 15 info), Ht, info_device_bytes by (rewrite Em; reflexivity). cbn [mbind res_bind].
  rewrite bool_decide_eq_true_2 by done. by eexists.
Qed.

(** After a write the device can be read back. *)
Lemma device_info_stored dev s ptn size :
  device_ok dev → buffers_ok s → partition_at (table s) (bytes_of "aboot") ptn size → info_writable (card s) ptn size →
  ∃ d' info, write_device_info_mmc dev s = Ok (set_card d' (set_info_buf info s)) ∧
    ∃ s2, read_device_info_mmc (set_card d' (set_info_buf info s)) = Ok s2 ∧ device s2 = dev.
Proof.
  intros Hd Hb Hp Hw. destruct (write_device_info_ok dev s ptn size Hd Hb Hp Hw) as (d' & info & E & Ei & Hr).
  exists d', info. split; [done|]. destruct (device_bytes_ok dev Hd) as [Hdl _].
  apply (read_device_info_ok dev _ ptn size info); [done|done|done| | |done].
  - rewrite Ei, length_app, Hdl, length_drop, (bo_info _ Hb). done.
  - rewrite Ei, <- Hdl. apply take_app_length.
Qed.

(** C33: the device information survives: what write_device_info stores at the end of the
    aboot partition is what read_device_info finds there, on every card that keeps its
    sectors. *)
Theorem device_info_roundtrip dev s ptn size :
  device_ok dev → buffers_ok s → partition_at (table s) (bytes_of "aboot") ptn size → info_writable (card s) ptn size →
  ∃ s1 s2, write_device_info_mmc dev s = Ok s1 ∧ read_device_info_mmc s1 = Ok s2 ∧ device s2 = dev.
Proof.
  intros Hd Hb Hp Hw. destruct (device_info_stored dev s ptn size Hd Hb Hp Hw) as (d' & info & -> & s2 & Hr & E).
  by eexists _, s2.
Qed.

(** * Authenticated boot *)

(** The layout of a boot image in the scratch memory. *)
Record boot_layout (s : aboot D) (scratch : buffer) (ks rs ka ra kernel_actual imagesize : Z) : Prop := {
  bl_ks : hdr_kernel_size (buf s) = Ok ks;
  bl_rs : hdr_ramdisk_size (buf s) = Ok rs;
  bl_ka : hdr_kernel_addr (buf s) = Ok ka;
  bl_ra : hdr_ramdisk_addr (buf s) = Ok ra;
  bl_page : ∃ k, 0 ≤ k ∧ page_size s = 2 ^ k ∧ page_mask s = 2 ^ k - 1;
  bl_sizes : 0 ≤ ks ∧ 0 ≤ rs;
  bl_kact : kernel_actual = (ks + page_mask s) / page_size s * page_size s;
  bl_image : imagesize = page_size s + kernel_actual + (rs + page_mask s) / page_size s * page_size s;
  bl_fits : imagesize + page_size s ≤ Z.of_nat (length scratch) < 2 ^ 32;
}.

Lemma round_up_bounds x p : 0 < p → x ≤ (x + (p - 1)) / p * p ≤ x + (p - 1).
Proof. intros Hp. pose proof (Z.mul_div_le (x + (p - 1)) p Hp). pose proof (Z.mul_succ_div_gt (x + (p - 1)) p Hp). lia. Qed.

(** Reading the image and its signature into the scratch memory. *)
Lemma mmc_read_at_ok addr b off n d data :
  read_from_card d (u64 addr) (Z.to_nat n) = (0, data) → 0 ≤ off → 0 ≤ n → off + n ≤ Z.of_nat (length b) →
  ∃ b', mmc_read_at addr b off n d = Ok (0, b') ∧ store b off data = Ok b' ∧ length data = Z.to_nat n.
Proof.
  intros Hr Ho Hn Hl. pose proof (read_length d (u64 addr) (Z.to_nat n)) as Hdl. rewrite Hr in Hdl. cbn in Hdl.
  destruct (store_in b off data) as [b' Hb]; [lia|lia|]. exists b'. unfold mmc_read_at, mmc_read. rewrite Hr, Hb. done.
Qed.

(** What is copied to the load addresses. *)
Definition kernel_bytes (s : aboot D) (image : list Z) (ks : Z) : list Z :=
  take (Z.to_nat ks) (drop (Z.to_nat (page_size s)) image).
Definition ramdisk_bytes (s : aboot D) (image : list Z) (kernel_actual rs : Z) : list Z :=
  take (Z.to_nat rs) (drop (Z.to_nat (page_size s + kernel_actual)) image).

(** The state when the images have been copied. *)
Definition after_verify (s : aboot D) (auth ka ra : Z) (kb rb : list Z) : aboot D :=
  add_load ra rb (add_load ka kb
    (set_auth auth (set_device (set_tampered (if auth =? 0 then 1 else 0) (device s)) s))).

Lemma slice_take_drop b off n l i k :
  slice b off n = Ok l → 0 ≤ i → i + Z.of_nat k ≤ Z.of_nat n → slice b (off + i) k = Ok (take k (drop (Z.to_nat i) l)).
Proof.
  intros (H0 & H1 & ->)%slice_ok Hi Hk. apply slice_ok. split_and!; [lia..|].
  rewrite skipn_firstn_comm, take_take, drop_drop. f_equal; [lia|]. f_equal. lia.
Qed.

Lemma load_signed_run ptn scratch s ks rs ka ra kact isz image sig :
  boot_layout s scratch ks rs ka ra kact isz →
  read_from_card (card s) (u64 ptn) (Z.to_nat isz) = (0, image) →
  read_from_card (card s) (u64 (ptn + isz)) (Z.to_nat (page_size s)) = (0, sig) →
  let s1 := after_verify s (image_verify m image sig) ka ra (kernel_bytes s image ks) (ramdisk_bytes s image kact rs) in
  ∃ scratch', load_signed m ptn scratch s =
    (s2 ← (if image_verify m image sig =? 0 then write_device_info_mmc (device s1) s1 else Ok s1);
     Ok (true, s2, scratch')).
Proof.
  intros [Hks Hrs Hka Hra (k & Hk & Eps & Epm) [Hk0 Hr0] -> -> Hfit] Hri Hsi s1.
  unfold load_signed. rewrite Hks, Hrs. cbn [mbind res_bind]. rewrite Epm, Eps in *.
  assert (0 < 2 ^ k) as Hp by (apply Z.pow_pos_nonneg; lia).
  pose proof (round_up_bounds ks (2 ^ k) Hp) as HK. pose proof (round_up_bounds rs (2 ^ k) Hp) as HR.
  rewrite !round_to_page_pow2 by lia. set (kact := (ks + (2 ^ k - 1)) / 2 ^ k * 2 ^ k) in *.
  set (ract := (rs + (2 ^ k - 1)) / 2 ^ k * 2 ^ k) in *. rewrite (u32_small (2 ^ k + kact + ract)) by lia.
  set (isz := 2 ^ k + kact + ract) in *. cbn [card page_size set_device buf].
  destruct (mmc_read_at_ok ptn scratch 0 isz (card s) image Hri) as (b1 & -> & Hb1 & Hil); [lia..|]. cbn [mbind res_bind].
  change (negb (0 =? 0)) with false. cbn iota. pose proof (store_length _ _ _ _ Hb1) as Hl1. rewrite Eps.
  destruct (mmc_read_at_ok (ptn + isz) b1 isz (2 ^ k) (card s) sig Hsi) as (b2 & -> & Hb2 & Hsl); [lia..|].
  cbn [mbind res_bind]. change (negb (0 =? 0)) with false. cbn iota.
  assert (slice b2 0 (Z.to_nat isz) = Ok image) as Himg.
  { rewrite (slice_store_other _ _ _ _ 0 (Z.to_nat isz) Hb2) by lia. rewrite <- Hil. by apply (slice_store_same scratch). }
  rewrite Himg. cbn [mbind res_bind]. rewrite <- Hsl, (slice_store_same _ _ _ _ Hb2). cbn [mbind res_bind].
  exists b2. set (auth := image_verify m image sig) in *. clearbody auth.
  pose proof (slice_take_drop b2 0 (Z.to_nat isz) image (2 ^ k) (Z.to_nat ks) Himg) as Hkb.
  pose proof (slice_take_drop b2 0 (Z.to_nat isz) image (2 ^ k + kact) (Z.to_nat rs) Himg) as Hrb. rewrite Z.add_0_l in Hkb, Hrb.
  subst s1. unfold after_verify, kernel_bytes, ramdisk_bytes. rewrite Eps, Epm. fold kact.
  destruct (Z.eqb_spec auth 0) as [->|Ha]; cbn [negb].
  all: cbn [set_auth set_device buf page_size card]; rewrite Hka, Hra; cbn [mbind res_bind]; rewrite Eps, Hkb by lia.
  all: cbn [mbind res_bind]; rewrite (u32_small (2 ^ k + kact)) by lia; rewrite Hrb by lia; cbn [mbind res_bind].
  all: reflexivity.
Qed.

(** C13: on a locked device the kernel and the ramdisk that are started are bytes of the
    very image whose signature was accepted: when image_verify accepts what was read,
    exactly those bytes go to the load addresses and the device stays untampered. *)
Theorem signed_boot_accepts ptn scratch s ks rs ka ra kact isz image sig :
  boot_layout s scratch ks rs ka ra kact isz →
  read_from_card (card s) (u64 ptn) (Z.to_nat isz) = (0, image) →
  read_from_card (card s) (u64 (ptn + isz)) (Z.to_nat (page_size s)) = (0, sig) →
  image_verify m image sig ≠ 0 →
  ∃ s' scratch', load_signed m ptn scratch s = Ok (true, s', scratch') ∧
    is_tampered (device s') = 0 ∧ auth_img s' = image_verify m image sig ∧ card s' = card s ∧
    loads s' = loads s ++ [(ka, kernel_bytes s image ks); (ra, ramdisk_bytes s image kact rs)].
Proof.
  intros Hl Hi Hs Ha. destruct (load_signed_run ptn scratch s ks rs ka ra kact isz image sig Hl Hi Hs) as (b & ->).
  rewrite (proj2 (Z.eqb_neq _ _)) by done. eexists _, b. split; [done|]. unfold after_verify. cbn.
  rewrite (proj2 (Z.eqb_neq _ _)) by done. split_and!; [done..|]. by rewrite <- app_assoc.
Qed.

(** C28: when the signature is rejected the loader still starts the image, but it has
    recorded the tampering first: the device information on the card says tampered, and
    the next boot reads it. *)
Theorem signed_boot_rejects ptn scratch s ks rs ka ra kact isz image sig iptn isize :
  boot_layout s scratch ks rs ka ra kact isz →
  read_from_card (card s) (u64 ptn) (Z.to_nat isz) = (0, image) →
  read_from_card (card s) (u64 (ptn + isz)) (Z.to_nat (page_size s)) = (0, sig) →
  image_verify m image sig = 0 →
  device_ok (device s) → buffers_ok s → partition_at (table s) (bytes_of "aboot") iptn isize →
  info_writable (card s) iptn isize →
  ∃ s' scratch' s2, load_signed m ptn scratch s = Ok (true, s', scratch') ∧ is_tampered (device s') = 1 ∧
    loads s' = loads s ++ [(ka, kernel_bytes s image ks); (ra, ramdisk_bytes s image kact rs)] ∧
    read_device_info_mmc s' = Ok s2 ∧ is_tampered (device s2) = 1 ∧ is_unlocked (device s2) = is_unlocked (device s).
Proof.
  intros Hl Hi Hs Ha Hd Hb Hp Hw. destruct (load_signed_run ptn scratch s ks rs ka ra kact isz image sig Hl Hi Hs) as (b & ->).
  rewrite Ha. cbn [Z.eqb]. set (s1 := after_verify s 0 ka ra _ _).
  destruct (device_info_stored (device s1) s1 iptn isize) as (d' & info & -> & s2 & Hr & E2); [|by destruct Hb; constructor|done|done|].
  { destruct Hd as (? & ? & ?). done. }
  eexists _, b, s2. split_and!; [done|done| |done|by rewrite E2..]. cbn. by rewrite <- app_assoc.
Qed.
End DeviceInfo.

(** * The recovery message *)

(** an "update-radio" message is never cleared: _emmc_recovery_init sets recovery mode
    and returns before the message is written back (only the last of its three tests has
    an else branch), so the new status is lost and every later boot enters recovery again;
    the comments and the flow described above recovery_init say the command is cleared. *)
Theorem update_radio_not_cleared {D} `{BlockDevice D} (m : machine) (s : aboot D) msg :
  emmc_get_recovery_msg s = Ok (Some msg) → c_string (take 31 (command msg) ++ [0]) = bytes_of "update-radio" →
  ∃ s', _emmc_recovery_init m s = Ok (0, s') ∧ boot_into_recovery s' = true ∧ card s' = card s.
Proof.
  intros Hm Hc. unfold _emmc_recovery_init. rewrite Hm. cbn [mbind res_bind]. unfold is_command. cbn [command].
  rewrite Hc, bool_decide_eq_true_2 by done. cbn [command]. rewrite Hc, !bool_decide_eq_false_2 by done.
  cbn [mbind res_bind]. by eexists.
Qed.

(** * A phone *)

(** A card of 16 sectors: "aboot" in sectors 2 and 3, "boot" from sector 8, pages of
    1024 bytes, an image whose signature begins with [sg]. *)
Module Phone.
Definition header : list Z :=
  bytes_of BOOT_MAGIC ++ le_bytes 4 0 5 ++ le_bytes 4 0 0x208000 ++ le_bytes 4 0 3 ++ le_bytes 4 0 0x1200000 ++
  le_bytes 4 0 0 ++ le_bytes 4 0 0 ++ le_bytes 4 0 0x200100 ++ le_bytes 4 0 1024 ++ replicate 24 0 ++
  bytes_of "console=null" ++ replicate 948 0.
Definition page (l : list Z) : list Z := l ++ replicate (1024 - length l) 0.
Definition boot_partition (sg : Z) : list Z := header ++ page [1; 2; 3; 4; 5] ++ page [6; 7; 8] ++ page [sg].
Definition disk (sg : Z) : ram_disk := mkRam (replicate 4096 0 ++ boot_partition sg).

Definition entry (nm : string) (first sz : Z) : partition_entry :=
  mkEntry (replicate 16 0) 0 (replicate 16 0) first (first + sz - 1) sz 0 (memcpy_to (replicate 72 0) (bytes_of nm)).
Definition parts : pstate :=
  mkP (entry "aboot" 2 2 :: entry "boot" 8 8 :: replicate 30 empty_entry) true 2 0 0.

Definition verify (image sig : list Z) : Z := if bool_decide (head sig = Some 1) then 1 else 0.
Definition mach : machine :=
  mkMachine phone (replicate 608 0) verify (λ _, replicate 512 0) None (replicate 448 0).

Definition off (sg : Z) : aboot ram_disk :=
  mkAboot (disk sg) parts initial_device 0 1024 1023 false (replicate 4096 0) (replicate 4096 0)
    (bytes_of "0123456789" ++ replicate 3 0) [] None None.
Definition loaded (sg : Z) : aboot ram_disk := set_buf (header ++ replicate 3072 0) (off sg).
Definition scratch : buffer := replicate 8192 0.
Definition image : list Z := header ++ page [1; 2; 3; 4; 5] ++ page [6; 7; 8].

Lemma layout sg : boot_layout (loaded sg) scratch 5 3 0x208000 0x1200000 1024 3072.
Proof. constructor; try by vm_compute. by exists 10. Qed.

Lemma signed_boot_accepts_witness :
  ∃ s' scratch', load_signed mach 4096 scratch (loaded 1) = Ok (true, s', scratch') ∧
    is_tampered (device s') = 0 ∧ auth_img s' = 1 ∧ card s' = card (loaded 1) ∧
    loads s' = [(0x208000, [1; 2; 3; 4; 5]); (0x1200000, [6; 7; 8])].
Proof.
  apply (signed_boot_accepts mach 4096 scratch (loaded 1) 5 3 0x208000 0x1200000 1024 3072 image (page [1]));
    [apply layout|by vm_compute..].
Defined.

Lemma aboot_partition : partition_at parts (bytes_of "aboot") 1024 1024.
Proof. constructor; [exists 0; by vm_compute|done]. Qed.

Lemma disk_writable sg : info_writable (disk sg) 1024 1024.
Proof.
  intros bs Hl. cbn. unfold ram_write. destruct (store_in (ram (disk sg)) 1536 bs) as [b Hb]; [done| |].
  - rewrite Hl. apply Z.leb_le. by vm_compute.
  - change (u64 (1024 + 1024 - 512)) with 1536. by rewrite Hb.
Qed.

Lemma buffers sg : buffers_ok (loaded sg).
Proof. constructor; [done|]. by apply Forall_replicate. Qed.

Lemma device_info_roundtrip_witness :
  ∃ s1 s2, write_device_info_mmc (mkDevice (bytes_of DEVICE_MAGIC) 1 0) (loaded 1) = Ok s1 ∧
    read_device_info_mmc s1 = Ok s2 ∧ device s2 = mkDevice (bytes_of DEVICE_MAGIC) 1 0.
Proof.
  apply (device_info_roundtrip (mkDevice (bytes_of DEVICE_MAGIC) 1 0) (loaded 1) 1024 1024);
    [done|apply buffers|apply aboot_partition|apply disk_writable].
Defined.

Lemma signed_boot_rejects_witness :
  ∃ s' scratch' s2, load_signed mach 4096 scratch (loaded 0) = Ok (true, s', scratch') ∧ is_tampered (device s') = 1 ∧
    loads s' = [(0x208000, [1; 2; 3; 4; 5]); (0x1200000, [6; 7; 8])] ∧
    read_device_info_mmc s' = Ok s2 ∧ is_tampered (device s2) = 1 ∧ is_unlocked (device s2) = 0.
Proof.
  apply (signed_boot_rejects mach 4096 scratch (loaded 0) 5 3 0x208000 0x1200000 1024 3072 image (page [0]) 1024 1024);
    [apply layout|by vm_compute|by vm_compute|by vm_compute|done|apply buffers|apply aboot_partition|apply disk_writable].
Defined.

(** Switching the phone on. *)
Example phone_boots :
  match boot_linux_from_mmc mach scratch (off 1) with
  | Ok (r, s, _) =>
      Some (r, loads s, (λ k, (ke_kernel k, ke_machtype k, ke_tags k)) <$> kernel s, is_tampered (device s))
  | _ => None
  end = Some (0, [(0x208000, [1; 2; 3; 4; 5]); (0x1200000, [6; 7; 8])], Some (0x208000, 3756, 0x200100), 0).
Proof. vm_compute. reflexivity. Qed.

(** A header whose command line has no NUL within its 512 bytes: the string runs on into
    the image identifier behind it, here up to its first zero byte. *)
Definition long_header : list Z := take 64 header ++ replicate 512 65 ++ replicate 16 66 ++ replicate 432 0.
Definition long_disk : ram_disk :=
  mkRam (replicate 4096 0 ++ long_header ++ page [1; 2; 3; 4; 5] ++ page [6; 7; 8] ++ page [1]).

(** Boot_linux_from_mmc does not terminate the command line of the header (cmd_boot
    does): with a full command line field, bytes of the id field behind it end up on the
    kernel's command line. *)
Theorem cmdline_runs_into_id :
  match boot_linux_from_mmc (mkMachine phone (replicate 608 0) verify (λ _, replicate 1024 0) None [])
          scratch (set_card long_disk (off 1)) with
  | Ok (r, s, _) => (λ k, take 16 (drop (40 + 8 + 512) (ke_area k))) <$> kernel s
  | _ => None
  end = Some (replicate 16 66).
Proof. vm_compute. reflexivity. Qed.

(** Once page_size is larger than the static buffer, reading the header page
    overruns it. *)
Theorem large_page_overruns_buf :
  boot_linux_from_mmc mach scratch (set_page 8192 (off 1)) = Fault.
Proof. vm_compute. reflexivity. Qed.

(** The same phone with a misc partition in sectors 4 to 6 that asks for a radio update. *)
Definition misc_disk : ram_disk :=
  mkRam (replicate 2048 0 ++ bytes_of "update-radio" ++ replicate 2036 0 ++ boot_partition 1).
Definition misc_parts : pstate :=
  mkP (entry "aboot" 2 2 :: entry "boot" 8 8 :: entry "misc" 4 3 :: replicate 29 empty_entry) true 3 0 0.
Definition radio : aboot ram_disk := set_table misc_parts (set_card misc_disk (off 1)).
Definition radio_msg : recovery_message :=
  mkMsg (bytes_of "update-radio" ++ replicate 20 0) (replicate 32 0) (replicate 1024 0).

Lemma update_radio_not_cleared_witness :
  ∃ s', _emmc_recovery_init mach radio = Ok (0, s') ∧ boot_into_recovery s' = true ∧ card s' = card radio.
Proof. apply (update_radio_not_cleared mach radio radio_msg); [by vm_compute|by vm_compute]. Defined.
End Phone.
