(* ===== verification/AbootCmds.v ===== *)
(** The fastboot commands of the boot loader (src/bootable/lk/app/aboot/aboot.c, cmd_boot
    to cmd_oem_devinfo and aboot_init): the eMMC commands, in the configuration without
    SSD_ENABLE.  The data of a command is the download area of the engine, which is also
    the scratch memory of the loader. *)
From Stdlib Require Import ZArith.
From stdpp Require Import base numbers list strings relations.
From S2P Require Import Prelude Bytes Mmc Partition PartitionWrite BootTags Aboot Fastboot.

Definition DECRYPT_MAGIC_0 : Z := 0x73737A74.
Definition ENCRYPT_MAGIC_0 : Z := 0x6B647373.
Definition SPARSE_HEADER_MAGIC : Z := 0xed26ff3a.
Definition CHUNK_TYPE_RAW : Z := 0xCAC1.
Definition CHUNK_TYPE_DONT_CARE : Z := 0xCAC3.
Definition CHUNK_TYPE_CRC : Z := 0xCAC4.
Definition SPARSE_HEADER_SIZE : Z := 28.
Definition CHUNK_HEADER_SIZE : Z := 12.

(** * Sparse images *)

Definition GET_HALF (b : buffer) (off : Z) : res Z := l ← slice b off 2; Ok (le_or 0 l).

(** [sparse_header_t] *)
Record sparse_header := mkSparse {
  file_hdr_sz : Z; chunk_hdr_sz : Z; blk_sz : Z; total_blks : Z; total_chunks : Z;
}.

Definition read_sparse_header (b : buffer) : res sparse_header :=
  f ← GET_HALF b 8; c ← GET_HALF b 10; bs ← GET_LWORD_FROM_BYTE b 12;
  tb ← GET_LWORD_FROM_BYTE b 16; tc ← GET_LWORD_FROM_BYTE b 20;
  Ok (mkSparse f c bs tb tc).

(** How the chunk loop ends: with a FAIL message, or with the number of blocks. *)
Inductive sparse_end := SparseFail (msg : string) | SparseDone (total_blocks : Z).

Section Sparse.
Context {D : Type} `{BlockDevice D}.

(** The loop over the chunks, [fuel] of them; [data] is the offset of the next one. *)
Fixpoint sparse_chunks (fuel : nat) (h : sparse_header) (b : buffer) (data ptn total_blocks : Z) (d : D)
    : res (sparse_end * D) :=
  match fuel with
  | O => Ok (SparseDone total_blocks, d)
  | S fuel =>
      ty ← GET_HALF b data; csz ← GET_LWORD_FROM_BYTE b (data + 4); tsz ← GET_LWORD_FROM_BYTE b (data + 8);
      let data := u32 (data + CHUNK_HEADER_SIZE) in
      let data := if CHUNK_HEADER_SIZE <? chunk_hdr_sz h
                  then u32 (data + (chunk_hdr_sz h - CHUNK_HEADER_SIZE)) else data in
      let chunk_data_sz := u32 (blk_sz h * csz) in
      if ty =? CHUNK_TYPE_RAW then
        if negb (tsz =? u32 (chunk_hdr_sz h + chunk_data_sz))
        then Ok (SparseFail "Bogus chunk size for chunk type Raw", d)
        else
          '(ret, d) ← mmc_write (u64 (ptn + total_blocks * blk_sz h)) chunk_data_sz b data d;
          if negb (ret =? 0) then Ok (SparseFail "flash write failure", d)
          else sparse_chunks fuel h b (u32 (data + chunk_data_sz)) ptn (u32 (total_blocks + csz)) d
      else if ty =? CHUNK_TYPE_DONT_CARE then
        sparse_chunks fuel h b data ptn (u32 (total_blocks + csz)) d
      else if ty =? CHUNK_TYPE_CRC then
        if negb (tsz =? chunk_hdr_sz h) then Ok (SparseFail "Bogus chunk size for chunk type Dont Care", d)
        else sparse_chunks fuel h b (u32 (data + chunk_data_sz)) ptn (u32 (total_blocks + csz)) d
      else Ok (SparseFail "Unknown chunk type", d)
  end.

(** Where the first chunk is looked for. *)
Definition first_chunk (h : sparse_header) : Z :=
  if SPARSE_HEADER_SIZE <? file_hdr_sz h then file_hdr_sz h + (file_hdr_sz h - SPARSE_HEADER_SIZE) else file_hdr_sz h.
End Sparse.

(** * The commands *)

Definition newline : string := String (Ascii.ascii_of_nat 10) EmptyString.
Definition tab : string := String (Ascii.ascii_of_nat 9) EmptyString.

Inductive app_cmd :=
  | C_boot | C_flash | C_erase | C_continue | C_reboot | C_reboot_bootloader | C_oem_unlock | C_oem_devinfo.

Section Commands.
Context {D : Type} `{BlockDevice D} (msm7x27a : bool) (m : machine).
Abbreviation st := (fb app_cmd (aboot D)).
Implicit Types s : st.

Definition with_card (d : D) (s : st) : st := set_app (set_card d (app s)) s.
Definition leave (s : st) : st := set_gone true s.

Definition cmd_boot (s : st) : res st :=
  let sz := download_size s in
  if sz <? HDR_SIZE then Ok (fastboot_fail "invalid bootimage header" s)
  else
    h ← slice (download s) 0 (Z.to_nat HDR_SIZE);
    h ← store h (HDR_CMDLINE + 511) [0];
    hps ← hdr_page_size h; ks ← hdr_kernel_size h; rs ← hdr_ramdisk_size h;
    let s := if is_emmc_boot (m_target m) && negb (hps =? 0) then set_app (set_page hps (app s)) s else s in
    let ps := page_size (app s) in
    let kernel_actual := ROUND_TO_PAGE ks (page_mask (app s)) in
    let ramdisk_actual := ROUND_TO_PAGE rs (page_mask (app s)) in
    if sz <? u32 (ps + kernel_actual + ramdisk_actual) then Ok (fastboot_fail "incomplete bootimage" s)
    else
      ka ← hdr_kernel_addr h; ra ← hdr_ramdisk_addr h;
      kb ← slice (download s) ps (Z.to_nat ks);
      rb ← slice (download s) (u32 (ps + kernel_actual)) (Z.to_nat rs);
      let s := set_app (add_load ra rb (add_load ka kb (app s))) s in
      let s := fastboot_okay [] s in
      cmdline ← c_str (drop (Z.to_nat HDR_CMDLINE) h);
      ta ← hdr_tags_addr h;
      f ← boot_flags_of (app s);
      k ← boot_linux (m_target m) f ka ta (Some cmdline) (board_machtype (m_target m)) ra rs (tags_area m ta);
      Ok (leave (set_app (set_kernel k (app s)) s)).

(** [sizeof(erase_out)]: 4096 words of zeros *)
Definition ERASE_SIZE : Z := 16384.

Definition cmd_erase_mmc (arg : list Z) (s : st) : res st :=
  '(_, ptn) ← find_partition arg (table (app s));
  if ptn =? 0 then Ok (fastboot_fail (String.append "Partition table doesn't exist" newline) s)
  else
    '(ret, d) ← mmc_write ptn ERASE_SIZE (replicate (Z.to_nat ERASE_SIZE) 0) 0 (card (app s));
    let s := with_card d s in
    if negb (ret =? 0) then Ok (fastboot_fail "failed to erase partition" s) else Ok (fastboot_okay [] s).

(** The image must begin with BOOT_MAGIC when it goes to a boot partition. *)
Definition not_a_boot_image (arg : list Z) (s : st) : res bool :=
  if bool_decide (arg = bytes_of "boot") || bool_decide (arg = bytes_of "recovery") then
    same ← memeq (bytes_of BOOT_MAGIC) (download s) 8; Ok (negb same)
  else Ok false.

Definition cmd_flash_mmc_img (arg : list Z) (s : st) : res st :=
  let sz := download_size s in
  if bool_decide (arg = bytes_of "partition") then
    '(ret, img, d, t) ← write_partition msm7x27a sz (Some (download s)) (card (app s)) (table (app s));
    let s := set_app (set_table t (set_card d (app s))) (set_download (default (download s) img) s) in
    if negb (ret =? 0) then Ok (fastboot_fail "failed to write partition" s) else Ok (fastboot_okay [] s)
  else
    '(index, ptn) ← find_partition arg (table (app s));
    if ptn =? 0 then Ok (fastboot_fail "partition table doesn't exist" s)
    else
      bad ← not_a_boot_image arg s;
      if (bad : bool) then Ok (fastboot_fail "image is not a boot image" s)
      else
        size ← partition_get_size index (table (app s));
        if size <? ROUND_TO_PAGE sz 511 then Ok (fastboot_fail "size too large" s)
        else
          '(ret, d) ← mmc_write ptn sz (download s) 0 (card (app s));
          let s := with_card d s in
          if negb (ret =? 0) then Ok (fastboot_fail "flash write failure" s) else Ok (fastboot_okay [] s).

Definition cmd_flash_mmc_sparse_img (arg : list Z) (s : st) : res st :=
  let sz := download_size s in
  '(index, ptn) ← find_partition arg (table (app s));
  if ptn =? 0 then Ok (fastboot_fail "partition table doesn't exist" s)
  else
    size ← partition_get_size index (table (app s));
    if size <? ROUND_TO_PAGE sz 511 then Ok (fastboot_fail "size too large" s)
    else
      h ← read_sparse_header (download s);
      '(r, d) ← sparse_chunks (Z.to_nat (total_chunks h)) h (download s) (first_chunk h) ptn 0 (card (app s));
      let s := with_card d s in
      match r with
      | SparseFail msg => Ok (fastboot_fail msg s)
      | SparseDone total_blocks =>
          let s := if negb (total_blocks =? total_blks h) then fastboot_fail "sparse image write failure" s else s in
          Ok (fastboot_okay [] s)
      end.

(** Without SSD_ENABLE an encrypted image is not decrypted, and goes on like any other. *)
Definition cmd_flash_mmc (arg : list Z) (s : st) : res st :=
  magic ← GET_LWORD_FROM_BYTE (download s) 0;
  _ ← (if (magic =? DECRYPT_MAGIC_0) || (magic =? ENCRYPT_MAGIC_0) then GET_LWORD_FROM_BYTE (download s) 4 else Ok 0);
  if negb (magic =? SPARSE_HEADER_MAGIC) then cmd_flash_mmc_img arg s else cmd_flash_mmc_sparse_img arg s.

Definition cmd_continue (s : st) : res st :=
  let s := fastboot_okay [] s in
  '(_, a, scratch) ← boot_linux_from_mmc m (download s) (app s);
  let s := set_app a (set_download scratch s) in
  Ok (match kernel a with Some _ => leave s | None => s end).

Definition cmd_reboot (s : st) : st :=
  let s := fastboot_okay [] s in leave (set_app (set_reset 0 (app s)) s).

Definition cmd_reboot_bootloader (s : st) : st :=
  let s := fastboot_okay [] s in leave (set_app (set_reset FASTBOOT_MODE (app s)) s).

Definition cmd_oem_unlock (s : st) : res st :=
  s ← (if is_unlocked (device (app s)) =? 0 then
         let dev := set_unlocked 1 (device (app s)) in
         a ← write_device_info_mmc dev (set_device dev (app s)); Ok (set_app a s)
       else Ok s);
  Ok (fastboot_okay [] s).

Definition cmd_oem_devinfo (s : st) : st :=
  let line (label : string) (v : Z) :=
    Some (bytes_of label ++ bytes_of (if negb (v =? 0) then "true" else "false")) in
  let s := fastboot_info (line (String.append tab "Device tampered: ") (is_tampered (device (app s)))) s in
  let s := fastboot_info (line (String.append tab "Device unlocked: ") (is_unlocked (device (app s)))) s in
  fastboot_okay [] s.

Definition app_handle (c : app_cmd) (arg : list Z) (s : st) : res st :=
  match c with
  | C_boot => cmd_boot s
  | C_flash => cmd_flash_mmc arg s
  | C_erase => cmd_erase_mmc arg s
  | C_continue => cmd_continue s
  | C_reboot => Ok (cmd_reboot s)
  | C_reboot_bootloader => Ok (cmd_reboot_bootloader s)
  | C_oem_unlock => cmd_oem_unlock s
  | C_oem_devinfo => Ok (cmd_oem_devinfo s)
  end.

(** * Starting the application *)

(** [usb_device_info] in the shared memory *)
Record usb_device_info := mkUsbInfo { magicNum : Z; serialNumberLen : Z; serialNumber : list Z }.
Definition USB_ID_MAGIC_NUM : Z := 0x75736264.

(** PLATFORM_MSM7X27A only; [None]: the shared memory could not be read. *)
Definition set_usb_serial_num (info : option usb_device_info) (a : aboot D) : res (aboot D) :=
  match info with
  | None => Ok a
  | Some usb_info =>
      if magicNum usb_info =? USB_ID_MAGIC_NUM then
        if 13 <? serialNumberLen usb_info then Ok a
        else
          bs ← slice (serialNumber usb_info) 0 (Z.to_nat (serialNumberLen usb_info));
          b ← store (replicate 13 0) 0 bs;
          Ok (set_serial b a)
      else Ok a
  end.

(** What the board looks like when the loader starts. *)
Record start := mkStart {
  key_home : bool; key_volumeup : bool; key_back : bool; key_volumedown : bool;
  fastboot_trigger : bool;                (* false with a keypad driver *)
  reboot_mode : Z;                        (* check_reboot_mode() *)
  serialno : list Z;                      (* what target_serialno leaves in sn_buf *)
  usb_info : option usb_device_info;
  malloc_works : bool;
  board_name : list Z;
  init : init_answers;
  scratch_area : buffer;
  max_flash_size : Z;
}.

(** Does aboot_init go straight to fastboot?  Also the new recovery flag. *)
Definition start_mode (k : start) (recovery : bool) : bool * bool :=
  let recovery := recovery || key_home k || key_volumeup k in
  if negb recovery && (key_back k || key_volumedown k) then (true, recovery)
  else if fastboot_trigger k then (true, recovery)
  else if reboot_mode k =? RECOVERY_MODE then (false, true)
  else (reboot_mode k =? FASTBOOT_MODE, recovery).

Definition register_commands (k : start) (s : st) : st :=
  let reg (p : string) (c : app_cmd) (s : st) := fastboot_register (malloc_works k) (bytes_of p) (H_app c) s in
  let s := reg "boot" C_boot s in
  let s := reg "flash:" C_flash s in
  let s := reg "erase:" C_erase s in
  let s := reg "continue" C_continue s in
  let s := reg "reboot" C_reboot s in
  let s := reg "reboot-bootloader" C_reboot_bootloader s in
  let s := reg "oem unlock" C_oem_unlock s in
  let s := reg "oem device-info" C_oem_devinfo s in
  let s := fastboot_publish (malloc_works k) (bytes_of "product") (board_name k) s in
  let s := fastboot_publish (malloc_works k) (bytes_of "kernel") (bytes_of "lk") s in
  fastboot_publish (malloc_works k) (bytes_of "serialno") (c_string (serial (app s))) s.

(** aboot_init on a target that boots from eMMC.  Either a kernel has been started, or
    fastboot has been set up. *)
Definition aboot_init (k : start) (s : st) : res st :=
  let a := set_page 2048 (app s) in
  a ← (if use_signed_kernel (m_target m) then read_device_info_mmc a else Ok a);
  let a := set_serial (serialno k) a in
  let '(fastboot, recovery) := start_mode k (boot_into_recovery a) in
  let a := set_recovery recovery a in
  '(a, scratch) ←
    (if fastboot : bool then Ok (a, scratch_area k)
     else
       '(_, a) ← _emmc_recovery_init m a;
       '(_, a, scratch) ← boot_linux_from_mmc m (scratch_area k) a;
       Ok (a, scratch));
  match kernel a with
  | Some _ => Ok (leave (set_app a s))
  | None =>
      a ← (if msm7x27a then set_usb_serial_num (usb_info k) a else Ok a);
      let s := register_commands k (set_app a s) in
      Ok (fastboot_init (init k) scratch (max_flash_size k) s).2
  end.
End Commands.

(** * Answers *)

Section Silent.
Context {D : Type}.
Abbreviation st := (fb app_cmd (aboot D)).
Implicit Types s : st.

(** The command has changed its own state only, and has not answered. *)
Definition silent s s1 : Prop := tx s1 = tx s ∧ fastboot_state s1 = fastboot_state s.

Lemma silent_protocol s s1 s2 : silent s s1 → protocol s1 s2 → protocol s s2.
Proof. intros [Et _] (l & E & Hp). exists l. by rewrite E, Et. Qed.

Lemma silent_okay s s1 info : fastboot_state s = STATE_COMMAND → silent s s1 → protocol s (fastboot_okay info s1).
Proof.
  intros Hs Hq. apply (silent_protocol _ s1); [done|]. apply fastboot_okay_protocol. destruct Hq as [_ Es]. by rewrite Es.
Qed.

Lemma silent_fail s s1 reason : fastboot_state s = STATE_COMMAND → silent s s1 → protocol s (fastboot_fail reason s1).
Proof.
  intros Hs Hq. apply (silent_protocol _ s1); [done|]. apply fastboot_fail_protocol. destruct Hq as [_ Es]. by rewrite Es.
Qed.

(** Changing the application's part after the answer. *)
Lemma protocol_leave s s1 a : protocol s s1 → protocol s (leave (set_app a s1)).
Proof. intros Hp. by apply (protocol_ext s s1). Qed.

End Silent.

(** Take a monadic program apart: every step it makes is a fact. *)
Ltac run_step :=
  match goal with
  | H : (?m ≫= _) = Ok _ |- _ => apply res_bind_ok in H as (? & ? & H)
  | H : (let '(_, _) := ?p in _) = Ok _ |- _ => destruct p
  | H : (if ?b then _ else _) = Ok _ |- _ => destruct b
  | H : match ?x with _ => _ end = Ok _ |- _ => destruct x
  | H : Ok _ = Ok _ |- _ => injection H as <-
  end.

Ltac run := repeat run_step.
Ltac answered :=
  repeat match goal with |- context [if ?b then _ else _] => destruct b end;
  lazymatch goal with
  | |- protocol _ (fastboot_okay _ _) => apply silent_okay; [assumption|split; reflexivity]
  | |- protocol _ (fastboot_fail _ _) => apply silent_fail; [assumption|split; reflexivity]
  | |- protocol _ (leave _) => apply protocol_leave, silent_okay; [assumption|split; reflexivity]
  end.

Section Answers.
Context {D : Type} `{BlockDevice D} (msm7x27a : bool) (m : machine).
Abbreviation st := (fb app_cmd (aboot D)).
Implicit Types s : st.

Lemma cmd_boot_protocol s s' : fastboot_state s = STATE_COMMAND → cmd_boot m s = Ok s' → protocol s s'.
Proof. intros Hs Hr. unfold cmd_boot in Hr. run; answered. Qed.

Lemma cmd_erase_protocol arg s s' : fastboot_state s = STATE_COMMAND → cmd_erase_mmc arg s = Ok s' → protocol s s'.
Proof. intros Hs Hr. unfold cmd_erase_mmc in Hr. run; answered. Qed.

Lemma cmd_flash_img_protocol arg s s' :
  fastboot_state s = STATE_COMMAND → cmd_flash_mmc_img msm7x27a arg s = Ok s' → protocol s s'.
Proof. intros Hs Hr. unfold cmd_flash_mmc_img in Hr. run; answered. Qed.

Lemma cmd_flash_sparse_protocol arg s s' :
  fastboot_state s = STATE_COMMAND → cmd_flash_mmc_sparse_img arg s = Ok s' → protocol s s'.
Proof.
  intros Hs Hr. unfold cmd_flash_mmc_sparse_img in Hr. run; try answered.
  match goal with |- context [if ?b then _ else _] => destruct b end; [|answered]. unfold fastboot_okay.
  match goal with |- context [fastboot_fail ?r ?x] =>
    destruct (fastboot_ack_protocol "FAIL" (Some (bytes_of r)) x) as (Hp & _ & Hn); [by right|done|] end.
  unfold fastboot_fail. rewrite fastboot_ack_again by done. by apply (silent_protocol _ _ _ ltac:(done) Hp).
Qed.

Lemma cmd_continue_protocol s s' : fastboot_state s = STATE_COMMAND → cmd_continue m s = Ok s' → protocol s s'.
Proof.
  intros Hs Hr. destruct (fastboot_okay_protocol [] s Hs) as [Hp _]. unfold cmd_continue in Hr. run.
  case_match; by apply (protocol_ext s (fastboot_okay [] s)).
Qed.

Lemma cmd_unlock_protocol s s' : fastboot_state s = STATE_COMMAND → cmd_oem_unlock s = Ok s' → protocol s s'.
Proof.
  intros Hs Hr. unfold cmd_oem_unlock in Hr. run; answered.
Qed.

Lemma infos_okay i1 i2 info s :
  fastboot_state s = STATE_COMMAND → protocol s (fastboot_okay info (fastboot_info i2 (fastboot_info i1 s))).
Proof.
  intros Hs. set (s1 := fastboot_info i1 s). set (s2 := fastboot_info i2 s1).
  destruct (fastboot_info_protocol i1 s Hs) as [Hp1 _]. fold s1 in Hp1.
  destruct (decide (fastboot_state s1 = STATE_COMMAND)) as [E1|E1].
  - destruct (fastboot_info_protocol i2 s1 E1) as [Hp2 _]. fold s2 in Hp2. pose proof (protocol_trans _ _ _ Hp1 E1 Hp2) as Hp.
    destruct (decide (fastboot_state s2 = STATE_COMMAND)) as [E2|E2].
    + apply (protocol_trans s s2); [done|done|]. by apply fastboot_okay_protocol.
    + unfold fastboot_okay. by rewrite fastboot_ack_again.
  - assert (s2 = s1) as -> by (unfold s2, fastboot_info; by rewrite (proj2 (Z.eqb_neq _ _))).
    unfold fastboot_okay. by rewrite fastboot_ack_again.
Qed.

Lemma cmd_devinfo_protocol s : fastboot_state s = STATE_COMMAND → protocol s (cmd_oem_devinfo s).
Proof. apply infos_okay. Qed.

Lemma app_handle_protocol c arg s s' :
  fastboot_state s = STATE_COMMAND → app_handle msm7x27a m c arg s = Ok s' → protocol s s'.
Proof.
  intros Hs Hr. destruct c; cbn [app_handle] in Hr.
  - by apply cmd_boot_protocol.
  - unfold cmd_flash_mmc in Hr. run; first [by eapply cmd_flash_img_protocol|by eapply cmd_flash_sparse_protocol].
  - by eapply cmd_erase_protocol.
  - by apply cmd_continue_protocol.
  - injection Hr as <-. by apply protocol_leave, fastboot_okay_protocol.
  - injection Hr as <-. by apply protocol_leave, fastboot_okay_protocol.
  - by apply cmd_unlock_protocol.
  - injection Hr as <-. by apply cmd_devinfo_protocol.
Qed.
End Answers.

(** * What the commands leave alone *)

(** The image in the download area keeps its length. *)
Lemma put_long_length b off y b' : PUT_LONG b off y = Ok b' → length b' = length b.
Proof. apply store_length. Qed.

Lemma put_long_long_length b off y b' : PUT_LONG_LONG b off y = Ok b' → length b' = length b.
Proof. apply store_length. Qed.

Ltac lengths :=
  repeat match goal with
  | H : PUT_LONG _ _ _ = Ok _ |- _ => apply put_long_length in H
  | H : PUT_LONG_LONG _ _ _ = Ok _ |- _ => apply put_long_long_length in H
  | H : store _ _ _ = Ok _ |- _ => apply store_length in H
  end.

Lemma patch_header_crc_length img hdr img' : patch_header_crc img hdr = Ok img' → length img' = length img.
Proof. unfold patch_header_crc. intros Hr. run. lengths. congruence. Qed.

Lemma patch_gpt_length img cap asz mc es img' : patch_gpt img cap asz mc es = Ok img' → length img' = length img.
Proof.
  unfold patch_gpt. intros Hr. run.
  repeat match goal with H : patch_header_crc _ _ = Ok _ |- _ => apply patch_header_crc_length in H end. lengths. congruence.
Qed.

Section Lengths.
Context {D : Type} `{BlockDevice D} (msm7x27a : bool) (m : machine).

Lemma write_gpt_length sz img (d : D) t r : write_gpt sz img d t = Ok r → length r.1.1.2 = length img.
Proof.
  unfold write_gpt, clear_image. intros Hr. run; try done; cbn [fst snd]; lengths.
  all: repeat match goal with H : patch_gpt _ _ _ _ _ = Ok _ |- _ => apply patch_gpt_length in H end; congruence.
Qed.

Lemma write_partition_length sz img (d : D) t ret img' d' t' :
  write_partition msm7x27a sz (Some img) d t = Ok (ret, img', d', t') → length (default img img') = length img.
Proof.
  unfold write_partition. intros (r & _ & Hr)%res_bind_ok. destruct r as [r ty].
  destruct (negb _); [by injection Hr as _ <- _ _|]. destruct (ty =? PARTITION_TYPE_MBR).
  { apply res_bind_ok in Hr as ([[? ?] ?] & _ & Hr). by injection Hr as _ <- _ _. }
  destruct (ty =? PARTITION_TYPE_GPT); [|by injection Hr as _ <- _ _].
  apply res_bind_ok in Hr as ([[[? ?] ?] ?] & Hw & Hr). injection Hr as _ <- _ _. by apply write_gpt_length in Hw.
Qed.

Lemma mmc_read_at_length addr b off n (d : D) r : mmc_read_at addr b off n d = Ok r → length r.2 = length b.
Proof. unfold mmc_read_at. intros Hr. run. cbn [snd]. by lengths. Qed.

Lemma load_signed_length ptn scratch (a : aboot D) r : load_signed m ptn scratch a = Ok r → length r.2 = length scratch.
Proof.
  unfold load_signed. intros Hr. apply res_bind_ok in Hr as (ks & _ & Hr). apply res_bind_ok in Hr as (rs & _ & Hr).
  cbn zeta in Hr. apply res_bind_ok in Hr as ([ret b] & Hb & Hr). apply mmc_read_at_length in Hb. cbn [snd] in Hb.
  destruct (negb _); [by injection Hr as <-|]. apply res_bind_ok in Hr as ([ret2 b2] & Hb2 & Hr).
  apply mmc_read_at_length in Hb2. cbn [snd] in Hb2. repeat apply res_bind_ok in Hr as (? & _ & Hr).
  injection Hr as <-. cbn [snd]. congruence.
Qed.

Lemma boot_linux_from_mmc_length scratch (a : aboot D) r :
  boot_linux_from_mmc m scratch a = Ok r → length r.2 = length scratch.
Proof.
  unfold boot_linux_from_mmc. intros Hr. run; try done.
  all: first [ match goal with H : load_signed _ _ _ _ = Ok _ |- _ => by apply load_signed_length in H end | by simplify_eq ].
Qed.
End Lengths.

(** * The commands and the engine *)

Section Returns.
Context {D : Type} `{BlockDevice D} (msm7x27a : bool) (m : machine).
Abbreviation st := (fb app_cmd (aboot D)).
Implicit Types s : st.

(** The loader has been left: a kernel has been started, or the phone reset. *)
Definition departed (a : aboot D) : Prop := is_Some (kernel a) ∨ is_Some (reset a).

(** The command has changed the application's state and the bytes of the download, and
    talked to the host. *)
Record worked s s' : Prop := {
  wk_engine : engine_kept s s';
  wk_size : download_size s' = download_size s;
  wk_gone : gone s' = gone s;
}.

Lemma worked_app s s1 a : worked s s1 → worked s (set_app a s1).
Proof. intros [[] ? ?]. by repeat constructor. Qed.

Lemma worked_download s s1 b : length b = length (download s1) → worked s s1 → worked s (set_download b s1).
Proof. intros Hb [[? ? ? Hl ? ?] ? ?]. repeat constructor; try done. cbn. by rewrite Hb. Qed.

Lemma worked_ack code reason s s1 : worked s s1 → worked s (fastboot_ack code reason s1).
Proof.
  intros Hw. unfold fastboot_ack. destruct (negb _); [done|]. destruct Hw as [Hk Hz Hg].
  destruct (usb_write_spec (response (bytes_of code ++ default [] reason)) (set_state STATE_COMPLETE s1)) as [[Hk2 _ Hg2 Hz2 _] _]; [done|].
  constructor; [|by rewrite Hz2|by rewrite Hg2]. etrans; [exact Hk|]. destruct Hk2. by constructor.
Qed.

Lemma worked_info reason s s1 : worked s s1 → worked s (fastboot_info reason s1).
Proof.
  intros Hw. unfold fastboot_info. destruct (Z.eqb_spec (fastboot_state s1) STATE_COMMAND) as [E|E]; [|done]. cbn [negb].
  destruct reason as [r|]; [|done]. destruct Hw as [Hk Hz Hg].
  destruct (usb_write_spec (response (bytes_of "INFO" ++ r)) s1) as [[Hk2 _ Hg2 Hz2 _] _]; [by rewrite E|].
  constructor; [by etrans|congruence..].
Qed.

Lemma worked_refl s : worked s s.
Proof. by constructor. Qed.

Ltac worked :=
  repeat first [ apply worked_refl | apply worked_ack | apply worked_info | apply worked_app
               | apply worked_download; [first [reflexivity | by eapply write_partition_length | by eapply boot_linux_from_mmc_length]|]
               | case_match ].

Lemma app_handle_worked c arg s s' :
  app_handle msm7x27a m c arg s = Ok s' → ∃ s1, worked s s1 ∧ (s' = s1 ∨ s' = leave s1 ∧ departed (app s1)).
Proof.
  intros Hr. destruct c; cbn [app_handle] in Hr.
  - unfold cmd_boot in Hr. run; eexists; (split; [|first [right; split; [reflexivity|left; by eexists]|by left]]); unfold fastboot_fail, fastboot_okay; worked.
  - unfold cmd_flash_mmc, cmd_flash_mmc_img, cmd_flash_mmc_sparse_img in Hr.
    run; eexists; (split; [|by left]); unfold fastboot_fail, fastboot_okay, with_card; worked.
  - unfold cmd_erase_mmc in Hr. run; eexists; (split; [|by left]); unfold fastboot_fail, fastboot_okay, with_card; worked.
  - unfold cmd_continue in Hr. apply res_bind_ok in Hr as ([[r a] b] & Hb & Hr). apply boot_linux_from_mmc_length in Hb. cbn [snd] in Hb.
    assert (worked s (set_app a (set_download b (fastboot_okay [] s)))) as Hw.
    { apply worked_app, worked_download; [done|]. apply worked_ack, worked_refl. }
    exists (set_app a (set_download b (fastboot_okay [] s))). split; [done|]. injection Hr as <-.
    destruct (kernel a) as [k|] eqn:E; [right|by left]. split; [done|]. left. cbn. by rewrite E.
  - injection Hr as <-. eexists. split; [|right; split; [done|right; by eexists]]. apply worked_app, worked_ack, worked_refl.
  - injection Hr as <-. eexists. split; [|right; split; [done|right; by eexists]]. apply worked_app, worked_ack, worked_refl.
  - unfold cmd_oem_unlock in Hr. run; eexists; (split; [|by left]); unfold fastboot_okay; worked.
  - injection Hr as <-. eexists. split; [|by left]. unfold cmd_oem_devinfo, fastboot_okay. worked.
Qed.

#[export] Instance aboot_contract : AppContract (app_handle msm7x27a m) departed.
Proof.
  intros c arg s s' Hok Hs Hg Hr. pose proof (app_handle_protocol msm7x27a m c arg s s' Hs Hr) as Hp.
  destruct (app_handle_worked c arg s s' Hr) as (s1 & [Hk Hz Hg1] & Hd).
  assert (fb_ok s1) as Hok1 by (apply (fb_ok_kept s); [done|done|rewrite Hz; apply Hok]).
  destruct Hd as [-> |[-> Hd]]; [split_and!; [done|done|done|congruence]|].
  split_and!; [by destruct Hok1|by destruct Hk|done|done].
Qed.
(** ** Every command is answered *)

(** The link works: the controller accepts every request, at least [n] of them. *)
Definition link_up (n : nat) s : Prop := (n ≤ length (rx s))%nat ∧ Forall accepts (rx s).

Lemma usb_write_up n buf s :
  fastboot_state s ≠ STATE_ERROR → link_up (S n) s →
  (usb_write buf s).2 = set_usb (tail (rx s)) (tx s ++ [buf]) s ∧ link_up n (usb_write buf s).2.
Proof.
  intros Hs [Hn Ha]. destruct (rx s) as [|a r] eqn:Er; [cbn in Hn; lia|]. apply Forall_cons in Ha as [Ha Hr].
  rewrite (usb_write_accepted buf s a r) by done. split; [done|]. split; cbn in *; [lia|done].
Qed.

Lemma ack_up code reason s :
  fastboot_state s = STATE_COMMAND → link_up 1 s →
  fastboot_ack code reason s =
    set_usb (tail (rx s)) (tx s ++ [response (bytes_of code ++ default [] reason)]) (set_state STATE_COMPLETE s).
Proof.
  intros Hs Hu. unfold fastboot_ack. rewrite Hs, Z.eqb_refl. cbn [negb].
  by destruct (usb_write_up 0 (response (bytes_of code ++ default [] reason)) (set_state STATE_COMPLETE s)) as [E _].
Qed.

Lemma info_up n reason s :
  fastboot_state s = STATE_COMMAND → link_up (S n) s →
  fastboot_state (fastboot_info reason s) = STATE_COMMAND ∧ link_up n (fastboot_info reason s).
Proof.
  intros Hs [Hn Ha]. unfold fastboot_info. rewrite Hs, Z.eqb_refl. cbn [negb]. destruct reason as [r|]; [|by split; [|split; [lia|]]].
  destruct (usb_write_up n (response (bytes_of "INFO" ++ r)) s) as [E Hu]; [by rewrite Hs|by split|]. split; [by rewrite E|done].
Qed.

Lemma ack_leaves_command code reason s :
  bytes_of code = bytes_of "OKAY" ∨ bytes_of code = bytes_of "FAIL" → fastboot_state (fastboot_ack code reason s) ≠ STATE_COMMAND.
Proof.
  intros Hc. destruct (decide (fastboot_state s = STATE_COMMAND)) as [E|E]; [by apply (fastboot_ack_protocol code reason s)|].
  by rewrite fastboot_ack_again.
Qed.

(** The command has answered, unless the link is down. *)
Definition concluded s s' : Prop :=
  fastboot_state s' ≠ STATE_COMMAND ∧ (link_up 3 s → fastboot_state s' = STATE_COMPLETE).

Lemma concluded_ack code reason s s1 :
  bytes_of code = bytes_of "OKAY" ∨ bytes_of code = bytes_of "FAIL" →
  fastboot_state s = STATE_COMMAND → fastboot_state s1 = fastboot_state s → rx s1 = rx s → concluded s (fastboot_ack code reason s1).
Proof.
  intros Hc Hs E1 Er. split; [by apply ack_leaves_command|]. intros [Hn Ha].
  rewrite ack_up; [done|congruence|]. split; rewrite Er; [lia|done].
Qed.

Lemma concluded_leave s s1 : concluded s s1 → concluded s (leave s1).
Proof. done. Qed.

Lemma concluded_app s s1 a : concluded s s1 → concluded s (set_app a s1).
Proof. done. Qed.

Lemma concluded_download s s1 b : concluded s s1 → concluded s (set_download b s1).
Proof. done. Qed.

(** A second call of fastboot_ack changes nothing. *)
Lemma concluded_again code reason s s1 : concluded s s1 → concluded s (fastboot_ack code reason s1).
Proof. intros [Hn Hc]. by rewrite fastboot_ack_again. Qed.

Lemma concluded_infos i1 i2 info s :
  fastboot_state s = STATE_COMMAND → concluded s (fastboot_okay info (fastboot_info i2 (fastboot_info i1 s))).
Proof.
  intros Hs. split; [apply ack_leaves_command; by left|]. intros Hu.
  destruct (info_up 2 i1 s Hs Hu) as [H1 U1]. destruct (info_up 1 i2 _ H1 U1) as [H2 U2]. unfold fastboot_okay. by rewrite ack_up.
Qed.

Ltac concluded :=
  repeat match goal with |- context [match ?x with _ => _ end] => lazymatch type of x with bool => destruct x | option _ => destruct x end end;
  repeat lazymatch goal with
  | |- concluded _ (leave _) => apply concluded_leave
  | |- concluded _ (set_app _ _) => apply concluded_app
  | |- concluded _ (set_download _ _) => apply concluded_download
  | |- concluded _ (fastboot_ack _ _ (fastboot_ack _ _ _)) => apply concluded_again
  | |- concluded _ (fastboot_ack _ _ _) => apply concluded_ack; [first [left; reflexivity | right; reflexivity]|assumption|reflexivity|reflexivity]
  end.

Lemma app_handle_concludes c arg s s' :
  fastboot_state s = STATE_COMMAND → app_handle msm7x27a m c arg s = Ok s' → concluded s s'.
Proof.
  intros Hs Hr. destruct c; cbn [app_handle] in Hr.
  - unfold cmd_boot in Hr. run; unfold fastboot_fail, fastboot_okay; concluded.
  - unfold cmd_flash_mmc, cmd_flash_mmc_img, cmd_flash_mmc_sparse_img in Hr. run; unfold fastboot_fail, fastboot_okay, with_card; concluded.
  - unfold cmd_erase_mmc in Hr. run; unfold fastboot_fail, fastboot_okay, with_card; concluded.
  - unfold cmd_continue in Hr. run; unfold fastboot_okay; concluded.
  - injection Hr as <-. unfold cmd_reboot, fastboot_okay. concluded.
  - injection Hr as <-. unfold cmd_reboot_bootloader, fastboot_okay. concluded.
  - unfold cmd_oem_unlock in Hr. run; unfold fastboot_okay; concluded.
  - injection Hr as <-. by apply concluded_infos.
Qed.

Lemma handle_concludes h arg s s' :
  fastboot_state s = STATE_COMMAND → handle (app_handle msm7x27a m) h arg s = Ok s' → h ≠ H_download → concluded s s'.
Proof.
  intros Hs Hr Hh. destruct h as [| |c]; cbn [handle] in Hr; [|done|by eapply app_handle_concludes].
  injection Hr as <-. unfold cmd_getvar, fastboot_okay. concluded.
Qed.

(** A download that does not end in STATE_ERROR has been answered too. *)
Lemma download_concludes arg s s' :
  fb_ok s → fastboot_state s = STATE_COMMAND → cmd_download arg s = Ok s' → fastboot_state s' ≠ STATE_COMMAND.
Proof.
  intros Hok Hs. unfold cmd_download. destruct (_ <? _).
  { intros [= <-]. apply ack_leaves_command. by right. }
  destruct (usb_write_spec (response (bytes_of "DATA" ++ hex8 (hex2unsigned arg))) (set_download_size 0 s)) as [_ Hw]; [by cbn; rewrite Hs|].
  destruct (usb_write _ _) as [r s1]. cbn [fst snd] in Hw. destruct (Z.ltb_spec r 0).
  { destruct Hw as [(_ & E & _)|(-> & _)]; [|lia]. intros [= <-]. by rewrite E. }
  unfold download_data. intros ([[n b] s2] & Hu & Hr)%res_bind_ok. destruct (_ || _); injection Hr as <-; [done|].
  apply ack_leaves_command. by left.
Qed.
(** C3: the fastboot thread serves any host.  For every sequence of messages, every
    behaviour of the USB controller and every card, the command loop ends with the link
    down (STATE_OFFLINE), or because a command has started a kernel or a reset, or one of
    the commands of the boot loader has stopped the machine by itself (cmd_boot does, on a
    header whose sizes wrap around): then the result of the loop is that command's own, in
    the state and with the argument that the session gave it.  The engine itself never
    leaves its buffers. *)
Theorem fastboot_serves s :
  fb_ok s → gone s = false →
  (∃ s', fastboot_command_loop (app_handle msm7x27a m) s = Ok s' ∧
     (gone s' = true ∧ departed (app s') ∨ gone s' = false ∧ fastboot_state s' = STATE_OFFLINE)) ∨
  (∃ s1 s2 p c, rtc (round (app_handle msm7x27a m)) s s1 ∧ receives s1 s2 ∧
     find_cmd (cmd_buffer s2) (cmdlist s2) = Ok (Some (p, H_app c)) ∧
     fastboot_command_loop (app_handle msm7x27a m) s = app_handle msm7x27a m c (argument p s2) (set_state STATE_COMMAND s2) ∧
     ∀ s', fastboot_command_loop (app_handle msm7x27a m) s ≠ Ok s').
Proof. intros Hok Hg. apply (command_loop_ends _ departed); [done|done|lia]. Qed.

(** C21: a command that the device knows is answered by the command itself, exactly once:
    when it returns, also when it has left the loader, the messages that were sent during
    it hold one final answer (OKAY or FAIL); only when the link is down (STATE_ERROR) they
    may hold none.  While the link works only a download can end in STATE_ERROR. *)
Theorem one_answer_per_command s p h s' :
  fb_ok s → gone s = false → find_cmd (cmd_buffer s) (cmdlist s) = Ok (Some (p, h)) →
  dispatch (app_handle msm7x27a m) s = Ok s' →
  handle (app_handle msm7x27a m) h (argument p s) (set_state STATE_COMMAND s) = Ok s' ∧
  ∃ l, tx s' = tx s ++ l ∧
    (fastboot_state s' = STATE_COMPLETE ∧ finals l = 1%nat ∨
     fastboot_state s' = STATE_ERROR ∧ (finals l ≤ 1)%nat ∧ (link_up 3 s → h = H_download)).
Proof.
  intros Hok Hg Hc. unfold dispatch. rewrite Hc. cbn [mbind res_bind]. fold (argument p s).
  intros (s1 & Hr & Hd)%res_bind_ok. pose proof (fb_ok_command s Hok) as Hok0.
  destruct (handle_kept (app_handle msm7x27a m) departed h (argument p s) _ s1 Hok0 eq_refl Hg Hr) as (_ & _ & (l & Et & Hl) & _).
  assert (fastboot_state s1 ≠ STATE_COMMAND ∧ (link_up 3 s → h ≠ H_download → fastboot_state s1 = STATE_COMPLETE)) as [Hn Hu].
  { assert (h ≠ H_download → concluded (set_state STATE_COMMAND s) s1) as Hcc by (intros; by eapply handle_concludes).
    destruct h as [| |c]; [| split; [by apply (download_concludes _ _ _ Hok0) in Hr|done] |]; (destruct Hcc as [Hn Hu]; [done|]; split; auto). }
  assert (s1 = s') as <-.
  { destruct (gone s1); [by injection Hd|]. rewrite (proj2 (Z.eqb_neq _ _)) in Hd by done. by injection Hd. }
  split; [done|]. exists l. split; [done|]. destruct Hl as [[? _]|[?|[He Hf]]]; [done|by left|]. right. split_and!; [done..|].
  intros Hl. destruct h as [| |c]; [|done|]; (rewrite Hu in He; [done|done|done]).
Qed.

(** C40: a command that the device does not know is never answered: at no point of a
    session is the engine in STATE_COMMAND between commands, so that fastboot_ack drops
    the FAIL for it, and the host waits in vain. *)
Theorem unknown_command_unanswered s s1 s2 :
  fb_ok s → gone s = false → fastboot_state s = STATE_OFFLINE →
  rtc (round (app_handle msm7x27a m)) s s1 → fastboot_state s1 ≠ STATE_ERROR → receives s1 s2 →
  find_cmd (cmd_buffer s2) (cmdlist s2) = Ok None →
  dispatch (app_handle msm7x27a m) s2 = Ok s2 ∧ tx s2 = tx s1.
Proof.
  intros Hok Hg Hs Hr He Hrec Hc.
  destruct (rounds_kept (app_handle msm7x27a m) departed s s1) as (Hok1 & Hg1 & Hs1); [done|done|done|by rewrite Hs|].
  destruct (receives_kept s1 s2 Hok1 He Hrec) as (_ & _ & _ & Hs2 & Ht). split; [|done]. unfold dispatch. rewrite Hc.
  cbn [mbind res_bind]. unfold fastboot_fail. by rewrite fastboot_ack_again by congruence.
Qed.

(** ** The answers tell the truth *)

(** What erase: and flash: (of an image that is not sparse) write, at the start of their
    partition. *)
Definition written_by (c : app_cmd) s : Z * buffer :=
  match c with
  | C_erase => (ERASE_SIZE, replicate (Z.to_nat ERASE_SIZE) 0)
  | _ => (download_size s, download s)
  end.

(** Why they refuse. *)
Inductive unsuitable (arg : list Z) s : app_cmd → Prop :=
  | no_partition c index :
      find_partition arg (table (app s)) = Ok (index, 0) → unsuitable arg s c
  | no_boot_image :
      arg = bytes_of "boot" ∨ arg = bytes_of "recovery" → take 8 (download s) ≠ bytes_of BOOT_MAGIC → unsuitable arg s C_flash
  | does_not_fit index ptn size :
      find_partition arg (table (app s)) = Ok (index, ptn) → partition_get_size index (table (app s)) = Ok size →
      size < (download_size s + 511) / 512 * 512 → unsuitable arg s C_flash.

(** The answer, and the state of the loader that goes with it. *)
Inductive verdict (c : app_cmd) (arg : list Z) s : list Z → aboot D → Prop :=
  | refused a :
      take 4 a = bytes_of "FAIL" → unsuitable arg s c → verdict c arg s a (app s)
  | failed a index ptn ret d :
      take 4 a = bytes_of "FAIL" → find_partition arg (table (app s)) = Ok (index, ptn) → ¬ unsuitable arg s c →
      mmc_write ptn (written_by c s).1 (written_by c s).2 0 (card (app s)) = Ok (ret, d) → ret ≠ 0 →
      verdict c arg s a (set_card d (app s))
  | stored index ptn d :
      find_partition arg (table (app s)) = Ok (index, ptn) → ¬ unsuitable arg s c →
      mmc_write ptn (written_by c s).1 (written_by c s).2 0 (card (app s)) = Ok (0, d) →
      verdict c arg s (bytes_of "OKAY") (set_card d (app s)).

Definition tells c arg s s' : Prop := ∃ a, tx s' = tx s ++ [a] ∧ verdict c arg s a (app s').

Lemma memeq_take nm b same : memeq nm b (length nm) = Ok same → same = true ↔ take (length nm) b = nm.
Proof.
  revert b. induction nm as [|x nm IH]; intros b; cbn [memeq length]; [by intros [= <-]|]. destruct b as [|y b]; [done|].
  cbn [take]. destruct (Z.eqb_spec x y) as [->|Hne]; [intros Hm; rewrite (IH b Hm); split; [by intros ->|by intros [= ?]]|].
  intros [= <-]. split; [done|]. intros [= ? ?]. congruence.
Qed.

Lemma boot_image_checked arg s bad :
  not_a_boot_image arg s = Ok bad → bad = true ↔ (arg = bytes_of "boot" ∨ arg = bytes_of "recovery") ∧ take 8 (download s) ≠ bytes_of BOOT_MAGIC.
Proof.
  unfold not_a_boot_image. destruct (bool_decide (arg = bytes_of "boot") || bool_decide (arg = bytes_of "recovery")) eqn:E.
  - apply orb_true_iff in E. rewrite !bool_decide_eq_true in E. intros (same & Hm & [= <-])%res_bind_ok.
    apply (memeq_take (bytes_of BOOT_MAGIC)) in Hm. change (length (bytes_of BOOT_MAGIC)) with 8%nat in Hm. rewrite <- Hm.
    destruct same; naive_solver.
  - apply orb_false_iff in E as [E1 E2]. apply bool_decide_eq_false in E1, E2. intros [= <-]. naive_solver.
Qed.

Lemma tells_fail c arg s d r :
  fastboot_state s = STATE_COMMAND → link_up 3 s →
  (∀ a, take 4 a = bytes_of "FAIL" → verdict c arg s a (set_card d (app s))) → tells c arg s (fastboot_fail r (with_card d s)).
Proof.
  intros Hs [Hn Ha] Hv. unfold fastboot_fail. rewrite ack_up; [|done|split; [cbn; lia|done]].
  eexists. split; [done|]. apply Hv. by apply take4_response.
Qed.

Lemma tells_refused c arg s r :
  fastboot_state s = STATE_COMMAND → link_up 3 s → unsuitable arg s c → tells c arg s (fastboot_fail r s).
Proof.
  intros Hs [Hn Ha] Hv. unfold fastboot_fail. rewrite ack_up; [|done|split; [cbn; lia|done]].
  eexists. split; [done|]. exact (refused c arg s _ (take4_response "FAIL" _ eq_refl) Hv).
Qed.

Lemma tells_okay c arg s d :
  fastboot_state s = STATE_COMMAND → link_up 3 s →
  verdict c arg s (bytes_of "OKAY") (set_card d (app s)) → tells c arg s (fastboot_okay [] (with_card d s)).
Proof.
  intros Hs [Hn Ha] Hv. unfold fastboot_okay. rewrite ack_up; [|done|split; [cbn; lia|done]]. by eexists.
Qed.

(** The end of both commands. *)
Lemma tells_write c arg s index ptn ret d r :
  fastboot_state s = STATE_COMMAND → link_up 3 s → find_partition arg (table (app s)) = Ok (index, ptn) → ¬ unsuitable arg s c →
  mmc_write ptn (written_by c s).1 (written_by c s).2 0 (card (app s)) = Ok (ret, d) →
  tells c arg s (if negb (ret =? 0) then fastboot_fail r (with_card d s) else fastboot_okay [] (with_card d s)).
Proof.
  intros Hs Hu Hf Hn Hw. destruct (Z.eqb_spec ret 0) as [-> |Hr]; cbn [negb].
  - apply tells_okay; [done|done|]. by eapply stored.
  - apply tells_fail; [done|done|]. intros a Ha. by eapply failed.
Qed.

(** C22: the answer to erase: and to flash: of a raw image is the truth.  With a working
    link the host gets one message.  OKAY is sent exactly when the zeros, or the image,
    have been written to the partition of that name and the card has reported success;
    FAIL when the card reported a failure, or when there is no such partition, the image
    does not fit in it, or something that is no boot image was to go to boot or recovery:
    then nothing at all has changed. *)
Theorem answers_tell_the_truth c arg s s' :
  fb_ok s → fastboot_state s = STATE_COMMAND → link_up 3 s →
  c = C_erase ∨ c = C_flash ∧ arg ≠ bytes_of "partition" ∧ GET_LWORD_FROM_BYTE (download s) 0 ≠ Ok SPARSE_HEADER_MAGIC →
  app_handle msm7x27a m c arg s = Ok s' → tells c arg s s'.
Proof.
  intros Hok Hs Hu [-> |(-> & Hp & Hm)]; cbn [app_handle].
  - unfold cmd_erase_mmc. intros ([index ptn] & Hf & Hr)%res_bind_ok. destruct (Z.eqb_spec ptn 0) as [-> |Hp].
    { injection Hr as <-. by eapply tells_refused, no_partition. }
    assert (¬ unsuitable arg s C_erase) as Hn by (clear Hr; inversion 1; simplify_eq; congruence).
    apply res_bind_ok in Hr as ([ret d] & Hw & Hr).
    pose proof (tells_write C_erase arg s index ptn ret d "failed to erase partition" Hs Hu Hf Hn Hw) as Ht. clear Hw.
    destruct (negb (ret =? 0)); by injection Hr as <-.
  - unfold cmd_flash_mmc. intros (magic & Hg & Hr)%res_bind_ok. rewrite Hg in Hm.
    rewrite (proj2 (Z.eqb_neq magic SPARSE_HEADER_MAGIC)) in Hr by congruence. cbn [negb] in Hr. apply res_bind_ok in Hr as (_ & _ & Hr).
    unfold cmd_flash_mmc_img in Hr. rewrite bool_decide_eq_false_2 in Hr by done.
    apply res_bind_ok in Hr as ([index ptn] & Hf & Hr). destruct (Z.eqb_spec ptn 0) as [-> |Hz].
    { injection Hr as <-. by eapply tells_refused, no_partition. }
    apply res_bind_ok in Hr as (bad & Hb%boot_image_checked & Hr). destruct bad.
    { injection Hr as <-. destruct (proj1 Hb eq_refl). by eapply tells_refused, no_boot_image. }
    apply res_bind_ok in Hr as (size & Hsz & Hr). pose proof (ok_size _ Hok) as H1. pose proof (ok_max _ Hok) as H2.
    rewrite round_to_page_sector in Hr by lia. destruct (Z.ltb_spec size ((download_size s + 511) / 512 * 512)) as [Hlt|Hge].
    { injection Hr as <-. by eapply tells_refused, does_not_fit. }
    apply res_bind_ok in Hr as ([ret d] & Hw & Hr).
    assert (¬ unsuitable arg s C_flash) as Hn.
    { inversion 1; simplify_eq; [congruence|by enough (false = true) by done; apply Hb|].
      assert (index0 = index) as -> by congruence. assert (size0 = size) as -> by congruence. lia. }
    pose proof (tells_write C_flash arg s index ptn ret d "flash write failure" Hs Hu Hf Hn Hw) as Ht.
    destruct (negb (ret =? 0)); by injection Hr as <-.
Qed.
End Returns.

(** * Flashing stays in the partition *)

(** Looking a partition up never fails on a well-formed table. *)
Lemma find_partition_ok nm t :
  table_ok t → 0 ∉ nm → (length nm ≤ MAX_GPT_NAME_SIZE)%nat →
  ∃ index ptn size, find_partition nm t = Ok (index, ptn) ∧ partition_get_index nm t = Ok index ∧
    partition_get_offset index t = Ok ptn ∧ partition_get_size index t = Ok size ∧ 0 ≤ ptn < 2 ^ 64 ∧ 0 ≤ size.
Proof.
  intros Ht Hn Hl. assert (∃ index, partition_get_index nm t = Ok index ∧ (index = INVALID_PTN ∨ 0 ≤ index < 32)) as (i & Ei & Hi).
  { unfold partition_get_index. case_match eqn:E; [eexists; split; [done|by left]|].
    rewrite find_name_first by (done || apply Forall_take, Ht). eexists. split; [done|].
    destruct (list_find _ _) as [[j e]|] eqn:Ef; [|by left]. right. apply list_find_Some in Ef as (Hj & _).
    apply lookup_lt_Some in Hj. rewrite length_take, (tb_len _ Ht) in Hj. lia. }
  assert (∃ ptn size, partition_get_offset i t = Ok ptn ∧ partition_get_size i t = Ok size ∧ 0 ≤ ptn < 2 ^ 64 ∧ 0 ≤ size)
    as (ptn & size & Eo & Es & Hp & Hz).
  { unfold partition_get_offset, partition_get_size. destruct Hi as [->|Hi]; [by exists 0, 0|].
    rewrite (proj2 (Z.eqb_neq _ _)) by (unfold INVALID_PTN; lia).
    destruct (get_entry_ok t i Ht Hi) as (e & -> & _). cbn [mbind res_bind]. eexists _, _. split_and!; [done|done|..].
    all: unfold u64; pose proof (Z.mod_pos_bound (first_lba e * BLOCK_SIZE) (2 ^ 64) ltac:(lia));
      pose proof (Z.mod_pos_bound (Partition.size e * BLOCK_SIZE) (2 ^ 64) ltac:(lia)); lia. }
  exists i, ptn, size. unfold find_partition. rewrite Ei. cbn [mbind res_bind]. rewrite Eo. done.
Qed.

Section Flash.
Context {D : Type} `{BlockDevice D} (msm7x27a : bool).
Abbreviation st := (fb app_cmd (aboot (logged D))).
Implicit Types s : st.

(** The writes of a command, and where they may go. *)
Definition wrote s s' (new : list (Z * Z)) : Prop := log (card (app s')) = log (card (app s)) ++ new.

Lemma wrote_answer s s1 code reason new :
  fastboot_state s1 = STATE_COMMAND → bytes_of code = bytes_of "OKAY" ∨ bytes_of code = bytes_of "FAIL" →
  wrote s s1 new → wrote s (fastboot_ack code reason s1) new.
Proof.
  intros Hs Hc Hw. destruct (fastboot_ack_protocol code reason s1 Hc Hs) as (_ & Hl & _). unfold wrote.
  by rewrite (lk_app _ _ Hl).
Qed.

(** C18: flashing a partition by name never writes outside it: on any well-formed table and
    any download, cmd_flash_mmc_img runs to its end and everything it wrote to the card
    lies between the first and the last byte of the partition of that name (nothing is
    written when there is none, when the image does not fit, or when it is not a boot
    image). *)
Theorem flash_stays_in_partition arg s :
  fb_ok s → table_ok (table (app s)) → fastboot_state s = STATE_COMMAND →
  arg ≠ bytes_of "partition" → 0 ∉ arg → (length arg ≤ MAX_GPT_NAME_SIZE)%nat →
  8 ≤ download_max s → (download_size s + 511) / 512 * 512 ≤ Z.of_nat (length (download s)) →
  (∀ index ptn size, partition_get_offset index (table (app s)) = Ok ptn →
     partition_get_size index (table (app s)) = Ok size → ptn + size ≤ 2 ^ 64) →
  ∃ s' new index ptn size, cmd_flash_mmc_img msm7x27a arg s = Ok s' ∧ wrote s s' new ∧
    partition_get_index arg (table (app s)) = Ok index ∧ partition_get_offset index (table (app s)) = Ok ptn ∧
    partition_get_size index (table (app s)) = Ok size ∧ Forall (within ptn (ptn + size)) new.
Proof.
  intros Hok Ht Hs Hne Hn Hl H8 Hbuf H64.
  destruct (find_partition_ok arg (table (app s)) Ht Hn Hl) as (index & ptn & size & Ef & Ei & Eo & Es & Hp & Hz).
  unfold cmd_flash_mmc_img. rewrite bool_decide_eq_false_2, Ef by done. cbn [mbind res_bind].
  assert (∀ r, wrote s (fastboot_fail r s) []) as Hfail
    by (intros r; apply wrote_answer; [done|by right|unfold wrote; by rewrite app_nil_r]).
  destruct (Z.eqb_spec ptn 0) as [Hp0|Hp0]; [by eexists _, [], index, ptn, size|].
  assert (∃ bad, not_a_boot_image arg s = Ok bad) as [bad ->].
  { unfold not_a_boot_image. case_match; [|by eexists].
    destruct (memeq_prefix (bytes_of BOOT_MAGIC) (download s)) as (same & E & _); [pose proof (ok_area _ Hok); cbn; lia|].
    change (length (bytes_of BOOT_MAGIC)) with 8%nat in E. rewrite E. by eexists. }
  cbn [mbind res_bind]. destruct bad; [by eexists _, [], index, ptn, size|]. rewrite Es. cbn [mbind res_bind].
  pose proof (ok_size _ Hok) as Hsz. pose proof (ok_max _ Hok) as Hmax.
  rewrite round_to_page_sector by lia. set (n := (download_size s + 511) / 512 * 512) in *.
  destruct (Z.ltb_spec size n) as [|Hfit]; [by eexists _, [], index, ptn, size|].
  specialize (H64 index ptn size Eo Es).
  destruct (mmc_write_ok ptn (download_size s) (download s) 0 (card (app s))) as ([ret d] & Ew); [lia|lia|lia|fold n; lia|].
  rewrite Ew. cbn [mbind res_bind].
  apply mmc_write_footprint in Ew as (new & El & Hnew); [|lia|lia|lia|fold n; lia]. fold n in Hnew.
  assert (Forall (within ptn (ptn + size)) new) as Hin
    by (eapply Forall_impl; [exact Hnew|]; unfold within; intros w Hw; lia).
  assert (wrote s (with_card d s) new) as Hw by done.
  destruct (negb (ret =? 0)); eexists _, new, index, ptn, size; (split; [done|]); (split_and!; [|done..]).
  - apply wrote_answer; [done|by right|done].
  - apply wrote_answer; [done|by left|done].
Qed.
End Flash.

(** * Sparse images expand to the image they stand for *)

Inductive chunk := Raw (data : list Z) | DontCare (n : Z).

Section Expand.
Context {D : Type} `{BlockDevice D} (blk : Z).

(** The number of blocks a chunk stands for. *)
Definition chunk_blocks (c : chunk) : Z :=
  match c with Raw data => Z.of_nat (length data) / blk | DontCare n => n end.

(** The file format. *)
Definition chunk_bytes (c : chunk) : list Z :=
  match c with
  | Raw data => le_bytes 2 0 CHUNK_TYPE_RAW ++ le_bytes 2 0 0 ++ le_bytes 4 0 (chunk_blocks c) ++
                le_bytes 4 0 (12 + Z.of_nat (length data)) ++ data
  | DontCare n => le_bytes 2 0 CHUNK_TYPE_DONT_CARE ++ le_bytes 2 0 0 ++ le_bytes 4 0 n ++ le_bytes 4 0 12
  end.

Definition sum_blocks (cs : list chunk) : Z := foldr (λ c n, chunk_blocks c + n) 0 cs.

Definition sparse_file (cs : list chunk) : list Z :=
  le_bytes 4 0 SPARSE_HEADER_MAGIC ++ le_bytes 2 0 1 ++ le_bytes 2 0 0 ++ le_bytes 2 0 28 ++ le_bytes 2 0 12 ++
  le_bytes 4 0 blk ++ le_bytes 4 0 (sum_blocks cs) ++ le_bytes 4 0 (Z.of_nat (length cs)) ++ le_bytes 4 0 0 ++
  (cs ≫= chunk_bytes).

(** What flashing it means: every raw chunk is written at its block, the others are skipped. *)
Fixpoint expand (ptn pos : Z) (cs : list chunk) (d : D) : res (sparse_end * D) :=
  match cs with
  | [] => Ok (SparseDone pos, d)
  | Raw data :: cs =>
      '(ret, d) ← mmc_write (u64 (ptn + pos * blk)) (Z.of_nat (length data)) data 0 d;
      if negb (ret =? 0) then Ok (SparseFail "flash write failure", d)
      else expand ptn (pos + chunk_blocks (Raw data)) cs d
  | DontCare n :: cs => expand ptn (pos + n) cs d
  end.

(** Whole blocks. *)
Definition chunk_ok (c : chunk) : Prop :=
  match c with
  | Raw data => Z.of_nat (length data) mod blk = 0 ∧ Z.of_nat (length data) + 12 < 2 ^ 32
  | DontCare n => 0 ≤ n < 2 ^ 32
  end.
End Expand.

(** Reading at a place is reading what is there. *)
Lemma slice_inside l1 data l2 p n :
  0 ≤ p → p + Z.of_nat n ≤ Z.of_nat (length data) →
  slice (l1 ++ data ++ l2) (Z.of_nat (length l1) + p) n = slice data p n.
Proof.
  intros Hp Hn. assert (slice (l1 ++ data ++ l2) (Z.of_nat (length l1)) (length data) = Ok data) as Hs by (by apply slice_mid).
  rewrite (slice_take_drop _ _ _ _ p n Hs Hp) by lia. symmetry. apply slice_ok. split_and!; [lia..|done].
Qed.

Section Refine.
Context {D : Type} `{BlockDevice D}.

Lemma mmc_write_loop_inside fuel l1 data l2 p addr o l (d : D) :
  0 ≤ p → 0 ≤ l → p + l ≤ Z.of_nat (length data) → l < 2 ^ 32 →
  mmc_write_loop fuel (l1 ++ data ++ l2) (Z.of_nat (length l1) + p) addr o l d =
  mmc_write_loop fuel data p addr o l d.
Proof.
  assert (0 < WRITE_SIZE) as HW by reflexivity.
  revert p o l d. induction fuel as [|fuel IH]; intros p o l d Hp Hl Hd H32; cbn [mmc_write_loop].
  - destruct (WRITE_SIZE <? l); [done|]. destruct (negb (l =? 0)); [|done]. by rewrite slice_inside by lia.
  - destruct (Z.ltb_spec WRITE_SIZE l) as [Hlt|Hge].
    + rewrite slice_inside by lia. destruct (slice data p (Z.to_nat WRITE_SIZE)); [|done..]. cbn [mbind res_bind].
      destruct (write_to_card d _ _) as [v d1]. destruct (negb (v =? 0)); [done|]. rewrite <- Z.add_assoc.
      rewrite (u32_small (l - WRITE_SIZE)) by lia. apply IH; lia.
    + destruct (negb (l =? 0)); [|done]. by rewrite slice_inside by lia.
Qed.

(** Whole sectors are written as they are, wherever they lie in memory. *)
Lemma mmc_write_inside addr l1 data l2 (d : D) :
  Z.of_nat (length data) mod 512 = 0 → Z.of_nat (length data) < 2 ^ 32 →
  mmc_write addr (Z.of_nat (length data)) (l1 ++ data ++ l2) (Z.of_nat (length l1)) d =
  mmc_write addr (Z.of_nat (length data)) data 0 d.
Proof.
  intros Hm H32. unfold mmc_write. rewrite Hm. change (negb (0 =? 0)) with false. cbn iota.
  rewrite <- (Z.add_0_r (Z.of_nat (length l1))) at 1. apply mmc_write_loop_inside; lia.
Qed.

Lemma get_half_mid l1 x l2 off : off = Z.of_nat (length l1) → GET_HALF (l1 ++ le_bytes 2 0 x ++ l2) off = Ok (x mod 2 ^ 16).
Proof.
  intros ->. unfold GET_HALF. rewrite (slice_mid l1 (le_bytes 2 0 x) l2) by (rewrite ?length_le_bytes; done).
  cbn [mbind res_bind]. by rewrite le_roundtrip.
Qed.

Lemma get_lword_mid l1 x l2 off :
  off = Z.of_nat (length l1) → GET_LWORD_FROM_BYTE (l1 ++ le_bytes 4 0 x ++ l2) off = Ok (u32 x).
Proof.
  intros ->. unfold GET_LWORD_FROM_BYTE. rewrite (slice_mid l1 (le_bytes 4 0 x) l2) by (rewrite ?length_le_bytes; done).
  cbn [mbind res_bind]. by rewrite le_roundtrip.
Qed.

#[local] Opaque le_bytes.

(** The three fields of a chunk header. *)
Lemma chunk_header_read l1 ty csz tsz l2 :
  let b := l1 ++ le_bytes 2 0 ty ++ le_bytes 2 0 0 ++ le_bytes 4 0 csz ++ le_bytes 4 0 tsz ++ l2 in
  GET_HALF b (Z.of_nat (length l1)) = Ok (ty mod 2 ^ 16) ∧
  GET_LWORD_FROM_BYTE b (Z.of_nat (length l1) + 4) = Ok (u32 csz) ∧
  GET_LWORD_FROM_BYTE b (Z.of_nat (length l1) + 8) = Ok (u32 tsz).
Proof.
  intros b. subst b. split_and!.
  - by apply get_half_mid.
  - rewrite (app_assoc l1), (app_assoc (l1 ++ _)). apply get_lword_mid. rewrite !length_app, !length_le_bytes. lia.
  - rewrite (app_assoc l1), (app_assoc (l1 ++ _)), (app_assoc ((l1 ++ _) ++ _)). apply get_lword_mid.
    rewrite !length_app, !length_le_bytes. lia.
Qed.

Definition chunk_header_bytes (ty csz tsz : Z) : list Z :=
  le_bytes 2 0 ty ++ le_bytes 2 0 0 ++ le_bytes 4 0 csz ++ le_bytes 4 0 tsz.

Lemma length_chunk_header ty csz tsz : length (chunk_header_bytes ty csz tsz) = 12%nat.
Proof. unfold chunk_header_bytes. rewrite !length_app, !length_le_bytes. done. Qed.

Lemma chunk_bytes_raw blk data l :
  chunk_bytes blk (Raw data) ++ l =
  chunk_header_bytes CHUNK_TYPE_RAW (chunk_blocks blk (Raw data)) (12 + Z.of_nat (length data)) ++ data ++ l.
Proof. unfold chunk_header_bytes. cbn [chunk_bytes]. by rewrite <- !app_assoc. Qed.

Lemma chunk_bytes_skip blk n l : chunk_bytes blk (DontCare n) ++ l = chunk_header_bytes CHUNK_TYPE_DONT_CARE n 12 ++ l.
Proof. unfold chunk_header_bytes. cbn [chunk_bytes]. by rewrite <- !app_assoc. Qed.

Lemma sum_blocks_nonneg blk cs : 0 < blk → Forall (chunk_ok blk) cs → 0 ≤ sum_blocks blk cs.
Proof.
  intros Hb. induction 1 as [|c cs Hc Hcs IH]; [done|]. cbn [sum_blocks foldr]. fold (sum_blocks blk cs).
  assert (0 ≤ chunk_blocks blk c); [|lia]. destruct c; cbn; [apply Z.div_pos; lia|cbn in Hc; lia].
Qed.

(** A round of the loop on a raw chunk. *)
Lemma sparse_round_raw fuel blk tb tc l1 data l3 ptn pos (d : D) :
  let k := chunk_blocks blk (Raw data) in
  let b := l1 ++ chunk_header_bytes CHUNK_TYPE_RAW k (12 + Z.of_nat (length data)) ++ data ++ l3 in
  0 < blk → blk mod 512 = 0 → chunk_ok blk (Raw data) → 0 ≤ pos → pos + k < 2 ^ 32 → Z.of_nat (length b) < 2 ^ 32 →
  sparse_chunks (S fuel) (mkSparse 28 12 blk tb tc) b (Z.of_nat (length l1)) ptn pos d =
    ('(ret, d) ← mmc_write (u64 (ptn + pos * blk)) (Z.of_nat (length data)) data 0 d;
     if negb (ret =? 0) then Ok (SparseFail "flash write failure", d)
     else sparse_chunks fuel (mkSparse 28 12 blk tb tc) b (Z.of_nat (length l1 + 12 + length data)) ptn (pos + k) d).
Proof.
  intros k b Hb H512 [Hm Hdl] Hp Hpk Hlen.
  assert (Z.of_nat (length data) = blk * k) as Hk by (subst k; cbn [chunk_blocks]; Z.div_mod_to_equations; lia).
  assert (0 ≤ k) as Hk0 by (subst k; cbn [chunk_blocks]; apply Z.div_pos; lia).
  destruct (chunk_header_read l1 CHUNK_TYPE_RAW k (12 + Z.of_nat (length data)) (data ++ l3)) as (E1 & E2 & E3).
  assert (b = l1 ++ le_bytes 2 0 CHUNK_TYPE_RAW ++ le_bytes 2 0 0 ++ le_bytes 4 0 k ++
              le_bytes 4 0 (12 + Z.of_nat (length data)) ++ data ++ l3) as Eb
    by (subst b; unfold chunk_header_bytes; by rewrite <- !app_assoc).
  rewrite <- Eb in E1, E2, E3. cbn [sparse_chunks chunk_hdr_sz blk_sz].
  change (CHUNK_HEADER_SIZE <? 12) with false. cbn iota. unfold CHUNK_HEADER_SIZE. rewrite E1, E2, E3. cbn [mbind res_bind].
  change (CHUNK_TYPE_RAW mod 2 ^ 16 =? CHUNK_TYPE_RAW) with true. cbn iota.
  assert (length b = (length l1 + 12 + length data + length l3)%nat) as Hlb
    by (subst b; rewrite !length_app, length_chunk_header; lia).
  rewrite (u32_small k) by lia. rewrite <- Hk.
  rewrite (u32_small (Z.of_nat (length data))), (u32_small (12 + _)), (u32_small (Z.of_nat (length l1) + 12)) by lia.
  rewrite Z.eqb_refl. cbn [negb].
  assert (mmc_write (u64 (ptn + pos * blk)) (Z.of_nat (length data)) b (Z.of_nat (length l1) + 12) d =
          mmc_write (u64 (ptn + pos * blk)) (Z.of_nat (length data)) data 0 d) as Ew.
  { set (hd := chunk_header_bytes CHUNK_TYPE_RAW k (12 + Z.of_nat (length data))) in b.
    replace (Z.of_nat (length l1) + 12) with (Z.of_nat (length (l1 ++ hd)))
      by (subst hd; rewrite length_app, length_chunk_header; lia).
    subst b. rewrite app_assoc. apply mmc_write_inside; [|lia]. rewrite Hk, Z.mul_mod, H512 by lia. done. }
  rewrite Ew. destruct (mmc_write (u64 (ptn + pos * blk)) (Z.of_nat (length data)) data 0 d) as [[ret d1]| |]; [|done..]. cbn [mbind res_bind].
  destruct (negb (ret =? 0)); [done|]. rewrite !u32_small by lia. f_equal; lia.
Qed.

Lemma sparse_round_skip fuel blk tb tc l1 n l3 ptn pos (d : D) :
  let b := l1 ++ chunk_header_bytes CHUNK_TYPE_DONT_CARE n 12 ++ l3 in
  0 ≤ n → 0 ≤ pos → pos + n < 2 ^ 32 → Z.of_nat (length b) < 2 ^ 32 →
  sparse_chunks (S fuel) (mkSparse 28 12 blk tb tc) b (Z.of_nat (length l1)) ptn pos d =
  sparse_chunks fuel (mkSparse 28 12 blk tb tc) b (Z.of_nat (length l1 + 12)) ptn (pos + n) d.
Proof.
  intros b Hn Hp Hpn Hlen. destruct (chunk_header_read l1 CHUNK_TYPE_DONT_CARE n 12 l3) as (E1 & E2 & E3).
  assert (b = l1 ++ le_bytes 2 0 CHUNK_TYPE_DONT_CARE ++ le_bytes 2 0 0 ++ le_bytes 4 0 n ++ le_bytes 4 0 12 ++ l3) as Eb
    by (subst b; unfold chunk_header_bytes; by rewrite <- !app_assoc).
  rewrite <- Eb in E1, E2, E3. cbn [sparse_chunks chunk_hdr_sz blk_sz].
  change (CHUNK_HEADER_SIZE <? 12) with false. cbn iota. unfold CHUNK_HEADER_SIZE. rewrite E1, E2, E3. cbn [mbind res_bind].
  change (CHUNK_TYPE_DONT_CARE mod 2 ^ 16 =? CHUNK_TYPE_RAW) with false.
  change (CHUNK_TYPE_DONT_CARE mod 2 ^ 16 =? CHUNK_TYPE_DONT_CARE) with true. cbn iota.
  assert (length b = (length l1 + 12 + length l3)%nat) as Hlb by (subst b; rewrite !length_app, length_chunk_header; lia).
  rewrite (u32_small n), !u32_small by lia. f_equal. lia.
Qed.

Lemma sparse_chunks_expand blk tb tc cs l1 l2 ptn pos (d : D) :
  0 < blk → blk mod 512 = 0 → Forall (chunk_ok blk) cs → 0 ≤ pos → pos + sum_blocks blk cs < 2 ^ 32 →
  Z.of_nat (length (l1 ++ (cs ≫= chunk_bytes blk) ++ l2)) < 2 ^ 32 →
  sparse_chunks (length cs) (mkSparse 28 12 blk tb tc) (l1 ++ (cs ≫= chunk_bytes blk) ++ l2) (Z.of_nat (length l1)) ptn pos d =
  expand blk ptn pos cs d.
Proof.
  intros Hb H512 Hcs. revert l1 pos d. induction Hcs as [|c cs Hc Hcs IH]; intros l1 pos d Hp Hsum Hlen; [done|].
  pose proof (sum_blocks_nonneg blk cs ltac:(lia) Hcs) as Hs0.
  change ((c :: cs) ≫= chunk_bytes blk) with (chunk_bytes blk c ++ (cs ≫= chunk_bytes blk)) in *. rewrite <- app_assoc in *.
  cbn [length sum_blocks foldr] in *. fold (sum_blocks blk cs) in Hsum. destruct c as [data|n].
  - assert (0 ≤ chunk_blocks blk (Raw data)) as Hk0 by (cbn [chunk_blocks]; apply Z.div_pos; lia).
    rewrite chunk_bytes_raw in *. rewrite sparse_round_raw by (done || lia). cbn [expand].
    destruct (mmc_write (u64 (ptn + pos * blk)) (Z.of_nat (length data)) data 0 d) as [[ret d1]| |]; [|done..]. cbn [mbind res_bind].
    destruct (negb (ret =? 0)); [done|].
    set (hd := chunk_header_bytes _ _ _) in *. assert (length hd = 12%nat) as Hhd by apply length_chunk_header.
    replace (length l1 + 12 + length data)%nat with (length (l1 ++ hd ++ data)) by (rewrite !length_app; lia).
    assert (∀ x, l1 ++ hd ++ data ++ x = (l1 ++ hd ++ data) ++ x) as Ea by (intros x; by rewrite <- !app_assoc).
    rewrite Ea in *. apply IH; [lia|lia|done].
  - cbn [chunk_blocks chunk_ok] in *. rewrite chunk_bytes_skip in *. rewrite sparse_round_skip by (done || lia). cbn [expand].
    set (hd := chunk_header_bytes _ _ _) in *. assert (length hd = 12%nat) as Hhd by apply length_chunk_header.
    replace (length l1 + 12)%nat with (length (l1 ++ hd)) by (rewrite length_app; lia).
    rewrite app_assoc in *. apply IH; [lia|lia|done].
Qed.

(** The header of a sparse file. *)
Lemma read_sparse_header_file blk cs rest :
  0 ≤ blk < 2 ^ 32 → 0 ≤ sum_blocks blk cs < 2 ^ 32 → Z.of_nat (length cs) < 2 ^ 32 →
  read_sparse_header (sparse_file blk cs ++ rest) = Ok (mkSparse 28 12 blk (sum_blocks blk cs) (Z.of_nat (length cs))).
Proof.
  intros Hb Hs Hl. unfold read_sparse_header, sparse_file. rewrite <- !app_assoc.
  set (p0 := le_bytes 4 0 SPARSE_HEADER_MAGIC). set (p1 := le_bytes 2 0 1). set (p2 := le_bytes 2 0 0).
  set (p3 := le_bytes 2 0 28). set (p4 := le_bytes 2 0 12). set (p5 := le_bytes 4 0 blk).
  set (p6 := le_bytes 4 0 (sum_blocks blk cs)). set (p7 := le_bytes 4 0 (Z.of_nat (length cs))). set (t := le_bytes 4 0 0 ++ _).
  assert (GET_HALF (p0 ++ p1 ++ p2 ++ p3 ++ p4 ++ p5 ++ p6 ++ p7 ++ t) 8 = Ok 28) as ->.
  { rewrite (app_assoc p0), (app_assoc (p0 ++ p1)). apply (get_half_mid _ 28). reflexivity. }
  assert (GET_HALF (p0 ++ p1 ++ p2 ++ p3 ++ p4 ++ p5 ++ p6 ++ p7 ++ t) 10 = Ok 12) as ->.
  { rewrite (app_assoc p0), (app_assoc (p0 ++ p1)), (app_assoc ((p0 ++ p1) ++ p2)). apply (get_half_mid _ 12). reflexivity. }
  assert (GET_LWORD_FROM_BYTE (p0 ++ p1 ++ p2 ++ p3 ++ p4 ++ p5 ++ p6 ++ p7 ++ t) 12 = Ok blk) as ->.
  { replace (p0 ++ p1 ++ p2 ++ p3 ++ p4 ++ p5 ++ p6 ++ p7 ++ t) with ((p0 ++ p1 ++ p2 ++ p3 ++ p4) ++ p5 ++ p6 ++ p7 ++ t)
      by (by rewrite <- !app_assoc). rewrite <- (u32_small blk) by lia. apply get_lword_mid. reflexivity. }
  assert (GET_LWORD_FROM_BYTE (p0 ++ p1 ++ p2 ++ p3 ++ p4 ++ p5 ++ p6 ++ p7 ++ t) 16 = Ok (sum_blocks blk cs)) as ->.
  { replace (p0 ++ p1 ++ p2 ++ p3 ++ p4 ++ p5 ++ p6 ++ p7 ++ t) with ((p0 ++ p1 ++ p2 ++ p3 ++ p4 ++ p5) ++ p6 ++ p7 ++ t)
      by (by rewrite <- !app_assoc). rewrite <- (u32_small (sum_blocks blk cs)) by lia. apply get_lword_mid.
    rewrite !length_app. subst p5. rewrite length_le_bytes. reflexivity. }
  assert (GET_LWORD_FROM_BYTE (p0 ++ p1 ++ p2 ++ p3 ++ p4 ++ p5 ++ p6 ++ p7 ++ t) 20 = Ok (Z.of_nat (length cs))) as ->.
  { replace (p0 ++ p1 ++ p2 ++ p3 ++ p4 ++ p5 ++ p6 ++ p7 ++ t) with ((p0 ++ p1 ++ p2 ++ p3 ++ p4 ++ p5 ++ p6) ++ p7 ++ t)
      by (by rewrite <- !app_assoc). rewrite <- (u32_small (Z.of_nat (length cs))) by lia. apply get_lword_mid.
    rewrite !length_app. subst p5 p6. rewrite !length_le_bytes. reflexivity. }
  reflexivity.
Qed.

(** The loop ends at the sum of the blocks. *)
Lemma expand_done blk ptn pos cs (d : D) n d' :
  expand blk ptn pos cs d = Ok (SparseDone n, d') → n = pos + sum_blocks blk cs.
Proof.
  revert pos d. induction cs as [|c cs IH]; intros pos d; cbn [expand sum_blocks foldr].
  - intros [= <- _]. lia.
  - fold (sum_blocks blk cs). destruct c as [data|k]; [|intros E%IH; cbn [chunk_blocks]; lia].
    intros ([ret d1] & _ & E)%res_bind_ok. destruct (negb (ret =? 0)); [done|]. apply IH in E. lia.
Qed.

(** C14: flashing a sparse image writes the image it stands for: on a file of raw and
    don't-care chunks, cmd_flash_mmc_sparse_img does exactly the writes of the expanded
    image, each raw chunk at its own block of the partition and nothing for the skipped
    ones, and answers OKAY when all of them succeed and FAIL at the first that does
    not. *)
Theorem sparse_image_expands arg (s : fb app_cmd (aboot D)) blk cs rest index ptn size :
  download s = sparse_file blk cs ++ rest → Z.of_nat (length (download s)) < 2 ^ 32 →
  0 < blk < 2 ^ 32 → blk mod 512 = 0 → Forall (chunk_ok blk) cs → sum_blocks blk cs < 2 ^ 32 →
  partition_get_index arg (table (app s)) = Ok index → partition_get_offset index (table (app s)) = Ok ptn →
  partition_get_size index (table (app s)) = Ok size → ptn ≠ 0 → ROUND_TO_PAGE (download_size s) 511 ≤ size →
  cmd_flash_mmc_sparse_img arg s =
    ('(r, d) ← expand blk ptn 0 cs (card (app s));
     Ok (match r with
         | SparseFail msg => fastboot_fail msg (with_card d s)
         | SparseDone _ => fastboot_okay [] (with_card d s)
         end)).
Proof.
  intros Hd Hlen Hb H512 Hcs Hsum Ei Eo Es Hp Hfit. pose proof (sum_blocks_nonneg blk cs ltac:(lia) Hcs) as Hs0.
  assert (Z.of_nat (length cs) < 2 ^ 32) as Hn.
  { rewrite Hd in Hlen. unfold sparse_file in Hlen. rewrite !length_app in Hlen.
    assert (length cs ≤ length (cs ≫= chunk_bytes blk))%nat; [|lia]. clear. induction cs as [|c cs IH]; [done|].
    change ((c :: cs) ≫= chunk_bytes blk) with (chunk_bytes blk c ++ (cs ≫= chunk_bytes blk)). rewrite length_app. cbn [length].
    assert (1 ≤ length (chunk_bytes blk c))%nat; [|lia]. destruct c; cbn [chunk_bytes]; rewrite length_app, length_le_bytes; lia. }
  unfold cmd_flash_mmc_sparse_img, find_partition. rewrite Ei. cbn [mbind res_bind]. rewrite Eo. cbn [mbind res_bind].
  rewrite (proj2 (Z.eqb_neq _ _)), Es by done. cbn [mbind res_bind]. rewrite (proj2 (Z.ltb_ge _ _)) by done.
  rewrite Hd, read_sparse_header_file by lia. cbn [mbind res_bind total_chunks total_blks]. rewrite Nat2Z.id.
  change (first_chunk (mkSparse 28 12 blk (sum_blocks blk cs) (Z.of_nat (length cs)))) with 28.
  assert (∃ hd, length hd = 28%nat ∧ sparse_file blk cs ++ rest = hd ++ (cs ≫= chunk_bytes blk) ++ rest) as (hd & Hhd & Ef).
  { exists (take 28 (sparse_file blk cs)). unfold sparse_file. rewrite !app_assoc. 
    rewrite take_app_le by (rewrite !length_app, !length_le_bytes; lia).
    rewrite take_ge by (rewrite !length_app, !length_le_bytes; lia). rewrite !length_app, !length_le_bytes.
    split; [done|]. by rewrite <- !app_assoc. }
  pose proof (sparse_chunks_expand blk (sum_blocks blk cs) (Z.of_nat (length cs)) cs hd rest ptn 0 (card (app s))) as Hx.
  rewrite Hhd in Hx. change (Z.of_nat 28) with 28 in Hx. rewrite <- Ef, <- Hd in Hx. rewrite <- Hd, Hx by (done || lia).
  destruct (expand blk ptn 0 cs (card (app s))) as [[r d]| |] eqn:E; [|done..]. cbn [mbind res_bind].
  destruct r as [msg|n]; [done|]. apply expand_done in E. rewrite E, Z.add_0_l, Z.eqb_refl. done.
Qed.
End Refine.

#[local] Transparent le_bytes.

(** * A phone in fastboot mode *)

Module PhoneFastboot.
Import Phone.

(** The command table as aboot_init leaves it. *)
Definition powered : start :=
  mkStart false false true false false 0 (bytes_of "0123456789" ++ replicate 3 0) None true (bytes_of "phone")
    (mkInit true true true true true true) (replicate 8192 0) 7000.
Definition blank_fb {D} (a : aboot D) : fb app_cmd (aboot D) :=
  mkFb [] [] STATE_OFFLINE 0 0 [] (replicate 4096 0) [] [] false a.

(** with the back key pressed aboot_init comes up in fastboot mode, and every command
    reaches its own handler, "reboot-bootloader" not that of its prefix "reboot"; the
    variables are published. *)
Theorem commands_dispatch :
  match aboot_init false mach powered (blank_fb (off 1)) with
  | Ok s =>
      Some ((λ c, match find_cmd (bytes_of c ++ [0]) (cmdlist s) with Ok (Some (_, h)) => Some h | _ => None end) <$>
              ["boot"; "flash:boot"; "erase:misc"; "continue"; "reboot"; "reboot-bootloader"; "oem unlock";
               "oem device-info"; "getvar:product"; "download:10"],
            (λ v, find_var (bytes_of v) (varlist s)) <$> ["product"; "kernel"; "serialno"; "version"], gone s)
  | _ => None
  end =
  Some ([Some (H_app C_boot); Some (H_app C_flash); Some (H_app C_erase); Some (H_app C_continue);
         Some (H_app C_reboot); Some (H_app C_reboot_bootloader); Some (H_app C_oem_unlock);
         Some (H_app C_oem_devinfo); Some H_getvar; Some H_download],
        [Some (bytes_of "phone"); Some (bytes_of "lk"); Some (bytes_of "0123456789"); Some (bytes_of "0.5")], false).
Proof. vm_compute. reflexivity. Qed.

(** Without a key it boots the kernel. *)
Example boots_without_key :
  match aboot_init false mach (mkStart false false false false false 0 (bytes_of "0123456789" ++ replicate 3 0) None true []
          (mkInit true true true true true true) (replicate 8192 0) 7000) (blank_fb (off 1)) with
  | Ok s => Some (gone s, ke_kernel <$> kernel (app s), is_tampered (device (app s)))
  | _ => None
  end = Some (true, Some 0x208000, 0).
Proof. vm_compute. reflexivity. Qed.

(** The phone with a recording card and a downloaded image, in the middle of a command. *)
Definition logged_phone : aboot (logged ram_disk) :=
  mkAboot (mkLogged (disk 1) []) parts initial_device 0 2048 2047 false (replicate 4096 0) (replicate 4096 0)
    (bytes_of "0123456789" ++ replicate 3 0) [] None None.
Definition commanded (img : list Z) (answers : list usb_answer) : fb app_cmd (aboot (logged ram_disk)) :=
  mkFb [] [] STATE_COMMAND 4096 (Z.of_nat (length img)) (img ++ replicate (8192 - length img) 0) (replicate 4096 0)
    answers [] false logged_phone.
Definition ack : usb_answer := mkAnswer 0 0 [].

Definition small_image : list Z := bytes_of BOOT_MAGIC ++ replicate 600 7.

Lemma phone_commanded_ok : fb_ok (commanded small_image [ack]).
Proof. constructor; by vm_compute. Qed.

Lemma parts_ok : table_ok parts.
Proof.
  constructor; [reflexivity| |by vm_compute..]. apply Forall_cons. split; [by vm_compute|]. apply Forall_cons.
  split; [by vm_compute|]. by apply Forall_replicate.
Qed.

(** Every partition of the phone ends below 2^64. *)
Lemma parts_end index ptn size :
  partition_get_offset index parts = Ok ptn → partition_get_size index parts = Ok size → ptn + size ≤ 2 ^ 64.
Proof.
  unfold partition_get_offset, partition_get_size. destruct (Z.eqb_spec index INVALID_PTN); [by intros [= <-] [= <-]|].
  unfold get_entry. destruct (0 <=? index); [|done]. generalize (Z.to_nat index) as i. intros i.
  destruct (partition_entries parts !! i) as [e|] eqn:E; [|done]. cbn [deref mbind res_bind]. intros [= <-] [= <-].
  assert (e = entry "aboot" 2 2 ∨ e = entry "boot" 8 8 ∨ e = empty_entry) as [-> | [-> | ->]]; [|by vm_compute..].
  apply list_elem_of_lookup_2 in E. cbn [partition_entries parts] in E. rewrite !elem_of_cons in E.
  destruct E as [E|[E|E]]; [by left|by right; left|]. apply elem_of_replicate in E as [E _]. by right; right.
Qed.

Lemma flash_stays_in_partition_witness :
  ∃ s' new index ptn size, cmd_flash_mmc_img false (bytes_of "boot") (commanded small_image [ack]) = Ok s' ∧
    wrote (commanded small_image [ack]) s' new ∧ partition_get_index (bytes_of "boot") parts = Ok index ∧
    partition_get_offset index parts = Ok ptn ∧ partition_get_size index parts = Ok size ∧
    Forall (within ptn (ptn + size)) new.
Proof.
  apply (flash_stays_in_partition false (bytes_of "boot") (commanded small_image [ack]));
    [apply phone_commanded_ok|apply parts_ok|done|done| |by vm_compute; lia|by vm_compute|by vm_compute|apply parts_end].
  apply (bool_decide_unpack _). by vm_compute.
Defined.

(** The phone in fastboot mode, and what its host sends. *)
Definition in_fastboot (answers : list usb_answer) : fb app_cmd (aboot ram_disk) :=
  set_usb answers [] (fastboot_init (mkInit true true true true true true) (replicate 8192 0) 7000
                        (register_commands powered (blank_fb (off 1)))).2.
Definition said (s : string) : usb_answer := mkAnswer 0 0 (bytes_of s).

Lemma in_fastboot_ok answers : fb_ok (in_fastboot answers).
Proof. constructor; [done|done|by vm_compute|done|]. by apply (bool_decide_unpack _); vm_compute. Qed.

(** Two questions and a reset. *)
Definition session : list usb_answer :=
  [said "getvar:product"; ack; said "oem device-info"; ack; ack; ack; said "reboot"; ack].

Example phone_session_runs :
  match fastboot_command_loop (app_handle false mach) (in_fastboot session) with
  | Ok s => Some (take 4 <$> tx s, gone s, reset (app s))
  | _ => None
  end = Some (bytes_of <$> ["OKAY"; "INFO"; "INFO"; "OKAY"; "OKAY"], true, Some 0).
Proof. vm_compute. reflexivity. Qed.

Lemma fastboot_serves_witness :
  (∃ s', fastboot_command_loop (app_handle false mach) (in_fastboot session) = Ok s' ∧
     (gone s' = true ∧ departed (app s') ∨ gone s' = false ∧ fastboot_state s' = STATE_OFFLINE)) ∨
  (∃ s1 s2 p c, rtc (round (app_handle false mach)) (in_fastboot session) s1 ∧ receives s1 s2 ∧
     find_cmd (cmd_buffer s2) (cmdlist s2) = Ok (Some (p, H_app c)) ∧
     fastboot_command_loop (app_handle false mach) (in_fastboot session) = app_handle false mach c (argument p s2) (set_state STATE_COMMAND s2) ∧
     ∀ s', fastboot_command_loop (app_handle false mach) (in_fastboot session) ≠ Ok s').
Proof. apply (fastboot_serves false mach (in_fastboot session)); [apply in_fastboot_ok|done]. Defined.

Definition with_command (c : string) (answers : list usb_answer) : fb app_cmd (aboot ram_disk) :=
  set_cmd_buffer (bytes_of c ++ replicate (4096 - String.length c) 0) (in_fastboot answers).

Lemma with_command_ok c answers : (String.length c ≤ 4096)%nat → length (bytes_of c) = String.length c → fb_ok (with_command c answers).
Proof.
  intros Hl Hb. destruct (in_fastboot_ok answers). constructor; [|done..]. cbn [cmd_buffer with_command set_cmd_buffer].
  rewrite length_app, length_replicate, Hb. lia.
Qed.

Definition after (c : string) (answers : list usb_answer) : fb app_cmd (aboot ram_disk) :=
  default (with_command c answers) (match dispatch (app_handle false mach) (with_command c answers) with Ok s => Some s | _ => None end).

Lemma one_answer_per_command_witness :
  let s := with_command "reboot" [ack; ack; ack] in
  let s' := after "reboot" [ack; ack; ack] in
  handle (app_handle false mach) (H_app C_reboot) (argument (bytes_of "reboot") s) (set_state STATE_COMMAND s) = Ok s' ∧
  ∃ l, tx s' = tx s ++ l ∧
    (fastboot_state s' = STATE_COMPLETE ∧ finals l = 1%nat ∨
     fastboot_state s' = STATE_ERROR ∧ (finals l ≤ 1)%nat ∧ (link_up 3 s → H_app C_reboot = H_download)).
Proof.
  apply (one_answer_per_command false mach (with_command "reboot" [ack; ack; ack]) (bytes_of "reboot") (H_app C_reboot) (after "reboot" [ack; ack; ack]));
    [by apply with_command_ok; [vm_compute; lia|]|done|by vm_compute|by vm_compute].
Defined.

Definition heard (s : fb app_cmd (aboot ram_disk)) : fb app_cmd (aboot ram_disk) :=
  match usb_read (cmd_buffer s) MAX_RSP_SIZE s with
  | Ok (r, b, s1) => match store b r [0] with Ok b' => set_cmd_buffer b' s1 | _ => s end
  | _ => s
  end.

Definition message_arrives (s : fb app_cmd (aboot ram_disk)) : bool :=
  match usb_read (cmd_buffer s) MAX_RSP_SIZE s with
  | Ok (r, b, _) => (0 <=? r) && match store b r [0] with Ok _ => true | _ => false end
  | _ => false
  end.

Lemma heard_receives s : message_arrives s = true → receives s (heard s).
Proof.
  unfold message_arrives, heard. destruct (usb_read _ _ _) as [[[r b] s1]| |] eqn:E; [|done..].
  intros [Hr%Z.leb_le Hb]%andb_prop. destruct (store b r [0]) as [b'| |] eqn:Eb; [|done..]. by exists r, b, s1, b'.
Qed.

Lemma unknown_command_unanswered_witness :
  dispatch (app_handle false mach) (heard (in_fastboot [said "hello"; ack])) = Ok (heard (in_fastboot [said "hello"; ack])) ∧
  tx (heard (in_fastboot [said "hello"; ack])) = tx (in_fastboot [said "hello"; ack]).
Proof.
  apply (unknown_command_unanswered false mach (in_fastboot [said "hello"; ack]) (in_fastboot [said "hello"; ack]) (heard (in_fastboot [said "hello"; ack])));
    [apply in_fastboot_ok|done|done|apply rtc_refl|done|apply heard_receives; by vm_compute|by vm_compute].
Defined.

Definition flashed : fb app_cmd (aboot (logged ram_disk)) :=
  match app_handle false mach C_flash (bytes_of "boot") (commanded small_image [ack; ack; ack]) with Ok s => s | _ => commanded [] [] end.

Lemma answers_tell_the_truth_witness :
  tx flashed = [bytes_of "OKAY"] ∧ tells C_flash (bytes_of "boot") (commanded small_image [ack; ack; ack]) flashed.
Proof.
  split; [by vm_compute|].
  apply (answers_tell_the_truth false mach C_flash (bytes_of "boot") (commanded small_image [ack; ack; ack]) flashed).
  - constructor; by vm_compute.
  - done.
  - split; [cbn; lia|by repeat constructor].
  - right. split_and!; [done|done|by vm_compute].
  - by vm_compute.
Defined.

(** A sparse image: one block, a hole of two, one block. *)
Definition chunks : list chunk := [Raw (replicate 512 1); DontCare 2; Raw (replicate 512 2)].

Lemma chunks_ok : Forall (chunk_ok 512) chunks.
Proof.
  apply Forall_cons. split; [by vm_compute|]. apply Forall_cons. split; [by vm_compute|].
  apply Forall_cons. split; [by vm_compute|]. apply Forall_nil. done.
Qed.

Lemma sparse_image_expands_witness :
  cmd_flash_mmc_sparse_img (bytes_of "boot") (commanded (sparse_file 512 chunks) [ack]) =
    ('(r, d) ← expand 512 4096 0 chunks (card logged_phone);
     Ok (match r with
         | SparseFail msg => fastboot_fail msg (with_card d (commanded (sparse_file 512 chunks) [ack]))
         | SparseDone _ => fastboot_okay [] (with_card d (commanded (sparse_file 512 chunks) [ack]))
         end)).
Proof.
  apply (sparse_image_expands (bytes_of "boot") (commanded (sparse_file 512 chunks) [ack]) 512 chunks
           (replicate (8192 - length (sparse_file 512 chunks)) 0) 1 4096 4096);
    [reflexivity|by vm_compute|done|done|apply chunks_ok|by vm_compute|by vm_compute|by vm_compute|by vm_compute|done|by vm_compute].
Defined.

Example sparse_writes :
  match cmd_flash_mmc_sparse_img (bytes_of "boot") (commanded (sparse_file 512 chunks) [ack]) with
  | Ok s => Some (log (card (app s)), tx s)
  | _ => None
  end = Some ([(4096, 512); (4096 + 3 * 512, 512)], [bytes_of "OKAY"]).
Proof. vm_compute. reflexivity. Qed.

(** * Where the commands go wrong *)

(** Erasing is not confined to the partition: 16 KB of zeros are written at the start
    of a partition of 1 KB. *)
Theorem erase_leaves_partition :
  partition_get_offset 0 parts = Ok 1024 ∧ partition_get_size 0 parts = Ok 1024 ∧
  match cmd_erase_mmc (bytes_of "aboot") (commanded [] [ack]) with
  | Ok s => Some (log (card (app s)))
  | _ => None
  end = Some [(1024, 16384)].
Proof. vm_compute. done. Qed.

(** A sparse image is not confined to the partition either: only its size in the
    download area is checked, so a hole moves a raw chunk past the end of a partition of
    eight sectors. *)
Theorem sparse_leaves_partition :
  partition_get_size 1 parts = Ok 4096 ∧
  match cmd_flash_mmc_sparse_img (bytes_of "boot")
          (commanded (sparse_file 512 [DontCare 1000; Raw (replicate 512 1)]) [ack]) with
  | Ok s => Some (log (card (app s)))
  | _ => None
  end = Some [(4096 + 1000 * 512, 512)].
Proof. vm_compute. done. Qed.

(** A sparse header longer than 28 bytes is skipped twice: with file_hdr_sz = 32 the
    first chunk is looked for at 36. *)
Theorem long_sparse_header_skipped_twice :
  first_chunk (mkSparse 32 12 512 1 1) = 36.
Proof. reflexivity. Qed.

(** An image whose sizes add up to less than the download only because the sum wraps. *)
Definition wrapping_header : list Z :=
  bytes_of BOOT_MAGIC ++ le_bytes 4 0 0xFFFFF800 ++ le_bytes 4 0 0x208000 ++ le_bytes 4 0 0 ++ le_bytes 4 0 0x1200000 ++
  le_bytes 4 0 0 ++ le_bytes 4 0 0 ++ le_bytes 4 0 0x200100 ++ le_bytes 4 0 2048 ++ replicate 568 0.
Definition wrapping : fb app_cmd (aboot (logged ram_disk)) := commanded wrapping_header [ack].

Lemma slice_out b off n : Z.of_nat (length b) < off + Z.of_nat n → slice b off n = Fault.
Proof.
  intros Hn. unfold slice. destruct (in_range b off n) eqn:E; [|done]. apply in_range_spec in E. lia.
Qed.

(** The copy of the kernel, when the checks have passed. *)
Lemma cmd_boot_copies {D} `{BlockDevice D} m (s : fb app_cmd (aboot D)) h hps ks rs ka ra :
  HDR_SIZE ≤ download_size s → slice (download s) 0 (Z.to_nat HDR_SIZE) = Ok h → store h (HDR_CMDLINE + 511) [0] = Ok h →
  hdr_page_size h = Ok hps → hdr_kernel_size h = Ok ks → hdr_ramdisk_size h = Ok rs → hdr_kernel_addr h = Ok ka →
  hdr_ramdisk_addr h = Ok ra → is_emmc_boot (m_target m) = true → hps ≠ 0 →
  u32 (hps + ROUND_TO_PAGE ks (u32 (hps - 1)) + ROUND_TO_PAGE rs (u32 (hps - 1))) ≤ download_size s →
  0 ≤ ks → Z.of_nat (length (download s)) < hps + ks → cmd_boot m s = Fault.
Proof.
  intros H1 H2 H3 H4 H5 H6 H7 H8 H9 H10 H11 H12 H13. unfold cmd_boot. rewrite (proj2 (Z.ltb_ge _ _)), H2 by done.
  cbn [mbind res_bind]. rewrite H3. cbn [mbind res_bind]. rewrite H4, H5, H6. cbn [mbind res_bind].
  rewrite H9, (proj2 (Z.eqb_neq _ _)) by done. cbn [andb negb app set_app set_page page_size page_mask].
  rewrite (proj2 (Z.ltb_ge _ _)), H7, H8 by done. cbn [mbind res_bind download set_app].
  rewrite (slice_out (download s) hps (Z.to_nat ks)); [reflexivity|]. by rewrite Z2Nat.id.
Qed.

(** The completeness check of cmd_boot computes page_size + kernel_actual +
    ramdisk_actual in 32 bits: a kernel_size of 0xFFFFF800 makes the sum wrap to 0, the
    check passes, and the copy of the kernel leaves the download area. *)
Theorem boot_size_check_wraps : cmd_boot mach wrapping = Fault.
Proof.
  apply (cmd_boot_copies mach wrapping wrapping_header 2048 0xFFFFF800 0 0x208000 0x1200000); by vm_compute.
Qed.

(** A serial number of 13 characters is accepted for the 13-byte sn_buf, which then has
    no NUL: using it as a string runs past the array. *)
Theorem full_serial_unterminated :
  match set_usb_serial_num (Some (mkUsbInfo USB_ID_MAGIC_NUM 13 (replicate 13 65))) logged_phone with
  | Ok a => boot_flags_of a
  | _ => Panic
  end = Fault.
Proof. vm_compute. reflexivity. Qed.
End PhoneFastboot.
