(* ===== verification/InitLexer.v ===== *)
(** The tokenizer of Android init (src/init/init/parser.c) and the loop that collects
    the words of a line (parse_config of init_parser.c and ueventd_parser.c).

    next_token works in place: a word is compacted to the left inside the file buffer and
    terminated there, and the parsers keep pointers to it.  [mem] is that buffer, a
    pointer into it is an offset, and an access outside it is [Fault].  [word],
    [lex] and [lex_lines] are the reference: the same language read from an immutable
    text.  The theorems show that the words the parsers see, then and later, are those
    of the reference. *)
From Stdlib Require Import ZArith.
From stdpp Require Import base numbers list strings.
From S2P Require Import Prelude Bytes.

Definition T_EOF : Z := 0.
Definition T_TEXT : Z := 1.
Definition T_NEWLINE : Z := 2.

(** * Characters *)

Definition TAB : Z := 9.
Definition LF : Z := 10.
Definition CR : Z := 13.
Definition SP : Z := 32.
Definition QUOTE : Z := 34.
Definition HASH : Z := 35.
Definition BACKSLASH : Z := 92.
Definition chr_n : Z := 110.
Definition chr_r : Z := 114.
Definition chr_t : Z := 116.

Definition is_blank (c : Z) : bool := (c =? SP) || (c =? TAB) || (c =? CR).

(** * The code *)

Record parse_state := mkPS {
  mem : buffer;        (* the file, as read_file left it *)
  ptr : nat;
  text : nat;
  line : Z;
  nexttoken : Z
}.

(** The assignment of [c] to the character at [s]. *)
Definition poke (m : buffer) (s : nat) (c : Z) : res buffer :=
  if (s <? length m)%nat then Ok (<[s := c]> m) else Fault.

(** The loop over a comment: up to the end of the line or of the text. *)
Fixpoint skip_comment (fuel : nat) (m : buffer) (x : nat) : res nat :=
  match fuel with
  | O => Fault
  | S fuel =>
      c ← deref (m !! x);
      if negb (c =? 0) && negb (c =? LF) then skip_comment fuel m (S x) else Ok x
  end.

(** The loop that eats the whitespace of a continuation line. *)
Fixpoint skip_space (fuel : nat) (m : buffer) (x : nat) : res nat :=
  match fuel with
  | O => Fault
  | S fuel =>
      c ← deref (m !! x);
      if (c =? SP) || (c =? TAB) then skip_space fuel m (S x) else Ok x
  end.

Inductive skipped :=
  | Token (t : Z) (x : nat)   (* a token other than a word; [x] is the new [ptr] *)
  | Text (x : nat).           (* a word starts at [x] *)

(** The first loop of next_token. *)
Fixpoint skip_to_text (fuel : nat) (m : buffer) (x : nat) : res skipped :=
  match fuel with
  | O => Fault
  | S fuel =>
      c ← deref (m !! x);
      if c =? 0 then Ok (Token T_EOF x)
      else if c =? LF then Ok (Token T_NEWLINE (S x))
      else if is_blank c then skip_to_text fuel m (S x)
      else if c =? HASH then
        x ← skip_comment (S (length m)) m x;
        c ← deref (m !! x);
        if c =? LF then Ok (Token T_NEWLINE (S x)) else Ok (Token T_EOF x)
      else Ok (Text x)
  end.

(** The loop inside quotes: the buffer, [x] and [s] after it, and whether the closing
    quote was found. *)
Fixpoint scan_quote (fuel : nat) (m : buffer) (x s : nat) : res (buffer * nat * nat * bool) :=
  match fuel with
  | O => Fault
  | S fuel =>
      c ← deref (m !! x);
      if c =? 0 then Ok (m, x, s, false)
      else if c =? QUOTE then Ok (m, S x, s, true)
      else m ← poke m s c; scan_quote fuel m (S x) (S s)
  end.

Inductive scanned :=
  | TextDone (m : buffer) (x s : nat) (l : Z) (next : Z)
  | Unterminated (m : buffer) (x : nat) (l : Z).

(** The loop at textresume. *)
Fixpoint scan_text (fuel : nat) (m : buffer) (x s : nat) (l : Z) : res scanned :=
  match fuel with
  | O => Fault
  | S fuel =>
      c ← deref (m !! x);
      if c =? 0 then Ok (TextDone m x s l 0)
      else if is_blank c then Ok (TextDone m (S x) s l 0)
      else if c =? LF then Ok (TextDone m (S x) s l T_NEWLINE)
      else if c =? QUOTE then
        '(m, x, s, closed) ← scan_quote (S (length m)) m (S x) s;
        if closed : bool then scan_text fuel m x s l else Ok (Unterminated m x l)
      else if c =? BACKSLASH then
        let x := S x in
        c ← deref (m !! x);
        if c =? 0 then Ok (TextDone m x s l 0)
        else if c =? chr_n then m ← poke m s LF; scan_text fuel m x (S s) l
        else if c =? chr_r then m ← poke m s CR; scan_text fuel m x (S s) l
        else if c =? chr_t then m ← poke m s TAB; scan_text fuel m x (S s) l
        else if c =? BACKSLASH then m ← poke m s BACKSLASH; scan_text fuel m x (S s) l
        else if c =? CR then
          c1 ← deref (m !! S x);
          if negb (c1 =? LF) then scan_text fuel m (S x) s l
          else x ← skip_space (S (length m)) m (S x); scan_text fuel m x s (l + 1)
        else if c =? LF then
          x ← skip_space (S (length m)) m (S x); scan_text fuel m x s (l + 1)
        else m ← poke m s c; scan_text fuel m (S x) (S s) l
      else m ← poke m s c; scan_text fuel m (S x) (S s) l
  end.

Definition next_token (st : parse_state) : res (Z * parse_state) :=
  if negb (nexttoken st =? 0) then
    Ok (nexttoken st, mkPS (mem st) (ptr st) (text st) (line st) 0)
  else
    k ← skip_to_text (S (length (mem st))) (mem st) (ptr st);
    match k with
    | Token t x => Ok (t, mkPS (mem st) x (text st) (line st) 0)
    | Text x =>
        r ← scan_text (S (length (mem st))) (mem st) x x (line st);
        match r with
        | TextDone m x' s l next =>
            m ← poke m s 0;
            Ok (T_TEXT, mkPS m x' x l next)
        | Unterminated m x' l => Ok (T_EOF, mkPS m x' x l 0)
        end
    end.

(** * The reference *)

(** A word: its characters, the text behind it, the token that follows at once (0 or
    T_NEWLINE) and the number of continuation lines in it. *)
Definition word_t : Type := list Z * list Z * Z * Z.

Definition push (c : Z) (r : option word_t) : option word_t :=
  '(w, rest, next, k) ← r; Some (c :: w, rest, next, k).
Definition next_line (r : option word_t) : option word_t :=
  '(w, rest, next, k) ← r; Some (w, rest, next, k + 1).

(** The characters of a word from [cs] on; [quoted]: inside quotes; [eat]: at the start
    of a continuation line.  [None] when the text ends inside quotes.

    After an escape n, r, t or backslash the second character is read again. *)
Fixpoint word (quoted eat : bool) (cs : list Z) : option word_t :=
  match cs with
  | [] => if quoted then None else Some ([], [], 0, 0)
  | c :: r =>
      if quoted then
        if c =? QUOTE then word false false r else push c (word true false r)
      else if eat && ((c =? SP) || (c =? TAB)) then word false true r
      else if is_blank c then Some ([], r, 0, 0)
      else if c =? LF then Some ([], r, T_NEWLINE, 0)
      else if c =? QUOTE then word true false r
      else if c =? BACKSLASH then
        match r with
        | [] => Some ([], [], 0, 0)
        | d :: r' =>
            if d =? chr_n then push LF (word false false r)
            else if d =? chr_r then push CR (word false false r)
            else if d =? chr_t then push TAB (word false false r)
            else if d =? BACKSLASH then push BACKSLASH (word false false r)
            else if d =? CR then
              match r' with
              | e :: _ => if e =? LF then next_line (word false true r') else word false false r'
              | [] => word false false r'
              end
            else if d =? LF then next_line (word false true r')
            else push d (word false false r')
        end
      else push c (word false false r)
  end.

(** What comes next in a text: [comment] when inside a comment. *)
Inductive lexeme :=
  | LEof
  | LNewline (rest : list Z)
  | LWord (cs : list Z).        (* a word starts here *)

Fixpoint lex_start (comment : bool) (cs : list Z) : lexeme :=
  match cs with
  | [] => LEof
  | c :: r =>
      if c =? LF then LNewline r
      else if comment then lex_start true r
      else if is_blank c then lex_start false r
      else if c =? HASH then lex_start true r
      else LWord cs
  end.

(** * The code on a text *)

(** [m] holds the text [cs] behind [pre], closed by NUL. *)
Definition holds (m : buffer) (pre cs tl : list Z) : Prop := m = pre ++ cs ++ 0 :: tl.

Lemma holds_nil m pre tl : holds m pre [] tl → m !! length pre = Some 0.
Proof. intros ->. by rewrite lookup_app_r, Nat.sub_diag by lia. Qed.

Lemma holds_cons m pre c cs tl : holds m pre (c :: cs) tl → m !! length pre = Some c.
Proof. intros ->. by rewrite lookup_app_r, Nat.sub_diag by lia. Qed.

Lemma holds_step m pre c cs tl : holds m pre (c :: cs) tl → holds m (pre ++ [c]) cs tl.
Proof. unfold holds. intros ->. by rewrite <- app_assoc. Qed.

Lemma holds_length m pre cs tl : holds m pre cs tl → (length pre + length cs < length m)%nat.
Proof. intros ->. rewrite !length_app. cbn. lia. Qed.

Lemma length_snoc {A} (l : list A) x : length (l ++ [x]) = S (length l).
Proof. rewrite length_app. cbn. lia. Qed.

Lemma poke_mid pre b post c : poke (pre ++ b :: post) (length pre) c = Ok (pre ++ c :: post).
Proof.
  unfold poke. rewrite (proj2 (Nat.ltb_lt _ _)) by (rewrite length_app; cbn; lia).
  by rewrite insert_app_r_alt, Nat.sub_diag by lia.
Qed.

(** Writing the character just read: the write position is at or before it. *)
Lemma poke_holds m pre mid c cs tl d :
  holds m (pre ++ mid) (c :: cs) tl →
  ∃ m' mid', poke m (length pre) d = Ok m' ∧ holds m' ((pre ++ [d]) ++ mid') cs tl ∧
             length mid' = length mid ∧ length m' = length m.
Proof.
  intros ->. destruct mid as [|b mid].
  - exists (pre ++ d :: cs ++ 0 :: tl), []. rewrite app_nil_r. cbn. rewrite poke_mid.
    split_and!; [done|unfold holds; by rewrite app_nil_r, <- app_assoc|done|].
    rewrite !length_app. cbn. by rewrite !length_app.
  - exists (pre ++ d :: mid ++ c :: cs ++ 0 :: tl), (mid ++ [c]). rewrite <- app_assoc. cbn. rewrite poke_mid.
    split_and!; [done|unfold holds; by rewrite <- !app_assoc|rewrite length_snoc; done|].
    rewrite !length_app. cbn. by rewrite !length_app.
Qed.

(** Reading the next character of the text. *)
Ltac peek H :=
  first [rewrite (holds_nil _ _ _ H) | rewrite (holds_cons _ _ _ _ _ H)]; cbn [deref mbind res_bind].
Ltac not_nul c := rewrite (proj2 (Z.eqb_neq c 0)) by done.

Definition no_nul (cs : list Z) : Prop := Forall (λ c, c ≠ 0) cs.

Lemma skip_comment_ok fuel m pre cs tl :
  holds m pre cs tl → no_nul cs → (length cs < fuel)%nat →
  ∃ skip rest, skip_comment fuel m (length pre) = Ok (length (pre ++ skip)) ∧ cs = skip ++ rest ∧
    lex_start true cs = match rest with [] => LEof | _ :: r => LNewline r end ∧
    (rest = [] ∨ ∃ r, rest = LF :: r).
Proof.
  intros Hm Hn. revert pre fuel Hm. induction Hn as [|c cs Hc Hn IH]; intros pre [|fuel] Hm Hf; cbn in Hf; try lia;
    cbn [skip_comment]; peek Hm.
  { exists [], []. rewrite app_nil_r. eauto. }
  not_nul c. cbn [negb andb lex_start].
  destruct (Z.eqb_spec c LF) as [->|Hl]; cbn [negb].
  { exists [], (LF :: cs). rewrite app_nil_r. split_and!; eauto. }
  destruct (IH (pre ++ [c]) fuel (holds_step _ _ _ _ _ Hm) ltac:(lia)) as (skip & rest & E & -> & HL & Hr).
  exists (c :: skip), rest. rewrite length_snoc in E. rewrite E. split_and!; [|done..].
  by rewrite <- app_assoc.
Qed.

Lemma skip_to_text_ok fuel m pre cs tl :
  holds m pre cs tl → no_nul cs → (length cs < fuel)%nat →
  ∃ skip rest, cs = skip ++ rest ∧
    match lex_start false cs with
    | LEof => skip_to_text fuel m (length pre) = Ok (Token T_EOF (length (pre ++ skip))) ∧ rest = []
    | LNewline r => skip_to_text fuel m (length pre) = Ok (Token T_NEWLINE (length (pre ++ skip))) ∧ rest = r
    | LWord r => skip_to_text fuel m (length pre) = Ok (Text (length (pre ++ skip))) ∧ rest = r ∧ r ≠ []
    end.
Proof.
  intros Hm Hn. revert pre fuel Hm. induction Hn as [|c cs Hc Hn IH]; intros pre [|fuel] Hm Hf; cbn in Hf; try lia;
    cbn [skip_to_text]; peek Hm.
  { exists [], []. cbn. by rewrite app_nil_r. }
  not_nul c. cbn [lex_start]. destruct (Z.eqb_spec c LF) as [->|Hl].
  { exists [LF], cs. by rewrite length_snoc. }
  destruct (is_blank c).
  { destruct (IH (pre ++ [c]) fuel (holds_step _ _ _ _ _ Hm) ltac:(lia)) as (skip & rest & -> & E).
    exists (c :: skip), rest. split; [done|]. by rewrite length_snoc, <- app_assoc in E. }
  destruct (Z.eqb_spec c HASH) as [->|Hh].
  - destruct (skip_comment_ok (S (length m)) m pre (HASH :: cs) tl Hm) as (skip & rest & -> & E & HL & Hr);
      [by constructor|pose proof (holds_length _ _ _ _ Hm); lia|].
    cbn [mbind res_bind]. change (lex_start true (HASH :: cs)) with (lex_start true cs) in HL. rewrite HL.
    assert (holds m (pre ++ skip) rest tl) as Hm' by (rewrite Hm, E; unfold holds; by rewrite <- !app_assoc).
    destruct Hr as [->|[r ->]]; peek Hm'; [by exists skip, []|].
    exists (skip ++ [LF]), r. rewrite app_assoc, length_snoc, E. by rewrite <- app_assoc.
  - exists [], (c :: cs). cbn. by rewrite app_nil_r.
Qed.

(** Continuation lines: the whitespace is skipped. *)
Lemma skip_space_ok fuel m pre cs tl :
  holds m pre cs tl → no_nul cs → (length cs < fuel)%nat →
  ∃ skip rest, skip_space fuel m (length pre) = Ok (length (pre ++ skip)) ∧ cs = skip ++ rest ∧
    word false true cs = word false false rest.
Proof.
  intros Hm Hn. revert pre fuel Hm. induction Hn as [|c cs Hc Hn IH]; intros pre [|fuel] Hm Hf; cbn in Hf; try lia;
    cbn [skip_space]; peek Hm.
  { exists [], []. cbn. by rewrite app_nil_r. }
  destruct ((c =? SP) || (c =? TAB)) eqn:Es.
  - destruct (IH (pre ++ [c]) fuel (holds_step _ _ _ _ _ Hm) ltac:(lia)) as (skip & rest & E & -> & Hw).
    exists (c :: skip), rest. rewrite length_snoc in E. rewrite E, <- app_assoc. split_and!; [done..|].
    cbn [word andb]. by rewrite Es.
  - exists [], (c :: cs). cbn [word andb]. rewrite Es, app_nil_r. done.
Qed.

(** The outcome of scan_text that belongs to the word [r] of the reference. *)
Definition scan_post (len : nat) (pre tl : list Z) (l : Z) (r : option word_t) (out : res scanned) : Prop :=
  match r with
  | Some (w, rest, next, k) =>
      ∃ m' mid', out = Ok (TextDone m' (length ((pre ++ w) ++ mid')) (length (pre ++ w)) (l + k) next) ∧
        holds m' ((pre ++ w) ++ mid') rest tl ∧ length m' = len ∧ (mid' = [] → rest = [])
  | None =>
      ∃ m' used l', out = Ok (Unterminated m' (length (pre ++ used)) l') ∧
        holds m' (pre ++ used) [] tl ∧ length m' = len
  end.

Lemma scan_post_push len pre tl l r out d :
  scan_post len (pre ++ [d]) tl l r out → scan_post len pre tl l (push d r) out.
Proof.
  destruct r as [[[[w rest] next] k]|]; cbn.
  - intros (m' & mid' & H). exists m', mid'. by rewrite <- (app_assoc pre [d] w) in H.
  - intros (m' & used & l' & H). exists m', (d :: used), l'. by rewrite <- (app_assoc pre [d] used) in H.
Qed.

Lemma scan_post_pushes len pre tl l r out w :
  scan_post len (pre ++ w) tl l r out → scan_post len pre tl l (foldr push r w) out.
Proof.
  revert pre. induction w as [|c w IH]; intros pre H; [by rewrite app_nil_r in H|].
  apply scan_post_push, IH. by rewrite <- app_assoc.
Qed.

Lemma scan_post_line len pre tl l r out :
  scan_post len pre tl (l + 1) r out → scan_post len pre tl l (next_line r) out.
Proof.
  destruct r as [[[[w rest] next] k]|]; cbn; [|done].
  intros (m' & mid' & H). exists m', mid'. by replace (l + (k + 1)) with (l + 1 + k) by lia.
Qed.

Lemma scan_post_end m pre mid tl l next rest x :
  holds m (pre ++ mid) rest tl → x = length (pre ++ mid) → (mid = [] → rest = []) →
  scan_post (length m) pre tl l (Some ([], rest, next, 0)) (Ok (TextDone m x (length pre) l next)).
Proof. intros Hm -> Hr. exists m, mid. rewrite app_nil_r, Z.add_0_r. done. Qed.

Lemma scan_quote_ok fuel m pre mid cs tl :
  holds m (pre ++ mid) cs tl → no_nul cs → (length cs < fuel)%nat →
  ∃ m' w mid' rest closed,
    scan_quote fuel m (length (pre ++ mid)) (length pre) =
      Ok (m', length ((pre ++ w) ++ mid'), length (pre ++ w), closed) ∧
    holds m' ((pre ++ w) ++ mid') rest tl ∧ length m' = length m ∧ no_nul rest ∧
    (length rest ≤ length cs)%nat ∧
    if closed then mid' ≠ [] ∧ word true false cs = foldr push (word false false rest) w
    else rest = [] ∧ word true false cs = None.
Proof.
  intros Hm Hn. revert m pre mid fuel Hm. induction Hn as [|c cs Hc Hn IH]; intros m pre mid [|fuel] Hm Hf; cbn in Hf;
    try lia; cbn [scan_quote]; peek Hm.
  { exists m, [], mid, [], false. rewrite app_nil_r. split_and!; [done|done|done|apply Forall_nil_2|cbn; lia|done..]. }
  not_nul c. cbn [word]. destruct (Z.eqb_spec c QUOTE) as [->|Hq].
  { exists m, [], (mid ++ [QUOTE]), cs, true. rewrite app_nil_r, app_assoc, length_snoc.
    split_and!; [done|by apply holds_step|done|done|cbn; lia|by destruct mid|done]. }
  destruct (poke_holds _ _ _ _ _ _ c Hm) as (m1 & mid1 & -> & Hm1 & Hl & Hl1). cbn [mbind res_bind].
  replace (S (length (pre ++ mid))) with (length ((pre ++ [c]) ++ mid1)) by (rewrite !length_app; cbn; lia).
  rewrite <- (length_snoc pre c).
  destruct (IH m1 (pre ++ [c]) mid1 fuel Hm1 ltac:(lia)) as (m' & w & mid' & rest & closed & -> & Hm' & Hl' & Hr & Hlr & Hc').
  exists m', (c :: w), mid', rest, closed. rewrite <- (app_assoc pre [c] w) in *. cbn [app length foldr] in *.
  split_and!; [done|done|congruence|done|lia|].
  destruct closed; destruct Hc' as [? ->]; done.
Qed.

Section ScanText.
Context (tl : list Z).

Definition scans (cs : list Z) : Prop := ∀ fuel m pre mid l,
  holds m (pre ++ mid) cs tl → (length cs < fuel)%nat →
  scan_post (length m) pre tl l (word false false cs)
    (scan_text fuel m (length (pre ++ mid)) (length pre) l).

(** A character is consumed and [d] is written. *)
Lemma scan_emit c cs d fuel m pre mid l :
  scans cs → holds m (pre ++ mid) (c :: cs) tl → (length cs < fuel)%nat →
  scan_post (length m) pre tl l (push d (word false false cs))
    (m ← poke m (length pre) d; scan_text fuel m (S (length (pre ++ mid))) (S (length pre)) l).
Proof.
  intros Hs Hm Hf. destruct (poke_holds _ _ _ _ _ _ d Hm) as (m1 & mid1 & -> & Hm1 & Hl & Hl1).
  cbn [mbind res_bind]. rewrite <- Hl1, <- (length_snoc pre d).
  replace (S (length (pre ++ mid))) with (length ((pre ++ [d]) ++ mid1)) by (rewrite !length_app; cbn; lia).
  by apply scan_post_push, Hs.
Qed.

(** Characters are consumed and nothing is written. *)
Lemma scan_skip cs fuel m pre mid l x :
  scans cs → holds m (pre ++ mid) cs tl → x = length (pre ++ mid) → (length cs < fuel)%nat →
  scan_post (length m) pre tl l (word false false cs) (scan_text fuel m x (length pre) l).
Proof. intros Hs Hm -> Hf. by apply Hs. Qed.

(** A line continuation. *)
Lemma scan_continue cs fuel m pre mid l x :
  (∀ rest, (length rest ≤ length cs)%nat → no_nul rest → scans rest) →
  no_nul cs → holds m (pre ++ mid) cs tl → x = length (pre ++ mid) → (length cs < fuel)%nat →
  scan_post (length m) pre tl l (next_line (word false true cs))
    (x ← skip_space (S (length m)) m x; scan_text fuel m x (length pre) (l + 1)).
Proof.
  intros Hs Hn Hm -> Hf. pose proof (holds_length _ _ _ _ Hm) as Hlen.
  destruct (skip_space_ok (S (length m)) m (pre ++ mid) cs tl Hm Hn) as (skip & rest & -> & -> & ->); [lia|].
  cbn [mbind res_bind]. apply scan_post_line. rewrite <- app_assoc.
  rewrite length_app in Hf, Hs. apply Forall_app in Hn as [_ Hn].
  apply (scan_skip rest _ _ _ (mid ++ skip)); [apply Hs; [lia|done]| |done|lia].
  rewrite Hm. unfold holds. by rewrite <- !app_assoc.
Qed.

Lemma word_escape d r :
  word false false (BACKSLASH :: d :: r) =
    if d =? chr_n then push LF (word false false (d :: r))
    else if d =? chr_r then push CR (word false false (d :: r))
    else if d =? chr_t then push TAB (word false false (d :: r))
    else if d =? BACKSLASH then push BACKSLASH (word false false (d :: r))
    else if d =? CR then
      match r with
      | e :: _ => if e =? LF then next_line (word false true r) else word false false r
      | [] => word false false r
      end
    else if d =? LF then next_line (word false true r)
    else push d (word false false r).
Proof. reflexivity. Qed.

(** The step at a backslash. *)
Lemma scan_escape d r fuel m pre mid l :
  (∀ rest, (length rest ≤ S (length r))%nat → no_nul rest → scans rest) →
  no_nul (d :: r) → holds m (pre ++ mid) (BACKSLASH :: d :: r) tl → (S (length r) < fuel)%nat →
  scan_post (length m) pre tl l (word false false (BACKSLASH :: d :: r))
    (scan_text (S fuel) m (length (pre ++ mid)) (length pre) l).
Proof.
  intros Hs Hn Hm Hf. pose proof (holds_step _ _ _ _ _ Hm) as Hm1. pose proof (holds_step _ _ _ _ _ Hm1) as Hm2.
  apply Forall_cons in Hn as [Hd Hr].
  assert (∀ e, scan_post (length m) pre tl l (push e (word false false (d :: r)))
    (m ← poke m (length pre) e; scan_text fuel m (S (length (pre ++ mid))) (S (length pre)) l)) as Hemit.
  { intros e. eapply scan_emit; [|done|cbn; lia]. apply Hs; [cbn; lia|by constructor]. }
  pose proof (holds_cons _ _ _ _ _ Hm1) as Hat. rewrite length_snoc in Hat.
  rewrite word_escape. cbn [scan_text]. peek Hm. change (BACKSLASH =? 0) with false.
  change (is_blank BACKSLASH) with false. change (BACKSLASH =? LF) with false. change (BACKSLASH =? QUOTE) with false.
  change (BACKSLASH =? BACKSLASH) with true. cbv beta iota zeta. rewrite Hat. cbn [deref mbind res_bind]. not_nul d.
  destruct (d =? chr_n); [apply Hemit|]. destruct (d =? chr_r); [apply Hemit|].
  destruct (d =? chr_t); [apply Hemit|]. destruct (d =? BACKSLASH); [apply Hemit|].
  assert (S (S (length (pre ++ mid))) = length (pre ++ mid ++ [BACKSLASH; d])) as Hx
    by (rewrite !length_app; cbn; lia).
  assert (holds m (pre ++ mid ++ [BACKSLASH; d]) r tl) as Hm2' by (rewrite Hm2; unfold holds; by rewrite <- !app_assoc).
  destruct (d =? CR).
  { destruct r as [|e r].
    - pose proof (holds_nil _ _ _ Hm2) as Hat2. rewrite !length_snoc in Hat2. rewrite Hat2. cbn [deref mbind res_bind].
      eapply scan_skip; [by apply Hs; [cbn; lia|]|exact Hm2'|done|cbn; lia].
    - pose proof (holds_cons _ _ _ _ _ Hm2) as Hat2. rewrite !length_snoc in Hat2. rewrite Hat2. cbn [deref mbind res_bind].
      destruct (e =? LF); cbn [negb].
      + eapply scan_continue; [|done|exact Hm2'|done|cbn in *; lia]. intros rest Hl. apply Hs. cbn in *. lia.
      + eapply scan_skip; [by apply Hs; [cbn; lia|]|exact Hm2'|done|cbn in *; lia]. }
  destruct (d =? LF).
  { eapply scan_continue; [|done|exact Hm2'|done|lia]. intros rest Hl. apply Hs. lia. }
  rewrite <- app_assoc in Hm1.
  replace (S (length (pre ++ mid))) with (length (pre ++ mid ++ [BACKSLASH])) by (rewrite !length_app; cbn; lia).
  eapply scan_emit; [apply Hs; [lia|done]|exact Hm1|lia].
Qed.

(** The code scans the word of the reference. *)
Lemma scan_text_ok cs : no_nul cs → scans cs.
Proof.
  enough (∀ n cs, (length cs ≤ n)%nat → no_nul cs → scans cs) by eauto.
  clear cs. intros n. induction n as [|n IH]; intros cs Hl Hn [|fuel] m pre mid l Hm Hf; try lia.
  { destruct cs; cbn in Hl; [|lia]. cbn [scan_text]. peek Hm. by eapply scan_post_end. }
  destruct Hn as [|c cs Hc Hn]; cbn in Hl, Hf.
  { cbn [scan_text]. peek Hm. by eapply scan_post_end. }
  pose proof (holds_step _ _ _ _ _ Hm) as Hm1. rewrite <- app_assoc in Hm1.
  assert (S (length (pre ++ mid)) = length (pre ++ mid ++ [c])) as Hx by (rewrite !length_app; cbn; lia).
  destruct (Z.eqb_spec c BACKSLASH) as [->|Hb].
  { destruct cs as [|d r].
    - cbn [scan_text word andb]. peek Hm. cbn -[length scan_post]. rewrite Hx, (holds_nil _ _ _ Hm1).
      by eapply scan_post_end.
    - apply scan_escape; [|done|done|cbn in Hf; lia]. intros rest Hr. apply IH. cbn in Hl. lia. }
  cbn [scan_text word andb]. peek Hm. not_nul c. rewrite (proj2 (Z.eqb_neq c BACKSLASH)) by done. rewrite Hx.
  destruct (is_blank c); [eapply scan_post_end; [exact Hm1|done|by destruct mid]|].
  destruct (c =? LF); [eapply scan_post_end; [exact Hm1|done|by destruct mid]|].
  destruct (c =? QUOTE).
  - destruct (scan_quote_ok (S (length m)) m pre (mid ++ [c]) cs tl Hm1 Hn) as
      (m' & w & mid' & rest & closed & -> & Hm' & Hl' & Hr & Hlr & Hw);
      [pose proof (holds_length _ _ _ _ Hm1); lia|].
    cbn [mbind res_bind]. rewrite <- Hl'. destruct closed; destruct Hw as [Hmid ->].
    + apply scan_post_pushes. eapply scan_skip; [apply IH; [lia|done]|exact Hm'|done|lia].
    + subst rest. exists m', (w ++ mid'), l. by rewrite app_assoc.
  - rewrite <- Hx. eapply scan_emit; [apply IH; [lia|done]|exact Hm|lia].
Qed.
End ScanText.

(** * Facts about the reference *)

(** A word ends before its text does, and holds no NUL. *)
Definition word_ok (cs : list Z) (r : option word_t) : Prop :=
  match r with
  | Some (w, rest, next, _) =>
      no_nul w ∧ no_nul rest ∧ (length rest ≤ pred (length cs))%nat ∧ (next = 0 ∨ next = T_NEWLINE)
  | None => True
  end.

Lemma word_ok_push c d cs r : d ≠ 0 → word_ok cs r → word_ok (c :: cs) (push d r).
Proof.
  intros Hd. destruct r as [[[[w rest] next] k]|]; [|done]. cbn. intros (? & ? & ? & ?).
  split_and!; [by constructor|done|lia|done].
Qed.
Lemma word_ok_line cs r : word_ok cs r → word_ok cs (next_line r).
Proof. by destruct r as [[[[w rest] next] k]|]. Qed.
Lemma word_ok_cons c cs r : word_ok cs r → word_ok (c :: cs) r.
Proof. destruct r as [[[[w rest] next] k]|]; [|done]. cbn. intros (? & ? & ? & ?). split_and!; [done|done|lia|done]. Qed.
Lemma word_ok_end c cs next : no_nul cs → next = 0 ∨ next = T_NEWLINE → word_ok (c :: cs) (Some ([], cs, next, 0)).
Proof. intros ? Hn. cbn. split_and!; [apply Forall_nil_2|done|done|done]. Qed.

Create HintDb lexer.
#[export] Hint Resolve word_ok_push word_ok_line word_ok_cons word_ok_end Forall_nil_2 : lexer.

Lemma word_is_ok q e cs : no_nul cs → word_ok cs (word q e cs).
Proof.
  enough (∀ n cs, (length cs ≤ n)%nat → no_nul cs → ∀ q e, word_ok cs (word q e cs)) by eauto.
  clear. intros n. induction n as [|n IH]; intros cs Hl Hn q e;
    [destruct cs; [|cbn in Hl; lia]; destruct q; cbn; auto with lexer|].
  destruct cs as [|c r]; [destruct q; cbn; auto with lexer|]. apply Forall_cons in Hn as [Hc Hn]. cbn in Hl. cbn [word].
  pose proof (IH r ltac:(lia) Hn) as IHr. destruct q; [case_match; auto with lexer|].
  do 4 (case_match; [auto with lexer|]). case_match; [|auto with lexer].
  destruct r as [|d r']; [cbn; auto 6 with lexer|]. apply Forall_cons in Hn as [Hd Hr]. cbn in Hl.
  pose proof (IH r' ltac:(lia) Hr) as IHr'.
  do 4 (case_match; [apply word_ok_push; done|]).
  case_match; [repeat case_match; auto with lexer|]. case_match; auto with lexer.
Qed.

(** * Tokens *)

Inductive rtoken :=
  | REof
  | RNewline (rest : list Z)
  | RWord (w rest : list Z) (next k : Z).

Definition lex (cs : list Z) : rtoken :=
  match lex_start false cs with
  | LEof => REof
  | LNewline r => RNewline r
  | LWord r =>
      match word false false r with
      | Some (w, rest, next, k) => RWord w rest next k
      | None => REof
      end
  end.

(** The string at a pointer. *)
Definition str (m : buffer) (p : nat) : list Z := c_string (drop p m).

(** Going on from [ptr] = [q], in buffer [m], the text before [q] stays as it is, and all
    of it when the text has ended. *)
Definition extends (m : buffer) (q : nat) (m' : buffer) (q' : nat) : Prop :=
  (q ≤ q')%nat ∧ take q m' = take q m ∧ (m !! q = Some 0 → m' = m).

(** [p] points to a string that ends before [q]. *)
Definition ended (m : buffer) (q p : nat) : Prop := ∃ e, (p ≤ e ≤ q)%nat ∧ m !! e = Some 0.

Lemma c_string_take l i : l !! i = Some 0 → c_string (take (S i) l) = c_string l.
Proof.
  revert i. induction l as [|c l IH]; intros [|i] H; try done; cbn in H |- *.
  - by injection H as ->.
  - destruct (c =? 0); [done|]. f_equal. apply (IH i H).
Qed.

Lemma str_local m m' p e :
  (p ≤ e)%nat → m !! e = Some 0 → take (S e) m' = take (S e) m → str m' p = str m p.
Proof.
  intros Hp He Ht. unfold str.
  assert (m' !! e = Some 0) as He' by (rewrite <- (lookup_take_lt m' (S e)), Ht, lookup_take_lt by lia; done).
  rewrite <- (c_string_take (drop p m) (e - p)) by (rewrite lookup_drop; rewrite <- He; f_equal; lia).
  rewrite <- (c_string_take (drop p m') (e - p)) by (rewrite lookup_drop; rewrite <- He'; f_equal; lia).
  rewrite !take_drop_commute. replace (p + S (e - p))%nat with (S e) by lia. by rewrite Ht.
Qed.

Lemma extends_grow m q q' : (q ≤ q')%nat → extends m q m q'.
Proof. done. Qed.

(** A string that has ended stays what it is. *)
Lemma ended_extends m q m' q' p :
  ended m q p → extends m q m' q' → ended m' q' p ∧ str m' p = str m p.
Proof.
  intros (e & Hpe & He) (Hq & Ht & H0). destruct (decide (e = q)) as [->|Hne].
  { rewrite H0 by done. split; [|done]. exists q. split; [lia|done]. }
  assert (take (S e) m' = take (S e) m) as Ht'.
  { replace (S e) with (S e `min` q)%nat by lia. by rewrite <- !take_take, Ht. }
  split; [|by apply (str_local m m' p e); [lia|..]]. exists e. split; [lia|].
  rewrite <- (lookup_take_lt m' (S e)), Ht', lookup_take_lt by lia. done.
Qed.

Lemma str_ended pre w z tl : no_nul w → str ((pre ++ w) ++ 0 :: z ++ tl) (length pre) = w.
Proof.
  intros Hw. unfold str. rewrite <- app_assoc, drop_app_length. induction Hw as [|c w Hc Hw IH]; [done|]. cbn.
  rewrite (proj2 (Z.eqb_neq c 0)) by done. by f_equal.
Qed.

(** The state stands before the text [cs]. *)
Definition at_text (st : parse_state) (cs tl : list Z) : Prop :=
  no_nul cs ∧ ∃ pre, holds (mem st) pre cs tl ∧ ptr st = length pre.

Definition token_post (st st' : parse_state) (tl : list Z) (out : res (Z * parse_state)) (t : rtoken) : Prop :=
  extends (mem st) (ptr st) (mem st') (ptr st') ∧
  match t with
  | REof => out = Ok (T_EOF, st')
  | RNewline rest => out = Ok (T_NEWLINE, st') ∧ nexttoken st' = 0 ∧ line st' = line st ∧ at_text st' rest tl
  | RWord w rest next k =>
      out = Ok (T_TEXT, st') ∧ nexttoken st' = next ∧ line st' = line st + k ∧ at_text st' rest tl ∧
      ended (mem st') (ptr st') (text st') ∧ str (mem st') (text st') = w
  end.

(** Closing a word. *)
Lemma close_word m pre w mid rest tl :
  holds m ((pre ++ w) ++ mid) rest tl → no_nul w → (mid = [] → rest = []) →
  ∃ m' z, poke m (length (pre ++ w)) 0 = Ok m' ∧ holds m' ((pre ++ w) ++ z) rest tl ∧ length z = length mid ∧
    ended m' (length ((pre ++ w) ++ z)) (length pre) ∧ str m' (length pre) = w.
Proof.
  intros -> Hw Hr. destruct mid as [|b mid].
  - rewrite Hr by done. rewrite app_nil_r. cbn. exists ((pre ++ w) ++ 0 :: tl), []. rewrite poke_mid, app_nil_r.
    split_and!; [done..| |by apply (str_ended pre w [] tl)].
    exists (length (pre ++ w)). rewrite length_app. split; [lia|]. rewrite <- length_app.
    by rewrite lookup_app_r, Nat.sub_diag by lia.
  - exists (((pre ++ w) ++ 0 :: mid) ++ rest ++ 0 :: tl), (0 :: mid). rewrite <- app_assoc. cbn. rewrite poke_mid.
    split_and!; [by rewrite <- (app_assoc (pre ++ w))|done..| |].
    + exists (length (pre ++ w)). rewrite !length_app. split; [cbn; lia|]. rewrite <- length_app.
      rewrite lookup_app_l by (rewrite !length_app; cbn; lia). by rewrite lookup_app_r, Nat.sub_diag by lia.
    + rewrite <- (app_assoc (pre ++ w)). cbn. by apply str_ended.
Qed.

Lemma token_extends m pre cs tl m' pre' rest q' :
  holds m pre cs tl → holds m' (pre ++ pre') rest tl → q' = length (pre ++ pre') → cs ≠ [] → no_nul cs →
  extends m (length pre) m' q'.
Proof.
  intros Hm Hm' -> Hc Hn. split_and!; [rewrite length_app; lia| |].
  - rewrite Hm, Hm', <- app_assoc. by rewrite !take_app_length.
  - destruct cs as [|c cs]; [done|]. apply Forall_cons in Hn as [Hc0 _]. rewrite (holds_cons _ _ _ _ _ Hm). congruence.
Qed.

(** next_token reads the token of the reference. *)
Lemma next_token_ok st cs tl :
  at_text st cs tl → nexttoken st = 0 → ∃ st', token_post st st' tl (next_token st) (lex cs).
Proof.
  intros (Hn & pre & Hm & Hp) Ht. unfold next_token, lex, token_post. rewrite Ht, Hp. change (0 =? 0) with true.
  cbn [negb]. pose proof (holds_length _ _ _ _ Hm) as Hlen.
  destruct (skip_to_text_ok (S (length (mem st))) _ _ _ _ Hm Hn) as (skip & rest & -> & Hs); [lia|].
  assert (holds (mem st) (pre ++ skip) rest tl) as Hm1 by (rewrite Hm; unfold holds; by rewrite <- !app_assoc).
  pose proof Hn as Hn0. apply Forall_app in Hn as [_ Hn].
  assert (length pre ≤ length (pre ++ skip))%nat as Hle by (rewrite length_app; lia).
  destruct (lex_start false (skip ++ rest)); [destruct Hs as [-> ->]|destruct Hs as [-> <-]|destruct Hs as (-> & <- & Hne)];
    cbn [mbind res_bind].
  { eexists. split; [|reflexivity]. by apply extends_grow. }
  { eexists. split_and!; [|reflexivity|done..|split; [done|by eexists]]. by apply extends_grow. }
  assert (skip ++ rest ≠ []) as Hne' by by destruct skip.
  pose proof (scan_text_ok tl rest Hn (S (length (mem st))) (mem st) (pre ++ skip) [] (line st)) as Hsc.
  rewrite app_nil_r in Hsc. specialize (Hsc Hm1 ltac:(pose proof (holds_length _ _ _ _ Hm1); lia)).
  pose proof (word_is_ok false false rest Hn) as Hok. unfold scan_post in Hsc.
  destruct (word false false rest) as [[[[w rest'] next] k]|].
  - destruct Hsc as (m' & mid' & -> & Hm' & Hl' & Hmid). destruct Hok as (Hw & Hr' & _ & _). cbn [mbind res_bind].
    destruct (close_word _ _ _ _ _ _ Hm' Hw Hmid) as (m2 & z & -> & Hm2 & Hz & He & Hstr). cbn [mbind res_bind].
    assert (length ((pre ++ skip) ++ w) + length mid' = length (((pre ++ skip) ++ w) ++ z))%nat as Hx
      by (rewrite (length_app _ z); lia).
    rewrite (length_app _ mid'), Hx. eexists. split_and!; [|reflexivity|done..| | |]; cbn [mem ptr text];
      [|split; [done|by eexists]|done|done].
    rewrite <- !app_assoc in Hm2 |- *. by eapply token_extends.
  - destruct Hsc as (m' & used & l' & -> & Hm' & Hl'). cbn [mbind res_bind]. eexists. split; [|reflexivity].
    cbn [mem ptr]. rewrite <- !app_assoc in Hm' |- *. by eapply token_extends.
Qed.

(** Every token takes something from the text. *)
Lemma lex_progress cs :
  no_nul cs →
  match lex cs with
  | REof => True
  | RNewline rest => (length rest < length cs)%nat
  | RWord _ rest next _ => (length rest < length cs)%nat ∧ (next = 0 ∨ next = T_NEWLINE)
  end.
Proof.
  intros Hn. unfold lex.
  assert (∀ c, match lex_start c cs with
    | LEof => True
    | LNewline rest => (length rest < length cs)%nat
    | LWord r => (length r ≤ length cs)%nat ∧ r ≠ [] ∧ no_nul r
    end) as Hs.
  { induction Hn as [|x cs Hx Hn IH]; intros c; [done|].
    assert (∀ c', match lex_start c' cs with
      | LEof => True
      | LNewline rest => (length rest < S (length cs))%nat
      | LWord r => (length r ≤ S (length cs))%nat ∧ r ≠ [] ∧ no_nul r
      end) as Hw by (intros c'; specialize (IH c'); destruct (lex_start c' cs); [done|lia|naive_solver lia]).
    cbn [lex_start length]. destruct (x =? LF); [lia|]. destruct c; [apply Hw|]. destruct (is_blank x); [apply Hw|].
    destruct (x =? HASH); [apply Hw|]. split_and!; [cbn; lia|done|by constructor]. }
  specialize (Hs false). destruct (lex_start false cs) as [| |r]; [done..|]. destruct Hs as (Hl & Hne & Hr).
  pose proof (word_is_ok false false r Hr) as Hok. destruct (word false false r) as [[[[w rest] next] k]|]; [|done].
  destruct Hok as (_ & _ & Hlr & Hnext). split; [|done]. destruct r; cbn in *; [done|lia].
Qed.

(** Two computations that fail alike or return related values. *)
Definition res_rel {A B} (P : A → B → Prop) (x : res A) (y : res B) : Prop :=
  match x, y with
  | Ok a, Ok b => P a b
  | Panic, Panic | Fault, Fault => True
  | _, _ => False
  end.

Lemma res_rel_bind {A B C D} (P : A → B → Prop) (Q : C → D → Prop) x y f g :
  res_rel P x y → (∀ a b, P a b → res_rel Q (f a) (g b)) → res_rel Q (a ← x; f a) (b ← y; g b).
Proof. destruct x, y; cbn; naive_solver. Qed.

(** * The lines of a file *)

Section Loop.
Context {A : Type} (maxargs : nat) (counts : bool).
Context (on_line : Z → buffer → nat → list (option nat) → A → res A).

(** [state.line++] *)
Definition bump (st : parse_state) : parse_state :=
  if counts then mkPS (mem st) (ptr st) (text st) (line st + 1) (nexttoken st) else st.

(** The loop of parse_config; [args] is the array of pointers, whose elements behind
    [nargs] are those of earlier lines, or not initialised ([None]).  [on_line] is what
    is done with a line. *)
Fixpoint parse_loop (fuel : nat) (st : parse_state) (nargs : nat) (args : list (option nat)) (a : A)
    : res (parse_state * A) :=
  match fuel with
  | O => Fault
  | S fuel =>
      '(t, st) ← next_token st;
      if t =? T_EOF then Ok (st, a)
      else if t =? T_NEWLINE then
        let st := bump st in
        if (0 <? nargs)%nat then
          a ← on_line (line st) (mem st) nargs args a;
          parse_loop fuel st 0 args a
        else parse_loop fuel st nargs args a
      else if (nargs <? maxargs)%nat then
        parse_loop fuel st (S nargs) (<[nargs := Some (text st)]> args) a
      else parse_loop fuel st nargs args a
  end.

Definition line_step : Z := if counts then 1 else 0.

(** The reference: the lines of a text with their words and line numbers; [ws] are the
    words of the current line so far.  A line without end is dropped. *)
Fixpoint lex_lines (fuel : nat) (cs : list Z) (l : Z) (ws : list (list Z)) : list (Z * list (list Z)) :=
  match fuel with
  | O => []
  | S fuel =>
      match lex cs with
      | REof => []
      | RNewline rest =>
          let l := l + line_step in
          match ws with
          | [] => lex_lines fuel rest l []
          | _ => (l, ws) :: lex_lines fuel rest l []
          end
      | RWord w rest next k =>
          if next =? T_NEWLINE then
            let l := l + k + line_step in
            (l, ws ++ [w]) :: lex_lines fuel rest l []
          else lex_lines fuel rest (l + k) (ws ++ [w])
      end
  end.

Definition lines_of (cs : list Z) (l : Z) : list (Z * list (list Z)) := lex_lines (S (length cs)) cs l [].

(** The array after a line with words [ws]. *)
Definition fill {X} (ws : list X) (args : list (option X)) : list (option X) :=
  (Some <$> take maxargs ws) ++ drop (length (take maxargs ws)) args.

(** What the lines do, each word a string. *)
Fixpoint feed {B} (h : Z → nat → list (option (list Z)) → B → res B)
    (ls : list (Z * list (list Z))) (args : list (option (list Z))) (b : B) : res B :=
  match ls with
  | [] => Ok b
  | (l, ws) :: ls =>
      b ← h l (length (take maxargs ws)) (fill ws args) b;
      feed h ls (fill ws args) b
  end.

Definition strs (m : buffer) (args : list (option nat)) : list (option (list Z)) :=
  (λ o : option nat, str m <$> o) <$> args.
Definition args_ended (m : buffer) (q : nat) (args : list (option nat)) : Prop :=
  Forall (λ o, ∀ p, o = Some p → ended m q p) args.

Lemma args_extends m q m' q' args :
  args_ended m q args → extends m q m' q' → args_ended m' q' args ∧ strs m' args = strs m args.
Proof.
  intros Ha He. induction Ha as [|o args Ho Ha IH]; [split; [constructor|done]|]. destruct IH as [IH1 IH2].
  destruct o as [p|].
  - destruct (ended_extends _ _ _ _ _ (Ho p eq_refl) He) as [Hp1 Hp2].
    split; [constructor; [by intros ? [= <-]|done]|]. unfold strs in *. cbn. by rewrite Hp2, IH2.
  - split; [by constructor|]. unfold strs in *. cbn. by rewrite IH2.
Qed.

Lemma args_set m q args n p :
  args_ended m q args → ended m q p → args_ended m q (<[n := Some p]> args) ∧
  strs m (<[n := Some p]> args) = <[n := Some (str m p)]> (strs m args).
Proof.
  intros Ha Hp. split; [apply Forall_insert; [done|by intros ? [= <-]]|].
  unfold strs. by rewrite list_fmap_insert.
Qed.

Lemma fill_snoc {X} (ws : list X) w (args : list (option X)) :
  length args = maxargs →
  fill (ws ++ [w]) args =
    if (length (take maxargs ws) <? maxargs)%nat then <[length (take maxargs ws) := Some w]> (fill ws args)
    else fill ws args.
Proof.
  intros Hl. unfold fill. destruct (Nat.ltb_spec (length (take maxargs ws)) maxargs) as [Hlt|Hge].
  - rewrite length_take in Hlt. rewrite !(take_ge ws) by lia. rewrite (take_ge (ws ++ [w])) by (rewrite length_app; cbn; lia).
    rewrite insert_app_r_alt; rewrite length_fmap; [|lia]. rewrite Nat.sub_diag, fmap_app, length_app. cbn.
    rewrite <- app_assoc. f_equal. rewrite <- drop_drop.
    destruct (drop (length ws) args) as [|o rest] eqn:E; [|done].
    apply (f_equal length) in E. rewrite length_drop in E. cbn in E. lia.
  - rewrite length_take in Hge. by rewrite (take_app_le ws) by lia.
Qed.

Lemma length_fill {X} (ws : list X) args : length args = maxargs → length (fill ws args) = maxargs.
Proof. intros. unfold fill. rewrite length_app, length_fmap, length_drop, length_take. lia. Qed.

(** ** The code does what the lines of the reference do

    [R m q a b]: the state [a], which may hold pointers into the buffer [m] before [q],
    stands for [b], which holds strings. *)
Context {B : Type} (h : Z → nat → list (option (list Z)) → B → res B) (R : buffer → nat → A → B → Prop).
Hypothesis R_extends : ∀ m q m' q' a b, R m q a b → extends m q m' q' → R m' q' a b.
Hypothesis R_line : ∀ l m q n args a b, R m q a b → args_ended m q args →
  res_rel (R m q) (on_line l m n args a) (h l n (strs m args) b).

Definition loop_rel : res (parse_state * A) → res B → Prop :=
  res_rel (λ '(st, a) b, R (mem st) (ptr st) a b).

(** The loop, at a text [cs], in a line with words [ws] so far. *)
Record loop_inv (st : parse_state) (args : list (option nat)) (a : A)
    (ws : list (list Z)) (sargs : list (option (list Z))) (b : B) : Prop := {
  li_len : length sargs = maxargs;
  li_ended : args_ended (mem st) (ptr st) args;
  li_args : strs (mem st) args = fill ws sargs;
  li_rel : R (mem st) (ptr st) a b
}.

Lemma loop_inv_extends st st' args a ws sargs b :
  loop_inv st args a ws sargs b → extends (mem st) (ptr st) (mem st') (ptr st') → loop_inv st' args a ws sargs b.
Proof.
  intros [H1 H2 H3 H4] He. destruct (args_extends _ _ _ _ _ H2 He) as [H5 H6].
  split; [done..|congruence|by eapply R_extends].
Qed.

Lemma bump_mem st : mem (bump st) = mem st ∧ ptr (bump st) = ptr st ∧ nexttoken (bump st) = nexttoken st ∧
  line (bump st) = line st + line_step.
Proof. unfold bump, line_step. destruct counts; cbn; [done|]. by rewrite Z.add_0_r. Qed.

(** A word is added to the line. *)
Lemma loop_inv_word st args a ws sargs b :
  (1 ≤ maxargs)%nat → loop_inv st args a ws sargs b → ended (mem st) (ptr st) (text st) →
  let nargs := length (take maxargs ws) in
  let w := str (mem st) (text st) in
  loop_inv st (if (nargs <? maxargs)%nat then <[nargs := Some (text st)]> args else args) a (ws ++ [w]) sargs b ∧
  length (take maxargs (ws ++ [w])) = if (nargs <? maxargs)%nat then S nargs else nargs.
Proof.
  intros Hmax [H1 H2 H3 H4] He nargs w. subst nargs w. split; [|].
  - split; [done| | |done]; rewrite ?fill_snoc by done; case_match; try done.
    + by apply args_set.
    + rewrite (proj2 (args_set _ _ _ _ _ H2 He)). by rewrite H3.
  - rewrite !length_take, length_app. cbn [length]. destruct (Nat.ltb_spec (maxargs `min` length ws) maxargs); lia.
Qed.

Hypothesis max_pos : (1 ≤ maxargs)%nat.

Lemma loop_word fuel st args a ws sargs b y :
  loop_inv st args a ws sargs b → ended (mem st) (ptr st) (text st) →
  (∀ args', loop_inv st args' a (ws ++ [str (mem st) (text st)]) sargs b →
    loop_rel (parse_loop fuel st (length (take maxargs (ws ++ [str (mem st) (text st)]))) args' a) y) →
  loop_rel
    (if (length (take maxargs ws) <? maxargs)%nat
     then parse_loop fuel st (S (length (take maxargs ws))) (<[length (take maxargs ws) := Some (text st)]> args) a
     else parse_loop fuel st (length (take maxargs ws)) args a) y.
Proof.
  intros Hi He Hk. destruct (loop_inv_word _ _ _ _ _ _ max_pos Hi He) as [Hi' Hl]. specialize (Hk _ Hi').
  rewrite Hl in Hk. by destruct (length (take maxargs ws) <? maxargs)%nat.
Qed.

(** The end of a line. *)
Lemma loop_newline fuel st args a ws sargs b y :
  loop_inv st args a ws sargs b →
  (∀ a' b' sargs', loop_inv (bump st) args a' [] sargs' b' →
    loop_rel (parse_loop fuel (bump st) 0 args a') (y sargs' b')) →
  loop_rel
    (if (0 <? length (take maxargs ws))%nat then
       a ← on_line (line (bump st)) (mem (bump st)) (length (take maxargs ws)) args a;
       parse_loop fuel (bump st) 0 args a
     else parse_loop fuel (bump st) (length (take maxargs ws)) args a)
    (match ws with
     | [] => y sargs b
     | _ => b ← h (line st + line_step) (length (take maxargs ws)) (fill ws sargs) b; y (fill ws sargs) b
     end).
Proof.
  intros Hi Hk. destruct (bump_mem st) as (Hm & Hq & _ & Hl).
  assert (loop_inv (bump st) args a ws sargs b) as Hi'.
  { eapply loop_inv_extends; [done|]. rewrite Hm, Hq. by apply extends_grow. }
  destruct ws as [|w ws]; [rewrite take_nil; by apply Hk|].
  destruct (Nat.ltb_spec 0 (length (take maxargs (w :: ws)))) as [_|Hz]; [|rewrite length_take in Hz; cbn in Hz; lia].
  destruct Hi' as [H1 H2 H3 H4]. rewrite <- Hl, <- H3. eapply res_rel_bind; [by apply R_line|].
  intros a' b' Hr. rewrite H3. apply Hk. split; [by apply length_fill|done| |done].
  rewrite H3. unfold fill at 2. by rewrite take_nil.
Qed.

(** What the lines from a line end on do. *)
Definition feed_line (ws : list (list Z)) (l : Z) (ls : list (Z * list (list Z))) (sargs : list (option (list Z))) (b : B)
    : res B :=
  match ws with
  | [] => feed h ls sargs b
  | _ => b ← h l (length (take maxargs ws)) (fill ws sargs) b; feed h ls (fill ws sargs) b
  end.

Definition refined_below (n : nat) (tl : list Z) : Prop := ∀ fuel cs st args a ws sargs b,
  (length cs < n)%nat → (2 * length cs + 1 < fuel)%nat →
  at_text st cs tl → nexttoken st = 0 → loop_inv st args a ws sargs b →
  loop_rel (parse_loop fuel st (length (take maxargs ws)) args a) (feed h (lex_lines n cs (line st) ws) sargs b).

Lemma loop_line_end n tl fuel rest st args a ws sargs b :
  refined_below n tl → (length rest < n)%nat → (2 * length rest + 1 < fuel)%nat →
  at_text st rest tl → nexttoken st = 0 → loop_inv st args a ws sargs b →
  loop_rel
    (if (0 <? length (take maxargs ws))%nat then
       a ← on_line (line (bump st)) (mem (bump st)) (length (take maxargs ws)) args a;
       parse_loop fuel (bump st) 0 args a
     else parse_loop fuel (bump st) (length (take maxargs ws)) args a)
    (feed_line ws (line st + line_step) (lex_lines n rest (line st + line_step) []) sargs b).
Proof.
  intros IH Hn Hf Hat H0 Hi.
  apply (loop_newline _ _ _ _ _ _ _ (λ sargs b, feed h (lex_lines n rest (line st + line_step) []) sargs b) Hi).
  intros a' b' sargs' Hi'. destruct (bump_mem st) as (Hm & Hq & Hx & <-).
  pose proof (IH fuel rest (bump st) args a' [] sargs' b' Hn Hf) as IH'. rewrite take_nil in IH'.
  apply IH'; [|congruence|done]. destruct Hat as [? (pre & ? & ?)]. split; [done|]. exists pre. by rewrite Hm, Hq.
Qed.

(** The loop refines the lines of the reference, and ends. *)
Lemma parse_loop_refines n tl : refined_below n tl.
Proof.
  induction n as [|n IH]; intros [|fuel] cs st args a ws sargs b Hn Hf Ht H0 Hi; try lia.
  cbn [parse_loop lex_lines]. destruct (next_token_ok st cs tl Ht H0) as (st1 & He & Hpost).
  pose proof (loop_inv_extends _ _ _ _ _ _ _ Hi He) as Hi1. pose proof (lex_progress cs (proj1 Ht)) as Hp.
  destruct (lex cs) as [|rest|w rest next k].
  - rewrite Hpost. cbn [mbind res_bind]. change (T_EOF =? T_EOF) with true. exact (li_rel _ _ _ _ _ _ Hi1).
  - destruct Hpost as (-> & Ht1 & Hl1 & Hat1). cbn [mbind res_bind]. change (T_NEWLINE =? T_EOF) with false.
    change (T_NEWLINE =? T_NEWLINE) with true. cbv beta iota zeta.
    replace (feed _ _ _ _) with (feed_line ws (line st1 + line_step) (lex_lines n rest (line st1 + line_step) []) sargs b)
      by (rewrite Hl1; by destruct ws).
    apply loop_line_end with tl; [done|lia|lia|done..].
  - destruct Hpost as (-> & Ht1 & Hl1 & Hat1 & Hend & Hw). cbn [mbind res_bind]. change (T_TEXT =? T_EOF) with false.
    change (T_TEXT =? T_NEWLINE) with false. cbv beta iota zeta. apply (loop_word _ _ _ _ _ _ _ _ Hi1 Hend).
    rewrite Hw. intros args' Hi2. destruct Hp as [Hlen [->| ->]].
    + rewrite <- Hl1. change (0 =? T_NEWLINE) with false. apply IH; [lia|lia|done|done|done].
    + destruct fuel as [|fuel]; [lia|]. cbn [parse_loop]. unfold next_token. rewrite Ht1.
      change (T_NEWLINE =? 0) with false. change (T_NEWLINE =? T_NEWLINE) with true. cbn [negb mbind res_bind].
      change (T_NEWLINE =? T_EOF) with false. change (T_NEWLINE =? T_NEWLINE) with true. cbv beta iota zeta.
      set (st2 := mkPS _ _ _ _ 0). rewrite <- Hl1. change (line st1) with (line st2).
      replace (feed _ _ _ _) with (feed_line (ws ++ [w]) (line st2 + line_step) (lex_lines n rest (line st2 + line_step) []) sargs b)
        by (by destruct ws).
      apply loop_line_end with tl; [done|lia|lia|done|done|]. eapply loop_inv_extends; [exact Hi2|]. by apply extends_grow.
Qed.
End Loop.

(** * Reading a file *)

Definition INIT_PARSER_MAXARGS : nat := 64.

(** The buffer that read_file returns: the contents, a newline and NUL. *)
Definition file_buffer (data : list Z) : buffer := data ++ [LF; 0].
(** The state parse_config starts with. *)
Definition parse_start (m : buffer) (l : Z) : parse_state := mkPS m 0 0 l 0.
Definition parse_fuel (m : buffer) : nat := 2 * length m + 2.

Lemma c_string_no_nul b : no_nul (c_string b).
Proof. induction b as [|c b IH]; cbn; [constructor|]. destruct (Z.eqb_spec c 0); by constructor. Qed.

Lemma c_string_split b : 0 ∈ b → ∃ tl, b = c_string b ++ 0 :: tl.
Proof.
  induction b as [|c b IH]; intros Hin; [by apply not_elem_of_nil in Hin|]. cbn.
  destruct (Z.eqb_spec c 0) as [->|Hc]; [by exists b|]. apply elem_of_cons in Hin as [Hin|Hin]; [done|].
  destruct (IH Hin) as [tl E]. exists tl. cbn. by f_equal.
Qed.

(** The text of a file: up to its first NUL. *)
Definition file_text (data : list Z) : list Z := c_string (file_buffer data).

Lemma parse_start_at data l :
  ∃ tl, at_text (parse_start (file_buffer data) l) (file_text data) tl ∧
        (length (file_text data) < length (file_buffer data))%nat.
Proof.
  destruct (c_string_split (file_buffer data)) as [tl E]; [unfold file_buffer; apply elem_of_app; right; right; left|]. exists tl. split.
  - split; [apply c_string_no_nul|]. exists []. split; [|done]. unfold holds. cbn. exact E.
  - rewrite E at 1. rewrite length_app. cbn. unfold file_text. lia.
Qed.

Section Refine.
Context {A B : Type} (maxargs : nat) (counts : bool).
Context (on_line : Z → buffer → nat → list (option nat) → A → res A).
Context (h : Z → nat → list (option (list Z)) → B → res B) (R : buffer → nat → A → B → Prop).
Hypothesis R_extends : ∀ m q m' q' a b, R m q a b → extends m q m' q' → R m' q' a b.
Hypothesis R_line : ∀ l m q n args a b, R m q a b → args_ended m q args →
  res_rel (R m q) (on_line l m n args a) (h l n (strs m args) b).

(** Parsing a file refines the lines of its text. *)
Lemma parse_file_refines data l a b :
  (1 ≤ maxargs)%nat → R (file_buffer data) 0 a b →
  res_rel (λ '(st, a) b, R (mem st) (ptr st) a b)
    (parse_loop maxargs counts on_line (parse_fuel (file_buffer data)) (parse_start (file_buffer data) l) 0
      (replicate maxargs None) a)
    (feed maxargs h (lines_of counts (file_text data) l) (replicate maxargs None) b).
Proof.
  intros Hmax HR. destruct (parse_start_at data l) as (tl & Hat & Hlen).
  pose proof (parse_loop_refines maxargs counts on_line h R R_extends R_line Hmax (S (length (file_text data))) tl
    (parse_fuel (file_buffer data)) (file_text data) (parse_start (file_buffer data) l) (replicate maxargs None) a []
    (replicate maxargs None) b) as H.
  rewrite take_nil in H. apply H; [lia|unfold parse_fuel; lia|done|done|].
  split; [by rewrite length_replicate|..|done].
  - apply Forall_replicate. by intros ? [=].
  - unfold strs, fill. rewrite take_nil. cbn. by rewrite fmap_replicate.
Qed.
End Refine.

(** A parser whose state holds no pointers does exactly what the lines of the text do. *)
Lemma parse_file_feed {A B} (maxargs : nat) (counts : bool) (h : Z → nat → list (option (list Z)) → A → res A)
    (k : A → res B) data l a :
  (1 ≤ maxargs)%nat →
  ('(_, a) ← parse_loop maxargs counts (λ l m n args a, h l n (strs m args) a) (parse_fuel (file_buffer data))
     (parse_start (file_buffer data) l) 0 (replicate maxargs None) a; k a) =
  (a ← feed maxargs h (lines_of counts (file_text data) l) (replicate maxargs None) a; k a).
Proof.
  intros Hmax. assert (∀ l (m : buffer) (q : nat) n args (a b : A), a = b → args_ended m q args →
    res_rel (λ a b : A, a = b) (h l n (strs m args) a) (h l n (strs m args) b)) as Hline.
  { intros l' m q n args a' b -> _. by destruct (h _ _ _ _). }
  pose proof (parse_file_refines maxargs counts (λ l m n args a, h l n (strs m args) a) h (λ _ _ p p', p = p')
    ltac:(done) Hline data l a a Hmax eq_refl) as Href.
  destruct (parse_loop _ _ _ _ _ _ _ _) as [[st p]| |], (feed _ _ _ _ _); cbn in Href; try done. by subst.
Qed.

(** ** The pointers that a parser keeps *)

(** A parser that keeps every line, as pointers into the buffer. *)
Definition keep_line (l : Z) (m : buffer) (n : nat) (args : list (option nat)) (kept : list (Z * list (option nat)))
    : res (list (Z * list (option nat))) := Ok (kept ++ [(l, take n args)]).
Definition keep_words (l : Z) (n : nat) (args : list (option (list Z))) (kept : list (Z * list (option (list Z))))
    : res (list (Z * list (option (list Z)))) := Ok (kept ++ [(l, take n args)]).

(** The words that kept pointers denote. *)
Definition kept_words (m : buffer) (kept : list (Z * list (option nat))) : list (Z * list (option (list Z))) :=
  (λ '(l, ps), (l, strs m ps)) <$> kept.

Definition kept_rel (m : buffer) (q : nat) kept (b : list (Z * list (option (list Z)))) : Prop :=
  Forall (λ '(_, ps), args_ended m q ps) kept ∧ kept_words m kept = b.

Lemma kept_rel_extends m q m' q' a b : kept_rel m q a b → extends m q m' q' → kept_rel m' q' a b.
Proof.
  intros [Ha <-] He. induction Ha as [|[l ps] a Hp Ha IH]; [by split|]. destruct IH as [IH1 IH2].
  destruct (args_extends _ _ _ _ _ Hp He) as [Hp1 Hp2]. split; [by constructor|].
  unfold kept_words in *. cbn. by rewrite Hp2, IH2.
Qed.

Lemma kept_rel_line l m q n args a b :
  kept_rel m q a b → args_ended m q args →
  res_rel (kept_rel m q) (keep_line l m n args a) (keep_words l n (strs m args) b).
Proof.
  intros [Ha <-] Hargs. split.
  - apply Forall_app. split; [done|]. constructor; [by apply Forall_take|done].
  - unfold kept_words. rewrite fmap_app. cbn. do 3 f_equal. unfold strs. by rewrite fmap_take.
Qed.

Lemma feed_keep maxargs ls args kept :
  feed maxargs keep_words ls args kept = Ok (kept ++ ((λ '(l, ws), (l, Some <$> take maxargs ws)) <$> ls)).
Proof.
  revert args kept. induction ls as [|[l ws] ls IH]; intros args kept; cbn; [by rewrite app_nil_r|].
  rewrite IH, <- app_assoc. cbn. unfold fill. rewrite take_app_le by (by rewrite length_fmap).
  by rewrite take_ge by (by rewrite length_fmap).
Qed.

Lemma keep_file data :
  ∃ st kept,
    parse_loop INIT_PARSER_MAXARGS true keep_line (parse_fuel (file_buffer data)) (parse_start (file_buffer data) 0) 0
      (replicate INIT_PARSER_MAXARGS None) [] = Ok (st, kept) ∧
    kept_words (mem st) kept =
      (λ '(l, ws), (l, Some <$> take INIT_PARSER_MAXARGS ws)) <$> lines_of true (file_text data) 0.
Proof.
  pose proof (parse_file_refines INIT_PARSER_MAXARGS true keep_line keep_words kept_rel kept_rel_extends kept_rel_line
    data 0 [] [] ltac:(unfold INIT_PARSER_MAXARGS; lia) ltac:(by split)) as H.
  rewrite feed_keep in H. destruct (parse_loop _ _ _ _ _ _ _ _) as [[st kept]| |]; [|done..].
  exists st, kept. split; [done|]. exact (proj2 H).
Qed.

(** C7: For every file, init's loop over next_token ends within the buffer, although
    it rewrites the buffer in place; and the pointers to words that it hands out denote,
    in the final buffer, exactly the words of the lines of the original text, the first
    64 of each line: no word is damaged by the ones read after it. *)
Theorem tokens_in_place (data : list Z) :
  ∃ st kept,
    parse_loop INIT_PARSER_MAXARGS true keep_line (parse_fuel (file_buffer data)) (parse_start (file_buffer data) 0) 0
      (replicate INIT_PARSER_MAXARGS None) [] = Ok (st, kept) ∧
    kept_words (mem st) kept =
      (λ '(l, ws), (l, Some <$> take INIT_PARSER_MAXARGS ws)) <$> lines_of true (file_text data) 0.
Proof. apply keep_file. Qed.

(** No line of the reference is empty. *)
Lemma lines_nonempty counts cs l0 l ws : (l, ws) ∈ lines_of counts cs l0 → ws ≠ [].
Proof.
  unfold lines_of. enough (∀ fuel cs l0 ws0, (l, ws) ∈ lex_lines counts fuel cs l0 ws0 → ws ≠ []) by eauto. clear.
  intros fuel. induction fuel as [|fuel IH]; intros cs l0 ws0 H; [by apply not_elem_of_nil in H|]. cbn [lex_lines] in H.
  destruct (lex cs) as [|rest|w rest next k]; [by apply not_elem_of_nil in H|..].
  - destruct ws0; [by eapply IH|]. apply elem_of_cons in H as [[= -> ->]|H]; [done|by eapply IH].
  - destruct (next =? T_NEWLINE); [|by eapply IH].
    apply elem_of_cons in H as [[= -> ->]|H]; [by destruct ws0|by eapply IH].
Qed.

(** ** Writing a file *)

(** A word in quotes, a line of words, a file of lines. *)
Definition quoted (w : list Z) : list Z := QUOTE :: w ++ [QUOTE; SP].
Definition render_line (ws : list (list Z)) : list Z := concat (quoted <$> ws) ++ [LF].
Definition render (ls : list (list (list Z))) : list Z := concat (render_line <$> ls).

Definition quotable (w : list Z) : Prop := Forall (λ c, c ≠ 0 ∧ c ≠ QUOTE) w.

Lemma word_quoted w cs : quotable w → word true false (w ++ QUOTE :: SP :: cs) = Some (w, cs, 0, 0).
Proof.
  induction 1 as [|c w [_ Hq] Hw IH]; [done|]. cbn [app word]. by rewrite (proj2 (Z.eqb_neq c QUOTE)), IH.
Qed.

Lemma lex_quoted w cs : quotable w → lex (quoted w ++ cs) = RWord w cs 0 0.
Proof.
  intros Hw. unfold quoted. cbn [app]. rewrite <- app_assoc. unfold lex. cbn [lex_start app].
  change (QUOTE =? LF) with false. change (is_blank QUOTE) with false. change (QUOTE =? HASH) with false.
  cbn [word andb]. change (is_blank QUOTE) with false. change (QUOTE =? LF) with false.
  change (QUOTE =? QUOTE) with true. cbv iota. by rewrite word_quoted.
Qed.

Lemma lex_lines_quoted fuel ws ws0 cs l :
  Forall quotable ws → (length (render_line ws ++ cs) < fuel)%nat → ws0 ++ ws ≠ [] →
  ∃ fuel', (length cs < fuel')%nat ∧
    lex_lines true fuel (render_line ws ++ cs) l ws0 = (l + 1, ws0 ++ ws) :: lex_lines true fuel' cs (l + 1) [].
Proof.
  intros Hws. revert fuel ws0. induction Hws as [|w ws Hw Hws IH]; intros [|fuel] ws0 Hf Hne; try lia.
  - cbn in Hf. exists fuel. split; [lia|]. rewrite app_nil_r in *. cbn. by destruct ws0.
  - unfold render_line in *. cbn [fmap list_fmap concat] in *. rewrite <- !(app_assoc (quoted w)) in *.
    cbn [lex_lines]. rewrite lex_quoted by done. change (0 =? T_NEWLINE) with false. rewrite Z.add_0_r.
    destruct (IH fuel (ws0 ++ [w])) as (fuel' & Hf' & ->).
    + rewrite (length_app (quoted w)) in Hf. cbn in Hf. lia.
    + by destruct ws0.
    + exists fuel'. by rewrite <- app_assoc.
Qed.

Lemma lex_lines_render ls fuel cs l :
  Forall (Forall quotable) ls → Forall (λ ws, ws ≠ []) ls → (length (render ls ++ cs) < fuel)%nat →
  ∃ fuel' l', (length cs < fuel')%nat ∧
    (lex_lines true fuel (render ls ++ cs) l []).*2 = ls ++ (lex_lines true fuel' cs l' []).*2.
Proof.
  intros Hq Hne. revert fuel l. induction Hq as [|ws ls Hws Hq IH]; intros fuel l Hf.
  { exists fuel, l. done. }
  apply Forall_cons in Hne as [Hw Hne]. unfold render in *. cbn [fmap list_fmap concat] in *. rewrite <- app_assoc in *.
  destruct (lex_lines_quoted fuel ws [] (concat (render_line <$> ls) ++ cs) l Hws Hf Hw) as (fuel' & Hf' & ->).
  destruct (IH Hne fuel' (l + 1) Hf') as (fuel'' & l'' & Hf'' & E). exists fuel'', l''. cbn. by rewrite E.
Qed.

Lemma render_no_nul ls : Forall (Forall quotable) ls → no_nul (render ls).
Proof.
  intros Hq. apply Forall_concat, Forall_fmap, (Forall_impl _ _ _ Hq). intros ws Hws. cbn.
  apply Forall_app. split; [|by repeat constructor]. apply Forall_concat, Forall_fmap, (Forall_impl _ _ _ Hws).
  intros w Hw. constructor; [done|]. apply Forall_app. split; [|by repeat constructor].
  apply (Forall_impl _ _ _ Hw). naive_solver.
Qed.

Lemma c_string_text cs tl : no_nul cs → c_string (cs ++ 0 :: tl) = cs.
Proof. induction 1 as [|c cs Hc Hn IH]; [done|]. cbn. by rewrite (proj2 (Z.eqb_neq c 0)), IH. Qed.

(** The reference reads back what was written. *)
Lemma read_render ls :
  Forall (Forall quotable) ls → Forall (λ ws, ws ≠ []) ls → (lines_of true (file_text (render ls)) 0).*2 = ls.
Proof.
  intros Hq Hne.
  assert (file_text (render ls) = render ls ++ [LF]) as ->.
  { unfold file_text, file_buffer. change [LF; 0] with ([LF] ++ [0]). rewrite app_assoc. apply c_string_text.
    apply Forall_app. split; [by apply render_no_nul|by repeat constructor]. }
  destruct (lex_lines_render ls (S (length (render ls ++ [LF]))) [LF] 0 Hq Hne) as (fuel & l & Hf & El); [lia|].
  unfold lines_of. rewrite El. destruct fuel as [|[|fuel]]; cbn in Hf; [lia..|]. cbn. by rewrite app_nil_r.
Qed.

(** A file whose lines are written as words in quotes is read back word for word,
    whatever the words hold (blanks, newlines, backslashes and comment signs included)
    except the quote itself and NUL. *)
Theorem render_roundtrip (ls : list (list (list Z))) :
  Forall (Forall quotable) ls → Forall (λ ws, ws ≠ [] ∧ (length ws ≤ INIT_PARSER_MAXARGS)%nat) ls →
  ∃ st kept,
    parse_loop INIT_PARSER_MAXARGS true keep_line (parse_fuel (file_buffer (render ls)))
      (parse_start (file_buffer (render ls)) 0) 0 (replicate INIT_PARSER_MAXARGS None) [] = Ok (st, kept) ∧
    (kept_words (mem st) kept).*2 = (λ ws : list (list Z), Some <$> ws) <$> ls.
Proof.
  intros Hq Hne.
  pose proof (keep_file (render ls)) as (st & kept & E & Hk). exists st, kept. split; [done|]. rewrite Hk.
  transitivity ((λ ws, Some <$> take INIT_PARSER_MAXARGS ws) <$> (lines_of true (file_text (render ls)) 0).*2).
  { rewrite <- !list_fmap_compose. apply list_fmap_ext. by intros i [k ws] Hi. }
  rewrite read_render; [|done|apply (Forall_impl _ _ _ Hne); naive_solver].
  apply list_fmap_ext. intros i ws Hi. cbn. rewrite take_ge; [done|]. apply (Forall_lookup_1 _ _ _ _ Hne Hi).
Qed.

Lemma render_roundtrip_witness :
  ∃ st kept,
    let ls := [[bytes_of "on"; bytes_of "boot"]; [bytes_of "write"; bytes_of "/a b"; bytes_of "#1"]] in
    parse_loop INIT_PARSER_MAXARGS true keep_line (parse_fuel (file_buffer (render ls)))
      (parse_start (file_buffer (render ls)) 0) 0 (replicate INIT_PARSER_MAXARGS None) [] = Ok (st, kept) ∧
    (kept_words (mem st) kept).*2 = (λ ws : list (list Z), Some <$> ws) <$> ls.
Proof.
  apply (render_roundtrip [[bytes_of "on"; bytes_of "boot"]; [bytes_of "write"; bytes_of "/a b"; bytes_of "#1"]]).
  - repeat constructor; discriminate.
  - repeat constructor; try discriminate; cbn; unfold INIT_PARSER_MAXARGS; lia.
Defined.

(** * What the code does with some files *)

Definition read_words (s : list Z) : list (list (list Z)) := (lines_of true (file_text s) 0).*2.

(** An escape writes its character and then reads the letter again: the word holds a
    newline and the letter n. *)
Theorem escape_letter_kept :
  read_words (bytes_of "write /f a\nb") = [[bytes_of "write"; bytes_of "/f"; bytes_of "a" ++ [LF] ++ bytes_of "nb"]].
Proof. reflexivity. Qed.

(** A backslash before CR LF does not continue the line, although the comment says so;
    before LF it does. *)
Theorem crlf_not_continued :
  read_words (bytes_of "a \" ++ [CR; LF] ++ bytes_of " b") = [[bytes_of "a"; []]; [bytes_of "b"]] ∧
  read_words (bytes_of "a \" ++ [LF] ++ bytes_of " b") = [[bytes_of "a"; bytes_of "b"]].
Proof. split; reflexivity. Qed.
