(* ===== verification/InitConfig.v ===== *)
(** The configuration language of Android init (src/init/init/init_parser.c,
    keywords.h, util.c): keywords, property expansion, and the sections of an .rc file,
    which fill the lists of services and actions.

    Strings are lists of bytes without their NUL.  The pointer array [args] of the parser
    keeps the words of earlier lines behind [nargs]: its elements are [option]s, and
    reading one that was never set is [Fault].  An action or a service is named by its
    position in its list (the lists only grow).  Messages (parse_error, ERROR) are left
    out.  What other code provides is a parameter: the table of user names, the values of
    the properties, the contents of files. *)
From Stdlib Require Import ZArith.
From stdpp Require Import base numbers list strings.
From S2P Require Import Prelude Bytes InitLexer.

Abbreviation cstr := (list Z).

(** * Keywords *)

Definition SECTION : Z := 0x01.
Definition COMMAND : Z := 0x02.
Definition OPTION : Z := 0x04.

Inductive keyword :=
  | K_UNKNOWN
  | K_capability | K_chdir | K_chroot | K_class | K_class_start | K_class_stop
  | K_class_reset | K_console | K_critical | K_disabled | K_domainname | K_exec
  | K_export | K_group | K_hostname | K_ifup | K_insmod | K_import
  | K_keycodes | K_mkdir | K_mount_all | K_mount | K_on | K_oneshot
  | K_onrestart | K_powerctl | K_restart | K_restorecon | K_rm | K_rmdir
  | K_seclabel | K_service | K_setcon | K_setenforce | K_setenv | K_setkey
  | K_setprop | K_setrlimit | K_setsebool | K_socket | K_start | K_stop
  | K_swapon_all | K_trigger | K_symlink | K_sysclktz | K_user | K_wait
  | K_write | K_copy | K_chown | K_chmod | K_loglevel | K_load_persist_props
  | K_ioprio.

#[global] Instance keyword_eq_dec : EqDecision keyword.
Proof. solve_decision. Defined.

(** keyword_info: the name, the least number of words of a line (the keyword included) and
    the flags.  The function of a command is named by its keyword. *)
Definition keyword_info (kw : keyword) : string * nat * Z :=
  match kw with
  | K_UNKNOWN => ("unknown", 0%nat, 0)
  | K_capability => ("capability", 1%nat, OPTION)
  | K_chdir => ("chdir", 2%nat, COMMAND)
  | K_chroot => ("chroot", 2%nat, COMMAND)
  | K_class => ("class", 1%nat, OPTION)
  | K_class_start => ("class_start", 2%nat, COMMAND)
  | K_class_stop => ("class_stop", 2%nat, COMMAND)
  | K_class_reset => ("class_reset", 2%nat, COMMAND)
  | K_console => ("console", 1%nat, OPTION)
  | K_critical => ("critical", 1%nat, OPTION)
  | K_disabled => ("disabled", 1%nat, OPTION)
  | K_domainname => ("domainname", 2%nat, COMMAND)
  | K_exec => ("exec", 2%nat, COMMAND)
  | K_export => ("export", 3%nat, COMMAND)
  | K_group => ("group", 1%nat, OPTION)
  | K_hostname => ("hostname", 2%nat, COMMAND)
  | K_ifup => ("ifup", 2%nat, COMMAND)
  | K_insmod => ("insmod", 2%nat, COMMAND)
  | K_import => ("import", 2%nat, SECTION)
  | K_keycodes => ("keycodes", 1%nat, OPTION)
  | K_mkdir => ("mkdir", 2%nat, COMMAND)
  | K_mount_all => ("mount_all", 2%nat, COMMAND)
  | K_mount => ("mount", 4%nat, COMMAND)
  | K_on => ("on", 1%nat, SECTION)
  | K_oneshot => ("oneshot", 1%nat, OPTION)
  | K_onrestart => ("onrestart", 1%nat, OPTION)
  | K_powerctl => ("powerctl", 2%nat, COMMAND)
  | K_restart => ("restart", 2%nat, COMMAND)
  | K_restorecon => ("restorecon", 2%nat, COMMAND)
  | K_rm => ("rm", 2%nat, COMMAND)
  | K_rmdir => ("rmdir", 2%nat, COMMAND)
  | K_seclabel => ("seclabel", 1%nat, OPTION)
  | K_service => ("service", 1%nat, SECTION)
  | K_setcon => ("setcon", 2%nat, COMMAND)
  | K_setenforce => ("setenforce", 2%nat, COMMAND)
  | K_setenv => ("setenv", 3%nat, OPTION)
  | K_setkey => ("setkey", 1%nat, COMMAND)
  | K_setprop => ("setprop", 3%nat, COMMAND)
  | K_setrlimit => ("setrlimit", 4%nat, COMMAND)
  | K_setsebool => ("setsebool", 3%nat, COMMAND)
  | K_socket => ("socket", 1%nat, OPTION)
  | K_start => ("start", 2%nat, COMMAND)
  | K_stop => ("stop", 2%nat, COMMAND)
  | K_swapon_all => ("swapon_all", 2%nat, COMMAND)
  | K_trigger => ("trigger", 2%nat, COMMAND)
  | K_symlink => ("symlink", 2%nat, COMMAND)
  | K_sysclktz => ("sysclktz", 2%nat, COMMAND)
  | K_user => ("user", 1%nat, OPTION)
  | K_wait => ("wait", 2%nat, COMMAND)
  | K_write => ("write", 3%nat, COMMAND)
  | K_copy => ("copy", 3%nat, COMMAND)
  | K_chown => ("chown", 3%nat, COMMAND)
  | K_chmod => ("chmod", 3%nat, COMMAND)
  | K_loglevel => ("loglevel", 2%nat, COMMAND)
  | K_load_persist_props => ("load_persist_props", 1%nat, COMMAND)
  | K_ioprio => ("ioprio", 1%nat, OPTION)
  end.

Definition kw_name (kw : keyword) : string := (keyword_info kw).1.1.
Definition kw_nargs (kw : keyword) : nat := (keyword_info kw).1.2.
Definition kw_is (kw : keyword) (type : Z) : bool := negb (Z.land (keyword_info kw).2 type =? 0).

(** [!strcmp(s, lit)] *)
Definition streq (s : cstr) (lit : string) : bool := bool_decide (s = bytes_of lit).

(** The comparisons of one case of the switch, in order. *)
Fixpoint first_match (s : cstr) (l : list (string * keyword)) : keyword :=
  match l with
  | [] => K_UNKNOWN
  | (lit, kw) :: l => if streq s lit then kw else first_match s l
  end.

(** The case of 'p' has no break: it goes on with the comparisons of 'r'. *)
Definition keyword_cases (c : Z) : list (string * keyword) :=
  match c with
  | 99 => (* c *)
      [("opy", K_copy); ("apability", K_capability); ("hdir", K_chdir); ("hroot", K_chroot);
       ("lass", K_class); ("lass_start", K_class_start); ("lass_stop", K_class_stop);
       ("lass_reset", K_class_reset); ("onsole", K_console); ("hown", K_chown);
       ("hmod", K_chmod); ("ritical", K_critical)]
  | 100 => (* d *)
      [("isabled", K_disabled); ("omainname", K_domainname)]
  | 101 => (* e *)
      [("xec", K_exec); ("xport", K_export)]
  | 103 => (* g *)
      [("roup", K_group)]
  | 104 => (* h *)
      [("ostname", K_hostname)]
  | 105 => (* i *)
      [("oprio", K_ioprio); ("fup", K_ifup); ("nsmod", K_insmod); ("mport", K_import)]
  | 107 => (* k *)
      [("eycodes", K_keycodes)]
  | 108 => (* l *)
      [("oglevel", K_loglevel); ("oad_persist_props", K_load_persist_props)]
  | 109 => (* m *)
      [("kdir", K_mkdir); ("ount_all", K_mount_all); ("ount", K_mount)]
  | 111 => (* o *)
      [("n", K_on); ("neshot", K_oneshot); ("nrestart", K_onrestart)]
  | 112 => (* p *)
      [("owerctl", K_powerctl); ("estart", K_restart); ("estorecon", K_restorecon);
       ("mdir", K_rmdir); ("m", K_rm)]
  | 114 => (* r *)
      [("estart", K_restart); ("estorecon", K_restorecon); ("mdir", K_rmdir); ("m", K_rm)]
  | 115 => (* s *)
      [("eclabel", K_seclabel); ("ervice", K_service); ("etcon", K_setcon);
       ("etenforce", K_setenforce); ("etenv", K_setenv); ("etkey", K_setkey);
       ("etprop", K_setprop); ("etrlimit", K_setrlimit); ("etsebool", K_setsebool);
       ("ocket", K_socket); ("tart", K_start); ("top", K_stop); ("wapon_all", K_swapon_all);
       ("ymlink", K_symlink); ("ysclktz", K_sysclktz)]
  | 116 => (* t *)
      [("rigger", K_trigger)]
  | 117 => (* u *)
      [("ser", K_user)]
  | 119 => (* w *)
      [("rite", K_write); ("ait", K_wait)]
  | _ => []
  end.

Definition lookup_keyword (s : cstr) : keyword :=
  match s with
  | [] => K_UNKNOWN
  | c :: s => first_match s (keyword_cases c)
  end.

(** * Numbers (the C library, in the C locale) *)

Definition isspace (c : Z) : bool := ((9 <=? c) && (c <=? 13)) || (c =? 32).
Definition isdigit (c : Z) : bool := (48 <=? c) && (c <=? 57).
Definition isalpha (c : Z) : bool := ((65 <=? c) && (c <=? 90)) || ((97 <=? c) && (c <=? 122)).
Definition isalnum (c : Z) : bool := isalpha c || isdigit c.

Definition digit_value (c : Z) : Z :=
  if isdigit c then c - 48
  else if (97 <=? c) && (c <=? 122) then c - 87
  else if (65 <=? c) && (c <=? 90) then c - 55
  else 36.

(** The value of the longest prefix of digits. *)
Fixpoint digits (base : Z) (s : cstr) (acc : Z) : Z :=
  match s with
  | [] => acc
  | c :: s => if digit_value c <? base then digits base s (acc * base + digit_value c) else acc
  end.

Fixpoint skip_spaces (s : cstr) : cstr :=
  match s with
  | [] => []
  | c :: r => if isspace c then skip_spaces r else s
  end.

(** Sign and the rest. *)
Definition sign (s : cstr) : bool * cstr :=
  match s with
  | 45 :: r => (true, r)
  | 43 :: r => (false, r)
  | _ => (false, s)
  end.

(** The base to use and the digits, when [base] is 0 or 16. *)
Definition base_prefix (base : Z) (s : cstr) : Z * cstr :=
  match s with
  | 48 :: x :: r =>
      if ((x =? 120) || (x =? 88)) && ((base =? 0) || (base =? 16)) then (16, r)
      else (if base =? 0 then 8 else base, s)
  | 48 :: _ => (if base =? 0 then 8 else base, s)
  | _ => (if base =? 0 then 10 else base, s)
  end.

Definition ULONG_MAX : Z := 2 ^ 32 - 1.

(** strtoul: the value, and whether errno is set (ERANGE). *)
Definition strtoul (s : cstr) (base : Z) : Z * bool :=
  let (neg, s) := sign (skip_spaces s) in
  let (base, s) := base_prefix base s in
  let v := digits base s 0 in
  if ULONG_MAX <? v then (ULONG_MAX, true) else (if neg : bool then u32 (- v) else v, false).

(** atoi, as strtol in base 10. *)
Definition atoi (s : cstr) : Z :=
  let (neg, s) := sign (skip_spaces s) in
  let v := digits 10 s 0 in
  let v := if neg : bool then - v else v in
  Z.max (- 2 ^ 31) (Z.min v (2 ^ 31 - 1)).

(** * Users (util.c) *)

Section Users.
Context (android_ids : list (cstr * Z)).

Fixpoint android_name_to_id_in (ids : list (cstr * Z)) (name : cstr) : Z :=
  match ids with
  | [] => ULONG_MAX
  | (n, aid) :: ids => if decide (n = name) then aid else android_name_to_id_in ids name
  end.
Definition android_name_to_id (name : cstr) : Z := android_name_to_id_in android_ids name.

Definition decode_uid (s : cstr) : Z :=
  match s with
  | [] => ULONG_MAX
  | c :: _ =>
      if isalpha c then android_name_to_id s
      else let (v, errno) := strtoul s 0 in if errno : bool then ULONG_MAX else v
  end.
End Users.

(** * Properties in strings (expand_props) *)

(** The limits of bionic's system properties, their NUL included. *)
Class PropLimits := { PROP_NAME_MAX : nat; PROP_VALUE_MAX : nat }.

Section Expand.
Context `{PropLimits} (property_get : cstr → cstr).

(** Storing [cs] behind the bytes [out] already in the destination of [dst_size] bytes. *)
Definition put (dst_size : nat) (out cs : cstr) : res cstr :=
  if (length out + length cs <=? dst_size)%nat then Ok (out ++ cs) else Fault.

(** push_chars: [None] is -1; the destination and the bytes left (its [left] is [room]). *)
Definition push_chars (dst_size : nat) (out : cstr) (room : Z) (chars : cstr) : res (option (cstr * Z)) :=
  if room <? Z.of_nat (length chars) then Ok None
  else out ← put dst_size out chars; Ok (Some (out, room - Z.of_nat (length chars))).

Definition DOLLAR : Z := 36.
Definition LBRACE : Z := 123.
Definition RBRACE : Z := 125.

(** [strchr(s, '$')]: the characters before it and those behind it. *)
Fixpoint split_at (c : Z) (s : cstr) : option (cstr * cstr) :=
  match s with
  | [] => None
  | x :: r => if x =? c then Some ([], r) else '(a, b) ← split_at c r; Some (x :: a, b)
  end.

(** The name inside braces: up to PROP_NAME_MAX characters before the closing brace. *)
Fixpoint brace_name (max : nat) (s : cstr) : cstr * cstr :=
  match max, s with
  | S max, x :: r => if x =? RBRACE then ([], s) else let (n, rest) := brace_name max r in (x :: n, rest)
  | _, _ => ([], s)
  end.

(** The name of a property at [c], behind the dollar, and the text behind it; [None] is a
    jump to err. *)
Definition prop_name (c : cstr) : option (cstr * cstr) :=
  match c with
  | x :: r =>
      if x =? LBRACE then
        let (n, rest) := brace_name PROP_NAME_MAX r in
        match rest with
        | y :: rest => if y =? RBRACE then Some (n, rest) else None
        | [] => None
        end
      else if (PROP_NAME_MAX <? length c)%nat then None else Some (c, [])
  | [] => None
  end.

(** The loop: the destination so far, [room], and the text to go; the final NUL is stored.
    [None] is the result -1. *)
Fixpoint expand_loop (fuel dst_size : nat) (out : cstr) (room : Z) (src : cstr) : res (option cstr) :=
  match fuel with
  | O => Fault
  | S fuel =>
      let finish out := put dst_size out [0] ≫= λ _, Ok (Some out) in
      if negb (bool_decide (src ≠ [] ∧ room > 0)) then finish out
      else
        match split_at DOLLAR src with
        | None => out ← put dst_size out (take (Z.to_nat room) src); finish out
        | Some (before, c) =>
            p ← push_chars dst_size out room before;
            match p with
            | None => Ok None
            | Some (out, room) =>
                match c with
                | [] => finish out
                | x :: r =>
                    if x =? DOLLAR then
                      out ← put dst_size out [DOLLAR];
                      expand_loop fuel dst_size out (room - 1) r
                    else
                      match prop_name c with
                      | None => Ok None
                      | Some (name, rest) =>
                          if bool_decide (name = []) || bool_decide (property_get name = []) then Ok None
                          else
                            p ← push_chars dst_size out room (property_get name);
                            match p with
                            | None => Ok None
                            | Some (out, room) => expand_loop fuel dst_size out room rest
                            end
                      end
                end
            end
        end
  end.

(** expand_props on a destination of [dst_size] bytes: the string stored there, or [None]
    when it returns -1. *)
Definition expand_props (src : cstr) (dst_size : nat) : res (option cstr) :=
  if (dst_size =? 0)%nat then Ok None
  else expand_loop (S (length src)) dst_size [] (Z.of_nat dst_size - 1) src.
End Expand.

(** * Services and actions (init.h) *)

Definition SVC_DISABLED : Z := 0x01.
Definition SVC_ONESHOT : Z := 0x02.
Definition SVC_RUNNING : Z := 0x04.
Definition SVC_RESTARTING : Z := 0x08.
Definition SVC_CONSOLE : Z := 0x10.
Definition SVC_CRITICAL : Z := 0x20.
Definition SVC_RESET : Z := 0x40.
Definition SVC_RC_DISABLED : Z := 0x80.
Definition SVC_RESTART : Z := 0x100.
Definition NR_SVC_SUPP_GIDS : nat := 12.

(** The actions that init queues for itself (queue_builtin_action). *)
Inductive builtin :=
  | wait_for_coldboot_done | mix_hwrng_into_linux_rng | keychord_init | console_init | property_service_init
  | signal_init | check_startup | queue_property_triggers_action.

(** The function of a command: the one of a keyword (do_start for start and so on), or one
    of init's own actions. *)
Inductive command_func := do_keyword (kw : keyword) | do_builtin (b : builtin).

(** A command: its function and its words. *)
Record command := mkCommand { func : command_func; cargs : list cstr }.

Record action := mkAction { aname : cstr; commands : list command }.

Record socketinfo := mkSocket { so_name : cstr; so_type : cstr; so_uid : Z; so_gid : Z; so_perm : Z }.

Inductive IoSchedClass := IoSchedClass_NONE | IoSchedClass_RT | IoSchedClass_BE | IoSchedClass_IDLE.

Record service := mkService {
  name : cstr;
  classname : cstr;
  flags : Z;
  pid : Z;
  time_started : Z;
  time_crashed : Z;
  nr_crashed : Z;
  uid : Z;
  gid : Z;
  supp_gids : list Z;
  seclabel : option cstr;
  sockets : list socketinfo;
  envvars : list (cstr * cstr);
  onrestart : list command;
  keycodes : list Z;
  keychord_id : Z;
  ioprio_class : IoSchedClass;
  ioprio_pri : Z;
  sargs : list cstr
}.

(** The lists of init_parser.c.  An action is in [action_queue] when its [qlist] is linked. *)
Record config := mkConfig {
  service_list : list service;
  action_list : list action;
  action_queue : list nat
}.

Definition empty_config : config := mkConfig [] [] [].

Definition set_services (f : list service → list service) (c : config) : config :=
  mkConfig (f (service_list c)) (action_list c) (action_queue c).
Definition set_actions (f : list action → list action) (c : config) : config :=
  mkConfig (service_list c) (f (action_list c)) (action_queue c).

(** Assignments to the fields of a service. *)
Definition set_classname v s := mkService (name s) v (flags s) (pid s) (time_started s) (time_crashed s) (nr_crashed s)
  (uid s) (gid s) (supp_gids s) (seclabel s) (sockets s) (envvars s) (onrestart s) (keycodes s) (keychord_id s)
  (ioprio_class s) (ioprio_pri s) (sargs s).
Definition set_flags v s := mkService (name s) (classname s) v (pid s) (time_started s) (time_crashed s) (nr_crashed s)
  (uid s) (gid s) (supp_gids s) (seclabel s) (sockets s) (envvars s) (onrestart s) (keycodes s) (keychord_id s)
  (ioprio_class s) (ioprio_pri s) (sargs s).
Definition set_uid v s := mkService (name s) (classname s) (flags s) (pid s) (time_started s) (time_crashed s)
  (nr_crashed s) v (gid s) (supp_gids s) (seclabel s) (sockets s) (envvars s) (onrestart s) (keycodes s) (keychord_id s)
  (ioprio_class s) (ioprio_pri s) (sargs s).
Definition set_groups g v s := mkService (name s) (classname s) (flags s) (pid s) (time_started s) (time_crashed s)
  (nr_crashed s) (uid s) g v (seclabel s) (sockets s) (envvars s) (onrestart s) (keycodes s) (keychord_id s)
  (ioprio_class s) (ioprio_pri s) (sargs s).
Definition set_seclabel v s := mkService (name s) (classname s) (flags s) (pid s) (time_started s) (time_crashed s)
  (nr_crashed s) (uid s) (gid s) (supp_gids s) v (sockets s) (envvars s) (onrestart s) (keycodes s) (keychord_id s)
  (ioprio_class s) (ioprio_pri s) (sargs s).
Definition set_sockets v s := mkService (name s) (classname s) (flags s) (pid s) (time_started s) (time_crashed s)
  (nr_crashed s) (uid s) (gid s) (supp_gids s) (seclabel s) v (envvars s) (onrestart s) (keycodes s) (keychord_id s)
  (ioprio_class s) (ioprio_pri s) (sargs s).
Definition set_envvars v s := mkService (name s) (classname s) (flags s) (pid s) (time_started s) (time_crashed s)
  (nr_crashed s) (uid s) (gid s) (supp_gids s) (seclabel s) (sockets s) v (onrestart s) (keycodes s) (keychord_id s)
  (ioprio_class s) (ioprio_pri s) (sargs s).
Definition set_onrestart v s := mkService (name s) (classname s) (flags s) (pid s) (time_started s) (time_crashed s)
  (nr_crashed s) (uid s) (gid s) (supp_gids s) (seclabel s) (sockets s) (envvars s) v (keycodes s) (keychord_id s)
  (ioprio_class s) (ioprio_pri s) (sargs s).
Definition set_keycodes v s := mkService (name s) (classname s) (flags s) (pid s) (time_started s) (time_crashed s)
  (nr_crashed s) (uid s) (gid s) (supp_gids s) (seclabel s) (sockets s) (envvars s) (onrestart s) v (keychord_id s)
  (ioprio_class s) (ioprio_pri s) (sargs s).
Definition set_ioprio_class v s := mkService (name s) (classname s) (flags s) (pid s) (time_started s) (time_crashed s)
  (nr_crashed s) (uid s) (gid s) (supp_gids s) (seclabel s) (sockets s) (envvars s) (onrestart s) (keycodes s)
  (keychord_id s) v (ioprio_pri s) (sargs s).
Definition set_ioprio_pri v s := mkService (name s) (classname s) (flags s) (pid s) (time_started s) (time_crashed s)
  (nr_crashed s) (uid s) (gid s) (supp_gids s) (seclabel s) (sockets s) (envvars s) (onrestart s) (keycodes s)
  (keychord_id s) (ioprio_class s) v (sargs s).

(** The fields that change while init runs. *)
Definition set_life fl p started crashed nr s := mkService (name s) (classname s) fl p started crashed nr
  (uid s) (gid s) (supp_gids s) (seclabel s) (sockets s) (envvars s) (onrestart s) (keycodes s) (keychord_id s)
  (ioprio_class s) (ioprio_pri s) (sargs s).
Definition set_keychord v s := mkService (name s) (classname s) (flags s) (pid s) (time_started s) (time_crashed s)
  (nr_crashed s) (uid s) (gid s) (supp_gids s) (seclabel s) (sockets s) (envvars s) (onrestart s) (keycodes s) v
  (ioprio_class s) (ioprio_pri s) (sargs s).

(** * Sections *)

Definition valid_name (nm : cstr) : bool :=
  (length nm <=? 16)%nat && forallb (λ c, isalnum c || (c =? 95) || (c =? 45)) nm.

Definition service_find_by_name (nm : cstr) (c : config) : option nat :=
  fst <$> list_find (λ s, name s = nm) (service_list c).

(** args[i]: reading an element that was never set is undefined. *)
Definition arg (args : list (option cstr)) (i : nat) : res cstr := deref (mjoin (args !! i)).
(** The first [n] words from [i] on. *)
Definition args_from (args : list (option cstr)) (i n : nat) : res (list cstr) :=
  deref (mapM id (take n (drop i args))).

(** What [state->parse_line] is, with its [context]. *)
Inductive line_parser := parse_line_no_op | parse_line_service_of (i : nat) | parse_line_action_of (i : nat).

(** The parser's state: the lists, parse_line, and the import list. *)
Record parser := mkParser { cfg : config; parse_line : line_parser; imports : list cstr }.

Definition new_service (nm : cstr) (sargs : list cstr) : service :=
  mkService nm (bytes_of "default") 0 0 0 0 0 0 0 [] None [] [] [] [] 0 IoSchedClass_NONE 0 sargs.

Definition parse_service (nargs : nat) (args : list (option cstr)) (c : config) : res (config * option nat) :=
  if (nargs <? 3)%nat then Ok (c, None)
  else
    nm ← arg args 1;
    if negb (valid_name nm) then Ok (c, None)
    else
      match service_find_by_name nm c with
      | Some _ => Ok (c, None)
      | None =>
          sa ← args_from args 2 (nargs - 2);
          Ok (set_services (λ l, l ++ [new_service nm sa]) c, Some (length (service_list c)))
      end.

Definition parse_action (nargs : nat) (args : list (option cstr)) (c : config) : res (config * option nat) :=
  if (nargs <? 2)%nat then Ok (c, None)
  else if (2 <? nargs)%nat then Ok (c, None)
  else
    nm ← arg args 1;
    Ok (set_actions (λ l, l ++ [mkAction nm []]) c, Some (length (action_list c))).

(** A line of an action. *)
Definition parse_line_action (i : nat) (nargs : nat) (args : list (option cstr)) (c : config) : res config :=
  if (nargs =? 0)%nat then Ok c
  else
    w ← arg args 0;
    let kw := lookup_keyword w in
    if negb (kw_is kw COMMAND) then Ok c
    else if (nargs <? kw_nargs kw)%nat then Ok c
    else
      ws ← args_from args 0 nargs;
      Ok (set_actions (alter (λ a, mkAction (aname a) (commands a ++ [mkCommand (do_keyword kw) ws])) i) c).

Section Parse.
Context `{PropLimits} (android_ids : list (cstr * Z)) (property_get : cstr → cstr).

Definition svc_ioprio (nargs : nat) (args : list (option cstr)) (s : service) : res service :=
  if negb (nargs =? 3)%nat then Ok s
  else
    a2 ← arg args 2;
    let pri := s32 (strtoul a2 8).1 in
    let s := set_ioprio_pri pri s in
    if (pri <? 0) || (7 <? pri) then Ok s
    else
      a1 ← arg args 1;
      if streq a1 "rt" then Ok (set_ioprio_class IoSchedClass_RT s)
      else if streq a1 "be" then Ok (set_ioprio_class IoSchedClass_BE s)
      else if streq a1 "idle" then Ok (set_ioprio_class IoSchedClass_IDLE s)
      else Ok s.

Definition svc_group (nargs : nat) (args : list (option cstr)) (s : service) : res service :=
  if (nargs <? 2)%nat then Ok s
  else if (NR_SVC_SUPP_GIDS + 2 <? nargs)%nat then Ok s
  else
    g ← arg args 1;
    gs ← args_from args 2 (nargs - 2);
    Ok (set_groups (decode_uid android_ids g) (decode_uid android_ids <$> gs) s).

(** The words move down by one; the count too. *)
Definition svc_onrestart (nargs : nat) (args : list (option cstr)) (s : service) : res service :=
  let nargs := (nargs - 1)%nat in
  w ← arg args 1;
  let kw := lookup_keyword w in
  if negb (kw_is kw COMMAND) then Ok s
  else if (nargs <? kw_nargs kw)%nat then Ok s
  else
    ws ← args_from args 1 nargs;
    Ok (set_onrestart (onrestart s ++ [mkCommand (do_keyword kw) ws]) s).

Definition svc_setenv (nargs : nat) (args : list (option cstr)) (s : service) : res service :=
  if (nargs <? 2)%nat then Ok s
  else
    n ← arg args 1;
    v ← arg args 2;
    Ok (set_envvars ((n, v) :: envvars s) s).

Definition svc_socket (nargs : nat) (args : list (option cstr)) (s : service) : res service :=
  if (nargs <? 4)%nat then Ok s
  else
    ty ← arg args 2;
    if negb (streq ty "dgram") && negb (streq ty "stream") && negb (streq ty "seqpacket") then Ok s
    else
      n ← arg args 1;
      p ← arg args 3;
      u ← (if (4 <? nargs)%nat then a ← arg args 4; Ok (decode_uid android_ids a) else Ok 0);
      g ← (if (5 <? nargs)%nat then a ← arg args 5; Ok (decode_uid android_ids a) else Ok 0);
      Ok (set_sockets (mkSocket n ty u g (s32 (strtoul p 8).1) :: sockets s) s).

(** A line of a service, on the service. *)
Definition service_line (nargs : nat) (args : list (option cstr)) (s : service) : res service :=
  let s := set_ioprio_class IoSchedClass_NONE s in
  w ← arg args 0;
  match lookup_keyword w with
  | K_capability => Ok s
  | K_class =>
      if negb (nargs =? 2)%nat then Ok s else a ← arg args 1; Ok (set_classname a s)
  | K_console => Ok (set_flags (Z.lor (flags s) SVC_CONSOLE) s)
  | K_disabled => Ok (set_flags (Z.lor (Z.lor (flags s) SVC_DISABLED) SVC_RC_DISABLED) s)
  | K_ioprio => svc_ioprio nargs args s
  | K_group => svc_group nargs args s
  | K_keycodes =>
      if (nargs <? 2)%nat then Ok s
      else ws ← args_from args 1 (nargs - 1); Ok (set_keycodes (atoi <$> ws) s)
  | K_oneshot => Ok (set_flags (Z.lor (flags s) SVC_ONESHOT) s)
  | K_onrestart => svc_onrestart nargs args s
  | K_critical => Ok (set_flags (Z.lor (flags s) SVC_CRITICAL) s)
  | K_setenv => svc_setenv nargs args s
  | K_socket => svc_socket nargs args s
  | K_user =>
      if negb (nargs =? 2)%nat then Ok s else a ← arg args 1; Ok (set_uid (decode_uid android_ids a) s)
  | K_seclabel =>
      if negb (nargs =? 2)%nat then Ok s else a ← arg args 1; Ok (set_seclabel (Some a) s)
  | _ => Ok s
  end.

Definition parse_line_service (i : nat) (nargs : nat) (args : list (option cstr)) (c : config) : res config :=
  if (nargs =? 0)%nat then Ok c
  else
    s ← deref (service_list c !! i);
    s ← service_line nargs args s;
    Ok (set_services <[i := s]> c).

Definition PATH_MAX : nat := 4096.

Definition parse_import (nargs : nat) (args : list (option cstr)) (p : parser) : res parser :=
  if negb (nargs =? 2)%nat then Ok p
  else
    a ← arg args 1;
    r ← expand_props property_get a PATH_MAX;
    match r with
    | None => Ok p
    | Some conf_file => Ok (mkParser (cfg p) (parse_line p) (imports p ++ [conf_file]))
    end.

Definition parse_new_section (kw : keyword) (nargs : nat) (args : list (option cstr)) (p : parser) : res parser :=
  match kw with
  | K_service =>
      '(c, ctx) ← parse_service nargs args (cfg p);
      Ok (mkParser c (match ctx with Some i => parse_line_service_of i | None => parse_line_no_op end) (imports p))
  | K_on =>
      '(c, ctx) ← parse_action nargs args (cfg p);
      Ok (mkParser c (match ctx with Some i => parse_line_action_of i | None => parse_line_no_op end) (imports p))
  | K_import =>
      p ← parse_import nargs args p;
      Ok (mkParser (cfg p) parse_line_no_op (imports p))
  | _ => Ok (mkParser (cfg p) parse_line_no_op (imports p))
  end.

(** [state.parse_line(&state, nargs, args)] *)
Definition run_parse_line (nargs : nat) (args : list (option cstr)) (p : parser) : res parser :=
  match parse_line p with
  | parse_line_no_op => Ok p
  | parse_line_service_of i =>
      c ← parse_line_service i nargs args (cfg p); Ok (mkParser c (parse_line p) (imports p))
  | parse_line_action_of i =>
      c ← parse_line_action i nargs args (cfg p); Ok (mkParser c (parse_line p) (imports p))
  end.

(** What parse_config does at the end of a line with words. *)
Definition config_line (l : Z) (nargs : nat) (args : list (option cstr)) (p : parser) : res parser :=
  w ← arg args 0;
  let kw := lookup_keyword w in
  if kw_is kw SECTION then
    p ← run_parse_line 0 [] p;
    parse_new_section kw nargs args p
  else run_parse_line nargs args p.

(** The parser's loop over a file, on the buffer of the file. *)
Definition parse_config_loop (m : buffer) (c : config) : res parser :=
  '(_, p) ← parse_loop INIT_PARSER_MAXARGS true (λ l m n args p, config_line l n (strs m args) p)
    (parse_fuel m) (parse_start m 0) 0 (replicate INIT_PARSER_MAXARGS None) (mkParser c parse_line_no_op []);
  run_parse_line 0 [] p.

(** ** Files *)

(** read_file: the contents of a readable file that only its owner may write. *)
Context (read_file : cstr → option (list Z)).

(** init_parse_config_file and parse_config: the file, then its imports, each in full with
    its own imports.  [depth] bounds the nesting of imports, which the code does not. *)
Fixpoint init_parse_config_file (depth : nat) (fn : cstr) (c : config) : res (Z * config) :=
  match depth with
  | O => Fault
  | S depth =>
      match read_file fn with
      | None => Ok (-1, c)
      | Some data =>
          p ← parse_config_loop (file_buffer data) c;
          c ← foldl (λ r f, c ← r; '(_, c) ← init_parse_config_file depth f c; Ok c) (Ok (cfg p)) (imports p);
          Ok (0, c)
      end
  end.
End Parse.

(** * Words in the array *)

(** The array holds the words [ws] first. *)
Definition args_hold (args : list (option cstr)) (ws : list cstr) : Prop := ∃ rest, args = (Some <$> ws) ++ rest.

Lemma arg_hold args ws i w : args_hold args ws → ws !! i = Some w → arg args i = Ok w.
Proof.
  intros [rest ->] Hi. unfold arg. rewrite lookup_app_l by (rewrite length_fmap; by eapply lookup_lt_Some).
  by rewrite list_lookup_fmap, Hi.
Qed.

Lemma args_from_hold args ws i n :
  args_hold args ws → n = (length ws - i)%nat → args_from args i n = Ok (drop i ws).
Proof.
  intros [rest ->] ->. unfold args_from. destruct (decide (i ≤ length ws)%nat) as [Hi|Hi].
  - rewrite drop_app_le by (rewrite length_fmap; lia). rewrite <- fmap_drop.
    rewrite take_app_le by (rewrite length_fmap, length_drop; lia). rewrite take_ge by (rewrite length_fmap, length_drop; lia).
    induction (drop i ws) as [|w l IH]; [done|]. cbn. cbn in IH. destruct (mapM id (Some <$> l)); cbn in *; congruence.
  - replace (length ws - i)%nat with 0%nat by lia. rewrite take_0, drop_ge by lia. done.
Qed.

Lemma fill_hold max ws args : args_hold (fill max ws args) (take max ws).
Proof. by eexists. Qed.

(** The first three elements of the array are set: those of the line of a service. *)
Definition three_set (args : list (option cstr)) : Prop := ∀ i, (i < 3)%nat → ∃ w, arg args i = Ok w.

Lemma three_set_hold args ws : args_hold args ws → (3 ≤ length ws)%nat → three_set args.
Proof.
  intros Ha Hl i Hi. destruct (lookup_lt_is_Some_2 ws i ltac:(lia)) as [w Hw]. exists w. by eapply arg_hold.
Qed.

Lemma three_set_fill max ws args : three_set args → three_set (fill max ws args).
Proof.
  intros H3 i Hi. destruct (decide (i < length (take max ws))%nat) as [Hl|Hl].
  - destruct (lookup_lt_is_Some_2 _ _ Hl) as [w Hw]. exists w. eapply arg_hold; [apply fill_hold|done].
  - destruct (H3 i Hi) as [w Hw]. exists w. rewrite <- Hw. unfold arg, fill.
    rewrite lookup_app_r; rewrite length_fmap; [|lia]. rewrite lookup_drop. by replace (_ + _)%nat with i by lia.
Qed.

(** * Well-formed configurations *)

(** A command has the words that its function reads. *)
Definition cmd_wf (cm : command) : Prop :=
  ∃ kw, func cm = do_keyword kw ∧ kw_is kw COMMAND = true ∧
    (kw_nargs kw ≤ length (cargs cm) ≤ INIT_PARSER_MAXARGS)%nat ∧ lookup_keyword (default [] (head (cargs cm))) = kw.

Record svc_wf (s : service) : Prop := {
  sw_name : valid_name (name s) = true;
  sw_args : sargs s ≠ [];
  sw_supp : (length (supp_gids s) ≤ NR_SVC_SUPP_GIDS)%nat;
  sw_onrestart : Forall cmd_wf (onrestart s);
  sw_ioprio : ioprio_class s = IoSchedClass_NONE ∨ 0 ≤ ioprio_pri s ≤ 7;
  sw_stopped : Z.land (flags s) (Z.lor SVC_RUNNING SVC_RESTARTING) = 0 ∧ pid s = 0
}.

Record config_wf (c : config) : Prop := {
  cw_services : Forall svc_wf (service_list c);
  cw_unique : NoDup (name <$> service_list c);
  cw_actions : Forall (λ a, Forall cmd_wf (commands a)) (action_list c)
}.

Lemma empty_config_wf : config_wf empty_config.
Proof. by split; constructor. Qed.

Definition ctx_ok (c : config) (lp : line_parser) : Prop :=
  match lp with
  | parse_line_no_op => True
  | parse_line_service_of i => (i < length (service_list c))%nat
  | parse_line_action_of i => (i < length (action_list c))%nat
  end.

Definition parser_wf (p : parser) : Prop := config_wf (cfg p) ∧ ctx_ok (cfg p) (parse_line p).

Lemma new_service_wf nm sa : valid_name nm = true → sa ≠ [] → svc_wf (new_service nm sa).
Proof. intros. split; cbn; [done|done|lia|constructor|by left|done]. Qed.

Lemma parse_service_wf args ws c :
  config_wf c → args_hold args ws →
  ∃ c' ctx, parse_service (length ws) args c = Ok (c', ctx) ∧ config_wf c' ∧
    ctx_ok c' (match ctx with Some i => parse_line_service_of i | None => parse_line_no_op end) ∧
    (is_Some ctx → (3 ≤ length ws)%nat).
Proof.
  intros Hc Ha. unfold parse_service. destruct (Nat.ltb_spec (length ws) 3) as [Hl|Hl]; [exists c, None; split_and!; [done..|by intros []]|].
  destruct (lookup_lt_is_Some_2 ws 1 ltac:(lia)) as [nm Hnm]. rewrite (arg_hold _ _ _ _ Ha Hnm). cbn [mbind res_bind].
  destruct (valid_name nm) eqn:Hv; cbn [negb]; [|by eexists _, None].
  unfold service_find_by_name. destruct (list_find _ _) as [[i s]|] eqn:Hf; cbn [fmap option_fmap option_map]; [exists c, None; split_and!; [done..|by intros []]|].
  rewrite (args_from_hold _ _ _ _ Ha eq_refl). cbn [mbind res_bind]. eexists _, (Some _). split; [done|]. split; [|split; [cbn; rewrite length_app; cbn; lia|done]].
  destruct Hc as [H1 H2 H3]. split; cbn; [| |done].
  - apply Forall_app. split; [done|]. constructor; [|done]. apply new_service_wf; [done|].
    intros E%(f_equal length). rewrite length_drop in E. cbn in E. lia.
  - rewrite fmap_app. apply NoDup_app. split_and!; [done| |apply NoDup_singleton].
    cbn. intros n (s & -> & Hs)%list_elem_of_fmap Hn%list_elem_of_singleton.
    apply list_find_None in Hf. rewrite Forall_forall in Hf. exact (Hf s Hs Hn).
Qed.

Lemma parse_action_wf args ws c :
  config_wf c → args_hold args ws →
  ∃ c' ctx, parse_action (length ws) args c = Ok (c', ctx) ∧ config_wf c' ∧
    ctx_ok c' (match ctx with Some i => parse_line_action_of i | None => parse_line_no_op end).
Proof.
  intros Hc Ha. unfold parse_action. destruct (Nat.ltb_spec (length ws) 2) as [Hl|Hl]; [by eexists _, None|].
  destruct (Nat.ltb_spec 2 (length ws)) as [Hl2|Hl2]; [by eexists _, None|].
  destruct (lookup_lt_is_Some_2 ws 1 ltac:(lia)) as [nm Hnm]. rewrite (arg_hold _ _ _ _ Ha Hnm). cbn [mbind res_bind].
  eexists _, (Some _). split; [done|]. destruct Hc as [H1 H2 H3]. split; [|cbn; rewrite length_app; cbn; lia].
  split; cbn; [done..|]. apply Forall_app. split; [done|]. by repeat constructor.
Qed.

(** * expand_props stays in its buffer when no dollar is doubled *)

(** The text holds two dollars in a row. *)
Fixpoint double_dollar (s : cstr) : bool :=
  match s with
  | x :: (y :: _) as r => ((x =? DOLLAR) && (y =? DOLLAR)) || double_dollar r
  | _ => false
  end.

Lemma double_dollar_app a b : double_dollar (a ++ b) = false → double_dollar b = false.
Proof.
  induction a as [|x a IH]; [done|]. intros H. apply IH. cbn [app double_dollar] in H.
  destruct (a ++ b) as [|y r]; [done|]. by apply orb_false_iff in H as [_ ?].
Qed.

Lemma split_at_spec c s a b : split_at c s = Some (a, b) → s = a ++ c :: b.
Proof.
  revert a. induction s as [|x s IH]; intros a H; [done|]. cbn in H. destruct (Z.eqb_spec x c) as [->|_].
  - by injection H as <- <-.
  - destruct (split_at c s) as [[a' b']|]; [|done]. cbn in H. injection H as <- <-. cbn. by rewrite (IH a').
Qed.

Lemma brace_name_spec n s a b : brace_name n s = (a, b) → s = a ++ b.
Proof.
  revert s a. induction n as [|n IH]; intros s a H; [by injection H as <- <-|]. destruct s as [|x s]; cbn in H.
  { by injection H as <- <-. }
  destruct (x =? RBRACE); [by injection H as <- <-|]. destruct (brace_name n s) as [a' b'] eqn:E.
  injection H as <- <-. cbn. by rewrite (IH s a').
Qed.

Section ExpandSafe.
Context `{PropLimits} (property_get : cstr → cstr).

Lemma prop_name_rest c nm rest : prop_name c = Some (nm, rest) → ∃ pre, c = pre ++ rest ∧ pre ≠ [].
Proof.
  unfold prop_name. destruct c as [|x r]; [done|]. destruct (x =? LBRACE).
  - destruct (brace_name PROP_NAME_MAX r) as [n b] eqn:E. apply brace_name_spec in E as ->.
    destruct b as [|y b]; [done|]. destruct (y =? RBRACE); [|done]. intros [= <- <-].
    exists (x :: n ++ [y]). cbn. by rewrite <- app_assoc.
  - case_match; [done|]. intros [= <- <-]. exists (x :: r). by rewrite app_nil_r.
Qed.

Lemma push_chars_ok size out room cs :
  Z.of_nat (length out) + room = Z.of_nat size - 1 → 0 ≤ room →
  push_chars size out room cs = Ok None ∨
  ∃ out' room', push_chars size out room cs = Ok (Some (out', room')) ∧
    Z.of_nat (length out') + room' = Z.of_nat size - 1 ∧ 0 ≤ room'.
Proof.
  intros Hr H0. unfold push_chars. destruct (Z.ltb_spec room (Z.of_nat (length cs))) as [|Hle]; [by left|]. right.
  unfold put. rewrite (proj2 (Nat.leb_le _ _)) by lia. cbn. eexists _, _. split; [done|]. rewrite length_app. lia.
Qed.

Lemma put_ok size out cs : (length out + length cs ≤ size)%nat → put size out cs = Ok (out ++ cs).
Proof. intros. unfold put. by rewrite (proj2 (Nat.leb_le _ _)) by done. Qed.

Lemma expand_loop_safe fuel size out room src :
  Z.of_nat (length out) + room = Z.of_nat size - 1 → 0 ≤ room → (length src < fuel)%nat → double_dollar src = false →
  ∃ r, expand_loop property_get fuel size out room src = Ok r.
Proof.
  revert out room src. induction fuel as [|fuel IH]; intros out room src Hr H0 Hf Hd; [lia|]. cbn [expand_loop].
  assert (∀ out, (length out < size)%nat → ∃ r, (put size out [0] ≫= λ _, Ok (Some out)) = Ok r) as Hfin.
  { intros o Ho. rewrite put_ok by (cbn; lia). by eexists. }
  case_match; [apply Hfin; lia|]. destruct (split_at DOLLAR src) as [[before c]|] eqn:Hs.
  2: { rewrite put_ok by (rewrite length_take; lia). apply Hfin. rewrite length_app, length_take. lia. }
  apply split_at_spec in Hs as ->.
  destruct (push_chars_ok size out room before Hr H0) as [->|(out1 & room1 & -> & Hr1 & Hp1)]; cbn [mbind res_bind]; [by eexists|].
  destruct c as [|x r]; [apply Hfin; lia|].
  assert (double_dollar (DOLLAR :: x :: r) = false) as Hd' by (by eapply double_dollar_app).
  cbn [double_dollar] in Hd'. apply orb_false_iff in Hd' as [Hx Hd'].
  change ((x =? DOLLAR) = false) in Hx. rewrite Hx.
  destruct (prop_name (x :: r)) as [[nm rest]|] eqn:Hn; [|by eexists].
  apply prop_name_rest in Hn as (pre & E & Hpre). destruct (_ || _); [by eexists|].
  destruct (push_chars_ok size out1 room1 (property_get nm) Hr1 Hp1) as [->|(out2 & room2 & -> & Hr2 & Hp2)]; cbn [mbind res_bind];
    [by eexists|].
  apply IH; [done|done| |].
  - apply (f_equal length) in E. rewrite length_app in E. rewrite length_app in Hf. cbn in E, Hf. destruct pre; [done|]. cbn in E. lia.
  - apply (double_dollar_app pre). by rewrite <- E.
Qed.

Lemma expand_props_safe src size : double_dollar src = false → ∃ r, expand_props property_get src size = Ok r.
Proof.
  intros Hd. unfold expand_props. destruct (Nat.eqb_spec size 0); [by eexists|].
  apply expand_loop_safe; [cbn; lia|lia|lia|done].
Qed.
End ExpandSafe.

(** * Lines keep the configuration well-formed *)

Lemma command_wf kw w ws :
  kw = lookup_keyword w → head ws = Some w → kw_is kw COMMAND = true → (kw_nargs kw ≤ length ws)%nat →
  (length ws ≤ INIT_PARSER_MAXARGS)%nat → cmd_wf (mkCommand (do_keyword kw) ws).
Proof. intros -> Hw Hk Hn Hl. eexists. split_and!; cbn; [done..|]. by rewrite Hw. Qed.

Lemma set_services_wf i s c :
  config_wf c → svc_wf s → name <$> service_list c !! i = Some (name s) → config_wf (set_services <[i := s]> c).
Proof.
  intros [H1 H2 H3] Hs Hn. split; cbn; [by apply Forall_insert| |done].
  rewrite list_fmap_insert, list_insert_id; [done|]. by rewrite list_lookup_fmap.
Qed.

(** The condition under which a line makes the parser write no byte behind a buffer: the
    file name of an import holds no doubled dollar. *)
Definition good_line (ws : list cstr) : Prop :=
  match ws with
  | [w; a] => lookup_keyword w = K_import → double_dollar a = false
  | _ => True
  end.

#[global] Instance good_line_dec ws : Decision (good_line ws).
Proof. unfold good_line. destruct ws as [|w [|a [|]]]; apply _. Defined.

Lemma parse_line_action_wf i args ws c :
  config_wf c → args_hold args ws → (length ws ≤ INIT_PARSER_MAXARGS)%nat →
  ∃ c', parse_line_action i (length ws) args c = Ok c' ∧ config_wf c' ∧ length (service_list c') = length (service_list c) ∧
        length (action_list c') = length (action_list c).
Proof.
  intros Hc Ha Hl. unfold parse_line_action. destruct ws as [|w ws]; [by eexists|].
  change (length (w :: ws) =? 0)%nat with false. cbv iota.
  rewrite (arg_hold _ _ 0 w Ha eq_refl). cbn [mbind res_bind].
  destruct (kw_is (lookup_keyword w) COMMAND) eqn:Hk; cbn [negb]; [|by eexists].
  destruct (Nat.ltb_spec (length (w :: ws)) (kw_nargs (lookup_keyword w))) as [|Hn]; [by eexists|].
  rewrite (args_from_hold _ _ 0 _ Ha) by lia. cbn [mbind res_bind]. eexists. split; [done|]. destruct Hc as [H1 H2 H3].
  split_and!; [|done|cbn; by rewrite length_alter]. split; cbn; [done..|].
  apply Forall_alter; [done|]. intros a Hi Hac. cbn. apply Forall_app. split; [done|]. constructor; [|done].
  by apply (command_wf _ w).
Qed.

Lemma svc_flags_wf v s : svc_wf s → Z.land v (Z.lor SVC_RUNNING SVC_RESTARTING) = 0 → svc_wf (set_flags (Z.lor (flags s) v) s).
Proof.
  intros [] Hv. split; cbn; try done. rewrite Z.land_lor_distr_l, Hv.
  by destruct sw_stopped0 as [-> ->].
Qed.

Lemma command_has_word kw : kw_is kw COMMAND = true → (1 ≤ kw_nargs kw)%nat.
Proof. intros H. destruct kw; cbn in *; try done; lia. Qed.

Section LineWf.
Context `{PropLimits} (android_ids : list (cstr * Z)) (property_get : cstr → cstr).

(** The options whose line gives back a service: well-formed, of the same name. *)
Definition svc_result (s : service) (r : res service) : Prop :=
  ∃ s', r = Ok s' ∧ svc_wf s' ∧ name s' = name s.

Lemma svc_result_same s : svc_wf s → svc_result s (Ok s).
Proof. by eexists. Qed.

Lemma svc_ioprio_wf args ws s :
  args_hold args ws → svc_wf s → ioprio_class s = IoSchedClass_NONE → svc_result s (svc_ioprio (length ws) args s).
Proof.
  intros Ha Hs Hc. unfold svc_ioprio. destruct (Nat.eqb_spec (length ws) 3) as [Hl|]; cbn [negb]; [|by apply svc_result_same].
  destruct ws as [|w0 [|w1 [|w2 ws]]]; cbn in Hl; try lia. rewrite (arg_hold _ _ 2 w2 Ha eq_refl), (arg_hold _ _ 1 w1 Ha eq_refl).
  cbn [mbind res_bind]. set (pri := s32 _).
  assert (svc_wf (set_ioprio_pri pri s)) as Hp by (destruct Hs; split; cbn; auto).
  destruct ((pri <? 0) || (7 <? pri)) eqn:Hr; [by eexists|]. apply orb_false_iff in Hr as [Hr1%Z.ltb_ge Hr2%Z.ltb_ge].
  assert (∀ cl, svc_result s (Ok (set_ioprio_class cl (set_ioprio_pri pri s)))) as Hset.
  { intros cl. eexists. split; [done|]. split; [|done]. destruct Hs; split; cbn; try done. right. lia. }
  destruct (streq w1 "rt"); [apply Hset|]. destruct (streq w1 "be"); [apply Hset|]. destruct (streq w1 "idle"); [apply Hset|].
  by eexists.
Qed.

Lemma svc_group_wf args ws s : args_hold args ws → svc_wf s → svc_result s (svc_group android_ids (length ws) args s).
Proof.
  intros Ha Hs. unfold svc_group. destruct (Nat.ltb_spec (length ws) 2) as [|Hl]; [by apply svc_result_same|].
  destruct (Nat.ltb_spec (NR_SVC_SUPP_GIDS + 2) (length ws)) as [|Hl2]; [by apply svc_result_same|].
  destruct ws as [|w0 [|w1 ws]]; cbn in Hl; try lia. rewrite (arg_hold _ _ 1 w1 Ha eq_refl). cbn [mbind res_bind].
  rewrite (args_from_hold _ _ 2 _ Ha) by done. cbn [mbind res_bind]. eexists. split; [done|]. split; [|done].
  destruct Hs; split; cbn; try done. rewrite length_fmap, drop_0. cbn [length] in Hl2. lia.
Qed.

Lemma svc_onrestart_wf args ws s :
  args_hold args ws → svc_wf s → three_set args → (1 ≤ length ws ≤ INIT_PARSER_MAXARGS)%nat →
  svc_result s (svc_onrestart (length ws) args s).
Proof.
  intros Ha Hs H3 Hl. unfold svc_onrestart. destruct (H3 1%nat ltac:(lia)) as [w1 Hw1]. rewrite Hw1. cbn [mbind res_bind].
  destruct (kw_is (lookup_keyword w1) COMMAND) eqn:Hk; cbn [negb]; [|by apply svc_result_same].
  destruct (Nat.ltb_spec (length ws - 1) (kw_nargs (lookup_keyword w1))) as [|Hn]; [by apply svc_result_same|].
  rewrite (args_from_hold _ _ 1 _ Ha) by done. cbn [mbind res_bind]. eexists. split; [done|]. split; [|done].
  destruct Hs; split; cbn; try done. apply Forall_app. split; [done|]. constructor; [|done].
  pose proof (command_has_word _ Hk). destruct ws as [|w0 [|w ws]]; cbn in *; [lia..|].
  pose proof (arg_hold _ _ 1 w Ha eq_refl) as Hw. rewrite Hw1 in Hw. injection Hw as <-.
  apply (command_wf _ w1); [done..|cbn; lia|cbn; lia].
Qed.

Lemma svc_setenv_wf args (ws : list cstr) s :
  svc_wf s → three_set args → svc_result s (svc_setenv (length ws) args s).
Proof.
  intros Hs H3. unfold svc_setenv. destruct (Nat.ltb_spec (length ws) 2) as [|Hl2]; [by apply svc_result_same|].
  destruct (H3 1%nat ltac:(lia)) as [w1 ->], (H3 2%nat ltac:(lia)) as [w2 ->]. cbn [mbind res_bind].
  eexists. split; [done|]. split; [|done]. by destruct Hs; split.
Qed.

Lemma svc_socket_wf args ws s : args_hold args ws → svc_wf s → svc_result s (svc_socket android_ids (length ws) args s).
Proof.
  intros Ha Hs. unfold svc_socket. destruct (Nat.ltb_spec (length ws) 4) as [|Hl]; [by apply svc_result_same|].
  assert (∀ k, (if (k <? length ws)%nat then a ← arg args k; Ok (decode_uid android_ids a) else Ok 0) ≠ Fault ∧
    (if (k <? length ws)%nat then a ← arg args k; Ok (decode_uid android_ids a) else Ok 0) ≠ Panic) as Hopt.
  { intros k. destruct (Nat.ltb_spec k (length ws)) as [Hk|]; [|done].
    destruct (lookup_lt_is_Some_2 ws k Hk) as [a Hak]. by rewrite (arg_hold _ _ _ _ Ha Hak). }
  pose proof (Hopt 4%nat) as [Hu1 Hu2]. pose proof (Hopt 5%nat) as [Hg1 Hg2]. clear Hopt.
  destruct ws as [|w0 [|w1 [|w2 [|w3 ws]]]]; cbn in Hl; try lia.
  rewrite (arg_hold _ _ 1 w1 Ha eq_refl), (arg_hold _ _ 2 w2 Ha eq_refl), (arg_hold _ _ 3 w3 Ha eq_refl). cbn [mbind res_bind].
  destruct (_ && _); [by apply svc_result_same|].
  destruct (if (4 <? _)%nat then _ else _); [|done..]. destruct (if (5 <? _)%nat then _ else _); [|done..]. cbn [mbind res_bind].
  eexists. split; [done|]. split; [|done]. by destruct Hs; split.
Qed.

Lemma service_line_wf args w ws s :
  args_hold args (w :: ws) → svc_wf s → three_set args → (length (w :: ws) ≤ INIT_PARSER_MAXARGS)%nat →
  svc_result s (service_line android_ids (length (w :: ws)) args s).
Proof.
  intros Ha Hs0 H3 Hl. unfold service_line. rewrite (arg_hold _ _ 0 w Ha eq_refl). cbn [mbind res_bind].
  set (s1 := set_ioprio_class IoSchedClass_NONE s).
  assert (svc_wf s1) as Hs by (destruct Hs0; split; cbn; auto).
  assert (ioprio_class s1 = IoSchedClass_NONE) as Hc1 by done.
  assert (svc_result s1 = svc_result s) as <- by done.
  assert (∀ (k : cstr → service → service), (∀ a, svc_wf (k a s1) ∧ name (k a s1) = name s1) → svc_result s1
    (if negb (length (w :: ws) =? 2)%nat then Ok s1 else a ← arg args 1; Ok (k a s1))) as Hword.
  { intros k Hk. destruct (Nat.eqb_spec (length (w :: ws)) 2) as [H2|]; cbn [negb]; [|by apply svc_result_same].
    destruct ws as [|w1 ws]; [done|]. rewrite (arg_hold _ _ 1 w1 Ha eq_refl). eexists. by split. }
  assert (∀ v, Z.land v (Z.lor SVC_RUNNING SVC_RESTARTING) = 0 → svc_result s1 (Ok (set_flags (Z.lor (flags s1) v) s1))) as Hflag.
  { intros v Hv. eexists. split; [done|]. split; [by apply svc_flags_wf|done]. }
  clearbody s1. destruct (lookup_keyword w); try (by apply svc_result_same).
  - apply Hword. intros a. split; [by destruct Hs; split|done].
  - by apply Hflag.
  - by apply Hflag.
  - rewrite <- Z.lor_assoc. by apply Hflag.
  - by apply svc_group_wf.
  - destruct (Nat.ltb_spec (length (w :: ws)) 2); [by apply svc_result_same|].
    rewrite (args_from_hold _ _ 1 _ Ha) by done. eexists. split; [done|]. split; [by destruct Hs; split|done].
  - by apply Hflag.
  - apply svc_onrestart_wf; [done..|cbn in *; lia].
  - apply (Hword (λ a, set_seclabel (Some a))). intros a. split; [by destruct Hs; split|done].
  - by apply svc_setenv_wf.
  - by apply svc_socket_wf.
  - apply (Hword (λ a, set_uid (decode_uid android_ids a))). intros a. split; [by destruct Hs; split|done].
  - by apply svc_ioprio_wf.
Qed.

Lemma parse_line_service_wf i args ws c :
  config_wf c → (i < length (service_list c))%nat → args_hold args ws → three_set args →
  (length ws ≤ INIT_PARSER_MAXARGS)%nat →
  ∃ c', parse_line_service android_ids i (length ws) args c = Ok c' ∧ config_wf c' ∧
        length (service_list c') = length (service_list c) ∧ length (action_list c') = length (action_list c).
Proof.
  intros Hc Hi Ha H3 Hl. unfold parse_line_service. destruct ws as [|w ws]; [by eexists|].
  change (length (w :: ws) =? 0)%nat with false. cbv iota. destruct (lookup_lt_is_Some_2 _ _ Hi) as [s Hs]. rewrite Hs.
  cbn [deref mbind res_bind]. pose proof (Forall_lookup_1 _ _ _ _ (cw_services _ Hc) Hs) as Hwf.
  destruct (service_line_wf _ _ _ _ Ha Hwf H3 Hl) as (s' & -> & Hwf' & Hn). cbn [mbind res_bind].
  eexists. split; [done|]. split_and!; [|cbn; by rewrite length_insert|done]. apply set_services_wf; [done..|].
  by rewrite Hs, Hn.
Qed.

(** The file that a line imports. *)
Definition import_of (ws : list cstr) : list cstr :=
  match ws with
  | [w; a] =>
      if decide (lookup_keyword w = K_import) then
        match expand_props property_get a PATH_MAX with Ok (Some f) => [f] | _ => [] end
      else []
  | _ => []
  end.

Lemma import_of_other w ws : lookup_keyword w ≠ K_import → import_of (w :: ws) = [].
Proof. intros Hk. unfold import_of. destruct ws as [|a [|]]; [done| |done]. by rewrite decide_False by done. Qed.

Lemma parse_import_wf args w ws p :
  args_hold args (w :: ws) → lookup_keyword w = K_import →
  good_line (w :: ws) →
  ∃ p', parse_import property_get (length (w :: ws)) args p = Ok p' ∧ cfg p' = cfg p ∧
        imports p' = imports p ++ import_of (w :: ws).
Proof.
  intros Ha Hk Hg. unfold parse_import.
  destruct (Nat.eqb_spec (length (w :: ws)) 2) as [Hl|Hl]; cbn [negb].
  2: { eexists. split_and!; [done..|]. destruct ws as [|a [|]]; [cbn; by rewrite app_nil_r|done|cbn; by rewrite app_nil_r]. }
  destruct ws as [|w1 [|]]; [done| |done]. rewrite (arg_hold _ _ 1 w1 Ha eq_refl). cbn [mbind res_bind import_of].
  rewrite decide_True by done.
  destruct (expand_props_safe property_get w1 PATH_MAX (Hg Hk)) as [r ->]. cbn [mbind res_bind].
  destruct r; eexists; split_and!; try done. by rewrite app_nil_r.
Qed.

Definition service_ctx (lp : line_parser) : Prop :=
  match lp with parse_line_service_of _ => True | _ => False end.

Lemma run_parse_line_wf args ws p :
  parser_wf p → args_hold args ws → (ws ≠ [] → service_ctx (parse_line p) → three_set args) →
  (length ws ≤ INIT_PARSER_MAXARGS)%nat →
  ∃ p', run_parse_line android_ids (length ws) args p = Ok p' ∧ parser_wf p' ∧ parse_line p' = parse_line p ∧ imports p' = imports p.
Proof.
  intros [Hc Hctx] Ha H3 Hl. unfold run_parse_line. destruct (parse_line p) as [|i|i] eqn:Hp.
  - eexists. split; [done|]. split; [|done]. split; [done|]. by rewrite Hp.
  - destruct ws as [|w ws]; [eexists; split; [done|]; split; [|done]; by split|].
    destruct (parse_line_service_wf i args (w :: ws) (cfg p)) as (c' & -> & Hc' & E1 & E2); [done..|by apply H3|done|].
    cbn [mbind res_bind].
    eexists. split; [done|]. split; [|done]. split; [done|]. cbn in *. lia.
  - destruct (parse_line_action_wf i args ws (cfg p)) as (c' & -> & Hc' & E1 & E2); [done..|]. cbn [mbind res_bind].
    eexists. split; [done|]. split; [|done]. split; [done|]. cbn in *. lia.
Qed.

Lemma config_line_wf l args w ws p :
  parser_wf p → args_hold args (w :: ws) → (service_ctx (parse_line p) → three_set args) → good_line (w :: ws) →
  (length (w :: ws) ≤ INIT_PARSER_MAXARGS)%nat →
  ∃ p', config_line android_ids property_get l (length (w :: ws)) args p = Ok p' ∧ parser_wf p' ∧
        (service_ctx (parse_line p') → three_set args) ∧
        imports p' = imports p ++ import_of (w :: ws).
Proof.
  intros Hp Ha H3 Hg Hl. unfold config_line. rewrite (arg_hold _ _ 0 w Ha eq_refl). cbn [mbind res_bind].
  destruct (kw_is (lookup_keyword w) SECTION) eqn:Hk.
  2: { destruct (run_parse_line_wf args (w :: ws) p Hp Ha (λ _, H3) Hl) as (p' & -> & Hp' & Hpl & Hi).
       exists p'. rewrite Hpl. split_and!; [done..|]. rewrite import_of_other, app_nil_r; [done|].
       by intros E; rewrite E in Hk. }
  destruct (run_parse_line_wf [] [] p Hp) as (p1 & E & Hp1 & _ & <-); [by exists []|done|cbn; lia|].
  change (length (@nil cstr)) with 0%nat in E. rewrite E. cbn [mbind res_bind]. clear p Hp H3 E. destruct Hp1 as [Hc _].
  unfold parse_new_section. pose proof (import_of_other w ws) as Hoth.
  destruct (lookup_keyword w) eqn:Hw; try done.
  - destruct (parse_import_wf args w ws p1 Ha Hw Hg) as (p' & -> & Hcfg & Hi). cbn [mbind res_bind]. eexists. split; [done|].
    split; [|done]. by split; [rewrite Hcfg|].
  - destruct (parse_action_wf args (w :: ws) (cfg p1) Hc Ha) as (c' & ctx & -> & ? & ?). cbn [mbind res_bind].
    eexists. split; [reflexivity|]. split; [by split|]. rewrite Hoth, app_nil_r by done. by destruct ctx.
  - destruct (parse_service_wf args (w :: ws) (cfg p1) Hc Ha) as (c' & ctx & -> & ? & ? & Hlen). cbn [mbind res_bind].
    eexists. split; [reflexivity|]. split; [by split|]. rewrite Hoth, app_nil_r by done. split; [|done].
    destruct ctx; [|done]. intros _. eapply three_set_hold; [done|by apply Hlen].
Qed.

(** The lines of a file as the parser sees them. *)
Definition file_lines (data : list Z) : list (list cstr) :=
  (λ '(_, ws), take INIT_PARSER_MAXARGS ws) <$> lines_of true (file_text data) 0.

Lemma feed_wf ls args p :
  Forall (λ '(_, ws), ws ≠ [] ∧ good_line (take INIT_PARSER_MAXARGS ws)) ls → parser_wf p →
  (service_ctx (parse_line p) → three_set args) →
  ∃ p', feed INIT_PARSER_MAXARGS (config_line android_ids property_get) ls args p = Ok p' ∧ parser_wf p' ∧
    imports p' = imports p ++ concat ((λ '(_, ws), import_of (take INIT_PARSER_MAXARGS ws)) <$> ls).
Proof.
  intros Hls. revert args p. induction Hls as [|[l ws] ls [Hne Hg] Hls IH]; intros args p Hp H3.
  { eexists. split_and!; [done..|]. by rewrite app_nil_r. }
  cbn [feed fmap list_fmap concat]. pose proof (fill_hold INIT_PARSER_MAXARGS ws args) as Hh.
  assert (length (take INIT_PARSER_MAXARGS ws) ≤ INIT_PARSER_MAXARGS)%nat as Hl by (rewrite length_take; lia).
  destruct (take INIT_PARSER_MAXARGS ws) as [|w ws'] eqn:E; [by destruct ws|].
  destruct (config_line_wf l _ _ _ p Hp Hh (λ Hs, three_set_fill _ _ _ (H3 Hs)) Hg Hl) as (p1 & -> & Hp1 & H31 & Hi). cbn [mbind res_bind].
  destruct (IH (fill INIT_PARSER_MAXARGS ws args) p1 Hp1 H31) as (p2 & -> & Hp2 & Hi2). exists p2. split_and!; [done..|].
  by rewrite Hi2, Hi, <- app_assoc.
Qed.

(** The parser's loop does what the lines of the text do. *)
Lemma parse_config_loop_feed data c :
  parse_config_loop android_ids property_get (file_buffer data) c =
    feed INIT_PARSER_MAXARGS (config_line android_ids property_get) (lines_of true (file_text data) 0)
      (replicate INIT_PARSER_MAXARGS None) (mkParser c parse_line_no_op []) ≫= run_parse_line android_ids 0 [].
Proof.
  unfold parse_config_loop.
  apply (parse_file_feed INIT_PARSER_MAXARGS true (config_line android_ids property_get) (run_parse_line android_ids 0 [])).
  unfold INIT_PARSER_MAXARGS. lia.
Qed.

(** A file of good lines is parsed. *)
Lemma parse_config_loop_wf data c :
  config_wf c → Forall good_line (file_lines data) →
  ∃ p, parse_config_loop android_ids property_get (file_buffer data) c = Ok p ∧ config_wf (cfg p) ∧
       imports p = concat (import_of <$> file_lines data).
Proof.
  intros Hc Hg. rewrite parse_config_loop_feed.
  destruct (feed_wf (lines_of true (file_text data) 0) (replicate INIT_PARSER_MAXARGS None) (mkParser c parse_line_no_op []))
    as (p & -> & Hp & Hi); [|by split|done|].
  - unfold file_lines in Hg. rewrite Forall_fmap in Hg. apply Forall_forall. intros [l ws] Hin.
    rewrite Forall_forall in Hg. split; [by eapply lines_nonempty|exact (Hg _ Hin)].
  - cbn [mbind res_bind]. destruct (run_parse_line_wf [] [] p Hp) as (p' & E & Hp' & _ & Hi'); [by exists []|done|cbn; lia|].
    change (length (@nil cstr)) with 0%nat in E. exists p'. split_and!; [done|apply Hp'|]. rewrite Hi', Hi.
    unfold file_lines. rewrite <- list_fmap_compose. cbn. f_equal. by apply list_fmap_ext; intros ? [].
Qed.
End LineWf.

(** * Files *)

Section Files.
Context `{PropLimits} (android_ids : list (cstr * Z)) (property_get : cstr → cstr) (read_file : cstr → option (list Z)).

(** Files whose lines are good, and whose imports form no cycle: each has a smaller rank. *)
Record good_files (rank : cstr → nat) : Prop := {
  gf_lines : ∀ fn data, read_file fn = Some data → Forall good_line (file_lines data);
  gf_imports : ∀ fn data f, read_file fn = Some data → f ∈ concat (import_of property_get <$> file_lines data) →
    (rank f < rank fn)%nat
}.

Lemma init_parse_wf rank depth fn c :
  good_files rank → (rank fn < depth)%nat → config_wf c →
  ∃ r c', init_parse_config_file android_ids property_get read_file depth fn c = Ok (r, c') ∧ config_wf c' ∧
    r = (if read_file fn then 0 else -1).
Proof.
  intros Hg. revert fn c. induction depth as [|depth IH]; intros fn c Hd Hc; [lia|]. cbn [init_parse_config_file].
  destruct (read_file fn) as [data|] eqn:Hr; [|by eexists _, _].
  destruct (parse_config_loop_wf android_ids property_get data c Hc (gf_lines _ Hg _ _ Hr)) as (p & -> & Hp & Hi).
  cbn [mbind res_bind].
  assert (∀ f, f ∈ imports p → (rank f < depth)%nat) as Hrank.
  { intros f Hf. rewrite Hi in Hf. pose proof (gf_imports _ Hg _ _ _ Hr Hf). lia. }
  clear Hi. revert Hp. generalize (cfg p). induction (imports p) as [|f fs IHf]; intros c0 Hc0; [by eexists _, _|].
  destruct (IH f c0) as (r1 & c1 & E & Hc1 & _); [apply Hrank; left|done|]. cbn [foldl mbind res_bind]. rewrite E.
  cbn [mbind res_bind]. apply IHf; [|done]. intros f' Hf'. apply Hrank. by right.
Qed.
End Files.

(** C8: init loads its configuration: for any set of files without import cycles in which
    no name of an imported file has a doubled dollar, reading a file and all its imports
    ends, within memory, and leaves well-formed lists: service names are valid and unique,
    every service has a program, at most 12 groups and a legal I/O priority, and every
    command of an action or of onrestart has the keyword of a command and at least the
    words that the table of keywords declares for it. *)
Theorem config_loads `{PropLimits} (android_ids : list (cstr * Z)) (property_get : cstr → cstr)
    (read_file : cstr → option (list Z)) (rank : cstr → nat) (depth : nat) (fn : cstr) :
  good_files property_get read_file rank → (rank fn < depth)%nat →
  ∃ r c, init_parse_config_file android_ids property_get read_file depth fn empty_config = Ok (r, c) ∧
    config_wf c ∧ r = (if read_file fn then 0 else -1).
Proof. intros Hg Hd. apply (init_parse_wf _ _ _ _ _ _ _ Hg Hd), empty_config_wf. Qed.

(** ** An example: two files, the second imported through a property *)

(** The limits of bionic in Android 4.4. *)
#[global] Instance bionic_limits : PropLimits := {| PROP_NAME_MAX := 32; PROP_VALUE_MAX := 92 |}.

Module Example.
Definition text (ls : list string) : list Z := concat ((λ l, bytes_of l ++ [LF]) <$> ls).

Definition init_rc : list Z := text
  ["import /init.${ro.hardware}.rc"; "on boot"; "  class_start main # all of it"; "service adbd /sbin/adbd -x";
   "  class main"; "  group adb input"; "  onrestart restart zygote"].
Definition hw_rc : list Z := text ["service console /bin/sh"; "  console"; "  user shell"].

Definition files (fn : cstr) : option (list Z) :=
  if decide (fn = bytes_of "/init.rc") then Some init_rc
  else if decide (fn = bytes_of "/init.goldfish.rc") then Some hw_rc else None.
Definition props (nm : cstr) : cstr := if decide (nm = bytes_of "ro.hardware") then bytes_of "goldfish" else [].
Definition ids : list (cstr * Z) := [(bytes_of "shell", 2000); (bytes_of "adb", 1011); (bytes_of "input", 1004)].
Definition rank (fn : cstr) : nat := if decide (fn = bytes_of "/init.rc") then 1 else 0.

Lemma files_good : good_files props files rank.
Proof.
  split; intros fn data; unfold files.
  - intros Hf. repeat case_decide; injection Hf as <- || done.
    + change (Forall good_line (file_lines init_rc)). apply (bool_decide_unpack _). vm_compute. exact I.
    + change (Forall good_line (file_lines hw_rc)). apply (bool_decide_unpack _). vm_compute. exact I.
  - intros f Hf Hin. repeat case_decide; injection Hf as <- || done.
    + assert (concat (import_of props <$> file_lines init_rc) = [bytes_of "/init.goldfish.rc"]) as E by (vm_compute; reflexivity).
      rewrite E in Hin. apply list_elem_of_singleton in Hin as ->. subst fn. vm_compute. lia.
    + assert (concat (import_of props <$> file_lines hw_rc) = []) as E by (vm_compute; reflexivity).
      rewrite E in Hin. by apply not_elem_of_nil in Hin.
Qed.
End Example.

Lemma config_loads_witness :
  ∃ r c, init_parse_config_file Example.ids Example.props Example.files 2 (bytes_of "/init.rc") empty_config = Ok (r, c) ∧
    config_wf c ∧ r = (if Example.files (bytes_of "/init.rc") then 0 else -1).
Proof. apply (config_loads _ _ _ Example.rank 2 _ Example.files_good). vm_compute. lia. Defined.

(** What these files define. *)
Example example_config :
  ∃ c, init_parse_config_file Example.ids Example.props Example.files 2 (bytes_of "/init.rc") empty_config = Ok (0, c) ∧
    (aname <$> action_list c) = [bytes_of "boot"] ∧
    (name <$> service_list c) = [bytes_of "adbd"; bytes_of "console"] ∧
    (uid <$> service_list c) = [0; 2000] ∧ (supp_gids <$> service_list c) = [[1004]; []].
Proof. eexists. split; [vm_compute; reflexivity|]. done. Qed.

(** * Writing actions *)

(** The lines of an action in a file. *)
Definition action_lines (a : action) : list (list cstr) := [bytes_of "on"; aname a] :: (cargs <$> commands a).

Definition writable (a : action) : Prop :=
  quotable (aname a) ∧ Forall (λ cm, cmd_wf cm ∧ Forall quotable (cargs cm)) (commands a).

Section Write.
Context `{PropLimits} (android_ids : list (cstr * Z)) (property_get : cstr → cstr).

Abbreviation run := (feed INIT_PARSER_MAXARGS (config_line android_ids property_get)).

Lemma feed_app ls1 ls2 args p :
  ∃ args', run (ls1 ++ ls2) args p = run ls1 args p ≫= run ls2 args'.
Proof.
  revert args p. induction ls1 as [|[l ws] ls1 IH]; intros args p; [by exists args|]. cbn [app feed].
  destruct (config_line _ _ _ _ _ p) as [p1| |]; cbn [mbind res_bind]; [apply IH|by exists args..].
Qed.

(** A line of a command, in an action. *)
Lemma command_line l args cm p i :
  cmd_wf cm → parse_line p = parse_line_action_of i →
  config_line android_ids property_get l (length (take INIT_PARSER_MAXARGS (cargs cm)))
    (fill INIT_PARSER_MAXARGS (cargs cm) args) p =
  Ok (mkParser (set_actions (alter (λ a, mkAction (aname a) (commands a ++ [cm])) i) (cfg p)) (parse_line p) (imports p)).
Proof.
  intros (kw & Hf & Hk & [Hn Hl] & Hkw) Hp. pose proof (fill_hold INIT_PARSER_MAXARGS (cargs cm) args) as Ha.
  rewrite take_ge in Ha |- * by done. destruct cm as [f ws]. cbn [func cargs] in *. subst f.
  destruct ws as [|w ws]; [by destruct kw|]. cbn [head default from_option id] in Hkw. unfold id in Hkw. subst kw.
  unfold config_line. rewrite (arg_hold _ _ 0 w Ha eq_refl). cbn [mbind res_bind].
  assert (kw_is (lookup_keyword w) SECTION = false) as -> by (by destruct (lookup_keyword w)).
  unfold run_parse_line. rewrite Hp. unfold parse_line_action. change (length (w :: ws) =? 0)%nat with false. cbv iota.
  rewrite (arg_hold _ _ 0 w Ha eq_refl). cbn [mbind res_bind]. rewrite Hk. cbn [negb].
  rewrite (proj2 (Nat.ltb_ge _ _) Hn), (args_from_hold _ _ 0 _ Ha) by lia. done.
Qed.

Lemma feed_commands cms ls args p i a :
  Forall cmd_wf cms → ls.*2 = cargs <$> cms → parse_line p = parse_line_action_of i → action_list (cfg p) !! i = Some a →
  ∃ p', run ls args p = Ok p' ∧
    cfg p' = set_actions <[i := mkAction (aname a) (commands a ++ cms)]> (cfg p) ∧ imports p' = imports p.
Proof.
  intros Hw. revert ls args p a. induction Hw as [|cm cms Hcm Hw IH]; intros [|[l ws] ls] args p a Els Hp Ha; try done.
  - eexists. split_and!; [done| |done]. rewrite app_nil_r. destruct a, (cfg p) as [sl al q]. unfold set_actions. cbn in *.
    by rewrite list_insert_id.
  - injection Els as -> Els. cbn [feed]. rewrite (command_line l args cm p i Hcm Hp). cbn [mbind res_bind].
    destruct (IH ls (fill INIT_PARSER_MAXARGS (cargs cm) args)
      (mkParser (set_actions (alter (λ a, mkAction (aname a) (commands a ++ [cm])) i) (cfg p)) (parse_line p) (imports p))
      (mkAction (aname a) (commands a ++ [cm]))) as (p' & -> & Ecfg & Eimp); [done..| |].
    { cbn. by rewrite list_lookup_alter_eq, Ha. }
    exists p'. split_and!; [done| |done]. rewrite Ecfg. unfold set_actions. cbn. f_equal.
    rewrite <- app_assoc. cbn. apply list_eq. intros j. destruct (decide (i = j)) as [<-|Hne].
    + rewrite !list_lookup_insert_eq; [done|by apply lookup_lt_Some in Ha|rewrite length_alter; by apply lookup_lt_Some in Ha].
    + by rewrite !list_lookup_insert_ne, list_lookup_alter_ne.
Qed.

Lemma feed_action a ls args p :
  Forall cmd_wf (commands a) → ls.*2 = action_lines a →
  ∃ p', run ls args p = Ok p' ∧ cfg p' = set_actions (λ l, l ++ [a]) (cfg p) ∧ imports p' = imports p.
Proof.
  intros Hw Els. destruct ls as [|[l ws] ls]; [done|]. injection Els as -> Els. cbn [feed].
  set (p1 := mkParser (set_actions (λ l, l ++ [mkAction (aname a) []]) (cfg p))
    (parse_line_action_of (length (action_list (cfg p)))) (imports p)).
  assert (config_line android_ids property_get l (length (take INIT_PARSER_MAXARGS [bytes_of "on"; aname a]))
    (fill INIT_PARSER_MAXARGS [bytes_of "on"; aname a] args) p = Ok p1) as ->.
  { unfold config_line. cbn -[lookup_keyword]. change (lookup_keyword _) with K_on. cbn.
    unfold run_parse_line. by destruct (parse_line p). }
  cbn [mbind res_bind].
  destruct (feed_commands (commands a) ls (fill INIT_PARSER_MAXARGS [bytes_of "on"; aname a] args) p1
    (length (action_list (cfg p))) (mkAction (aname a) [])) as (p' & -> & Ecfg & Eimp); [done..| |].
  { cbn. by rewrite lookup_app_r, Nat.sub_diag by lia. }
  exists p'. split_and!; [done| |done]. rewrite Ecfg. unfold set_actions. cbn. f_equal.
  rewrite insert_app_r_alt, Nat.sub_diag by lia. by destruct a.
Qed.

Lemma feed_actions acts ls args p :
  Forall (λ a, Forall cmd_wf (commands a)) acts → ls.*2 = concat (action_lines <$> acts) →
  ∃ p', run ls args p = Ok p' ∧ cfg p' = set_actions (λ l, l ++ acts) (cfg p).
Proof.
  intros Hw. revert ls args p. induction Hw as [|a acts Ha Hw IH]; intros ls args p Els.
  { destruct ls; [|done]. eexists. split; [done|]. destruct (cfg p). unfold set_actions. cbn. by rewrite app_nil_r. }
  cbn [fmap list_fmap concat] in Els. apply fmap_app_inv in Els as (ls1 & ls2 & E1 & E2 & ->).
  destruct (feed_app ls1 ls2 args p) as [args' ->].
  destruct (feed_action a ls1 args p Ha (eq_sym E1)) as (p1 & -> & Ec & _). cbn [mbind res_bind].
  destruct (IH ls2 args' p1 (eq_sym E2)) as (p2 & -> & Ec2). exists p2. split; [done|]. rewrite Ec2, Ec.
  unfold set_actions. cbn. by rewrite <- app_assoc.
Qed.

(** C29: Actions written to a file are read back: whatever the trigger and the commands of
    each action (words of any characters but quote and NUL), parsing the written file adds
    exactly these actions, in order and with their commands in order, and no service.
    Actions with the same trigger are all kept, which is what init.rc relies on; the
    document "Android init language.md" says instead that the later one of two actions
    with the same name is ignored as an error. *)
Theorem actions_roundtrip (acts : list action) (c : config) :
  Forall writable acts →
  ∃ p, parse_config_loop android_ids property_get
         (file_buffer (render (concat (action_lines <$> acts)))) c = Ok p ∧
       cfg p = set_actions (λ l, l ++ acts) c.
Proof.
  intros Hw. rewrite parse_config_loop_feed.
  destruct (feed_actions acts (lines_of true (file_text (render (concat (action_lines <$> acts)))) 0)
    (replicate INIT_PARSER_MAXARGS None) (mkParser c parse_line_no_op [])) as (p & -> & Ec).
  - apply (Forall_impl _ _ _ Hw). intros a [_ Ha]. apply (Forall_impl _ _ _ Ha). by intros cm [? _].
  - rewrite <- read_render; [done|..].
    + apply Forall_concat, Forall_fmap, (Forall_impl _ _ _ Hw). intros a [Hn Ha]. constructor.
      * repeat constructor; try discriminate. done.
      * apply Forall_fmap, (Forall_impl _ _ _ Ha). by intros cm [_ ?].
    + apply Forall_concat, Forall_fmap, (Forall_impl _ _ _ Hw). intros a [_ Ha]. constructor; [done|].
      apply Forall_fmap, (Forall_impl _ _ _ Ha). intros cm [(kw & _ & Hk & [Hn _] & _) _] E. cbn in E. rewrite E in Hn.
      pose proof (command_has_word kw Hk). cbn in Hn. lia.
  - cbn [mbind res_bind]. exists (mkParser (cfg p) (parse_line p) (imports p)). split; [|done].
    unfold run_parse_line. by destruct p as [? [] ?].
Qed.
End Write.

Lemma actions_roundtrip_witness :
  ∃ p, parse_config_loop Example.ids Example.props
    (file_buffer (render (concat (action_lines <$>
      [mkAction (bytes_of "boot") [mkCommand (do_keyword K_write) [bytes_of "write"; bytes_of "/a"; bytes_of "1 2"]];
       mkAction (bytes_of "boot") [mkCommand (do_keyword K_start) [bytes_of "start"; bytes_of "adbd"]]])))) empty_config = Ok p ∧
    cfg p = set_actions (λ l, l ++
      [mkAction (bytes_of "boot") [mkCommand (do_keyword K_write) [bytes_of "write"; bytes_of "/a"; bytes_of "1 2"]];
       mkAction (bytes_of "boot") [mkCommand (do_keyword K_start) [bytes_of "start"; bytes_of "adbd"]]]) empty_config.
Proof.
  apply (actions_roundtrip Example.ids Example.props
    [mkAction (bytes_of "boot") [mkCommand (do_keyword K_write) [bytes_of "write"; bytes_of "/a"; bytes_of "1 2"]];
     mkAction (bytes_of "boot") [mkCommand (do_keyword K_start) [bytes_of "start"; bytes_of "adbd"]]] empty_config).
  repeat constructor; try discriminate; eexists; (split; [reflexivity|]); repeat split; cbn; unfold INIT_PARSER_MAXARGS; lia.
Defined.

(** * Keywords *)

Lemma first_match_in s l kw : first_match s l = kw → kw ≠ K_UNKNOWN → ∃ lit, (lit, kw) ∈ l ∧ s = bytes_of lit.
Proof.
  induction l as [|[lit k] l IH]; cbn; [by intros <-|]. unfold streq. case_bool_decide as E.
  - intros <- _. exists lit. split; [left|done].
  - intros Hm Hk. destruct (IH Hm Hk) as (lit' & ? & ->). exists lit'. split; [by right|done].
Qed.

Definition keyword_word (kw : keyword) (s : cstr) : bool :=
  bool_decide (s = bytes_of (kw_name kw)) ||
  match s with c :: r => (c =? 112) && bool_decide (114 :: r = bytes_of (kw_name kw)) | [] => false end.

Lemma keyword_cases_words c : Forall (λ '(lit, kw), keyword_word kw (c :: bytes_of lit) = true) (keyword_cases c).
Proof. unfold keyword_cases. repeat case_match; try apply Forall_nil_2; repeat (constructor; [reflexivity|]); constructor. Qed.

(** The hand-written search of lookup_keyword finds every keyword by its name, and
    a word it accepts is the name of the keyword it returns, or that name with p in the
    place of a leading r (the switch falls through from one case to the other). *)
Theorem lookup_keyword_exact (s : cstr) (kw : keyword) :
  kw ≠ K_UNKNOWN →
  lookup_keyword s = kw ↔
    s = bytes_of (kw_name kw) ∨ (∃ r, s = 112 :: r ∧ bytes_of (kw_name kw) = 114 :: r).
Proof.
  intros Hk. split.
  - destruct s as [|c s]; [by intros <-|]. cbn [lookup_keyword]. intros Hm.
    destruct (first_match_in _ _ _ Hm Hk) as (lit & Hin & ->).
    pose proof (keyword_cases_words c) as Hw. rewrite Forall_forall in Hw. specialize (Hw _ Hin). cbn in Hw.
    unfold keyword_word in Hw. apply orb_prop in Hw as [Hw%bool_decide_eq_true|Hw]; [by left|]. right.
    apply andb_prop in Hw as [->%Z.eqb_eq Hw%bool_decide_eq_true]. by eexists.
  - intros [->|(r & -> & E)].
    + by destruct kw.
    + destruct kw; try (by injection E); injection E as <-; reflexivity.
Qed.

Lemma lookup_keyword_exact_witness :
  lookup_keyword (bytes_of "restart") = K_restart ↔
    bytes_of "restart" = bytes_of (kw_name K_restart) ∨
    (∃ r, bytes_of "restart" = 112 :: r ∧ bytes_of (kw_name K_restart) = 114 :: r).
Proof. apply (lookup_keyword_exact (bytes_of "restart") K_restart). discriminate. Defined.

(** * What the code does with some files *)

Module Quirks.
Definition config_of (ls : list string) : res config :=
  p ← parse_config_loop Example.ids Example.props (file_buffer (Example.text ls)) empty_config; Ok (cfg p).

Definition services_of (ls : list string) : list service := match config_of ls with Ok c => service_list c | _ => [] end.

(** A word that is no keyword is taken for restart. *)
Theorem pestart_is_restart : lookup_keyword (bytes_of "pestart") = K_restart.
Proof. reflexivity. Qed.

(** setenv accepts a line without value and takes the word of an earlier line. *)
Theorem setenv_takes_old_word :
  envvars <$> services_of ["service s /bin/s"; "setenv A"] = [[(bytes_of "A", bytes_of "/bin/s")]].
Proof. vm_compute. reflexivity. Qed.

(** Every line of a service resets the I/O class: only an ioprio that comes last counts. *)
Theorem ioprio_lost :
  ioprio_class <$> services_of ["service s /bin/s"; "ioprio rt 4"; "oneshot"] = [IoSchedClass_NONE] ∧
  ioprio_class <$> services_of ["service s /bin/s"; "oneshot"; "ioprio rt 4"] = [IoSchedClass_RT].
Proof. vm_compute. done. Qed.

(** A doubled dollar at the end of a full buffer writes past it; without the dollars the
    same text is cut to the buffer. *)
Theorem expand_props_overflow :
  expand_props Example.props (bytes_of "abcd$$") 5 = Fault ∧
  expand_props Example.props (bytes_of "abcdef") 5 = Ok (Some (bytes_of "abcd")).
Proof. vm_compute. done. Qed.

(** A file that imports itself is read again without end. *)
Theorem import_cycle depth c :
  init_parse_config_file [] (λ _, []) (λ _, Some (bytes_of "import /a")) depth (bytes_of "/a") c = Fault.
Proof.
  revert c. induction depth as [|depth IH]; intros c; [done|]. cbn [init_parse_config_file].
  assert (∃ p, parse_config_loop [] (λ _, []) (file_buffer (bytes_of "import /a")) c = Ok p ∧ imports p = [bytes_of "/a"])
    as (p & -> & Hi).
  { eexists. split; [rewrite parse_config_loop_feed; vm_compute; reflexivity|done]. }
  cbn [mbind res_bind]. rewrite Hi. cbn [foldl mbind res_bind]. by rewrite IH.
Qed.
End Quirks.
