(* ===== verification/InitActions.v ===== *)
(** The queue of actions of Android init (src/init/init/init_parser.c from
    service_find_by_pid to action_queue_empty, and execute_one_command of init.c), on the
    lists of [InitConfig].

    An action is named by its position in action_list.  The node [qlist] of an action is
    linked into action_queue or points to itself (list_init), so list_empty(&act->qlist)
    says that the action is not in the queue.  [execute_one_command] takes the effect of
    a command as a parameter: [InitServices] gives it. *)
From Stdlib Require Import ZArith.
From stdpp Require Import base numbers list strings sets gmap.
From S2P Require Import Prelude Bytes InitLexer InitConfig.

(** * Queueing *)

Definition set_queue (f : list nat → list nat) (c : config) : config :=
  mkConfig (service_list c) (action_list c) (f (action_queue c)).

Definition action_add_queue_tail (i : nat) (c : config) : config :=
  if bool_decide (i ∈ action_queue c) then c else set_queue (λ q, q ++ [i]) c.

Definition action_remove_queue_head (c : config) : option nat * config :=
  match action_queue c with
  | [] => (None, c)
  | i :: _ => (Some i, set_queue tail c)
  end.

Definition action_queue_empty (c : config) : bool := bool_decide (action_queue c = []).

(** The loop over action_list: the actions that satisfy [f] are queued, in order. *)
Definition queue_matching (f : action → bool) (c : config) : config :=
  foldl (λ c i, action_add_queue_tail i c) c
    (filter (λ i, from_option f false (action_list c !! i) = true) (seq 0 (length (action_list c)))).

Definition action_for_each_trigger (trigger : cstr) : config → config :=
  queue_matching (λ a, bool_decide (aname a = trigger)).

(** [!strncmp(s, lit, strlen(lit))]: the text behind the prefix. *)
Fixpoint after_prefix (p s : cstr) : option cstr :=
  match p, s with
  | [], _ => Some s
  | x :: p, y :: s => if x =? y then after_prefix p s else None
  | _ :: _, [] => None
  end.

Definition EQUALS : Z := 61.
Definition star : cstr := bytes_of "*".

(** The condition of queue_property_triggers on the name of an action. *)
Definition property_trigger (nm value : cstr) (a : action) : bool :=
  match after_prefix (bytes_of "property:") (aname a) with
  | None => false
  | Some test =>
      match after_prefix nm test with
      | Some (c :: rest) => (c =? EQUALS) && (bool_decide (rest = value) || bool_decide (rest = star))
      | _ => false
      end
  end.

Definition queue_property_triggers (nm value : cstr) : config → config := queue_matching (property_trigger nm value).

Section AllTriggers.
Context `{PropLimits} (property_get : cstr → cstr).

(** The condition of queue_all_property_triggers. *)
Definition property_holds (a : action) : bool :=
  match after_prefix (bytes_of "property:") (aname a) with
  | None => false
  | Some nm =>
      match split_at EQUALS nm with
      | None => false
      | Some (prop_name, rest) =>
          if (PROP_NAME_MAX <? length prop_name)%nat then false
          else bool_decide (rest = property_get prop_name) || bool_decide (rest = star)
      end
  end.

Definition queue_all_property_triggers : config → config := queue_matching property_holds.
End AllTriggers.

Definition builtin_name (b : builtin) : cstr :=
  bytes_of match b with
  | wait_for_coldboot_done => "wait_for_coldboot_done"
  | mix_hwrng_into_linux_rng => "mix_hwrng_into_linux_rng"
  | keychord_init => "keychord_init"
  | console_init => "console_init"
  | property_service_init => "property_service_init"
  | signal_init => "signal_init"
  | check_startup => "check_startup"
  | queue_property_triggers_action => "queue_property_triggers"
  end.

Definition queue_builtin_action (b : builtin) (c : config) : config :=
  let i := length (action_list c) in
  action_add_queue_tail i
    (set_actions (λ l, l ++ [mkAction (builtin_name b) [mkCommand (do_builtin b) [builtin_name b]]]) c).

(** The actions that main queues before its loop. *)
Definition queue_boot_actions (is_charger : bool) (c : config) : config :=
  let trigger s := action_for_each_trigger (bytes_of s) in
  let c := trigger "early-init" c in
  let c := queue_builtin_action wait_for_coldboot_done c in
  let c := queue_builtin_action mix_hwrng_into_linux_rng c in
  let c := queue_builtin_action keychord_init c in
  let c := queue_builtin_action console_init c in
  let c := trigger "init" c in
  let c :=
    if is_charger then c
    else trigger "post-fs-data" (trigger "post-fs" (trigger "fs" (trigger "early-fs" c))) in
  let c := queue_builtin_action mix_hwrng_into_linux_rng c in
  let c := queue_builtin_action property_service_init c in
  let c := queue_builtin_action signal_init c in
  let c := queue_builtin_action check_startup c in
  let c := if is_charger then trigger "charger" c else trigger "boot" (trigger "early-boot" c) in
  queue_builtin_action queue_property_triggers_action c.

(** * Finding services *)

Definition service_find_by_pid (p : Z) (c : config) : option nat :=
  fst <$> list_find (λ s, pid s = p) (service_list c).
Definition service_find_by_keychord (id : Z) (c : config) : option nat :=
  fst <$> list_find (λ s, keychord_id s = id) (service_list c).

(** * The actions stay what they are, and the queue only grows *)

Definition grows (c c' : config) : Prop :=
  action_list c' = action_list c ∧ ∃ new, action_queue c' = action_queue c ++ new.

#[global] Instance grows_preorder : PreOrder grows.
Proof.
  split.
  - intros c. split; [done|]. exists []. by rewrite app_nil_r.
  - intros c1 c2 c3 [E1 [n1 Q1]] [E2 [n2 Q2]]. split; [congruence|]. exists (n1 ++ n2). by rewrite Q2, Q1, app_assoc.
Qed.

Lemma add_queue_grows i c : grows c (action_add_queue_tail i c).
Proof. unfold action_add_queue_tail. case_bool_decide; [reflexivity|]. split; [done|by eexists]. Qed.

Lemma queue_matching_grows f c : grows c (queue_matching f c).
Proof.
  unfold queue_matching. generalize (filter (λ i, from_option f false (action_list c !! i) = true) (seq 0 (length (action_list c)))).
  intros l. revert c. induction l as [|i l IH]; intros c; [reflexivity|]. cbn.
  etransitivity; [apply add_queue_grows|apply IH].
Qed.

(** The queue holds each action once. *)
Record queue_wf (c : config) : Prop := {
  qw_nodup : NoDup (action_queue c);
  qw_range : Forall (λ i, i < length (action_list c))%nat (action_queue c)
}.

Lemma add_queue_wf i c : queue_wf c → (i < length (action_list c))%nat → queue_wf (action_add_queue_tail i c).
Proof.
  intros [Hn Hr] Hi. unfold action_add_queue_tail. case_bool_decide as Hin; [by split|]. split; cbn.
  - apply NoDup_app. split_and!; [done|set_solver|apply NoDup_singleton].
  - apply Forall_app. auto.
Qed.

(** Which actions a loop over action_list leaves in the queue. *)
Lemma add_all_elem l c j :
  j ∈ action_queue (foldl (λ c i, action_add_queue_tail i c) c l) ↔ j ∈ action_queue c ∨ j ∈ l.
Proof.
  revert c. induction l as [|i l IH]; intros c; cbn; [set_solver|]. rewrite IH. unfold action_add_queue_tail.
  case_bool_decide; cbn; set_solver.
Qed.

Lemma queue_matching_wf f c : queue_wf c → queue_wf (queue_matching f c).
Proof.
  intros Hc. unfold queue_matching. remember (action_list c) as al eqn:Hal.
  assert (Forall (λ i, i < length al)%nat (filter (λ i, from_option f false (al !! i) = true) (seq 0 (length al)))) as Hl.
  { apply Forall_forall. intros i [_ Hi%elem_of_seq]%list_elem_of_filter. lia. }
  revert c Hc Hal. induction Hl as [|i l Hi Hl IH]; intros c Hc Hal; [done|]. cbn. apply IH.
  - apply add_queue_wf; [done|]. by rewrite <- Hal.
  - rewrite Hal. unfold action_add_queue_tail. by case_bool_decide.
Qed.

(** A loop queues exactly the matching actions, behind those already waiting. *)
Lemma queue_matching_elem f c j :
  j ∈ action_queue (queue_matching f c) ↔
    j ∈ action_queue c ∨ ∃ a, action_list c !! j = Some a ∧ f a = true.
Proof.
  unfold queue_matching. rewrite add_all_elem. f_equiv. rewrite list_elem_of_filter. split.
  - intros [Hf _]. destruct (action_list c !! j) as [a|]; [by exists a|done].
  - intros (a & Ha & Hf). rewrite Ha. split; [done|]. apply elem_of_seq. apply lookup_lt_Some in Ha. lia.
Qed.

(** * Taking commands from the queue *)

(** cur_action and cur_command; a command is named by its position in its action. *)
Record runner := mkRunner { cur_action : option nat; cur_command : option nat }.

Definition commands_of (c : config) (i : nat) : list command := from_option commands [] (action_list c !! i).

Definition get_first_command (c : config) (i : nat) : option nat :=
  match commands_of c i with [] => None | _ => Some 0%nat end.

Definition get_next_command (c : config) (i k : nat) : option nat :=
  if (S k <? length (commands_of c i))%nat then Some (S k) else None.

Definition is_last_command (c : config) (i k : nat) : bool := (S k =? length (commands_of c i))%nat.

(** execute_one_command up to the call of the function: the new cur_action and
    cur_command, and the queue. *)
Definition next_command (r : runner) (c : config) : runner * config :=
  match cur_action r, cur_command r with
  | Some i, Some k =>
      if is_last_command c i k then
        match action_remove_queue_head c with
        | (None, c) => (mkRunner None None, c)
        | (Some j, c) => (mkRunner (Some j) (get_first_command c j), c)
        end
      else (mkRunner (Some i) (get_next_command c i k), c)
  | _, _ =>
      match action_remove_queue_head c with
      | (None, c) => (mkRunner None None, c)
      | (Some j, c) => (mkRunner (Some j) (get_first_command c j), c)
      end
  end.

(** The current command. *)
Definition current (r : runner) (c : config) : option command :=
  i ← cur_action r; k ← cur_command r; commands_of c i !! k.

(** What a state must offer for commands to be run on it. *)
Class Commands (X : Type) := {
  config_of : X → config;
  runner_of : X → runner;
  with_queue : runner → config → X → X;
  exec : command → X → X
}.

(** A command may queue actions; it changes neither the actions nor the place of init in
    the queue. *)
Class CommandsOk (X : Type) `{Commands X} : Prop := {
  config_with : ∀ r c x, config_of (with_queue r c x) = c;
  runner_with : ∀ r c x, runner_of (with_queue r c x) = r;
  exec_grows : ∀ cm x, grows (config_of x) (config_of (exec cm x));
  exec_runner : ∀ cm x, runner_of (exec cm x) = runner_of x
}.

Section Execute.
Context `{CommandsOk X}.

Definition execute_one_command (x : X) : X :=
  let (r, c) := next_command (runner_of x) (config_of x) in
  let x := with_queue r c x in
  match current r c with
  | Some cm => exec cm x
  | None => x
  end.

(** The commands that a call of execute_one_command runs: one or none. *)
Definition executed (x : X) : list command :=
  let (r, c) := next_command (runner_of x) (config_of x) in option_list (current r c).

(** The commands that are due: the rest of the current action, then the queued actions. *)
Definition rest_of (r : runner) (c : config) : list command :=
  match cur_action r, cur_command r with
  | Some i, Some k => drop (S k) (commands_of c i)
  | _, _ => []
  end.
Definition due (r : runner) (c : config) : list command :=
  rest_of r c ++ concat (commands_of c <$> action_queue c).

Definition runner_ok (r : runner) (c : config) : Prop :=
  match cur_action r, cur_command r with
  | Some i, Some k => (k < length (commands_of c i))%nat
  | _, _ => True
  end.

Lemma first_command_due j q c :
  let r := mkRunner (Some j) (get_first_command c j) in
  runner_ok r c ∧
  option_list (current r c) ++ due r (set_queue (λ _, q) c) = commands_of c j ++ concat (commands_of c <$> q).
Proof.
  unfold runner_ok, current, due, rest_of, get_first_command. cbn [cur_action cur_command mbind option_bind].
  change (commands_of (set_queue (λ _, q) c)) with (commands_of c).
  destruct (commands_of c j) as [|cm cms] eqn:E; [done|]. cbn. split; [lia|]. by rewrite drop_0.
Qed.

(** The next command is the first one due. *)
Lemma next_command_due r c :
  runner_ok r c →
  let (r', c') := next_command r c in
  runner_ok r' c' ∧ action_list c' = action_list c ∧ option_list (current r' c') ++ due r' c' = due r c.
Proof.
  intros Hok.
  assert (rest_of r c = [] → let (r', c') := match action_remove_queue_head c with
      | (None, c) => (mkRunner None None, c)
      | (Some j, c) => (mkRunner (Some j) (get_first_command c j), c)
      end in runner_ok r' c' ∧ action_list c' = action_list c ∧ option_list (current r' c') ++ due r' c' = due r c) as Hpop.
  { intros Hr. unfold action_remove_queue_head, due at 2. rewrite Hr. destruct (action_queue c) as [|j q] eqn:Hq.
    - split_and!; [done..|]. unfold due. by rewrite Hq.
    - destruct (first_command_due j q (set_queue tail c)) as [H1 H2]. split_and!; [done..|]. cbn in *.
      unfold set_queue in *. cbn in *. rewrite Hq in *. cbn in *. exact H2. }
  unfold next_command. unfold runner_ok in Hok. unfold rest_of in Hpop. destruct (cur_action r) as [i|] eqn:Hi; [|by apply Hpop].
  destruct (cur_command r) as [k|] eqn:Hk; [|by apply Hpop]. unfold is_last_command. destruct (Nat.eqb_spec (S k) (length (commands_of c i))) as [E|E].
  { apply Hpop. rewrite E. by rewrite drop_all. }
  clear Hpop. unfold get_next_command, runner_ok, current, due, rest_of. rewrite Hi, Hk. cbn [cur_action cur_command].
  destruct (Nat.ltb_spec (S k) (length (commands_of c i))) as [Hlt|]; [|lia]. split_and!; [done..|]. cbn [mbind option_bind].
  destruct (lookup_lt_is_Some_2 _ _ Hlt) as [cm Hcm]. rewrite Hcm. cbn. by rewrite (drop_S _ _ _ Hcm).
Qed.

Lemma due_grows r c c' :
  grows c c' → runner_ok r c → runner_ok r c' ∧ ∃ new, due r c' = due r c ++ new.
Proof.
  intros [Ea [q Eq]] Hok. assert (commands_of c' = commands_of c) as Ec by (unfold commands_of; by rewrite Ea).
  unfold runner_ok, due, rest_of in *. rewrite Ec. split; [done|]. rewrite Eq, fmap_app, concat_app. eexists. by rewrite app_assoc.
Qed.

(** One call runs the first command that is due; what the command queues comes last. *)
Lemma execute_due x :
  runner_ok (runner_of x) (config_of x) →
  let x' := execute_one_command x in
  runner_ok (runner_of x') (config_of x') ∧
  ∃ new, executed x ++ due (runner_of x') (config_of x') = due (runner_of x) (config_of x) ++ new.
Proof.
  intros Hok. cbn. unfold execute_one_command, executed. pose proof (next_command_due _ _ Hok) as Hn.
  destruct (next_command (runner_of x) (config_of x)) as [r c] eqn:E. destruct Hn as (Hr & _ & Hd).
  destruct (current r c) as [cm|].
  - pose proof (exec_grows cm (with_queue r c x)) as Hg. rewrite exec_runner, runner_with, config_with in *.
    destruct (due_grows r _ _ Hg Hr) as [Hr' [new En]]. split; [done|]. exists new. rewrite En, <- Hd. by rewrite app_assoc.
  - rewrite runner_with, config_with. split; [done|]. exists []. by rewrite app_nil_r.
Qed.

(** [n] calls, with other changes of the state between them ([between]: properties set by
    clients, services that exit), which may queue actions too. *)
Fixpoint execute_many (between : nat → X → X) (n : nat) (x : X) : list command * X :=
  match n with
  | O => ([], x)
  | S n =>
      let x1 := between n (execute_one_command x) in
      let (cs, x') := execute_many between n x1 in
      (executed x ++ cs, x')
  end.

Lemma execute_many_due between n x :
  (∀ k y, grows (config_of y) (config_of (between k y)) ∧ runner_of (between k y) = runner_of y) →
  runner_ok (runner_of x) (config_of x) →
  let (cs, x') := execute_many between n x in
  ∃ new, cs ++ due (runner_of x') (config_of x') = due (runner_of x) (config_of x) ++ new.
Proof.
  intros Hb. revert x. induction n as [|n IH]; intros x Hok; cbn [execute_many].
  { exists []. by rewrite app_nil_r. }
  destruct (execute_due x Hok) as [Hok1 [new1 E1]]. set (x1 := execute_one_command x) in *.
  destruct (Hb n x1) as [Hg Hr]. rewrite <- Hr in Hok1, E1. destruct (due_grows _ _ _ Hg Hok1) as [Hok2 [new2 E2]].
  specialize (IH (between n x1) Hok2). destruct (execute_many between n (between n x1)) as [cs x'].
  destruct IH as [new3 E3]. exists (new1 ++ new2 ++ new3). rewrite <- app_assoc, E3, E2.
  rewrite !app_assoc. do 2 f_equal. by rewrite E1.
Qed.
End Execute.
