(* ===== verification/InitProps.v ===== *)
(** The property service of Android init (src/init/init/property_service.c, and
    property_changed, notify_service_state and the kernel command line of init.c): the
    rules by which properties are set, the property files, and who may set what.

    The property area is bionic's: [PropertyArea] is its interface and [PropertyAreaOk]
    what its documentation promises.  [istate] is the state of init, of which this file
    changes the properties and the queue of actions.  The answers of SELinux are the
    record [selinux], user identifiers are the class [AndroidIds]. *)
From Stdlib Require Import ZArith.
From stdpp Require Import base numbers list strings sets gmap pretty.
From S2P Require Import Prelude Bytes InitLexer InitConfig InitActions.

(** * The property area *)

Class PropertyArea (A : Type) := {
  (** the value of the entry found *)
  __system_property_find : A → cstr → option cstr;
  __system_property_update : A → cstr → cstr → A;
  (** [None]: no room *)
  __system_property_add : A → cstr → cstr → option A
}.

Class PropertyAreaOk (A : Type) `{PropertyArea A} : Prop := {
  find_update : ∀ a n v m, __system_property_find a n ≠ None →
    __system_property_find (__system_property_update a n v) m =
      if decide (n = m) then Some v else __system_property_find a m;
  find_add : ∀ a n v a' m, __system_property_find a n = None → __system_property_add a n v = Some a' →
    __system_property_find a' m = if decide (n = m) then Some v else __system_property_find a m
}.

(** * The state of init *)

Record istate (A : Type) := mkState {
  icfg : config;
  irunner : runner;
  area : A;
  persistent_properties_loaded : bool;
  persist_written : list (cstr * cstr);   (* files written to /data/property *)
  policy_reloads : nat;                   (* calls of selinux_reload_policy *)
  property_triggers_enabled : bool;
  process_needs_restart : Z;
  clock : Z;                              (* what gettime() returns *)
  forks : list Z;                         (* what fork() will return *)
  killed : list Z;                        (* process groups killed *)
  ENV : list (cstr * cstr);
  rebooted : list cstr;                   (* calls of android_reboot *)
  exited : bool;
  have_console : bool
}.
Arguments mkState {_}.
Arguments icfg {_}. Arguments irunner {_}. Arguments area {_}. Arguments persistent_properties_loaded {_}.
Arguments persist_written {_}. Arguments policy_reloads {_}. Arguments property_triggers_enabled {_}.
Arguments process_needs_restart {_}. Arguments clock {_}. Arguments forks {_}. Arguments killed {_}.
Arguments ENV {_}. Arguments rebooted {_}. Arguments exited {_}. Arguments have_console {_}.

Section Setters.
Context {A : Type}.
Implicit Types s : istate A.

Definition set_icfg v s := mkState v (irunner s) (area s) (persistent_properties_loaded s) (persist_written s)
  (policy_reloads s) (property_triggers_enabled s) (process_needs_restart s) (clock s) (forks s) (killed s) (ENV s)
  (rebooted s) (exited s) (have_console s).
Definition set_irunner v s := mkState (icfg s) v (area s) (persistent_properties_loaded s) (persist_written s)
  (policy_reloads s) (property_triggers_enabled s) (process_needs_restart s) (clock s) (forks s) (killed s) (ENV s)
  (rebooted s) (exited s) (have_console s).
Definition set_area (v : A) (s : istate A) := mkState (icfg s) (irunner s) v (persistent_properties_loaded s) (persist_written s)
  (policy_reloads s) (property_triggers_enabled s) (process_needs_restart s) (clock s) (forks s) (killed s) (ENV s)
  (rebooted s) (exited s) (have_console s).
Definition set_persist_loaded v s := mkState (icfg s) (irunner s) (area s) v (persist_written s)
  (policy_reloads s) (property_triggers_enabled s) (process_needs_restart s) (clock s) (forks s) (killed s) (ENV s)
  (rebooted s) (exited s) (have_console s).
Definition add_persist_written v s := mkState (icfg s) (irunner s) (area s) (persistent_properties_loaded s)
  (persist_written s ++ [v])
  (policy_reloads s) (property_triggers_enabled s) (process_needs_restart s) (clock s) (forks s) (killed s) (ENV s)
  (rebooted s) (exited s) (have_console s).
Definition add_policy_reload s := mkState (icfg s) (irunner s) (area s) (persistent_properties_loaded s) (persist_written s)
  (S (policy_reloads s)) (property_triggers_enabled s) (process_needs_restart s) (clock s) (forks s) (killed s) (ENV s)
  (rebooted s) (exited s) (have_console s).
Definition enable_triggers s := mkState (icfg s) (irunner s) (area s) (persistent_properties_loaded s) (persist_written s)
  (policy_reloads s) true (process_needs_restart s) (clock s) (forks s) (killed s) (ENV s) (rebooted s) (exited s) (have_console s).
Definition set_needs_restart v s := mkState (icfg s) (irunner s) (area s) (persistent_properties_loaded s)
  (persist_written s) (policy_reloads s) (property_triggers_enabled s) v (clock s) (forks s) (killed s) (ENV s)
  (rebooted s) (exited s) (have_console s).
Definition set_clock v s := mkState (icfg s) (irunner s) (area s) (persistent_properties_loaded s) (persist_written s)
  (policy_reloads s) (property_triggers_enabled s) (process_needs_restart s) v (forks s) (killed s) (ENV s)
  (rebooted s) (exited s) (have_console s).
Definition set_forks v s := mkState (icfg s) (irunner s) (area s) (persistent_properties_loaded s) (persist_written s)
  (policy_reloads s) (property_triggers_enabled s) (process_needs_restart s) (clock s) v (killed s) (ENV s)
  (rebooted s) (exited s) (have_console s).
Definition add_killed v s := mkState (icfg s) (irunner s) (area s) (persistent_properties_loaded s) (persist_written s)
  (policy_reloads s) (property_triggers_enabled s) (process_needs_restart s) (clock s) (forks s) (killed s ++ [v]) (ENV s)
  (rebooted s) (exited s) (have_console s).
Definition set_ENV v s := mkState (icfg s) (irunner s) (area s) (persistent_properties_loaded s) (persist_written s)
  (policy_reloads s) (property_triggers_enabled s) (process_needs_restart s) (clock s) (forks s) (killed s) v
  (rebooted s) (exited s) (have_console s).
Definition add_rebooted v s := mkState (icfg s) (irunner s) (area s) (persistent_properties_loaded s) (persist_written s)
  (policy_reloads s) (property_triggers_enabled s) (process_needs_restart s) (clock s) (forks s) (killed s) (ENV s)
  (rebooted s ++ [v]) (exited s) (have_console s).
Definition set_exited s := mkState (icfg s) (irunner s) (area s) (persistent_properties_loaded s) (persist_written s)
  (policy_reloads s) (property_triggers_enabled s) (process_needs_restart s) (clock s) (forks s) (killed s) (ENV s)
  (rebooted s) true (have_console s).
Definition set_console v s := mkState (icfg s) (irunner s) (area s) (persistent_properties_loaded s) (persist_written s)
  (policy_reloads s) (property_triggers_enabled s) (process_needs_restart s) (clock s) (forks s) (killed s) (ENV s)
  (rebooted s) (exited s) v.
End Setters.

(** * Setting a property *)

Definition DOT : Z := 46.

(** The characters of a name, after one that was a dot or not. *)
Fixpoint legal_chars (previous_was_dot : bool) (nm : cstr) : bool :=
  match nm with
  | [] => true
  | c :: nm =>
      if c =? DOT then if previous_was_dot then false else legal_chars true nm
      else if (c =? 95) || (c =? 45) || ((97 <=? c) && (c <=? 122)) || ((65 <=? c) && (c <=? 90)) ||
              ((48 <=? c) && (c <=? 57)) then legal_chars false nm
      else false
  end.

Definition has_prefix (lit : string) (s : cstr) : bool := bool_decide (is_Some (after_prefix (bytes_of lit) s)).

Section Properties.
Context `{PropLimits} `{PropertyAreaOk A}.

Definition is_legal_property_name (nm : cstr) : bool :=
  (length nm <? PROP_NAME_MAX)%nat && (1 <=? length nm)%nat &&
  negb (bool_decide (head nm = Some DOT)) && negb (bool_decide (last nm = Some DOT)) && legal_chars false nm.

(** property_get: the value, empty when there is no such property. *)
Definition property_get (s : istate A) (nm : cstr) : cstr := default [] (__system_property_find (area s) nm).

Definition property_changed (nm value : cstr) (s : istate A) : istate A :=
  if property_triggers_enabled s then set_icfg (queue_property_triggers nm value (icfg s)) s else s.

(** property_set up to the store: [false] is a return with an error. *)
Definition store_property (nm value : cstr) (s : istate A) : bool * istate A :=
  if negb (is_legal_property_name nm) then (false, s)
  else if (PROP_VALUE_MAX <=? length value)%nat then (false, s)
  else
    match __system_property_find (area s) nm with
    | Some _ =>
        if has_prefix "ro." nm then (false, s)
        else (true, set_area (__system_property_update (area s) nm value) s)
    | None =>
        match __system_property_add (area s) nm value with
        | None => (false, s)
        | Some a => (true, set_area a s)
        end
    end.

(** property_set: 0 or -1.  The inner call for net.change returns as soon as it has stored
    the value. *)
Definition property_set (nm value : cstr) (s : istate A) : Z * istate A :=
  let (ok, s) := store_property nm value s in
  if negb ok then (-1, s)
  else if has_prefix "net." nm then
    if bool_decide (nm = bytes_of "net.change") then (0, s)
    else
      let (_, s) := store_property (bytes_of "net.change") nm s in
      (0, property_changed nm value s)
  else if persistent_properties_loaded s && has_prefix "persist." nm then
    (0, property_changed nm value (add_persist_written (nm, value) s))
  else if streq nm "selinux.reload_policy" && streq value "1" then
    (0, property_changed nm value (add_policy_reload s))
  else (0, property_changed nm value s).

Definition notify_service_state (nm : cstr) (st : string) (s : istate A) : istate A :=
  if (PROP_NAME_MAX <? length nm + 10)%nat then s
  else (property_set (bytes_of "init.svc." ++ nm) (bytes_of st) s).2.

(** * Property files *)

(** The longest suffix of blanks is cut off, but never the first character. *)
Fixpoint trim_end (s : cstr) : cstr :=
  match s with
  | [] => []
  | c :: r =>
      match trim_end r with
      | [] => [c]
      | [d] => if isspace d then [c] else [c; d]
      | r' => c :: r'
      end
  end.

(** One line of load_properties, without its newline. *)
Definition load_line (l : cstr) (s : istate A) : istate A :=
  match split_at EQUALS l with
  | None => s
  | Some (key, value) =>
      let key := skip_spaces key in
      match key with
      | 35 :: _ => s
      | _ => (property_set (trim_end key) (trim_end (skip_spaces value)) s).2
      end
  end.

(** The lines that end with a newline. *)
Fixpoint load_lines (fuel : nat) (data : cstr) (s : istate A) : istate A :=
  match fuel with
  | O => s
  | S fuel =>
      match split_at LF data with
      | None => s
      | Some (l, rest) => load_lines fuel rest (load_line l s)
      end
  end.

(** load_properties on the text of a file, up to its first NUL. *)
Definition load_properties (data : list Z) (s : istate A) : istate A :=
  let text := file_text data in load_lines (S (length text)) text s.

(** load_properties_from_file; [read_file] gives the contents. *)
Definition load_properties_from_file (read_file : cstr → option (list Z)) (fn : cstr) (s : istate A) : istate A :=
  match read_file fn with
  | Some data => load_properties data s
  | None => s
  end.

(** An entry of /data/property: its name, whether it can be opened and is a regular file,
    what fstat says, and the bytes that can be read ([None]: read fails). *)
Record persist_entry := mkEntry {
  d_name : cstr;
  can_open : bool;
  st_mode : Z; st_uid : Z; st_gid : Z; st_nlink : Z;
  contents : option (list Z)
}.

(** S_IRWXG | S_IRWXO *)
Definition S_IRWXGO : Z := 63.

Definition load_persist_entry (s : istate A) (e : persist_entry) : istate A :=
  if negb (has_prefix "persist." (d_name e)) then s
  else if negb (can_open e) then s
  else if negb (Z.land (st_mode e) S_IRWXGO =? 0) || negb (st_uid e =? 0) || negb (st_gid e =? 0) || negb (st_nlink e =? 1) then s
  else
    match contents e with
    | None => s
    | Some bytes => (property_set (d_name e) (c_string (take (PROP_VALUE_MAX - 1) bytes)) s).2
    end.

(** load_persistent_properties; [None]: the directory cannot be opened. *)
Definition load_persistent_properties (dir : option (list persist_entry)) (s : istate A) : istate A :=
  set_persist_loaded true (foldl load_persist_entry s (default [] dir)).

(** start_property_service, up to its socket, in a build without
    ALLOW_LOCAL_PROP_OVERRIDE (/data/local.prop is not read). *)
Definition start_property_service (read_file : cstr → option (list Z)) (dir : option (list persist_entry)) (s : istate A)
    : istate A :=
  let s := load_properties_from_file read_file (bytes_of "/system/build.prop") s in
  let s := load_properties_from_file read_file (bytes_of "/system/default.prop") s in
  load_persistent_properties dir s.

(** * The kernel command line *)

(** console, bootmode, hardware, qemu (buffers of 32 bytes) and revision. *)
Record boot_vars := mkVars { console : cstr; bootmode : cstr; hardware : cstr; qemu : cstr; revision : Z }.

(** [strlcpy(dst, src, 32)] *)
Definition strlcpy32 (src : cstr) : cstr := take 31 src.

(** import_kernel_nv: one word of the command line. *)
Definition import_kernel_nv (for_emulator : bool) (w : cstr) (vs : boot_vars * istate A) : boot_vars * istate A :=
  let (v, s) := vs in
  match split_at EQUALS w with
  | None => (v, s)
  | Some (nm, value) =>
      if for_emulator then
        let buff := bytes_of "ro.kernel." ++ nm in
        if (length buff <? PROP_NAME_MAX)%nat then (v, (property_set buff value s).2) else (v, s)
      else if streq nm "qemu" then
        (mkVars (console v) (bootmode v) (hardware v) (strlcpy32 value) (revision v), s)
      else
        match after_prefix (bytes_of "androidboot.") nm with
        | Some boot_prop_name =>
            if (12 <? length w)%nat then
              let prop := bytes_of "ro.boot." ++ boot_prop_name in
              if (length prop <? PROP_NAME_MAX)%nat then (v, (property_set prop value s).2) else (v, s)
            else (v, s)
        | None => (v, s)
        end
  end.

(** The words of the command line, separated by single spaces; an empty one ends it
    only at the end. *)
Fixpoint words (fuel : nat) (l : cstr) : list cstr :=
  match fuel, l with
  | S fuel, _ :: _ =>
      match split_at SP l with
      | Some (w, rest) => w :: words fuel rest
      | None => [l]
      end
  | _, _ => []
  end.

(** import_kernel_cmdline on the contents of /proc/cmdline ([None]: it cannot be opened):
    at most 1023 bytes, without a trailing newline. *)
Definition proc_cmdline (data : option (list Z)) : cstr :=
  let l := take 1023 (default [] data) in
  c_string (if bool_decide (last l = Some LF) then removelast l else l).

Definition import_kernel_cmdline (in_qemu : bool) (data : option (list Z)) (vs : boot_vars * istate A)
    : boot_vars * istate A :=
  let l := proc_cmdline data in
  foldl (λ vs w, import_kernel_nv in_qemu w vs) vs (words (S (length l)) l).

(** The digits that snprintf prints for %d. *)
Definition print_int (z : Z) : cstr := bytes_of (pretty (s32 z)).

Definition prop_map : list (string * string * string) :=
  [("ro.boot.serialno", "ro.serialno", ""); ("ro.boot.mode", "ro.bootmode", "unknown");
   ("ro.boot.baseband", "ro.baseband", "unknown"); ("ro.boot.bootloader", "ro.bootloader", "unknown")].

Definition export_one (s : istate A) (m : string * string * string) : istate A :=
  let '(src_prop, dest_prop, def_val) := m in
  let tmp := property_get s (bytes_of src_prop) in
  (property_set (bytes_of dest_prop) (if bool_decide (tmp = []) then bytes_of def_val else tmp) s).2.

Definition export_kernel_boot_props (vs : boot_vars * istate A) : boot_vars * istate A :=
  let (v, s) := vs in
  let s := foldl export_one s prop_map in
  let get n := property_get s (bytes_of n) in
  let con := if bool_decide (get "ro.boot.console" = []) then console v else strlcpy32 (get "ro.boot.console") in
  let mode := strlcpy32 (get "ro.bootmode") in
  let hw := if bool_decide (get "ro.boot.hardware" = []) then hardware v else strlcpy32 (get "ro.boot.hardware") in
  let s := (property_set (bytes_of "ro.hardware") hw s).2 in
  let s := (property_set (bytes_of "ro.revision") (take (PROP_VALUE_MAX - 1) (print_int (revision v))) s).2 in
  let test := if streq mode "factory" then "1" else if streq mode "factory2" then "2" else "0" in
  let s := (property_set (bytes_of "ro.factorytest") (bytes_of test) s).2 in
  (mkVars con mode hw (qemu v) (revision v), s).

Definition process_kernel_cmdline (data : option (list Z)) (vs : boot_vars * istate A) : boot_vars * istate A :=
  let vs := import_kernel_cmdline false data vs in
  let vs := if bool_decide (qemu vs.1 = []) then vs else import_kernel_cmdline true data vs in
  export_kernel_boot_props vs.

(** * What no step of init does *)

Definition ro_name (nm : cstr) : Prop := has_prefix "ro." nm = true.

Definition area_ok (a : A) : Prop := ∀ n v, __system_property_find a n = Some v →
  is_legal_property_name n = true ∧ (length v < PROP_VALUE_MAX)%nat.

(** From [s] to [s']: a property that is read-only keeps its value, none disappears, names
    stay legal and values short; the actions and the place in the queue stay. *)
Record steps (s s' : istate A) : Prop := {
  st_ro : ∀ n v, ro_name n → __system_property_find (area s) n = Some v → __system_property_find (area s') n = Some v;
  st_kept : ∀ n, __system_property_find (area s) n ≠ None → __system_property_find (area s') n ≠ None;
  st_legal : area_ok (area s) → area_ok (area s');
  st_grows : grows (icfg s) (icfg s');
  st_runner : irunner s' = irunner s
}.

#[global] Instance steps_preorder : PreOrder steps.
Proof.
  split.
  - intros s. split; auto. reflexivity.
  - intros s1 s2 s3 [] []. split; auto; [by etransitivity|congruence].
Qed.

(** A change beside the properties. *)
Lemma steps_same_area s s' : area s' = area s → grows (icfg s) (icfg s') → irunner s' = irunner s → steps s s'.
Proof. intros E Hg Hr. split; rewrite ?E; auto. Qed.

Lemma store_property_steps nm value s : steps s (store_property nm value s).2.
Proof.
  unfold store_property. destruct (is_legal_property_name nm) eqn:Hl; cbn [negb]; [|reflexivity].
  destruct (Nat.leb_spec PROP_VALUE_MAX (length value)) as [|Hv]; [reflexivity|].
  assert (∀ a, (∀ m, __system_property_find a m = if decide (nm = m) then Some value else __system_property_find (area s) m) →
    (__system_property_find (area s) nm ≠ None → has_prefix "ro." nm = false) → steps s (set_area a s)) as Hset.
  { intros a Ha Hro. split; cbn; [..|reflexivity|done].
    - intros n v Hn Hf. rewrite Ha. case_decide as E; [|done]. subst n. unfold ro_name in Hn. rewrite Hro in Hn; congruence.
    - intros n Hn. rewrite Ha. by case_decide.
    - intros Hok n v. rewrite Ha. case_decide as E; [|apply Hok]. subst n. by intros [= <-]. }
  destruct (__system_property_find (area s) nm) as [w|] eqn:Hf.
  - destruct (has_prefix "ro." nm) eqn:Hro; [reflexivity|]. apply Hset; [|done]. intros m. apply find_update. by rewrite Hf.
  - destruct (__system_property_add (area s) nm value) as [a|] eqn:Hadd; [|reflexivity]. apply Hset; [|done].
    intros m. by apply find_add.
Qed.

Lemma property_changed_steps nm value s : steps s (property_changed nm value s).
Proof.
  unfold property_changed. destruct (property_triggers_enabled s); [|reflexivity]. apply steps_same_area; [done| |done].
  apply queue_matching_grows.
Qed.

Lemma property_set_steps nm value s : steps s (property_set nm value s).2.
Proof.
  unfold property_set. pose proof (store_property_steps nm value s) as Hs1.
  destruct (store_property nm value s) as [ok s1]. cbn [snd] in Hs1. destruct ok; cbn [negb]; [|done].
  assert (∀ s2, steps s s2 → steps s (property_changed nm value s2)) as Hc.
  { intros s2 Hs2. etransitivity; [exact Hs2|apply property_changed_steps]. }
  destruct (has_prefix "net." nm).
  - destruct (bool_decide _); [done|]. pose proof (store_property_steps (bytes_of "net.change") nm s1) as Hs2.
    destruct (store_property (bytes_of "net.change") nm s1) as [? s2]. apply Hc. by etransitivity.
  - destruct (_ && _); [apply Hc; etransitivity; [done|]; by apply steps_same_area|].
    destruct (_ && _); [apply Hc; etransitivity; [done|]; by apply steps_same_area|by apply Hc].
Qed.

Lemma notify_steps nm st s : steps s (notify_service_state nm st s).
Proof. unfold notify_service_state. case_match; [reflexivity|apply property_set_steps]. Qed.

Lemma foldl_steps {X} (f : istate A → X → istate A) l s : (∀ s x, steps s (f s x)) → steps s (foldl f s l).
Proof. intros Hf. revert s. induction l as [|x l IH]; intros s; [reflexivity|]. cbn. by etransitivity; [apply Hf|]. Qed.

Lemma load_properties_steps data s : steps s (load_properties data s).
Proof.
  unfold load_properties. generalize (file_text data) at 2. generalize (S (length (file_text data))). intros n.
  revert s. induction n as [|n IH]; intros s cs; [reflexivity|]. cbn [load_lines].
  destruct (split_at LF cs) as [[l rest]|]; [|reflexivity]. etransitivity; [|apply IH].
  unfold load_line. destruct (split_at EQUALS l) as [[k v]|]; [|reflexivity].
  repeat case_match; try reflexivity; apply property_set_steps.
Qed.

Lemma load_persistent_steps dir s : steps s (load_persistent_properties dir s).
Proof.
  unfold load_persistent_properties.
  transitivity (foldl load_persist_entry s (default [] dir)); [|by apply steps_same_area].
  apply foldl_steps. intros s' e. unfold load_persist_entry. repeat case_match; try reflexivity; apply property_set_steps.
Qed.

Lemma start_property_service_steps read_file dir s : steps s (start_property_service read_file dir s).
Proof.
  unfold start_property_service, load_properties_from_file.
  etransitivity; [|apply load_persistent_steps].
  repeat case_match; try reflexivity; repeat (etransitivity; [|apply load_properties_steps]); reflexivity.
Qed.
End Properties.

(** * What setting properties leaves alone *)

(** The services, the processes and the clock are as before. *)
Record quiet {A} (s s' : istate A) : Prop := {
  q_services : service_list (icfg s') = service_list (icfg s);
  q_forks : forks s' = forks s;
  q_clock : clock s' = clock s;
  q_needs : process_needs_restart s' = process_needs_restart s;
  q_console : have_console s' = have_console s
}.

#[global] Instance quiet_preorder {A} : PreOrder (@quiet A).
Proof. split; [by intros s|]. intros s1 s2 s3 [] []. split; congruence. Qed.

Lemma queue_matching_services f c : service_list (queue_matching f c) = service_list c.
Proof.
  unfold queue_matching. generalize (filter (λ i, from_option f false (action_list c !! i) = true) (seq 0 (length (action_list c)))).
  intros l. revert c. induction l as [|i l IH]; intros c; [done|]. cbn. rewrite IH. unfold action_add_queue_tail.
  by case_bool_decide.
Qed.

Section Quiet.
Context `{PropLimits} `{PropertyArea A}.
Implicit Types s : istate A.

Lemma store_property_quiet nm value s : quiet s (store_property nm value s).2.
Proof. unfold store_property. by repeat case_match. Qed.

Lemma property_changed_quiet nm value s : quiet s (property_changed nm value s).
Proof. unfold property_changed. case_match; [|done]. split; try done. apply queue_matching_services. Qed.

Lemma property_set_quiet nm value s : quiet s (property_set nm value s).2.
Proof.
  unfold property_set. pose proof (store_property_quiet nm value s) as Hq. destruct (store_property nm value s) as [ok s1].
  cbn [snd] in Hq. destruct ok; cbn [negb]; [|done].
  assert (∀ s2, quiet s s2 → quiet s (property_changed nm value s2)) as Hc.
  { intros s2 Hs2. etransitivity; [exact Hs2|apply property_changed_quiet]. }
  destruct (has_prefix "net." nm).
  - destruct (bool_decide _); [done|]. pose proof (store_property_quiet (bytes_of "net.change") nm s1) as Hq2.
    destruct (store_property (bytes_of "net.change") nm s1) as [? s2]. apply Hc. by etransitivity.
  - destruct (_ && _); [by apply Hc; destruct Hq|]. destruct (_ && _); [by apply Hc; destruct Hq|by apply Hc].
Qed.

Lemma notify_quiet nm st s : quiet s (notify_service_state nm st s).
Proof. unfold notify_service_state. case_match; [done|apply property_set_quiet]. Qed.

Lemma foldl_quiet {X} (f : istate A → X → istate A) l s : (∀ s x, quiet s (f s x)) → quiet s (foldl f s l).
Proof. intros Hf. revert s. induction l as [|x l IH]; intros s; [done|]. cbn. by etransitivity; [apply Hf|]. Qed.

Lemma load_properties_quiet data s : quiet s (load_properties data s).
Proof.
  unfold load_properties. generalize (file_text data) at 2. generalize (S (length (file_text data))). intros n.
  revert s. induction n as [|n IH]; intros s cs; [done|]. cbn [load_lines].
  destruct (split_at LF cs) as [[l rest]|]; [|done]. etransitivity; [|apply IH].
  unfold load_line. destruct (split_at EQUALS l) as [[k v]|]; [|done]. repeat case_match; try done; apply property_set_quiet.
Qed.

Lemma load_persistent_quiet dir s : quiet s (load_persistent_properties dir s).
Proof.
  unfold load_persistent_properties. transitivity (foldl load_persist_entry s (default [] dir)); [|done].
  apply foldl_quiet. intros s' e. unfold load_persist_entry. repeat case_match; try done; apply property_set_quiet.
Qed.

Lemma start_property_service_quiet read_file dir s : quiet s (start_property_service read_file dir s).
Proof.
  unfold start_property_service, load_properties_from_file. etransitivity; [|apply load_persistent_quiet].
  repeat case_match; try done; repeat (etransitivity; [|apply load_properties_quiet]); done.
Qed.
End Quiet.

(** * Who may set a property *)

(** The identifiers of android_filesystem_config.h, and multiuser_get_app_id. *)
Class AndroidIds := {
  AID_ROOT : Z; AID_SYSTEM : Z; AID_RADIO : Z; AID_BLUETOOTH : Z; AID_DHCP : Z; AID_SHELL : Z; AID_LOG : Z;
  multiuser_get_app_id : Z → Z
}.

(** What SELinux answers: whether it is enabled, whether the handle for property labels is
    there, the label of a name, and whether a source context may set such a property. *)
Record selinux := mkSelinux {
  is_enabled : bool;
  sehandle_prop : bool;
  selabel_lookup : cstr → option cstr;
  check_access : cstr → cstr → bool
}.

Section Permissions.
Context `{PropLimits} `{AndroidIds} (se : selinux).

Definition property_perms : list (string * Z * Z) :=
  [("net.rmnet0.", AID_RADIO, 0); ("net.gprs.", AID_RADIO, 0); ("net.ppp", AID_RADIO, 0); ("net.qmi", AID_RADIO, 0);
   ("net.lte", AID_RADIO, 0); ("net.cdma", AID_RADIO, 0); ("ril.", AID_RADIO, 0); ("gsm.", AID_RADIO, 0);
   ("persist.radio", AID_RADIO, 0); ("net.dns", AID_RADIO, 0); ("sys.usb.config", AID_RADIO, 0);
   ("net.", AID_SYSTEM, 0); ("dev.", AID_SYSTEM, 0); ("runtime.", AID_SYSTEM, 0); ("hw.", AID_SYSTEM, 0);
   ("sys.", AID_SYSTEM, 0); ("sys.powerctl", AID_SHELL, 0); ("service.", AID_SYSTEM, 0); ("wlan.", AID_SYSTEM, 0);
   ("bluetooth.", AID_BLUETOOTH, 0); ("dhcp.", AID_SYSTEM, 0); ("dhcp.", AID_DHCP, 0); ("debug.", AID_SYSTEM, 0);
   ("debug.", AID_SHELL, 0); ("log.", AID_SHELL, 0); ("service.adb.root", AID_SHELL, 0);
   ("service.adb.tcp.port", AID_SHELL, 0); ("persist.sys.", AID_SYSTEM, 0); ("persist.service.", AID_SYSTEM, 0);
   ("persist.security.", AID_SYSTEM, 0); ("persist.service.bdroid.", AID_BLUETOOTH, 0); ("selinux.", AID_SYSTEM, 0)].

Definition control_perms : list (string * Z * Z) :=
  [("dumpstate", AID_SHELL, AID_LOG); ("ril-daemon", AID_RADIO, AID_RADIO)].

(** [sctx]: the security context of the client, when there is one. *)
Definition check_mac_perms (nm : cstr) (sctx : option cstr) : bool :=
  if negb (is_enabled se) then true
  else
    match sctx with
    | None => false
    | Some sctx =>
        if negb (sehandle_prop se) then false
        else match selabel_lookup se nm with Some tctx => check_access se sctx tctx | None => false end
    end.

Definition check_control_mac_perms (nm : cstr) (sctx : option cstr) : bool :=
  let ctl_name := bytes_of "ctl." ++ nm in
  if (PROP_VALUE_MAX + 4 <=? length ctl_name)%nat then false else check_mac_perms ctl_name sctx.

(** The condition on an entry of the tables. *)
Definition id_matches (uid gid uid' gid' : Z) : bool :=
  (negb (uid =? 0) && (uid' =? uid)) || (negb (gid =? 0) && (gid' =? gid)).

Fixpoint search_control (l : list (string * Z * Z)) (nm : cstr) (uid gid : Z) (sctx : option cstr) : bool :=
  match l with
  | [] => false
  | (service, u, g) :: l =>
      if streq nm service && id_matches uid gid u g then check_control_mac_perms nm sctx
      else search_control l nm uid gid sctx
  end.

Definition check_control_perms (nm : cstr) (uid gid : Z) (sctx : option cstr) : bool :=
  if (uid =? AID_SYSTEM) || (uid =? AID_ROOT) then check_control_mac_perms nm sctx
  else search_control control_perms nm uid gid sctx.

Fixpoint search_perms (l : list (string * Z * Z)) (nm : cstr) (uid gid : Z) (sctx : option cstr) : bool :=
  match l with
  | [] => false
  | (prefix, u, g) :: l =>
      if has_prefix prefix nm && id_matches uid gid u g then check_mac_perms nm sctx
      else search_perms l nm uid gid sctx
  end.

Definition check_perms (nm : cstr) (uid gid : Z) (sctx : option cstr) : bool :=
  let nm := default nm (after_prefix (bytes_of "ro.") nm) in
  if uid =? 0 then check_mac_perms nm sctx
  else
    let app_id := multiuser_get_app_id uid in
    let uid := if app_id =? AID_BLUETOOTH then app_id else uid in
    search_perms property_perms nm uid gid sctx.

(** The identifiers that the tables name; a 0 for the group in an entry is no group. *)
Definition known_uid (u : Z) : Prop := u ∈ [AID_ROOT; 0; AID_SYSTEM; AID_RADIO; AID_BLUETOOTH; AID_DHCP; AID_SHELL].
Definition known_gid (g : Z) : Prop := g ∈ [AID_LOG; AID_RADIO].

(** A client whom no entry names: its user is in no table, is no user's instance of
    Bluetooth, and its group, which may be that of root, is in no table. *)
Definition ordinary (uid gid : Z) : Prop :=
  ¬ known_uid uid ∧ multiuser_get_app_id uid ≠ AID_BLUETOOTH ∧ ¬ known_gid gid.

Lemma no_match uid gid u g : uid ≠ u → gid = 0 ∨ gid ≠ g → id_matches uid gid u g = false.
Proof.
  intros Hu [-> |Hg]; unfold id_matches; rewrite (proj2 (Z.eqb_neq u uid)), andb_false_r by congruence; [done|].
  by rewrite (proj2 (Z.eqb_neq g gid)), andb_false_r by congruence.
Qed.

Lemma search_perms_none l nm uid gid sctx :
  Forall (λ '(_, u, g), id_matches uid gid u g = false) l → search_perms l nm uid gid sctx = false.
Proof. induction 1 as [|[[p u] g] l E Hl IH]; [done|]. cbn. by rewrite E, andb_false_r. Qed.

Lemma search_control_none l nm uid gid sctx :
  Forall (λ '(_, u, g), id_matches uid gid u g = false) l → search_control l nm uid gid sctx = false.
Proof. induction 1 as [|[[p u] g] l E Hl IH]; [done|]. cbn. by rewrite E, andb_false_r. Qed.

(** Such a client passes neither check. *)
Lemma ordinary_refused uid gid :
  ordinary uid gid → ∀ nm sctx, check_perms nm uid gid sctx = false ∧ check_control_perms nm uid gid sctx = false.
Proof.
  intros (Hu & Hb & Hg) nm sctx. unfold known_uid, known_gid in *.
  assert (uid ≠ AID_ROOT ∧ uid ≠ 0 ∧ uid ≠ AID_SYSTEM ∧ uid ≠ AID_RADIO ∧ uid ≠ AID_BLUETOOTH ∧ uid ≠ AID_DHCP ∧ uid ≠ AID_SHELL)
    as (? & ? & ? & ? & ? & ? & ?) by (split_and!; intros ->; apply Hu; set_solver).
  assert (gid ≠ AID_LOG ∧ gid ≠ AID_RADIO) as (? & ?) by (split_and!; intros ->; apply Hg; set_solver).
  assert (gid = 0 ∨ gid ≠ 0) by lia.
  split.
  - unfold check_perms. rewrite (proj2 (Z.eqb_neq uid 0)) by done. rewrite (proj2 (Z.eqb_neq _ AID_BLUETOOTH)) by done.
    apply search_perms_none. unfold property_perms. repeat (apply Forall_cons; split; [apply no_match; [done|auto]|]). apply Forall_nil_2.
  - unfold check_control_perms. rewrite (proj2 (Z.eqb_neq uid AID_SYSTEM)), (proj2 (Z.eqb_neq uid AID_ROOT)) by done.
    apply search_control_none. unfold control_perms. repeat (apply Forall_cons; split; [apply no_match; [done|auto]|]). apply Forall_nil_2.
Qed.
End Permissions.
