(* ===== verification/InitServices.v ===== *)
(** Services and commands of Android init (src/init/init/init.c, builtins.c,
    signal_handler.c, keychords.c and handle_property_set_fd of property_service.c): the
    life cycle of a service, the commands that act on init's own state, and the events
    that its main loop serves.

    A command whose function only makes system calls (mount, mkdir, write, ...) leaves
    this state as it is.  The code that the child runs between fork and execve is not
    modelled.  What the system answers is the record [platform]; the results of fork are
    the list [forks] of the state.  A command has the words its function reads, by
    [cmd_wf] of [InitConfig]; one without them is skipped here. *)
From Stdlib Require Import ZArith.
From stdpp Require Import base numbers list strings sets gmap.
From S2P Require Import Prelude Bytes InitLexer InitConfig InitActions InitProps.

Record platform := mkPlatform {
  stat_ok : cstr → bool;                       (* stat(svc->args[0]) *)
  context_ok : service → bool;                 (* the SELinux context of a service can be computed *)
  properties_inited : bool;
  console_opens : bool;
  property_socket : bool;                      (* get_property_set_fd() >= 0 *)
  signal_socket : bool;                        (* get_signal_fd() >= 0 *)
  files : cstr → option (list Z);              (* read_file *)
  persist_dir : option (list persist_entry);
  mount_all_status : cstr → Z;                 (* the exit status of the mounting child, -1 on error *)
  dead_children : list Z;                      (* children that have exited when signals are set up *)
  selinux_of : selinux
}.

Definition has (fl mask : Z) : bool := negb (Z.land fl mask =? 0).
Definition without (fl mask : Z) : Z := Z.land fl (Z.lnot mask).

Definition CRITICAL_CRASH_THRESHOLD : Z := 4.
Definition CRITICAL_CRASH_WINDOW : Z := 4 * 60.

Section Services.
Context `{PropLimits} `{PropertyAreaOk A} `{AndroidIds} (pf : platform).
Abbreviation state := (istate A).

Definition svc_at (i : nat) (s : state) : option service := service_list (icfg s) !! i.
(** [*svc = f( *svc)] *)
Definition upd_svc (i : nat) (f : service → service) (s : state) : state :=
  set_icfg (set_services (alter f i) (icfg s)) s.
Definition upd_flags (f : Z → Z) (sv : service) : service := set_flags (f (flags sv)) sv.
Definition disable (i : nat) (s : state) : state := upd_svc i (upd_flags (λ fl, Z.lor fl SVC_DISABLED)) s.

(** * Starting and stopping *)

(** What fork returns to the parent. *)
Definition fork (s : state) : Z * state :=
  match forks s with
  | [] => (-1, s)
  | p :: r => (p, set_forks r s)
  end.

(** The end of service_start: fork and its bookkeeping. *)
Definition launch (i : nat) (sv : service) (s : state) : state :=
  let (p, s) := fork s in
  if p <? 0 then upd_svc i (λ sv, set_life (flags sv) 0 (time_started sv) (time_crashed sv) (nr_crashed sv) sv) s
  else
    let s := upd_svc i (λ sv, set_life (Z.lor (flags sv) SVC_RUNNING) p (clock s) (time_crashed sv) (nr_crashed sv) sv) s in
    if properties_inited pf then notify_service_state (name sv) "running" s else s.

(** The first assignments of service_start. *)
Definition start_service (sv : service) : service :=
  set_life (without (flags sv) (Z.lor (Z.lor (Z.lor SVC_DISABLED SVC_RESTARTING) SVC_RESET) SVC_RESTART))
    (pid sv) 0 (time_crashed sv) (nr_crashed sv) sv.

Definition service_start (i : nat) (dynamic_args : option cstr) (s : state) : state :=
  let s := upd_svc i start_service s in
  match svc_at i s with
  | None => s
  | Some sv =>
      if has (flags sv) SVC_RUNNING then s
      else if has (flags sv) SVC_CONSOLE && negb (have_console s) then disable i s
      else if negb (stat_ok pf (default [] (head (sargs sv)))) then disable i s
      else if negb (has (flags sv) SVC_ONESHOT) && bool_decide (is_Some dynamic_args) then disable i s
      else if is_enabled (selinux_of pf) && negb (context_ok pf sv) then s
      else launch i sv s
  end.

(** service_stop_or_reset: the new flags; [how] is SVC_DISABLED, SVC_RESET or SVC_RESTART. *)
Definition stop_flags (how fl : Z) : Z :=
  let fl := without fl SVC_RESTARTING in
  let how :=
    if negb (how =? SVC_DISABLED) && negb (how =? SVC_RESET) && negb (how =? SVC_RESTART) then SVC_DISABLED else how in
  if how =? SVC_RESET then Z.lor fl (if has fl SVC_RC_DISABLED then SVC_DISABLED else SVC_RESET) else Z.lor fl how.

Definition service_stop_or_reset (i : nat) (how : Z) (s : state) : state :=
  let s := upd_svc i (upd_flags (stop_flags how)) s in
  match svc_at i s with
  | None => s
  | Some sv =>
      if negb (pid sv =? 0) then notify_service_state (name sv) "stopping" (add_killed (pid sv) s)
      else notify_service_state (name sv) "stopped" s
  end.

Definition service_reset (i : nat) : state → state := service_stop_or_reset i SVC_RESET.
Definition service_stop (i : nat) : state → state := service_stop_or_reset i SVC_DISABLED.

Definition service_restart (i : nat) (s : state) : state :=
  match svc_at i s with
  | None => s
  | Some sv =>
      if has (flags sv) SVC_RUNNING then service_stop_or_reset i SVC_RESTART s
      else if negb (has (flags sv) SVC_RESTARTING) then service_start i None s
      else s
  end.

Definition service_start_if_not_disabled (i : nat) (s : state) : state :=
  match svc_at i s with
  | Some sv => if negb (has (flags sv) SVC_DISABLED) then service_start i None s else s
  | None => s
  end.

(** The loops over service_list: each service that satisfies [f], when its turn comes. *)
Definition service_for_each_if (f : service → bool) (act : nat → state → state) (s : state) : state :=
  foldl (λ s i, match svc_at i s with Some sv => if f sv then act i s else s | None => s end) s
    (seq 0 (length (service_list (icfg s)))).
Definition service_for_each_class (classnm : cstr) : (nat → state → state) → state → state :=
  service_for_each_if (λ sv, bool_decide (classname sv = classnm)).
Definition service_for_each_flags (mask : Z) : (nat → state → state) → state → state :=
  service_for_each_if (λ sv, has (flags sv) mask).

(** * Restarting *)

Definition restart_service_if_needed (i : nat) (s : state) : state :=
  match svc_at i s with
  | None => s
  | Some sv =>
      let next_start_time := time_started sv + 5 in
      if next_start_time <=? clock s then
        service_start i None (upd_svc i (upd_flags (λ fl, without fl SVC_RESTARTING)) s)
      else if (next_start_time <? process_needs_restart s) || (process_needs_restart s =? 0) then
        set_needs_restart next_start_time s
      else s
  end.

Definition restart_processes (s : state) : state :=
  service_for_each_flags SVC_RESTARTING restart_service_if_needed (set_needs_restart 0 s).

(** * Commands *)

(** The words of a command. *)
Definition with_arg (k : nat) (args : list cstr) (f : cstr → state → state) (s : state) : state :=
  match args !! k with Some a => f a s | None => s end.

Definition on_service (act : nat → state → state) (nm : cstr) (s : state) : state :=
  match service_find_by_name nm (icfg s) with Some i => act i s | None => s end.

Definition do_trigger (a : cstr) (s : state) : state := set_icfg (action_for_each_trigger a (icfg s)) s.

(** do_setprop; a buffer overflow in expand_props is left out ([expand_props_safe] says
    when there is none). *)
Definition do_setprop (nm value : cstr) (s : state) : state :=
  match expand_props (property_get s) value PROP_VALUE_MAX with
  | Ok (Some prop_val) => (property_set nm prop_val s).2
  | _ => s
  end.

(** The first 31 entries. *)
Definition add_environment (key val : cstr) (s : state) : state :=
  if (length (ENV s) <? 31)%nat then set_ENV (ENV s ++ [(key, val)]) s else s.

(** do_powerctl: the target of a shutdown or reboot. *)
Definition do_powerctl (a : cstr) (s : state) : state :=
  match expand_props (property_get s) a PROP_VALUE_MAX with
  | Ok (Some command) =>
      let target rest :=
        match rest with
        | [] => Some []
        | 44 :: t => Some t
        | _ => None
        end in
      let go rest := match target rest with Some t => add_rebooted t s | None => s end in
      match after_prefix (bytes_of "shutdown") command with
      | Some rest => go rest
      | None => match after_prefix (bytes_of "reboot") command with Some rest => go rest | None => s end
      end
  | _ => s
  end.

Definition do_mount_all (args : list cstr) (s : state) : state :=
  match args with
  | [_; fstab] =>
      let ret := mount_all_status pf fstab in
      if ret =? 1 then
        let s := (property_set (bytes_of "ro.crypto.state") (bytes_of "encrypted") s).2 in
        (property_set (bytes_of "vold.decrypt") (bytes_of "1") s).2
      else if ret =? 0 then
        do_trigger (bytes_of "nonencrypted") (property_set (bytes_of "ro.crypto.state") (bytes_of "unencrypted") s).2
      else s
  | _ => s
  end.

(** The functions do_*: those that change init's own state. *)
Definition exec_keyword (kw : keyword) (args : list cstr) (s : state) : state :=
  match kw with
  | K_class_start => with_arg 1 args (λ a, service_for_each_class a service_start_if_not_disabled) s
  | K_class_stop => with_arg 1 args (λ a, service_for_each_class a service_stop) s
  | K_class_reset => with_arg 1 args (λ a, service_for_each_class a service_reset) s
  | K_start => with_arg 1 args (on_service (λ i, service_start i None)) s
  | K_stop => with_arg 1 args (on_service service_stop) s
  | K_restart => with_arg 1 args (on_service service_restart) s
  | K_trigger => with_arg 1 args do_trigger s
  | K_setprop => with_arg 1 args (λ nm, with_arg 2 args (λ v, do_setprop nm v)) s
  | K_export => with_arg 1 args (λ k, with_arg 2 args (λ v, add_environment k v)) s
  | K_powerctl => with_arg 1 args do_powerctl s
  | K_mount_all => do_mount_all args s
  | K_load_persist_props =>
      if (length args =? 1)%nat then load_persistent_properties (persist_dir pf) s else s
  | _ => s
  end.

Definition exec_cmd (s : state) (cm : command) : state :=
  match func cm with do_keyword kw => exec_keyword kw (cargs cm) s | do_builtin _ => s end.

(** * A child has exited *)

(** What wait_for_one_process does with the service of the child up to its restart: the
    service, whether it stays stopped, and whether the phone reboots. *)
Definition exit_service (now : Z) (sv : service) : service * bool * bool :=
  let sv := set_life (without (flags sv) SVC_RUNNING) 0 (time_started sv) (time_crashed sv) (nr_crashed sv) sv in
  let sv := if has (flags sv) SVC_ONESHOT && negb (has (flags sv) SVC_RESTART)
            then upd_flags (λ fl, Z.lor fl SVC_DISABLED) sv else sv in
  if has (flags sv) (Z.lor SVC_DISABLED SVC_RESET) then (sv, true, false)
  else
    let restart sv := upd_flags (λ fl, Z.lor (without fl SVC_RESTART) SVC_RESTARTING) sv in
    if has (flags sv) SVC_CRITICAL && negb (has (flags sv) SVC_RESTART) then
      if now <=? time_crashed sv + CRITICAL_CRASH_WINDOW then
        let sv := set_life (flags sv) (pid sv) (time_started sv) (time_crashed sv) (nr_crashed sv + 1) sv in
        if CRITICAL_CRASH_THRESHOLD <? nr_crashed sv then (sv, false, true) else (restart sv, false, false)
      else (restart (set_life (flags sv) (pid sv) (time_started sv) now 1 sv), false, false)
    else (restart sv, false, false).

(** wait_for_one_process when waitpid returned the child [p]. *)
Definition wait_for_one_process (p : Z) (s : state) : state :=
  match service_find_by_pid p (icfg s) with
  | None => s
  | Some i =>
      match svc_at i s with
      | None => s
      | Some sv =>
          let s := if negb (has (flags sv) SVC_ONESHOT) || has (flags sv) SVC_RESTART then add_killed p s else s in
          let '(sv', stopped, reboot) := exit_service (clock s) sv in
          let s := upd_svc i (λ _, sv') s in
          if stopped : bool then notify_service_state (name sv) "stopped" s
          else if reboot : bool then add_rebooted (bytes_of "recovery") s
          else notify_service_state (name sv) "restarting" (foldl exec_cmd s (onrestart sv))
      end
  end.

(** handle_signal: the results of waitpid, one after the other, up to one that is no child
    (0: none has exited, -1: there is none). *)
Fixpoint handle_signal (pids : list Z) (s : state) : state :=
  match pids with
  | [] => s
  | p :: pids => if p <=? 0 then s else handle_signal pids (wait_for_one_process p s)
  end.

(** * Init's own actions *)

(** add_service_keycodes for every service: identifiers from 1 on. *)
Fixpoint number_keychords (n : Z) (l : list service) : list service :=
  match l with
  | [] => []
  | sv :: l =>
      match keycodes sv with
      | [] => sv :: number_keychords n l
      | _ => set_keychord n sv :: number_keychords (n + 1) l
      end
  end.

Definition exec_builtin (b : builtin) (s : state) : state :=
  match b with
  | wait_for_coldboot_done | mix_hwrng_into_linux_rng => s
  | keychord_init => set_icfg (set_services (number_keychords 1) (icfg s)) s
  | console_init => if console_opens pf then set_console true s else s
  | property_service_init => start_property_service (files pf) (persist_dir pf) s
  | signal_init => handle_signal (dead_children pf) s
  | check_startup => if negb (property_socket pf) || negb (signal_socket pf) then set_exited s else s
  | queue_property_triggers_action =>
      enable_triggers (set_icfg (queue_all_property_triggers (property_get s) (icfg s)) s)
  end.

#[global] Instance init_commands : Commands state := {|
  config_of := icfg;
  runner_of := irunner;
  with_queue r c s := set_irunner r (set_icfg c s);
  exec cm s := match func cm with do_keyword kw => exec_keyword kw (cargs cm) s | do_builtin b => exec_builtin b s end
|}.

(** * Requests of clients *)

(** handle_control_message *)
Definition msg_start (nm : cstr) (s : state) : state :=
  match split_at 58 nm with
  | None => on_service (λ i, service_start i None) nm s
  | Some (svc, args) => on_service (λ i, service_start i (Some args)) svc s
  end.

Definition handle_control_message (msg arg : cstr) (s : state) : state :=
  if streq msg "start" then msg_start arg s
  else if streq msg "stop" then on_service service_stop arg s
  else if streq msg "restart" then on_service service_restart arg s
  else s.

(** A message PROP_MSG_SETPROP and the credentials of its sender; the name and the value
    are the strings that the two buffers of the message hold. *)
Record request := mkRequest { rq_name : cstr; rq_value : cstr; rq_uid : Z; rq_gid : Z; rq_ctx : option cstr }.

Definition handle_property_set_fd (rq : request) (s : state) : state :=
  let nm := take (PROP_NAME_MAX - 1) (rq_name rq) in
  let value := take (PROP_VALUE_MAX - 1) (rq_value rq) in
  if negb (is_legal_property_name nm) then s
  else
    match after_prefix (bytes_of "ctl.") nm with
    | Some msg =>
        if check_control_perms (selinux_of pf) value (rq_uid rq) (rq_gid rq) (rq_ctx rq)
        then handle_control_message msg value s else s
    | None =>
        if check_perms (selinux_of pf) nm (rq_uid rq) (rq_gid rq) (rq_ctx rq)
        then (property_set nm value s).2 else s
    end.

(** handle_keychord, with the identifier that was read. *)
Definition handle_keychord (id : Z) (s : state) : state :=
  if streq (property_get s (bytes_of "init.svc.adbd")) "running" then
    match service_find_by_keychord id (icfg s) with Some i => service_start i None s | None => s end
  else s.

(** * The main loop *)

(** What happens between two iterations: time passes, and the descriptors that poll
    reports are served. *)
Inductive init_event :=
  | EvTime (t : Z)
  | EvProperty (rq : request)
  | EvKeychord (id : Z)
  | EvSignal (pids : list Z).

Definition handle_event (s : state) (e : init_event) : state :=
  match e with
  | EvTime t => set_clock (Z.max (clock s) t) s
  | EvProperty rq => handle_property_set_fd rq s
  | EvKeychord id => handle_keychord id s
  | EvSignal pids => handle_signal pids s
  end.

(** One iteration of the loop of main, with the events of its poll. *)
Definition iteration (s : state) (evs : list init_event) : state :=
  if exited s then s
  else
    let s := execute_one_command s in
    if exited s then s else foldl handle_event (restart_processes s) evs.

Definition main_loop (s : state) (evss : list (list init_event)) : state := foldl iteration s evss.

(** The time that poll may wait: -1 is without limit. *)
Definition poll_timeout (s : state) : Z :=
  let timeout := if negb (process_needs_restart s =? 0)
    then Z.max 0 ((process_needs_restart s - clock s) * 1000) else -1 in
  if negb (action_queue_empty (icfg s)) || bool_decide (is_Some (cur_action (irunner s))) then 0 else timeout.
End Services.

(** * Properties, actions and the queue under all of this *)

Section Frame.
Context `{PropLimits} `{PropertyAreaOk A} `{AndroidIds} (pf : platform).
Implicit Types s : istate A.

Lemma upd_svc_steps i f s : steps s (upd_svc i f s).
Proof. apply steps_same_area; [done|split; [done|]|done]. exists []. by rewrite app_nil_r. Qed.

(** A change of a field that holds neither properties nor lists. *)
Lemma steps_eq s s' : area s' = area s → icfg s' = icfg s → irunner s' = irunner s → steps s s'.
Proof. intros Ea Ec Er. apply steps_same_area; [done| |done]. rewrite Ec. reflexivity. Qed.

Lemma launch_steps i sv s : steps s (launch pf i sv s).
Proof.
  unfold launch, fork. destruct (forks s) as [|p r]; [apply upd_svc_steps|].
  case_match; [etransitivity; [|apply upd_svc_steps]; by apply steps_eq|].
  transitivity (upd_svc i (λ sv, set_life (Z.lor (flags sv) SVC_RUNNING) p (clock (set_forks r s)) (time_crashed sv) (nr_crashed sv) sv)
    (set_forks r s)); [etransitivity; [|apply upd_svc_steps]; by apply steps_eq|].
  case_match; [apply notify_steps|reflexivity].
Qed.

Lemma service_start_steps i d s : steps s (service_start pf i d s).
Proof.
  unfold service_start. etransitivity; [apply upd_svc_steps|]. cbv zeta.
  repeat case_match; try reflexivity; try apply upd_svc_steps. apply launch_steps.
Qed.

Lemma stop_or_reset_steps i how s : steps s (service_stop_or_reset i how s).
Proof.
  unfold service_stop_or_reset. etransitivity; [apply (upd_svc_steps i (upd_flags (stop_flags how)))|]. cbv zeta.
  generalize (upd_svc i (upd_flags (stop_flags how)) s). intros s1. destruct (svc_at i s1); [|reflexivity]. case_match; [|apply notify_steps]. etransitivity; [|apply notify_steps]. by apply steps_eq.
Qed.

Lemma service_restart_steps i s : steps s (service_restart pf i s).
Proof. unfold service_restart. repeat case_match; try reflexivity; [apply stop_or_reset_steps|apply service_start_steps]. Qed.

Lemma for_each_if_steps f act s : (∀ i s, steps s (act i s)) → steps s (service_for_each_if f act s).
Proof. intros Ha. apply foldl_steps. intros s' i. repeat case_match; try reflexivity. apply Ha. Qed.

Lemma restart_processes_steps s : steps s (restart_processes pf s).
Proof.
  unfold restart_processes. transitivity (set_needs_restart 0 s); [by apply steps_eq|]. apply for_each_if_steps.
  intros i s'. unfold restart_service_if_needed. case_match; [|reflexivity]. case_match.
  - etransitivity; [apply upd_svc_steps|apply service_start_steps].
  - case_match; [by apply steps_eq|reflexivity].
Qed.

Lemma on_service_steps act nm s : (∀ i s, steps s (act i s)) → steps s (on_service act nm s).
Proof. intros Ha. unfold on_service. case_match; [apply Ha|reflexivity]. Qed.

Lemma with_arg_steps k args f s : (∀ a s, steps s (f a s)) → steps s (with_arg k args f s).
Proof. intros Hf. unfold with_arg. case_match; [apply Hf|reflexivity]. Qed.

Lemma do_trigger_steps a s : steps s (do_trigger a s).
Proof. apply steps_same_area; [done|apply queue_matching_grows|done]. Qed.

Lemma exec_keyword_steps kw args s : steps s (exec_keyword pf kw args s).
Proof.
  destruct kw; cbn [exec_keyword]; try reflexivity; try (apply with_arg_steps; intros a s').
  - apply for_each_if_steps. intros i s1. unfold service_start_if_not_disabled. repeat case_match; try reflexivity. apply service_start_steps.
  - apply for_each_if_steps. intros. apply stop_or_reset_steps.
  - apply for_each_if_steps. intros. apply stop_or_reset_steps.
  - apply with_arg_steps. intros v s1. unfold add_environment. case_match; [by apply steps_eq|reflexivity].
  - unfold do_mount_all. repeat case_match; try reflexivity.
    + etransitivity; apply property_set_steps.
    + etransitivity; [|apply do_trigger_steps]. apply property_set_steps.
  - unfold do_powerctl. repeat case_match; try reflexivity; by apply steps_eq.
  - apply on_service_steps. intros. apply service_restart_steps.
  - apply with_arg_steps. intros v s1. unfold do_setprop. repeat case_match; try reflexivity. apply property_set_steps.
  - apply on_service_steps. intros. apply service_start_steps.
  - apply on_service_steps. intros. apply stop_or_reset_steps.
  - apply do_trigger_steps.
  - case_match; [apply load_persistent_steps|reflexivity].
Qed.

Lemma wait_steps p s : steps s (wait_for_one_process pf p s).
Proof.
  unfold wait_for_one_process. destruct (service_find_by_pid p (icfg s)) as [n|]; [|reflexivity].
  destruct (svc_at n s) as [sv|]; [|reflexivity]. cbv zeta.
  set (s1 := if negb (has (flags sv) SVC_ONESHOT) || has (flags sv) SVC_RESTART then add_killed p s else s).
  transitivity s1; [subst s1; case_match; [by apply steps_eq|reflexivity]|]. clearbody s1.
  destruct (exit_service (clock s1) sv) as [[sv' stopped] reboot].
  etransitivity; [apply (upd_svc_steps n (λ _, sv'))|]. generalize (upd_svc n (λ _, sv') s1). intros s2.
  destruct stopped; [apply notify_steps|]. destruct reboot; [by apply steps_eq|].
  etransitivity; [|apply notify_steps]. apply foldl_steps. intros s3 cm. unfold exec_cmd.
  case_match; [apply exec_keyword_steps|reflexivity].
Qed.

Lemma handle_signal_steps pids s : steps s (handle_signal pf pids s).
Proof.
  revert s. induction pids as [|p pids IH]; intros s; cbn; [reflexivity|]. case_match; [reflexivity|].
  etransitivity; [apply wait_steps|apply IH].
Qed.

Lemma exec_steps cm s : steps s (exec (Commands := init_commands pf) cm s).
Proof.
  cbn. destruct (func cm) as [kw|b]; [apply exec_keyword_steps|]. destruct b; cbn [exec_builtin]; try reflexivity.
  - apply steps_same_area; [done| |done]. split; [done|]. exists []. by rewrite app_nil_r.
  - case_match; [by apply steps_eq|reflexivity].
  - apply start_property_service_steps.
  - apply handle_signal_steps.
  - case_match; [by apply steps_eq|reflexivity].
  - etransitivity; [|by apply steps_eq]. apply steps_same_area; [done|apply queue_matching_grows|done].
Qed.

Lemma event_steps s e : steps s (handle_event pf s e).
Proof.
  destruct e as [t|rq|id|pids]; cbn [handle_event]; [by apply steps_eq| | |apply handle_signal_steps].
  - unfold handle_property_set_fd, handle_control_message, msg_start. cbv zeta.
    repeat case_match; try reflexivity; try apply property_set_steps; apply on_service_steps; intros;
      auto using service_start_steps, stop_or_reset_steps, service_restart_steps.
    by apply stop_or_reset_steps.
  - unfold handle_keychord. repeat case_match; try reflexivity. apply service_start_steps.
Qed.

#[global] Instance init_commands_ok : CommandsOk (istate A) (H := init_commands pf).
Proof. split; [done..| |]; intros cm s; apply (exec_steps cm s). Qed.
End Frame.

(** * What the main loop guarantees *)

Section Guarantees.
Context `{PropLimits} `{PropertyAreaOk A} `{AndroidIds} (pf : platform).
Implicit Types s : istate A.

(** The properties, from one area to a later one. *)
Definition areas (a a' : A) : Prop :=
  (∀ n v, ro_name n → __system_property_find a n = Some v → __system_property_find a' n = Some v) ∧
  (∀ n, __system_property_find a n ≠ None → __system_property_find a' n ≠ None) ∧
  (area_ok a → area_ok a').

#[local] Instance areas_preorder : PreOrder areas.
Proof. split; [by intros a|]. intros a1 a2 a3 (? & ? & ?) (? & ? & ?). split_and!; auto. Qed.

Lemma steps_areas s s' : steps s s' → areas (area s) (area s').
Proof. by intros []. Qed.

Lemma execute_areas s : areas (area s) (area (execute_one_command (H := init_commands pf) s)).
Proof.
  unfold execute_one_command. destruct (next_command _ _) as [r c]. destruct (current r c) as [cm|]; [|reflexivity].
  exact (steps_areas _ _ (exec_steps pf cm (set_irunner r (set_icfg c s)))).
Qed.

Lemma events_steps evs s : steps s (foldl (handle_event pf) s evs).
Proof. apply foldl_steps. intros. apply event_steps. Qed.

Lemma iteration_areas s evs : areas (area s) (area (iteration pf s evs)).
Proof.
  unfold iteration. destruct (exited s); [reflexivity|]. cbv zeta. etransitivity; [apply execute_areas|].
  destruct (exited _); [reflexivity|]. apply steps_areas. etransitivity; [apply restart_processes_steps|apply events_steps].
Qed.

(** C6: Whatever commands, clients and exiting services init serves, for however long: a
    property whose name begins with ro. never changes its value once it is set, no
    property disappears, and names stay legal and values within their limit. *)
Theorem ro_properties_fixed s (evss : list (list init_event)) :
  (∀ n v, ro_name n → __system_property_find (area s) n = Some v →
     __system_property_find (area (main_loop pf s evss)) n = Some v) ∧
  (∀ n, __system_property_find (area s) n ≠ None → __system_property_find (area (main_loop pf s evss)) n ≠ None) ∧
  (area_ok (area s) → area_ok (area (main_loop pf s evss))).
Proof.
  change (areas (area s) (area (main_loop pf s evss))). unfold main_loop. revert s.
  induction evss as [|evs evss IH]; intros s; [reflexivity|]. cbn. etransitivity; [apply iteration_areas|apply IH].
Qed.

(** C10: Commands run in order: over any number of calls of execute_one_command, with
    services restarted and clients served in between, the commands that were run and
    those still due are, together, the commands that were due at first followed by what
    was queued since.  No command is skipped, repeated or overtaken. *)
Theorem commands_in_order s (n : nat) (evs : nat → list init_event) :
  runner_ok (irunner s) (icfg s) →
  let (cs, s') := execute_many (H := init_commands pf) (λ k s, foldl (handle_event pf) (restart_processes pf s) (evs k)) n s in
  ∃ new, cs ++ due (irunner s') (icfg s') = due (irunner s) (icfg s) ++ new.
Proof.
  intros Hok. apply (execute_many_due (H := init_commands pf)
    (λ k s, foldl (handle_event pf) (restart_processes pf s) (evs k)) n s); [|done].
  intros k y. assert (steps y (foldl (handle_event pf) (restart_processes pf y) (evs k))) as [].
  { etransitivity; [apply restart_processes_steps|apply events_steps]. }
  done.
Qed.

(** ** Clients *)

Definition from_ordinary (e : init_event) : Prop :=
  match e with EvProperty rq => ordinary (rq_uid rq) (rq_gid rq) | _ => False end.

#[global] Instance from_ordinary_dec e : Decision (from_ordinary e).
Proof. unfold from_ordinary, ordinary, known_uid, known_gid. destruct e; apply _. Defined.

Lemma ordinary_request rq s : ordinary (rq_uid rq) (rq_gid rq) → handle_property_set_fd pf rq s = s.
Proof.
  intros Ho. unfold handle_property_set_fd. cbv zeta. case_match; [done|].
  destruct (after_prefix _ _) as [msg|].
  - by rewrite (proj2 (ordinary_refused (selinux_of pf) _ _ Ho _ _)).
  - by rewrite (proj1 (ordinary_refused (selinux_of pf) _ _ Ho _ _)).
Qed.

(** C9: A client whose user is not root's and who is not one of the users and groups of the
    tables (its group may be root's: 0 in the tables stands for no group) has
    no influence: the run of init is the same, step for step, as the one in which its
    requests never arrive, whatever it asks for and whatever SELinux would say. *)
Theorem ordinary_clients_powerless s (evss : list (list init_event)) :
  main_loop pf s evss = main_loop pf s ((λ evs, filter (λ e, ¬ from_ordinary e) evs) <$> evss).
Proof.
  unfold main_loop. revert s. induction evss as [|evs evss IH]; intros s; [done|]. cbn. rewrite IH. f_equal.
  unfold iteration. destruct (exited s); [done|]. cbv zeta. destruct (exited _); [done|].
  generalize (restart_processes pf (execute_one_command (H := init_commands pf) s)). clear IH s. induction evs as [|e evs IH]; intros s; [done|].
  destruct (decide (from_ordinary e)) as [Ho|Ho].
  - rewrite filter_cons_False by auto. cbn [foldl]. rewrite IH. f_equal. destruct e as [|rq| |]; try done.
    cbn. by rewrite ordinary_request.
  - rewrite filter_cons_True by done. cbn [foldl]. apply IH.
Qed.
End Guarantees.
