(* ===== verification/InitLife.v ===== *)
(** The life cycle of the services of Android init: in every state that init reaches, the
    flags of a service and its process agree, and a service that waits to be restarted
    does not wait for longer than the code intends. *)
From Stdlib Require Import ZArith.
From stdpp Require Import base numbers list strings sets gmap.
From S2P Require Import Prelude Bytes InitLexer InitConfig InitActions InitProps InitServices.

(** * Flags *)

Lemma has_bit fl p : 0 ≤ p → has fl (2 ^ p) = Z.testbit fl p.
Proof.
  intros Hp. unfold has. destruct (Z.testbit fl p) eqn:E.
  - destruct (Z.eqb_spec (Z.land fl (2 ^ p)) 0) as [E0|]; [|done]. exfalso.
    assert (Z.testbit (Z.land fl (2 ^ p)) p = true) as Ht by (rewrite Z.land_spec, E, Z.pow2_bits_true; done).
    by rewrite E0, Z.bits_0 in Ht.
  - assert (Z.land fl (2 ^ p) = 0) as ->; [|done]. apply Z.bits_inj'. intros k Hk. rewrite Z.land_spec, Z.bits_0.
    destruct (decide (k = p)) as [->|Hne]; [by rewrite E|]. by rewrite Z.pow2_bits_false, andb_false_r.
Qed.

Lemma has_or fl m1 m2 : has fl (Z.lor m1 m2) = has fl m1 || has fl m2.
Proof.
  unfold has. rewrite Z.land_lor_distr_r. destruct (Z.eqb_spec (Z.land fl m1) 0) as [->|H1]; [by rewrite Z.lor_0_l|].
  cbn. destruct (Z.eqb_spec (Z.lor (Z.land fl m1) (Z.land fl m2)) 0) as [E|]; [|done]. by apply Z.lor_eq_0_iff in E as [? _].
Qed.

Lemma has_lor f g m : has (Z.lor f g) m = has f m || has g m.
Proof.
  unfold has. rewrite Z.land_lor_distr_l. destruct (Z.eqb_spec (Z.land f m) 0) as [->|H1]; [by rewrite Z.lor_0_l|].
  cbn. destruct (Z.eqb_spec (Z.lor (Z.land f m) (Z.land g m)) 0) as [E|]; [|done]. by apply Z.lor_eq_0_iff in E as [? _].
Qed.

Lemma has_without fl k p : 0 ≤ p → has (without fl k) (2 ^ p) = has fl (2 ^ p) && negb (has k (2 ^ p)).
Proof. intros Hp. rewrite !has_bit by done. unfold without. by rewrite Z.land_spec, Z.lnot_spec. Qed.

(** Each flag is one bit. *)
Lemma has_without_flag fl k m :
  m ∈ [SVC_DISABLED; SVC_ONESHOT; SVC_RUNNING; SVC_RESTARTING; SVC_CONSOLE; SVC_CRITICAL; SVC_RESET; SVC_RC_DISABLED; SVC_RESTART] →
  has (without fl k) m = has fl m && negb (has k m).
Proof.
  intros Hm. repeat (apply elem_of_cons in Hm as [->|Hm];
    [first [exact (has_without fl k 0 ltac:(lia)) | exact (has_without fl k 1 ltac:(lia)) | exact (has_without fl k 2 ltac:(lia))
      | exact (has_without fl k 3 ltac:(lia)) | exact (has_without fl k 4 ltac:(lia)) | exact (has_without fl k 5 ltac:(lia))
      | exact (has_without fl k 6 ltac:(lia)) | exact (has_without fl k 7 ltac:(lia)) | exact (has_without fl k 8 ltac:(lia))]|]).
  by apply not_elem_of_nil in Hm.
Qed.

(** Flag arithmetic: what the operations leave of each flag. *)
Ltac flags :=
  repeat first
    [ rewrite has_lor | rewrite has_or
    | rewrite has_without_flag by (repeat (first [left; reflexivity | right])) ];
  change (has SVC_DISABLED SVC_RUNNING) with false; change (has SVC_DISABLED SVC_RESTARTING) with false;
  change (has SVC_RESET SVC_RUNNING) with false; change (has SVC_RESET SVC_RESTARTING) with false;
  change (has SVC_RESTART SVC_RUNNING) with false; change (has SVC_RESTART SVC_RESTARTING) with false;
  change (has SVC_RUNNING SVC_RUNNING) with true; change (has SVC_RUNNING SVC_RESTARTING) with false;
  change (has SVC_RESTARTING SVC_RESTARTING) with true; change (has SVC_RESTARTING SVC_RUNNING) with false;
  change (has SVC_RESTARTING SVC_DISABLED) with false; change (has SVC_RESTARTING SVC_RESET) with false;
  change (has SVC_RESTARTING SVC_RESTART) with false; change (has SVC_RESTART SVC_RESTART) with true;
  change (has SVC_RESTART SVC_DISABLED) with false; change (has SVC_RESTART SVC_RESET) with false;
  cbn [orb andb negb]; rewrite ?orb_false_r, ?orb_true_r, ?andb_true_r, ?andb_false_r.

(** * The flags of a service and its process *)

Record life_ok (sv : service) : Prop := {
  lo_run : has (flags sv) SVC_RUNNING = negb (pid sv =? 0);
  lo_wait : has (flags sv) SVC_RESTARTING = true →
    has (flags sv) SVC_RUNNING = false ∧ has (flags sv) SVC_DISABLED = false ∧ has (flags sv) SVC_RESET = false ∧
    has (flags sv) SVC_RESTART = false
}.

(** A service of a parsed configuration. *)
Lemma svc_wf_life sv : svc_wf sv → life_ok sv.
Proof.
  intros [_ _ _ _ _ [Hf Hp]]. assert (has (flags sv) (Z.lor SVC_RUNNING SVC_RESTARTING) = false) as Hh by (unfold has; by rewrite Hf).
  rewrite has_or in Hh. apply orb_false_iff in Hh as [H1 H2]. split; [by rewrite H1, Hp|]. by rewrite H2.
Qed.

Lemma start_service_life sv : life_ok sv → life_ok (start_service sv).
Proof.
  intros [Hr Hw]. split; cbn [start_service set_life flags pid].
  - flags. done.
  - flags. done.
Qed.

Lemma start_service_flags sv :
  has (flags (start_service sv)) SVC_RUNNING = has (flags sv) SVC_RUNNING ∧
  has (flags (start_service sv)) SVC_RESTARTING = false.
Proof. split; cbn [start_service set_life flags]; flags; done. Qed.

Lemma add_flag_life m sv :
  life_ok sv → has m SVC_RUNNING = false → has m SVC_RESTARTING = false → has (flags sv) SVC_RESTARTING = false →
  life_ok (upd_flags (λ fl, Z.lor fl m) sv).
Proof.
  intros [Hr Hw] H1 H2 H3. split; cbn [upd_flags set_flags flags pid].
  - by rewrite has_lor, H1, orb_false_r.
  - by rewrite has_lor, H2, H3.
Qed.

Lemma stop_flags_life how sv : life_ok sv → life_ok (upd_flags (stop_flags how) sv).
Proof.
  intros [Hr Hw].
  assert (has (stop_flags how (flags sv)) SVC_RUNNING = has (flags sv) SVC_RUNNING ∧
    has (stop_flags how (flags sv)) SVC_RESTARTING = false) as [E1 E2].
  { unfold stop_flags. cbv zeta.
    match goal with |- context [if ?b then SVC_DISABLED else how] => set (h := if b then SVC_DISABLED else how) end.
    assert (h = SVC_DISABLED ∨ h = SVC_RESET ∨ h = SVC_RESTART) as Hh.
    { subst h. destruct (Z.eqb_spec how SVC_DISABLED) as [->|]; [auto|]. destruct (Z.eqb_spec how SVC_RESET) as [->|]; [auto|].
      destruct (Z.eqb_spec how SVC_RESTART) as [->|]; auto. }
    clearbody h. destruct (Z.eqb_spec h SVC_RESET) as [->|Hne].
    - destruct (has (without (flags sv) SVC_RESTARTING) SVC_RC_DISABLED); split; flags; done.
    - destruct Hh as [->|[->| ->]]; [split; flags; done|done|split; flags; done]. }
  split; cbn [upd_flags set_flags flags pid]; [by rewrite E1|by rewrite E2].
Qed.

Lemma exit_service_life now sv : life_ok sv → pid sv ≠ 0 → life_ok (exit_service now sv).1.1.
Proof.
  intros [Hr Hw] Hpid. assert (has (flags sv) SVC_RESTARTING = false) as HR.
  { destruct (has (flags sv) SVC_RESTARTING); [|done]. destruct (Hw eq_refl) as [E _]. rewrite E in Hr.
    by rewrite (proj2 (Z.eqb_neq _ _) Hpid) in Hr. }
  clear Hr Hw Hpid. unfold exit_service. cbv zeta.
  set (sv1 := set_life (without (flags sv) SVC_RUNNING) 0 (time_started sv) (time_crashed sv) (nr_crashed sv) sv).
  assert (has (flags sv1) SVC_RUNNING = false ∧ has (flags sv1) SVC_RESTARTING = false ∧ pid sv1 = 0) as (R1 & W1 & P1).
  { split_and!; [..|done]; subst sv1; cbn [set_life flags]; flags; [done|by rewrite HR]. }
  clearbody sv1. clear HR.
  set (sv2 := if _ && _ then _ else sv1).
  assert (has (flags sv2) SVC_RUNNING = false ∧ has (flags sv2) SVC_RESTARTING = false ∧ pid sv2 = 0) as (R2 & W2 & P2).
  { subst sv2. destruct (_ && _); [|done]. cbn [upd_flags set_flags flags pid]. flags. done. }
  clearbody sv2. rewrite has_or.
  assert (life_ok sv2) as H2 by (split; [by rewrite R2, P2|by rewrite W2]).
  destruct (has (flags sv2) SVC_DISABLED) eqn:D2; [done|]. destruct (has (flags sv2) SVC_RESET) eqn:T2; [done|]. cbn [orb].
  assert (∀ sv3, flags sv3 = flags sv2 → pid sv3 = 0 →
    life_ok (upd_flags (λ fl, Z.lor (without fl SVC_RESTART) SVC_RESTARTING) sv3)) as Hrest.
  { intros sv3 F3 P3. split; cbn [upd_flags set_flags flags pid]; rewrite F3; flags; [by rewrite R2, P3|].
    intros _. by rewrite R2, D2, T2. }
  repeat case_match; cbn [fst]; try (by apply Hrest). split; cbn [set_life flags pid]; [by rewrite R2, P2|by rewrite W2].
Qed.

(** * Every step keeps it *)

Section Life.
Context `{PropLimits} `{PropertyArea A} `{AndroidIds} (pf : platform).
Implicit Types s : istate A.

Definition life_inv s : Prop :=
  Forall life_ok (service_list (icfg s)) ∧ Forall (λ p, p ≠ 0) (forks s).

Lemma quiet_inv s s' : quiet s s' → life_inv s → life_inv s'.
Proof. intros [E1 E2 _ _ _] [HA HB]. unfold life_inv. by rewrite E1, E2. Qed.

(** The same services and forks. *)
Lemma same_inv s s' : icfg s' = icfg s → forks s' = forks s → life_inv s → life_inv s'.
Proof. intros E1 E2. unfold life_inv. by rewrite E1, E2. Qed.

Lemma upd_svc_inv i f s :
  (∀ sv, svc_at i s = Some sv → life_ok sv → life_ok (f sv)) → life_inv s → life_inv (upd_svc i f s).
Proof. intros Hf [HA HB]. split; [|done]. cbn. apply Forall_alter; [done|]. intros sv Hi Hsv. by apply Hf. Qed.

Lemma svc_at_upd i f s : svc_at i (upd_svc i f s) = f <$> svc_at i s.
Proof. unfold svc_at, upd_svc. cbn. apply list_lookup_alter_eq. Qed.

Lemma disable_inv i s sv :
  svc_at i s = Some sv → has (flags sv) SVC_RESTARTING = false → life_inv s → life_inv (disable i s).
Proof.
  intros Hi Hw. apply upd_svc_inv. intros sv' Hi' Hl. rewrite Hi in Hi'. injection Hi' as <-. by apply add_flag_life.
Qed.

Lemma launch_inv i sv s :
  svc_at i s = Some sv → has (flags sv) SVC_RUNNING = false → has (flags sv) SVC_RESTARTING = false →
  life_inv s → life_inv (launch pf i sv s).
Proof.
  intros Hi Hr Hw Hs. unfold launch, fork. destruct (forks s) as [|p r] eqn:Ef.
  { apply upd_svc_inv; [|done]. intros sv' Hi' _. rewrite Hi in Hi'. injection Hi' as <-.
    split; cbn [set_life flags pid]; [done|by rewrite Hw]. }
  assert (life_inv (set_forks r s)) as Hs1.
  { destruct Hs as [HA HB]. split; [done|]. rewrite Ef in HB. by apply Forall_cons in HB as [_ ?]. }
  assert (p ≠ 0) as Hp. { destruct Hs as [_ HB]. rewrite Ef in HB. by apply Forall_cons in HB as [? _]. }
  destruct (p <? 0).
  { apply upd_svc_inv; [|done]. intros sv' Hi' _. change (svc_at i s = Some sv') in Hi'. rewrite Hi in Hi'. injection Hi' as <-.
    split; cbn [set_life flags pid]; [done|by rewrite Hw]. }
  match goal with |- context [upd_svc i ?f (set_forks r s)] => assert (life_inv (upd_svc i f (set_forks r s))) as Hu end.
  { apply upd_svc_inv; [|done]. intros sv' Hi' _. change (svc_at i s = Some sv') in Hi'. rewrite Hi in Hi'. injection Hi' as <-.
    split; cbn [set_life flags pid].
    - rewrite has_lor, Hr. by rewrite (proj2 (Z.eqb_neq _ _) Hp).
    - rewrite has_lor, Hw. done. }
  destruct (properties_inited pf); [|done]. by eapply quiet_inv; [apply notify_quiet|].
Qed.

Lemma service_start_inv i d s : life_inv s → life_inv (service_start pf i d s).
Proof.
  intros Hs. unfold service_start. cbv zeta.
  assert (life_inv (upd_svc i start_service s)) as Hu by (apply upd_svc_inv; [intros ? _; apply start_service_life|done]).
  destruct (svc_at i (upd_svc i start_service s)) as [sv|] eqn:Hi; [|done].
  assert (has (flags sv) SVC_RESTARTING = false) as Hw.
  { rewrite svc_at_upd in Hi. destruct (svc_at i s) as [sv0|]; [|done]. injection Hi as <-. apply start_service_flags. }
  destruct (has (flags sv) SVC_RUNNING) eqn:Hr; [done|].
  destruct (_ && _); [by eapply disable_inv|]. destruct (negb _); [by eapply disable_inv|].
  destruct (_ && _); [by eapply disable_inv|]. destruct (_ && _); [done|]. by apply launch_inv.
Qed.

Lemma stop_or_reset_inv i how s : life_inv s → life_inv (service_stop_or_reset i how s).
Proof.
  intros Hs. unfold service_stop_or_reset. cbv zeta.
  assert (life_inv (upd_svc i (upd_flags (stop_flags how)) s)) as Hu.
  { apply upd_svc_inv; [|done]. intros sv _. apply stop_flags_life. }
  destruct (svc_at i _) as [sv|]; [|done]. destruct (negb _).
  - eapply quiet_inv; [apply notify_quiet|]. by eapply same_inv; [..|exact Hu].
  - by eapply quiet_inv; [apply notify_quiet|].
Qed.

Lemma service_restart_inv i s : life_inv s → life_inv (service_restart pf i s).
Proof.
  intros Hs. unfold service_restart. repeat case_match; try done; [by apply stop_or_reset_inv|by apply service_start_inv].
Qed.

Lemma foldl_inv {X} (f : istate A → X → istate A) l s :
  (∀ s x, life_inv s → life_inv (f s x)) → life_inv s → life_inv (foldl f s l).
Proof. intros Hf. revert s. induction l as [|x l IH]; intros s Hs; [done|]. cbn. by apply IH, Hf. Qed.

Lemma for_each_if_inv f act s :
  (∀ i s, life_inv s → life_inv (act i s)) → life_inv s → life_inv (service_for_each_if f act s).
Proof. intros Ha. apply foldl_inv. intros s' i Hs'. repeat case_match; try done. by apply Ha. Qed.

Lemma restart_processes_inv s : life_inv s → life_inv (restart_processes pf s).
Proof.
  intros Hs. unfold restart_processes. apply for_each_if_inv; [|by eapply same_inv; [..|exact Hs]].
  intros i s' Hs'. unfold restart_service_if_needed. destruct (svc_at i s') as [sv|] eqn:Hi; [|done].
  case_match; [|case_match; [by eapply same_inv; [..|exact Hs']|done]]. apply service_start_inv.
  apply upd_svc_inv; [|done]. intros sv' _ [Hr Hw]. split; cbn [upd_flags set_flags flags pid]; flags; done.
Qed.

Lemma on_service_inv act nm s :
  (∀ i s, life_inv s → life_inv (act i s)) → life_inv s → life_inv (on_service act nm s).
Proof. intros Ha Hs. unfold on_service. case_match; [by apply Ha|done]. Qed.

Lemma with_arg_inv k args (f : cstr → istate A → istate A) s :
  (∀ a s, life_inv s → life_inv (f a s)) → life_inv s → life_inv (with_arg k args f s).
Proof. intros Hf Hs. unfold with_arg. case_match; [by apply Hf|done]. Qed.

Lemma do_trigger_inv a s : life_inv s → life_inv (do_trigger a s).
Proof. apply quiet_inv. split; try done. apply queue_matching_services. Qed.

Lemma property_set_inv nm v s : life_inv s → life_inv (property_set nm v s).2.
Proof. apply quiet_inv, property_set_quiet. Qed.

Lemma exec_keyword_inv kw args s : life_inv s → life_inv (exec_keyword pf kw args s).
Proof.
  intros Hs. destruct kw; cbn [exec_keyword]; try done; try (apply with_arg_inv; [intros a s' Hs'|done]).
  - apply for_each_if_inv; [|done]. intros i s1 Hs1. unfold service_start_if_not_disabled. repeat case_match; try done.
    by apply service_start_inv.
  - apply for_each_if_inv; [|done]. intros. by apply stop_or_reset_inv.
  - apply for_each_if_inv; [|done]. intros. by apply stop_or_reset_inv.
  - apply with_arg_inv; [|done]. intros v s1 Hs1. unfold add_environment. case_match; [by eapply same_inv; [..|exact Hs1]|done].
  - unfold do_mount_all. repeat case_match; try done; [by do 2 apply property_set_inv|by apply do_trigger_inv, property_set_inv].
  - unfold do_powerctl. repeat case_match; try done; by eapply same_inv; [..|exact Hs'].
  - apply on_service_inv; [|done]. intros. by apply service_restart_inv.
  - apply with_arg_inv; [|done]. intros v s1 Hs1. unfold do_setprop. repeat case_match; try done. by apply property_set_inv.
  - apply on_service_inv; [|done]. intros. by apply service_start_inv.
  - apply on_service_inv; [|done]. intros. by apply stop_or_reset_inv.
  - by apply do_trigger_inv.
  - case_match; [by eapply quiet_inv; [apply load_persistent_quiet|]|done].
Qed.

Lemma wait_inv p s : p ≠ 0 → life_inv s → life_inv (wait_for_one_process pf p s).
Proof.
  intros Hp Hs. unfold wait_for_one_process. destruct (service_find_by_pid p (icfg s)) as [n|] eqn:Hf; [|done].
  destruct (svc_at n s) as [sv|] eqn:Hn; [|done]. cbv zeta.
  assert (pid sv = p) as Hpid.
  { unfold service_find_by_pid in Hf. destruct (list_find _ _) as [[m sv']|] eqn:E; [|done]. injection Hf as ->.
    apply list_find_Some in E as (E & Hq & _). unfold svc_at in Hn. congruence. }
  set (s1 := if negb (has (flags sv) SVC_ONESHOT) || has (flags sv) SVC_RESTART then add_killed p s else s).
  assert (life_inv s1) as Hs1 by (subst s1; case_match; [by eapply same_inv; [..|exact Hs]|done]).
  assert (svc_at n s1 = Some sv) as Hn1 by (subst s1; by case_match). clearbody s1.
  pose proof (exit_service_life (clock s1) sv) as Hex. destruct (exit_service (clock s1) sv) as [[sv' stopped] reboot]. cbn in Hex.
  assert (life_inv (upd_svc n (λ _, sv') s1)) as Hs2.
  { apply upd_svc_inv; [|done]. intros sv2 E Hl. rewrite Hn1 in E. injection E as <-. apply Hex; [done|congruence]. }
  revert Hs2. generalize (upd_svc n (λ _, sv') s1). intros s2 Hs2. clear -Hs2.
  destruct stopped; [by eapply quiet_inv; [apply notify_quiet|]|]. destruct reboot; [by eapply same_inv; [..|exact Hs2]|].
  eapply quiet_inv; [apply notify_quiet|]. apply foldl_inv; [|done]. intros s3 cm Hs3. unfold exec_cmd.
  case_match; [by apply exec_keyword_inv|done].
Qed.

Lemma handle_signal_inv pids s : life_inv s → life_inv (handle_signal pf pids s).
Proof.
  revert s. induction pids as [|p pids IH]; intros s Hs; cbn; [done|]. destruct (Z.leb_spec p 0); [done|].
  apply IH, wait_inv; [lia|done].
Qed.

Lemma number_keychords_life n l : Forall life_ok l → Forall life_ok (number_keychords n l).
Proof.
  intros Hl. revert n. induction Hl as [|sv l [] Hl IH]; intros n; cbn; [constructor|].
  case_match; constructor; auto; by split.
Qed.

Lemma exec_inv cm s : life_inv s → life_inv (exec (Commands := init_commands pf) cm s).
Proof.
  intros Hs. cbn. destruct (func cm) as [kw|b]; [by apply exec_keyword_inv|]. destruct b; cbn [exec_builtin]; try done.
  - destruct Hs as [HA HB]. split; [|done]. by apply number_keychords_life.
  - case_match; [by eapply same_inv; [..|exact Hs]|done].
  - by eapply quiet_inv; [apply start_property_service_quiet|].
  - by apply handle_signal_inv.
  - case_match; [by eapply same_inv; [..|exact Hs]|done].
  - eapply quiet_inv; [|exact Hs]. split; try done. apply queue_matching_services.
Qed.

Lemma event_inv s e : life_inv s → life_inv (handle_event pf s e).
Proof.
  intros Hs. destruct e as [t|rq|id|pids]; cbn [handle_event];
    [by eapply same_inv; [..|exact Hs]| | |by apply handle_signal_inv].
  - unfold handle_property_set_fd, handle_control_message, msg_start. cbv zeta.
    repeat case_match; try done; try (by apply property_set_inv); (apply on_service_inv; [|done]); intros;
      auto using service_start_inv, stop_or_reset_inv, service_restart_inv.
    by apply stop_or_reset_inv.
  - unfold handle_keychord. repeat case_match; try done. by apply service_start_inv.
Qed.

Lemma next_command_services r c : service_list (next_command r c).2 = service_list c.
Proof. unfold next_command, action_remove_queue_head. by repeat case_match; simplify_eq. Qed.

Lemma execute_inv s : life_inv s → life_inv (execute_one_command (H := init_commands pf) s).
Proof.
  intros Hs. unfold execute_one_command. pose proof (next_command_services (irunner s) (icfg s)) as Hc. cbn in Hc |- *.
  destruct (next_command (irunner s) (icfg s)) as [r c]. cbn in Hc.
  assert (life_inv (set_irunner r (set_icfg c s))) as Hs1 by (destruct Hs; split; cbn; by rewrite ?Hc).
  destruct (current r c) as [cm|]; [|done]. by apply exec_inv.
Qed.

Lemma iteration_inv s evs : life_inv s → life_inv (iteration pf s evs).
Proof.
  intros Hs. unfold iteration. destruct (exited s); [done|]. cbv zeta. apply execute_inv in Hs. destruct (exited _); [done|].
  apply foldl_inv; [intros; by apply event_inv|]. by apply restart_processes_inv.
Qed.

Lemma main_loop_inv evss s : life_inv s → life_inv (main_loop pf s evss).
Proof.
  unfold main_loop. revert s. induction evss as [|evs evss IH]; intros s Hs; [done|]. cbn. by apply IH, iteration_inv.
Qed.

Lemma services_inv s : Forall svc_wf (service_list (icfg s)) → Forall (λ p, p ≠ 0) (forks s) → life_inv s.
Proof. intros Hc Hf. split; [apply (Forall_impl _ _ _ Hc), svc_wf_life|done]. Qed.

(** C4: The flags of the services tell the truth.  Started with the services of a parsed
    configuration, in every state of the main loop, whatever commands, exits and requests it has served:
    a service has the flag RUNNING exactly when init holds a process of it, and a service
    that waits to be restarted is not running, not disabled, not reset and not marked for
    a manual restart. *)
Theorem services_consistent (evss : list (list init_event)) s :
  Forall svc_wf (service_list (icfg s)) → Forall (λ p, p ≠ 0) (forks s) →
  Forall life_ok (service_list (icfg (main_loop pf s evss))).
Proof.
  intros Hc Hf. enough (life_inv (main_loop pf s evss)) as [? _] by done.
  by apply main_loop_inv, services_inv.
Qed.
End Life.

(** * Waiting services are restarted *)

Section Restart.
Context `{PropLimits} `{PropertyArea A} `{AndroidIds} (pf : platform).
Implicit Types s : istate A.

(** A step that concerns service [i] only: the others, the clock and the console stay, and
    at most one process is created. *)
Record touches (i : nat) (s s' : istate A) : Prop := {
  to_others : ∀ j, j ≠ i → svc_at j s' = svc_at j s;
  to_clock : clock s' = clock s;
  to_console : have_console s' = have_console s;
  to_forks : ∃ k, (k ≤ 1)%nat ∧ forks s' = drop k (forks s)
}.

Lemma svc_at_quiet i s s' : quiet s s' → svc_at i s' = svc_at i s.
Proof. intros Hq. unfold svc_at. by rewrite (q_services _ _ Hq). Qed.

Lemma touches_quiet i s s1 s' : touches i s s1 → quiet s1 s' → touches i s s'.
Proof.
  intros [T1 T2 T3 (k & Hk & T4)] [Q1 Q2 Q3 Q4 Q5]. split; [|congruence..|exists k; split; congruence].
  intros j Hj. unfold svc_at in *. rewrite Q1. by apply T1.
Qed.

Lemma touches_refl i s : touches i s s.
Proof. split; [done..|]. exists 0%nat. split; [lia|done]. Qed.

Lemma upd_touches i f s s' : touches i s s' → touches i s (upd_svc i f s').
Proof.
  intros [T1 T2 T3 T4]. split; [|done..]. intros j Hj. rewrite <- T1 by done. unfold svc_at, upd_svc. cbn.
  by rewrite list_lookup_alter_ne.
Qed.

(** service_start: what it changes, and that a service that can start does. *)
Lemma service_start_touches i d s : touches i s (service_start pf i d s).
Proof.
  unfold service_start. cbv zeta. set (s1 := upd_svc i start_service s).
  assert (touches i s s1) as T1 by apply upd_touches, touches_refl.
  assert (forks s1 = forks s) as Ef by done. clearbody s1.
  destruct (svc_at i s1) as [sv|]; [|done]. repeat (case_match; [try done; by apply upd_touches|]).
  unfold launch, fork. destruct (forks s1) as [|p r] eqn:Er; [by apply upd_touches|].
  assert (touches i s (set_forks r s1)) as T2.
  { destruct T1 as [U1 U2 U3 _]. split; [done..|]. exists 1%nat. split; [lia|]. by rewrite <- Ef. }
  case_match; [by apply upd_touches|]. case_match; [|by apply upd_touches].
  eapply touches_quiet; [|apply notify_quiet]. by apply upd_touches.
Qed.

Lemma service_start_needs i d s : process_needs_restart (service_start pf i d s) = process_needs_restart s.
Proof.
  unfold service_start, launch, fork. cbv zeta. repeat case_match; simplify_eq; try done;
    by rewrite (q_needs _ _ (notify_quiet _ _ _)).
Qed.

(** Whether a service could be started now. *)
Definition can_start (sv : service) s : Prop :=
  (has (flags sv) SVC_CONSOLE = true → have_console s = true) ∧ stat_ok pf (default [] (head (sargs sv))) = true ∧
  context_ok pf (start_service (upd_flags (λ fl, without fl SVC_RESTARTING) sv)) = true.

Lemma service_start_runs i s sv p r :
  svc_at i s = Some sv → has (flags sv) SVC_RUNNING = false →
  (has (flags sv) SVC_CONSOLE = true → have_console s = true) → stat_ok pf (default [] (head (sargs sv))) = true →
  context_ok pf (start_service sv) = true → forks s = p :: r → 0 < p →
  ∃ sv', svc_at i (service_start pf i None s) = Some sv' ∧ has (flags sv') SVC_RUNNING = true ∧ pid sv' = p ∧
         time_started sv' = clock s.
Proof.
  intros Hi Hr Hcon Hst Hctx Hf Hp. unfold service_start. cbv zeta. rewrite svc_at_upd, Hi. cbn [fmap option_fmap option_map].
  rewrite (proj1 (start_service_flags sv)), Hr.
  assert (has (flags (start_service sv)) SVC_CONSOLE = has (flags sv) SVC_CONSOLE) as Ec.
  { cbn [start_service set_life flags]. flags. change (has SVC_DISABLED SVC_CONSOLE) with false.
    change (has SVC_RESET SVC_CONSOLE) with false. change (has SVC_RESTARTING SVC_CONSOLE) with false.
    change (has SVC_RESTART SVC_CONSOLE) with false. cbn [orb negb]. by rewrite ?andb_true_r. }
  rewrite Ec. change (sargs (start_service sv)) with (sargs sv).
  change (have_console (upd_svc i start_service s)) with (have_console s).
  destruct (has (flags sv) SVC_CONSOLE) eqn:E; [rewrite Hcon by done|]; cbn [andb negb];
    rewrite Hst, Hctx; rewrite !andb_false_r; cbn [negb]; change (bool_decide (is_Some (@None cstr))) with false; rewrite ?andb_false_r.
  all: unfold launch, fork; change (forks (upd_svc i start_service s)) with (forks s); rewrite Hf.
  all: destruct (Z.ltb_spec p 0); [lia|].
  all: eexists; split; [destruct (properties_inited pf);
    [rewrite (svc_at_quiet i _ _ (notify_quiet _ _ _))|]; rewrite svc_at_upd;
    change (svc_at i (set_forks r (upd_svc i start_service s))) with (svc_at i (upd_svc i start_service s)); rewrite svc_at_upd, Hi; reflexivity|].
  all: cbn [set_life flags pid time_started]; rewrite has_lor; change (has SVC_RUNNING SVC_RUNNING) with true; by rewrite orb_true_r.
Qed.

(** One turn of the loop of restart_processes. *)
Definition visit s (j : nat) : istate A :=
  match svc_at j s with
  | Some sv => if has (flags sv) SVC_RESTARTING then restart_service_if_needed pf j s else s
  | None => s
  end.

Lemma restart_processes_visits s :
  restart_processes pf s = foldl visit (set_needs_restart 0 s) (seq 0 (length (service_list (icfg s)))).
Proof. reflexivity. Qed.

Lemma visit_touches s j : touches j s (visit s j).
Proof.
  unfold visit. destruct (svc_at j s) as [sv|] eqn:Hj; [|apply touches_refl]. case_match; [|apply touches_refl].
  unfold restart_service_if_needed. rewrite Hj. cbv zeta. case_match.
  - destruct (service_start_touches j None (upd_svc j (upd_flags (λ fl, without fl SVC_RESTARTING)) s)) as [T1 T2 T3 T4].
    split; [|done..]. intros i Hi. rewrite T1 by done. unfold svc_at, upd_svc. cbn. by rewrite list_lookup_alter_ne.
  - case_match; [|apply touches_refl]. split; [done..|]. exists 0%nat. split; [lia|done].
Qed.

(** The deadline kept in process_needs_restart only moves forward to an earlier one. *)
Lemma visit_needs s j d :
  0 ≤ clock s → 0 < process_needs_restart s ≤ d → 0 < process_needs_restart (visit s j) ≤ d.
Proof.
  intros Hc Hn. unfold visit, restart_service_if_needed. destruct (svc_at j s) as [sv|]; [|done]. case_match; [|done]. cbv zeta.
  destruct (Z.leb_spec (time_started sv + 5) (clock s)) as [|Hlt]; [by rewrite service_start_needs|].
  destruct (Z.ltb_spec (time_started sv + 5) (process_needs_restart s)); cbn [orb]; [cbn; lia|].
  case_match; [cbn; lia|done].
Qed.

(** Turns of other services. *)
Lemma visits_others l s i :
  i ∉ l →
  svc_at i (foldl visit s l) = svc_at i s ∧ clock (foldl visit s l) = clock s ∧
  have_console (foldl visit s l) = have_console s ∧
  ∃ k, (k ≤ length l)%nat ∧ forks (foldl visit s l) = drop k (forks s).
Proof.
  revert s. induction l as [|j l IH]; intros s Hi; [split_and!; [done..|by exists 0%nat]|].
  apply not_elem_of_cons in Hi as [Hne Hi]. cbn [foldl length]. destruct (IH (visit s j) Hi) as (E1 & E2 & E3 & k & Hk & E4).
  destruct (visit_touches s j) as [T1 T2 T3 (k' & Hk' & T4)].
  split_and!; [by rewrite E1, T1|congruence..|]. exists (k' + k)%nat. split; [lia|]. by rewrite E4, T4, drop_drop.
Qed.

Lemma visits_needs l s d :
  0 ≤ clock s → 0 < process_needs_restart s ≤ d → 0 < process_needs_restart (foldl visit s l) ≤ d.
Proof.
  revert s. induction l as [|j l IH]; intros s Hc Hn; [done|]. cbn. apply IH; [|by apply visit_needs].
  by rewrite (to_clock _ _ _ (visit_touches s j)).
Qed.

(** It is never negative. *)
Lemma visits_needs_nonneg l s :
  0 ≤ clock s → 0 ≤ process_needs_restart s → 0 ≤ process_needs_restart (foldl visit s l).
Proof.
  revert s. induction l as [|j l IH]; intros s Hc Hn; [done|]. cbn. apply IH; [by rewrite (to_clock _ _ _ (visit_touches s j))|].
  unfold visit, restart_service_if_needed. repeat case_match; cbv zeta; rewrite ?service_start_needs; try done.
  destruct (Z.leb_spec (time_started s0 + 5) (clock s)); [done|]. cbn. lia.
Qed.

(** The state before and the state after the turn of service [i]. *)
Lemma restart_processes_split s i sv :
  svc_at i s = Some sv →
  ∃ s1 l2, restart_processes pf s = foldl visit (visit s1 i) l2 ∧ i ∉ l2 ∧
    svc_at i s1 = Some sv ∧ clock s1 = clock s ∧ have_console s1 = have_console s ∧
    (0 ≤ clock s → 0 ≤ process_needs_restart s1) ∧ ∃ k, (k ≤ i)%nat ∧ forks s1 = drop k (forks s).
Proof.
  intros Hi. assert (i < length (service_list (icfg s)))%nat as Hlt by (by apply lookup_lt_Some in Hi).
  exists (foldl visit (set_needs_restart 0 s) (seq 0 i)), (seq (S i) (length (service_list (icfg s)) - S i)).
  rewrite restart_processes_visits. replace (length (service_list (icfg s))) with (i + S (length (service_list (icfg s)) - S i))%nat at 1 by lia.
  rewrite seq_app, foldl_app. cbn [seq foldl Nat.add].
  destruct (visits_others (seq 0 i) (set_needs_restart 0 s) i) as (E1 & E2 & E3 & k & Hk & E4).
  { intros Hin%elem_of_seq. lia. }
  rewrite length_seq in Hk. split_and!; [done|intros Hin%elem_of_seq; lia|by rewrite E1|done|done| |by exists k].
  intros Hc. by apply visits_needs_nonneg.
Qed.

(** C5: A service that died is not left behind.  In each iteration of the main loop, a
    service that waits for its restart is either started, when five seconds have passed
    since its last start and nothing prevents it (its program is there, the processes
    can be created), or it goes on waiting and the next poll ends by its time at the
    latest. *)
Theorem waiting_service_restarts s (i : nat) (sv : service) :
  life_inv s → 0 ≤ clock s → svc_at i s = Some sv → has (flags sv) SVC_RESTARTING = true →
  let s' := restart_processes pf s in
  (clock s < time_started sv + 5 →
     svc_at i s' = Some sv ∧ 0 ≤ poll_timeout s' ≤ (time_started sv + 5 - clock s) * 1000) ∧
  (time_started sv + 5 ≤ clock s → can_start sv s →
     (i < length (forks s))%nat → Forall (λ p, 0 < p) (forks s) →
     ∃ sv', svc_at i s' = Some sv' ∧ has (flags sv') SVC_RUNNING = true ∧ 0 < pid sv' ∧ time_started sv' = clock s).
Proof.
  intros Hinv Hc Hi Hw s'. subst s'.
  destruct (restart_processes_split s i sv Hi) as (s1 & l2 & -> & Hl2 & Hi1 & Hc1 & Hcon1 & Hn1 & k & Hk & Hf1).
  destruct (visits_others l2 (visit s1 i) i Hl2) as (E1 & E2 & _ & _). rewrite E1.
  assert (visit s1 i = restart_service_if_needed pf i s1) as Hv by (unfold visit; by rewrite Hi1, Hw).
  unfold restart_service_if_needed in Hv. rewrite Hi1 in Hv. cbv zeta in Hv. rewrite Hc1 in Hv. split.
  - intros Hlt. rewrite (proj2 (Z.leb_gt _ _) Hlt) in Hv.
    assert (svc_at i (visit s1 i) = Some sv ∧ clock (visit s1 i) = clock s) as [Esv Ecl] by (rewrite Hv; by case_match).
    assert (0 < process_needs_restart (foldl visit (visit s1 i) l2) ≤ time_started sv + 5) as Hn.
    { apply visits_needs; [by rewrite Ecl|]. rewrite Hv.
      specialize (Hn1 Hc). destruct (Z.ltb_spec (time_started sv + 5) (process_needs_restart s1)); cbn [orb]; [cbn; lia|].
      destruct (Z.eqb_spec (process_needs_restart s1) 0); [cbn; lia|lia]. }
    split; [done|]. unfold poll_timeout. rewrite E2, Ecl. destruct (Z.eqb_spec (process_needs_restart (foldl visit (visit s1 i) l2)) 0); [lia|]. cbn [negb].
    destruct (negb _ || _); lia.
  - intros Hge (Hcon & Hst & Hctx) Hlen Hpos. rewrite (proj2 (Z.leb_le _ _) Hge) in Hv. rewrite Hv.
    destruct (drop k (forks s)) as [|p r] eqn:Ed; [apply (f_equal length) in Ed; rewrite length_drop in Ed; cbn in Ed; lia|].
    assert (0 < p) as Hp. { apply (Forall_drop _ k) in Hpos. rewrite Ed in Hpos. by apply Forall_cons in Hpos as [? _]. }
    set (clear := upd_flags (λ fl, without fl SVC_RESTARTING)).
    destruct (service_start_runs i (upd_svc i clear s1) (clear sv) p r) as (sv' & E & Hr & Hpid & Ht); try done.
    + by rewrite svc_at_upd, Hi1.
    + cbn [clear upd_flags set_flags flags]. rewrite has_without_flag by (repeat (first [left; reflexivity | right])).
      destruct Hinv as [Hall _]. pose proof (proj1 (Forall_lookup _ _) Hall i sv Hi) as [_ Hwait].
      by rewrite (proj1 (Hwait Hw)).
    + intros E. change (have_console (upd_svc i clear s1)) with (have_console s1). rewrite Hcon1. apply Hcon.
      revert E. cbn [clear upd_flags set_flags flags]. rewrite has_without_flag by (repeat (first [left; reflexivity | right])). by intros [? _]%andb_true_iff.
    + exists sv'. split_and!; [done|done|lia|]. rewrite Ht. exact Hc1.
Qed.
End Restart.
