(* ===== verification/InitExample.v ===== *)
(** A small phone: an instance of bionic's property area, of the user identifiers and of
    the answers of the system, with a configuration that is parsed, booted and run.  The
    hypotheses of the theorems on Android init are met here. *)
From Stdlib Require Import ZArith.
From stdpp Require Import base numbers list strings sets gmap.
From S2P Require Import Prelude Bytes InitLexer InitConfig InitActions InitProps InitServices InitLife.

(** * The property area *)

(** A map with room for a number of entries. *)
Definition entries_max : nat := 247.

#[global] Instance map_area : PropertyArea (gmap cstr cstr) := {|
  __system_property_find a n := a !! n;
  __system_property_update a n v := <[n:=v]> a;
  __system_property_add a n v := if decide (size a < entries_max)%nat then Some (<[n:=v]> a) else None
|}.

#[global] Instance map_area_ok : PropertyAreaOk (gmap cstr cstr).
Proof.
  split; cbn.
  - intros a n v m _. apply lookup_insert.
  - intros a n v a' m _ Ha. case_decide; [|done]. injection Ha as <-. apply lookup_insert.
Qed.

(** The numbers of android_filesystem_config.h and the users of cutils/multiuser.h. *)
#[global] Instance android_ids : AndroidIds := {|
  AID_ROOT := 0; AID_SYSTEM := 1000; AID_RADIO := 1001; AID_BLUETOOTH := 1002; AID_DHCP := 1014; AID_SHELL := 2000;
  AID_LOG := 1007; multiuser_get_app_id uid := uid mod 100000
|}.

(** * The phone *)

Module Phone.
Definition init_rc : list Z := Example.text
  ["on early-init"; "  start ueventd"; "on boot"; "  class_start main"; "on property:sys.usb=adb"; "  start adbd";
   "service ueventd /sbin/ueventd"; "  critical"; "service zygote /system/bin/app_process"; "  class main";
   "  onrestart restart media"; "service media /system/bin/mediaserver"; "  class main";
   "service adbd /sbin/adbd"; "  disabled"].
Definition files (fn : cstr) : option (list Z) := if decide (fn = bytes_of "/init.rc") then Some init_rc else None.

Lemma phone_files_good : good_files (λ _, []) files (λ _, 0%nat).
Proof.
  split; intros fn data; unfold files; [intros Hf|intros f Hf Hin]; case_decide; injection Hf as <- || done.
  - change (Forall good_line (file_lines init_rc)). apply (bool_decide_unpack _). vm_compute. exact I.
  - assert (concat (import_of (λ _, []) <$> file_lines init_rc) = []) as E by (vm_compute; reflexivity).
    rewrite E in Hin. by apply not_elem_of_nil in Hin.
Qed.

(** What the parser makes of it, with the actions of main queued. *)
Definition parsed : config :=
  match init_parse_config_file [] (λ _, []) files 1 (bytes_of "/init.rc") empty_config with
  | Ok (_, c) => c
  | _ => empty_config
  end.

Definition no_selinux : selinux := mkSelinux false false (λ _, None) (λ _ _, false).

Definition pf : platform :=
  mkPlatform (λ _, true) (λ _, true) true true true true (λ _, None) None (λ _, -1) [] no_selinux.

(** The state of main before its loop; [ps] are the processes that fork will create. *)
Definition at_start (ps : list Z) : istate (gmap cstr cstr) :=
  mkState (queue_boot_actions false parsed) (mkRunner None None)
    (<[bytes_of "ro.hardware" := bytes_of "goldfish"]> ∅) false [] 0 false 0 100 ps [] [] [] false false.

(** After the boot actions: one command in each iteration. *)
Definition quiet_boot : list (list init_event) := replicate 16 [].
Definition booted : istate (gmap cstr cstr) := main_loop pf (at_start [50; 51; 52; 53; 54; 55]) quiet_boot.

(** A request of the system server, and the same of an application. *)
Definition enable_adb (user : Z) : init_event :=
  EvProperty (mkRequest (bytes_of "sys.usb") (bytes_of "adb") user user None).

Definition running (s : istate (gmap cstr cstr)) : list (cstr * Z) :=
  omap (λ sv, if has (flags sv) SVC_RUNNING then Some (name sv, pid sv) else None) (service_list (icfg s)).
End Phone.

Module PhoneFacts.
Import Phone.

Lemma parsed_wf : config_wf parsed.
Proof.
  destruct (init_parse_wf [] (λ _, []) files (λ _, 0%nat) 1 (bytes_of "/init.rc") empty_config phone_files_good) as (r & c & E & Hc & _);
    [lia|apply empty_config_wf|].
  unfold parsed. by rewrite E.
Qed.

Lemma at_start_wf ps : Forall svc_wf (service_list (icfg (at_start ps))).
Proof.
  replace (service_list (icfg (at_start ps))) with (service_list parsed) by (vm_compute; reflexivity).
  apply parsed_wf.
Qed.

(** The boot: the services of early-init and of the class main are running, and nothing is
    left to do. *)
Example phone_starts :
  running booted = [(bytes_of "ueventd", 50); (bytes_of "zygote", 51); (bytes_of "media", 52)] ∧
  property_get booted (bytes_of "init.svc.zygote") = bytes_of "running" ∧
  action_queue (icfg booted) = [] ∧ poll_timeout booted = -1.
Proof. vm_compute. done. Qed.

(** The system server may turn adb on, and the trigger starts its daemon; an application
    may not. *)
Example adb_on_request :
  running (main_loop pf booted [[enable_adb 1000]; []]) = running booted ++ [(bytes_of "adbd", 53)] ∧
  running (main_loop pf booted [[enable_adb 10042]; []]) = running booted.
Proof. vm_compute. done. Qed.

(** The zygote dies two seconds after its start: media is told to restart, and both run
    again in new processes when the five seconds are over. *)
Definition crashed : istate (gmap cstr cstr) := main_loop pf booted [[EvTime 102; EvSignal [51; 0]]; [EvSignal [52; 0]]; []].

Example zygote_restarts :
  running crashed = [(bytes_of "ueventd", 50)] ∧ killed crashed = [51; 52; 52] ∧ poll_timeout crashed = 3000 ∧
  running (main_loop pf crashed [[EvTime 105]; []]) =
    [(bytes_of "ueventd", 50); (bytes_of "zygote", 53); (bytes_of "media", 54)].
Proof. vm_compute. done. Qed.

(** * The hypotheses of the theorems are met *)

Lemma ro_properties_fixed_witness :
  property_get (main_loop pf (at_start [50; 51; 52])
    (quiet_boot ++ [[EvProperty (mkRequest (bytes_of "ro.hardware") (bytes_of "other") 0 0 None)]]))
    (bytes_of "ro.hardware") = bytes_of "goldfish".
Proof.
  unfold property_get. by rewrite (proj1 (ro_properties_fixed pf (at_start [50; 51; 52])
    (quiet_boot ++ [[EvProperty (mkRequest (bytes_of "ro.hardware") (bytes_of "other") 0 0 None)]]))
    (bytes_of "ro.hardware") (bytes_of "goldfish") ltac:(vm_compute; reflexivity) ltac:(vm_compute; reflexivity)).
Defined.

Lemma commands_in_order_witness :
  runner_ok (irunner (at_start [50])) (icfg (at_start [50])) ∧
  let (cs, s') := execute_many (H := init_commands pf)
    (λ k s, foldl (handle_event pf) (restart_processes pf s) [enable_adb 1000]) 5 (at_start [50]) in
  ∃ new, cs ++ due (irunner s') (icfg s') = due (irunner (at_start [50])) (icfg (at_start [50])) ++ new.
Proof. split; [exact I|]. exact (commands_in_order pf (at_start [50]) 5 (λ _, [enable_adb 1000]) I). Defined.

Lemma services_consistent_witness :
  Forall life_ok (service_list (icfg (main_loop pf (at_start [50; 51; 52; 53]) (quiet_boot ++ [[EvSignal [51; 0]]])))).
Proof. apply (services_consistent pf); [apply at_start_wf|apply (bool_decide_unpack _); vm_compute; exact I]. Defined.

Lemma clock_inv (t : Z) (s : istate (gmap cstr cstr)) : life_inv s → life_inv (set_clock t s).
Proof. done. Qed.
Lemma svc_at_clock (i : nat) (t : Z) (s : istate (gmap cstr cstr)) : svc_at i (set_clock t s) = svc_at i s.
Proof. done. Qed.

(** The zygote of [crashed]. *)
Definition waiting_zygote : service :=
  default (mkService [] [] 0 0 0 0 0 0 0 [] None [] [] [] [] 0 IoSchedClass_NONE 0 []) (svc_at 1 crashed).

Lemma waiting_service_restarts_witness :
  svc_at 1 crashed = Some waiting_zygote ∧
  (svc_at 1 (restart_processes pf crashed) = Some waiting_zygote ∧
   0 ≤ poll_timeout (restart_processes pf crashed) ≤ (time_started waiting_zygote + 5 - clock crashed) * 1000) ∧
  ∃ sv', svc_at 1 (restart_processes pf (set_clock 105 crashed)) = Some sv' ∧ has (flags sv') SVC_RUNNING = true ∧
    0 < pid sv' ∧ time_started sv' = 105.
Proof.
  assert (svc_at 1 crashed = Some waiting_zygote) as Hi by (vm_compute; reflexivity).
  assert (life_inv crashed) as Hinv.
  { do 2 apply main_loop_inv. apply services_inv; [apply at_start_wf|apply (bool_decide_unpack _); vm_compute; exact I]. }
  split; [exact Hi|split].
  - apply (waiting_service_restarts pf crashed 1 waiting_zygote Hinv).
    + apply (bool_decide_unpack _). vm_compute. exact I.
    + exact Hi.
    + vm_compute. reflexivity.
    + apply (bool_decide_unpack _). vm_compute. exact I.
  - apply (waiting_service_restarts pf (set_clock 105 crashed) 1 waiting_zygote (clock_inv 105 _ Hinv)).
    + apply (bool_decide_unpack _). vm_compute. exact I.
    + rewrite svc_at_clock. exact Hi.
    + vm_compute. reflexivity.
    + apply (bool_decide_unpack _). vm_compute. exact I.
    + unfold can_start. split_and!; [vm_compute; discriminate|vm_compute; reflexivity..].
    + apply (bool_decide_unpack _). vm_compute. exact I.
    + apply (bool_decide_unpack _). vm_compute. exact I.
Defined.

(** * What the code does not do *)

(** A service whose restart fails because no process can be created is forgotten: its flag
    RESTARTING is gone, and no later iteration starts it. *)
Example restart_forgotten :
  let s := set_forks [-1] (set_clock 105 crashed) in
  let s' := main_loop pf s [[]; [EvTime 200]; []] in
  running s' = [(bytes_of "ueventd", 50)] ∧ poll_timeout s' = -1.
Proof. vm_compute. done. Qed.

(** A trigger for any value of a property is queued although the property does not exist. *)
Example star_trigger_without_property :
  let c := mkConfig [] [mkAction (bytes_of "property:sys.absent=*") []] [] in
  action_queue (queue_all_property_triggers (λ _, []) c) = [0%nat].
Proof. vm_compute. reflexivity. Qed.

(** Two actions of one name are both kept and both queued, in the order of the file. *)
Example duplicate_actions_run :
  match Quirks.config_of ["on boot"; "  start zygote"; "on boot"; "  start media"] with
  | Ok c => action_queue (action_for_each_trigger (bytes_of "boot") c) = [0%nat; 1%nat]
  | _ => False
  end.
Proof. vm_compute. reflexivity. Qed.
End PhoneFacts.
