(* ===== verification/Ueventd.v ===== *)
(** The device manager of Android init (src/init/init/devices.c, ueventd.c,
    ueventd_parser.c and the path functions of util.c): the rules of ueventd.rc, the
    events of the kernel, and the nodes and links under /dev.

    The files that this code makes are a map from paths to [inode]s; the system calls
    have their documented effect on it, and the directories of a path are taken to be
    there.  Writing to /sys is the list [fixups].  malloc, strdup and asprintf succeed. *)
From Stdlib Require Import ZArith.
From stdpp Require Import base numbers list strings sets gmap pretty.
From S2P Require Import Prelude Bytes InitLexer InitConfig InitActions InitProps.

(** * Data *)

Record uevent := mkUevent {
  ue_action : cstr;
  ue_path : cstr;
  ue_subsystem : cstr;
  ue_firmware : cstr;
  partition_name : option cstr;
  device_name : option cstr;
  partition_num : Z;
  ue_major : Z;
  ue_minor : Z
}.

Record perms_ := mkPerms {
  dp_name : cstr;
  dp_attr : option cstr;
  dp_perm : Z;
  dp_uid : Z;
  dp_gid : Z;
  dp_prefix : bool
}.

Record platform_node := mkPlatformNode { pn_name : cstr; pn_path : cstr }.

(** A file under /dev. *)
Inductive inode :=
  | Node (mode uid gid major minor : Z)
  | Link (target : cstr)
  | Dir.

(** The lists of devices.c, the files, and the changes of files under /sys (path, owner,
    group and mode). *)
Record ustate := mkUstate {
  sys_perms : list perms_;
  dev_perms : list perms_;
  platform_names : list platform_node;
  files_of : gmap cstr inode;
  fixups : list (cstr * Z * Z * Z)
}.

Definition set_sys_perms v s := mkUstate v (dev_perms s) (platform_names s) (files_of s) (fixups s).
Definition set_dev_perms v s := mkUstate (sys_perms s) v (platform_names s) (files_of s) (fixups s).
Definition set_platform_names v s := mkUstate (sys_perms s) (dev_perms s) v (files_of s) (fixups s).
Definition set_files v s := mkUstate (sys_perms s) (dev_perms s) (platform_names s) v (fixups s).
Definition set_fixups v s := mkUstate (sys_perms s) (dev_perms s) (platform_names s) (files_of s) v.

Definition SLASH : Z := 47.

(** [strrchr(s, c) + 1]: the text behind the last [c]. *)
Fixpoint after_last (c : Z) (s : cstr) : option cstr :=
  match s with
  | [] => None
  | x :: r => match after_last c r with Some t => Some t | None => if x =? c then Some r else None end
  end.

(** * Rules *)

Definition add_dev_perms (nm : cstr) (attr : option cstr) (perm uid gid : Z) (prefix : bool) (s : ustate) : ustate :=
  let p := mkPerms nm attr perm uid gid prefix in
  match attr with
  | Some _ => set_sys_perms (sys_perms s ++ [p]) s
  | None => set_dev_perms (dev_perms s ++ [p]) s
  end.

(** The digits of strtol in base 8: the value and the text behind them. *)
Fixpoint octal (s : cstr) (acc : Z) : Z * cstr :=
  match s with
  | [] => (acc, [])
  | c :: r => if digit_value c <? 8 then octal r (acc * 8 + digit_value c) else (acc, s)
  end.

(** [strtol(s, &endptr, 8)]: the value and [endptr]; without digits [endptr] is [s]. *)
Definition strtol8 (s : cstr) : Z * cstr :=
  let (neg, t) := sign (skip_spaces s) in
  match t with
  | c :: _ =>
      if digit_value c <? 8 then
        let (v, rest) := octal t 0 in
        (Z.max (- 2 ^ 31) (Z.min (if neg : bool then - v else v) (2 ^ 31 - 1)), rest)
      else (0, s)
  | [] => (0, s)
  end.

Section Rules.
Context (android_ids : list (cstr * Z)) (mtd_part_map : list (cstr * Z)).

Fixpoint get_android_id_in (ids : list (cstr * Z)) (id : cstr) : Z :=
  match ids with
  | [] => -1
  | (n, aid) :: ids => if decide (id = n) then aid else get_android_id_in ids id
  end.
Definition get_android_id (id : cstr) : Z := get_android_id_in android_ids id.

(** mtd_name_to_number; the table is what find_mtd_partitions read from /proc/mtd. *)
Fixpoint mtd_number_in (l : list (cstr * Z)) (nm : cstr) : Z :=
  match l with
  | [] => -1
  | (n, number) :: l => if decide (nm = n) then number else mtd_number_in l nm
  end.
Definition mtd_name_to_number (nm : cstr) : Z := mtd_number_in mtd_part_map nm.

Definition STAR : Z := 42.

(** The name of a rule and whether it is a prefix; [None] is NULL, for an unknown
    partition.  [name[len - 1]] of an empty name is outside it.  (The star is cut off in
    the buffer of the file; that word is not read again.) *)
Definition rule_name (nm : cstr) : res (option cstr * bool) :=
  match after_prefix (bytes_of "mtd@") nm with
  | Some part =>
      let n := mtd_name_to_number part in
      Ok (if 0 <=? n then Some (bytes_of "/dev/mtd/mtd" ++ print_int n) else None, false)
  | None =>
      match last nm with
      | None => Fault
      | Some c => Ok (if c =? STAR then (Some (removelast nm), true) else (Some nm, false))
      end
  end.

(** The end of set_device_permission: the last three words and the rule, whose name
    add_dev_perms copies. *)
Definition set_rule (nm : option cstr) (prefix : bool) (attr : option cstr) (mode user group : cstr) (s : ustate)
    : res ustate :=
  let (perm, endptr) := strtol8 mode in
  if negb (bool_decide (endptr = [])) then Ok s
  else if get_android_id user <? 0 then Ok s
  else if get_android_id group <? 0 then Ok s
  else
    nm ← deref nm;
    Ok (add_dev_perms nm attr (u32 perm) (get_android_id user) (get_android_id group) prefix s).

Definition set_device_permission (nargs : nat) (args : list (option cstr)) (s : ustate) : res ustate :=
  if (nargs =? 0)%nat then Ok s
  else
    nm ← arg args 0;
    if bool_decide (head nm = Some HASH) then Ok s
    else
      let sys := has_prefix "/sys/" nm && (nargs =? 5)%nat in
      attr ← (if sys then a ← arg args 1; Ok (Some a) else Ok None);
      let args := if sys then tail args else args in
      let nargs := if sys then (nargs - 1)%nat else nargs in
      if negb (nargs =? 4)%nat then Ok s
      else
        '(nm, prefix) ← rule_name nm;
        mode ← arg args 1; user ← arg args 2; group ← arg args 3;
        set_rule nm prefix attr mode user group s.

Definition UEVENTD_PARSER_MAXARGS : nat := 5.

(** parse_config of ueventd_parser.c; its line numbers stay 1. *)
Definition ueventd_parse_config (m : buffer) (s : ustate) : res ustate :=
  '(_, s) ← parse_loop UEVENTD_PARSER_MAXARGS false (λ _ m n args s, set_device_permission n (strs m args) s)
    (parse_fuel m) (parse_start m 1) 0 (replicate UEVENTD_PARSER_MAXARGS None) s;
  set_device_permission 0 [] s.

Definition ueventd_parse_config_file (read_file : cstr → option (list Z)) (fn : cstr) (s : ustate) : res (Z * ustate) :=
  match read_file fn with
  | None => Ok (-1, s)
  | Some data => s ← ueventd_parse_config (file_buffer data) s; Ok (0, s)
  end.

(** ** What the lines mean *)

(** The name of a rule and whether it stands for all paths that begin with it: the word
    itself, the word without its star, or the node of the MTD partition. *)
Inductive names : cstr → cstr → bool → Prop :=
  | names_path nm :
      nm ≠ [] → last nm ≠ Some STAR → (∀ part, nm ≠ bytes_of "mtd@" ++ part) → names nm nm false
  | names_prefix nm :
      (∀ part, nm ++ [STAR] ≠ bytes_of "mtd@" ++ part) → names (nm ++ [STAR]) nm true
  | names_mtd part l1 n l2 :
      mtd_part_map = l1 ++ (part, n) :: l2 → part ∉ l1.*1 → 0 ≤ n →
      names (bytes_of "mtd@" ++ part) (bytes_of "/dev/mtd/mtd" ++ print_int n) false.

(** Octal digits and their value. *)
Definition is_octal (d : Z) : Prop := 0 ≤ d < 8.
Definition octal_word (ds : list Z) : cstr := (λ d, 48 + d) <$> ds.
Definition octal_value (ds : list Z) : Z := foldl (λ a d, 8 * a + d) 0 ds.

(** A mode, and a word that is none: a character that is no octal digit behind the digits,
    or at its start, where no space or sign may be. *)
Inductive mode_word : cstr → option Z → Prop :=
  | mode_good ds :
      ds ≠ [] → Forall is_octal ds → octal_value ds < 2 ^ 31 → mode_word (octal_word ds) (Some (octal_value ds))
  | mode_bad ds c rest :
      Forall is_octal ds → 8 ≤ digit_value c → ds ≠ [] ∨ (isspace c = false ∧ c ≠ 43 ∧ c ≠ 45) →
      mode_word (octal_word ds ++ c :: rest) None.

(** A user or group of the table, and one that is not there. *)
Inductive id_word : cstr → option Z → Prop :=
  | id_known w l1 id l2 : android_ids = l1 ++ (w, id) :: l2 → w ∉ l1.*1 → 0 ≤ id → id_word w (Some id)
  | id_unknown w : w ∉ android_ids.*1 → id_word w None.

Inductive rule_words : list cstr → cstr → option cstr → cstr → cstr → cstr → Prop :=
  | dev_words nm mode user group : rule_words [nm; mode; user; group] nm None mode user group
  | sys_words nm attr mode user group :
      has_prefix "/sys/" nm = true → rule_words [nm; attr; mode; user; group] nm (Some attr) mode user group.

(** A line and its rule; a comment, a line with another number of words, and one with a
    bad mode or an unknown user or group have none. *)
Inductive line_means : list cstr → option perms_ → Prop :=
  | means_comment nm ws : head nm = Some HASH → line_means (nm :: ws) None
  | means_nothing nm ws :
      head nm ≠ Some HASH → length ws ≠ 3%nat → (length ws = 4%nat → has_prefix "/sys/" nm = false) → line_means (nm :: ws) None
  | means_rule ws nm attr mode user group nm' prefix perm uid gid :
      rule_words ws nm attr mode user group → head nm ≠ Some HASH → names nm nm' prefix →
      mode_word mode perm → id_word user uid → id_word group gid →
      line_means ws (p ← perm; u ← uid; g ← gid; Some (mkPerms nm' attr p u g prefix)).

Definition add_rule (s : ustate) (r : option perms_) : ustate :=
  match r with
  | Some p => add_dev_perms (dp_name p) (dp_attr p) (dp_perm p) (dp_uid p) (dp_gid p) (dp_prefix p) s
  | None => s
  end.
End Rules.

(** [strncmp(nm, dp->name, strlen(dp->name))] for a prefix, [strcmp] otherwise. *)
Definition rule_matches (target : cstr) (dp : perms_) (nm : cstr) : bool :=
  if dp_prefix dp then bool_decide (is_Some (after_prefix nm target)) else bool_decide (target = nm).

(** A string with its NUL goes to an array on the stack, and is read back from there;
    writing past the end of the array is [Fault]. *)
Definition copy_to_array (size : nat) (str : cstr) : res cstr :=
  buf ← store (replicate size 0) 0 (str ++ [0]); Ok (c_string buf).

(** fixup_sys_perms: the paths of events leave out /sys.  A path too long for [buf]
    ends the loop. *)
Fixpoint fixup_loop (upath : cstr) (l : list perms_) (done : list (cstr * Z * Z * Z)) : res (list (cstr * Z * Z * Z)) :=
  match l with
  | [] => Ok done
  | dp :: l =>
      if negb (rule_matches upath dp (drop 4 (dp_name dp))) then fixup_loop upath l done
      else
        let attr := default [] (dp_attr dp) in
        if (512 <? length upath + length attr + 6)%nat then Ok done
        else
          buf ← copy_to_array 512 (bytes_of "/sys" ++ upath ++ [SLASH] ++ attr);
          fixup_loop upath l (done ++ [(buf, dp_uid dp, dp_gid dp, dp_perm dp)])
  end.

Definition fixup_sys_perms (upath : cstr) (s : ustate) : res ustate :=
  done ← fixup_loop upath (sys_perms s) (fixups s); Ok (set_fixups done s).

(** get_device_perm: mode, owner and group.  The list is searched from its end. *)
Definition get_device_perm (path : cstr) (l : list perms_) : Z * Z * Z :=
  match list_find (λ dp, rule_matches path dp (dp_name dp) = true) (reverse l) with
  | Some (_, dp) => (dp_perm dp, dp_uid dp, dp_gid dp)
  | None => (0x180, 0, 0)
  end.

(** * Files *)

(** mkdir; a trailing slash does not count. *)
Definition trim_slash (p : cstr) : cstr := if bool_decide (last p = Some SLASH) then removelast p else p.
Definition make_dir (path : cstr) (fs : gmap cstr inode) : gmap cstr inode :=
  match fs !! trim_slash path with Some _ => fs | None => <[trim_slash path := Dir]> fs end.

(** mkdir_recursive: the directories on the way to the path, up to one that is too long
    for [buf] ([false]), then the path itself. *)
Fixpoint mkdir_components (before path : cstr) (fs : gmap cstr inode) : res (bool * gmap cstr inode) :=
  match path with
  | [] => Ok (true, fs)
  | c :: r =>
      if negb (c =? SLASH) || bool_decide (before = []) then mkdir_components (before ++ [c]) r fs
      else if (127 <? length before)%nat then Ok (false, fs)
      else
        buf ← copy_to_array 128 before;
        mkdir_components (before ++ [c]) r (make_dir buf fs)
  end.

Definition mkdir_recursive (path : cstr) (fs : gmap cstr inode) : res (gmap cstr inode) :=
  '(ok, fs) ← mkdir_components [] path fs; Ok (if ok : bool then make_dir path fs else fs).

(** mknod and symlink: nothing when the path exists or ends with a slash. *)
Definition create (path : cstr) (i : inode) (fs : gmap cstr inode) : gmap cstr inode :=
  if bool_decide (last path = Some SLASH) then fs
  else match fs !! path with Some _ => fs | None => <[path := i]> fs end.
(** unlink of a node or link *)
Definition unlink (path : cstr) (fs : gmap cstr inode) : gmap cstr inode :=
  match fs !! path with Some Dir | None => fs | Some _ => delete path fs end.

Definition make_link (oldpath newpath : cstr) (fs : gmap cstr inode) : res (gmap cstr inode) :=
  match after_last SLASH newpath with
  | None => Ok fs
  | Some base =>
      let width := (length newpath - length base - 1)%nat in
      if (width =? 0)%nat || (255 <? width)%nat then Ok fs
      else
        buf ← copy_to_array 256 (take width newpath);
        fs ← mkdir_recursive buf fs;
        Ok (create newpath (Link oldpath) fs)
  end.

(** The loop of handle_device over the links to make. *)
Fixpoint make_links (oldpath : cstr) (links : list cstr) (fs : gmap cstr inode) : res (gmap cstr inode) :=
  match links with
  | [] => Ok fs
  | l :: links => fs ← make_link oldpath l fs; make_links oldpath links fs
  end.

Definition remove_link (oldpath newpath : cstr) (fs : gmap cstr inode) : gmap cstr inode :=
  match fs !! newpath with
  | Some (Link target) =>
      let path := take 255 target in
      if bool_decide (path = []) then fs else if bool_decide (path = oldpath) then unlink newpath fs else fs
  | _ => fs
  end.

Definition S_IFBLK : Z := 0x6000.
Definition S_IFCHR : Z := 0x2000.

(** make_device: mknod leaves a path that exists, chown then changes its owner (through a
    link, that of its target). *)
Definition chown_node (uid : Z) (i : inode) : inode :=
  match i with Node mode _ gid major minor => Node mode uid gid major minor | i => i end.

Definition make_device (path : cstr) (block : bool) (major minor : Z) (s : ustate) : ustate :=
  let '(perm, uid, gid) := get_device_perm path (dev_perms s) in
  let mode := Z.lor perm (if block then S_IFBLK else S_IFCHR) in
  let fs := create path (Node mode 0 gid major minor) (files_of s) in
  let fs := match fs !! path with
            | Some (Link target) => alter (chown_node uid) target fs
            | _ => alter (chown_node uid) path fs
            end in
  set_files fs s.

(** * Platform devices *)

(** The path of a platform device, followed by a slash, begins [path]. *)
Definition below (path : cstr) (bus : platform_node) : bool :=
  match after_prefix (pn_path bus) path with Some (c :: _) => c =? SLASH | _ => false end.

Definition find_platform_device (path : cstr) (l : list platform_node) : option platform_node :=
  snd <$> list_find (λ bus, below path bus = true) (reverse l).

Definition platform_name (path : cstr) : cstr :=
  match after_prefix (bytes_of "/devices/") path with
  | Some nm => default nm (after_prefix (bytes_of "platform/") nm)
  | None => path
  end.

Definition add_platform_device (path : cstr) (l : list platform_node) : list platform_node :=
  match find_platform_device path l with
  | Some _ => l
  | None => l ++ [mkPlatformNode (platform_name path) path]
  end.

(** The last entry with this path. *)
Definition remove_platform_device (path : cstr) (l : list platform_node) : list platform_node :=
  match list_find (λ bus, path = pn_path bus) (reverse l) with
  | Some (i, _) => reverse (delete i (reverse l))
  | None => l
  end.

(** * Events *)

Definition no_event : uevent := mkUevent [] [] [] [] None None (-1) (-1) (-1).

(** One field of a message. *)
Definition set_field (ev : uevent) (f : cstr) : uevent :=
  let key k := after_prefix (bytes_of k) f in
  match key "ACTION=" with Some v => mkUevent v (ue_path ev) (ue_subsystem ev) (ue_firmware ev) (partition_name ev) (device_name ev) (partition_num ev) (ue_major ev) (ue_minor ev) | None =>
  match key "DEVPATH=" with Some v => mkUevent (ue_action ev) v (ue_subsystem ev) (ue_firmware ev) (partition_name ev) (device_name ev) (partition_num ev) (ue_major ev) (ue_minor ev) | None =>
  match key "SUBSYSTEM=" with Some v => mkUevent (ue_action ev) (ue_path ev) v (ue_firmware ev) (partition_name ev) (device_name ev) (partition_num ev) (ue_major ev) (ue_minor ev) | None =>
  match key "FIRMWARE=" with Some v => mkUevent (ue_action ev) (ue_path ev) (ue_subsystem ev) v (partition_name ev) (device_name ev) (partition_num ev) (ue_major ev) (ue_minor ev) | None =>
  match key "MAJOR=" with Some v => mkUevent (ue_action ev) (ue_path ev) (ue_subsystem ev) (ue_firmware ev) (partition_name ev) (device_name ev) (partition_num ev) (atoi v) (ue_minor ev) | None =>
  match key "MINOR=" with Some v => mkUevent (ue_action ev) (ue_path ev) (ue_subsystem ev) (ue_firmware ev) (partition_name ev) (device_name ev) (partition_num ev) (ue_major ev) (atoi v) | None =>
  match key "PARTN=" with Some v => mkUevent (ue_action ev) (ue_path ev) (ue_subsystem ev) (ue_firmware ev) (partition_name ev) (device_name ev) (atoi v) (ue_major ev) (ue_minor ev) | None =>
  match key "PARTNAME=" with Some v => mkUevent (ue_action ev) (ue_path ev) (ue_subsystem ev) (ue_firmware ev) (Some v) (device_name ev) (partition_num ev) (ue_major ev) (ue_minor ev) | None =>
  match key "DEVNAME=" with Some v => mkUevent (ue_action ev) (ue_path ev) (ue_subsystem ev) (ue_firmware ev) (partition_name ev) (Some v) (partition_num ev) (ue_major ev) (ue_minor ev) | None => ev
  end end end end end end end end end.

(** parse_event on the buffer of a message: fields that end with NUL, up to an empty one;
    reading past the buffer is [Fault]. *)
Fixpoint parse_fields (fuel : nat) (msg : buffer) (ev : uevent) : res uevent :=
  match fuel, msg with
  | S fuel, c :: _ =>
      if c =? 0 then Ok ev
      else
        let f := c_string msg in
        if (length msg <=? length f)%nat then Fault
        else parse_fields fuel (drop (S (length f)) msg) (set_field ev f)
  | _, _ => Fault
  end.
Definition parse_event (msg : buffer) : res uevent := parse_fields (length msg) msg no_event.

(** * Names of devices *)

(** The characters that sanitize leaves. *)
Definition accepted (c : Z) : bool := isalnum c || (c =? 95) || (c =? 45) || (c =? 46).

(** [s += strspn(s, accept)] *)
Fixpoint span_accepted (m : buffer) : nat :=
  match m with
  | c :: r => if accepted c then S (span_accepted r) else O
  | [] => O
  end.

(** sanitize on memory that begins with the string: each round skips accepted characters,
    replaces the next one unless it is NUL, and goes one further in any case, so that
    after the last round it looks at what is behind the string. *)
Fixpoint sanitize_loop (fuel : nat) (before m : buffer) : res buffer :=
  match fuel, m with
  | S fuel, c :: _ =>
      if c =? 0 then Ok (before ++ m)
      else
        let n := span_accepted m in
        match drop n m with
        | [] => Fault
        | d :: r =>
            let d := if d =? 0 then d else 95 in
            sanitize_loop fuel (before ++ take n m ++ [d]) r
        end
  | _, _ => Fault
  end.
Definition sanitize (m : buffer) : res buffer := sanitize_loop (S (length m)) [] m.

Definition parse_device_name (ev : uevent) (len : nat) : option cstr :=
  if (ue_major ev <? 0) || (ue_minor ev <? 0) then None
  else
    nm ← after_last SLASH (ue_path ev);
    if (len <? length nm)%nat then None else Some nm.

(** The text up to the next slash, and from it on. *)
Fixpoint to_slash (s : cstr) : cstr * cstr :=
  match s with
  | [] => ([], [])
  | c :: r => if c =? SLASH then ([], s) else let (a, b) := to_slash r in (c :: a, b)
  end.

(** get_character_device_symlinks: the link of a device on a USB bus below a platform
    device, named by its interface.  Where there is one, mkdir makes /dev/usb, behind the
    other directories ([usb_dir]). *)
Definition get_character_device_symlinks (ev : uevent) (l : list platform_node) : list cstr :=
  match find_platform_device (ue_path ev) l with
  | None => []
  | Some pdev =>
      let parent := drop (length (pn_path pdev)) (ue_path ev) in
      if negb (has_prefix "/usb" parent) then []
      else
        let hub := (to_slash (tail parent)).2 in
        let dev := match hub with [] => [] | _ :: r => (to_slash r).2 end in
        match dev with
        | [] => []
        | _ :: interface =>
            let (w, rest) := to_slash interface in
            match w, rest with
            | [], _ | _, [] => []
            | _, _ => [bytes_of "/dev/usb/" ++ ue_subsystem ev ++ w]
            end
        end
  end.

Definition usb_dir (links : list cstr) : list cstr := match links with [] => [] | _ => [bytes_of "/dev/usb"] end.

Section Events.
(** The memory behind the copy of a partition name that sanitize works on. *)
Context (heap : list Z).

Definition parse_platform_block_device (ev : uevent) (l : list platform_node) : res (list cstr) :=
  match find_platform_device (ue_path ev) l with
  | None => Ok []
  | Some pdev =>
      let link_path := take 255 (bytes_of "/dev/block/platform/" ++ pn_name pdev) in
      by_name ← (match partition_name ev with
                 | Some nm => p ← sanitize (nm ++ [0] ++ heap); Ok [link_path ++ bytes_of "/by-name/" ++ c_string p]
                 | None => Ok []
                 end);
      let by_num := if 0 <=? partition_num ev then [link_path ++ bytes_of "/by-num/p" ++ print_int (partition_num ev)] else [] in
      base ← deref (after_last SLASH (ue_path ev));
      Ok (by_name ++ by_num ++ [link_path ++ [SLASH] ++ base])
  end.

(** A device of an event: the directories to make, its path and its links. *)
Record device := mkDevice { dv_dirs : list cstr; dv_path : cstr; dv_block : bool; dv_links : list cstr }.

(** [snprintf(devpath, sizeof(devpath), "%s%s", base, name)] *)
Definition devpath_of (base nm : cstr) : cstr := take 95 (base ++ nm).

Definition block_device (ev : uevent) (l : list platform_node) : res (option device) :=
  match parse_device_name ev 64 with
  | None => Ok None
  | Some nm =>
      let base := bytes_of "/dev/block/" in
      links ← (if has_prefix "/devices/" (ue_path ev) then parse_platform_block_device ev l else Ok []);
      Ok (Some (mkDevice [base] (devpath_of base nm) true links))
  end.

(** The directories of the name of a USB device. *)
Fixpoint name_dirs (before path : cstr) : list cstr :=
  match path with
  | [] => []
  | c :: r => (if c =? SLASH then [before] else []) ++ name_dirs (before ++ [c]) r
  end.

(** %03d *)
Definition print_03 (z : Z) : cstr := let d := print_int z in replicate (3 - length d) 48 ++ d.

(** The base directory of a subsystem, when it has one of its own. *)
Definition subsystem_base (subsystem nm : cstr) : option (string * cstr) :=
  if has_prefix "graphics" subsystem then Some ("/dev/graphics/", nm)
  else if has_prefix "drm" subsystem then Some ("/dev/dri/", nm)
  else if has_prefix "oncrpc" subsystem then Some ("/dev/oncrpc/", nm)
  else if has_prefix "adsp" subsystem then Some ("/dev/adsp/", nm)
  else if has_prefix "msm_camera" subsystem then Some ("/dev/msm_camera/", nm)
  else if has_prefix "input" subsystem then Some ("/dev/input/", nm)
  else if has_prefix "mtd" subsystem then Some ("/dev/mtd/", nm)
  else if has_prefix "sound" subsystem then Some ("/dev/snd/", nm)
  else if has_prefix "misc" subsystem && has_prefix "log_" nm then Some ("/dev/log/", drop 4 nm)
  else None.

Definition generic_device (ev : uevent) (l : list platform_node) : option device :=
  nm ← parse_device_name ev 64;
  let links := get_character_device_symlinks ev l in
  if has_prefix "usb" (ue_subsystem ev) then
    if negb (streq (ue_subsystem ev) "usb") then None
    else
      match device_name ev with
      | Some dn =>
          let devpath := devpath_of (bytes_of "/dev/") dn in
          Some (mkDevice (name_dirs (bytes_of "/dev/") (drop 5 devpath) ++ usb_dir links) devpath false links)
      | None =>
          let bus_id := print_03 (ue_minor ev / 128 + 1) in
          let device_id := print_03 (ue_minor ev mod 128 + 1) in
          let bus := take 95 (bytes_of "/dev/bus/usb/" ++ bus_id) in
          Some (mkDevice ([bytes_of "/dev/bus"; bytes_of "/dev/bus/usb"; bus] ++ usb_dir links)
            (take 95 (bytes_of "/dev/bus/usb/" ++ bus_id ++ [SLASH] ++ device_id)) false links)
      end
  else
    match subsystem_base (ue_subsystem ev) nm with
    | Some (base, nm) => Some (mkDevice (bytes_of base :: usb_dir links) (devpath_of (bytes_of base) nm) false links)
    | None => Some (mkDevice (usb_dir links) (devpath_of (bytes_of "/dev/") nm) false links)
    end.

(** handle_device, after the directories. *)
Definition handle_device (action : cstr) (dv : device) (major minor : Z) (s : ustate) : res ustate :=
  let s := set_files (foldl (λ fs d, make_dir d fs) (files_of s) (dv_dirs dv)) s in
  s ← (if streq action "add" then
         let s := make_device (dv_path dv) (dv_block dv) major minor s in
         fs ← make_links (dv_path dv) (dv_links dv) (files_of s); Ok (set_files fs s)
       else Ok s);
  Ok (if streq action "remove" then
        set_files (unlink (dv_path dv) (foldl (λ fs l, remove_link (dv_path dv) l fs) (files_of s) (dv_links dv))) s
      else s).

Definition handle_platform_device_event (ev : uevent) (s : ustate) : ustate :=
  if streq (ue_action ev) "add" then set_platform_names (add_platform_device (ue_path ev) (platform_names s)) s
  else if streq (ue_action ev) "remove" then set_platform_names (remove_platform_device (ue_path ev) (platform_names s)) s
  else s.

(** handle_block_device_event and handle_generic_device_event: the device of the event. *)
Definition event_device (ev : uevent) (l : list platform_node) : res (option device) :=
  if has_prefix "block" (ue_subsystem ev) then block_device ev l
  else if has_prefix "platform" (ue_subsystem ev) then Ok None
  else Ok (generic_device ev l).

Definition handle_device_event (ev : uevent) (s : ustate) : res ustate :=
  s ← (if streq (ue_action ev) "add" || streq (ue_action ev) "change" then fixup_sys_perms (ue_path ev) s else Ok s);
  if has_prefix "platform" (ue_subsystem ev) then Ok (handle_platform_device_event ev s)
  else
    dv ← event_device ev (platform_names s);
    match dv with
    | Some dv => handle_device (ue_action ev) dv (ue_major ev) (ue_minor ev) s
    | None => Ok s
    end.

Definition UEVENT_MSG_LEN : nat := 1024.

(** handle_device_fd on the messages that arrive; those that fill the buffer are dropped.
    The firmware events of a child are [load_firmware]. *)
Fixpoint handle_device_fd (msgs : list (list Z)) (s : ustate) : res ustate :=
  match msgs with
  | [] => Ok s
  | msg :: msgs =>
      if (UEVENT_MSG_LEN <=? length msg)%nat then handle_device_fd msgs s
      else
        ev ← parse_event (msg ++ [0; 0]);
        s ← handle_device_event ev s;
        handle_device_fd msgs s
  end.
End Events.

(** * Firmware *)

(** The inner loop of load_firmware: [write(data_fd, buf + nw, nr)] with [nw] always 0, for
    the results [ws] of write: whether all went well, what was written, and the results
    left. *)
Fixpoint write_chunk (buf : list Z) (nr : Z) (ws : list Z) (out : list Z) : bool * list Z * list Z :=
  if nr <=? 0 then (true, out, ws)
  else
    match ws with
    | [] => (false, out, [])
    | nw :: ws =>
        if nw <=? 0 then (false, out, ws)
        else write_chunk buf (nr - nw) ws (out ++ take (Z.to_nat nw) (take (Z.to_nat nr) buf))
    end.

(** load_firmware for a file of [len] bytes, the results of read ([None]: an error, an
    empty one the end) and of write: the result and what reached data. *)
Fixpoint load_firmware (len : Z) (reads : list (option (list Z))) (ws : list Z) (out : list Z) : Z * list Z :=
  if len <=? 0 then (0, out)
  else
    match reads with
    | [] | Some [] :: _ => (0, out)
    | None :: _ => (-1, out)
    | Some buf :: reads =>
        let '(ok, out, ws) := write_chunk buf (Z.of_nat (length buf)) ws out in
        if ok : bool then load_firmware (len - Z.of_nat (length buf)) reads ws out else (-1, out)
    end.

(** * The rules of a file *)

Section RulesOk.
Context (android_ids : list (cstr * Z)) (mtd_part_map : list (cstr * Z)).
Abbreviation means := (line_means android_ids mtd_part_map).

(** The words. *)
Lemma after_prefix_here p t : after_prefix p (p ++ t) = Some t.
Proof. induction p as [|x p IH]; [done|]. cbn. by rewrite Z.eqb_refl. Qed.

Lemma after_prefix_text p s t : after_prefix p s = Some t → s = p ++ t.
Proof.
  revert s. induction p as [|x p IH]; intros s E; [by injection E|]. destruct s as [|y s]; [done|]. cbn in E.
  destruct (Z.eqb_spec x y) as [->|]; [|done]. cbn. f_equal. by apply IH.
Qed.

Lemma not_mtd nm : (∀ part, nm ≠ bytes_of "mtd@" ++ part) → after_prefix (bytes_of "mtd@") nm = None.
Proof. intros Hn. destruct (after_prefix _ nm) as [part|] eqn:E; [|done]. by apply after_prefix_text, Hn in E. Qed.

Lemma mtd_number_first l1 part n l2 : part ∉ l1.*1 → mtd_number_in (l1 ++ (part, n) :: l2) part = n.
Proof.
  induction l1 as [|[p m] l1 IH]; cbn; intros Hp; [by rewrite decide_True|].
  rewrite decide_False by set_solver. apply IH. set_solver.
Qed.

Lemma rule_name_names nm nm' prefix : names mtd_part_map nm nm' prefix → rule_name mtd_part_map nm = Ok (Some nm', prefix).
Proof.
  intros [w Hne Hl Hm|w Hm|part l1 n l2 -> Hp Hn]; unfold rule_name.
  - rewrite not_mtd by done. destruct (last w) as [c|] eqn:E; [|by apply last_None in E].
    rewrite (proj2 (Z.eqb_neq c STAR)); [done|congruence].
  - by rewrite not_mtd, last_snoc, Z.eqb_refl, removelast_last by done.
  - rewrite after_prefix_here. unfold mtd_name_to_number. rewrite mtd_number_first by done. by rewrite (proj2 (Z.leb_le _ _)).
Qed.

Lemma digit_value_octal d : is_octal d → digit_value (48 + d) = d.
Proof. intros Hd. unfold is_octal in Hd. assert (d = 0 ∨ d = 1 ∨ d = 2 ∨ d = 3 ∨ d = 4 ∨ d = 5 ∨ d = 6 ∨ d = 7) as Hc by lia. repeat destruct Hc as [->|Hc]; try done. by subst d. Qed.

Lemma octal_digits ds acc rest :
  Forall is_octal ds → (∀ c r, rest = c :: r → 8 ≤ digit_value c) →
  octal (octal_word ds ++ rest) acc = (foldl (λ a d, 8 * a + d) acc ds, rest).
Proof.
  intros Hds Hr. revert acc. induction Hds as [|d ds Hd Hds IH]; intros acc; cbn [octal_word fmap list_fmap app octal foldl].
  - destruct rest as [|c r]; [done|]. cbn [octal]. by rewrite (proj2 (Z.ltb_ge _ _)) by (by apply (Hr c r)).
  - rewrite digit_value_octal, (proj2 (Z.ltb_lt d 8)) by (done || apply Hd). unfold octal_word in IH. rewrite IH. do 2 f_equal. lia.
Qed.

Lemma octal_value_pos ds acc : Forall is_octal ds → 0 ≤ acc → 0 ≤ foldl (λ a d, 8 * a + d) acc ds.
Proof. intros Hds. revert acc. induction Hds as [|d ds Hd Hds IH]; intros acc Ha; [done|]. cbn. apply IH. destruct Hd. lia. Qed.

Lemma octal_start d : is_octal d → isspace (48 + d) = false ∧ 48 + d ≠ 43 ∧ 48 + d ≠ 45.
Proof. intros Hd. unfold is_octal in Hd. assert (d = 0 ∨ d = 1 ∨ d = 2 ∨ d = 3 ∨ d = 4 ∨ d = 5 ∨ d = 6 ∨ d = 7) as Hc by lia. repeat destruct Hc as [->|Hc]; try done. by subst d. Qed.

Lemma no_sign c r : isspace c = false → c ≠ 43 → c ≠ 45 → sign (skip_spaces (c :: r)) = (false, c :: r).
Proof.
  intros Hs H1 H2. cbn [skip_spaces]. rewrite Hs. unfold sign. repeat (case_match; try done; try congruence).
Qed.

(** strtol on a mode: the number and nothing behind it, or something is left. *)
Lemma strtol8_mode w r :
  mode_word w r → match r with Some v => strtol8 w = (v, []) ∧ 0 ≤ v < 2 ^ 31 | None => (strtol8 w).2 ≠ [] end.
Proof.
  intros [ds Hne Hds Hv|ds c rest Hds Hc Hs].
  - destruct ds as [|d ds]; [done|]. pose proof Hds as [Hd _]%Forall_cons. destruct (octal_start d Hd) as (H1 & H2 & H3).
    pose proof (octal_value_pos (d :: ds) 0 Hds ltac:(lia)) as H0. fold (octal_value (d :: ds)) in H0. split; [|lia].
    unfold strtol8. change (octal_word (d :: ds)) with ((48 + d) :: octal_word ds). rewrite no_sign by done.
    rewrite digit_value_octal, (proj2 (Z.ltb_lt d 8)) by (done || apply Hd).
    change ((48 + d) :: octal_word ds) with (octal_word (d :: ds)). rewrite <- (app_nil_r (octal_word (d :: ds))).
    rewrite octal_digits by done. fold (octal_value (d :: ds)). f_equal. lia.
  - unfold strtol8. destruct ds as [|d ds].
    + destruct Hs as [?|(H1 & H2 & H3)]; [done|]. cbn [octal_word fmap list_fmap app]. rewrite no_sign by done.
      by rewrite (proj2 (Z.ltb_ge _ _)).
    + pose proof Hds as [Hd _]%Forall_cons. destruct (octal_start d Hd) as (H1 & H2 & H3).
      change (octal_word (d :: ds) ++ c :: rest) with ((48 + d) :: (octal_word ds ++ c :: rest)). rewrite no_sign by done.
      rewrite digit_value_octal, (proj2 (Z.ltb_lt d 8)) by (done || apply Hd).
      change ((48 + d) :: octal_word ds ++ c :: rest) with (octal_word (d :: ds) ++ c :: rest).
      rewrite octal_digits by (done || by intros ? ? [= <- _]). done.
Qed.

Lemma get_android_id_word w r :
  id_word android_ids w r → match r with Some id => get_android_id android_ids w = id ∧ 0 ≤ id | None => get_android_id android_ids w < 0 end.
Proof.
  unfold get_android_id. intros [w' l1 id l2 -> Hw Hid|w' Hw].
  - split; [|done]. induction l1 as [|[x i] l1 IH]; cbn; [by rewrite decide_True|]. rewrite decide_False by set_solver. apply IH. set_solver.
  - induction android_ids as [|[x i] ids IH]; cbn; [lia|]. rewrite decide_False by set_solver. apply IH. set_solver.
Qed.

(** One rule. *)
Lemma set_rule_ok nm prefix attr mode user group perm uid gid s :
  mode_word mode perm → id_word android_ids user uid → id_word android_ids group gid →
  set_rule android_ids (Some nm) prefix attr mode user group s =
    Ok (add_rule s (p ← perm; u ← uid; g ← gid; Some (mkPerms nm attr p u g prefix))).
Proof.
  intros Hm%strtol8_mode Hu%get_android_id_word Hg%get_android_id_word. unfold set_rule.
  destruct perm as [p|]; [destruct Hm as [-> Hp]|destruct (strtol8 mode) as [? [|? ?]]; [by cbn in Hm|done]].
  change (bool_decide (@nil Z = [])) with true. cbn [negb].
  destruct uid as [u|]; [destruct Hu as [-> Hu]; rewrite (proj2 (Z.ltb_ge u 0)) by done|by rewrite (proj2 (Z.ltb_lt _ 0))].
  destruct gid as [g|]; [destruct Hg as [-> Hg]; rewrite (proj2 (Z.ltb_ge g 0)) by done|by rewrite (proj2 (Z.ltb_lt _ 0))].
  cbn. by rewrite u32_small by lia.
Qed.

(** A line does what its rule says. *)
Lemma set_device_permission_ok args ws r s :
  args_hold args ws → (length ws ≤ 5)%nat → means ws r →
  set_device_permission android_ids mtd_part_map (length ws) args s = Ok (add_rule s r).
Proof.
  intros Hh Hl Hm. assert (∀ i w, ws !! i = Some w → arg args i = Ok w) as Ha by (intros; by eapply arg_hold).
  assert (∀ i, arg (tail args) i = arg args (S i)) as Ht by (intros; unfold arg; by destruct args).
  unfold set_device_permission. destruct Hm as [nm ws Hc|nm ws Hc H3 H4|ws nm attr mode user group nm' prefix perm uid gid Hw Hc Hn Hm Hu Hg].
  - rewrite (Ha 0%nat nm eq_refl). cbn [length Nat.eqb mbind res_bind]. by rewrite bool_decide_eq_true_2.
  - rewrite (Ha 0%nat nm eq_refl). cbn [length Nat.eqb mbind res_bind]. rewrite bool_decide_eq_false_2 by done.
    destruct ws as [|w1 [|w2 [|w3 [|w4 [|w5 ws]]]]]; cbn in Hl, H3; try lia; cbn [length Nat.eqb Nat.sub]; rewrite ?andb_false_r; try done.
    by rewrite (H4 eq_refl).
  - assert (rule_name mtd_part_map nm = Ok (Some nm', prefix)) as En by (by apply rule_name_names).
    destruct Hw as [nm mode user group|nm attr mode user group Hp]; rewrite (Ha 0%nat nm eq_refl); cbn [length Nat.eqb mbind res_bind];
      rewrite bool_decide_eq_false_2 by done; rewrite ?Hp, ?andb_false_r; cbn [andb mbind res_bind negb Nat.eqb Nat.sub].
    + rewrite En. cbn [mbind res_bind]. rewrite (Ha 1%nat mode eq_refl), (Ha 2%nat user eq_refl), (Ha 3%nat group eq_refl).
      cbn [mbind res_bind]. by apply set_rule_ok.
    + rewrite (Ha 1%nat attr eq_refl). cbn [mbind res_bind negb Nat.eqb]. rewrite En. cbn [mbind res_bind].
      rewrite !Ht, (Ha 2%nat mode eq_refl), (Ha 3%nat user eq_refl), (Ha 4%nat group eq_refl). cbn [mbind res_bind]. by apply set_rule_ok.
Qed.

(** The lines of a file as this parser sees them. *)
Definition rule_lines (data : list Z) : list (list cstr) :=
  (λ '(_, ws), take UEVENTD_PARSER_MAXARGS ws) <$> lines_of false (file_text data) 1.

Lemma feed_rules ls rs args s :
  Forall2 (λ '(_, ws) r, means (take UEVENTD_PARSER_MAXARGS ws) r) ls rs → Forall (λ '(_, ws), ws ≠ []) ls →
  feed UEVENTD_PARSER_MAXARGS (λ _, set_device_permission android_ids mtd_part_map) ls args s = Ok (foldl add_rule s rs).
Proof.
  intros Hls. revert args s. induction Hls as [|[l ws] r ls rs Hm Hls IH]; intros args s Hne; [done|]. cbn [feed foldl].
  apply Forall_cons in Hne as [Hne Hnes].
  rewrite (set_device_permission_ok _ _ r); [by apply IH|apply fill_hold|rewrite length_take; unfold UEVENTD_PARSER_MAXARGS; lia|done].
Qed.

Lemma add_rules rs s :
  foldl add_rule s rs =
    set_sys_perms (sys_perms s ++ filter (λ p, is_Some (dp_attr p)) (omap id rs))
      (set_dev_perms (dev_perms s ++ filter (λ p, ¬ is_Some (dp_attr p)) (omap id rs)) s).
Proof.
  revert s. induction rs as [|[[nm attr perm u g pre]|] rs IH]; intros s; cbn [foldl omap list_omap id add_rule].
  - rewrite !app_nil_r. by destruct s.
  - rewrite IH. unfold add_dev_perms. cbn [dp_name dp_attr dp_perm dp_uid dp_gid dp_prefix]. destruct attr as [a|].
    + rewrite filter_cons_True by (by eexists). rewrite filter_cons_False by (cbn; intros Hn; apply Hn; by eexists).
      cbn. by rewrite <- app_assoc.
    + rewrite filter_cons_False by (by intros [? ?]). rewrite filter_cons_True by (by intros [? ?]). cbn. by rewrite <- app_assoc.
  - apply IH.
Qed.

(** C32: ueventd loads its rules.  For any file whose lines have a meaning, and whatever
    rules are there already: the file is read to its end within memory, and the rules of
    its lines are added behind the others in their order, to the list for /sys when they
    have an attribute and to the list for /dev otherwise.  A line means the rule with its
    path, as a prefix when the path ends with a star, or with the node /dev/mtd/mtd<n> of
    an MTD partition, and with the octal mode and the numbers of its user and group; a
    comment, a line with another number of words, and one with a bad mode or an unknown
    user or group mean nothing.  (Not covered: an empty first word or an unknown MTD
    partition, on which the code leaves its memory, and signs, spaces or no digits at all
    in a mode.) *)
Theorem ueventd_rules_load (read_file : cstr → option (list Z)) (fn : cstr) (data : list Z) (s : ustate) (rs : list (option perms_)) :
  read_file fn = Some data → Forall2 means (rule_lines data) rs →
  ueventd_parse_config_file android_ids mtd_part_map read_file fn s =
    Ok (0, set_sys_perms (sys_perms s ++ filter (λ p, is_Some (dp_attr p)) (omap id rs))
             (set_dev_perms (dev_perms s ++ filter (λ p, ¬ is_Some (dp_attr p)) (omap id rs)) s)).
Proof.
  intros Hr Hs. unfold ueventd_parse_config_file, ueventd_parse_config. rewrite Hr.
  rewrite (parse_file_feed UEVENTD_PARSER_MAXARGS false (λ _, set_device_permission android_ids mtd_part_map)
    (set_device_permission android_ids mtd_part_map 0 [])) by (unfold UEVENTD_PARSER_MAXARGS; lia).
  rewrite (feed_rules _ rs).
  - cbn [mbind res_bind]. change (set_device_permission android_ids mtd_part_map 0 [] ?x) with (Ok x). cbn [mbind res_bind].
    by rewrite add_rules.
  - unfold rule_lines in Hs. rewrite Forall2_fmap_l in Hs. apply (Forall2_impl _ _ _ _ Hs). by intros [l ws] r.
  - apply Forall_forall. intros [l ws] Hin. by eapply lines_nonempty.
Qed.
End RulesOk.
