(* ===== verification/UeventdDev.v ===== *)
(** Theorems about the device manager of Android init ([Ueventd]): which rule gives a node
    its permissions, that a device which comes and goes leaves only directories behind,
    that no message of the kernel does harm, and how firmware is copied; with a phone's
    eMMC partition as example. *)
From Stdlib Require Import ZArith.
From stdpp Require Import base numbers list strings sets gmap pretty.
From S2P Require Import Prelude Bytes InitLexer InitConfig InitActions InitProps Ueventd.

(** * The rule that counts *)

(** A rule is for a path: the path is its name, or begins with it when it ended with a
    star. *)
Definition rule_for (path : cstr) (dp : perms_) : Prop :=
  if dp_prefix dp then ∃ rest, path = dp_name dp ++ rest else path = dp_name dp.

Lemma rule_matches_for path dp : rule_matches path dp (dp_name dp) = true ↔ rule_for path dp.
Proof.
  unfold rule_matches, rule_for. destruct (dp_prefix dp); rewrite bool_decide_eq_true; [|done]. split.
  - intros [t Ht]. exists t. by apply after_prefix_text.
  - intros [t ->]. exists t. apply after_prefix_here.
Qed.

(** The mode, owner and group that the rules give a path: those of the last rule for it,
    or 0600, root and root. *)
Definition granted (path : cstr) (l : list perms_) (perm uid gid : Z) : Prop :=
  (∃ l1 dp l2, l = l1 ++ dp :: l2 ∧ rule_for path dp ∧ Forall (λ dp, ¬ rule_for path dp) l2 ∧
     perm = dp_perm dp ∧ uid = dp_uid dp ∧ gid = dp_gid dp) ∨
  (Forall (λ dp, ¬ rule_for path dp) l ∧ perm = 0x180 ∧ uid = 0 ∧ gid = 0).

Lemma get_device_perm_granted path l :
  let '(perm, uid, gid) := get_device_perm path l in granted path l perm uid gid.
Proof.
  unfold get_device_perm. destruct (list_find _ (reverse l)) as [[i dp]|] eqn:E.
  - apply list_find_Some in E as (Hi & Hm & Hb). apply list_elem_of_split_length in Hi as (r1 & r2 & Hr & ->).
    left. exists (reverse r2), dp, (reverse r1). split_and!; [|by apply rule_matches_for| |done..].
    + rewrite <- (reverse_involutive l), Hr, reverse_app, reverse_cons, <- app_assoc. done.
    + apply Forall_reverse, Forall_lookup_2. intros j x Hj. rewrite <- rule_matches_for. apply (Hb j).
      * rewrite Hr. rewrite lookup_app_l; [done|by eapply lookup_lt_Some].
      * by eapply lookup_lt_Some.
  - apply list_find_None in E. right. split; [|done]. rewrite <- (reverse_involutive l). apply Forall_reverse.
    apply (Forall_impl _ _ _ E). intros x. by rewrite <- rule_matches_for.
Qed.

(** * What a device leaves behind *)

(** Nothing changes but that directories appear. *)
Definition dirs_added (fs fs' : gmap cstr inode) : Prop :=
  ∀ p, fs' !! p = fs !! p ∨ (fs !! p = None ∧ fs' !! p = Some Dir).

#[global] Instance dirs_added_preorder : PreOrder dirs_added.
Proof.
  split; [by left|]. intros f1 f2 f3 H1 H2 p. destruct (H1 p) as [E1|[E1 E1']], (H2 p) as [E2|[E2 E2']];
    solve [left; congruence | right; split; congruence].
Qed.

Lemma make_dir_added d fs : dirs_added fs (make_dir d fs).
Proof.
  intros p. unfold make_dir. destruct (fs !! trim_slash d) eqn:E; [by left|].
  destruct (decide (trim_slash d = p)) as [<-|]; [right; by rewrite lookup_insert_eq|left; by rewrite lookup_insert_ne].
Qed.

Lemma make_dirs_added ds fs : dirs_added fs (foldl (λ fs d, make_dir d fs) fs ds).
Proof. revert fs. induction ds as [|d ds IH]; intros fs; [reflexivity|]. etransitivity; [apply make_dir_added|apply IH]. Qed.

(** The arrays of util.c and devices.c are large enough for what goes into them. *)
Lemma copy_to_array_ok size str : (length str < size)%nat → ∃ buf, copy_to_array size str = Ok buf.
Proof.
  intros Hl. unfold copy_to_array. destruct (store_in (replicate size 0) 0 (str ++ [0])) as [b ->]; [done| |by eexists].
  rewrite length_app, length_replicate. cbn. lia.
Qed.

Lemma mkdir_components_ok path before fs :
  ∃ ok fs', mkdir_components before path fs = Ok (ok, fs') ∧ dirs_added fs fs'.
Proof.
  revert before fs. induction path as [|c path IH]; intros before fs; cbn [mkdir_components]; [by eexists _, _|].
  case_match; [apply IH|]. destruct (Nat.ltb_spec 127 (length before)); [by eexists _, _|].
  destruct (copy_to_array_ok 128 before) as [buf ->]; [lia|]. cbn [mbind res_bind].
  destruct (IH (before ++ [c]) (make_dir buf fs)) as (ok & fs' & -> & Hd). exists ok, fs'. split; [done|].
  etransitivity; [apply make_dir_added|exact Hd].
Qed.

Lemma mkdir_recursive_ok path fs : ∃ fs', mkdir_recursive path fs = Ok fs' ∧ dirs_added fs fs'.
Proof.
  unfold mkdir_recursive. destruct (mkdir_components_ok path [] fs) as (ok & fs' & -> & Hd). cbn [mbind res_bind].
  eexists. split; [done|]. destruct ok; [|done]. etransitivity; [exact Hd|apply make_dir_added].
Qed.

(** A link is made, or nothing, once its directories are there. *)
Lemma make_link_ok oldpath newpath fs :
  ∃ fs1 fs2, make_link oldpath newpath fs = Ok fs2 ∧ dirs_added fs fs1 ∧ (fs2 = fs1 ∨ fs2 = create newpath (Link oldpath) fs1).
Proof.
  unfold make_link. destruct (after_last SLASH newpath) as [base|]; [|exists fs, fs; split_and!; [done|reflexivity|by left]].
  set (width := (_ - _ - 1)%nat). destruct ((width =? 0)%nat || (255 <? width)%nat) eqn:E; [exists fs, fs; split_and!; [done|reflexivity|by left]|].
  apply orb_false_elim in E as [_ E%Nat.ltb_ge]. destruct (copy_to_array_ok 256 (take width newpath)) as [buf ->]; [rewrite length_take; lia|].
  cbn [mbind res_bind]. destruct (mkdir_recursive_ok buf fs) as (fs' & -> & Hd). cbn [mbind res_bind].
  eexists fs', _. split_and!; [done|done|by right].
Qed.

(** A directory that is made only where a shorter path is. *)
Lemma make_dirs_keep ds fs p :
  Forall (λ d, trim_slash d ≠ p) ds → foldl (λ fs d, make_dir d fs) fs ds !! p = fs !! p.
Proof.
  intros Hd. revert fs. induction Hd as [|d ds Hne Hd IH]; intros fs; [done|]. cbn. rewrite IH. unfold make_dir.
  case_match; [done|]. by rewrite lookup_insert_ne.
Qed.

Section Device.
Context (fs0 : gmap cstr inode) (dp : cstr) (links : list cstr).

(** The files while the device is there: beside directories, only its node and its links
    are new. *)
Definition while_there (fs : gmap cstr inode) : Prop := ∀ p,
  fs !! p = fs0 !! p ∨
  (fs0 !! p = None ∧ (fs !! p = Some Dir ∨ (p = dp ∧ ∃ m u g x y, fs !! p = Some (Node m u g x y)) ∨
                     (p ∈ links ∧ fs !! p = Some (Link dp)))).

Lemma while_there_dirs fs fs' : while_there fs → dirs_added fs fs' → while_there fs'.
Proof.
  intros Hw Hd p. destruct (Hd p) as [->|[E1 E2]]; [apply Hw|]. destruct (Hw p) as [E|(E0 & [E|[(_ & ? & ? & ? & ? & ? & E)|[_ E]]])]; try congruence.
  right. split; [congruence|by left].
Qed.

Lemma while_there_create p i fs :
  while_there fs → (p = dp ∧ (∃ m u g x y, i = Node m u g x y)) ∨ (p ∈ links ∧ i = Link dp) → while_there (create p i fs).
Proof.
  intros Hw Hi q. unfold create. case_bool_decide; [apply Hw|]. destruct (fs !! p) eqn:E; [apply Hw|].
  destruct (decide (p = q)) as [<-|]; [|rewrite lookup_insert_ne by done; apply Hw]. rewrite lookup_insert_eq.
  destruct (Hw p) as [E'|(E0 & [E'|[(_ & ? & ? & ? & ? & ? & E')|[_ E']]])]; try congruence.
  right. split; [congruence|]. destruct Hi as [(-> & m & u & g & x & y & ->)|[Hin ->]]; [|by auto].
  right. left. split; [done|by eexists _, _, _, _, _].
Qed.

(** Making the links. *)
Lemma make_links_there ls fs :
  while_there fs → (∀ l, l ∈ ls → l ∈ links) →
  ∃ fs', make_links dp ls fs = Ok fs' ∧ while_there fs' ∧ ∀ p i, fs !! p = Some i → fs' !! p = Some i.
Proof.
  revert fs. induction ls as [|l ls IH]; intros fs Hw Hls; [by exists fs|]. cbn [make_links].
  destruct (make_link_ok dp l fs) as (fs1 & fs2 & -> & Hd & H2). cbn [mbind res_bind].
  assert (while_there fs1) as Hw1 by (by eapply while_there_dirs).
  assert (∀ p i, fs !! p = Some i → fs1 !! p = Some i) as Hk1 by (intros p i Hp; destruct (Hd p) as [E|[? _]]; congruence).
  assert (while_there fs2 ∧ ∀ p i, fs1 !! p = Some i → fs2 !! p = Some i) as [Hw2 Hk2].
  { destruct H2 as [-> | ->]; [done|]. split; [apply while_there_create; [done|right; split; [apply Hls; by left|done]]|].
    intros p i Hp. unfold create. case_bool_decide; [done|]. destruct (fs1 !! l) eqn:E; [done|].
    rewrite lookup_insert_ne; [done|congruence]. }
  destruct (IH fs2 Hw2) as (fs' & -> & Hw' & Hk'); [intros; apply Hls; by right|]. exists fs'. split_and!; [done|done|]. auto.
Qed.

Hypothesis dp_free : fs0 !! dp = None.
Hypothesis links_free : Forall (λ l, fs0 !! l = None) links.
Hypothesis dp_short : (0 < length dp ≤ 255)%nat.

Lemma remove_link_spec l fs q :
  while_there fs → l ∈ links →
  remove_link dp l fs !! q = if decide (q = l) then match fs !! q with Some (Link _) => None | o => o end else fs !! q.
Proof.
  intros Hw Hl. unfold remove_link. rewrite Forall_forall in links_free. pose proof (links_free l Hl) as H0.
  destruct (fs !! l) as [[]|] eqn:E; try (case_decide; [subst q; by rewrite E|done]).
  destruct (Hw l) as [E'|(_ & [E'|[(_ & ? & ? & ? & ? & ? & E')|[_ E']]])]; rewrite E in E'; try congruence.
  injection E' as ->. rewrite take_ge by lia. rewrite bool_decide_eq_false_2 by (intros ->; cbn in dp_short; lia).
  rewrite bool_decide_eq_true_2 by done. unfold unlink. rewrite E.
  case_decide as Hd; [subst q; by rewrite E, lookup_delete_eq|by rewrite lookup_delete_ne].
Qed.

Lemma remove_links_spec ls fs q :
  while_there fs → (∀ l, l ∈ ls → l ∈ links) →
  while_there (foldl (λ fs l, remove_link dp l fs) fs ls) ∧
  foldl (λ fs l, remove_link dp l fs) fs ls !! q =
    if decide (q ∈ ls) then match fs !! q with Some (Link _) => None | o => o end else fs !! q.
Proof.
  revert fs. induction ls as [|l ls IH]; intros fs Hw Hls; [by split; [|rewrite decide_False by apply not_elem_of_nil]|].
  assert (l ∈ links) as Hl by (apply Hls; by left). cbn [foldl].
  destruct (IH (remove_link dp l fs)) as [Hw' E]; [|intros; apply Hls; by right|].
  - intros p. rewrite remove_link_spec by done. destruct (decide (p = l)) as [->|]; [|apply Hw].
    rewrite Forall_forall in links_free. pose proof (links_free l Hl) as H0.
    destruct (Hw l) as [E|(E0 & [E|[(-> & ? & ? & ? & ? & ? & E)|[_ E]]])]; rewrite E; [rewrite H0; by left|right; auto|right|rewrite H0; by left].
    split; [done|]. right. left. split; [done|by eexists _, _, _, _, _].
  - split; [done|]. rewrite E, remove_link_spec by done.
    destruct (decide (q ∈ ls)) as [H1|H1], (decide (q = l)) as [H2|H2].
    + rewrite decide_True by (apply elem_of_cons; auto). by destruct (fs !! q) as [[]|].
    + by rewrite decide_True by (by right).
    + rewrite decide_True by (apply elem_of_cons; auto). done.
    + rewrite decide_False; [done|]. by intros [?|?]%elem_of_cons.
Qed.

(** After the removal only directories are left. *)
Lemma removed_restores fs :
  while_there fs → dirs_added fs0 (unlink dp (foldl (λ fs l, remove_link dp l fs) fs links)).
Proof.
  intros Hw q. destruct (remove_links_spec links fs q Hw ltac:(done)) as [Hw' E].
  set (fs' := foldl _ fs links) in *. clearbody fs'. unfold unlink.
  assert (fs' !! q = fs0 !! q ∨ (fs0 !! q = None ∧ (fs' !! q = Some Dir ∨ q = dp))) as Hq.
  { destruct (Hw' q) as [?|(E0 & [?|[(-> & _)|[Hin E']]])]; auto. exfalso. rewrite E, decide_True in E' by done.
    by destruct (fs !! q) as [[]|]. }
  destruct (fs' !! dp) as [[m u g x y|t|]|] eqn:Ed.
  - destruct (decide (q = dp)) as [->|Hne]; [left; by rewrite lookup_delete_eq, dp_free|].
    rewrite lookup_delete_ne by done. destruct Hq as [Hq|(Hn & [Hq|Hq])]; auto; done.
  - destruct (decide (q = dp)) as [->|Hne]; [left; by rewrite lookup_delete_eq, dp_free|].
    rewrite lookup_delete_ne by done. destruct Hq as [Hq|(Hn & [Hq|Hq])]; auto; done.
  - destruct Hq as [Hq|(Hn & [Hq| ->])]; auto.
  - destruct Hq as [Hq|(Hn & [Hq| ->])]; auto. left. congruence.
Qed.
End Device.

(** The path of a device is not empty, fits the buffer, and is longer than the directories
    that are made for it, but perhaps for /dev/usb. *)
Record device_ok (dv : device) : Prop := {
  do_short : (0 < length (dv_path dv) ≤ 95)%nat;
  do_dirs : Forall (λ d, trim_slash d ≠ dv_path dv ∨ d = bytes_of "/dev/usb") (dv_dirs dv)
}.

Lemma usb_dirs dv dirs links :
  dv_dirs dv = dirs ++ usb_dir links → (0 < length (dv_path dv) ≤ 95)%nat →
  Forall (λ d, (length (trim_slash d) < length (dv_path dv))%nat) dirs → device_ok dv.
Proof.
  intros E Hl Hd. split; [done|]. rewrite E. apply Forall_app. split.
  - apply (Forall_impl _ _ _ Hd). intros d Hlt. left. intros Ed. rewrite Ed in Hlt. lia.
  - unfold usb_dir. destruct links; [done|]. by repeat constructor; right.
Qed.

Lemma trim_slash_length d : (length (trim_slash d) ≤ length d)%nat.
Proof.
  unfold trim_slash. case_bool_decide; [|done]. destruct d as [|c d] using rev_ind; [done|]. rewrite removelast_last, length_app. lia.
Qed.

Lemma length_devpath base nm : length (devpath_of base nm) = (95 `min` (length base + length nm))%nat.
Proof. unfold devpath_of. by rewrite length_take, length_app. Qed.

(** A number of 32 bits has at most eleven characters. *)
Lemma pretty_N_go_length k x s : (x < 10 ^ N.of_nat k)%N → (String.length (pretty_N_go x s) ≤ k + String.length s)%nat.
Proof.
  revert x s. induction k as [|k IH]; intros x s Hx.
  { assert (x = 0%N) as -> by (cbn in Hx; lia). by rewrite pretty_N_go_0. }
  assert (x = 0 ∨ 0 < x)%N as [->|Hp] by lia; [rewrite pretty_N_go_0; lia|]. rewrite pretty_N_go_step by done.
  etransitivity; [apply IH|cbn; lia]. apply N.Div0.div_lt_upper_bound. by rewrite Nat2N.inj_succ, N.pow_succ_r' in Hx.
Qed.

Lemma length_bytes_of s : length (bytes_of s) = String.length s.
Proof. unfold bytes_of. rewrite length_fmap. induction s as [|c s IH]; [done|]. cbn. by rewrite IH. Qed.

Lemma print_int_length z : (length (print_int z) ≤ 11)%nat.
Proof.
  assert (∀ n : N, (n < 10 ^ 10)%N → (String.length (pretty n) ≤ 10)%nat) as Hn.
  { intros n Hlt. unfold pretty, pretty_N. case_decide; [cbn; lia|]. etransitivity; [apply (pretty_N_go_length 10); exact Hlt|cbn; lia]. }
  unfold print_int. rewrite length_bytes_of. pose proof (Z.mod_pos_bound (z + 2 ^ 31) (2 ^ 32) ltac:(lia)). unfold s32.
  destruct ((z + 2 ^ 31) mod 2 ^ 32 - 2 ^ 31) as [|p|p] eqn:E; unfold pretty, pretty_Z; [cbn; lia|..].
  - etransitivity; [apply Hn; lia|lia].
  - cbn. apply le_n_S, Hn. lia.
Qed.

Lemma print_03_length z : (length (print_03 z) ≤ 11)%nat.
Proof. unfold print_03. rewrite length_app, length_replicate. pose proof (print_int_length z). lia. Qed.

(** A device in a base directory of its own. *)
Lemma base_device_ok base nm block links ls :
  (0 < length base ≤ 95)%nat → last base = Some SLASH → device_ok (mkDevice (base :: usb_dir ls) (devpath_of base nm) block links).
Proof.
  intros Hl Hs. apply (usb_dirs _ [base] ls); [done|..]; cbn [dv_path]; rewrite length_devpath; [lia|]. constructor; [|done].
  unfold trim_slash. rewrite bool_decide_eq_true_2 by done. destruct base as [|c b] using rev_ind; [by cbn in Hl|].
  clear IHb. rewrite removelast_last. rewrite !length_app in *. change (length [c]) with 1%nat in *. lia.
Qed.

Lemma name_dirs_shorter path before :
  Forall (λ d, (length d < length before + length path)%nat) (name_dirs before path).
Proof.
  revert before. induction path as [|c path IH]; intros before; cbn [name_dirs]; [done|]. apply Forall_app. split.
  - case_match; [|done]. constructor; [cbn; lia|done].
  - apply (Forall_impl _ _ _ (IH (before ++ [c]))). intros d. rewrite length_app. cbn. lia.
Qed.

Lemma subsystem_base_ok subsystem nm base nm' :
  subsystem_base subsystem nm = Some (base, nm') → (0 < length (bytes_of base) ≤ 95)%nat ∧ last (bytes_of base) = Some SLASH.
Proof. unfold subsystem_base. intros Hb. repeat (case_match; [simplify_eq; vm_compute; split; [lia|done]|]). done. Qed.

Lemma generic_device_ok ev l dv : generic_device ev l = Some dv → device_ok dv.
Proof.
  unfold generic_device. destruct (parse_device_name ev 64) as [nm|]; [|done]. cbn [mbind option_bind]. cbv zeta.
  case_match; [case_match; [done|]|].
  - destruct (device_name ev) as [dn|]; intros E%(inj Some); subst dv.
    + assert (5 ≤ length (devpath_of (bytes_of "/dev/") dn) ≤ 95)%nat as Hl
        by (rewrite length_devpath; change (length (bytes_of "/dev/")) with 5%nat; lia).
      revert Hl. generalize (devpath_of (bytes_of "/dev/") dn). intros dp Hl. eapply usb_dirs; cbn [dv_path dv_dirs]; [reflexivity|lia|].
      apply (Forall_impl _ _ _ (name_dirs_shorter (drop 5 dp) (bytes_of "/dev/"))). intros d Hd. pose proof (trim_slash_length d).
      rewrite length_drop in Hd. change (length (bytes_of "/dev/")) with 5%nat in Hd. lia.
    + pose proof (print_03_length (ue_minor ev / 128 + 1)) as Hb. generalize dependent (print_03 (ue_minor ev / 128 + 1)).
      intros bus Hb. generalize (print_03 (ue_minor ev mod 128 + 1)). intros dev. set (p := bytes_of "/dev/bus/usb/").
      assert (length p = 13)%nat as Hp by done.
      assert (length (take 95 (p ++ bus ++ [SLASH] ++ dev)) = (95 `min` (14 + length bus + length dev)))%nat as El.
      { rewrite length_take, !length_app, Hp. change (length [SLASH]) with 1%nat. f_equal. lia. }
      eapply usb_dirs; cbn [dv_path dv_dirs]; [reflexivity|..]; rewrite El; [lia|].
      assert (∀ d, (length d ≤ 13 + length bus)%nat → (length (trim_slash d) < 95 `min` (14 + length bus + length dev))%nat) as Hd
        by (intros d ?; pose proof (trim_slash_length d); lia).
      rewrite !Forall_cons. split_and!; [apply Hd..|done].
      * change (length (bytes_of "/dev/bus")) with 8%nat. lia.
      * change (length (bytes_of "/dev/bus/usb")) with 12%nat. lia.
      * rewrite length_take, length_app, Hp. lia.
  - destruct (subsystem_base (ue_subsystem ev) nm) as [[base nm']|] eqn:E; intros E'%(inj Some); subst dv.
    + apply subsystem_base_ok in E as [? ?]. by apply base_device_ok.
    + apply (usb_dirs _ [] (get_character_device_symlinks ev l)); [done| |done]. cbn [dv_path]. rewrite length_devpath. change (length (bytes_of "/dev/")) with 5%nat. lia.
Qed.

Lemma event_device_ok heap ev l dv : event_device heap ev l = Ok (Some dv) → device_ok dv.
Proof.
  unfold event_device, block_device. case_match.
  - destruct (parse_device_name ev 64); [|done]. intros (links & _ & [= <-])%res_bind_ok. by apply (base_device_ok _ _ _ _ []); [vm_compute; lia|].
  - case_match; [done|]. intros [= E]. by eapply generic_device_ok.
Qed.

(** * A device comes and goes *)

Definition with_action (a : string) (ev : uevent) : uevent :=
  mkUevent (bytes_of a) (ue_path ev) (ue_subsystem ev) (ue_firmware ev) (partition_name ev) (device_name ev)
    (partition_num ev) (ue_major ev) (ue_minor ev).

Lemma fixup_loop_ok upath l done_ : ∃ done', fixup_loop upath l done_ = Ok done'.
Proof.
  revert done_. induction l as [|dp l IH]; intros done_; cbn [fixup_loop]; [by eexists|]. destruct (negb _); [apply IH|]. cbv zeta.
  destruct (Nat.ltb_spec 512 (length upath + length (default [] (dp_attr dp)) + 6)) as [|Hl]; [by eexists|].
  destruct (copy_to_array_ok 512 (bytes_of "/sys" ++ upath ++ [SLASH] ++ default [] (dp_attr dp))) as [buf ->]; [|apply IH].
  rewrite !length_app. change (length (bytes_of "/sys")) with 4%nat. change (length [SLASH]) with 1%nat. lia.
Qed.

(** The first step of an event: it changes [fixups] only. *)
Lemma event_fixups (b : bool) upath s :
  ∃ done_, (if b then fixup_sys_perms upath s else Ok s) = Ok (set_fixups done_ s).
Proof.
  destruct b; [|exists (fixups s); by destruct s]. unfold fixup_sys_perms.
  destruct (fixup_loop_ok upath (sys_perms s) (fixups s)) as [d ->]. by exists d.
Qed.

(** An event that concerns a device of its own, not a platform device. *)
Lemma handle_device_event_ok heap a ev s dv :
  event_device heap ev (platform_names s) = Ok (Some dv) →
  ∃ done_, handle_device_event heap (with_action a ev) s = handle_device (bytes_of a) dv (ue_major ev) (ue_minor ev) (set_fixups done_ s).
Proof.
  intros Hd. unfold handle_device_event. cbn [with_action ue_action ue_path ue_subsystem ue_major ue_minor].
  destruct (event_fixups (streq (bytes_of a) "add" || streq (bytes_of a) "change") (ue_path ev) s) as [d ->]. exists d. cbn [mbind res_bind].
  assert (has_prefix "platform" (ue_subsystem ev) = false) as ->.
  { unfold event_device in Hd. destruct (has_prefix "block" (ue_subsystem ev)) eqn:Eb; [|by destruct (has_prefix "platform" _)].
    destruct (ue_subsystem ev) as [|c sub]; [done|]. unfold has_prefix in *. apply bool_decide_eq_true_1 in Eb as [t Et].
    cbn [bytes_of String.list_ascii_of_string fmap list_fmap after_prefix] in Et. case_match eqn:Ec; [|done].
    apply Z.eqb_eq in Ec. subst c. done. }
  change (event_device heap (with_action a ev)) with (event_device heap ev). cbn [platform_names set_fixups]. by rewrite Hd.
Qed.

(** make_device at a free path. *)
Lemma make_device_new path block major minor s :
  files_of s !! path = None → last path ≠ Some SLASH →
  files_of (make_device path block major minor s) !! path =
    let '(perm, uid, gid) := get_device_perm path (dev_perms s) in
    Some (Node (Z.lor perm (if block then S_IFBLK else S_IFCHR)) uid gid major minor).
Proof.
  intros Hn Hs. unfold make_device. destruct (get_device_perm path (dev_perms s)) as [[perm uid] gid]. cbv zeta.
  unfold create. rewrite bool_decide_eq_false_2, Hn by done. cbn [set_files files_of].
  rewrite lookup_insert_eq, lookup_alter_eq, lookup_insert_eq. done.
Qed.

Lemma make_device_there fs0 dp links path block major minor s :
  while_there fs0 dp links (files_of s) → path = dp → fs0 !! dp = None → (∀ t, files_of s !! dp ≠ Some (Link t)) →
  while_there fs0 dp links (files_of (make_device path block major minor s)).
Proof.
  intros Hw -> H0 Hnl. unfold make_device. destruct (get_device_perm dp (dev_perms s)) as [[perm uid] gid]. cbn [set_files files_of].
  match goal with |- context [create dp ?i ?f] => set (i0 := i); assert (while_there fs0 dp links (create dp i0 f)) as Hc end.
  { apply while_there_create; [done|]. left. split; [done|by eexists _, _, _, _, _]. }
  assert (∀ t, create dp i0 (files_of s) !! dp ≠ Some (Link t)) as Hnl'.
  { intros t. unfold create. case_bool_decide; [apply Hnl|]. destruct (files_of s !! dp) eqn:E; [rewrite E; apply Hnl|].
    by rewrite lookup_insert_eq. }
  revert Hc Hnl'. generalize (create dp i0 (files_of s)). intros fs Hc Hnl'.
  replace (match fs !! dp with Some (Link t) => alter (chown_node uid) t fs | _ => alter (chown_node uid) dp fs end)
    with (alter (chown_node uid) dp fs) by (destruct (fs !! dp) as [[]|] eqn:E; [done| |done..]; by destruct (Hnl' target)).
  intros q. destruct (decide (q = dp)) as [->|Hne]; [|rewrite lookup_alter_ne by done; apply Hc]. rewrite lookup_alter_eq.
  destruct (fs !! dp) as [[m u g x y|t|]|] eqn:E; cbn.
  - right. split; [done|]. right. left. split; [done|by eexists _, _, _, _, _].
  - by destruct (Hnl' t).
  - right. auto.
  - by left.
Qed.

Lemma make_device_names path block major minor s :
  platform_names (make_device path block major minor s) = platform_names s.
Proof. unfold make_device. by destruct (get_device_perm _ _) as [[? ?] ?]. Qed.

(** handle_device always returns, and knows the same platform devices afterwards. *)
Lemma handle_device_ok a dv major minor s :
  ∃ s', handle_device a dv major minor s = Ok s' ∧ platform_names s' = platform_names s.
Proof.
  unfold handle_device. destruct (streq a "add"); [|destruct (streq a "remove"); eexists; (split; [done|done])].
  set (s1 := make_device _ _ _ _ _). destruct (make_links_there (files_of s1) (dv_path dv) (dv_links dv) (dv_links dv) (files_of s1)) as (fs' & -> & _);
    [by left|done|]. cbn [mbind res_bind]. eexists. split; [done|]. assert (platform_names s1 = platform_names s) by (subst s1; by rewrite make_device_names).
  by destruct (streq a "remove").
Qed.

Lemma handle_add dv major minor s :
  files_of s !! dv_path dv = None → last (dv_path dv) ≠ Some SLASH → Forall (λ d, trim_slash d ≠ dv_path dv) (dv_dirs dv) →
  ∃ s', handle_device (bytes_of "add") dv major minor s = Ok s' ∧
    while_there (files_of s) (dv_path dv) (dv_links dv) (files_of s') ∧
    (let '(perm, uid, gid) := get_device_perm (dv_path dv) (dev_perms s) in
     files_of s' !! dv_path dv = Some (Node (Z.lor perm (if dv_block dv then S_IFBLK else S_IFCHR)) uid gid major minor)).
Proof.
  intros Hf Hs Hd. unfold handle_device. change (streq (bytes_of "add") "add") with true. change (streq (bytes_of "add") "remove") with false.
  cbv iota. set (s0 := set_files _ s). assert (files_of s0 !! dv_path dv = None) as Hf0 by (cbn; by rewrite make_dirs_keep).
  pose proof (make_device_new (dv_path dv) (dv_block dv) major minor s0 Hf0 Hs) as Hnew.
  assert (while_there (files_of s) (dv_path dv) (dv_links dv) (files_of s0)) as Hw0.
  { apply while_there_dirs with (files_of s); [by left|apply make_dirs_added]. }
  assert (while_there (files_of s) (dv_path dv) (dv_links dv) (files_of (make_device (dv_path dv) (dv_block dv) major minor s0))) as Hw1.
  { apply make_device_there; [done|done|done|congruence]. }
  destruct (make_links_there _ _ _ (dv_links dv) _ Hw1) as (fs' & -> & Hw' & Hk); [done|]. cbn [mbind res_bind].
  eexists. split; [done|]. cbn [files_of set_files]. split; [done|]. change (dev_perms s0) with (dev_perms s) in Hnew.
  destruct (get_device_perm (dv_path dv) (dev_perms s)) as [[perm uid] gid]. by apply Hk.
Qed.

Lemma handle_remove dv major minor s :
  ∃ s', handle_device (bytes_of "remove") dv major minor s = Ok s' ∧
    files_of s' = unlink (dv_path dv) (foldl (λ fs l, remove_link (dv_path dv) l fs)
      (foldl (λ fs d, make_dir d fs) (files_of s) (dv_dirs dv)) (dv_links dv)).
Proof. eexists. split; reflexivity. Qed.

(** C30: A device comes and goes without a trace.  For every event of a block or other
    device whose node and links are not there yet: handling the event with action "add"
    creates the node with the numbers of the event and with the mode, owner and group of
    the last rule for its path, that is the last one whose name is the path or, for a name
    with a star, begins it (0600, root and root when there is none); handling it then with
    "remove" leaves every file as it was, except for directories that were made on the
    way. *)
Theorem device_add_remove (heap : list Z) (ev : uevent) (s : ustate) (dv : device) :
  event_device heap ev (platform_names s) = Ok (Some dv) → last (dv_path dv) ≠ Some SLASH → dv_path dv ≠ bytes_of "/dev/usb" →
  files_of s !! dv_path dv = None → Forall (λ l, files_of s !! l = None) (dv_links dv) →
  ∃ s1 s2 perm uid gid, handle_device_event heap (with_action "add" ev) s = Ok s1 ∧
    handle_device_event heap (with_action "remove" ev) s1 = Ok s2 ∧ granted (dv_path dv) (dev_perms s) perm uid gid ∧
    files_of s1 !! dv_path dv =
      Some (Node (Z.lor perm (if dv_block dv then S_IFBLK else S_IFCHR)) uid gid (ue_major ev) (ue_minor ev)) ∧
    (∀ p, files_of s2 !! p = files_of s !! p ∨ (files_of s !! p = None ∧ files_of s2 !! p = Some Dir)).
Proof.
  intros Hd Hs Hu Hf Hl. pose proof (event_device_ok _ _ _ _ Hd) as [Hlen Hdirs0].
  assert (Forall (λ d, trim_slash d ≠ dv_path dv) (dv_dirs dv)) as Hdirs.
  { apply (Forall_impl _ _ _ Hdirs0). intros d [?| ->]; [done|]. by intros E. }
  destruct (handle_device_event_ok heap "add" ev s dv Hd) as [f1 ->].
  destruct (handle_device_ok (bytes_of "add") dv (ue_major ev) (ue_minor ev) (set_fixups f1 s)) as (s1 & E1 & Hn).
  destruct (handle_add dv (ue_major ev) (ue_minor ev) (set_fixups f1 s) Hf Hs Hdirs) as (s1' & E1' & Hw & Hnode).
  rewrite E1 in E1'. injection E1' as <-. change (dev_perms (set_fixups f1 s)) with (dev_perms s) in Hnode.
  pose proof (get_device_perm_granted (dv_path dv) (dev_perms s)) as Hg.
  destruct (get_device_perm (dv_path dv) (dev_perms s)) as [[perm uid] gid].
  destruct (handle_device_event_ok heap "remove" ev s1 dv) as [f2 E2]; [by rewrite Hn|].
  destruct (handle_remove dv (ue_major ev) (ue_minor ev) (set_fixups f2 s1)) as (s2 & E3 & Hfs).
  exists s1, s2, perm, uid, gid. split_and!; [done|by rewrite E2|done|done|].
  change (dirs_added (files_of s) (files_of s2)). rewrite Hfs. apply removed_restores; [done|done|lia|].
  apply while_there_dirs with (files_of s1); [exact Hw|apply make_dirs_added].
Qed.

(** * No message does harm *)

(** What is left of a message: its two NULs, or the second. *)
Definition ends_twice (m : buffer) : Prop := m = [0] ∨ ∃ m0, m = m0 ++ [0; 0].

Lemma ends_twice_next (m0 : buffer) :
  (length (c_string (m0 ++ [0; 0]%Z)) < length (m0 ++ [0; 0]%Z))%nat ∧
  ends_twice (drop (S (length (c_string (m0 ++ [0; 0])))) (m0 ++ [0; 0])).
Proof.
  induction m0 as [|c m0 [IH1 IH2]]; [split; [cbn; lia|by left]|]. cbn [app c_string].
  destruct (c =? 0); cbn [length drop]; [split; [lia|right; by exists m0]|]. split; [lia|]. exact IH2.
Qed.

Lemma parse_fields_total fuel m ev : (length m ≤ fuel)%nat → ends_twice m → ∃ ev', parse_fields fuel m ev = Ok ev'.
Proof.
  revert m ev. induction fuel as [|fuel IH]; intros m ev Hl He.
  { destruct He as [->|[m0 ->]]; [|rewrite length_app in Hl]; cbn in Hl; lia. }
  destruct He as [->|[m0 ->]]; [by eexists|]. destruct (ends_twice_next m0) as [Hlt Hn].
  destruct (m0 ++ [0; 0]) as [|c m] eqn:E; [cbn in Hlt; lia|]. cbn [parse_fields]. destruct (c =? 0); [by eexists|]. cbv zeta.
  rewrite (proj2 (Nat.leb_gt _ _) Hlt). apply IH; [|done]. rewrite length_drop. lia.
Qed.

(** The fields of an event hold no NUL. *)
Definition clean_event (ev : uevent) : Prop := ∀ nm, partition_name ev = Some nm → no_nul nm.

Lemma set_field_clean ev f : clean_event ev → no_nul f → clean_event (set_field ev f).
Proof.
  intros Hc Hf. unfold set_field. repeat (case_match; [try exact Hc|]); [|exact Hc]. intros nm [= <-].
  match goal with E : after_prefix (bytes_of "PARTNAME=") f = Some _ |- _ => rewrite (after_prefix_text _ _ _ E) in Hf end.
  by apply Forall_app in Hf as [_ ?].
Qed.

Lemma parse_fields_clean fuel m ev ev' : parse_fields fuel m ev = Ok ev' → clean_event ev → clean_event ev'.
Proof.
  revert m ev. induction fuel as [|fuel IH]; intros m ev He Hc; [by destruct m|]. destruct m as [|c m]; [done|].
  cbn [parse_fields] in He. destruct (c =? 0); [by injection He as <-|]. cbv zeta in He. case_match; [done|].
  eapply IH; [exact He|]. apply set_field_clean; [done|apply c_string_no_nul].
Qed.

(** ** sanitize *)

Definition clean_char (c : Z) : Z := if accepted c then c else 95.

Lemma span_app nm m :
  Forall (λ c, accepted c = true) nm → (∀ c r, m = c :: r → accepted c = false) → span_accepted (nm ++ m) = length nm.
Proof.
  induction 1 as [|c nm Hc Hn IH]; intros Hm; cbn [app span_accepted length].
  - destruct m as [|c m]; [done|]. cbn. by rewrite (Hm c m eq_refl).
  - rewrite Hc. f_equal. by apply IH.
Qed.

(** A name is accepted, or accepted up to a first character that is not. *)
Lemma span_split nm :
  Forall (λ c, accepted c = true) nm ∨
  ∃ a d r, nm = a ++ d :: r ∧ Forall (λ c, accepted c = true) a ∧ accepted d = false.
Proof.
  induction nm as [|c nm IH]; [by left|]. destruct (accepted c) eqn:E.
  - destruct IH as [IH|(a & d & r & -> & Ha & Hd)]; [left; by constructor|]. right. exists (c :: a), d, r. split_and!; [done|by constructor|done].
  - right. by exists [], c, nm.
Qed.

Lemma clean_accepted nm : Forall (λ c, accepted c = true) nm → clean_char <$> nm = nm.
Proof. induction 1 as [|c nm Hc Hn IH]; [done|]. cbn. rewrite IH. f_equal. unfold clean_char. by rewrite Hc. Qed.

Lemma sanitize_loop_ok fuel before nm t :
  (length nm < fuel)%nat → no_nul nm →
  sanitize_loop (S fuel) before (nm ++ 0 :: 0 :: t) = Ok (before ++ (clean_char <$> nm) ++ 0 :: 0 :: t).
Proof.
  revert before nm. induction fuel as [|fuel IH]; intros before nm Hl Hn; [lia|].
  destruct nm as [|c nm]; [done|]. set (w := c :: nm) in *.
  assert (∃ m, w ++ 0 :: 0 :: t = c :: m ∧ c ≠ 0) as (m & Em & Hc0) by (eexists; split; [done|by apply Forall_cons in Hn as [? _]]).
  remember (S fuel) as fuel1 eqn:Ef. cbn [sanitize_loop]. rewrite Em. cbn match. rewrite (proj2 (Z.eqb_neq _ _) Hc0). cbv zeta. rewrite <- Em.
  destruct (span_split w) as [Ha|(a & d & r & Ew & Ha & Hd)].
  - rewrite (span_app w (0 :: 0 :: t) Ha) by (by intros ? ? [= <- _]).
    rewrite drop_app_length, take_app_length. cbn [Z.eqb]. subst fuel1. cbn [sanitize_loop Z.eqb].
    rewrite (clean_accepted w Ha), <- !app_assoc. done.
  - rewrite Ew, <- app_assoc. cbn [app]. rewrite (span_app a (d :: r ++ 0 :: 0 :: t) Ha) by (by intros ? ? [= <- _]).
    rewrite drop_app_length, take_app_length. rewrite Ew in Hn. apply Forall_app in Hn as [_ Hn].
    apply Forall_cons in Hn as [Hd0 Hn]. rewrite (proj2 (Z.eqb_neq _ _) Hd0). subst fuel1. rewrite IH; [|rewrite Ew, length_app in Hl; cbn in Hl; lia|done].
    rewrite fmap_app, (clean_accepted a Ha). cbn. unfold clean_char at 2. rewrite Hd, <- !app_assoc. done.
Qed.

(** With a zero behind the name, sanitize replaces its characters and nothing else. *)
Lemma sanitize_ok nm t : no_nul nm → sanitize (nm ++ [0] ++ 0 :: t) = Ok ((clean_char <$> nm) ++ [0] ++ 0 :: t).
Proof. intros Hn. unfold sanitize. cbn [app]. rewrite sanitize_loop_ok; [done|rewrite length_app; cbn; lia|done]. Qed.

Lemma after_last_devices s : has_prefix "/devices/" s = true → is_Some (after_last SLASH s).
Proof.
  intros [t ->%after_prefix_text]%bool_decide_eq_true_1. change (bytes_of "/devices/" ++ t) with (SLASH :: (bytes_of "devices/" ++ t)).
  cbn [after_last]. case_match; [by eexists|]. by eexists.
Qed.

(** The device of an event is found, unless sanitize goes wrong. *)
Lemma event_device_total heap ev l :
  (∃ dv, event_device heap ev l = Ok dv) ∨ ∃ nm, partition_name ev = Some nm ∧ ∀ b, sanitize (nm ++ [0] ++ heap) ≠ Ok b.
Proof.
  unfold event_device, block_device. case_match; [|case_match; left; by eexists].
  destruct (parse_device_name ev 64); [|left; by eexists]. case_match eqn:Hp; [|left; by eexists].
  unfold parse_platform_block_device. destruct (find_platform_device _ _); [|left; by eexists].
  destruct (after_last_devices _ Hp) as [base ->]. cbv zeta. destruct (partition_name ev) as [nm|] eqn:E; [|left; by eexists].
  destruct (sanitize (nm ++ [0] ++ heap)) as [b| |] eqn:Es; [left; by eexists|right; exists nm; by rewrite Es..].
Qed.

(** sanitize leaves the string it works on only when its last character is one that it
    accepts: then it steps over the NUL, see [sanitize_reads_on]. *)
Lemma sanitize_loop_stops fuel before nm d r t :
  (length nm < fuel)%nat → no_nul nm → accepted d = false → d ≠ 0 → nm = r ++ [d] →
  ∃ b, sanitize_loop fuel before (nm ++ 0 :: t) = Ok b.
Proof.
  revert before nm r. induction fuel as [|fuel IH]; intros before nm r Hl Hn Hd Hd0 ->; [lia|].
  destruct (span_split (r ++ [d])) as [Ha|(a & d' & r' & Ew & Ha & Hd')].
  { apply Forall_app in Ha as [_ [Ha _]%Forall_cons]. congruence. }
  rewrite Ew in *. assert (∃ c m, (a ++ d' :: r') ++ 0 :: t = c :: m ∧ c ≠ 0) as (c & m & Em & Hc0).
  { destruct a as [|x a]; eexists _, _; (split; [done|]); by apply Forall_cons in Hn as [? _]. }
  cbn [sanitize_loop]. rewrite Em. cbn match. rewrite (proj2 (Z.eqb_neq _ _) Hc0). cbv zeta. rewrite <- Em, <- app_assoc. cbn [app].
  rewrite (span_app a (d' :: r' ++ 0 :: t) Ha) by (by intros ? ? [= <- _]). rewrite drop_app_length, take_app_length.
  apply Forall_app in Hn as [_ [Hd0' Hn]%Forall_cons]. rewrite (proj2 (Z.eqb_neq _ _) Hd0').
  destruct r' as [|x r' _] using rev_ind.
  - cbn [app]. destruct fuel as [|fuel]; [rewrite length_app in Hl; cbn in Hl; lia|]. cbn [sanitize_loop Z.eqb]. by eexists.
  - assert (x = d) as ->.
    { rewrite app_comm_cons, app_assoc in Ew. by apply app_inj_tail in Ew as [_ ?]. }
    eapply (IH _ (r' ++ [d]) r'); [|done|done|done|done]. rewrite length_app in Hl |- *. cbn in Hl |- *. rewrite ?length_app in Hl. cbn in Hl. lia.
Qed.

Lemma sanitize_fails nm heap :
  no_nul nm → (∀ b, sanitize (nm ++ [0] ++ heap) ≠ Ok b) → head heap ≠ Some 0 ∧ ∃ c, last nm = Some c ∧ accepted c = true.
Proof.
  intros Hn Hf. split.
  { intros Hz. destruct heap as [|z t]; [done|]. injection Hz as ->. by apply (Hf _ (sanitize_ok nm t Hn)). }
  destruct nm as [|c r _] using rev_ind; [by destruct (Hf ([] ++ [0] ++ heap))|]. exists c. rewrite last_snoc. split; [done|].
  destruct (accepted c) eqn:E; [done|]. destruct (sanitize_loop_stops (S (length ((r ++ [c]) ++ [0] ++ heap))) [] (r ++ [c]) c r heap) as [b Hb];
    [rewrite (length_app _ ([0] ++ heap)); lia|done|done|by apply Forall_app in Hn as [_ [? _]%Forall_cons]|done|by destruct (Hf b)].
Qed.

(** C31: No message of the kernel makes ueventd leave its arrays, whatever bytes arrive, in
    whatever order, with whatever rules: every message is parsed, every event handled, and
    the paths that are built in arrays of 512, 256 and 128 bytes fit there.  The one
    exception is the copy of a partition's name in one of the messages, when it ends with
    an accepted character and the memory behind its NUL does not begin with a zero byte:
    sanitize steps over the NUL there, see [sanitize_reads_on]. *)
Theorem device_messages_safe (heap : list Z) (msgs : list (list Z)) (s : ustate) :
  (∃ s', handle_device_fd heap msgs s = Ok s') ∨
  (∃ msg ev nm c, msg ∈ msgs ∧ parse_event (msg ++ [0; 0]) = Ok ev ∧ partition_name ev = Some nm ∧
     last nm = Some c ∧ accepted c = true ∧ head heap ≠ Some 0).
Proof.
  revert s. induction msgs as [|msg msgs IH]; intros s; [left; by eexists|].
  assert (∀ s, (∃ s', handle_device_fd heap msgs s = Ok s') ∨ ∃ msg0 ev nm c, msg0 ∈ msg :: msgs ∧ parse_event (msg0 ++ [0; 0]) = Ok ev ∧
    partition_name ev = Some nm ∧ last nm = Some c ∧ accepted c = true ∧ head heap ≠ Some 0) as IH'.
  { intros s1. destruct (IH s1) as [?|(m & ev & nm & c & Hin & ?)]; [by left|]. right. exists m, ev, nm, c. split; [by right|done]. }
  cbn [handle_device_fd]. case_match; [apply IH'|].
  destruct (parse_fields_total (length (msg ++ [0; 0])) (msg ++ [0; 0]) no_event) as [ev He]; [done|by right; eexists|].
  unfold parse_event at 1. rewrite He. cbn [mbind res_bind]. assert (clean_event ev) as Hc by (eapply parse_fields_clean; [exact He|by intros ?]).
  unfold handle_device_event. destruct (event_fixups (streq (ue_action ev) "add" || streq (ue_action ev) "change") (ue_path ev) s) as [d ->].
  cbn [mbind res_bind]. case_match; [apply IH'|].
  destruct (event_device_total heap ev (platform_names (set_fixups d s))) as [[[dv|] ->]|(nm & Hnm & Hf)]; cbn [mbind res_bind].
  - destruct (handle_device_ok (ue_action ev) dv (ue_major ev) (ue_minor ev) (set_fixups d s)) as (s' & -> & _). apply IH'.
  - apply IH'.
  - right. destruct (sanitize_fails nm heap (Hc nm Hnm) Hf) as (Hz & c & Hl & Ha). exists msg, ev, nm, c. split_and!; [by left|done..].
Qed.

(** * Firmware *)

Lemma write_chunk_whole buf ws out :
  buf ≠ [] → write_chunk buf (Z.of_nat (length buf)) (Z.of_nat (length buf) :: ws) out = (true, out ++ buf, ws).
Proof.
  intros Hb. assert (0 < Z.of_nat (length buf)) by (destruct buf; [done|cbn; lia]). cbn [write_chunk].
  rewrite (proj2 (Z.leb_gt _ 0)) by done. rewrite Z.sub_diag, Nat2Z.id, firstn_all, firstn_all.
  by destruct ws.
Qed.

(** When each write takes the whole chunk, the firmware reaches the driver as it is. *)
Theorem load_firmware_copies (chunks : list (list Z)) (out : list Z) :
  Forall (λ c, c ≠ []) chunks →
  load_firmware (Z.of_nat (length (concat chunks))) (Some <$> chunks) ((λ c, Z.of_nat (length c)) <$> chunks) out =
    (0, out ++ concat chunks).
Proof.
  intros Hc. revert out. induction Hc as [|c chunks Hne Hc IH]; intros out; [by rewrite app_nil_r|].
  assert (0 < Z.of_nat (length (concat (c :: chunks)))).
  { cbn [concat]. rewrite length_app. destruct c; [done|cbn; lia]. }
  cbn [fmap list_fmap load_firmware]. rewrite (proj2 (Z.leb_gt _ 0)) by done.
  destruct c as [|x c]; [done|]. rewrite (write_chunk_whole (x :: c)) by done.
  replace (Z.of_nat (length (concat ((x :: c) :: chunks))) - Z.of_nat (length (x :: c))) with (Z.of_nat (length (concat chunks)))
    by (cbn [concat]; rewrite length_app; lia).
  rewrite IH. cbn [concat]. by rewrite <- app_assoc.
Qed.

(** * Examples *)

Module Devices.
Definition ids : list (cstr * Z) := [(bytes_of "root", 0); (bytes_of "system", 1000); (bytes_of "audio", 1005)].
Definition rc : list Z := Example.text
  ["# device rules"; "/dev/snd/* 0660 system audio"; "/dev/block/* 0600 root root";
   "/sys/devices/platform/led brightness 0644 system system"; "/dev/bad 0x12 root root"; "/dev/snd/timer 0600 root root"].
Definition read_file (fn : cstr) : option (list Z) := if decide (fn = bytes_of "/ueventd.rc") then Some rc else None.
Definition empty : ustate := mkUstate [] [] [] ∅ [].

Definition loaded : ustate :=
  match ueventd_parse_config_file ids [] read_file (bytes_of "/ueventd.rc") empty with Ok (_, s) => s | _ => empty end.

(** The phone's eMMC controller is known; its first partition appears. *)
Definition with_emmc : ustate := set_platform_names [mkPlatformNode (bytes_of "msm_sdcc.1") (bytes_of "/devices/platform/msm_sdcc.1")] loaded.
Definition message (fields : list string) : list Z := concat ((λ f, bytes_of f ++ [0]) <$> fields).
Definition partition : list Z := message
  ["add@/devices/platform/msm_sdcc.1/mmcblk0p1"; "ACTION=add"; "DEVPATH=/devices/platform/msm_sdcc.1/mmcblk0p1";
   "SUBSYSTEM=block"; "MAJOR=179"; "MINOR=1"; "PARTN=1"; "PARTNAME=boot image"].
Definition partition_event : uevent := match parse_event (partition ++ [0; 0]) with Ok ev => ev | _ => no_event end.
Definition partition_device : device :=
  mkDevice [bytes_of "/dev/block/"] (bytes_of "/dev/block/mmcblk0p1") true
    [bytes_of "/dev/block/platform/msm_sdcc.1/by-name/boot_image"; bytes_of "/dev/block/platform/msm_sdcc.1/by-num/p1";
     bytes_of "/dev/block/platform/msm_sdcc.1/mmcblk0p1"].

(** A file with each kind of line, on a phone with an MTD partition. *)
Definition mtds : list (cstr * Z) := [(bytes_of "boot", 2); (bytes_of "misc", 3)].
Definition small_rc : list Z := Example.text
  ["/dev/snd/* 0660 system audio"; "mtd@misc 0600 root root"; "/dev/bad 0x12 root root"; "/dev/null 0666 root nobody";
   "/sys/devices/led brightness 0644 system root"; "/dev/short 0600"].
Definition small_rules : list (option perms_) :=
  [Some (mkPerms (bytes_of "/dev/snd/") None 0x1b0 1000 1005 true); Some (mkPerms (bytes_of "/dev/mtd/mtd3") None 0x180 0 0 false); None; None;
   Some (mkPerms (bytes_of "/sys/devices/led") (Some (bytes_of "brightness")) 0x1a4 1000 0 false); None].

Lemma id_root : id_word ids (bytes_of "root") (Some 0).
Proof. by apply (id_known ids (bytes_of "root") [] 0 (tail ids)); [|apply not_elem_of_nil|]. Qed.
Lemma id_system : id_word ids (bytes_of "system") (Some 1000).
Proof. apply (id_known ids (bytes_of "system") (take 1 ids) 1000 (drop 2 ids)); [done|by apply (bool_decide_unpack _)|done]. Qed.
Lemma id_audio : id_word ids (bytes_of "audio") (Some 1005).
Proof. apply (id_known ids (bytes_of "audio") (take 2 ids) 1005 []); [done|by apply (bool_decide_unpack _)|done]. Qed.
Lemma id_nobody : id_word ids (bytes_of "nobody") None.
Proof. apply id_unknown. by apply (bool_decide_unpack _). Qed.
Lemma mode_of ds : ds ≠ [] → Forall (λ d, d ∈ [0; 1; 2; 3; 4; 5; 6; 7]) ds → octal_value ds < 2 ^ 31 → mode_word (octal_word ds) (Some (octal_value ds)).
Proof.
  intros Hn Hd Hv. apply mode_good; [done| |done]. apply (Forall_impl _ _ _ Hd). intros d Hin. unfold is_octal.
  rewrite !elem_of_cons, elem_of_nil in Hin. lia.
Qed.

Lemma small_rc_means : Forall2 (line_means ids mtds) (rule_lines small_rc) small_rules.
Proof.
  replace (rule_lines small_rc) with ((λ ws : list string, bytes_of <$> ws) <$>
    [["/dev/snd/*"; "0660"; "system"; "audio"]; ["mtd@misc"; "0600"; "root"; "root"]; ["/dev/bad"; "0x12"; "root"; "root"];
     ["/dev/null"; "0666"; "root"; "nobody"]; ["/sys/devices/led"; "brightness"; "0644"; "system"; "root"]; ["/dev/short"; "0600"]])
    by (vm_compute; reflexivity).
  assert (mode_word (bytes_of "0660") (Some 0x1b0)) as M1 by (apply (mode_of [0; 6; 6; 0]); [done|by apply (bool_decide_unpack _)|done]).
  assert (mode_word (bytes_of "0600") (Some 0x180)) as M2 by (apply (mode_of [0; 6; 0; 0]); [done|by apply (bool_decide_unpack _)|done]).
  assert (mode_word (bytes_of "0666") (Some 0x1b6)) as M3 by (apply (mode_of [0; 6; 6; 6]); [done|by apply (bool_decide_unpack _)|done]).
  assert (mode_word (bytes_of "0644") (Some 0x1a4)) as M4 by (apply (mode_of [0; 6; 4; 4]); [done|by apply (bool_decide_unpack _)|done]).
  assert (mode_word (bytes_of "0x12") None) as M5 by (apply (mode_bad [0] 120 (bytes_of "12")); [by repeat constructor|by vm_compute|by left]).
  pose proof id_root. pose proof id_system. pose proof id_audio. pose proof id_nobody.
  repeat apply Forall2_cons_2; [..|apply Forall2_nil_2].
  - by apply (means_rule ids mtds _ _ None _ _ _ _ true (Some 0x1b0) (Some 1000) (Some 1005) (dev_words _ _ _ _));
      [|apply (names_prefix mtds (bytes_of "/dev/snd/"))|..].
  - apply (means_rule ids mtds _ _ None _ _ _ (bytes_of "/dev/mtd/mtd3") false (Some 0x180) (Some 0) (Some 0) (dev_words _ _ _ _)); try done.
    apply (names_mtd mtds (bytes_of "misc") (take 1 mtds) 3 []); [done|by apply (bool_decide_unpack _)|done].
  - by apply (means_rule ids mtds _ _ None _ _ _ (bytes_of "/dev/bad") false None (Some 0) (Some 0) (dev_words _ _ _ _)); [|apply names_path|..].
  - by apply (means_rule ids mtds _ _ None _ _ _ (bytes_of "/dev/null") false (Some 0x1b6) (Some 0) None (dev_words _ _ _ _)); [|apply names_path|..].
  - by apply (means_rule ids mtds _ _ (Some (bytes_of "brightness")) _ _ _ (bytes_of "/sys/devices/led") false (Some 0x1a4) (Some 1000) (Some 0)
      (sys_words (bytes_of "/sys/devices/led") _ _ _ _ eq_refl)); [|apply names_path|..].
  - by apply means_nothing.
Qed.

Lemma ueventd_rules_load_witness :
  ueventd_parse_config_file ids mtds (λ _, Some small_rc) (bytes_of "/ueventd.rc") empty =
    Ok (0, set_sys_perms (sys_perms empty ++ filter (λ p, is_Some (dp_attr p)) (omap id small_rules))
             (set_dev_perms (dev_perms empty ++ filter (λ p, ¬ is_Some (dp_attr p)) (omap id small_rules)) empty)).
Proof.
  apply (ueventd_rules_load ids mtds (λ _, Some small_rc) (bytes_of "/ueventd.rc") small_rc empty small_rules); [reflexivity|].
  exact small_rc_means.
Defined.

(** Its rules: three for /dev, one for /sys; the bad mode is skipped. *)
Example rules_of_rc :
  (dp_name <$> dev_perms loaded) = [bytes_of "/dev/snd/"; bytes_of "/dev/block/"; bytes_of "/dev/snd/timer"] ∧
  (dp_name <$> sys_perms loaded) = [bytes_of "/sys/devices/platform/led"] ∧
  get_device_perm (bytes_of "/dev/snd/timer") (dev_perms loaded) = (0x180, 0, 0) ∧
  get_device_perm (bytes_of "/dev/snd/pcm") (dev_perms loaded) = (0x1b0, 1000, 1005).
Proof. vm_compute. done. Qed.

Lemma device_add_remove_witness :
  event_device [0] partition_event (platform_names with_emmc) = Ok (Some partition_device) ∧
  ∃ s1 s2 perm uid gid, handle_device_event [0] (with_action "add" partition_event) with_emmc = Ok s1 ∧
    handle_device_event [0] (with_action "remove" partition_event) s1 = Ok s2 ∧
    granted (dv_path partition_device) (dev_perms with_emmc) perm uid gid ∧
    files_of s1 !! dv_path partition_device =
      Some (Node (Z.lor perm (if dv_block partition_device then S_IFBLK else S_IFCHR)) uid gid
        (ue_major partition_event) (ue_minor partition_event)) ∧
    (∀ p, files_of s2 !! p = files_of with_emmc !! p ∨ (files_of with_emmc !! p = None ∧ files_of s2 !! p = Some Dir)).
Proof.
  assert (event_device [0] partition_event (platform_names with_emmc) = Ok (Some partition_device)) as He by (vm_compute; reflexivity).
  split; [exact He|]. refine (device_add_remove [0] partition_event with_emmc partition_device He _ _ _ _).
  - vm_compute. discriminate.
  - vm_compute. discriminate.
  - vm_compute. reflexivity.
  - apply (bool_decide_unpack _). vm_compute. exact I.
Defined.

(** sanitize looks at the byte behind the string: without a zero there it leaves the
    memory of the string, or changes what is behind it. *)
Example sanitize_reads_on :
  sanitize (bytes_of "system" ++ [0]) = Fault ∧
  sanitize (bytes_of "system" ++ [0] ++ bytes_of "a/b" ++ [0; 0]) = Ok (bytes_of "system" ++ [0] ++ bytes_of "a_b" ++ [0; 0]).
Proof. vm_compute. done. Qed.

(** A write that takes half of a chunk makes the first half go out twice. *)
Example short_write_repeats : load_firmware 4 [Some [1; 2; 3; 4]] [2; 2] [] = (0, [1; 2; 1; 2]).
Proof. reflexivity. Qed.

(** A rule for an MTD partition that is not there makes strdup read NULL. *)
Example unknown_mtd_faults :
  ueventd_parse_config_file ids [] (λ _, Some (Example.text ["mtd@misc 0660 root root"])) (bytes_of "/ueventd.rc") empty = Fault.
Proof. vm_compute. reflexivity. Qed.
End Devices.
