(* ===== verification/ArmMmu.v ===== *)
(** The translation table of the MMU (src/bootable/lk/arch/arm/mmu.c): 4096 entries, each
    of which maps a section of 1 MB.  The table is a list of 32-bit words; the writes to
    the control registers of the processor are not part of it. *)
From Stdlib Require Import ZArith.
From stdpp Require Import base numbers list.
From S2P Require Import Prelude.

Definition MB : Z := 1024 * 1024.
Definition TT_ENTRIES : nat := 4096.

(** MMU_MEMORY_TYPE_STRONGLY_ORDERED, MMU_MEMORY_AP_READ_WRITE (arch/arm/mmu.h) *)
Definition MMU_MEMORY_TYPE_STRONGLY_ORDERED : Z := 0.
Definition MMU_MEMORY_AP_READ_WRITE : Z := Z.shiftl 3 10.

Definition section_entry (paddr flags : Z) : Z :=
  Z.lor (Z.land paddr (Z.lnot (MB - 1))) (Z.lor 2 flags).

Definition arm_mmu_map_section (paddr vaddr flags : Z) (tt : list Z) : res (list Z) :=
  if decide (Z.to_nat (vaddr / MB) < length tt)%nat then Ok (<[Z.to_nat (vaddr / MB) := section_entry paddr flags]> tt)
  else Fault.

Definition arm_mmu_virt2phy (tt : list Z) (virt_addr : Z) : res Z :=
  e ← deref (tt !! Z.to_nat (Z.shiftr virt_addr 20));
  Ok (u32 (Z.land e 0xfff00000 + Z.land virt_addr 0xfffff)).

Fixpoint map_sections (is_ : list nat) (tt : list Z) : res (list Z) :=
  match is_ with
  | [] => Ok tt
  | i :: is_ =>
      let a := u32 (Z.of_nat i * MB) in
      tt ← arm_mmu_map_section a a (Z.lor MMU_MEMORY_TYPE_STRONGLY_ORDERED MMU_MEMORY_AP_READ_WRITE) tt;
      map_sections is_ tt
  end.

(** The table that arm_mmu_init sets up. *)
Definition arm_mmu_init (tt : list Z) : res (list Z) := map_sections (seq 0 TT_ENTRIES) tt.

(** [tt] translates the address to itself. *)
Definition identity_at (tt : list Z) (i : nat) : Prop :=
  ∃ fl, 0 ≤ fl < MB ∧ tt !! i = Some (Z.of_nat i * MB + fl).

Lemma section_entry_split p fl :
  0 ≤ p < 2 ^ 32 → p mod MB = 0 → 0 ≤ fl < MB → section_entry p fl = p + Z.lor 2 fl ∧ 0 ≤ Z.lor 2 fl < MB.
Proof.
  intros Hp Hm Hf. unfold section_entry. change (Z.lnot (MB - 1)) with (Z.lnot (Z.ones 20)). rewrite <- Z.ldiff_land.
  rewrite Z.ldiff_ones_r, Z.shiftl_mul_pow2, Z.shiftr_div_pow2 by lia. change MB with (2 ^ 20) in *.
  assert (0 ≤ Z.lor 2 fl < 2 ^ 20) as Hr.
  { split; [apply Z.lor_nonneg; lia|]. destruct (Z.eqb_spec (Z.lor 2 fl) 0) as [->|Hn]; [lia|].
    apply Z.log2_lt_pow2; [assert (0 ≤ Z.lor 2 fl) by (apply Z.lor_nonneg; lia); lia|]. rewrite Z.log2_lor by lia.
    apply Z.max_lub_lt; [by vm_compute|]. destruct (decide (fl = 0)) as [->|]; [by vm_compute|]. apply Z.log2_lt_pow2; lia. }
  split; [|done]. rewrite <- Z.shiftl_mul_pow2 by lia. replace p with (p / 2 ^ 20 * 2 ^ 20) at 2 by (Z.div_mod_to_equations; lia).
  rewrite <- Z.shiftl_mul_pow2 by lia. assert (Z.land (Z.shiftl (p / 2 ^ 20) 20) (Z.lor 2 fl) = 0) as Hz.
  { apply Z.bits_inj_iff'. intros i Hi. rewrite Z.land_spec, Z.bits_0. destruct (decide (i < 20)).
    - by rewrite Z.shiftl_spec_low by lia.
    - rewrite <- (Z.mod_small (Z.lor 2 fl) (2 ^ 20)), Z.mod_pow2_bits_high by lia. apply andb_false_r. }
  rewrite Z.add_nocarry_lxor by done. by rewrite Z.lxor_lor.
Qed.

Lemma virt2phy_identity tt a :
  0 ≤ a < 2 ^ 32 → identity_at tt (Z.to_nat (a / MB)) → arm_mmu_virt2phy tt a = Ok a.
Proof.
  intros Ha (fl & Hf & Hl). unfold arm_mmu_virt2phy. rewrite Z.shiftr_div_pow2 by lia. change (2 ^ 20) with MB. rewrite Hl. cbn [deref mbind res_bind].
  rewrite Z2Nat.id by (apply Z.div_pos; [lia|done]). f_equal. change 0xfffff with (Z.ones 20).
  change 0xfff00000 with (Z.shiftl (Z.ones 12) 20). rewrite Z.land_ones by lia. change MB with (2 ^ 20) in *.
  assert (Z.land (a / 2 ^ 20 * 2 ^ 20 + fl) (Z.shiftl (Z.ones 12) 20) = a / 2 ^ 20 * 2 ^ 20) as ->.
  { rewrite <- Z.shiftl_mul_pow2 by lia. apply Z.bits_inj_iff'. intros i Hi. rewrite Z.land_spec. destruct (decide (i < 20)).
    - by rewrite !(Z.shiftl_spec_low _ _ i), andb_false_r by lia.
    - rewrite !(Z.shiftl_spec_high _ _ i) by lia. replace (Z.shiftl (a / 2 ^ 20) 20 + fl) with (a / 2 ^ 20 * 2 ^ 20 + fl) by (rewrite Z.shiftl_mul_pow2; lia).
      replace i with (i - 20 + 20) at 1 by lia. rewrite <- Z.shiftr_spec, Z.shiftr_div_pow2 by lia.
      rewrite Z.div_add_l, (Z.div_small fl), Z.add_0_r by lia. destruct (decide (i - 20 < 12)); [by rewrite Z.ones_spec_low, andb_true_r by lia|].
      rewrite Z.ones_spec_high, andb_false_r by lia. symmetry.
      rewrite <- (Z.mod_small (a / 2 ^ 20) (2 ^ 12)) by (Z.div_mod_to_equations; lia). by rewrite Z.mod_pow2_bits_high by lia. }
  rewrite u32_small by (Z.div_mod_to_equations; lia). Z.div_mod_to_equations. lia.
Qed.

Lemma map_sections_identity is_ tt :
  length tt = TT_ENTRIES → Forall (λ i, i < TT_ENTRIES)%nat is_ →
  ∃ tt', map_sections is_ tt = Ok tt' ∧ length tt' = TT_ENTRIES ∧
    ∀ i, i ∈ is_ ∨ identity_at tt i → identity_at tt' i.
Proof.
  intros Hl Hi. revert tt Hl. induction Hi as [|i is_ Hi _ IH]; intros tt Hl; cbn [map_sections].
  { exists tt. split_and!; [done..|]. intros i [Hi|Hi]; [by apply elem_of_nil in Hi|done]. }
  unfold TT_ENTRIES in *. rewrite u32_small by (unfold MB; lia). unfold arm_mmu_map_section.
  rewrite Z.div_mul by done. rewrite Nat2Z.id. rewrite decide_True by lia. cbn [mbind res_bind].
  set (fl := Z.lor _ _). destruct (section_entry_split (Z.of_nat i * MB) fl) as [-> Hf];
    [unfold MB; lia|apply Z.mod_mul; done|by vm_compute|].
  destruct (IH (<[i := Z.of_nat i * MB + Z.lor 2 fl]> tt)) as (tt' & -> & Hl' & Hid); [by rewrite length_insert|].
  exists tt'. split_and!; [done..|]. intros j Hj. apply Hid. rewrite elem_of_cons in Hj.
  destruct (decide (j = i)) as [->|Hne].
  - right. exists (Z.lor 2 fl). split; [done|]. apply list_lookup_insert_eq. lia.
  - destruct Hj as [[?|Hj]|(fl' & Hf' & Hj)]; [done|by left|]. right. exists fl'. split; [done|]. by rewrite list_lookup_insert_ne by done.
Qed.

(** After arm_mmu_init every address is its own physical address. *)
Theorem mmu_init_identity (tt : list Z) :
  length tt = TT_ENTRIES →
  ∃ tt', arm_mmu_init tt = Ok tt' ∧ ∀ a, 0 ≤ a < 2 ^ 32 → arm_mmu_virt2phy tt' a = Ok a.
Proof.
  intros Hl. destruct (map_sections_identity (seq 0 TT_ENTRIES) tt Hl) as (tt' & Hm & _ & Hid).
  { apply Forall_forall. intros i Hi. apply elem_of_seq in Hi. lia. }
  exists tt'. split; [done|]. intros a Ha. apply virt2phy_identity; [done|]. apply Hid. left. apply elem_of_seq.
  assert (a / MB < 4096) by (unfold MB; Z.div_mod_to_equations; lia). assert (0 ≤ a / MB) by (apply Z.div_pos; [lia|done]).
  unfold TT_ENTRIES. lia.
Qed.
