(* ===== verification/NandDriver.v ===== *)
(** The driver of the NAND and OneNAND flash (src/bootable/lk/platform/msm_shared/nand.c,
    include/nand.h, dmov.h), down to the command lists that it hands to the data mover.

    The driver never touches the flash controller itself: it writes a list of transfers
    ([dmov_s]) and their operands into memory, points the data mover at the list and polls
    until the mover has copied the words and bytes between memory and the registers of the
    controller.  [Dmov] is that hardware: the registers of the data mover, whose accesses
    may change the memory.  [memory] holds the objects that transfers and the processor
    share, each at the address [base] gives it; what does not fit into an object is an
    overflow ([NUndef]).  A function of the driver is a computation [M A] over hardware,
    memory and the static variables; [NPanic] is a failed ASSERT and [NSpin] a loop that is
    not over after its fuel.  The constants are those of PLATFORM_MDM9X15, the platform of
    the target in the sources. *)
From Stdlib Require Import ZArith.
From stdpp Require Import base numbers list.
From S2P Require Import Prelude Bytes ArmMmu.

(** * Constants (nand.h) *)

Definition MSM_NAND_BASE : Z := 0x1B400000.
Definition NAND_REG (off : Z) : Z := MSM_NAND_BASE + off.
Definition NC01 (a : Z) : Z := u32 (0xA0240000 + a).
Definition NC10 (a : Z) : Z := u32 (0xA0280000 + a).
Definition NC11 (a : Z) : Z := u32 (0xA02C0000 + a).
Definition EBI2_REG (off : Z) : Z := 0xA0000000 + off.

Definition NAND_FLASH_CMD : Z := NAND_REG 0x0000.
Definition NAND_ADDR0 : Z := NAND_REG 0x0004.
Definition NAND_ADDR1 : Z := NAND_REG 0x0008.
Definition NAND_FLASH_CHIP_SELECT : Z := NAND_REG 0x000C.
Definition NAND_EXEC_CMD : Z := NAND_REG 0x0010.
Definition NAND_FLASH_STATUS : Z := NAND_REG 0x0014.
Definition NAND_DEV0_CFG0 : Z := NAND_REG 0x0020.
Definition NAND_DEV0_CFG1 : Z := NAND_REG 0x0024.
Definition NAND_DEV1_CFG0 : Z := NAND_REG 0x0030.
Definition NAND_SFLASHC_CMD : Z := NAND_REG 0x0038.
Definition NAND_SFLASHC_EXEC_CMD : Z := NAND_REG 0x003C.
Definition NAND_READ_ID : Z := NAND_REG 0x0040.
Definition NAND_READ_STATUS : Z := NAND_REG 0x0044.
Definition NAND_MACRO1_REG : Z := NAND_REG 0x0064.
Definition NAND_GENP_REG0 : Z := NAND_REG 0x0090.
Definition NAND_GENP_REG3 : Z := NAND_REG 0x009C.
Definition NAND_SFLASHC_STATUS : Z := NAND_REG 0x001C.
Definition NAND_ADDR2 : Z := NAND_REG 0x00C0.
Definition NAND_DEV_CMD4 : Z := NAND_REG 0x00D4.
Definition NAND_SFLASHC_BURST_CFG : Z := NAND_REG 0x00E0.
Definition NAND_ADDR6 : Z := NAND_REG 0x00E4.
Definition NAND_EBI2_ECC_BUF_CFG : Z := NAND_REG 0x00F0.
Definition NAND_FLASH_BUFFER : Z := NAND_REG 0x0100.
Definition NAND_HW_INFO : Z := NAND_REG 0x00FC.

Definition NAND_CMD_PAGE_READ : Z := 0x32.
Definition NAND_CMD_PAGE_READ_ECC : Z := 0x33.
Definition NAND_CMD_PRG_PAGE : Z := 0x36.
Definition NAND_CMD_BLOCK_ERASE : Z := 0x3A.
Definition NAND_CMD_FETCH_ID : Z := 0x0B.

Definition NAND_SFCMD_DATXS : Z := 0x0.
Definition NAND_SFCMD_CMDXS : Z := 0x1.
Definition NAND_SFCMD_ASYNC : Z := 0x1.
Definition NAND_SFCMD_REGRD : Z := 0x2.
Definition NAND_SFCMD_REGWR : Z := 0x3.
Definition NAND_SFCMD_INTHI : Z := 0x5.
Definition NAND_SFCMD_DATRD : Z := 0x6.
Definition NAND_SFCMD_DATWR : Z := 0x7.

Definition SFLASH_PREPCMD (numxfr offval delval trnstp mode opcode : Z) : Z :=
  Z.lor (Z.shiftl numxfr 20) (Z.lor (Z.shiftl offval 12) (Z.lor (Z.shiftl delval 6)
    (Z.lor (Z.shiftl trnstp 5) (Z.lor (Z.shiftl mode 4) opcode)))).
Definition SFLASH_BCFG : Z := 0x20100327.
Definition CLEAN_DATA_32 : Z := 0xFFFFFFFF.
Definition CLEAN_DATA_16 : Z := 0xFFFF.

Definition ONENAND_MANUFACTURER_ID : Z := 0xF000.
Definition ONENAND_DEVICE_ID : Z := 0xF001.
Definition ONENAND_VERSION_ID : Z := 0xF002.
Definition ONENAND_DATA_BUFFER_SIZE : Z := 0xF003.
Definition ONENAND_BOOT_BUFFER_SIZE : Z := 0xF004.
Definition ONENAND_AMOUNT_OF_BUFFERS : Z := 0xF005.
Definition ONENAND_TECHNOLOGY : Z := 0xF006.
Definition ONENAND_START_ADDRESS_1 : Z := 0xF100.
Definition ONENAND_START_ADDRESS_2 : Z := 0xF101.
Definition ONENAND_START_ADDRESS_3 : Z := 0xF102.
Definition ONENAND_START_ADDRESS_8 : Z := 0xF107.
Definition ONENAND_START_BUFFER : Z := 0xF200.
Definition ONENAND_COMMAND : Z := 0xF220.
Definition ONENAND_SYSTEM_CONFIG_1 : Z := 0xF221.
Definition ONENAND_CONTROLLER_STATUS : Z := 0xF240.
Definition ONENAND_INTERRUPT_STATUS : Z := 0xF241.
Definition ONENAND_ECC_STATUS : Z := 0xFF00.
Definition ONENAND_CMDLOAD : Z := 0x0000.
Definition ONENAND_CMDLOADSPARE : Z := 0x0013.
Definition ONENAND_CMDPROG : Z := 0x0080.
Definition ONENAND_CMDPROGSPARE : Z := 0x001A.
Definition ONENAND_CMDERAS : Z := 0x0094.
Definition ONENAND_SYSCFG1_ECCENA : Z := 0x40E0.
Definition ONENAND_SYSCFG1_ECCDIS : Z := 0x41E0.
Definition ONENAND_CLRINTR : Z := 0x0000.
Definition ONENAND_STARTADDR1_RES : Z := 0x07FF.
Definition ONENAND_STARTADDR3_RES : Z := 0x07FF.
Definition DEVICE_FLASHCORE_0 : Z := 0.
Definition DEVICE_BUFFERRAM_0 : Z := 0.
Definition DATARAM0_0 : Z := 0x8.

Definition FLASH_8BIT_NAND_DEVICE : Z := 0x01.
Definition FLASH_16BIT_NAND_DEVICE : Z := 0x02.
Definition FLASH_ONENAND_DEVICE : Z := 0x03.

Definition EBI2_NAND_ADM_MUX : Z := EBI2_REG 0x005C.
Definition EBI2_CHIP_SELECT_CFG0 : Z := EBI2_REG 0x0000.

(** * The data mover (dmov.h) *)

Definition DMOV_SDn (off ch : Z) : Z := 0x18300000 + 0x20800 + off + Z.shiftl ch 2.
Definition DMOV_CMD_PTR (ch : Z) : Z := DMOV_SDn 0x000 ch.
Definition DMOV_RSLT (ch : Z) : Z := DMOV_SDn 0x040 ch.
Definition DMOV_FLUSH0 (ch : Z) : Z := DMOV_SDn 0x080 ch.
Definition DMOV_FLUSH1 (ch : Z) : Z := DMOV_SDn 0x0C0 ch.
Definition DMOV_FLUSH2 (ch : Z) : Z := DMOV_SDn 0x100 ch.
Definition DMOV_FLUSH3 (ch : Z) : Z := DMOV_SDn 0x140 ch.
Definition DMOV_STATUS (ch : Z) : Z := DMOV_SDn 0x200 ch.
Definition DMOV_CONFIG (ch : Z) : Z := DMOV_SDn 0x300 ch.
Definition DMOV_CMD_PTR_LIST : Z := Z.shiftl 1 29.
Definition DMOV_CMD_ADDR (a : Z) : Z := Z.shiftr a 3.
Definition DMOV_STATUS_RSLT_COUNT (n : Z) : Z := Z.shiftr n 29.
Definition DMOV_STATUS_RSLT_VALID : Z := Z.shiftl 1 1.
Definition DMOV_CONFIG_FOREC_FLUSH_RSLT : Z := Z.shiftl 1 1.
Definition DMOV_NAND_CHAN : Z := 3.
Definition DMOV_NAND_CRCI_CMD : Z := 15.
Definition DMOV_NAND_CRCI_DATA : Z := 3.

Definition CMD_PTR_LP : Z := Z.shiftl 1 31.
Definition CMD_LC : Z := Z.shiftl 1 31.
Definition CMD_OCU : Z := Z.shiftl 1 21.
Definition CMD_OCB : Z := Z.shiftl 1 20.
Definition CMD_DST_CRCI (n : Z) : Z := Z.shiftl (Z.land n 15) 7.
Definition CMD_SRC_CRCI (n : Z) : Z := Z.shiftl (Z.land n 15) 3.
Definition DST_CRCI_NAND_CMD : Z := CMD_DST_CRCI DMOV_NAND_CRCI_CMD.
Definition SRC_CRCI_NAND_DATA : Z := CMD_SRC_CRCI DMOV_NAND_CRCI_DATA.

(** One transfer of [len] bytes. *)
Record dmov_s := mkDmov { cmd : Z; src : Z; dst : Z; len : Z }.
#[global] Instance dmov_s_dec : EqDecision dmov_s.
Proof. solve_decision. Defined.

(** * Memory *)

(** The objects that the data mover and the processor share: the command list (1024
    bytes), the pointer list with the operands behind it (1024 bytes), CFG0_TMP and
    CFG1_TMP, flash_spare, empty_buf, the local arrays of the function at work, and the
    buffer of the caller. *)
Inductive area := Cmds | Ptrs | Tmp | Spare | Empty | Local | Image.
#[global] Instance area_dec : EqDecision area.
Proof. solve_decision. Defined.

Record memory := mkMemory {
  m_cmds : list dmov_s; m_ptrs : list Z; m_tmp : list Z;
  m_spare : buffer; m_empty : buffer; m_local : buffer; m_image : buffer }.

Definition set_m_cmds (l : list dmov_s) (m : memory) : memory :=
  mkMemory l (m_ptrs m) (m_tmp m) (m_spare m) (m_empty m) (m_local m) (m_image m).
Definition set_m_ptrs (l : list Z) (m : memory) : memory :=
  mkMemory (m_cmds m) l (m_tmp m) (m_spare m) (m_empty m) (m_local m) (m_image m).
Definition set_m_tmp (l : list Z) (m : memory) : memory :=
  mkMemory (m_cmds m) (m_ptrs m) l (m_spare m) (m_empty m) (m_local m) (m_image m).
Definition set_m_spare (l : buffer) (m : memory) : memory :=
  mkMemory (m_cmds m) (m_ptrs m) (m_tmp m) l (m_empty m) (m_local m) (m_image m).
Definition set_m_empty (l : buffer) (m : memory) : memory :=
  mkMemory (m_cmds m) (m_ptrs m) (m_tmp m) (m_spare m) l (m_local m) (m_image m).
Definition set_m_local (l : buffer) (m : memory) : memory :=
  mkMemory (m_cmds m) (m_ptrs m) (m_tmp m) (m_spare m) (m_empty m) l (m_image m).
Definition set_m_image (l : buffer) (m : memory) : memory :=
  mkMemory (m_cmds m) (m_ptrs m) (m_tmp m) (m_spare m) (m_empty m) (m_local m) l.

(** Elements of the command list and words of the pointer list. *)
Definition CMD_SLOTS : nat := 64.
Definition PTR_WORDS : nat := 256.

(** Size in bytes. *)
Definition size_of (m : memory) (a : area) : Z :=
  match a with
  | Cmds => 16 * Z.of_nat (length (m_cmds m))
  | Ptrs => 4 * Z.of_nat (length (m_ptrs m))
  | Tmp => 4 * Z.of_nat (length (m_tmp m))
  | Spare => Z.of_nat (length (m_spare m))
  | Empty => Z.of_nat (length (m_empty m))
  | Local => Z.of_nat (length (m_local m))
  | Image => Z.of_nat (length (m_image m))
  end.

(** The objects that hold bytes. *)
Definition bytes_in (m : memory) (a : area) : buffer :=
  match a with
  | Spare => m_spare m
  | Empty => m_empty m
  | Local => m_local m
  | Image => m_image m
  | _ => []
  end.
Definition set_bytes (a : area) (b : buffer) (m : memory) : memory :=
  match a with
  | Spare => set_m_spare b m
  | Empty => set_m_empty b m
  | Local => set_m_local b m
  | Image => set_m_image b m
  | _ => m
  end.

(** The object at an address, and the offset into it. *)
Definition find_area (base : area → Z) (m : memory) (a : Z) : option (area * Z) :=
  let at_ ar := (base ar <=? a) && (a <? base ar + size_of m ar) in
  (λ ar, (ar, a - base ar)) <$> head (filter (λ ar, at_ ar = true) [Cmds; Ptrs; Tmp; Spare; Empty; Local; Image]).

(** * Static variables *)

(** dev/flash.h *)
Record flash_info := mkFlashInfo {
  id : Z; type : Z; vendor : Z; device : Z; page_size : Z; block_size : Z; spare_size : Z; num_blocks : Z }.

(** lib/ptable.h *)
Record ptentry := mkPtentry { ptn_name : buffer; start : Z; length_ : Z; ptn_flags : Z; ptn_type : Z; perm : Z }.
Definition TYPE_MODEM_PARTITION : Z := 1.
Definition TYPE_APPS_PARTITION : Z := 0.

Record flash_identification := mkFlashId {
  flash_id : Z; mask : Z; density : Z; widebus : Z; pagesize : Z; blksize : Z; oobsize : Z; onenand : Z }.

Definition supported_flash : list flash_identification :=
  let MB_ n := Z.shiftl n 20 in
  [ mkFlashId 0x00000000 0xFFFFFFFF 0 0 0 0 0 0;
    mkFlashId 0x1500aaec 0xFF00FFFF (MB_ 256) 0 2048 (Z.shiftl 2048 6) 64 0;
    mkFlashId 0x5500baec 0xFF00FFFF (MB_ 256) 1 2048 (Z.shiftl 2048 6) 64 0;
    mkFlashId 0x1500aa98 0xFFFFFFFF (MB_ 256) 0 2048 (Z.shiftl 2048 6) 64 0;
    mkFlashId 0x5500ba98 0xFFFFFFFF (MB_ 256) 1 2048 (Z.shiftl 2048 6) 64 0;
    mkFlashId 0xd580b12c 0xFFFFFFFF (MB_ 256) 1 2048 (Z.shiftl 2048 6) 64 0;
    mkFlashId 0x5590bc2c 0xFFFFFFFF (MB_ 512) 1 2048 (Z.shiftl 2048 6) 64 0;
    mkFlashId 0x1580aa2c 0xFFFFFFFF (MB_ 256) 0 2048 (Z.shiftl 2048 6) 64 0;
    mkFlashId 0x1590aa2c 0xFFFFFFFF (MB_ 256) 0 2048 (Z.shiftl 2048 6) 64 0;
    mkFlashId 0x1590ac2c 0xFFFFFFFF (MB_ 512) 0 2048 (Z.shiftl 2048 6) 64 0;
    mkFlashId 0x5580baad 0xFFFFFFFF (MB_ 256) 1 2048 (Z.shiftl 2048 6) 64 0;
    mkFlashId 0x5510baad 0xFFFFFFFF (MB_ 256) 1 2048 (Z.shiftl 2048 6) 64 0;
    mkFlashId 0x004000ec 0xFFFFFFFF (MB_ 256) 0 2048 (Z.shiftl 2048 6) 64 1;
    mkFlashId 0x005c00ec 0xFFFFFFFF (MB_ 256) 0 2048 (Z.shiftl 2048 6) 64 1;
    mkFlashId 0x005800ec 0xFFFFFFFF (MB_ 256) 0 2048 (Z.shiftl 2048 6) 64 1;
    mkFlashId 0x6600bcec 0xFF00FFFF (MB_ 512) 1 4096 (Z.shiftl 4096 6) 128 0;
    mkFlashId 0x5580ba2c 0xFFFFFFFF (MB_ 256) 1 2048 (Z.shiftl 2048 6) 64 0;
    mkFlashId 0x55d1b3ad 0xFFFFFFFF (MB_ 1024) 1 2048 (Z.shiftl 2048 6) 64 0;
    mkFlashId 0x6600b3ec 0xFFFFFFFF (MB_ 1024) 1 4096 (Z.shiftl 4096 6) 128 0;
    mkFlashId 0x55d1b32c 0xFFFFFFFF (MB_ 1024) 1 2048 (Z.shiftl 2048 6) 64 0;
    mkFlashId 0x2600482c 0xFF00FFFF (MB_ 2048) 0 4096 (Z.shiftl 4096 7) 224 0 ].

(** CFG0, CFG1 (in use), those of the modem and of the applications layout, raw access. *)
Record nand_config := mkConfig {
  CFG0 : Z; CFG1 : Z; CFG0_M : Z; CFG1_M : Z; CFG0_A : Z; CFG1_A : Z; NAND_CFG0_RAW : Z; NAND_CFG1_RAW : Z;
  ECC_BCH_CFG : Z; enable_bch_ecc : Z; nand_cfg1 : Z }.

Record nand_vars := mkVars {
  config : nand_config; info : flash_info; bbtbl : list Z; flash_pagesize : Z; interleaved_mode : Z;
  num_pages_per_blk : Z; num_pages_per_blk_mask : Z; flash_ptable : Z }.

Definition CFG0_RAW : Z := 0xA80420C0.
Definition CFG1_RAW : Z := 0x5045D.
Definition CFG0_RAW_BCHECC : Z := 0xA80428C0.
Definition CFG1_WIDE_FLASH : Z := Z.shiftl 1 1.

(** Entries of bbtbl: -1, 0 and 1. *)
Definition BB_UNKNOWN : Z := 0xFFFFFFFF.
Definition BB_GOOD : Z := 0.
Definition BB_BAD : Z := 1.

(** [v & m], as a condition *)
Definition flag (v m : Z) : bool := negb (Z.land v m =? 0).
Definition bch (c : nand_config) : bool := negb (enable_bch_ecc c =? 0).
Definition wide (c : nand_config) : bool := flag (CFG1 c) CFG1_WIDE_FLASH.

(** * Computations *)

Class Dmov (H : Type) := {
  dm_read : Z → H → memory → Z * H * memory;
  dm_write : Z → Z → H → memory → H * memory;
  interleaved_gpios : H → H;  (* platform_config_interleaved_mode_gpios *)
}.

Inductive nres (A : Type) : Type :=
  | NRet (a : A)
  | NPanic    (* a failed ASSERT *)
  | NUndef    (* an access outside an object, a division by zero *)
  | NSpin.    (* the hardware does not come forward *)
Arguments NRet {_} _.
Arguments NPanic {_}.
Arguments NUndef {_}.
Arguments NSpin {_}.

Record nand_state (H : Type) := mkNand { n_hw : H; n_mem : memory; n_vars : nand_vars }.
Arguments mkNand {_}. Arguments n_hw {_}. Arguments n_mem {_}. Arguments n_vars {_}.

Definition nd (H A : Type) : Type := nand_state H → nres A * nand_state H.
#[global] Instance nd_ret {H} : MRet (nd H) := λ A a s, (NRet a, s).
#[global] Instance nd_bind {H} : MBind (nd H) := λ A B f m s,
  match m s with
  | (NRet a, s) => f a s
  | (NPanic, s) => (NPanic, s)
  | (NUndef, s) => (NUndef, s)
  | (NSpin, s) => (NSpin, s)
  end.

Section Computations.
Context {H : Type} `{Dmov H}.
#[local] Notation M := (nd H).

Definition n_panic {A} : M A := λ s, (NPanic, s).
Definition n_undef {A} : M A := λ s, (NUndef, s).
Definition n_spin {A} : M A := λ s, (NSpin, s).
Definition n_assert (b : bool) : M unit := if b then mret tt else n_panic.
Definition of_res {A} (r : res A) : M A :=
  match r with Ok a => mret a | Panic => n_panic | Fault => n_undef end.

Definition readl (a : Z) : M Z := λ s,
  let '(v, h, m) := dm_read a (n_hw s) (n_mem s) in (NRet v, mkNand h m (n_vars s)).
Definition writel (v a : Z) : M unit := λ s,
  let '(h, m) := dm_write a v (n_hw s) (n_mem s) in (NRet tt, mkNand h m (n_vars s)).

Definition vars : M nand_vars := λ s, (NRet (n_vars s), s).
Definition set_vars (v : nand_vars) : M unit := λ s, (NRet tt, mkNand (n_hw s) (n_mem s) v).
Definition mem : M memory := λ s, (NRet (n_mem s), s).
Definition set_mem (m : memory) : M unit := λ s, (NRet tt, mkNand (n_hw s) m (n_vars s)).

Definition set_config (c : nand_config) : M unit :=
  v ← vars; set_vars (mkVars c (info v) (bbtbl v) (flash_pagesize v) (interleaved_mode v) (num_pages_per_blk v)
                        (num_pages_per_blk_mask v) (flash_ptable v)).
Definition set_info (i : flash_info) : M unit :=
  v ← vars; set_vars (mkVars (config v) i (bbtbl v) (flash_pagesize v) (interleaved_mode v) (num_pages_per_blk v)
                        (num_pages_per_blk_mask v) (flash_ptable v)).
Definition set_bbtbl (l : list Z) : M unit :=
  v ← vars; set_vars (mkVars (config v) (info v) l (flash_pagesize v) (interleaved_mode v) (num_pages_per_blk v)
                        (num_pages_per_blk_mask v) (flash_ptable v)).

(** Division of unsigned integers. *)
Definition udiv (a b : Z) : M Z := if b =? 0 then n_undef else mret (a / b).

(** [data[k] = w, data[k + 1] = ...] where data is word [d] of the pointer list. *)
Definition put_words (d k : nat) (ws : list Z) : M unit :=
  m ← mem;
  if (d + k + length ws <=? length (m_ptrs m))%nat
  then set_mem (set_m_ptrs (take (d + k) (m_ptrs m) ++ ws ++ drop (d + k + length ws) (m_ptrs m)) m)
  else n_undef.
Definition get_word (d k : nat) : M Z := m ← mem; of_res (deref (m_ptrs m !! (d + k)%nat)).

(** The local arrays of a function, [n] bytes together. *)
Definition enter_local (b : buffer) : M unit := m ← mem; set_mem (set_m_local b m).
Definition local (i : nat) : M Z := m ← mem; of_res (deref (m_local m !! i)).
End Computations.

(** * The driver *)

Section Driver.
Context {H : Type} `{Dmov H} (base : area → Z) (tt_ : list Z) (polls : nat) (uninit : Z).
#[local] Notation M := (nd H).

(** [*(char * )a], and a copy of [n] bytes to an address *)
Definition load_byte (a : Z) : M Z :=
  m ← mem;
  match find_area base m a with
  | Some (ar, off) => of_res (byte_at (bytes_in m ar) off)
  | None => n_undef
  end.
Definition store_bytes (a : Z) (bs : list Z) : M unit :=
  m ← mem;
  if (length bs =? 0)%nat then mret tt else
  match find_area base m a with
  | Some (ar, off) => b ← of_res (store (bytes_in m ar) off bs); set_mem (set_bytes ar b m)
  | None => n_undef
  end.

(** ** The data mover *)

(** The list of [cmd[0]], [cmd[1]], ... *)
Definition put_cmds (l : list dmov_s) : M unit :=
  m ← mem;
  if (length l <=? length (m_cmds m))%nat then set_mem (set_m_cmds (l ++ drop (length l) (m_cmds m)) m) else n_undef.

Fixpoint wait_result (fuel : nat) : M unit :=
  match fuel with
  | O => n_spin
  | S fuel => st ← readl (DMOV_STATUS DMOV_NAND_CHAN); if flag st DMOV_STATUS_RSLT_VALID then mret tt else wait_result fuel
  end.

Fixpoint drain_results (fuel : nat) (n : Z) : M unit :=
  if DMOV_STATUS_RSLT_COUNT n =? 0 then mret tt else
  match fuel with
  | O => n_spin
  | S fuel =>
      r ← readl (DMOV_RSLT DMOV_NAND_CHAN);
      (if negb (r =? 0x80000002) then
         readl (DMOV_FLUSH0 DMOV_NAND_CHAN);; readl (DMOV_FLUSH1 DMOV_NAND_CHAN);;
         readl (DMOV_FLUSH2 DMOV_NAND_CHAN);; readl (DMOV_FLUSH3 DMOV_NAND_CHAN);; mret tt
       else mret tt);;
      n ← readl (DMOV_STATUS DMOV_NAND_CHAN);
      drain_results fuel n
  end.

(** On channel DMOV_NAND_CHAN, the only one in use. *)
Definition dmov_exec_cmdptr (ptr : Z) : M unit :=
  writel (Z.lor DMOV_CONFIG_FOREC_FLUSH_RSLT 0x0) (DMOV_CONFIG DMOV_NAND_CHAN);;
  writel (Z.lor DMOV_CMD_PTR_LIST (DMOV_CMD_ADDR ptr)) (DMOV_CMD_PTR DMOV_NAND_CHAN);;
  wait_result polls;;
  n ← readl (DMOV_STATUS DMOV_NAND_CHAN);
  drain_results polls n.

(** [... ptr[0] = (paddr(cmd) >> 3) | CMD_PTR_LP; dmov_exec_cmdptr(DMOV_NAND_CHAN, ptr);] *)
Definition exec_list (l : list dmov_s) : M unit :=
  put_cmds l;;
  put_words 0 0 [Z.lor (Z.shiftr (base Cmds) 3) CMD_PTR_LP];;
  dmov_exec_cmdptr (base Ptrs).

(** [&data[k]], where data is word 4 of the pointer list *)
Definition data_at (k : nat) : Z := base Ptrs + 4 * Z.of_nat (4 + k).
Definition put_data : nat → list Z → M unit := put_words 4.
Definition get_data : nat → M Z := get_word 4.

(** ** NAND *)

Definition set_nand_configuration (ptype : Z) : M unit :=
  v ← vars;
  let c := config v in
  let '(c0, c1) := if ptype =? TYPE_MODEM_PARTITION then (CFG0_M c, CFG1_M c) else (CFG0_A c, CFG1_A c) in
  set_config (mkConfig c0 c1 (CFG0_M c) (CFG1_M c) (CFG0_A c) (CFG1_A c) (NAND_CFG0_RAW c) (NAND_CFG1_RAW c)
                (ECC_BCH_CFG c) (enable_bch_ecc c) (nand_cfg1 c)).

Definition set_id (i vendor_ device_ : Z) : M unit :=
  v ← vars;
  let f := info v in
  set_info (mkFlashInfo i (type f) vendor_ device_ (page_size f) (block_size f) (spare_size f) (num_blocks f)).

Definition flash_nand_read_id : M unit :=
  put_data 0 [4; NAND_CMD_FETCH_ID; 1; 0; 0; 0; 0; 0xAAD40000];;
  exec_list
    [ mkDmov CMD_OCB (data_at 7) NAND_DEV0_CFG0 4;
      mkDmov 0 NAND_SFLASHC_BURST_CFG (data_at 5) 4;
      mkDmov 0 (data_at 6) NAND_SFLASHC_BURST_CFG 4;
      mkDmov 0 (data_at 0) NAND_FLASH_CHIP_SELECT 4;
      mkDmov DST_CRCI_NAND_CMD (data_at 1) NAND_FLASH_CMD 4;
      mkDmov 0 (data_at 2) NAND_EXEC_CMD 4;
      mkDmov SRC_CRCI_NAND_DATA NAND_FLASH_STATUS (data_at 3) 4;
      mkDmov 0 NAND_READ_ID (data_at 4) 4;
      mkDmov (Z.lor CMD_OCU CMD_LC) (data_at 5) NAND_SFLASHC_BURST_CFG 4 ];;
  d4 ← get_data 4;
  set_id d4 (Z.land d4 0xff) (Z.land (Z.shiftr d4 8) 0xff).

(** The first page of the block of [page]. *)
Definition block_start (v : nand_vars) (page : Z) : Z := u32 (page - Z.land page (num_pages_per_blk_mask v)).

Definition flash_nand_block_isbad (page : Z) : M Z :=
  v ← vars;
  let c := config v in
  let cwperpage := Z.shiftr (flash_pagesize v) 9 in
  let page := block_start v page in
  let last := u32 ((if bch c then 532 else 528) * (cwperpage - 1)) in
  put_data 0
    [ NAND_CMD_PAGE_READ;
      Z.lor (u32 (Z.shiftl page 16)) (if wide c then Z.shiftr last 1 else last);
      Z.land (Z.shiftr page 16) 0xff;
      4;
      Z.land (NAND_CFG0_RAW c) (Z.lnot (Z.shiftl 7 6));
      Z.lor (NAND_CFG1_RAW c) (Z.land (CFG1 c) CFG1_WIDE_FLASH) ];;
  (if bch c then put_data 6 [ECC_BCH_CFG c] else mret tt);;
  put_data 7 [1; CLEAN_DATA_32; CLEAN_DATA_32];;
  enter_local (replicate 4 uninit);;
  exec_list
    [ mkDmov (Z.lor DST_CRCI_NAND_CMD CMD_OCB) (data_at 0) NAND_FLASH_CMD 16;
      mkDmov 0 (data_at 4) NAND_DEV0_CFG0 (if bch c then 12 else 8);
      mkDmov 0 (data_at 7) NAND_EXEC_CMD 4;
      mkDmov SRC_CRCI_NAND_DATA NAND_FLASH_STATUS (data_at 8) 8;
      mkDmov (Z.lor CMD_OCU CMD_LC) (u32 (NAND_FLASH_BUFFER + (flash_pagesize v - last))) (base Local) 4 ];;
  d8 ← get_data 8;
  if flag d8 0x110 then mret (-1) else
  b0 ← local 0;
  b1 ← local 1;
  if wide c then mret (if negb (b0 =? 0xFF) || negb (b1 =? 0xFF) then 1 else 0)
  else mret (if negb (b0 =? 0xFF) then 1 else 0).

(** Two controllers at once.  Some sources of this list are the values of the operands
    where the others are their addresses. *)
Definition flash_nand_block_isbad_interleave (page : Z) : M Z :=
  v ← vars;
  let c := config v in
  let cwperpage := Z.shiftr (Z.shiftr (flash_pagesize v) 1) 9 in
  let page := u32 (page - Z.land page 63) in
  let last := u32 (528 * (cwperpage - 1)) in
  put_data 0
    [ NAND_CMD_PAGE_READ;
      Z.lor (u32 (Z.shiftl page 16)) (if wide c then Z.shiftr last 1 else last);
      Z.land (Z.shiftr page 16) 0xff; 4; 5;
      Z.land (NAND_CFG0_RAW c) (Z.lnot (Z.shiftl 7 6));
      Z.lor (NAND_CFG1_RAW c) (Z.land (CFG1 c) CFG1_WIDE_FLASH);
      1; CLEAN_DATA_32; CLEAN_DATA_32; CLEAN_DATA_32; CLEAN_DATA_32;
      0xA3C; 0x53C; 0xF28; 0xF14; 0xFC0; 0x805; 0x801 ];;
  enter_local (replicate 8 uninit);;
  exec_list
    [ mkDmov 0 0x805 EBI2_CHIP_SELECT_CFG0 4;
      mkDmov 0 0xF14 EBI2_NAND_ADM_MUX 4;
      mkDmov DST_CRCI_NAND_CMD (data_at 0) (NC01 NAND_FLASH_CMD) 16;
      mkDmov 0 (data_at 5) (NC01 NAND_DEV0_CFG0) 8;
      mkDmov 0 (data_at 7) (NC01 NAND_EXEC_CMD) 4;
      mkDmov 0 0xF28 EBI2_NAND_ADM_MUX 4;
      mkDmov SRC_CRCI_NAND_DATA (NC01 NAND_FLASH_STATUS) (data_at 8) 8;
      mkDmov 0 (u32 (NC01 NAND_FLASH_BUFFER + (flash_pagesize v - last))) (base Local) 4;
      mkDmov 0 0x53C EBI2_NAND_ADM_MUX 4;
      mkDmov DST_CRCI_NAND_CMD (data_at 0) (NC10 NAND_FLASH_CMD) 12;
      mkDmov 0 (data_at 4) (NC10 NAND_FLASH_CHIP_SELECT) 4;
      mkDmov 0 (data_at 5) (NC10 NAND_DEV1_CFG0) 8;
      mkDmov 0 (data_at 7) (NC10 NAND_EXEC_CMD) 4;
      mkDmov 0 0xA3C EBI2_NAND_ADM_MUX 4;
      mkDmov SRC_CRCI_NAND_DATA (NC10 NAND_FLASH_STATUS) (data_at 10) 8;
      mkDmov 0 (u32 (NC10 NAND_FLASH_BUFFER + (flash_pagesize v - last))) (base Local + 4) 4;
      mkDmov 0 (data_at 16) EBI2_NAND_ADM_MUX 4;
      mkDmov (Z.lor CMD_OCU CMD_LC) (data_at 18) EBI2_CHIP_SELECT_CFG0 4 ];;
  d8 ← get_data 8;
  d10 ← get_data 10;
  if flag d8 0x110 || flag d10 0x110 then mret (-1) else
  a0 ← local 0;
  a1 ← local 1;
  b0 ← local 4;
  b1 ← local 5;
  if wide c then mret (if negb (a0 =? 0xFF) || negb (a1 =? 0xFF) || (negb (b0 =? 0xFF) || negb (b1 =? 0xFF)) then 1 else 0)
  else mret (if negb (a0 =? 0xFF) || negb (b0 =? 0xFF) then 1 else 0).

Definition flash_nand_erase_block (page : Z) : M Z :=
  v ← vars;
  let c := config v in
  if flag page (num_pages_per_blk_mask v) then mret (-1) else
  isbad ← flash_nand_block_isbad page;
  if negb (isbad =? 0) then mret (-1) else
  put_data 0
    [ NAND_CMD_BLOCK_ERASE; page; 0; 4; 1; 0xeeeeeeee;
      Z.land (CFG0 c) (Z.lnot (Z.shiftl 7 6)); CFG1 c; ECC_BCH_CFG c; 0x20; 0xC0 ];;
  exec_list
    [ mkDmov (Z.lor DST_CRCI_NAND_CMD CMD_OCB) (data_at 0) NAND_FLASH_CMD 16;
      mkDmov 0 (data_at 6) NAND_DEV0_CFG0 (if bch c then 12 else 8);
      mkDmov 0 (data_at 4) NAND_EXEC_CMD 4;
      mkDmov SRC_CRCI_NAND_DATA NAND_FLASH_STATUS (data_at 5) 4;
      mkDmov 0 (data_at 9) NAND_FLASH_STATUS 4;
      mkDmov (Z.lor CMD_OCU CMD_LC) (data_at 10) NAND_READ_STATUS 4 ];;
  d5 ← get_data 5;
  if flag d5 0x110 then mret (-1) else
  if negb (flag d5 0x80) then mret (-1) else mret 0.

Definition flash_nand_erase_block_interleave (page : Z) : M Z :=
  v ← vars;
  let c := config v in
  if flag page 63 then mret (-1) else
  isbad ← flash_nand_block_isbad page;
  if negb (isbad =? 0) then mret (-1) else
  put_data 0
    [ NAND_CMD_BLOCK_ERASE; page; 0; 4; 5; 1; 0xeeeeeeee; 0xeeeeeeee;
      Z.land (CFG0 c) (Z.lnot (Z.shiftl 7 6)); CFG1 c;
      0xA3C; 0x53C; 0xF28; 0xF14; 0xFC0; 0x805; 0x801 ];;
  exec_list
    [ mkDmov CMD_OCB 0x805 EBI2_CHIP_SELECT_CFG0 4;
      mkDmov 0 0xF14 EBI2_NAND_ADM_MUX 4;
      mkDmov DST_CRCI_NAND_CMD (data_at 0) (NC01 NAND_FLASH_CMD) 16;
      mkDmov 0 (data_at 8) (NC01 NAND_DEV0_CFG0) 8;
      mkDmov 0 (data_at 5) (NC01 NAND_EXEC_CMD) 4;
      mkDmov 0 0xF28 EBI2_NAND_ADM_MUX 4;
      mkDmov SRC_CRCI_NAND_DATA (NC01 NAND_FLASH_STATUS) (data_at 6) 4;
      mkDmov 0 0x53C EBI2_NAND_ADM_MUX 4;
      mkDmov DST_CRCI_NAND_CMD (data_at 0) (NC10 NAND_FLASH_CMD) 12;
      mkDmov 0 (data_at 4) (NC10 NAND_FLASH_CHIP_SELECT) 4;
      mkDmov 0 (data_at 8) (NC10 NAND_DEV1_CFG0) 8;
      mkDmov 0 (data_at 5) (NC10 NAND_EXEC_CMD) 4;
      mkDmov 0 0xA3C EBI2_NAND_ADM_MUX 4;
      mkDmov SRC_CRCI_NAND_DATA (NC10 NAND_FLASH_STATUS) (data_at 7) 4;
      mkDmov 0 0xFC0 EBI2_NAND_ADM_MUX 4;
      mkDmov (Z.lor CMD_OCU CMD_LC) 0x801 EBI2_CHIP_SELECT_CFG0 4 ];;
  d6 ← get_data 6;
  d7 ← get_data 7;
  if flag d6 0x110 || flag d7 0x110 then mret (-1) else
  if negb (flag d6 0x80) || negb (flag d7 0x80) then mret (-1) else mret 0.

(** struct data_flash_io, as indices of words: cmd 0, addr0 1, addr1 2, chipsel 3, cfg0 4,
    cfg1 5, ecc_bch_cfg 6, exec 7, ecc_cfg 8, ecc_cfg_save 9, clrfstatus 10, clrrstatus 11,
    result[n] 12 + 2n. *)
Definition io_result (n : nat) : nat := (12 + 2 * n)%nat.

(** Bytes of code word [n] that belong to the page. *)
Definition cw_len (cwperpage : Z) (n : nat) : Z :=
  if Z.of_nat n <? cwperpage - 1 then 516 else 512 - Z.shiftl (cwperpage - 1) 2.

Definition read_codeword (c : nand_config) (cwperpage addr : Z) (n : nat) : list dmov_s :=
  [ mkDmov DST_CRCI_NAND_CMD (data_at 0) NAND_FLASH_CMD (if (n =? 0)%nat then 16 else 4) ] ++
  (if (n =? 0)%nat then
     [ mkDmov 0 (data_at 4) NAND_DEV0_CFG0 (if bch c then 12 else 8);
       mkDmov 0 (data_at 8) NAND_EBI2_ECC_BUF_CFG 4 ]
   else []) ++
  [ mkDmov 0 (data_at 7) NAND_EXEC_CMD 4;
    mkDmov SRC_CRCI_NAND_DATA NAND_FLASH_STATUS (data_at (io_result n)) 8;
    mkDmov 0 NAND_FLASH_BUFFER (u32 (addr + Z.of_nat n * 516)) (cw_len cwperpage n) ].

Definition read_page_list (c : nand_config) (cwperpage addr spareaddr : Z) : list dmov_s :=
  [ mkDmov CMD_OCB NAND_EBI2_ECC_BUF_CFG (data_at 9) 4 ] ++
  flat_map (read_codeword c cwperpage addr) (seq 0 (Z.to_nat cwperpage)) ++
  [ mkDmov 0 (NAND_FLASH_BUFFER + (512 - Z.shiftl (cwperpage - 1) 2)) spareaddr 16 ] ++
  [ mkDmov (Z.lor CMD_OCU CMD_LC) (data_at 9) NAND_EBI2_ECC_BUF_CFG 4 ].

(** [for (n = 0; n < cwperpage; n++) if (data->result[n].flash_status & 0x110) return -1;]
    and, for writes, the test of the success bit. *)
Fixpoint check_results (at_ : nat → nat) (success : bool) (ns : list nat) : M Z :=
  match ns with
  | [] => mret 0
  | n :: ns =>
      st ← get_data (at_ n);
      if flag st 0x110 then mret (-1) else
      if success && negb (flag st 0x80) then mret (-1) else check_results at_ success ns
  end.

(** The bad block table: [-2] for a bad block. *)
Definition check_bbtbl (page : Z) : M bool :=
  v ← vars;
  block ← udiv page (num_pages_per_blk v);
  e ← of_res (deref (bbtbl v !! Z.to_nat block));
  if e =? BB_UNKNOWN then
    isbad ← flash_nand_block_isbad page;
    v ← vars;
    set_bbtbl (<[Z.to_nat block := if negb (isbad =? 0) then BB_BAD else BB_GOOD]> (bbtbl v));;
    mret (negb (isbad =? 0))
  else mret (e =? BB_BAD).

Definition _flash_nand_read_page (page addr spareaddr : Z) : M Z :=
  v ← vars;
  let c := config v in
  let cwperpage := Z.shiftr (flash_pagesize v) 9 in
  isbad ← check_bbtbl page;
  if isbad : bool then mret (-2) else
  put_data 0 [NAND_CMD_PAGE_READ_ECC; u32 (Z.shiftl page 16); Z.land (Z.shiftr page 16) 0xff; 4; CFG0 c; CFG1 c];;
  put_data 7 [1; 0x203];;
  (if bch c then put_data 6 [ECC_BCH_CFG c] else mret tt);;
  exec_list (read_page_list c cwperpage addr spareaddr);;
  check_results io_result false (seq 0 (Z.to_nat cwperpage)).

(** struct interleave_data_flash_io: cmd 0, addr0 1, addr1 2, chipsel_cs0 3, chipsel_cs1 4,
    cfg0 5, cfg1 6, exec 7, ecc_cfg 8, ecc_cfg_save 9, ebi2_chip_select_cfg0 10,
    adm_mux_data_ack_req_nc01 11, adm_mux_cmd_ack_req_nc01 12, adm_mux_data_ack_req_nc10 13,
    adm_mux_cmd_ack_req_nc10 14, adm_default_mux 15, default_ebi2_chip_select_cfg0 16,
    result[n] 17 + n. *)
Definition il_result (n : nat) : nat := (17 + n)%nat.

Definition il_operands (command page cfg0 cfg1 : Z) : list Z :=
  [ command; u32 (Z.shiftl page 16); Z.land (Z.shiftr page 16) 0xff; 4; 5; cfg0; cfg1; 1; 0x203 ].
Definition il_mux_operands : list Z := [0x805; 0xA3C; 0x53C; 0xF28; 0xF14; 0xFC0; 0x801].

(** Start the command on one of the controllers. *)
Definition il_mux (k : nat) : dmov_s := mkDmov 0 (data_at k) EBI2_NAND_ADM_MUX 4.
Definition il_cmd (nc : Z → Z) : dmov_s := mkDmov DST_CRCI_NAND_CMD (data_at 0) (nc NAND_FLASH_CMD) 4.
Definition il_exec (nc : Z → Z) : dmov_s := mkDmov 0 (data_at 7) (nc NAND_EXEC_CMD) 4.
Definition il_status (nc : Z → Z) (n : nat) : dmov_s :=
  mkDmov SRC_CRCI_NAND_DATA (nc NAND_FLASH_STATUS) (data_at (il_result n)) 4.

Definition il_read_codeword (cwperpage addr spareaddr : Z) (n : nat) : list dmov_s :=
  (if (n =? 0)%nat then
     [ mkDmov CMD_OCB (data_at 10) EBI2_CHIP_SELECT_CFG0 4;
       mkDmov 0 NAND_EBI2_ECC_BUF_CFG (data_at 9) 4;
       mkDmov 0 (data_at 1) (NC11 NAND_ADDR0) 8;
       mkDmov 0 (data_at 3) (NC01 NAND_FLASH_CHIP_SELECT) 4;
       mkDmov 0 (data_at 4) (NC10 NAND_FLASH_CHIP_SELECT) 4;
       mkDmov 0 (data_at 5) (NC01 NAND_DEV0_CFG0) 8;
       mkDmov 0 (data_at 5) (NC10 NAND_DEV1_CFG0) 8;
       mkDmov 0 (data_at 8) (NC11 NAND_EBI2_ECC_BUF_CFG) 4 ] ++
     (if Z.of_nat n =? cwperpage - 1 then [il_mux 12; il_cmd NC10; il_exec NC10; il_mux 11; il_status NC10 n]
      else [il_mux 14; il_cmd NC01; il_exec NC01])
   else []) ++
  (if (n mod 2 =? 0)%nat then
     [ il_mux 12; il_cmd NC10; il_exec NC10; il_mux 13; il_status NC01 n;
       mkDmov 0 (NC01 NAND_FLASH_BUFFER) (u32 (addr + Z.of_nat n * 516)) (cw_len cwperpage n) ]
   else
     (if negb (Z.of_nat n =? cwperpage - 1)
      then [il_mux 14; il_cmd NC01; il_exec NC01; il_mux 11; il_status NC10 n]
      else [il_mux 11; il_status NC10 n]) ++
     [ mkDmov 0 (NC10 NAND_FLASH_BUFFER) (u32 (addr + Z.of_nat n * 516)) (cw_len cwperpage n) ] ++
     (if Z.of_nat n =? cwperpage - 1
      then [ mkDmov 0 (u32 (NC10 NAND_FLASH_BUFFER + (512 - Z.shiftl (cwperpage - 1) 2))) spareaddr 16 ] else [])).

(** The transfer that restores the ECC configuration, with CMD_LC, is overwritten by the
    next one: there is no cmd++ after it. *)
Definition il_read_page_list (cwperpage addr spareaddr : Z) : list dmov_s :=
  flat_map (il_read_codeword cwperpage addr spareaddr) (seq 0 (Z.to_nat cwperpage)) ++
  [ il_mux 15; mkDmov 0 (data_at 16) EBI2_CHIP_SELECT_CFG0 4 ].

Definition flash_nand_read_page_interleave (page addr spareaddr : Z) : M Z :=
  v ← vars;
  let c := config v in
  let cwperpage := Z.shiftr (flash_pagesize v) 9 in
  isbad ← flash_nand_block_isbad page;
  if negb (isbad =? 0) then mret (-2) else
  put_data 0 (il_operands NAND_CMD_PAGE_READ_ECC page (CFG0 c) (CFG1 c));;
  put_data 10 il_mux_operands;;
  put_data (il_result 0) (replicate (Z.to_nat cwperpage) 0xeeeeeeee);;
  exec_list (il_read_page_list cwperpage addr spareaddr);;
  check_results il_result false (seq 0 (Z.to_nat cwperpage)).

Definition write_codeword (c : nand_config) (raw_mode modem : bool) (cwperpage addr spareaddr : Z) (n : nat) : list dmov_s :=
  [ mkDmov DST_CRCI_NAND_CMD (data_at 0) NAND_FLASH_CMD (if (n =? 0)%nat then 16 else 4) ] ++
  (if (n =? 0)%nat then
     [ mkDmov 0 (data_at 4) NAND_DEV0_CFG0 (if bch c then 12 else 8);
       mkDmov 0 (data_at 8) NAND_EBI2_ECC_BUF_CFG 4 ]
   else []) ++
  [ if raw_mode then mkDmov 0 addr NAND_FLASH_BUFFER 528
    else if modem then mkDmov 0 (u32 (addr + Z.of_nat n * 512)) NAND_FLASH_BUFFER 512
    else mkDmov 0 (u32 (addr + Z.of_nat n * 516)) NAND_FLASH_BUFFER (cw_len cwperpage n) ] ++
  (if (Z.of_nat n =? cwperpage - 1) && negb raw_mode && negb modem then
     [ mkDmov 0 spareaddr (NAND_FLASH_BUFFER + (512 - Z.shiftl (cwperpage - 1) 2)) (Z.shiftl cwperpage 2) ]
   else []) ++
  [ mkDmov 0 (data_at 7) NAND_EXEC_CMD 4;
    mkDmov SRC_CRCI_NAND_DATA NAND_FLASH_STATUS (data_at (io_result n)) 8;
    mkDmov 0 (data_at 10) NAND_FLASH_STATUS 4;
    mkDmov 0 (data_at 11) NAND_READ_STATUS 4 ].

Definition write_page_list (c : nand_config) (raw_mode modem : bool) (cwperpage addr spareaddr : Z) : list dmov_s :=
  [ mkDmov CMD_OCB NAND_EBI2_ECC_BUF_CFG (data_at 9) 4 ] ++
  flat_map (write_codeword c raw_mode modem cwperpage addr spareaddr) (seq 0 (Z.to_nat cwperpage)) ++
  [ mkDmov (Z.lor CMD_OCU CMD_LC) (data_at 9) NAND_EBI2_ECC_BUF_CFG 4 ].

Definition raw_cfg0 (c : nand_config) (cws : Z) : Z :=
  Z.lor (Z.land (NAND_CFG0_RAW c) (Z.lnot (Z.shiftl 7 6))) (u32 (Z.shiftl (cws - 1) 6)).
Definition raw_cfg1 (c : nand_config) : Z := Z.lor (NAND_CFG1_RAW c) (Z.land (CFG1 c) CFG1_WIDE_FLASH).

Definition _flash_nand_write_page (page addr spareaddr : Z) (raw_mode : bool) : M Z :=
  v ← vars;
  let c := config v in
  let cwperpage := Z.shiftr (flash_pagesize v) 9 in
  let modem := CFG0 c =? CFG0_M c in
  put_data 0 [NAND_CMD_PRG_PAGE; u32 (Z.shiftl page 16); Z.land (Z.shiftr page 16) 0xff; 4];;
  put_data 10 [0x20; 0xC0];;
  (if raw_mode then put_data 4 [raw_cfg0 c cwperpage; raw_cfg1 c]
   else put_data 4 [CFG0 c; CFG1 c];; if bch c then put_data 6 [ECC_BCH_CFG c] else mret tt);;
  put_data 7 [1; if modem then 0x1FF else 0x203];;
  exec_list (write_page_list c raw_mode modem cwperpage addr spareaddr);;
  check_results io_result true (seq 0 (Z.to_nat cwperpage)).

Definition il_write_codeword (raw_mode : bool) (cwperpage addr spareaddr : Z) (n : nat) : list dmov_s :=
  (if (n =? 0)%nat then
     [ mkDmov CMD_OCB (data_at 10) EBI2_CHIP_SELECT_CFG0 4;
       mkDmov 0 (NC11 NAND_EBI2_ECC_BUF_CFG) (data_at 9) 4;
       mkDmov 0 (data_at 8) (NC11 NAND_EBI2_ECC_BUF_CFG) 4;
       mkDmov 0 (data_at 1) (NC11 NAND_ADDR0) 8;
       mkDmov 0 (data_at 3) (NC01 NAND_FLASH_CHIP_SELECT) 4;
       mkDmov 0 (data_at 4) (NC10 NAND_FLASH_CHIP_SELECT) 4;
       mkDmov 0 (data_at 5) (NC01 NAND_DEV0_CFG0) 8;
       mkDmov 0 (data_at 5) (NC10 NAND_DEV1_CFG0) 8 ]
   else []) ++
  (if (n mod 2 =? 0)%nat then [il_mux 14; il_cmd NC01] else [il_mux 12; il_cmd NC10]) ++
  (let buf := if (n mod 2 =? 0)%nat then NC01 NAND_FLASH_BUFFER else NC10 NAND_FLASH_BUFFER in
   [ if raw_mode then mkDmov 0 addr buf 528
     else mkDmov 0 (u32 (addr + Z.of_nat n * 516)) buf (cw_len cwperpage n) ]) ++
  (if (Z.of_nat n =? cwperpage - 1) && negb raw_mode then
     [ mkDmov 0 spareaddr (u32 (NC10 NAND_FLASH_BUFFER + (512 - Z.shiftl (cwperpage - 1) 2))) (Z.shiftl cwperpage 2) ]
   else []) ++
  (if (n mod 2 =? 0)%nat then
     il_exec NC01 :: (if negb (n =? 0)%nat then [il_mux 11; il_status NC10 (n - 1)] else [])
   else [il_exec NC10; il_mux 13; il_status NC01 (n - 1)]).

(** Here, too, the transfer that restores the ECC configuration is overwritten. *)
Definition il_write_page_list (raw_mode : bool) (cwperpage addr spareaddr : Z) : list dmov_s :=
  flat_map (il_write_codeword raw_mode cwperpage addr spareaddr) (seq 0 (Z.to_nat cwperpage)) ++
  [ il_mux 11; il_status NC10 (Z.to_nat cwperpage - 1); il_mux 15;
    mkDmov (Z.lor CMD_OCU CMD_LC) (data_at 16) EBI2_CHIP_SELECT_CFG0 4 ].

Definition flash_nand_write_page_interleave (page addr spareaddr : Z) (raw_mode : bool) : M Z :=
  v ← vars;
  let c := config v in
  let cwperpage := Z.shiftr (flash_pagesize v) 9 * 2 in
  let cwcount := Z.shiftl cwperpage 1 in
  put_data 0 (il_operands NAND_CMD_PRG_PAGE page
    (if raw_mode then raw_cfg0 c cwcount else CFG0 c) (if raw_mode then raw_cfg1 c else CFG1 c));;
  put_data 10 il_mux_operands;;
  put_data (il_result 0) (replicate (Z.to_nat cwperpage) 0xeeeeeeee);;
  exec_list (il_write_page_list raw_mode cwperpage addr spareaddr);;
  check_results il_result true (seq 0 (Z.to_nat cwperpage)).

Definition clear_empty_buf : M unit := m ← mem; set_mem (set_m_empty (replicate 528 0) m).

Definition flash_nand_mark_badblock (page : Z) : M Z :=
  clear_empty_buf;;
  v ← vars;
  _flash_nand_write_page (block_start v page) (base Empty) 0 true.

(** The configuration words; the shifts fill disjoint fields. *)
Definition apps_cfg0 (pgsz : Z) (wide_ bch_ : bool) : Z :=
  Z.lor (u32 (Z.shiftl (Z.shiftr pgsz 9 - 1) 6)) (Z.lor (Z.shiftl 516 9) (Z.lor (Z.shiftl 10 19) (Z.lor (Z.shiftl 5 27)
    (Z.lor (Z.shiftl 1 31) (if wide_ then 0 else if bch_ then Z.shiftl 2 23 else Z.shiftl 1 23))))).
Definition modem_cfg0 (pgsz : Z) (wide_ : bool) : Z :=
  Z.lor (u32 (Z.shiftl (Z.shiftr pgsz 9 - 1) 6)) (Z.lor (Z.shiftl 512 9) (Z.lor (Z.shiftl 10 19) (Z.lor (Z.shiftl 5 27)
    (Z.lor (Z.shiftl 1 31) (if wide_ then Z.shiftl 4 23 else Z.shiftl 5 23))))).
(** Recovery cycles, location of the bad block marker, tWB/tRB, width. *)
Definition layout_cfg1 (pgsz cw_size : Z) (wide_ : bool) : Z :=
  Z.lor (Z.shiftl 7 2) (Z.lor (u32 (Z.shiftl (u32 (pgsz - cw_size * (Z.shiftr pgsz 9 - 1) + 1)) 6)) (Z.lor (Z.shiftl 2 17)
    (if wide_ then CFG1_WIDE_FLASH else 0))).
Definition bch_cfg (wide_ : bool) : Z :=
  Z.lor (Z.shiftl 1 4) (Z.lor (if wide_ then Z.shiftl 14 8 else Z.shiftl 13 8) (Z.lor (Z.shiftl 516 16) (Z.shiftl 1 30))).

Definition flash_nand_read_config : M Z :=
  exec_list
    [ mkDmov CMD_OCB NAND_DEV0_CFG0 (base Tmp) 4;
      mkDmov (Z.lor CMD_OCU CMD_LC) NAND_DEV0_CFG1 (base Tmp + 4) 4 ];;
  m ← mem;
  c0 ← of_res (deref (m_tmp m !! 0%nat));
  c1 ← of_res (deref (m_tmp m !! 1%nat));
  if (c0 =? 0) || (c1 =? 0) then mret (-1) else
  v ← vars;
  let c := config v in
  let nand_cfg1 := if type (info v) =? FLASH_16BIT_NAND_DEVICE then Z.lor (nand_cfg1 c) CFG1_WIDE_FLASH else nand_cfg1 c in
  let w := flag nand_cfg1 CFG1_WIDE_FLASH in
  let b := bch c in
  let pgsz := flash_pagesize v in
  let cfg1_a := layout_cfg1 pgsz (if b then 532 else 528) w in
  set_config (mkConfig (CFG0 c) (CFG1 c)
    (modem_cfg0 pgsz w) (layout_cfg1 pgsz 528 w)
    (apps_cfg0 pgsz w b) (if b then Z.lor cfg1_a (Z.shiftl 1 27) else cfg1_a)
    (if b then CFG0_RAW_BCHECC else CFG0_RAW) CFG1_RAW
    (if b then bch_cfg w else ECC_BCH_CFG c) (enable_bch_ecc c) nand_cfg1);;
  mret 0.

(** ** OneNAND *)

(** [(h << 16) | l] *)
Definition hl (h l : Z) : Z := Z.lor (u32 (Z.shiftl h 16)) l.

Definition flash_onenand_read_id : M unit :=
  put_data 0
    [ SFLASH_BCFG;
      SFLASH_PREPCMD 8 0 0 NAND_SFCMD_DATXS NAND_SFCMD_ASYNC NAND_SFCMD_REGRD;
      hl ONENAND_DEVICE_ID ONENAND_MANUFACTURER_ID;
      hl ONENAND_DATA_BUFFER_SIZE ONENAND_VERSION_ID;
      hl ONENAND_AMOUNT_OF_BUFFERS ONENAND_BOOT_BUFFER_SIZE;
      hl CLEAN_DATA_16 ONENAND_TECHNOLOGY;
      CLEAN_DATA_32; CLEAN_DATA_32; CLEAN_DATA_32; CLEAN_DATA_32; CLEAN_DATA_32; 1; 4 ];;
  exec_list
    [ mkDmov CMD_OCB (data_at 0) NAND_SFLASHC_BURST_CFG 4;
      mkDmov 0 (data_at 12) NAND_FLASH_CHIP_SELECT 4;
      mkDmov DST_CRCI_NAND_CMD (data_at 1) NAND_SFLASHC_CMD 4;
      mkDmov 0 (data_at 2) NAND_ADDR0 8;
      mkDmov 0 (data_at 4) NAND_ADDR2 8;
      mkDmov 0 (data_at 11) NAND_SFLASHC_EXEC_CMD 4;
      mkDmov SRC_CRCI_NAND_DATA NAND_SFLASHC_STATUS (data_at 6) 4;
      mkDmov (Z.lor CMD_OCU CMD_LC) NAND_GENP_REG0 (data_at 7) 16 ];;
  d7 ← get_data 7;
  set_id d7 (Z.land d7 CLEAN_DATA_16) (Z.land (Z.shiftr d7 16) CLEAN_DATA_16).

(** addr0 to addr6 of the structures of erase, read and write *)
Definition on_addrs : list Z :=
  [ hl ONENAND_INTERRUPT_STATUS ONENAND_SYSTEM_CONFIG_1;
    hl ONENAND_START_ADDRESS_8 ONENAND_START_ADDRESS_1;
    hl ONENAND_START_BUFFER ONENAND_START_ADDRESS_2;
    hl ONENAND_ECC_STATUS ONENAND_COMMAND;
    hl ONENAND_CONTROLLER_STATUS ONENAND_INTERRUPT_STATUS;
    hl ONENAND_INTERRUPT_STATUS ONENAND_SYSTEM_CONFIG_1;
    hl ONENAND_START_ADDRESS_3 ONENAND_START_ADDRESS_1 ].
(** data0 to data6 *)
Definition on_data (sysconfig1 startaddr8 startaddr1 command : Z) : list Z :=
  [ hl ONENAND_CLRINTR sysconfig1;
    hl startaddr8 startaddr1;
    hl (Z.shiftl DATARAM0_0 8) (Z.shiftl DEVICE_BUFFERRAM_0 15);
    hl CLEAN_DATA_16 command;
    hl CLEAN_DATA_16 CLEAN_DATA_16;
    hl ONENAND_CLRINTR ONENAND_SYSCFG1_ECCENA;
    hl ONENAND_STARTADDR3_RES ONENAND_STARTADDR1_RES ].

Definition on_regwr : Z := SFLASH_PREPCMD 7 0 0 NAND_SFCMD_CMDXS NAND_SFCMD_ASYNC NAND_SFCMD_REGWR.
Definition on_inthi : Z := SFLASH_PREPCMD 0 0 32 NAND_SFCMD_CMDXS NAND_SFCMD_ASYNC NAND_SFCMD_INTHI.
Definition on_regrd : Z := SFLASH_PREPCMD 3 7 0 NAND_SFCMD_DATXS NAND_SFCMD_ASYNC NAND_SFCMD_REGRD.
Definition on_restore : Z := SFLASH_PREPCMD 4 10 0 NAND_SFCMD_CMDXS NAND_SFCMD_ASYNC NAND_SFCMD_REGWR.
Definition on_datrd (n : Z) : Z := SFLASH_PREPCMD n 0 0 NAND_SFCMD_DATXS NAND_SFCMD_ASYNC NAND_SFCMD_DATRD.
Definition on_datwr (n : Z) : Z := SFLASH_PREPCMD n 0 0 NAND_SFCMD_CMDXS NAND_SFCMD_ASYNC NAND_SFCMD_DATWR.

(** Where the fields of such a structure are: sfcmd[i], sfexec, sfstat[i], addr0, data0,
    macro[i]; [at_] gives the address of a field. *)
Record on_layout := mkOnLayout { f_cmd : nat; f_exec : nat; f_stat : nat; f_addr : nat; f_data : nat; f_macro : nat }.
Definition erase_layout : on_layout := mkOnLayout 1 5 6 10 17 24.
Definition io_layout : on_layout := mkOnLayout 1 10 11 20 27 34.

Section OneNandLists.
Context (f : on_layout) (at_ : nat → Z).

(** Block on cmd ready and write CMD register *)
Definition on_cmd (i : nat) : dmov_s := mkDmov DST_CRCI_NAND_CMD (at_ (f_cmd f + i)) NAND_SFLASHC_CMD 4.
(** Kick the execute command; block on data ready, and read the status register *)
Definition on_kick (i : nat) : list dmov_s :=
  [ mkDmov 0 (at_ (f_exec f)) NAND_SFLASHC_EXEC_CMD 4;
    mkDmov SRC_CRCI_NAND_DATA NAND_SFLASHC_STATUS (at_ (f_stat f + i)) 4 ].
Definition on_macro (i : nat) : dmov_s := mkDmov 0 (at_ (f_macro f + i)) NAND_MACRO1_REG 4.

(** Write the address registers in the onenand device *)
Definition on_write_addrs (i : nat) : list dmov_s :=
  [ on_cmd i;
    mkDmov 0 (at_ (f_addr f)) NAND_ADDR0 8;
    mkDmov 0 (at_ (f_addr f + 2)) NAND_ADDR2 16;
    mkDmov 0 (at_ (f_addr f + 6)) NAND_ADDR6 4;
    mkDmov 0 (at_ (f_data f)) NAND_GENP_REG0 16;
    mkDmov 0 (at_ (f_data f + 4)) NAND_DEV_CMD4 12 ] ++ on_kick i.
(** Wait for the interrupt; read the status registers *)
Definition on_wait_status (i : nat) : list dmov_s :=
  [on_cmd i] ++ on_kick i ++ [on_cmd (i + 1)] ++ on_kick (i + 1) ++
  [ mkDmov 0 NAND_GENP_REG3 (at_ (f_data f + 3)) 4;
    mkDmov 0 NAND_DEV_CMD4 (at_ (f_data f + 4)) 4 ].
(** Restore the registers *)
Definition on_restore_regs (i : nat) : list dmov_s :=
  [ on_cmd i;
    mkDmov 0 (at_ (f_exec f)) NAND_SFLASHC_EXEC_CMD 4;
    mkDmov (Z.lor SRC_CRCI_NAND_DATA (Z.lor CMD_OCU CMD_LC)) NAND_SFLASHC_STATUS (at_ (f_stat f + i)) 4 ].
Definition on_setup : dmov_s := mkDmov CMD_OCB (at_ 0) NAND_SFLASHC_BURST_CFG 4.

Definition onenand_erase_list : list dmov_s :=
  [on_setup] ++ on_write_addrs 0 ++ on_wait_status 1 ++ on_restore_regs 3.

(** Read the data ram area from the onenand buffer ram *)
Definition on_read_chunk (i m : nat) (addr n : Z) : list dmov_s :=
  [on_cmd (3 + i); on_macro m] ++ on_kick (3 + i) ++ [mkDmov 0 NAND_FLASH_BUFFER addr n].

Definition onenand_read_list (addr raw_mode : Z) : list dmov_s :=
  [on_setup] ++ on_write_addrs 0 ++ on_wait_status 1 ++
  (if negb (addr =? 0) then flat_map (λ i, on_read_chunk i i (u32 (addr + 512 * Z.of_nat i)) 512) (seq 0 4) else []) ++
  (if raw_mode =? 1 then on_read_chunk 4 4 (if negb (addr =? 0) then u32 (addr + 2048) else addr) 64 else []) ++
  on_restore_regs 8.

(** Write the data ram area in the onenand buffer ram *)
Definition on_write_chunk (i : nat) (addr : Z) : list dmov_s :=
  [on_cmd i; mkDmov 0 addr NAND_FLASH_BUFFER 512; on_macro i] ++ on_kick i.

Definition onenand_write_list (addr spareaddr oob raw_mode : Z) : list dmov_s :=
  [on_setup] ++
  (if negb (addr =? 0)
   then flat_map (λ i, on_write_chunk i (if raw_mode =? 0 then u32 (addr + 512 * Z.of_nat i) else addr)) (seq 0 4) else []) ++
  [on_cmd 4] ++
  (if negb (spareaddr =? 0) then [mkDmov 0 oob NAND_FLASH_BUFFER 64] else []) ++
  (if negb (raw_mode =? 0) then [mkDmov 0 addr NAND_FLASH_BUFFER 64] else []) ++
  [on_macro 4] ++ on_kick 4 ++ on_write_addrs 5 ++ on_wait_status 6 ++ on_restore_regs 8.
End OneNandLists.

Definition bad110 (d : nat) (ks : list nat) : M bool :=
  foldr (λ k acc, st ← get_word d k; if flag st 0x110 then mret true else acc) (mret false) ks.

(** controller_status, the upper half of data4 *)
Definition controller_status (d k : nat) : M Z := d4 ← get_word d k; mret (Z.land (Z.shiftr d4 16) 0xFFFF).

(** The part of _flash_onenand_read_page behind the test for a bad block. *)
Definition onenand_load_page (page addr raw_mode : Z) : M Z :=
  v ← vars;
  let f := io_layout in
  let erasesize := u32 (flash_pagesize v * num_pages_per_blk v) in
  let pos := u32 (page * flash_pagesize v) in
  blk ← udiv pos erasesize;
  pg ← udiv (Z.land pos (erasesize - 1)) (flash_pagesize v);
  let startaddr1 := Z.lor DEVICE_FLASHCORE_0 blk in
  let startaddr8 := u32 (Z.shiftl pg 2) in
  let sysconfig1 := if raw_mode =? 1 then ONENAND_SYSCFG1_ECCDIS else ONENAND_SYSCFG1_ECCENA in
  put_data 0
    ([SFLASH_BCFG; on_regwr; on_inthi; on_regrd; on_datrd 256; on_datrd 256; on_datrd 256; on_datrd 256; on_datrd 32; on_restore; 1]
     ++ replicate 9 CLEAN_DATA_32 ++ on_addrs
     ++ on_data sysconfig1 startaddr8 startaddr1 (if negb (addr =? 0) then ONENAND_CMDLOAD else ONENAND_CMDLOADSPARE)
     ++ [0x0200; 0x0300; 0x0400; 0x0500; 0x8010]);;
  exec_list (onenand_read_list f data_at addr raw_mode);;
  cs ← controller_status 4 (f_data f + 4);
  b ← bad110 4 ((λ i, f_stat f + i)%nat <$> [0; 1; 2]%nat ++ (if negb (addr =? 0) then [3; 4; 5; 6]%nat else []));
  mret (if negb (cs =? 0) || b then -1 else 0).

Definition flash_onenand_block_isbad (page : Z) : M Z :=
  v ← vars;
  enter_local (replicate 2112 uninit);;
  r ← onenand_load_page (block_start v page) (base Local) 1;
  if negb (r =? 0) then mret 1 else
  m ← mem;
  o ← of_res (foldr (λ i acc, b ← byte_at (m_local m) (2048 + i); l ← acc; Ok (b :: l)) (Ok []) [0; 1; 16; 17; 32; 33; 48; 49]);
  mret (if existsb (λ b, negb (b =? 0xFF)) o then 1 else 0).

Definition flash_onenand_erase_block (page : Z) : M Z :=
  v ← vars;
  let f := erase_layout in
  let erasesize := u32 (flash_pagesize v * num_pages_per_blk v) in
  let pos := u32 (page * flash_pagesize v) in
  blk ← udiv pos erasesize;
  if flag pos (erasesize - 1) then mret (-1) else
  isbad ← flash_onenand_block_isbad page;
  if negb (isbad =? 0) then mret (-1) else
  (* data is 4 bytes behind ptrlist *)
  put_words 1 0
    ([SFLASH_BCFG; on_regwr; on_inthi; on_regrd; on_restore; 1] ++ replicate 4 CLEAN_DATA_32 ++ on_addrs
     ++ on_data ONENAND_SYSCFG1_ECCENA 0 (Z.lor DEVICE_FLASHCORE_0 blk) ONENAND_CMDERAS);;
  exec_list (onenand_erase_list f (λ k, base Ptrs + 4 * Z.of_nat (1 + k)));;
  cs ← controller_status 1 (f_data f + 4);
  b ← bad110 1 ((λ i, f_stat f + i)%nat <$> [0; 1; 2; 3]%nat);
  mret (if negb (cs =? 0) || b then -1 else 0).

Definition _flash_onenand_read_page (page addr spareaddr raw_mode : Z) : M Z :=
  if negb (raw_mode =? 1) then
    isbad ← flash_onenand_block_isbad page;
    if negb (isbad =? 0) then mret (-2) else onenand_load_page page addr raw_mode
  else onenand_load_page page addr raw_mode.

Definition oobfree : list (nat * nat) := [(2, 3); (14, 2); (18, 3); (30, 2); (34, 3); (46, 2); (50, 3); (62, 2)]%nat.

(** The positions of flash_oob that receive spareaddr[0], spareaddr[1], ... *)
Definition oob_positions : list nat := flat_map (λ '(o, n), seq o n) oobfree.

Fixpoint fill_oob (ps : list nat) (spareaddr : Z) : M unit :=
  match ps with
  | [] => mret tt
  | p :: ps =>
      b ← load_byte spareaddr;
      m ← mem;
      set_mem (set_m_local (<[p := b]> (m_local m)) m);;
      fill_oob ps (u32 (spareaddr + 1))
  end.

Definition _flash_onenand_write_page (page addr spareaddr raw_mode : Z) : M Z :=
  v ← vars;
  let f := io_layout in
  let erasesize := u32 (flash_pagesize v * num_pages_per_blk v) in
  let pos := u32 (page * flash_pagesize v) in
  blk ← udiv pos erasesize;
  pg ← udiv (Z.land pos (erasesize - 1)) (flash_pagesize v);
  let sysconfig1 := if raw_mode =? 1 then ONENAND_SYSCFG1_ECCDIS else ONENAND_SYSCFG1_ECCENA in
  enter_local (replicate 64 0xFF);;
  put_data 0
    ([SFLASH_BCFG; on_datwr 256; on_datwr 256; on_datwr 256; on_datwr 256; on_datwr 32; on_regwr; on_inthi; on_regrd; on_restore; 1]
     ++ replicate 9 CLEAN_DATA_32 ++ on_addrs
     ++ on_data sysconfig1 (u32 (Z.shiftl pg 2)) blk (if negb (addr =? 0) then ONENAND_CMDPROG else ONENAND_CMDPROGSPARE)
     ++ [0x0200; 0x0300; 0x0400; 0x0500; 0x8010]);;
  (if negb (spareaddr =? 0) then fill_oob oob_positions spareaddr else mret tt);;
  exec_list (onenand_write_list f data_at addr spareaddr (base Local) raw_mode);;
  cs ← controller_status 4 (f_data f + 4);
  b ← bad110 4 ((λ i, f_stat f + i)%nat <$> [5; 6; 7; 8]%nat ++ (if negb (addr =? 0) then [0; 1; 2; 3]%nat else []));
  mret (if negb (cs =? 0) || b then -1 else 0).

Definition flash_onenand_mark_badblock (page : Z) : M Z :=
  clear_empty_buf;;
  v ← vars;
  _flash_onenand_write_page (block_start v page) (base Empty) 0 1.

(** ** Both kinds of flash *)

Definition is_nand (t : Z) : bool := (t =? FLASH_8BIT_NAND_DEVICE) || (t =? FLASH_16BIT_NAND_DEVICE).
(** [switch (flash_info.type)] *)
Definition by_type (nand onenand_ : M Z) : M Z :=
  v ← vars;
  if is_nand (type (info v)) then nand
  else if type (info v) =? FLASH_ONENAND_DEVICE then onenand_ else mret (-1).

Definition flash_mark_badblock (page : Z) : M Z := by_type (flash_nand_mark_badblock page) (flash_onenand_mark_badblock page).

Definition flash_ctrl_hwinfo : M Z :=
  put_data 0 [0xeeeeeeee];;
  exec_list [ mkDmov (Z.lor CMD_LC (Z.lor CMD_OCB CMD_OCU)) NAND_HW_INFO (data_at 0) 4 ];;
  get_data 0.

(** The first entry behind the one for ONFI that fits. *)
Definition matches (i : Z) (f : flash_identification) : bool := Z.land i (mask f) =? Z.land (flash_id f) (mask f).
Definition find_flash (i : Z) : option flash_identification := List.find (matches i) (tail supported_flash).

Definition set_flash (f : flash_identification) : M unit :=
  v ← vars;
  let i := info v in
  let t := if negb (onenand f =? 0) then FLASH_ONENAND_DEVICE
           else if negb (widebus f =? 0) then FLASH_16BIT_NAND_DEVICE else FLASH_8BIT_NAND_DEVICE in
  let nblocks := if negb (blksize f =? 0) && negb (pagesize f =? 0) then density f / blksize f else 0 in
  set_vars (mkVars (config v) (mkFlashInfo (id i) t (vendor i) (device i) (pagesize f) (blksize f) (oobsize f) nblocks)
    (bbtbl v) (pagesize f) (interleaved_mode v) (num_pages_per_blk v) (num_pages_per_blk_mask v) (flash_ptable v));;
  n_assert (negb (nblocks =? 0));;
  ppb ← udiv (blksize f) (pagesize f);
  v ← vars;
  set_vars (mkVars (config v) (info v) (bbtbl v) (flash_pagesize v) (interleaved_mode v) ppb (u32 (ppb - 1)) (flash_ptable v));;
  hwinfo ← flash_ctrl_hwinfo;
  v ← vars;
  let c := config v in
  if (hwinfo =? 0x307) && (id (info v) =? 0x2600482c) then
    set_config (mkConfig (CFG0 c) (CFG1 c) (CFG0_M c) (CFG1_M c) (CFG0_A c) (CFG1_A c) (NAND_CFG0_RAW c) (NAND_CFG1_RAW c)
                  (ECC_BCH_CFG c) 1 (nand_cfg1 c))
  else mret tt.

Definition flash_read_id : M unit :=
  flash_nand_read_id;;
  v ← vars;
  match find_flash (id (info v)) with
  | Some f => set_flash f
  | None =>
      flash_onenand_read_id;;
      v ← vars;
      match find_flash (id (info v)) with
      | Some f => set_flash f
      | None => n_panic
      end
  end.

Definition flash_erase_block (page : Z) : M Z := by_type (flash_nand_erase_block page) (flash_onenand_erase_block page).

Definition _flash_read_page (page addr spareaddr : Z) : M Z :=
  v ← vars;
  by_type
    (if negb (interleaved_mode v =? 0) then flash_nand_read_page_interleave page addr spareaddr
     else _flash_nand_read_page page addr spareaddr)
    (_flash_onenand_read_page page addr spareaddr 0).

Definition _flash_block_isbad (page : Z) : M Z := by_type (flash_nand_block_isbad page) (flash_onenand_block_isbad page).

Definition _flash_write_page (page addr spareaddr : Z) : M Z :=
  v ← vars;
  by_type
    (if negb (interleaved_mode v =? 0) then flash_nand_write_page_interleave page addr spareaddr false
     else _flash_nand_write_page page addr spareaddr false)
    (_flash_onenand_write_page page addr spareaddr 0).

(** Behind memalign and malloc, which find room. *)
Definition flash_init : M unit :=
  v ← vars;
  n_assert (flash_ptable v =? 0);;
  flash_read_id;;
  v ← vars;
  (if is_nand (type (info v)) then r ← flash_nand_read_config; n_assert (r =? 0) else mret tt);;
  v ← vars;
  set_bbtbl (replicate (Z.to_nat (num_blocks (info v))) BB_UNKNOWN).

Definition flash_get_ptable : M Z := v ← vars; mret (flash_ptable v).
Definition flash_set_ptable (new_ptable : Z) : M unit :=
  v ← vars;
  n_assert ((flash_ptable v =? 0) && negb (new_ptable =? 0));;
  set_vars (mkVars (config v) (info v) (bbtbl v) (flash_pagesize v) (interleaved_mode v) (num_pages_per_blk v)
              (num_pages_per_blk_mask v) new_ptable).
Definition flash_get_info : M flash_info := v ← vars; mret (info v).
Definition flash_page_size : M Z := v ← vars; mret (flash_pagesize v).
Definition flash_ecc_bch_enabled : M Z := v ← vars; mret (enable_bch_ecc (config v)).

Definition config_interleaved_gpios : M unit := λ s, (NRet tt, mkNand (interleaved_gpios (n_hw s)) (n_mem s) (n_vars s)).
Definition enable_interleave_mode (status : Z) : M unit :=
  v ← vars;
  let pgsz := if negb (status =? 0) then u32 (flash_pagesize v * 2) else flash_pagesize v in
  set_vars (mkVars (config v) (info v) (bbtbl v) pgsz status (num_pages_per_blk v) (num_pages_per_blk_mask v) (flash_ptable v));;
  if negb (status =? 0) then config_interleaved_gpios else mret tt.

(** ** Partitions *)

Fixpoint erase_blocks (count : nat) (block : Z) : M unit :=
  match count with
  | O => mret tt
  | S count =>
      v ← vars;
      flash_erase_block (u32 (block * num_pages_per_blk v));;
      erase_blocks count (u32 (block + 1))
  end.

Definition flash_erase (ptn : ptentry) : M Z :=
  set_nand_configuration (ptn_type ptn);;
  erase_blocks (Z.to_nat (length_ ptn)) (start ptn);;
  mret 0.

(** The page, moved behind the bad blocks of the first [count] good ones; the count that
    is left. *)
Fixpoint skip_bad (fuel : nat) (ptn : ptentry) (start_block count page : Z) : M (Z * Z) :=
  if (count =? 0) || negb (start_block <? u32 (start ptn + length_ ptn)) then mret (count, page) else
  match fuel with
  | O => n_spin
  | S fuel =>
      v ← vars;
      isbad ← _flash_block_isbad (u32 (start_block * num_pages_per_blk v));
      if negb (isbad =? 0) then skip_bad fuel ptn (u32 (start_block + 1)) count (u32 (page + num_pages_per_blk v))
      else skip_bad fuel ptn (u32 (start_block + 1)) (count - 1) page
  end.

(** memcpy(image, spare, extra_per_page) *)
Definition copy_spare (image extra : Z) : M unit :=
  m ← mem;
  bs ← of_res (slice (m_spare m) 0 (Z.to_nat extra));
  store_bytes image bs.

Fixpoint read_pages (fuel : nat) (lastpage extra page image count : Z) : M Z :=
  if negb (page <? lastpage) then mret (s32 0xffffffff) else
  if count =? 0 then mret 0 else
  match fuel with
  | O => n_spin
  | S fuel =>
      v ← vars;
      result ← _flash_read_page page image (base Spare);
      if result =? -1 then read_pages fuel lastpage extra (u32 (page + 1)) image count
      else if result =? -2 then read_pages fuel lastpage extra (u32 (page + num_pages_per_blk v)) image count
      else
        let image := u32 (image + flash_pagesize v) in
        copy_spare image extra;;
        read_pages fuel lastpage extra (u32 (page + 1)) (u32 (image + extra)) (count - 1)
  end.

Definition flash_read_ext (ptn : ptentry) (extra_per_page offset data bytes : Z) : M Z :=
  v ← vars;
  let ppb := num_pages_per_blk v in
  off ← udiv offset (flash_pagesize v);
  count ← udiv (u32 (bytes + flash_pagesize v - 1 + extra_per_page)) (u32 (flash_pagesize v + extra_per_page));
  let page := u32 (u32 (start ptn * ppb) + off) in
  let lastpage := u32 (u32 (start ptn + length_ ptn) * ppb) in
  current_block ← udiv (u32 (page - Z.land page (num_pages_per_blk_mask v))) ppb;
  set_nand_configuration TYPE_APPS_PARTITION;;
  if flag offset (u32 (flash_pagesize v - 1)) then mret (-1) else
  '(left_, page) ←
    (if start ptn <? current_block
     then skip_bad (Z.to_nat (length_ ptn)) ptn (start ptn) (s32 (current_block - start ptn)) page
     else mret (0, page));
  if negb (left_ =? 0) then mret (s32 0xffffffff)
  else read_pages (Z.to_nat (lastpage - page)) lastpage extra_per_page page data count.

Definition flash_read (ptn : ptentry) (offset data bytes : Z) : M Z := flash_read_ext ptn 0 offset data bytes.

Definition virt2phy (a : Z) : M Z := of_res (arm_mmu_virt2phy tt_ a).

(** One page of the image, with its own spare bytes or blank ones. *)
Definition write_image_page (page image extra : Z) : M Z :=
  v ← vars;
  pa ← virt2phy image;
  sp ← (if negb (extra =? 0) then virt2phy (u32 (image + flash_pagesize v)) else mret (base Spare));
  _flash_write_page page pa sp.

(** What the loop of flash_write leaves in [page], or the result of the function. *)
Fixpoint write_pages (fuel : nat) (ptn : ptentry) (extra lastpage page image bytes : Z) : M (Z + Z) :=
  if bytes =? 0 then mret (inr page) else
  v ← vars;
  let ppb := num_pages_per_blk v in
  let mask_ := num_pages_per_blk_mask v in
  let wsize := u32 (flash_pagesize v + extra) in
  if bytes <? wsize then mret (inl (-1)) else
  if negb (page <? lastpage) then mret (inl (-1)) else
  match fuel with
  | O => n_spin
  | S fuel =>
      bad ← (if Z.land page mask_ =? 0 then flash_erase_block page else mret 0);
      if negb (bad =? 0) then write_pages fuel ptn extra lastpage (u32 (page + ppb)) image bytes else
      r ← write_image_page page image extra;
      if negb (r =? 0) then
        let back := u32 (Z.land page mask_ * wsize) in
        let page := Z.land page (u32 (Z.lnot mask_)) in
        flash_erase_block page;;
        (if negb (ptn_type ptn =? TYPE_MODEM_PARTITION) then flash_mark_badblock page else mret 0);;
        write_pages fuel ptn extra lastpage (u32 (page + ppb)) (u32 (image - back)) (u32 (bytes + back))
      else write_pages fuel ptn extra lastpage (u32 (page + 1)) (u32 (image + wsize)) (u32 (bytes - wsize))
  end.

(** erase any remaining pages in the partition *)
Fixpoint erase_rest (fuel : nat) (lastpage page : Z) : M unit :=
  if negb (page <? lastpage) then mret tt else
  match fuel with
  | O => n_spin
  | S fuel => v ← vars; flash_erase_block page;; erase_rest fuel lastpage (u32 (page + num_pages_per_blk v))
  end.

(** [spare[0] = ... = spare[15] = 0xffffffff] *)
Definition blank_spare : M unit :=
  m ← mem; b ← of_res (store (m_spare m) 0 (replicate 64 0xFF)); set_mem (set_m_spare b m).

Definition flash_write (ptn : ptentry) (extra_per_page data bytes : Z) : M Z :=
  v ← vars;
  let ppb := num_pages_per_blk v in
  let page := u32 (start ptn * ppb) in
  let lastpage := u32 (u32 (start ptn + length_ ptn) * ppb) in
  if (type (info v) =? FLASH_ONENAND_DEVICE) && (ptn_type ptn =? TYPE_MODEM_PARTITION) then mret (-1) else
  set_nand_configuration (ptn_type ptn);;
  blank_spare;;
  r ← write_pages (Z.to_nat (lastpage - page)) ptn extra_per_page lastpage page data bytes;
  match r with
  | inl e => mret e
  | inr page =>
      let page := Z.land (u32 (page + num_pages_per_blk_mask v)) (u32 (Z.lnot (num_pages_per_blk_mask v))) in
      erase_rest (Z.to_nat (lastpage - page)) lastpage page;;
      mret 0
  end.
End Driver.
