(* ===== verification/NandSafe.v ===== *)
(** The flash driver with any hardware: every command list that it hands to the data mover
    is safe.

    [watched] wraps any hardware and looks at the memory whenever the driver writes the
    command pointer of the data mover: the pointer leads to the command list, the list ends
    within its memory, and each transfer goes between the flash controller and a range
    inside one object of the driver or of its caller. *)
From Stdlib Require Import ZArith.
From stdpp Require Import base numbers list sets.
From S2P Require Import Prelude Bytes ArmMmu NandDriver.

(** * Reasoning about computations *)

Section Wp.
Context {H : Type}.
Implicit Types (s : nand_state H) (E : nand_state H → Prop).

(** The run of [m] from [s] does nothing undefined and ends with [Q], or stops in [E]. *)
Definition nwp {A} (m : nd H A) (Q : A → nand_state H → Prop) E s : Prop :=
  match m s with
  | (NRet a, s) => Q a s
  | (NUndef, _) => False
  | (_, s) => E s
  end.

Lemma nwp_ret {A} (a : A) (Q : A → nand_state H → Prop) E s : Q a s → nwp (mret a) Q E s.
Proof. done. Qed.

Lemma nwp_bind {A B} (m : nd H A) (f : A → nd H B) Q E s :
  nwp m (λ a, nwp (f a) Q E) E s → nwp (m ≫= f) Q E s.
Proof. unfold nwp, mbind, nd_bind. by destruct (m s) as [[a| | |] s']. Qed.

Lemma nwp_mono {A} (m : nd H A) (Q Q' : A → nand_state H → Prop) E E' s :
  nwp m Q E s → (∀ a s', Q a s' → Q' a s') → (∀ s', E s' → E' s') → nwp m Q' E' s.
Proof. unfold nwp. destruct (m s) as [[a| | |] s']; auto. Qed.
End Wp.

(** * Memory *)

(** The bytes reserved for an object; [N] is the size of the caller's buffer. *)
Definition room (N : Z) (a : area) : Z :=
  match a with Cmds => 1024 | Ptrs => 1024 | Tmp => 8 | Spare => 128 | Empty => 528 | Local => 2112 | Image => N end.

(** Registers and buffer of the flash controller. *)
Definition NAND_WINDOW : Z := 0x100 + 532.

(** Memory is laid out well: the objects lie apart from each other and from the flash
    controller, and the lists are at addresses that the data mover can be given. *)
Record layout_ok (base : area → Z) (N : Z) : Prop := {
  base_pos a : 0 < base a;
  base_end a : base a + room N a < 2 ^ 32;
  base_apart a b : a ≠ b → base a + room N a ≤ base b ∨ base b + room N b ≤ base a;
  base_ram a : base a + room N a ≤ MSM_NAND_BASE ∨ MSM_NAND_BASE + NAND_WINDOW ≤ base a;
  base_aligned a : a = Cmds ∨ a = Ptrs → base a mod 32 = 0;
}.

(** The objects have their sizes. *)
Definition shape (N : Z) (loc : nat) (m : memory) : Prop :=
  length (m_cmds m) = CMD_SLOTS ∧ length (m_ptrs m) = PTR_WORDS ∧ length (m_tmp m) = 2%nat ∧ length (m_spare m) = 128%nat ∧
  length (m_empty m) = 528%nat ∧ length (m_local m) = loc ∧ Z.of_nat (length (m_image m)) = N ∧ (loc ≤ 2112)%nat.

Lemma shape_size N loc m a : shape N loc m → a ≠ Local → size_of m a = room N a.
Proof.
  intros (Hc & Hp & Ht & Hs & He & Hl & Hi & _) Ha.
  destruct a; cbn [size_of room]; rewrite ?Hc, ?Hp, ?Ht, ?Hs, ?He; unfold CMD_SLOTS, PTR_WORDS; done.
Qed.

Lemma shape_size_le N loc m a : shape N loc m → size_of m a ≤ room N a.
Proof.
  intros Hm. destruct (decide (a = Local)) as [->|Ha]; [|by rewrite (shape_size N loc)].
  destruct Hm as (_ & _ & _ & _ & _ & Hl & _ & Hle). cbn [size_of room]. lia.
Qed.

Lemma find_area_at base N loc m a off :
  layout_ok base N → shape N loc m → 0 ≤ off < size_of m a → find_area base m (base a + off) = Some (a, off).
Proof.
  intros HL Hm Ho. unfold find_area.
  assert (∀ b, ((base b <=? base a + off) && (base a + off <? base b + size_of m b)) = bool_decide (b = a)) as Hb.
  { intros b. destruct (decide (b = a)) as [->|Hne].
    - rewrite bool_decide_eq_true_2 by done. apply andb_true_intro. split; [apply Z.leb_le|apply Z.ltb_lt]; lia.
    - rewrite bool_decide_eq_false_2 by done. pose proof (shape_size_le N loc m a Hm). pose proof (shape_size_le N loc m b Hm).
      apply andb_false_iff. destruct (base_apart _ _ HL b a Hne); [right; apply Z.ltb_ge; lia|left; apply Z.leb_gt; lia]. }
  assert (head (filter (λ ar, ((base ar <=? base a + off) && (base a + off <? base ar + size_of m ar)) = true)
    [Cmds; Ptrs; Tmp; Spare; Empty; Local; Image]) = Some a) as ->; [|cbn; do 2 f_equal; lia].
  transitivity (head (filter (λ ar, bool_decide (ar = a) = true) [Cmds; Ptrs; Tmp; Spare; Empty; Local; Image])).
  - f_equal. apply list_filter_iff. intros b. by rewrite Hb.
  - by destruct a.
Qed.

(** * Safe lists *)

Definition in_controller (a n : Z) : bool := (MSM_NAND_BASE <=? a) && (a + n <=? MSM_NAND_BASE + NAND_WINDOW).

(** The range is inside one object, and not in the command list. *)
Definition in_object (base : area → Z) (m : memory) (a n : Z) : bool :=
  match find_area base m a with
  | Some (ar, off) => negb (bool_decide (ar = Cmds)) && (off + n <=? size_of m ar)
  | None => false
  end.

Definition transfer_safe (base : area → Z) (m : memory) (d : dmov_s) : bool :=
  (0 <? len d) && ((in_controller (src d) (len d) && in_object base m (dst d) (len d)) ||
                   (in_object base m (src d) (len d) && in_controller (dst d) (len d))).

(** The data mover walks the list up to CMD_LC. *)
Fixpoint list_safe (base : area → Z) (m : memory) (l : list dmov_s) : bool :=
  match l with
  | [] => false
  | d :: l => transfer_safe base m d && (flag (cmd d) CMD_LC || list_safe base m l)
  end.

(** What the data mover finds when its command pointer is set to [v]. *)
Definition start_safe (base : area → Z) (m : memory) (v : Z) : bool :=
  (v =? Z.lor DMOV_CMD_PTR_LIST (Z.shiftr (base Ptrs) 3)) &&
  bool_decide (head (m_ptrs m) = Some (Z.lor (Z.shiftr (base Cmds) 3) CMD_PTR_LP)) && list_safe base m (m_cmds m).

(** [safe] stays true as long as every list was safe; [lists] counts them. *)
Record watched (H : Type) := mkWatched { w_hw : H; w_safe : bool; w_lists : nat }.
Arguments mkWatched {_}. Arguments w_hw {_}. Arguments w_safe {_}. Arguments w_lists {_}.

#[global] Instance watch {H} `{Dmov H} (base : area → Z) : Dmov (watched H) := {
  dm_read a h m := let '(v, h', m') := dm_read a (w_hw h) m in (v, mkWatched h' (w_safe h) (w_lists h), m');
  dm_write a v h m :=
    let '(h', m') := dm_write a v (w_hw h) m in
    if a =? DMOV_CMD_PTR DMOV_NAND_CHAN then (mkWatched h' (w_safe h && start_safe base m v) (S (w_lists h)), m')
    else (mkWatched h' (w_safe h) (w_lists h), m');
  interleaved_gpios h := mkWatched (interleaved_gpios (w_hw h)) (w_safe h) (w_lists h);
}.

(** Hardware does not move objects, and the configuration of the data mover does not make
    it transfer anything. *)
Class DmovSizes (H : Type) `{Dmov H} : Prop := {
  read_sizes a h m : ∀ N loc, shape N loc m → shape N loc (dm_read a h m).2;
  write_sizes a v h m : ∀ N loc, shape N loc m → shape N loc (dm_write a v h m).2;
  config_quiet v h m : (dm_write (DMOV_CONFIG DMOV_NAND_CHAN) v h m).2 = m;
}.

(** * What the driver knows of the flash *)

Record geometry (v : nand_vars) : Prop := {
  g_pagesize : flash_pagesize v = 2048 ∨ flash_pagesize v = 4096;
  g_ppb : num_pages_per_blk v = 64 ∨ num_pages_per_blk v = 128;
  g_mask : num_pages_per_blk_mask v = num_pages_per_blk v - 1;
  g_blocks : 0 < num_blocks (info v) ≤ 2 ^ 16;
  g_onenand : type (info v) = FLASH_ONENAND_DEVICE → flash_pagesize v = 2048;
  g_plain : interleaved_mode v = 0;
}.

(** Arithmetic on the addresses of registers. *)
Ltac regs := cbv [NAND_FLASH_CMD NAND_ADDR0 NAND_ADDR1 NAND_FLASH_CHIP_SELECT NAND_EXEC_CMD NAND_FLASH_STATUS NAND_DEV0_CFG0
  NAND_DEV0_CFG1 NAND_SFLASHC_CMD NAND_SFLASHC_EXEC_CMD NAND_READ_ID NAND_READ_STATUS NAND_MACRO1_REG NAND_GENP_REG0
  NAND_GENP_REG3 NAND_SFLASHC_STATUS NAND_ADDR2 NAND_DEV_CMD4 NAND_SFLASHC_BURST_CFG NAND_ADDR6 NAND_EBI2_ECC_BUF_CFG
  NAND_FLASH_BUFFER NAND_HW_INFO NAND_REG MSM_NAND_BASE NAND_WINDOW] in *; lia.

Section Safe.
Context {H : Type} `{DmovSizes H} (base : area → Z) (tt_ : list Z) (polls : nat) (uninit : Z) (N : Z) (HL : layout_ok base N).
#[local] Instance watch_here : Dmov (watched H) := watch base.
#[local] Notation M := (nd (watched H)).

(** The static variables are [v], the local arrays have [loc] bytes, all was safe so far. *)
Definition good (v : nand_vars) (loc : nat) (s : nand_state (watched H)) : Prop :=
  n_vars s = v ∧ shape N loc (n_mem s) ∧ w_safe (n_hw s) = true.

Definition halted (s : nand_state (watched H)) : Prop := w_safe (n_hw s) = true.

(** [m] from variables [v] is safe and ends with [Φ] of its result, the variables and the
    size of the local arrays. *)
Definition safe {A} (v : nand_vars) (loc : nat) (m : M A) (Φ : A → nand_vars → nat → Prop) : Prop :=
  ∀ s, good v loc s → nwp m (λ a s', ∃ v' loc', good v' loc' s' ∧ Φ a v' loc') halted s.

Lemma safe_ret {A} v loc (a : A) (Φ : A → nand_vars → nat → Prop) : Φ a v loc → safe v loc (mret a) Φ.
Proof. intros HΦ s Hs. apply nwp_ret. eauto. Qed.

Lemma safe_bind {A B} v loc (m : M A) (f : A → M B) (Φ : B → nand_vars → nat → Prop) :
  safe v loc m (λ a v' loc', safe v' loc' (f a) Φ) → safe v loc (m ≫= f) Φ.
Proof.
  intros Hm s Hs. apply nwp_bind. eapply nwp_mono; [exact (Hm s Hs)| |done].
  intros a s' (v' & loc' & Hs' & Hf). exact (Hf s' Hs').
Qed.

Lemma safe_mono {A} v loc (m : M A) (Φ Ψ : A → nand_vars → nat → Prop) :
  safe v loc m Φ → (∀ a v' loc', Φ a v' loc' → Ψ a v' loc') → safe v loc m Ψ.
Proof.
  intros Hm HΨ s Hs. eapply nwp_mono; [exact (Hm s Hs)| |done]. intros a s' (v' & loc' & Hs' & Ha). eauto 6.
Qed.

Lemma safe_vars v loc (Φ : nand_vars → nand_vars → nat → Prop) : Φ v v loc → safe v loc vars Φ.
Proof. intros HΦ s (Hv & Hm & Hw). exists v, loc. unfold good. cbn. by rewrite Hv. Qed.

Lemma safe_set_vars v loc v' (Φ : unit → nand_vars → nat → Prop) : Φ tt v' loc → safe v loc (set_vars v') Φ.
Proof. intros HΦ s (Hv & Hm & Hw). exists v', loc. done. Qed.

Lemma safe_spin {A} v loc (Φ : A → nand_vars → nat → Prop) : safe v loc n_spin Φ.
Proof. intros s (Hv & Hm & Hw). done. Qed.

Lemma safe_panic {A} v loc (Φ : A → nand_vars → nat → Prop) : safe v loc n_panic Φ.
Proof. intros s (Hv & Hm & Hw). done. Qed.

Lemma safe_assert v loc b (Φ : unit → nand_vars → nat → Prop) : (b = true → Φ tt v loc) → safe v loc (n_assert b) Φ.
Proof. destruct b; intros HΦ; [by apply safe_ret, HΦ|apply safe_panic]. Qed.

Lemma safe_readl v loc a (Φ : Z → nand_vars → nat → Prop) : (∀ x, Φ x v loc) → safe v loc (readl a) Φ.
Proof.
  intros HΦ s (Hv & Hm & Hw). unfold nwp, readl. cbn [dm_read watch_here watch].
  pose proof (read_sizes a (w_hw (n_hw s)) (n_mem s) N loc Hm) as Hr.
  destruct (dm_read a (w_hw (n_hw s)) (n_mem s)) as [[x h] m]. cbn in Hr |- *. exists v, loc. done.
Qed.

Lemma safe_writel v loc x a (Φ : unit → nand_vars → nat → Prop) :
  a ≠ DMOV_CMD_PTR DMOV_NAND_CHAN → Φ tt v loc → safe v loc (writel x a) Φ.
Proof.
  intros Ha HΦ s (Hv & Hm & Hw). unfold nwp, writel. cbn [dm_write watch_here watch].
  pose proof (write_sizes a x (w_hw (n_hw s)) (n_mem s) N loc Hm) as Hr.
  destruct (dm_write a x (w_hw (n_hw s)) (n_mem s)) as [h m]. rewrite (proj2 (Z.eqb_neq _ _) Ha). cbn in Hr |- *.
  exists v, loc. done.
Qed.

Lemma safe_mem v loc (Φ : memory → nand_vars → nat → Prop) :
  (∀ m, shape N loc m → Φ m v loc) → safe v loc mem Φ.
Proof. intros HΦ s (Hv & Hm & Hw). exists v, loc. split; [done|]. by apply HΦ. Qed.

Lemma safe_set_mem v loc loc' m (Φ : unit → nand_vars → nat → Prop) :
  shape N loc' m → Φ tt v loc' → safe v loc (set_mem m) Φ.
Proof. intros Hm HΦ s (Hv & _ & Hw). exists v, loc'. done. Qed.
Lemma safe_of_res {A} v loc (r : res A) (Φ : A → nand_vars → nat → Prop) :
  (r = Fault → False) → (∀ a, r = Ok a → Φ a v loc) → safe v loc (of_res r) Φ.
Proof. intros Hf HΦ. destruct r; [by apply safe_ret, HΦ|apply safe_panic|by destruct Hf]. Qed.

Lemma safe_udiv v loc a b (Φ : Z → nand_vars → nat → Prop) : b ≠ 0 → Φ (a / b) v loc → safe v loc (udiv a b) Φ.
Proof. intros Hb HΦ. unfold udiv. rewrite (proj2 (Z.eqb_neq _ _) Hb). by apply safe_ret. Qed.

Lemma safe_if {A} (b : bool) v loc (m1 m2 : M A) (Φ : A → nand_vars → nat → Prop) :
  (b = true → safe v loc m1 Φ) → (b = false → safe v loc m2 Φ) → safe v loc (if b then m1 else m2) Φ.
Proof. destruct b; auto. Qed.

Lemma shape_set_ptrs loc m l : shape N loc m → length l = PTR_WORDS → shape N loc (set_m_ptrs l m).
Proof. intros (? & ? & ? & ? & ? & ? & ? & ?) Hl. unfold shape. cbn. auto 10. Qed.

Lemma length_splice {A} (l ws : list A) k : (k + length ws ≤ length l)%nat →
  length (take k l ++ ws ++ drop (k + length ws) l) = length l.
Proof. intros. rewrite !length_app, length_take, length_drop. lia. Qed.

Lemma safe_put_words v loc d k ws (Φ : unit → nand_vars → nat → Prop) :
  (d + k + length ws ≤ PTR_WORDS)%nat → Φ tt v loc → safe v loc (put_words d k ws) Φ.
Proof.
  intros Hk HΦ. apply safe_bind, safe_mem. intros m Hm. pose proof Hm as (_ & Hp & _). rewrite Hp.
  rewrite (proj2 (Nat.leb_le _ _)) by lia. eapply safe_set_mem; [|exact HΦ]. apply shape_set_ptrs; [done|].
  rewrite length_splice; lia.
Qed.

Lemma safe_get_word v loc d k (Φ : Z → nand_vars → nat → Prop) :
  (d + k < PTR_WORDS)%nat → (∀ w, Φ w v loc) → safe v loc (get_word d k) Φ.
Proof.
  intros Hk HΦ. apply safe_bind, safe_mem. intros m (_ & Hp & _). apply safe_of_res; [|auto].
  destruct (lookup_lt_is_Some_2 (m_ptrs m) (d + k)) as [w ->]; [lia|done].
Qed.

Lemma safe_enter_local v loc b (Φ : unit → nand_vars → nat → Prop) :
  (length b ≤ 2112)%nat → Φ tt v (length b) → safe v loc (enter_local b) Φ.
Proof.
  intros Hb HΦ. apply safe_bind, safe_mem. intros m (? & ? & ? & ? & ? & ? & ? & ?). eapply safe_set_mem; [|exact HΦ].
  unfold shape. cbn. auto 10.
Qed.

Lemma safe_local v loc i (Φ : Z → nand_vars → nat → Prop) :
  (i < loc)%nat → (∀ b, Φ b v loc) → safe v loc (local i) Φ.
Proof.
  intros Hi HΦ. apply safe_bind, safe_mem. intros m (_ & _ & _ & _ & _ & Hl & _). apply safe_of_res; [|auto].
  destruct (lookup_lt_is_Some_2 (m_local m) i) as [w ->]; [lia|done].
Qed.

(** ** Lists *)

Lemma list_safe_app m l l' : list_safe base m l = true → list_safe base m (l ++ l') = true.
Proof.
  induction l as [|d l IH]; [done|]. cbn. rewrite !andb_true_iff, !orb_true_iff. intros [Hd Hl]. split; [done|].
  destruct Hl; auto.
Qed.

(** Transfers without CMD_LC, and a last one with it. *)
Lemma list_safe_last m l d :
  Forall (λ d, transfer_safe base m d = true) l → transfer_safe base m d = true → flag (cmd d) CMD_LC = true →
  list_safe base m (l ++ [d]) = true.
Proof.
  intros Hl Hd Hc. induction Hl as [|d' l Hd' _ IH]; cbn; [by rewrite Hd, Hc|]. rewrite Hd', IH. by rewrite orb_true_r.
Qed.

Lemma in_object_at loc m a off n :
  shape N loc m → a ≠ Cmds → 0 ≤ off → 0 < n → off + n ≤ size_of m a → in_object base m (base a + off) n = true.
Proof.
  intros Hm Ha Ho Hn Hs. unfold in_object. rewrite (find_area_at base N loc) by (done || lia).
  rewrite bool_decide_eq_false_2 by done. by apply Z.leb_le.
Qed.

Lemma transfer_out loc m c a off r n :
  shape N loc m → a ≠ Cmds → 0 ≤ off → 0 < n → off + n ≤ size_of m a → MSM_NAND_BASE ≤ r → r + n ≤ MSM_NAND_BASE + NAND_WINDOW →
  transfer_safe base m (mkDmov c (base a + off) r n) = true.
Proof.
  intros Hm Ha Ho Hn Hs Hr Hw. unfold transfer_safe. cbn [src dst len]. rewrite (in_object_at loc) by done.
  unfold in_controller. rewrite (proj2 (Z.leb_le MSM_NAND_BASE r)), (proj2 (Z.leb_le (r + n) _)), (proj2 (Z.ltb_lt 0 n)) by done.
  apply orb_true_r.
Qed.

Lemma transfer_in loc m c a off r n :
  shape N loc m → a ≠ Cmds → 0 ≤ off → 0 < n → off + n ≤ size_of m a → MSM_NAND_BASE ≤ r → r + n ≤ MSM_NAND_BASE + NAND_WINDOW →
  transfer_safe base m (mkDmov c r (base a + off) n) = true.
Proof.
  intros Hm Ha Ho Hn Hs Hr Hw. unfold transfer_safe. cbn [src dst len]. rewrite (in_object_at loc) by done.
  unfold in_controller. by rewrite (proj2 (Z.leb_le MSM_NAND_BASE r)), (proj2 (Z.leb_le (r + n) _)), (proj2 (Z.ltb_lt 0 n)) by done.
Qed.

Lemma safe_wait_result fuel v loc (Φ : unit → nand_vars → nat → Prop) : Φ tt v loc → safe v loc (wait_result fuel) Φ.
Proof.
  intros HΦ. induction fuel as [|fuel IH]; [apply safe_spin|]. cbn [wait_result]. apply safe_bind, safe_readl. intros x.
  apply safe_if; intros _; [by apply safe_ret|done].
Qed.

Lemma safe_drain_results fuel n v loc (Φ : unit → nand_vars → nat → Prop) : Φ tt v loc → safe v loc (drain_results fuel n) Φ.
Proof.
  intros HΦ. revert n. induction fuel as [|fuel IH]; intros n; cbn [drain_results]; apply safe_if; intros _;
    try (by apply safe_ret); [apply safe_spin|].
  apply safe_bind, safe_readl. intros x. apply safe_bind. apply safe_if; intros _.
  - do 4 (apply safe_bind, safe_readl; intros ?). apply safe_ret. apply safe_bind, safe_readl. auto.
  - apply safe_ret. apply safe_bind, safe_readl. auto.
Qed.

(** Setting the command pointer of the data mover. *)
Lemma safe_start v loc x (Φ : unit → nand_vars → nat → Prop) s :
  good v loc s → start_safe base (n_mem s) x = true → Φ tt v loc →
  nwp (writel x (DMOV_CMD_PTR DMOV_NAND_CHAN)) (λ a s', ∃ v' loc', good v' loc' s' ∧ Φ a v' loc') halted s.
Proof.
  intros (Hv & Hm & Hw) Hs HΦ. unfold nwp, writel. cbn [dm_write watch_here watch].
  pose proof (write_sizes (DMOV_CMD_PTR DMOV_NAND_CHAN) x (w_hw (n_hw s)) (n_mem s) N loc Hm) as Hr.
  destruct (dm_write _ x (w_hw (n_hw s)) (n_mem s)) as [h m]. rewrite Z.eqb_refl. cbn in Hr |- *.
  exists v, loc. unfold good. cbn. by rewrite Hw, Hs.
Qed.

(** Configuring it leaves the memory alone. *)
Lemma config_state x (s : nand_state (watched H)) :
  ∃ h, writel x (DMOV_CONFIG DMOV_NAND_CHAN) s = (NRet tt, mkNand (mkWatched h (w_safe (n_hw s)) (w_lists (n_hw s))) (n_mem s) (n_vars s)).
Proof.
  unfold writel. cbn [dm_write watch_here watch]. pose proof (config_quiet x (w_hw (n_hw s)) (n_mem s)) as Hq.
  destruct (dm_write (DMOV_CONFIG DMOV_NAND_CHAN) x (w_hw (n_hw s)) (n_mem s)) as [h m]. cbn in Hq. subst m.
  change (DMOV_CONFIG DMOV_NAND_CHAN =? DMOV_CMD_PTR DMOV_NAND_CHAN) with false. by exists h.
Qed.

(** A list that is safe in every memory of this shape is executed safely. *)
Lemma safe_exec_list v loc l (Φ : unit → nand_vars → nat → Prop) :
  (length l ≤ CMD_SLOTS)%nat → (∀ m, shape N loc m → list_safe base m l = true) → Φ tt v loc →
  safe v loc (exec_list base polls l) Φ.
Proof.
  intros Hl Hs HΦ s (Hv & Hm & Hw). pose proof Hm as (Hc & Hp & Ht & Hsp & He & Hlo & Hi & Hle).
  unfold nwp, exec_list, put_cmds. unfold mbind, nd_bind, mem, set_mem at 1. rewrite Hc.
  rewrite (proj2 (Nat.leb_le (length l) CMD_SLOTS)) by done. cbn [n_hw n_mem n_vars].
  unfold put_words, mbind, nd_bind, mem, set_mem. cbn [n_hw n_mem n_vars m_ptrs set_m_cmds]. rewrite Hp.
  change ((0 + 0 + length [_] <=? PTR_WORDS)%nat) with true. cbn [Nat.add length app]. rewrite take_0. cbn [app]. set (m' := set_m_ptrs _ _).
  assert (shape N loc m') as Hm'.
  { subst m'. apply shape_set_ptrs; [|cbn [length]; rewrite length_drop, Hp; done]. unfold shape.
    cbn [m_cmds m_ptrs m_tmp m_spare m_empty m_local m_image set_m_cmds]. rewrite length_app, length_drop. split_and!; (done || lia). }
  assert (start_safe base m' (Z.lor DMOV_CMD_PTR_LIST (DMOV_CMD_ADDR (base Ptrs))) = true) as Hst.
  { unfold start_safe. apply andb_true_intro. split; [apply andb_true_intro; split|].
    - apply Z.eqb_refl.
    - by apply bool_decide_eq_true_2.
    - apply list_safe_app. by apply Hs. }
  assert (good v loc (mkNand (n_hw s) m' (n_vars s))) as Hg by done. clearbody m'.
  refine (_ : nwp (dmov_exec_cmdptr polls (base Ptrs)) _ _ (mkNand (n_hw s) m' (n_vars s))).
  apply nwp_bind. destruct (config_state (Z.lor DMOV_CONFIG_FOREC_FLUSH_RSLT 0) (mkNand (n_hw s) m' (n_vars s))) as [h Hh].
  unfold nwp at 1. rewrite Hh. cbn [n_hw n_mem n_vars]. set (s1 := mkNand _ m' _). assert (good v loc s1) as Hg1 by done.
  apply nwp_bind. eapply nwp_mono; [apply (safe_start v loc _ (λ _ v' loc', v' = v ∧ loc' = loc) s1 Hg1 Hst); done| |done].
  intros _ s2 (v' & loc' & Hg2 & -> & ->). revert s2 Hg2. refine (_ : safe v loc _ _).
  apply safe_bind, safe_wait_result. apply safe_bind, safe_readl. intros x. by apply safe_drain_results.
Qed.

(** ** Functions that keep the variables *)

Definition keeping {A} (v : nand_vars) (P : A → Prop) (a : A) (v' : nand_vars) (_ : nat) : Prop := v' = v ∧ P a.

Lemma safe_put_data v loc k ws (Φ : unit → nand_vars → nat → Prop) :
  (4 + k + length ws ≤ PTR_WORDS)%nat → Φ tt v loc → safe v loc (put_data k ws) Φ.
Proof. apply safe_put_words. Qed.

Lemma safe_get_data v loc k (Φ : Z → nand_vars → nat → Prop) :
  (4 + k < PTR_WORDS)%nat → (∀ w, Φ w v loc) → safe v loc (get_data k) Φ.
Proof. apply safe_get_word. Qed.

(** A conditional that only writes operands. *)
Lemma safe_put_opt v loc (b : bool) k ws (Φ : unit → nand_vars → nat → Prop) :
  (4 + k + length ws ≤ PTR_WORDS)%nat → Φ tt v loc → safe v loc (if b then put_data k ws else mret tt) Φ.
Proof. intros Hk HΦ. destruct b; [by apply safe_put_data|by apply safe_ret]. Qed.

(** Operands and registers. *)
Lemma operand_out loc m c k r n :
  shape N loc m → 0 < n → 4 * Z.of_nat (4 + k) + n ≤ 1024 → MSM_NAND_BASE ≤ r → r + n ≤ MSM_NAND_BASE + NAND_WINDOW →
  transfer_safe base m (mkDmov c (data_at base k) r n) = true.
Proof. intros Hm Hn Hk Hr Hw. apply (transfer_out loc); (done || lia || (rewrite (shape_size N loc) by done; cbn [room]; lia)). Qed.

Lemma operand_in loc m c k r n :
  shape N loc m → 0 < n → 4 * Z.of_nat (4 + k) + n ≤ 1024 → MSM_NAND_BASE ≤ r → r + n ≤ MSM_NAND_BASE + NAND_WINDOW →
  transfer_safe base m (mkDmov c r (data_at base k) n) = true.
Proof. intros Hm Hn Hk Hr Hw. apply (transfer_in loc); (done || lia || (rewrite (shape_size N loc) by done; cbn [room]; lia)). Qed.

(** Bytes of an object. *)
Lemma bytes_in_at loc m c a x r n :
  shape N loc m → a ≠ Cmds → 0 < n → base a ≤ x → x + n ≤ base a + size_of m a → MSM_NAND_BASE ≤ r →
  r + n ≤ MSM_NAND_BASE + NAND_WINDOW → transfer_safe base m (mkDmov c r x n) = true.
Proof. intros Hm Ha Hn Hx Hs Hr Hw. replace x with (base a + (x - base a)) by lia. apply (transfer_in loc); (done || lia). Qed.

Lemma bytes_out_at loc m c a x r n :
  shape N loc m → a ≠ Cmds → 0 < n → base a ≤ x → x + n ≤ base a + size_of m a → MSM_NAND_BASE ≤ r →
  r + n ≤ MSM_NAND_BASE + NAND_WINDOW → transfer_safe base m (mkDmov c x r n) = true.
Proof. intros Hm Ha Hn Hx Hs Hr Hw. replace x with (base a + (x - base a)) by lia. apply (transfer_out loc); (done || lia). Qed.

Ltac operands := first [ eapply operand_out | eapply operand_in ]; [eassumption|regs..].
Ltac lists := repeat first [ apply List.Forall_nil | apply List.Forall_cons ].

Lemma safe_read_id v loc : safe v loc (flash_nand_read_id base polls) (λ _ v' _, ∃ i, v' = mkVars (config v) i (bbtbl v) (flash_pagesize v)
  (interleaved_mode v) (num_pages_per_blk v) (num_pages_per_blk_mask v) (flash_ptable v)).
Proof.
  unfold flash_nand_read_id. apply safe_bind, safe_put_data; [cbn; unfold PTR_WORDS; lia|]. apply safe_bind, safe_exec_list; [cbn; unfold CMD_SLOTS; lia| |].
  { intros m Hm. apply (list_safe_last m [_; _; _; _; _; _; _; _]); [lists; operands|operands|done]. }
  apply safe_bind, safe_get_data; [unfold PTR_WORDS; lia|]. intros w. apply safe_bind, safe_vars. apply safe_bind, safe_vars, safe_set_vars.
  by eexists.
Qed.

Ltac words := cbn [length app replicate Nat.add]; unfold PTR_WORDS, CMD_SLOTS; lia.

Lemma safe_nand_isbad v loc page :
  geometry v → safe v loc (flash_nand_block_isbad base polls uninit page) (keeping v (λ _, True)).
Proof.
  intros Hg. unfold flash_nand_block_isbad. apply safe_bind, safe_vars. set (c := config v). set (last := u32 ((if bch c then 532 else 528) * _)).
  assert (0 ≤ flash_pagesize v - last < 500) as Hlast.
  { subst last. destruct (g_pagesize v Hg) as [-> | ->], (bch c); by vm_compute. }
  clearbody last. apply safe_bind, safe_put_data; [words|]. apply safe_bind, safe_put_opt; [words|].
  apply safe_bind, safe_put_data; [words|]. apply safe_bind, safe_enter_local; [words|].
  change (length (replicate 4 uninit)) with 4%nat. apply safe_bind, safe_exec_list; [words| |].
  { intros m Hm. apply (list_safe_last m [_; _; _; _]); [lists| |done].
    1, 3, 4: operands.
    - destruct (bch c); operands.
    - rewrite u32_small by regs. apply (bytes_in_at 4 m _ Local); [done|done|lia|lia| |regs|regs].
      destruct Hm as (_ & _ & _ & _ & _ & Hl & _). cbn [size_of]. lia. }
  apply safe_bind, safe_get_data; [words|]. intros w. apply safe_if; intros _; [by apply safe_ret|].
  apply safe_bind, safe_local; [lia|]. intros b0. apply safe_bind, safe_local; [lia|]. intros b1.
  destruct (wide c); by apply safe_ret.
Qed.

Lemma safe_nand_erase v loc page :
  geometry v → safe v loc (flash_nand_erase_block base polls uninit page) (keeping v (λ _, True)).
Proof.
  intros Hg. unfold flash_nand_erase_block. apply safe_bind, safe_vars. set (c := config v).
  apply safe_if; intros _; [by apply safe_ret|]. apply safe_bind. eapply safe_mono; [by apply safe_nand_isbad|].
  intros isbad v' loc' [-> _]. apply safe_if; intros _; [by apply safe_ret|].
  apply safe_bind, safe_put_data; [words|]. apply safe_bind, safe_exec_list; [words| |].
  { intros m Hm. apply (list_safe_last m [_; _; _; _; _]); [lists| |done]. 2: destruct (bch c). all: operands. }
  apply safe_bind, safe_get_data; [words|]. intros w. repeat (apply safe_if; intros _); by apply safe_ret.
Qed.

(** The results of a page. *)
Lemma safe_check_results v loc at_ b ns :
  Forall (λ n, (4 + at_ n < PTR_WORDS)%nat) ns → safe v loc (check_results at_ b ns) (keeping v (λ r, r = 0 ∨ r = -1)).
Proof.
  induction 1 as [|n ns Hn _ IH]; cbn [check_results]; [apply safe_ret; by split; [|left]|].
  apply safe_bind, safe_get_data; [done|]. intros w.
  repeat (apply safe_if; intros _); (apply safe_ret; by split; [|right]) || done.
Qed.

Lemma safe_check_bbtbl v loc page :
  geometry v → Z.of_nat (length (bbtbl v)) = num_blocks (info v) → 0 ≤ page < num_blocks (info v) * num_pages_per_blk v →
  safe v loc (check_bbtbl base polls uninit page)
    (λ _ v' _, ∃ l, length l = length (bbtbl v) ∧ v' = mkVars (config v) (info v) l (flash_pagesize v) (interleaved_mode v)
       (num_pages_per_blk v) (num_pages_per_blk_mask v) (flash_ptable v)).
Proof.
  intros Hg Hb Hp. unfold check_bbtbl. apply safe_bind, safe_vars.
  assert (num_pages_per_blk v ≠ 0 ∧ 0 ≤ page / num_pages_per_blk v < num_blocks (info v)) as [Hz Hr].
  { destruct (g_ppb v Hg) as [E|E]; rewrite E in *; (split; [done|]); Z.div_mod_to_equations; lia. }
  apply safe_bind, safe_udiv; [done|]. apply safe_bind, safe_of_res.
  { destruct (lookup_lt_is_Some_2 (bbtbl v) (Z.to_nat (page / num_pages_per_blk v))) as [e ->]; [lia|done]. }
  intros e _. apply safe_if; intros _; [|apply safe_ret; exists (bbtbl v); split; [done|by destruct v]].
  apply safe_bind. eapply safe_mono; [by apply safe_nand_isbad|]. intros isbad v' loc' [-> _].
  apply safe_bind, safe_vars. apply safe_bind. apply safe_bind, safe_vars, safe_set_vars. apply safe_ret.
  eexists. split; [|done]. by rewrite length_insert.
Qed.

(** ** Pages *)

(** [n] bytes from [x] are in object [a]. *)
Definition inside (a : area) (x n : Z) : Prop := a ≠ Cmds ∧ a ≠ Local ∧ base a ≤ x ∧ x + n ≤ base a + room N a.

Lemma inside_in loc m a x y n c r k :
  shape N loc m → inside a x n → 0 < k → x ≤ y → y + k ≤ x + n → MSM_NAND_BASE ≤ r → r + k ≤ MSM_NAND_BASE + NAND_WINDOW →
  transfer_safe base m (mkDmov c r (u32 y) k) = true.
Proof.
  intros Hm (Ha & Hl & Hx & Hn) Hk Hy Hyk Hr Hw. pose proof (base_end _ _ HL a). pose proof (base_pos _ _ HL a).
  rewrite u32_small by lia. apply (bytes_in_at loc m _ a); [done|done|lia|lia| |done|done].
  rewrite (shape_size N loc) by done. lia.
Qed.

Lemma inside_out loc m a x y n c r k :
  shape N loc m → inside a x n → 0 < k → x ≤ y → y + k ≤ x + n → MSM_NAND_BASE ≤ r → r + k ≤ MSM_NAND_BASE + NAND_WINDOW →
  transfer_safe base m (mkDmov c (u32 y) r k) = true.
Proof.
  intros Hm (Ha & Hl & Hx & Hn) Hk Hy Hyk Hr Hw. pose proof (base_end _ _ HL a). pose proof (base_pos _ _ HL a).
  rewrite u32_small by lia. apply (bytes_out_at loc m _ a); [done|done|lia|lia| |done|done].
  rewrite (shape_size N loc) by done. lia.
Qed.

Lemma inside_u32 a x n : inside a x n → 0 < n → u32 x = x.
Proof. intros (_ & _ & Hx & Hn) ?. pose proof (base_end _ _ HL a). pose proof (base_pos _ _ HL a). apply u32_small. lia. Qed.

(** The code words cover the page. *)
Lemma cw_len_bound cws n :
  cws = 4 ∨ cws = 8 → (n < Z.to_nat cws)%nat → 0 < cw_len cws n ≤ 516 ∧ Z.of_nat n * 516 + cw_len cws n ≤ cws * 512.
Proof. intros Hc Hn. unfold cw_len. destruct (Z.ltb_spec (Z.of_nat n) (cws - 1)); rewrite ?Z.shiftl_mul_pow2 by lia; destruct Hc; lia. Qed.

Lemma geometry_cws v : geometry v → Z.shiftr (flash_pagesize v) 9 = 4 ∧ flash_pagesize v = 2048 ∨ Z.shiftr (flash_pagesize v) 9 = 8 ∧ flash_pagesize v = 4096.
Proof. intros Hg. destruct (g_pagesize v Hg) as [-> | ->]; [left|right]; done. Qed.

Lemma read_codeword_safe loc m c cws a addr n :
  shape N loc m → cws = 4 ∨ cws = 8 → inside a addr (cws * 512) → (n < Z.to_nat cws)%nat →
  Forall (λ d, transfer_safe base m d = true) (read_codeword base c cws addr n).
Proof.
  intros Hm Hc Ha Hn. destruct (cw_len_bound cws n Hc Hn) as [Hl Hs]. unfold read_codeword, io_result.
  repeat apply Forall_app_2; [destruct (n =? 0)%nat|destruct (n =? 0)%nat, (bch c)|]; lists; try operands.
  eapply (inside_in loc m a addr); [done|done|lia|lia|lia|regs|regs].
Qed.

Lemma flat_map_safe m (f : nat → list dmov_s) k :
  (∀ n, (n < k)%nat → Forall (λ d, transfer_safe base m d = true) (f n)) →
  Forall (λ d, transfer_safe base m d = true) (flat_map f (seq 0 k)).
Proof.
  intros Hf. assert (∀ l, (∀ n, n ∈ l → (n < k)%nat) → Forall (λ d, transfer_safe base m d = true) (flat_map f l)) as Hl.
  { induction l as [|n l IH]; intros Hl; cbn; [done|]. apply Forall_app_2; [apply Hf, Hl; set_solver|apply IH; set_solver]. }
  apply Hl. intros n Hn. apply elem_of_seq in Hn. lia.
Qed.

Lemma read_page_safe loc m c cws a addr b spare :
  shape N loc m → cws = 4 ∨ cws = 8 → inside a addr (cws * 512) → inside b spare 16 →
  list_safe base m (read_page_list base c cws addr spare) = true ∧ (length (read_page_list base c cws addr spare) ≤ CMD_SLOTS)%nat.
Proof.
  intros Hm Hc Ha Hb. split.
  - unfold read_page_list. rewrite !app_assoc. apply list_safe_last; [|operands|done].
    repeat apply Forall_app_2; [lists; operands|apply flat_map_safe; intros; by eapply read_codeword_safe|lists].
    assert (Z.shiftl (cws - 1) 2 = 4 * (cws - 1)) as -> by (rewrite Z.shiftl_mul_pow2; lia).
    rewrite <- (inside_u32 b spare 16) by (done || lia). eapply (inside_in loc m b spare spare 16); (done || lia || regs).
  - destruct Hc as [-> | ->]; vm_compute; lia.
Qed.

(** The variables change in the bad block table only. *)
Definition new_table (v v' : nand_vars) : Prop :=
  ∃ l, length l = length (bbtbl v) ∧ v' = mkVars (config v) (info v) l (flash_pagesize v) (interleaved_mode v)
         (num_pages_per_blk v) (num_pages_per_blk_mask v) (flash_ptable v).

Definition in_flash (v : nand_vars) (page : Z) : Prop :=
  Z.of_nat (length (bbtbl v)) = num_blocks (info v) ∧ 0 ≤ page < num_blocks (info v) * num_pages_per_blk v.

Lemma new_table_refl v : new_table v v.
Proof. exists (bbtbl v). split; [done|by destruct v]. Qed.

Lemma safe_nand_read_page v loc page a addr b spare :
  geometry v → in_flash v page → inside a addr (flash_pagesize v) → inside b spare 16 →
  safe v loc (_flash_nand_read_page base polls uninit page addr spare) (λ r v' _, new_table v v' ∧ (r = 0 ∨ r = -1 ∨ r = -2)).
Proof.
  intros Hg [Hl Hp] Ha Hb. unfold _flash_nand_read_page. apply safe_bind, safe_vars. set (c := config v). set (cws := Z.shiftr _ 9).
  assert ((cws = 4 ∨ cws = 8) ∧ flash_pagesize v = cws * 512) as [Hc Hs].
  { subst cws. destruct (geometry_cws v Hg) as [[-> ->]|[-> ->]]; auto. }
  clearbody cws. apply safe_bind. eapply safe_mono; [by apply safe_check_bbtbl|]. intros bad v' loc' Hv'. destruct bad.
  { apply safe_ret. split; [done|auto]. }
  apply safe_bind, safe_put_data; [words|]. apply safe_bind, safe_put_data; [words|]. apply safe_bind, safe_put_opt; [words|].
  rewrite Hs in Ha. apply safe_bind, safe_exec_list; [destruct Hc as [-> | ->]; vm_compute; lia|intros m Hm; eapply read_page_safe; done|].
  eapply safe_mono; [apply safe_check_results|].
  - apply Forall_forall. intros n Hn. apply elem_of_seq in Hn. unfold io_result, PTR_WORDS. destruct Hc; lia.
  - intros r v'' loc'' [-> Hr]. split; [done|]. destruct Hr; auto.
Qed.

Lemma write_codeword_safe loc m c (raw modem : bool) cws a addr b spare n :
  shape N loc m → cws = 4 ∨ cws = 8 → inside a addr (if raw then 528 else cws * 512) → (raw = false → inside b spare (4 * cws)) →
  (n < Z.to_nat cws)%nat → Forall (λ d, transfer_safe base m d = true) (write_codeword base c raw modem cws addr spare n).
Proof.
  intros Hm Hc Ha Hb Hn. destruct (cw_len_bound cws n Hc Hn) as [Hl Hs]. unfold write_codeword, io_result.
  repeat apply Forall_app_2; [destruct (n =? 0)%nat; lists; operands|destruct (n =? 0)%nat, (bch c); lists; operands| | |lists; operands].
  - lists. destruct raw.
    + rewrite <- (inside_u32 a addr 528) by (done || lia). eapply (inside_out loc m a addr addr 528); (done || lia || regs).
    + destruct modem; eapply (inside_out loc m a addr); (done || lia || regs).
  - destruct raw; [by rewrite andb_false_r|]. destruct modem; [by rewrite andb_false_r|]. case_match; lists.
    assert (Z.shiftl (cws - 1) 2 = 4 * (cws - 1)) as -> by (rewrite Z.shiftl_mul_pow2; lia).
    assert (Z.shiftl cws 2 = 4 * cws) as -> by (rewrite Z.shiftl_mul_pow2; lia).
    rewrite <- (inside_u32 b spare (4 * cws)) by (auto || lia). eapply (inside_out loc m b spare spare (4 * cws)); (auto || lia || regs).
Qed.

Lemma write_page_safe loc m c (raw modem : bool) cws a addr b spare :
  shape N loc m → cws = 4 ∨ cws = 8 → inside a addr (if raw then 528 else cws * 512) → (raw = false → inside b spare (4 * cws)) →
  list_safe base m (write_page_list base c raw modem cws addr spare) = true.
Proof.
  intros Hm Hc Ha Hb. unfold write_page_list. rewrite app_assoc. apply list_safe_last; [|operands|done].
  apply Forall_app_2; [lists; operands|]. apply flat_map_safe. intros. by eapply write_codeword_safe.
Qed.

Lemma length_write_page c raw modem cws addr spare :
  cws = 4 ∨ cws = 8 → (length (write_page_list base c raw modem cws addr spare) ≤ CMD_SLOTS)%nat.
Proof. intros [-> | ->]; destruct raw, modem; vm_compute; lia. Qed.

Lemma safe_nand_write_page v loc page a addr b spare (raw : bool) :
  geometry v → inside a addr (if raw then 528 else flash_pagesize v) →
  (raw = false → inside b spare (4 * Z.shiftr (flash_pagesize v) 9)) →
  safe v loc (_flash_nand_write_page base polls page addr spare raw) (keeping v (λ _, True)).
Proof.
  intros Hg Ha Hb. unfold _flash_nand_write_page. apply safe_bind, safe_vars. set (c := config v). set (cws := Z.shiftr (flash_pagesize v) 9) in *.
  assert ((cws = 4 ∨ cws = 8) ∧ flash_pagesize v = cws * 512) as [Hc Hs].
  { subst cws. destruct (geometry_cws v Hg) as [[-> ->]|[-> ->]]; auto. }
  clearbody cws. apply safe_bind, safe_put_data; [words|]. apply safe_bind, safe_put_data; [words|]. apply safe_bind.
  destruct raw; [apply safe_put_data; [words|]|apply safe_bind, safe_put_data; [words|]; apply safe_put_opt; [words|]].
  all: apply safe_bind, safe_put_data; [words|]; try rewrite Hs in Ha.
  all: apply safe_bind, safe_exec_list; [by apply length_write_page|intros m Hm; by eapply write_page_safe|].
  all: eapply safe_mono; [apply safe_check_results|by intros ? ? ? [-> _]].
  all: apply Forall_forall; intros n Hn; apply elem_of_seq in Hn; unfold io_result, PTR_WORDS; destruct Hc; lia.
Qed.

Lemma safe_clear_empty v loc (Φ : unit → nand_vars → nat → Prop) : Φ tt v loc → safe v loc clear_empty_buf Φ.
Proof.
  intros HΦ. apply safe_bind, safe_mem. intros m (? & ? & ? & ? & ? & ? & ? & ?). eapply safe_set_mem; [|exact HΦ].
  unfold shape. cbn [m_cmds m_ptrs m_tmp m_spare m_empty m_local m_image set_m_empty]. rewrite length_replicate. auto 10.
Qed.

Lemma safe_nand_mark v loc page :
  geometry v → safe v loc (flash_nand_mark_badblock base polls page) (keeping v (λ _, True)).
Proof.
  intros Hg. unfold flash_nand_mark_badblock. apply safe_bind, safe_clear_empty. apply safe_bind, safe_vars.
  apply (safe_nand_write_page v loc _ Empty _ Spare); [done| |done]. split_and!; [done|done|lia|cbn [room]; lia].
Qed.

(** ** Configuration and identification *)

Lemma safe_read_config v loc :
  safe v loc (flash_nand_read_config base polls) (λ _ v' _, ∃ c, v' = mkVars c (info v) (bbtbl v) (flash_pagesize v)
    (interleaved_mode v) (num_pages_per_blk v) (num_pages_per_blk_mask v) (flash_ptable v)).
Proof.
  unfold flash_nand_read_config. apply safe_bind, safe_exec_list; [words| |].
  { intros m Hm. pose proof Hm as (_ & _ & Ht & _). apply (list_safe_last m [_]); [lists| |done];
      (eapply (bytes_in_at loc m _ Tmp); [done|done|lia|lia|cbn [size_of]; rewrite Ht; lia|regs|regs]). }
  apply safe_bind, safe_mem. intros m (_ & _ & Ht & _).
  apply safe_bind, safe_of_res; [destruct (lookup_lt_is_Some_2 (m_tmp m) 0) as [e ->]; [lia|done]|]. intros c0 _.
  apply safe_bind, safe_of_res; [destruct (lookup_lt_is_Some_2 (m_tmp m) 1) as [e ->]; [lia|done]|]. intros c1 _.
  apply safe_if; intros _; [apply safe_ret; exists (config v); by destruct v|].
  apply safe_bind, safe_vars. apply safe_bind. apply safe_bind, safe_vars, safe_set_vars. apply safe_ret. by eexists.
Qed.

Lemma safe_hwinfo v loc (Φ : Z → nand_vars → nat → Prop) : (∀ x, Φ x v loc) → safe v loc (flash_ctrl_hwinfo base polls) Φ.
Proof.
  intros HΦ. unfold flash_ctrl_hwinfo. apply safe_bind, safe_put_data; [words|]. apply safe_bind, safe_exec_list; [words| |].
  - intros m Hm. apply (list_safe_last m []); [lists|operands|done].
  - apply safe_get_data; [words|done].
Qed.

Definition with_info (v v' : nand_vars) : Prop :=
  ∃ i, v' = mkVars (config v) i (bbtbl v) (flash_pagesize v) (interleaved_mode v) (num_pages_per_blk v)
              (num_pages_per_blk_mask v) (flash_ptable v).

Lemma safe_onenand_read_id v loc : safe v loc (flash_onenand_read_id base polls) (λ _ v' _, with_info v v').
Proof.
  unfold flash_onenand_read_id. apply safe_bind, safe_put_data; [words|]. apply safe_bind, safe_exec_list; [words| |].
  { intros m Hm. apply (list_safe_last m [_; _; _; _; _; _; _]); [lists; operands|operands|done]. }
  apply safe_bind, safe_get_data; [words|]. intros w. apply safe_bind, safe_vars. apply safe_bind, safe_vars, safe_set_vars.
  by eexists.
Qed.

(** The flashes in the table that can be found. *)
Definition sane (f : flash_identification) : Prop :=
  (pagesize f = 2048 ∨ pagesize f = 4096) ∧ (blksize f / pagesize f = 64 ∨ blksize f / pagesize f = 128) ∧
  blksize f ≠ 0 ∧ 0 < density f / blksize f ≤ 2 ^ 16 ∧ (onenand f ≠ 0 → pagesize f = 2048).

Lemma supported_sane : Forall sane (tail supported_flash).
Proof.
  unfold supported_flash. cbn [tail]. lists; unfold sane; cbn [pagesize blksize density onenand]; split_and!;
    first [ by left | by right | by vm_compute | (intros Hn; first [ reflexivity | by destruct Hn ]) ].
Qed.

Lemma find_flash_sane i f : find_flash i = Some f → sane f.
Proof. intros Hf. apply find_some in Hf as [Hf _]. apply (proj1 (List.Forall_forall _ _) supported_sane f Hf). Qed.

Lemma safe_set_flash v loc f :
  interleaved_mode v = 0 → sane f → safe v loc (set_flash base polls f) (λ _ v' _, geometry v' ∧ flash_ptable v' = flash_ptable v).
Proof.
  intros Hi (Hp & Hb & Hnz & Hd & Ho). unfold set_flash. apply safe_bind, safe_vars. cbn zeta.
  rewrite (proj2 (Z.eqb_neq (blksize f) 0)) by done. rewrite (proj2 (Z.eqb_neq (pagesize f) 0)) by lia. cbn [negb andb].
  apply safe_bind, safe_set_vars. apply safe_bind, safe_assert. intros _. apply safe_bind, safe_udiv; [lia|].
  apply safe_bind, safe_vars. apply safe_bind, safe_set_vars. apply safe_bind, safe_hwinfo. intros x. apply safe_bind, safe_vars.
  apply safe_if; intros _; [apply safe_bind, safe_vars, safe_set_vars|apply safe_ret]; (split; [|done]);
    (split; cbn; [done|done|rewrite u32_small; lia|done| |done]);
    (destruct (Z.eqb_spec (onenand f) 0); [|by auto]; cbn; by destruct (widebus f =? 0)).
Qed.

Lemma safe_flash_init v loc :
  interleaved_mode v = 0 →
  safe v loc (flash_init base polls) (λ _ v' _, geometry v' ∧ Z.of_nat (length (bbtbl v')) = num_blocks (info v')).
Proof.
  intros Hi. unfold flash_init. apply safe_bind, safe_vars. apply safe_bind, safe_assert. intros _.
  apply safe_bind. unfold flash_read_id. apply safe_bind. eapply safe_mono; [apply safe_read_id|]. intros _ v1 loc1 [i1 ->].
  apply safe_bind, safe_vars. cbn [info]. assert (∀ v2 loc2, geometry v2 → safe v2 loc2
    (v ← vars; (if is_nand (type (info v)) then r ← flash_nand_read_config base polls; n_assert (r =? 0) else mret tt);;
     v ← vars; set_bbtbl (replicate (Z.to_nat (num_blocks (info v))) BB_UNKNOWN))
    (λ _ v' _, geometry v' ∧ Z.of_nat (length (bbtbl v')) = num_blocks (info v'))) as Hrest.
  { intros v2 loc2 Hg. apply safe_bind, safe_vars. apply safe_bind.
    assert (∀ c, let v3 := mkVars c (info v2) (bbtbl v2) (flash_pagesize v2) (interleaved_mode v2) (num_pages_per_blk v2)
              (num_pages_per_blk_mask v2) (flash_ptable v2) in ∀ loc3,
      safe v3 loc3 (v ← vars; set_bbtbl (replicate (Z.to_nat (num_blocks (info v))) BB_UNKNOWN))
        (λ _ v' _, geometry v' ∧ Z.of_nat (length (bbtbl v')) = num_blocks (info v'))) as Hset.
    { intros c v3 loc3. apply safe_bind, safe_vars. apply safe_bind, safe_vars, safe_set_vars. cbn. rewrite length_replicate.
      pose proof (g_blocks v2 Hg). split; [by destruct Hg|lia]. }
    apply safe_if; intros _; [|apply safe_ret; specialize (Hset (config v2) loc2); by destruct v2].
    apply safe_bind. eapply safe_mono; [apply safe_read_config|]. intros r v3 loc3 [c ->]. apply safe_assert. intros _. apply Hset. }
  destruct (find_flash (id i1)) as [f|] eqn:Hf.
  { eapply safe_mono; [apply safe_set_flash; [done|by eapply find_flash_sane]|]. intros _ v2 loc2 [Hg _]. auto. }
  apply safe_bind. eapply safe_mono; [apply safe_onenand_read_id|]. intros _ v2 loc2 [i2 ->]. apply safe_bind, safe_vars. cbn [info].
  destruct (find_flash (id i2)) as [f|] eqn:Hf2; [|apply safe_panic].
  eapply safe_mono; [apply safe_set_flash; [done|by eapply find_flash_sane]|]. intros _ v3 loc3 [Hg _]. auto.
Qed.

(** ** OneNAND *)

(** The fields of a structure [d] words behind the pointer list. *)
Definition fields (d : nat) (k : nat) : Z := base Ptrs + 4 * Z.of_nat (d + k).

Lemma field_out loc m d c k r n :
  shape N loc m → 0 < n → 4 * Z.of_nat (d + k) + n ≤ 1024 → MSM_NAND_BASE ≤ r → r + n ≤ MSM_NAND_BASE + NAND_WINDOW →
  transfer_safe base m (mkDmov c (fields d k) r n) = true.
Proof. intros Hm Hn Hk Hr Hw. apply (transfer_out loc); (done || lia || (rewrite (shape_size N loc) by done; cbn [room]; lia)). Qed.

Lemma field_in loc m d c k r n :
  shape N loc m → 0 < n → 4 * Z.of_nat (d + k) + n ≤ 1024 → MSM_NAND_BASE ≤ r → r + n ≤ MSM_NAND_BASE + NAND_WINDOW →
  transfer_safe base m (mkDmov c r (fields d k) n) = true.
Proof. intros Hm Hn Hk Hr Hw. apply (transfer_in loc); (done || lia || (rewrite (shape_size N loc) by done; cbn [room]; lia)). Qed.

Ltac fields := first [ eapply field_out | eapply field_in ]; [eassumption|regs..].

Lemma on_parts_safe loc m d f i :
  shape N loc m → (d ≤ 4)%nat → f = erase_layout ∨ f = io_layout → (i ≤ 8)%nat →
  Forall (λ x, transfer_safe base m x = true) (on_setup (fields d) :: on_cmd f (fields d) i :: on_kick f (fields d) i ++ on_write_addrs f (fields d) i) ∧
  (∀ j, (j ≤ 7)%nat → Forall (λ x, transfer_safe base m x = true) (on_wait_status f (fields d) j)) ∧
  (∀ j, (j ≤ 4)%nat → transfer_safe base m (on_macro f (fields d) j) = true).
Proof.
  intros Hm Hd Hf Hi. unfold on_setup, on_write_addrs, on_wait_status, on_kick, on_cmd, on_macro.
  split_and!; [|intros j Hj|intros j Hj]; destruct Hf as [-> | ->];
    cbn [app f_cmd f_exec f_stat f_addr f_data f_macro erase_layout io_layout]; lists; fields.
Qed.

(** A list of OneNAND transfers: the setup and [l], then the registers are restored. *)
Lemma on_list_safe loc m d f i l :
  shape N loc m → (d ≤ 4)%nat → f = erase_layout ∨ f = io_layout → (i ≤ 8)%nat → Forall (λ x, transfer_safe base m x = true) l →
  list_safe base m ([on_setup (fields d)] ++ l ++ on_restore_regs f (fields d) i) = true.
Proof.
  intros Hm Hd Hf Hi Hl. destruct (on_parts_safe loc m d f i Hm Hd Hf Hi) as (Hp & _ & _). unfold on_restore_regs.
  apply Forall_cons in Hp as [Hs [Hc _]%Forall_cons]. change (?x :: ?y :: ?z :: []) with ([x; y] ++ [z]). rewrite !app_assoc.
  apply list_safe_last; [|destruct Hf as [-> | ->]; cbn [f_stat f_exec erase_layout io_layout]; fields|by vm_compute].
  repeat apply Forall_app_2; [lists; done|done|lists; [done|]].
  destruct Hf as [-> | ->]; cbn [f_stat f_exec erase_layout io_layout]; fields.
Qed.

Lemma on_chunk_safe loc m i k a x y n s :
  shape N loc m → (i ≤ 5)%nat → (k ≤ 4)%nat → a ≠ Cmds → base a ≤ x → x + s ≤ base a + size_of m a → 0 < n ≤ 512 → x ≤ y → y + n ≤ x + s →
  Forall (λ d, transfer_safe base m d = true) (on_read_chunk io_layout (fields 4) i k (u32 y) n).
Proof.
  intros Hm Hi Hk Ha Hx Hs Hn Hy Hyn. pose proof (base_end _ _ HL a). pose proof (base_pos _ _ HL a). pose proof (shape_size_le N loc m a Hm).
  rewrite u32_small by lia. unfold on_read_chunk, on_kick, on_cmd, on_macro. cbn [app f_cmd f_exec f_stat f_macro io_layout]. lists; try fields.
  apply (bytes_in_at loc m _ a); (done || lia || regs).
Qed.

Lemma onenand_read_safe loc m a addr raw s :
  shape N loc m → a ≠ Cmds → base a ≤ addr → addr + s ≤ base a + size_of m a → 2048 ≤ s → (raw = 1 → s = 2112) →
  list_safe base m (onenand_read_list io_layout (fields 4) addr raw) = true.
Proof.
  intros Hm Ha Hx Hs Hs2 Hr. unfold onenand_read_list.
  destruct (on_parts_safe loc m 4 io_layout 0 Hm) as (Hp & Hw & _); [lia|auto|lia|]. pose proof (base_pos _ _ HL a).
  rewrite (app_assoc (on_write_addrs _ _ _)), (app_assoc (_ ++ on_wait_status _ _ _)), (app_assoc (_ ++ _)).
  apply (on_list_safe loc m); [done|lia|auto|lia|]. apply Forall_cons in Hp as [_ [_ Hp]%Forall_cons]. apply Forall_app in Hp as [_ Hp].
  rewrite (proj2 (Z.eqb_neq addr 0)) by lia. cbn [negb].
  apply Forall_app_2; [apply Forall_app_2; [apply Forall_app_2; [done|apply Hw; lia]|]|].
  - apply flat_map_safe. intros n Hn. eapply (on_chunk_safe loc m n n a addr _ 512 s); (done || lia).
  - destruct (Z.eqb_spec raw 1); [|done]. eapply (on_chunk_safe loc m 4 4 a addr _ 64 s); (done || lia).
Qed.

Lemma length_onenand_read addr raw : (length (onenand_read_list io_layout (fields 4) addr raw) ≤ CMD_SLOTS)%nat.
Proof. unfold onenand_read_list. rewrite !length_app. destruct (addr =? 0), (raw =? 1); cbn; unfold CMD_SLOTS; lia. Qed.

Lemma safe_bad110 v loc d ks (Φ : bool → nand_vars → nat → Prop) :
  Forall (λ k, (d + k < PTR_WORDS)%nat) ks → (∀ b, Φ b v loc) → safe v loc (bad110 d ks) Φ.
Proof.
  intros Hk HΦ. induction Hk as [|k ks Hk _ IH]; cbn [bad110 foldr]; [by apply safe_ret|].
  apply safe_bind, safe_get_word; [done|]. intros w. apply safe_if; intros _; [by apply safe_ret|done].
Qed.

Lemma safe_controller_status v loc d k (Φ : Z → nand_vars → nat → Prop) :
  (d + k < PTR_WORDS)%nat → (∀ b, Φ b v loc) → safe v loc (controller_status d k) Φ.
Proof. intros Hk HΦ. apply safe_bind, safe_get_word; [done|]. intros w. by apply safe_ret. Qed.

(** The flash is a OneNAND of the known kind. *)
Definition onenand_ok (v : nand_vars) : Prop := geometry v ∧ flash_pagesize v = 2048.

Lemma onenand_sizes v : onenand_ok v → u32 (flash_pagesize v * num_pages_per_blk v) ≠ 0 ∧ flash_pagesize v ≠ 0.
Proof. intros [Hg ->]. by destruct (g_ppb v Hg) as [-> | ->]. Qed.

Lemma safe_onenand_load v loc page a addr raw s :
  onenand_ok v → a ≠ Cmds → base a ≤ addr → (∀ m, shape N loc m → addr + s ≤ base a + size_of m a) → 2048 ≤ s → (raw = 1 → s = 2112) →
  safe v loc (onenand_load_page base polls page addr raw) (λ r v' loc', v' = v ∧ loc' = loc ∧ (r = 0 ∨ r = -1)).
Proof.
  intros Ho Ha Hx Hs Hs2 Hr. destruct (onenand_sizes v Ho) as [He Hp]. unfold onenand_load_page. apply safe_bind, safe_vars.
  apply safe_bind, safe_udiv; [done|]. apply safe_bind, safe_udiv; [done|]. apply safe_bind, safe_put_data; [vm_compute; lia|].
  apply safe_bind, safe_exec_list; [apply length_onenand_read|intros m Hm; eapply onenand_read_safe; eauto|].
  apply safe_bind, safe_controller_status; [vm_compute; lia|]. intros cs. apply safe_bind, safe_bad110.
  - destruct (negb (addr =? 0)); cbn; lists; vm_compute; lia.
  - intros b. apply safe_ret. split; [done|]. split; [done|]. destruct (_ || _); auto.
Qed.

Lemma safe_onenand_isbad v loc page :
  onenand_ok v → safe v loc (flash_onenand_block_isbad base polls uninit page) (keeping v (λ _, True)).
Proof.
  intros Ho. unfold flash_onenand_block_isbad. apply safe_bind, safe_vars. apply safe_bind, safe_enter_local; [rewrite length_replicate; lia|].
  rewrite length_replicate. apply safe_bind.
  eapply safe_mono; [eapply (safe_onenand_load v _ _ Local _ 1 2112); [done|done|lia| |lia|done]|].
  { intros m (_ & _ & _ & _ & _ & Hl & _). cbn [size_of]. lia. }
  intros r v' loc' (-> & -> & _). apply safe_if; intros _; [by apply safe_ret|].
  apply safe_bind, safe_mem. intros m (_ & _ & _ & _ & _ & Hl & _). apply safe_bind, safe_of_res; [|intros o _; by apply safe_ret].
  assert (∀ l, Forall (λ i, 0 ≤ i < 64) l →
    ∃ o, foldr (λ i acc, b ← byte_at (m_local m) (2048 + i); l ← acc; Ok (b :: l)) (Ok []) l = Ok o) as Hb.
  { induction 1 as [|i l Hi _ [o IH]]; [by eexists|]. cbn [foldr]. rewrite IH. unfold byte_at, slice.
    rewrite (proj2 (in_range_spec (m_local m) (2048 + i) 1)) by lia. cbn [mbind res_bind].
    destruct (drop (Z.to_nat (2048 + i)) (m_local m)) as [|b r'] eqn:Ed; [apply (f_equal length) in Ed; rewrite length_drop in Ed; cbn in Ed; lia|].
    by eexists. }
  destruct (Hb [0; 1; 16; 17; 32; 33; 48; 49]) as [o ->]; [lists; lia|done].
Qed.

Lemma safe_onenand_erase v loc page :
  onenand_ok v → safe v loc (flash_onenand_erase_block base polls uninit page) (keeping v (λ _, True)).
Proof.
  intros Ho. destruct (onenand_sizes v Ho) as [He Hp]. unfold flash_onenand_erase_block. apply safe_bind, safe_vars.
  apply safe_bind, safe_udiv; [done|]. apply safe_if; intros _; [by apply safe_ret|]. apply safe_bind.
  eapply safe_mono; [by apply safe_onenand_isbad|]. intros r v' loc' [-> _]. apply safe_if; intros _; [by apply safe_ret|].
  apply safe_bind, safe_put_words; [vm_compute; lia|]. change (λ k, base Ptrs + 4 * Z.of_nat (1 + k)) with (fields 1).
  apply safe_bind, safe_exec_list; [vm_compute; lia| |].
  { intros m Hm. unfold onenand_erase_list. destruct (on_parts_safe loc' m 1 erase_layout 0 Hm) as (Hs & Hw & _); [lia|auto|lia|].
    rewrite (app_assoc (on_write_addrs _ _ _)). apply (on_list_safe loc' m); [done|lia|auto|lia|].
    apply Forall_cons in Hs as [_ [_ Hs]%Forall_cons]. apply Forall_app in Hs as [_ Hs]. apply Forall_app_2; [done|apply Hw; lia]. }
  apply safe_bind, safe_controller_status; [vm_compute; lia|]. intros cs. apply safe_bind, safe_bad110; [cbn; lists; vm_compute; lia|].
  intros b. by apply safe_ret.
Qed.

Lemma safe_onenand_read v loc page a addr spare :
  onenand_ok v → inside a addr 2048 →
  safe v loc (_flash_onenand_read_page base polls uninit page addr spare 0) (keeping v (λ r, r = 0 ∨ r = -1 ∨ r = -2)).
Proof.
  intros Ho (Ha & Hl & Hx & Hs). unfold _flash_onenand_read_page. change (negb (0 =? 1)) with true. cbn [negb].
  apply safe_bind. eapply safe_mono; [by apply safe_onenand_isbad|]. intros r v' loc' [-> _].
  apply safe_if; intros _; [apply safe_ret; split; auto|].
  eapply safe_mono; [eapply (safe_onenand_load v _ _ a addr 0 2048); [done|done|done| |lia|done]|].
  - intros m Hm. rewrite (shape_size N loc') by done. done.
  - intros r' v' loc'' (-> & _ & Hr). split; [done|]. destruct Hr; auto.
Qed.

Lemma nand_byte_at_in b i : 0 ≤ i < Z.of_nat (length b) → ∃ x, byte_at b i = Ok x.
Proof.
  intros Hi. unfold byte_at, slice. rewrite (proj2 (in_range_spec b i 1)) by lia. cbn [mbind res_bind].
  destruct (drop (Z.to_nat i) b) as [|x r] eqn:Ed; [|by eexists].
  apply (f_equal length) in Ed. rewrite length_drop in Ed. cbn in Ed. lia.
Qed.

(** The objects that callers point into. *)
Definition data_area (a : area) : Prop := a = Spare ∨ a = Empty ∨ a = Image.

Lemma data_area_size m a : data_area a → size_of m a = Z.of_nat (length (bytes_in m a)).
Proof. by intros [-> | [-> | ->]]. Qed.

Lemma safe_load_byte v loc a x (Φ : Z → nand_vars → nat → Prop) :
  data_area a → inside a x 1 → (∀ b, Φ b v loc) → safe v loc (load_byte base x) Φ.
Proof.
  intros Hd (Ha & Hl & Hx & Hs) HΦ. unfold load_byte. apply safe_bind, safe_mem. intros m Hm.
  replace x with (base a + (x - base a)) by lia. rewrite (find_area_at base N loc) by (rewrite ?(shape_size N loc) by done; done || lia).
  apply safe_of_res; [|auto]. destruct (nand_byte_at_in (bytes_in m a) (x - base a)) as [b ->]; [|done].
  rewrite <- (data_area_size m a Hd), (shape_size N loc) by done. lia.
Qed.

Lemma safe_fill_oob v loc ps a x (Φ : unit → nand_vars → nat → Prop) :
  data_area a → inside a x (Z.of_nat (length ps)) → Φ tt v loc → safe v loc (fill_oob base ps x) Φ.
Proof.
  intros Hd Hi HΦ. revert x Hi. induction ps as [|p ps IH]; intros x (Ha & Hl & Hx & Hs); cbn [fill_oob]; [by apply safe_ret|].
  cbn [length] in Hs. pose proof (base_end _ _ HL a). pose proof (base_pos _ _ HL a).
  apply safe_bind, (safe_load_byte v loc a); [done|split_and!; (done || lia)|]. intros b. apply safe_bind, safe_mem.
  intros m (? & ? & ? & ? & ? & ? & ? & ?). apply safe_bind. eapply safe_set_mem;
    [unfold shape; cbn [m_cmds m_ptrs m_tmp m_spare m_empty m_local m_image set_m_local]; rewrite length_insert; by split_and!|].
  destruct ps as [|p' ps]; [by apply safe_ret|]. apply IH. rewrite u32_small by (cbn [length] in *; lia). split_and!; (done || lia).
Qed.

Lemma on_write_chunk_safe loc m i a x s y :
  shape N loc m → (i ≤ 4)%nat → inside a x s → x ≤ y → y + 512 ≤ x + s →
  Forall (λ d, transfer_safe base m d = true) (on_write_chunk io_layout (fields 4) i y).
Proof.
  intros Hm Hi (Ha & Hl & Hx & Hs) Hy Hys. unfold on_write_chunk, on_kick, on_cmd, on_macro.
  cbn [app f_cmd f_exec f_stat f_macro io_layout]. lists; try fields.
  apply (bytes_out_at loc m _ a); [done|done|lia|lia| |regs|regs]. rewrite (shape_size N loc) by done. lia.
Qed.

Lemma onenand_write_safe m a addr spare raw :
  shape N 64 m → inside a addr (if raw =? 0 then 2048 else 528) →
  list_safe base m (onenand_write_list io_layout (fields 4) addr spare (base Local) raw) = true.
Proof.
  intros Hm Ha. pose proof Ha as (Ha1 & Ha2 & Ha3 & Ha4). unfold onenand_write_list. pose proof (base_pos _ _ HL a). pose proof (base_end _ _ HL a).
  destruct (on_parts_safe 64 m 4 io_layout 4 Hm) as (Hp4 & _ & Hmac); [lia|auto|lia|].
  destruct (on_parts_safe 64 m 4 io_layout 5 Hm) as (Hp5 & Hw & _); [lia|auto|lia|].
  apply Forall_cons in Hp4 as [_ [Hc4 Hp4]%Forall_cons]. apply Forall_app in Hp4 as [Hk4 _].
  apply Forall_cons in Hp5 as [_ [_ Hp5]%Forall_cons]. apply Forall_app in Hp5 as [_ Hw5].
  rewrite !(app_assoc _ _ (on_restore_regs _ _ _)). rewrite <- !(app_assoc [on_setup _]). apply (on_list_safe 64 m); [done|lia|auto|lia|].
  rewrite (proj2 (Z.eqb_neq addr 0)) by lia. cbn [negb]. apply Forall_app_2; [|apply Forall_app_2; [by lists|]].
  { apply flat_map_safe. intros n Hn. eapply (on_write_chunk_safe 64 m n a addr); [done|lia|done| |];
      destruct (raw =? 0); rewrite ?u32_small; lia. }
  apply Forall_app_2; [|apply Forall_app_2; [|apply Forall_app_2; [apply List.Forall_cons; [apply Hmac; lia|apply List.Forall_nil]|]]].
  - destruct (negb (spare =? 0)); lists. apply (bytes_out_at 64 m _ Local); [done|done|lia|lia| |regs|regs].
    destruct Hm as (_ & _ & _ & _ & _ & Hl & _). cbn [size_of]. lia.
  - destruct (raw =? 0); cbn [negb]; lists. apply (bytes_out_at 64 m _ a); [done|done|lia|lia| |regs|regs].
    rewrite (shape_size N 64) by done. lia.
  - apply Forall_app_2; [exact Hk4|]. apply Forall_app_2; [exact Hw5|apply Hw; lia].
Qed.

Lemma length_onenand_write addr spare oob raw : (length (onenand_write_list io_layout (fields 4) addr spare oob raw) ≤ CMD_SLOTS)%nat.
Proof. unfold onenand_write_list. rewrite !length_app. destruct (addr =? 0), (spare =? 0), (raw =? 0); cbn; unfold CMD_SLOTS; lia. Qed.

Lemma safe_onenand_write v loc page a addr b spare raw :
  onenand_ok v → inside a addr (if raw =? 0 then 2048 else 528) → spare = 0 ∨ data_area b ∧ inside b spare 20 →
  safe v loc (_flash_onenand_write_page base polls page addr spare raw) (keeping v (λ _, True)).
Proof.
  intros Ho Ha Hb. destruct (onenand_sizes v Ho) as [He Hp]. unfold _flash_onenand_write_page. apply safe_bind, safe_vars.
  apply safe_bind, safe_udiv; [done|]. apply safe_bind, safe_udiv; [done|].
  apply safe_bind, safe_enter_local; [rewrite length_replicate; lia|]. rewrite length_replicate.
  apply safe_bind, safe_put_data; [vm_compute; lia|]. apply safe_bind.
  refine (_ : safe v 64 _ (λ _ v' loc', _)).
  assert (safe v 64 (if negb (spare =? 0) then fill_oob base oob_positions spare else mret tt) (λ _ v' loc', v' = v ∧ loc' = 64%nat)) as Hf.
  { destruct Hb as [-> |[Hd Hi]]; [by apply safe_ret|]. apply safe_if; intros _; [|by apply safe_ret].
    by apply (safe_fill_oob v 64 _ b). }
  eapply safe_mono; [exact Hf|]. intros _ v' loc' [-> ->].
  apply safe_bind, safe_exec_list; [apply length_onenand_write|intros m Hm; by eapply onenand_write_safe|].
  apply safe_bind, safe_controller_status; [vm_compute; lia|]. intros cs. apply safe_bind, safe_bad110.
  - destruct (negb (addr =? 0)); cbn; lists; vm_compute; lia.
  - intros x. by apply safe_ret.
Qed.

Lemma safe_onenand_mark v loc page :
  onenand_ok v → safe v loc (flash_onenand_mark_badblock base polls page) (keeping v (λ _, True)).
Proof.
  intros Ho. unfold flash_onenand_mark_badblock. apply safe_bind, safe_clear_empty. apply safe_bind, safe_vars.
  apply (safe_onenand_write v loc _ Empty _ Empty); [done| |by left]. split_and!; [done|done|lia|cbn; lia].
Qed.

(** ** Both kinds of flash *)

Lemma safe_by_type v loc (m1 m2 : M Z) (Φ : Z → nand_vars → nat → Prop) :
  geometry v → safe v loc m1 Φ → (onenand_ok v → safe v loc m2 Φ) → Φ (-1) v loc → safe v loc (by_type m1 m2) Φ.
Proof.
  intros Hg H1' H2 Hd. apply safe_bind, safe_vars. apply safe_if; intros E1; [done|]. apply safe_if; intros E2; [|by apply safe_ret].
  apply H2. split; [done|]. apply (g_onenand v Hg). by apply Z.eqb_eq.
Qed.

Lemma safe_erase_block v loc page : geometry v → safe v loc (flash_erase_block base polls uninit page) (keeping v (λ _, True)).
Proof. intros Hg. apply safe_by_type; [done|by apply safe_nand_erase|by apply safe_onenand_erase|done]. Qed.

Lemma safe_block_isbad v loc page : geometry v → safe v loc (_flash_block_isbad base polls uninit page) (keeping v (λ _, True)).
Proof. intros Hg. apply safe_by_type; [done|by apply safe_nand_isbad|by apply safe_onenand_isbad|done]. Qed.

Lemma safe_mark_badblock v loc page : geometry v → safe v loc (flash_mark_badblock base polls page) (keeping v (λ _, True)).
Proof. intros Hg. apply safe_by_type; [done|by apply safe_nand_mark|by apply safe_onenand_mark|done]. Qed.

Lemma safe_read_page v loc page a addr :
  geometry v → in_flash v page → inside a addr (flash_pagesize v) →
  safe v loc (_flash_read_page base polls uninit page addr (base Spare)) (λ r v' _, new_table v v').
Proof.
  intros Hg Hp Ha. unfold _flash_read_page. apply safe_bind, safe_vars. rewrite (g_plain v Hg). change (negb (0 =? 0)) with false. cbn iota.
  apply safe_by_type; [done| |intros Ho|apply new_table_refl].
  - eapply safe_mono; [apply (safe_nand_read_page v loc page a addr Spare); [done|done|done|split_and!; [done|done|lia|cbn; lia]]|].
    by intros r v' loc' [? _].
  - pose proof Ho as [_ E]. rewrite E in Ha. eapply safe_mono; [by apply (safe_onenand_read v loc page a)|].
    intros r v' loc' [-> _]. apply new_table_refl.
Qed.

Lemma safe_write_page v loc page a addr b spare :
  geometry v → inside a addr (flash_pagesize v) → inside b spare (4 * Z.shiftr (flash_pagesize v) 9) →
  (type (info v) = FLASH_ONENAND_DEVICE → data_area b ∧ inside b spare 20) →
  safe v loc (_flash_write_page base polls page addr spare) (keeping v (λ _, True)).
Proof.
  intros Hg Ha Hb Ho. unfold _flash_write_page. apply safe_bind, safe_vars. rewrite (g_plain v Hg). change (negb (0 =? 0)) with false. cbn iota.
  unfold by_type. apply safe_bind, safe_vars. apply safe_if; intros E1; [by apply (safe_nand_write_page v loc page a addr b)|].
  apply safe_if; intros E2; [|by apply safe_ret]. apply Z.eqb_eq in E2. pose proof (g_onenand v Hg E2) as E. rewrite E in Ha.
  apply (safe_onenand_write v loc page a addr b); [done|done|]. right. auto.
Qed.

(** ** Partitions *)

(** The variables describe the same flash. *)
Definition same_flash (v v' : nand_vars) : Prop :=
  info v' = info v ∧ flash_pagesize v' = flash_pagesize v ∧ interleaved_mode v' = interleaved_mode v ∧
  num_pages_per_blk v' = num_pages_per_blk v ∧ num_pages_per_blk_mask v' = num_pages_per_blk_mask v ∧
  length (bbtbl v') = length (bbtbl v).

Definition ready (v : nand_vars) : Prop := geometry v ∧ Z.of_nat (length (bbtbl v)) = num_blocks (info v).

Lemma same_refl v : same_flash v v.
Proof. done. Qed.
Lemma same_trans v1 v2 v3 : same_flash v1 v2 → same_flash v2 v3 → same_flash v1 v3.
Proof. intros (? & ? & ? & ? & ? & ?) (? & ? & ? & ? & ? & ?). unfold same_flash. split_and!; congruence. Qed.
Lemma new_table_same v v' : new_table v v' → same_flash v v'.
Proof. by intros (l & Hl & ->). Qed.
Lemma same_ready v v' : same_flash v v' → ready v → ready v'.
Proof.
  intros (Hi & Hp & Hm & Hb & Hk & Hl) [[G1 G2 G3 G4 G5 G6] Hn]. split; [|congruence].
  split; rewrite ?Hi, ?Hp, ?Hm, ?Hb, ?Hk; done.
Qed.

Lemma safe_set_configuration v loc t (Φ : unit → nand_vars → nat → Prop) :
  (∀ v', same_flash v v' → Φ tt v' loc) → safe v loc (set_nand_configuration t) Φ.
Proof.
  intros HΦ. unfold set_nand_configuration. apply safe_bind, safe_vars. destruct (t =? TYPE_MODEM_PARTITION);
    apply safe_bind, safe_vars, safe_set_vars; by apply HΦ.
Qed.

(** The partition is on the flash. *)
Definition on_flash (v : nand_vars) (p : ptentry) : Prop := 0 ≤ start p ∧ 0 ≤ length_ p ∧ start p + length_ p ≤ num_blocks (info v).

Lemma safe_flash_erase v loc p :
  ready v → safe v loc (flash_erase base polls uninit p) (λ _ v' _, same_flash v v').
Proof.
  intros Hr. unfold flash_erase. apply safe_bind, safe_set_configuration. intros v' Hs. apply safe_bind.
  assert (∀ n b loc', safe v' loc' (erase_blocks base polls uninit n b) (keeping v' (λ _, True))) as He.
  { induction n as [|n IH]; intros b loc'; cbn [erase_blocks]; [by apply safe_ret|]. apply safe_bind, safe_vars. apply safe_bind.
    eapply safe_mono; [apply safe_erase_block, (same_ready v v' Hs Hr)|]. intros _ v'' loc'' [-> _]. apply IH. }
  eapply safe_mono; [apply He|]. intros _ v'' loc'' [-> _]. by apply safe_ret.
Qed.

Lemma safe_skip_bad v fuel p : ready v → ∀ loc sb count page, 0 ≤ page →
  safe v loc (skip_bad base polls uninit fuel p sb count page) (keeping v (λ r, 0 ≤ r.2)).
Proof.
  intros [Hg _]. induction fuel as [|fuel IH]; intros loc sb count page Hp; cbn [skip_bad];
    (apply safe_if; intros _; [by apply safe_ret|]); [apply safe_spin|]. apply safe_bind, safe_vars. apply safe_bind.
  eapply safe_mono; [by apply safe_block_isbad|]. intros r v' loc' [-> _]. apply safe_if; intros _; apply IH; [apply u32_range|done].
Qed.

Lemma shape_set_bytes loc m a b : shape N loc m → data_area a → length b = length (bytes_in m a) → shape N loc (set_bytes a b m).
Proof.
  intros (? & ? & ? & ? & ? & ? & ? & ?) [-> | [-> | ->]] Hb; unfold shape; cbn in *; rewrite ?Hb; by split_and!.
Qed.

Lemma safe_store_bytes v loc a x bs (Φ : unit → nand_vars → nat → Prop) :
  data_area a → inside a x (Z.of_nat (length bs)) → Φ tt v loc → safe v loc (store_bytes base x bs) Φ.
Proof.
  intros Hd (Ha & Hl & Hx & Hs) HΦ. unfold store_bytes. apply safe_bind, safe_mem. intros m Hm.
  destruct bs as [|y bs]; [by apply safe_ret|]. change (length (y :: bs) =? 0)%nat with false. cbn iota. set (bs' := y :: bs) in *.
  assert (0 < Z.of_nat (length bs')) by (subst bs'; cbn [length]; lia). replace x with (base a + (x - base a)) by lia.
  pose proof (shape_size N loc m a Hm Hl) as Hsz. rewrite (find_area_at base N loc) by (rewrite ?Hsz; done || lia).
  destruct (store_in (bytes_in m a) (x - base a) bs') as [b Hb]; [lia|rewrite <- (data_area_size m a Hd), Hsz; lia|].
  rewrite Hb. apply safe_bind, safe_ret. eapply safe_set_mem; [|exact HΦ]. apply shape_set_bytes; [done|done|]. by eapply store_length.
Qed.

Lemma safe_copy_spare v loc x e (Φ : unit → nand_vars → nat → Prop) :
  0 ≤ e ≤ 128 → inside Image x e → Φ tt v loc → safe v loc (copy_spare base x e) Φ.
Proof.
  intros He Hx HΦ. unfold copy_spare. apply safe_bind, safe_mem. intros m (_ & _ & _ & Hs & _). unfold slice.
  rewrite (proj2 (in_range_spec (m_spare m) 0 (Z.to_nat e))) by lia. apply safe_bind, safe_ret.
  apply (safe_store_bytes v loc Image); [by right; right| |done]. rewrite length_take, length_drop, Hs. replace (_ `min` _)%nat with (Z.to_nat e) by lia.
  by rewrite Z2Nat.id by lia.
Qed.

(** A flash of the kind of [v0]. *)
Lemma safe_read_pages v0 fuel last e : ∀ v loc page image count,
  ready v0 → same_flash v0 v → last ≤ num_blocks (info v0) * num_pages_per_blk v0 → 0 ≤ page → 0 ≤ e ≤ 128 → 0 ≤ count →
  inside Image image (count * (flash_pagesize v0 + e)) →
  safe v loc (read_pages base polls uninit fuel last e page image count) (λ _ v' _, same_flash v0 v').
Proof.
  induction fuel as [|fuel IH]; intros v loc page image count Hr Hs Hlast Hp He Hc Hi; cbn [read_pages];
    (apply safe_if; intros E1; [by apply safe_ret|]; apply safe_if; intros E2; [by apply safe_ret|]); [apply safe_spin|].
  apply Z.eqb_neq in E2. apply negb_false_iff, Z.ltb_lt in E1. pose proof (same_ready v0 v Hs Hr) as [Hg Hb].
  destruct Hs as (S1 & S2 & S3 & S4 & S5 & S6). pose proof Hi as (_ & _ & Hi1 & Hi2). cbn [room] in Hi2.
  pose proof (base_end _ _ HL Image) as Hend. cbn [room] in Hend. pose proof (base_pos _ _ HL Image).
  assert (2048 ≤ flash_pagesize v0 ≤ 4096) as Hps by (rewrite <- S2; destruct (g_pagesize v Hg); lia).
  apply safe_bind, safe_vars. apply safe_bind. eapply safe_mono; [apply (safe_read_page v loc page Image image); [done| |]|].
  { split; [done|]. rewrite S1, S4. lia. }
  { split_and!; [done|done|lia|]. cbn [room]. rewrite S2. nia. }
  intros r v' loc' Hn. assert (same_flash v0 v') as Hs' by (apply (same_trans v0 v); [by split_and!|by apply new_table_same]).
  repeat (apply safe_if; intros _; [by apply (IH v'); [done|done|done|apply u32_range|done|done|done]|]).
  rewrite S2. assert (u32 (image + flash_pagesize v0) = image + flash_pagesize v0) as -> by (apply u32_small; nia).
  apply safe_bind, safe_copy_spare; [done|split_and!; [done|done|lia|cbn [room]; nia]|].
  apply (IH v'); [done|done|done|apply u32_range|done|lia|]. rewrite u32_small by nia. split_and!; [done|done|lia|cbn [room]; nia].
Qed.

(** The buffer holds the pages that are read. *)
Definition read_fits (v : nand_vars) (e bytes : Z) : Prop :=
  0 ≤ e ≤ 128 ∧ 0 ≤ bytes < 2 ^ 31 ∧ (bytes + flash_pagesize v - 1 + e) / (flash_pagesize v + e) * (flash_pagesize v + e) ≤ N.

Lemma safe_flash_read_ext v loc p e off bytes :
  ready v → on_flash v p → 0 ≤ off → read_fits v e bytes →
  safe v loc (flash_read_ext base polls uninit p e off (base Image) bytes) (λ _ v' _, same_flash v v').
Proof.
  intros Hr (Hp1 & Hp2 & Hp3) Ho (He & Hb & Hf). pose proof Hr as [Hg _]. pose proof (g_blocks v Hg).
  assert (2048 ≤ flash_pagesize v ≤ 4096) as Hps by (destruct (g_pagesize v Hg); lia).
  assert (64 ≤ num_pages_per_blk v ≤ 128) as Hppb by (destruct (g_ppb v Hg); lia).
  unfold flash_read_ext. apply safe_bind, safe_vars. apply safe_bind, safe_udiv; [lia|].
  rewrite (u32_small (bytes + _ - 1 + e)), (u32_small (flash_pagesize v + e)) by lia. apply safe_bind, safe_udiv; [lia|].
  set (page := u32 (u32 (start p * _) + _)). assert (0 ≤ page) by apply u32_range. clearbody page. apply safe_bind, safe_udiv; [lia|].
  apply safe_bind, safe_set_configuration. intros v' Hs. pose proof (same_ready v v' Hs Hr) as Hr'. apply safe_if; intros _; [by apply safe_ret|].
  apply safe_bind. set (cb := _ / _). clearbody cb.
  assert (∀ page', 0 ≤ page' → ∀ loc', safe v' loc' (read_pages base polls uninit
      (Z.to_nat (u32 (u32 (start p + length_ p) * num_pages_per_blk v) - page')) (u32 (u32 (start p + length_ p) * num_pages_per_blk v)) e page'
      (base Image) ((bytes + flash_pagesize v - 1 + e) / (flash_pagesize v + e))) (λ _ v'' _, same_flash v v'')) as Hread.
  { intros page' Hp' loc'. apply (safe_read_pages v); [done|done| |done|done|apply Z.div_pos; lia|split_and!; [done|done|lia|cbn [room]; lia]].
    rewrite (u32_small (start p + _)) by lia. rewrite u32_small by nia. nia. }
  apply safe_if; intros _.
  - eapply safe_mono; [by apply safe_skip_bad|]. intros [left_ page'] v'' loc' [-> Hp']. apply safe_if; intros _; [by apply safe_ret|].
    by apply Hread.
  - apply safe_ret. change (negb (0 =? 0)) with false. by apply Hread.
Qed.


(** Physical addresses are virtual addresses, as arm_mmu_init sets them up. *)
Context (Htt : ∀ a, 0 ≤ a < 2 ^ 32 → arm_mmu_virt2phy tt_ a = Ok a).

Lemma safe_virt2phy v loc a (Φ : Z → nand_vars → nat → Prop) : 0 ≤ a < 2 ^ 32 → Φ a v loc → safe v loc (virt2phy tt_ a) Φ.
Proof. intros Ha HΦ. unfold virt2phy. rewrite Htt by done. by apply safe_ret. Qed.

(** The spare bytes of a page that is written: none of the caller's, or enough of them. *)
Definition spare_fits (v : nand_vars) (e : Z) : Prop :=
  e = 0 ∨ 4 * Z.shiftr (flash_pagesize v) 9 ≤ e ≤ 2 ^ 16 ∧ (type (info v) = FLASH_ONENAND_DEVICE → 20 ≤ e).

Lemma land_mask v page : geometry v → 0 ≤ page →
  Z.land page (num_pages_per_blk_mask v) = page mod num_pages_per_blk v ∧
  0 ≤ page mod num_pages_per_blk v < num_pages_per_blk v.
Proof.
  intros Hg Hp. rewrite (g_mask v Hg). destruct (g_ppb v Hg) as [-> | ->].
  - change (64 - 1) with (Z.ones 6). rewrite Z.land_ones by lia. split; [done|by apply Z.mod_pos_bound].
  - change (128 - 1) with (Z.ones 7). rewrite Z.land_ones by lia. split; [done|by apply Z.mod_pos_bound].
Qed.

(** Clearing the bits of the mask. *)
Lemma land_not_mask v page : geometry v → 0 ≤ page < 2 ^ 32 →
  Z.land page (u32 (Z.lnot (num_pages_per_blk_mask v))) = page - page mod num_pages_per_blk v.
Proof.
  intros Hg Hp. rewrite (g_mask v Hg).
  assert (∀ k, 0 ≤ k < 32 → Z.land page (u32 (Z.lnot (2 ^ k - 1))) = page - page mod 2 ^ k) as Hk.
  { intros k Hk. replace (2 ^ k - 1) with (Z.ones k) by (rewrite Z.ones_equiv; lia).
    rewrite <- Z.land_ones by lia. assert (Z.land page (u32 (Z.lnot (Z.ones k))) = Z.ldiff page (Z.ones k)) as ->.
    { apply Z.bits_inj_iff'. intros i Hi. rewrite Z.ldiff_spec, Z.land_spec. destruct (decide (i < 32)).
      - unfold u32. by rewrite Z.mod_pow2_bits_low, Z.lnot_spec by lia.
      - by rewrite (bits_above_32 page) by lia. }
    rewrite Z.land_ones, Z.ldiff_ones_r, Z.shiftl_mul_pow2, Z.shiftr_div_pow2 by lia.
    pose proof (Z.div_mod page (2 ^ k)). lia. }
  destruct (g_ppb v Hg) as [-> | ->]; [apply (Hk 6)|apply (Hk 7)]; lia.
Qed.

Lemma safe_write_image_page v loc page image e :
  ready v → spare_fits v e → 0 ≤ e → inside Image image (flash_pagesize v + e) →
  safe v loc (write_image_page base tt_ polls page image e) (λ _ v' _, v' = v).
Proof.
  intros [Hg _] He He0 (_ & _ & Hi1 & Hi2). cbn [room] in Hi2. pose proof (base_end _ _ HL Image) as Hend. cbn [room] in Hend.
  pose proof (base_pos _ _ HL Image). assert (2048 ≤ flash_pagesize v ≤ 4096) as Hps by (destruct (g_pagesize v Hg); lia).
  assert (0 ≤ 4 * Z.shiftr (flash_pagesize v) 9 ≤ 32) as Hcw by (destruct (geometry_cws v Hg) as [[-> _]|[-> _]]; lia).
  unfold write_image_page. apply safe_bind, safe_vars. apply safe_bind, safe_virt2phy; [lia|]. apply safe_bind.
  destruct (Z.eqb_spec e 0) as [->|Hne]; cbn [negb].
  - apply safe_ret. eapply safe_mono; [apply (safe_write_page v loc page Image _ Spare); [done|split_and!; [done|done|lia|cbn; lia]|split_and!; [done|done|lia|cbn; lia]|]|by intros r v' loc' [-> _]].
    intros _. split; [by left|split_and!; [done|done|lia|cbn; lia]].
  - destruct He as [?|[He Ho]]; [done|]. rewrite u32_small by lia. apply safe_virt2phy; [lia|].
    eapply safe_mono; [apply (safe_write_page v loc page Image _ Image); [done|split_and!; [done|done|lia|cbn; lia]|split_and!; [done|done|lia|cbn; lia]|]|by intros r v' loc' [-> _]].
    intros Hon. split; [by right; right|]. specialize (Ho Hon). split_and!; [done|done|lia|cbn; lia].
Qed.

(** After [k] pages of the data. *)
Lemma safe_write_pages v p e last data total fuel : ∀ loc page k,
  ready v → spare_fits v e → last ≤ 2 ^ 23 → 0 ≤ page → 0 ≤ k → page mod num_pages_per_blk v ≤ k →
  0 ≤ e → k * (flash_pagesize v + e) ≤ total → inside Image data total →
  safe v loc (write_pages base tt_ polls uninit fuel p e last page (data + k * (flash_pagesize v + e)) (total - k * (flash_pagesize v + e)))
    (λ _ v' _, v' = v).
Proof.
  induction fuel as [|fuel IH]; intros loc page k Hr He Hlast Hp Hk Hpk He0 Hkt Hi;
    cbn [write_pages]; (apply safe_if; intros E0; [by apply safe_ret|]; apply safe_bind, safe_vars; cbn zeta; apply safe_if; intros E1; [by apply safe_ret|];
    apply safe_if; intros E2; [by apply safe_ret|]); [apply safe_spin|].
  pose proof Hr as [Hg _]. apply negb_false_iff, Z.ltb_lt in E2. pose proof Hi as (_ & _ & Hi1 & Hi2). cbn [room] in Hi2.
  pose proof (base_end _ _ HL Image) as Hend. cbn [room] in Hend. pose proof (base_pos _ _ HL Image).
  assert (2048 ≤ flash_pagesize v ≤ 4096) as Hps by (destruct (g_pagesize v Hg); lia).
  assert (64 ≤ num_pages_per_blk v ≤ 128) as Hppb by (destruct (g_ppb v Hg); lia).
  assert (e ≤ 2 ^ 16) by (destruct He as [->|[[_ ?] _]]; lia). destruct (land_mask v page Hg Hp) as [Hmask Hmod].
  rewrite land_not_mask by (done || lia). rewrite (u32_small (flash_pagesize v + e)) in * by lia. set (w := flash_pagesize v + e) in *.
  apply Z.ltb_ge in E1. rewrite Hmask. set (r := page mod num_pages_per_blk v) in *.
  assert (∀ q, (q * num_pages_per_blk v + r) mod num_pages_per_blk v = r) as Hq by (intros q; rewrite Z.add_comm, Z.mod_add by lia; apply Z.mod_small; lia).
  assert (0 < w) as Hw by (subst w; lia). assert (flash_pagesize v + e = w) as Hwe by done. clearbody w.
  assert (0 ≤ k * w) by nia. assert (0 ≤ r * w ≤ k * w) by nia. apply safe_bind.
  assert (safe v loc (if r =? 0 then flash_erase_block base polls uninit page else mret 0) (λ bad v' _, v' = v ∧ (bad = 0 ∨ r = 0))) as Hb.
  { destruct (Z.eqb_spec r 0) as [E|E]; [|apply safe_ret; by split; [|left]].
    eapply safe_mono; [by apply safe_erase_block|]. intros x v' loc' [-> _]. by split; [|right]. }
  eapply safe_mono; [exact Hb|]. intros bad v' loc' [-> Hbad]. apply safe_if; intros E3.
  { apply negb_true_iff, Z.eqb_neq in E3. destruct Hbad as [->|Hbad]; [done|]. rewrite u32_small by lia.
    apply (IH loc'); [done|done|done|lia|done| |done|done|done].
    replace (page + num_pages_per_blk v) with (page + 1 * num_pages_per_blk v) by lia. rewrite Z.mod_add by lia. fold r. lia. }
  apply safe_bind. eapply safe_mono; [apply safe_write_image_page; [done|done|done|split_and!; [done|done|lia|cbn [room]; lia]]|].
  intros res v' loc'' ->. apply safe_if; intros _.
  - apply safe_bind. eapply safe_mono; [by apply safe_erase_block|]. intros _ v' loc3 [-> _]. apply safe_bind.
    assert (0 ≤ page - r ∧ (page - r + num_pages_per_blk v) mod num_pages_per_blk v = 0) as [Hpr Hz].
    { split; [pose proof (Z.mod_le page (num_pages_per_blk v)); subst r; lia|]. pose proof (Z.div_mod page (num_pages_per_blk v)).
      replace (page - r + num_pages_per_blk v) with ((page / num_pages_per_blk v + 1) * num_pages_per_blk v) by (subst r; lia).
      apply Z.mod_mul. lia. }
    assert (∀ loc4, safe v loc4 (write_pages base tt_ polls uninit fuel p e last (u32 (page - r + num_pages_per_blk v))
       (u32 (data + k * w - u32 (r * w))) (u32 (total - k * w + u32 (r * w)))) (λ _ v' _, v' = v)) as Hnext.
    { intros loc4. rewrite (u32_small (r * w)), !u32_small by lia.
      replace (data + k * w - r * w) with (data + (k - r) * w) by lia. replace (total - k * w + r * w) with (total - (k - r) * w) by lia.
      apply (IH loc4); [done|done|done|lia|lia|rewrite Hz; lia|done|lia|done]. }
    apply safe_if; intros _; [|by apply safe_ret, Hnext]. eapply safe_mono; [by apply safe_mark_badblock|]. intros _ v' loc4 [-> _]. apply Hnext.
  - rewrite !u32_small by lia. replace (data + k * w + w) with (data + (k + 1) * w) by lia.
    replace (total - k * w - w) with (total - (k + 1) * w) by lia. apply (IH loc''); [done|done|done|lia|lia| |done|lia|done].
    transitivity (r + 1); [|lia]. subst r. rewrite <- Zplus_mod_idemp_l. apply Z.mod_le; lia.
Qed.

Lemma safe_erase_rest v last fuel : ∀ loc page, ready v → safe v loc (erase_rest base polls uninit fuel last page) (λ _ v' _, v' = v).
Proof.
  induction fuel as [|fuel IH]; intros loc page Hr; cbn [erase_rest]; (apply safe_if; intros _; [by apply safe_ret|]); [apply safe_spin|].
  apply safe_bind, safe_vars. apply safe_bind. eapply safe_mono; [apply safe_erase_block, Hr|]. intros _ v' loc' [-> _]. by apply IH.
Qed.

Lemma safe_blank_spare v loc (Φ : unit → nand_vars → nat → Prop) : Φ tt v loc → safe v loc blank_spare Φ.
Proof.
  intros HΦ. apply safe_bind, safe_mem. intros m Hm. pose proof Hm as (_ & _ & _ & Hs & _).
  destruct (store_in (m_spare m) 0 (replicate 64 0xFF)) as [b Hb]; [lia|rewrite length_replicate; lia|]. rewrite Hb.
  apply safe_bind, safe_ret. eapply safe_set_mem; [|exact HΦ]. apply (shape_set_bytes loc m Spare); [done|by left|]. by eapply store_length.
Qed.

Lemma safe_flash_write v loc p e bytes :
  ready v → on_flash v p → spare_fits v e → 0 ≤ e → 0 ≤ bytes ≤ N →
  safe v loc (flash_write base tt_ polls uninit p e (base Image) bytes) (λ _ v' _, same_flash v v').
Proof.
  intros Hr (Hp1 & Hp2 & Hp3) He He0 Hb. pose proof Hr as [Hg _]. pose proof (g_blocks v Hg).
  assert (64 ≤ num_pages_per_blk v ≤ 128) as Hppb by (destruct (g_ppb v Hg); lia).
  unfold flash_write. apply safe_bind, safe_vars. cbn zeta. apply safe_if; intros _; [by apply safe_ret|].
  apply safe_bind, safe_set_configuration. intros v' Hs. apply safe_bind, safe_blank_spare. apply safe_bind.
  rewrite (u32_small (start p + length_ p)) by lia. rewrite (u32_small (start p * _)), (u32_small ((start p + length_ p) * _)) by nia.
  pose proof (same_ready v v' Hs Hr) as Hr'. pose proof Hs as (S1 & S2 & _ & S4 & _).
  pose proof (safe_write_pages v' p e ((start p + length_ p) * num_pages_per_blk v) (base Image) bytes
    (Z.to_nat ((start p + length_ p) * num_pages_per_blk v - start p * num_pages_per_blk v)) loc (start p * num_pages_per_blk v) 0) as Hw.
  rewrite Z.mul_0_l, Z.add_0_r, Z.sub_0_r in Hw. eapply safe_mono; [apply Hw|].
  - done.
  - unfold spare_fits. by rewrite S1, S2.
  - nia.
  - nia.
  - lia.
  - rewrite S4. by rewrite Z.mod_mul by lia.
  - done.
  - lia.
  - split_and!; [done|done|lia|cbn [room]; lia].
  - intros [x|page] v'' loc' ->; [by apply safe_ret|]. apply safe_bind. eapply safe_mono; [by apply safe_erase_rest|].
    intros _ v'' loc'' ->. by apply safe_ret.
Qed.
End Safe.

(** * Sessions *)

(** What the boot loader asks of the flash, with its buffer at [base Image]. *)
Inductive flash_request :=
  | FErase (p : ptentry)
  | FRead (p : ptentry) (extra offset bytes : Z)
  | FWrite (p : ptentry) (extra bytes : Z).

(** The partition is on the flash, and the buffer of [N] bytes is large enough. *)
Definition request_fits (N : Z) (v : nand_vars) (q : flash_request) : Prop :=
  match q with
  | FErase p => on_flash v p
  | FRead p e off bytes => on_flash v p ∧ 0 ≤ off ∧ read_fits N v e bytes
  | FWrite p e bytes => on_flash v p ∧ spare_fits v e ∧ 0 ≤ e ∧ 0 ≤ bytes ≤ N
  end.

#[global] Instance request_fits_dec N v q : Decision (request_fits N v q).
Proof. destruct q; unfold request_fits, on_flash, read_fits, spare_fits; apply _. Defined.

Section Session.
Context {H : Type} `{Dmov H} (base : area → Z) (tt_ : list Z) (polls : nat) (uninit N : Z).

Definition serve_flash (q : flash_request) : nd H Z :=
  match q with
  | FErase p => flash_erase base polls uninit p
  | FRead p e off bytes => flash_read_ext base polls uninit p e off (base Image) bytes
  | FWrite p e bytes => flash_write base tt_ polls uninit p e (base Image) bytes
  end.

(** The requests that fit, one after the other. *)
Fixpoint flash_session (qs : list flash_request) : nd H unit :=
  match qs with
  | [] => mret tt
  | q :: qs =>
      v ← vars;
      (if bool_decide (request_fits N v q) then serve_flash q else mret 0);;
      flash_session qs
  end.
End Session.

Section SessionSafe.
Context {H : Type} `{DmovSizes H} (base : area → Z) (tt_ : list Z) (polls : nat) (uninit N : Z) (HL : layout_ok base N).
Context (Htt : ∀ a, 0 ≤ a < 2 ^ 32 → arm_mmu_virt2phy tt_ a = Ok a).
#[local] Instance watch_session : Dmov (watched H) := watch base.

Lemma safe_serve_flash v loc q :
  ready v → request_fits N v q → safe N v loc (serve_flash base tt_ polls uninit q) (λ _ v' _, same_flash v v').
Proof.
  intros Hr. destruct q; cbn [request_fits serve_flash].
  - intros _. by apply safe_flash_erase.
  - intros (? & ? & ?). by apply safe_flash_read_ext.
  - intros (? & ? & ? & ?). by apply safe_flash_write.
Qed.

Lemma safe_flash_session qs : ∀ v loc, ready v → safe N v loc (flash_session base tt_ polls uninit N qs) (λ _ v' _, ready v').
Proof.
  induction qs as [|q qs IH]; intros v loc Hr; cbn [flash_session]; [by apply safe_ret|]. apply safe_bind, safe_vars. apply safe_bind.
  case_bool_decide as Hf; [|by apply safe_ret, IH].
  eapply safe_mono; [by apply safe_serve_flash|]. intros r v' loc' Hs. apply IH. exact (same_ready v v' Hs Hr).
Qed.
End SessionSafe.

(** On any hardware that leaves objects in their places, whatever it answers and stores,
    the initialisation of the flash driver and every sequence of erase, read and write
    requests that fit the partition and the buffer access no object out of bounds and
    divide by nothing that is zero, and each command list handed to the data mover is
    safe: the pointers lead to it, it ends within its 1024 bytes, and all its transfers
    stay inside the flash controller and one object. *)
Theorem flash_lists_safe {H : Type} `{DmovSizes H} (base : area → Z) (tt_ : list Z) (polls : nat) (uninit N : Z) (loc : nat)
    (s : nand_state (watched H)) (qs : list flash_request) :
  layout_ok base N → (∀ a, 0 ≤ a < 2 ^ 32 → arm_mmu_virt2phy tt_ a = Ok a) →
  shape N loc (n_mem s) → w_safe (n_hw s) = true → interleaved_mode (n_vars s) = 0 →
  let '(r, s') := (@flash_init _ (watch base) base polls;; @flash_session _ (watch base) base tt_ polls uninit N qs) s in
  r ≠ NUndef ∧ w_safe (n_hw s') = true.
Proof.
  intros HL Htt Hm Hw Hi.
  assert (safe N (n_vars s) loc (@flash_init _ (watch base) base polls;; @flash_session _ (watch base) base tt_ polls uninit N qs)
    (λ _ v' _, ready v')) as Hs.
  { apply safe_bind. eapply safe_mono; [by apply safe_flash_init|]. intros r v' loc' Hr. by apply safe_flash_session. }
  specialize (Hs s (conj eq_refl (conj Hm Hw))). unfold nwp in Hs. match type of Hs with context [?m s] => destruct (m s) as [[u| | |] s'] end; [|done..].
  split; [done|]. by destruct Hs as (v' & loc' & (_ & _ & ?) & _).
Qed.

(** * Interleaved mode *)

Lemma il_read_open base cws addr spare n : Forall (λ d, flag (cmd d) CMD_LC = false) (il_read_codeword base cws addr spare n).
Proof.
  unfold il_read_codeword, il_mux, il_cmd, il_exec, il_status.
  destruct (n =? 0)%nat, (Z.of_nat n =? cws - 1), (n mod 2 =? 0)%nat; cbn [app negb];
    repeat first [ apply List.Forall_nil | apply List.Forall_cons; [reflexivity|] ].
Qed.

(** Writing operands in place succeeds and keeps the sizes. *)
Lemma put_data_runs {H : Type} (s : nand_state H) N loc k ws :
  shape N loc (n_mem s) → (4 + k + length ws ≤ PTR_WORDS)%nat →
  ∃ m, put_data k ws s = (NRet tt, mkNand (n_hw s) m (n_vars s)) ∧ shape N loc m.
Proof.
  intros Hm Hk. pose proof Hm as (_ & Hp & _). unfold put_data, put_words, mbind, nd_bind, mem, set_mem. rewrite Hp.
  rewrite (proj2 (Nat.leb_le _ _)) by done. eexists. split; [done|]. apply shape_set_ptrs; [done|]. rewrite length_splice; lia.
Qed.

(** With two interleaved controllers the lists are not safe: the list that reads a page
    has no transfer that is marked as the last one, so the data mover runs on behind it,
    and the list that writes a page of a 2 KB flash (two of its pages at a time) does not
    fit into its memory, so the write of any page overruns it. *)
Theorem interleaved_lists_unsafe {H : Type} `{Dmov H} (base : area → Z) (polls : nat) (cws addr spare page : Z) (raw : bool)
    (N : Z) (loc : nat) (s : nand_state H) :
  shape N loc (n_mem s) → flash_pagesize (n_vars s) = 2 * 2048 →
  Forall (λ d, flag (cmd d) CMD_LC = false) (il_read_page_list base cws addr spare) ∧
  (flash_nand_write_page_interleave base polls page addr spare raw s).1 = NUndef.
Proof.
  intros Hm Hp. split.
  - unfold il_read_page_list. apply Forall_app_2; [|repeat constructor; reflexivity].
    induction (seq 0 (Z.to_nat cws)) as [|n l IH]; cbn [flat_map]; [done|]. apply Forall_app_2; [apply il_read_open|done].
  - unfold flash_nand_write_page_interleave. unfold mbind at 1, nd_bind at 1, vars. rewrite Hp. change (Z.shiftr (2 * 2048) 9 * 2) with 16.
    set (c := config (n_vars s)). clearbody c. unfold mbind at 1, nd_bind at 1.
    edestruct (put_data_runs s N loc 0) as (m1 & -> & Hm1); [done|unfold PTR_WORDS; cbn; lia|]. unfold mbind at 1, nd_bind at 1.
    edestruct (put_data_runs (mkNand (n_hw s) m1 (n_vars s)) N loc 10) as (m2 & -> & Hm2); [done|unfold PTR_WORDS; cbn; lia|].
    unfold mbind at 1, nd_bind at 1. cbn [n_hw n_mem n_vars].
    edestruct (put_data_runs (mkNand (n_hw s) m2 (n_vars s)) N loc (il_result 0)) as (m3 & -> & Hm3); [done|unfold PTR_WORDS, il_result; rewrite length_replicate; lia|].
    pose proof Hm3 as (Hc & _). cbn [n_hw n_mem n_vars]. unfold exec_list, put_cmds, mbind, nd_bind, mem. cbn [n_mem]. rewrite Hc.
    assert (length (il_write_page_list base raw 16 addr spare) <=? CMD_SLOTS = false)%nat as -> by (destruct raw; vm_compute; done). done.
Qed.
