(* ===== verification/NandChip.v ===== *)
(** The documented flash controller with a NAND flash behind it, and the page operations of
    the driver on it.

    [chip] is the controller: its registers, its buffer of one code word and the flash.  A
    flash is good and bad blocks of pages that are erased, hold data with its spare bytes
    and their code, or are unreadable.  What the controller does is given by weakest
    preconditions: [exec_wp c Q] says that the command in the registers of [c] may be
    started and that [Q] holds of every state it can lead to: a page may fail to be
    programmed, any time.  [list_wp] is the data mover on a command list.  [Conforms] is
    the law for hardware: a list that is allowed ends in one of the states foreseen, after
    [slack] polls at most. *)
From Stdlib Require Import ZArith.
From stdpp Require Import base numbers list.
From S2P Require Import Prelude Bytes ArmMmu NandDriver NandSafe.

(** * The flash *)

Inductive pg := Erased | Data (bs : list Z) | Junk.
Record nand := mkNandFlash { pages : Z → pg; bad : Z → bool }.

Definition set_page (p : Z) (x : pg) (n : nand) : nand := mkNandFlash (λ q, if q =? p then x else pages n q) (bad n).
Definition erase_block (ppb b : Z) (n : nand) : nand := mkNandFlash (λ q, if q / ppb =? b then Erased else pages n q) (bad n).
Definition mark_bad (b : Z) (n : nand) : nand := mkNandFlash (pages n) (λ q, (q =? b) || bad n q).

(** Code words of a page, pages of a block, blocks; the width of the bus and the code. *)
Record format := mkFormat { f_cws : Z; f_ppb : Z; f_blocks : Z; f_wide : bool; f_bch : bool }.

Record chip := mkChip {
  r_cmd : Z; r_addr0 : Z; r_addr1 : Z; r_cfg0 : Z; r_cfg1 : Z; r_eccbuf : Z; r_status : Z;
  c_buf : list Z;       (* NAND_FLASH_BUFFER *)
  c_cw : nat;           (* code words done since the address was set *)
  c_got : list Z;       (* bytes taken over for programming *)
  c_ok : bool;          (* no failure so far *)
  c_flash : nand }.

Definition set_cmd (x : Z) (c : chip) : chip :=
  mkChip x (r_addr0 c) (r_addr1 c) (r_cfg0 c) (r_cfg1 c) (r_eccbuf c) (r_status c) (c_buf c) (c_cw c) (c_got c) (c_ok c) (c_flash c).
Definition set_addr0 (x : Z) (c : chip) : chip :=
  mkChip (r_cmd c) x (r_addr1 c) (r_cfg0 c) (r_cfg1 c) (r_eccbuf c) (r_status c) (c_buf c) 0 [] true (c_flash c).
Definition set_addr1 (x : Z) (c : chip) : chip :=
  mkChip (r_cmd c) (r_addr0 c) x (r_cfg0 c) (r_cfg1 c) (r_eccbuf c) (r_status c) (c_buf c) (c_cw c) (c_got c) (c_ok c) (c_flash c).
Definition set_cfg0 (x : Z) (c : chip) : chip :=
  mkChip (r_cmd c) (r_addr0 c) (r_addr1 c) x (r_cfg1 c) (r_eccbuf c) (r_status c) (c_buf c) (c_cw c) (c_got c) (c_ok c) (c_flash c).
Definition set_cfg1 (x : Z) (c : chip) : chip :=
  mkChip (r_cmd c) (r_addr0 c) (r_addr1 c) (r_cfg0 c) x (r_eccbuf c) (r_status c) (c_buf c) (c_cw c) (c_got c) (c_ok c) (c_flash c).
Definition set_eccbuf (x : Z) (c : chip) : chip :=
  mkChip (r_cmd c) (r_addr0 c) (r_addr1 c) (r_cfg0 c) (r_cfg1 c) x (r_status c) (c_buf c) (c_cw c) (c_got c) (c_ok c) (c_flash c).
Definition set_buf (b : list Z) (c : chip) : chip :=
  mkChip (r_cmd c) (r_addr0 c) (r_addr1 c) (r_cfg0 c) (r_cfg1 c) (r_eccbuf c) (r_status c) b (c_cw c) (c_got c) (c_ok c) (c_flash c).
(** After a command: status, buffer, progress and flash. *)
Definition after (st : Z) (b : list Z) (k : nat) (got : list Z) (ok : bool) (n : nand) (c : chip) : chip :=
  mkChip (r_cmd c) (r_addr0 c) (r_addr1 c) (r_cfg0 c) (r_cfg1 c) (r_eccbuf c) st b k got ok n.

Definition BUF_SIZE : nat := 532.

Section Chip.
Context (f : format).

Definition cw_size : Z := if f_bch f then 532 else 528.
(** Where the mark of a bad block is in the last code word. *)
Definition mark_at : nat := Z.to_nat (f_cws f * 512 - cw_size * (f_cws f - 1)).
Definition last_column : Z := (if f_wide f then Z.shiftr (cw_size * (f_cws f - 1)) 1 else cw_size * (f_cws f - 1)).

(** Fields of CFG0: code words of a page less one, user bytes of a code word. *)
Definition cfg_cws (c : chip) : Z := Z.land (Z.shiftr (r_cfg0 c) 6) 7.
Definition cfg_user (c : chip) : Z := Z.land (Z.shiftr (r_cfg0 c) 9) 1023.
Definition cfg_ecc (c : chip) : bool := negb (Z.testbit (r_cfg1 c) 0).

Definition addr_page (c : chip) : Z := Z.shiftr (r_addr0 c) 16 + Z.shiftl (r_addr1 c) 16.
Definition addr_column (c : chip) : Z := Z.land (r_addr0 c) 0xffff.

Definition page_ok (p : Z) : Prop := 0 ≤ p < f_blocks f * f_ppb f.
Definition block_of (p : Z) : Z := p / f_ppb f.

(** The mark in a code word: 0xFF, or two of them, for a good block. *)
Definition marked (b : list Z) : bool :=
  negb (nth mark_at b 0 =? 0xFF) || f_wide f && negb (nth (S mark_at) b 0 =? 0xFF).

Definition succeeded (st : Z) : bool := negb (flag st 0x110) && flag st 0x80.

(** The next code word of a page that holds data. *)
Definition read_ecc_wp (c : chip) (Q : chip → Prop) : Prop :=
  let p := addr_page c in
  match pages (c_flash c) p with
  | Data bs =>
      page_ok p ∧ bad (c_flash c) (block_of p) = false ∧ addr_column c = 0 ∧ cfg_cws c = f_cws f - 1 ∧ cfg_user c = 516 ∧
      cfg_ecc c = true ∧ r_eccbuf c = 0x203 ∧ Z.of_nat (c_cw c) < f_cws f ∧
      ∀ st rest, flag st 0x110 = false → length rest = 16%nat →
        Q (after st (take 516 (drop (516 * c_cw c) bs) ++ rest) (S (c_cw c)) (c_got c) (c_ok c) (c_flash c) c)
  | _ => False
  end.

(** The last code word of a page as it is: the first page of a block carries the mark. *)
Definition read_raw_wp (c : chip) (Q : chip → Prop) : Prop :=
  let p := addr_page c in
  page_ok p ∧ p mod f_ppb f = 0 ∧ addr_column c = last_column ∧ cfg_cws c = 0 ∧ cfg_ecc c = false ∧
  ∀ st b, flag st 0x110 = false → length b = BUF_SIZE → marked b = bad (c_flash c) (block_of p) →
    Q (after st b (S (c_cw c)) (c_got c) (c_ok c) (c_flash c) c).

(** A code word is taken over; behind the last one the page is programmed, or not. *)
Definition program_wp (c : chip) (Q : chip → Prop) : Prop :=
  let p := addr_page c in
  let last := Z.of_nat (c_cw c) =? f_cws f - 1 in
  page_ok p ∧ addr_column c = 0 ∧ cfg_cws c = f_cws f - 1 ∧ Z.of_nat (c_cw c) < f_cws f ∧
  if cfg_ecc c then
    cfg_user c = 516 ∧ r_eccbuf c = 0x203 ∧ bad (c_flash c) (block_of p) = false ∧ (c_cw c = 0%nat → pages (c_flash c) p = Erased) ∧
    ∀ st,
      let ok := c_ok c && succeeded st in
      let got := c_got c ++ take 516 (c_buf c) in
      Q (after st (c_buf c) (S (c_cw c)) got ok (set_page p (if last && ok then Data got else Junk) (c_flash c)) c)
  else
    p mod f_ppb f = 0 ∧
    ∀ st,
      let n := set_page p Junk (c_flash c) in
      Q (after st (c_buf c) (S (c_cw c)) (c_got c) (c_ok c)
           (if last && (nth mark_at (c_buf c) 0 =? 0) && (nth (S mark_at) (c_buf c) 0 =? 0) then mark_bad (block_of p) n else n) c).

(** A block that is not marked can be erased. *)
Definition erase_wp (c : chip) (Q : chip → Prop) : Prop :=
  let p := r_addr0 c in
  page_ok p ∧ r_addr1 c = 0 ∧ p mod f_ppb f = 0 ∧ cfg_cws c = 0 ∧ bad (c_flash c) (block_of p) = false ∧
  ∀ st, succeeded st = true → Q (after st (c_buf c) (c_cw c) (c_got c) (c_ok c) (erase_block (f_ppb f) (block_of p) (c_flash c)) c).

Definition exec_wp (c : chip) (Q : chip → Prop) : Prop :=
  if r_cmd c =? NAND_CMD_PAGE_READ_ECC then read_ecc_wp c Q
  else if r_cmd c =? NAND_CMD_PAGE_READ then read_raw_wp c Q
  else if r_cmd c =? NAND_CMD_PRG_PAGE then program_wp c Q
  else if r_cmd c =? NAND_CMD_BLOCK_ERASE then erase_wp c Q
  else False.

(** * Registers *)

Definition write_reg (r x : Z) (Q : chip → Prop) (c : chip) : Prop :=
  if r =? NAND_FLASH_CMD then Q (set_cmd x c)
  else if r =? NAND_ADDR0 then Q (set_addr0 x c)
  else if r =? NAND_ADDR1 then Q (set_addr1 x c)
  else if r =? NAND_FLASH_CHIP_SELECT then x = 4 ∧ Q c
  else if r =? NAND_EXEC_CMD then x = 1 ∧ exec_wp c Q
  else if r =? NAND_DEV0_CFG0 then Q (set_cfg0 x c)
  else if r =? NAND_DEV0_CFG1 then Q (set_cfg1 x c)
  else if r =? NAND_DEV0_CFG1 + 4 then f_bch f = true ∧ Q c      (* the BCH configuration *)
  else if r =? NAND_EBI2_ECC_BUF_CFG then Q (set_eccbuf x c)
  else if (r =? NAND_FLASH_STATUS) || (r =? NAND_READ_STATUS) then Q c   (* clears bits *)
  else False.

Definition read_reg (r : Z) (Q : Z → chip → Prop) (c : chip) : Prop :=
  if r =? NAND_FLASH_STATUS then Q (r_status c) c
  else if r =? NAND_FLASH_STATUS + 4 then ∀ x, Q x c             (* NAND_BUFFER_STATUS *)
  else if r =? NAND_EBI2_ECC_BUF_CFG then Q (r_eccbuf c) c
  else False.

Fixpoint write_regs (r : Z) (ws : list Z) (Q : chip → Prop) (c : chip) : Prop :=
  match ws with
  | [] => Q c
  | w :: ws => write_reg r w (write_regs (r + 4) ws Q) c
  end.

Fixpoint read_regs (r : Z) (n : nat) (Q : list Z → chip → Prop) (c : chip) : Prop :=
  match n with
  | O => Q [] c
  | S n => read_reg r (λ x, read_regs (r + 4) n (λ xs, Q (x :: xs))) c
  end.

(** * The data mover *)

Definition splice {A} (l : list A) (k : nat) (xs : list A) : list A := take k l ++ xs ++ drop (k + length xs) l.

(** The command register is written when the controller is ready for a command, and the
    status read when it is done with one. *)
Definition synchronised (d : dmov_s) : Prop :=
  (dst d = NAND_FLASH_CMD → Z.land (cmd d) DST_CRCI_NAND_CMD = DST_CRCI_NAND_CMD) ∧
  (src d = NAND_FLASH_STATUS → Z.land (cmd d) SRC_CRCI_NAND_DATA = SRC_CRCI_NAND_DATA).

Definition is_reg (a : Z) : bool := (MSM_NAND_BASE <=? a) && (a <? NAND_FLASH_BUFFER).
Definition is_buf (a n : Z) : bool := (NAND_FLASH_BUFFER <=? a) && (a + n <=? NAND_FLASH_BUFFER + Z.of_nat BUF_SIZE).
Definition buf_at (a : Z) : nat := Z.to_nat (a - NAND_FLASH_BUFFER).

Section Mover.
Context (base : area → Z).

Definition transfer_wp (d : dmov_s) (Q : chip * memory → Prop) (x : chip * memory) : Prop :=
  let '(c, m) := x in
  let n := Z.to_nat (len d / 4) in
  synchronised d ∧ 0 < len d ∧ len d mod 4 = 0 ∧
  if is_reg (dst d) then
    match find_area base m (src d) with
    | Some (Ptrs, off) =>
        off mod 4 = 0 ∧ off + len d ≤ size_of m Ptrs ∧
        write_regs (dst d) (take n (drop (Z.to_nat (off / 4)) (m_ptrs m))) (λ c', Q (c', m)) c
    | _ => False
    end
  else if is_reg (src d) then
    match find_area base m (dst d) with
    | Some (Ptrs, off) =>
        off mod 4 = 0 ∧ off + len d ≤ size_of m Ptrs ∧
        read_regs (src d) n (λ xs c', Q (c', set_m_ptrs (splice (m_ptrs m) (Z.to_nat (off / 4)) xs) m)) c
    | _ => False
    end
  else if is_buf (dst d) (len d) then
    match find_area base m (src d) with
    | Some (a, off) =>
        match slice (bytes_in m a) off (Z.to_nat (len d)) with
        | Ok bs => Q (set_buf (splice (c_buf c) (buf_at (dst d)) bs) c, m)
        | _ => False
        end
    | None => False
    end
  else if is_buf (src d) (len d) then
    match find_area base m (dst d) with
    | Some (a, off) =>
        match store (bytes_in m a) off (take (Z.to_nat (len d)) (drop (buf_at (src d)) (c_buf c))) with
        | Ok b => Q (c, set_bytes a b m)
        | _ => False
        end
    | None => False
    end
  else False.

Fixpoint list_wp (l : list dmov_s) (Q : chip * memory → Prop) (x : chip * memory) : Prop :=
  match l with
  | [] => False
  | d :: l => transfer_wp d (λ y, if flag (cmd d) CMD_LC then Q y else list_wp l Q y) x
  end.

(** * Hardware that conforms *)

(** The data mover is idle; works on a list for [n] more polls at most, to reach one of the
    states [Q]; is done, with [k] results to be read. *)
Inductive phase :=
  | Idle (c : chip)
  | Busy (n : nat) (Q : chip * memory → Prop)
  | Results (k : nat) (c : chip).

Class Conforms {H : Type} `{Dmov H} (slack : nat) (R : H → memory → phase → Prop) : Prop := {
  (* memory belongs to the processor while the mover is idle *)
  idle_any h m m' c : R h m (Idle c) → R h m' (Idle c);
  write_config h m c x : R h m (Idle c) →
    let '(h', m') := dm_write (DMOV_CONFIG DMOV_NAND_CHAN) x h m in m' = m ∧ R h' m' (Idle c);
  write_pointer h m c Q x : R h m (Idle c) →
    x = Z.lor DMOV_CMD_PTR_LIST (Z.shiftr (base Ptrs) 3) → head (m_ptrs m) = Some (Z.lor (Z.shiftr (base Cmds) 3) CMD_PTR_LP) →
    list_wp (m_cmds m) Q (c, m) →
    let '(h', m') := dm_write (DMOV_CMD_PTR DMOV_NAND_CHAN) x h m in R h' m' (Busy slack Q);
  read_busy h m n Q : R h m (Busy n Q) →
    let '(v, h', m') := dm_read (DMOV_STATUS DMOV_NAND_CHAN) h m in
    (flag v DMOV_STATUS_RSLT_VALID = false ∧ ∃ n', n = S n' ∧ R h' m' (Busy n' Q)) ∨
    (flag v DMOV_STATUS_RSLT_VALID = true ∧ ∃ c k, Q (c, m') ∧ (k ≤ slack)%nat ∧ R h' m' (Results k c));
  read_results h m k c : R h m (Results k c) →
    let '(v, h', m') := dm_read (DMOV_STATUS DMOV_NAND_CHAN) h m in
    m' = m ∧ ((DMOV_STATUS_RSLT_COUNT v =? 0) = (k =? 0)%nat) ∧ R h' m' (if (k =? 0)%nat then Idle c else Results k c);
  read_result h m k c : R h m (Results (S k) c) →
    let '(v, h', m') := dm_read (DMOV_RSLT DMOV_NAND_CHAN) h m in m' = m ∧ v = 0x80000002 ∧ R h' m' (Results k c);
}.
End Mover.
End Chip.
