(* ===== verification/NandPages.v ===== *)
(** The page operations of the flash driver on hardware that conforms: reading, writing and
    erasing, the test for a bad block and the mark, each with its effect on the flash. *)
From Stdlib Require Import ZArith.
From stdpp Require Import base numbers list.
From S2P Require Import Prelude Bytes ArmMmu NandDriver NandSafe NandChip.

(** * Operands *)

(** The words of struct data_flash_io, behind the pointer list. *)
Definition IO_WORDS : nat := 28.
Definition data_words (m : memory) : list Z := take IO_WORDS (drop 4 (m_ptrs m)).
Definition same_bytes (m m' : memory) : Prop :=
  m_spare m' = m_spare m ∧ m_empty m' = m_empty m ∧ m_local m' = m_local m ∧ m_image m' = m_image m.

Lemma length_splice_in {A} (l : list A) k xs : (k + length xs ≤ length l)%nat → length (splice l k xs) = length l.
Proof. apply length_splice. Qed.

Lemma splice_drop_take {A} (l : list A) d n k xs :
  (k + length xs ≤ n)%nat → (d + n ≤ length l)%nat →
  take n (drop d (splice l (d + k) xs)) = splice (take n (drop d l)) k xs.
Proof.
  intros Hk Hn. apply list_eq. intros i. unfold splice. destruct (decide (i < n)%nat) as [Hi|Hi].
  - rewrite lookup_take_lt, lookup_drop by done. destruct (decide (i < k)%nat) as [H1|H1].
    + rewrite !lookup_app_l by (rewrite length_take, ?length_take, ?length_drop; lia).
      by rewrite !lookup_take_lt, lookup_drop by lia.
    + destruct (decide (i < k + length xs)%nat) as [H2|H2].
      * rewrite !(lookup_app_r (take _ _)) by (rewrite length_take, ?length_take, ?length_drop; lia).
        rewrite !length_take, length_drop, !lookup_app_l by lia. f_equal. lia.
      * rewrite !(lookup_app_r (take _ _)) by (rewrite length_take, ?length_take, ?length_drop; lia).
        rewrite !length_take, length_drop, !lookup_app_r by lia. rewrite !lookup_drop, lookup_take_lt, lookup_drop by lia. f_equal. lia.
  - rewrite lookup_take_ge by lia. symmetry. apply lookup_ge_None_2.
    rewrite !length_app, !length_take, !length_drop, length_take, length_drop. lia.
Qed.

Lemma take_drop_words {A} (l : list A) d n k j : (k + j ≤ n)%nat → take j (drop k (take n (drop d l))) = take j (drop (d + k) l).
Proof.
  intros Hk. rewrite skipn_firstn_comm, take_take, drop_drop. f_equal. lia.
Qed.

Lemma take_splice_before {A} (l : list A) k xs n : (n ≤ k)%nat → (k ≤ length l)%nat → take n (splice l k xs) = take n l.
Proof. intros Hn Hk. unfold splice. rewrite take_app_le by (rewrite length_take; lia). rewrite take_take. f_equal. lia. Qed.

(** * Data mover *)

Section Transfers.
Context (f : format) (base : area → Z) (N : Z) (HL : layout_ok base N).
#[local] Notation transfer_wp := (transfer_wp f base).
#[local] Notation list_wp := (list_wp f base).

Lemma exec_wp_mono (P P' : chip → Prop) c : (∀ c, P c → P' c) → exec_wp f c P → exec_wp f c P'.
Proof.
  intros HP. unfold exec_wp, read_ecc_wp, read_raw_wp, program_wp, erase_wp. repeat case_match; try done;
    intros; destruct_and?; split_and!; auto.
Qed.

Lemma write_reg_mono r x (P P' : chip → Prop) c : (∀ c, P c → P' c) → write_reg f r x P c → write_reg f r x P' c.
Proof.
  intros HP. unfold write_reg. repeat case_match; try done; auto; intros [? ?]; split; auto. by eapply exec_wp_mono.
Qed.

Lemma write_regs_mono r ws (P P' : chip → Prop) c : (∀ c, P c → P' c) → write_regs f r ws P c → write_regs f r ws P' c.
Proof.
  intros HP. revert r c. induction ws as [|w ws IH]; intros r c; cbn [write_regs]; [auto|]. apply write_reg_mono. auto.
Qed.

Lemma read_regs_mono r n : ∀ (P P' : list Z → chip → Prop) c, (∀ l c, P l c → P' l c) → read_regs r n P c → read_regs r n P' c.
Proof.
  revert r. induction n as [|n IH]; intros r P P' c HP; cbn [read_regs]; [auto|]. unfold read_reg.
  repeat case_match; try done; intros Hr; [|intros x; specialize (Hr x)|]; (eapply IH; [|exact Hr]); cbn beta; auto.
Qed.

Lemma transfer_wp_mono d (P P' : chip * memory → Prop) x : (∀ y, P y → P' y) → transfer_wp d P x → transfer_wp d P' x.
Proof.
  intros HP. destruct x as [c m]. unfold NandChip.transfer_wp. intros (? & ? & ? & Ht). split_and!; [done..|]. revert Ht.
  repeat case_match; try done; auto; intros (? & ? & Ht); (split_and!; [done..|]); revert Ht;
    [apply write_regs_mono|apply read_regs_mono]; auto.
Qed.

Lemma list_wp_app l l' Q x : list_wp l Q x → list_wp (l ++ l') Q x.
Proof.
  revert x. induction l as [|d l IH]; intros x; [done|]. cbn [app NandChip.list_wp]. apply transfer_wp_mono.
  intros y. destruct (flag _ _); auto.
Qed.

(** ** Transfers, by their kind *)

Lemma find_operand loc m k : shape N loc m → (4 + k < PTR_WORDS)%nat → find_area base m (data_at base k) = Some (Ptrs, 4 * Z.of_nat (4 + k)).
Proof.
  intros Hm Hk. unfold data_at. apply (find_area_at base N loc); [done|done|]. rewrite (shape_size N loc) by done. cbn [room]. unfold PTR_WORDS in Hk. lia.
Qed.

(** A register is not a range of memory: the kind of a transfer is decided by its addresses. *)
Lemma ram_not_reg a x n : 0 < n → base a ≤ x → x + n ≤ base a + room N a → is_reg x = false ∧ is_buf x n = false.
Proof.
  intros Hn Hx Hs. unfold is_reg, is_buf, NAND_FLASH_BUFFER, NAND_REG, BUF_SIZE. pose proof (base_ram _ _ HL a) as Hr. unfold NAND_WINDOW in Hr.
  split; apply andb_false_iff; destruct Hr; (left; apply Z.leb_gt; lia) || (right; first [apply Z.ltb_ge|apply Z.leb_gt]; lia).
Qed.

(** Operands to registers. *)
Lemma write_operands loc m c fl k r n ws Q :
  shape N loc m → data_words m = ws → (0 < n)%nat → (k + n ≤ IO_WORDS)%nat → is_reg r = true →
  (r = NAND_FLASH_CMD → Z.land fl DST_CRCI_NAND_CMD = DST_CRCI_NAND_CMD) →
  write_regs f r (take n (drop k ws)) (λ c', Q (c', m)) c → transfer_wp (mkDmov fl (data_at base k) r (4 * Z.of_nat n)) Q (c, m).
Proof.
  intros Hm <- Hn Hk Hr Hf Hw. unfold NandChip.transfer_wp. cbn [cmd src dst len]. unfold IO_WORDS in *.
  assert (data_at base k = base Ptrs + 4 * Z.of_nat (4 + k)) as Hd by done.
  destruct (ram_not_reg Ptrs (data_at base k) 4) as [Hnr _]; [lia|lia|rewrite Hd; cbn [room]; lia|].
  split_and!; [split; [done|cbn [src cmd]; intros E; rewrite E in Hnr; done]|lia|rewrite Z.mul_comm; by apply Z.mod_mul|].
  rewrite Hr, (find_operand loc) by (done || unfold PTR_WORDS; lia). split_and!.
  - rewrite Z.mul_comm. by apply Z.mod_mul.
  - rewrite (shape_size N loc) by done. cbn [room]. lia.
  - rewrite !(Z.mul_comm 4), !Z.div_mul, !Nat2Z.id by done. unfold data_words in Hw. by rewrite take_drop_words in Hw by (unfold IO_WORDS; lia).
Qed.

Lemma shape_ptrs_length loc m : shape N loc m → length (m_ptrs m) = PTR_WORDS.
Proof. by intros (_ & ? & _). Qed.

(** Registers to operands. *)
Lemma read_operands loc m c fl k r n ws Q :
  shape N loc m → data_words m = ws → (0 < n)%nat → (k + n ≤ IO_WORDS)%nat → is_reg r = true →
  (r = NAND_FLASH_STATUS → Z.land fl SRC_CRCI_NAND_DATA = SRC_CRCI_NAND_DATA) →
  read_regs r n (λ xs c', length xs = n ∧ ∀ m', shape N loc m' → data_words m' = splice ws k xs → same_bytes m m' → Q (c', m')) c →
  transfer_wp (mkDmov fl r (data_at base k) (4 * Z.of_nat n)) Q (c, m).
Proof.
  intros Hm <- Hn Hk Hr Hf Hw. unfold NandChip.transfer_wp. cbn [cmd src dst len]. unfold IO_WORDS in *.
  assert (data_at base k = base Ptrs + 4 * Z.of_nat (4 + k)) as Hd by done.
  destruct (ram_not_reg Ptrs (data_at base k) 4) as [Hnr _]; [lia|lia|rewrite Hd; cbn [room]; lia|].
  split_and!; [split; [cbn [dst cmd]; intros E; rewrite E in Hnr; done|done]|lia|rewrite Z.mul_comm; by apply Z.mod_mul|].
  rewrite Hnr, Hr, (find_operand loc) by (done || unfold PTR_WORDS; lia). split_and!.
  - rewrite Z.mul_comm. by apply Z.mod_mul.
  - rewrite (shape_size N loc) by done. cbn [room]. lia.
  - rewrite !(Z.mul_comm 4), !Z.div_mul, !Nat2Z.id by done. eapply read_regs_mono; [|exact Hw]. cbn beta.
    intros xs c' [Hxs HQ]. pose proof (shape_ptrs_length loc m Hm) as Hp. unfold PTR_WORDS in Hp. apply HQ; [| |done].
    + apply shape_set_ptrs; [done|]. rewrite length_splice_in by lia. exact Hp.
    + unfold data_words. cbn [m_ptrs set_m_ptrs]. rewrite splice_drop_take by (unfold IO_WORDS; lia). done.
Qed.

(** Bytes of an object to the buffer, and back. *)
Lemma write_buffer loc m c fl a off o n bs Q :
  shape N loc m → 0 ≤ off → off + Z.of_nat n ≤ size_of m a → (0 < n)%nat → (o + n ≤ BUF_SIZE)%nat → Z.of_nat n mod 4 = 0 →
  slice (bytes_in m a) off n = Ok bs → Q (set_buf (splice (c_buf c) o bs) c, m) →
  transfer_wp (mkDmov fl (base a + off) (NAND_FLASH_BUFFER + Z.of_nat o) (Z.of_nat n)) Q (c, m).
Proof.
  intros Hm Ho Hs Hn Hb H4 Hsl HQ. unfold NandChip.transfer_wp. cbn [cmd src dst len]. pose proof (shape_size_le N loc m a Hm).
  destruct (ram_not_reg a (base a + off) (Z.of_nat n)) as [Hnr Hnb]; [lia..|].
  assert (is_reg (NAND_FLASH_BUFFER + Z.of_nat o) = false) as Hr by (apply andb_false_iff; right; apply Z.ltb_ge; lia).
  split_and!; [split; cbn [src dst cmd]|lia|done|].
  - intros E. exfalso. unfold NAND_FLASH_BUFFER, NAND_FLASH_CMD, NAND_REG in E. lia.
  - intros E. by rewrite E in Hnr.
  - rewrite Hr, Hnr. assert (is_buf (NAND_FLASH_BUFFER + Z.of_nat o) (Z.of_nat n) = true) as ->.
    { apply andb_true_intro. split; apply Z.leb_le; unfold BUF_SIZE in *; lia. }
    rewrite (find_area_at base N loc) by (done || lia). rewrite Nat2Z.id, Hsl. unfold buf_at.
    replace (Z.to_nat (NAND_FLASH_BUFFER + Z.of_nat o - NAND_FLASH_BUFFER)) with o by lia. done.
Qed.

Lemma read_buffer loc m c fl a off o n b Q :
  shape N loc m → a ≠ Ptrs → a ≠ Cmds → 0 ≤ off → off + Z.of_nat n ≤ size_of m a → (0 < n)%nat → (o + n ≤ BUF_SIZE)%nat → Z.of_nat n mod 4 = 0 →
  store (bytes_in m a) off (take n (drop o (c_buf c))) = Ok b → Q (c, set_bytes a b m) →
  transfer_wp (mkDmov fl (NAND_FLASH_BUFFER + Z.of_nat o) (base a + off) (Z.of_nat n)) Q (c, m).
Proof.
  intros Hm Hp Hc Ho Hs Hn Hb H4 Hst HQ. unfold NandChip.transfer_wp. cbn [cmd src dst len]. pose proof (shape_size_le N loc m a Hm).
  destruct (ram_not_reg a (base a + off) (Z.of_nat n)) as [Hnr Hnb]; [lia..|].
  assert (is_reg (NAND_FLASH_BUFFER + Z.of_nat o) = false) as Hr by (apply andb_false_iff; right; apply Z.ltb_ge; lia).
  split_and!; [split; cbn [src dst cmd]|lia|done|].
  - intros E. by rewrite E in Hnr.
  - intros E. exfalso. unfold NAND_FLASH_BUFFER, NAND_FLASH_STATUS, NAND_REG in E. lia.
  - rewrite Hr, Hnr, Hnb. assert (is_buf (NAND_FLASH_BUFFER + Z.of_nat o) (Z.of_nat n) = true) as ->.
    { apply andb_true_intro. split; apply Z.leb_le; unfold BUF_SIZE in *; lia. }
    rewrite (find_area_at base N loc) by (done || lia). unfold buf_at.
    replace (Z.to_nat (NAND_FLASH_BUFFER + Z.of_nat o - NAND_FLASH_BUFFER)) with o by lia. by rewrite Nat2Z.id, Hst.
Qed.
End Transfers.

Lemma words_28 (ws : list Z) : length ws = IO_WORDS →
  ∃ x0 x1 x2 x3 x4 x5 x6 x7 x8 x9 x10 x11 x12 x13 x14 x15 x16 x17 x18 x19 x20 x21 x22 x23 x24 x25 x26 x27,
    ws = [x0; x1; x2; x3; x4; x5; x6; x7; x8; x9; x10; x11; x12; x13; x14; x15; x16; x17; x18; x19; x20; x21; x22; x23; x24; x25; x26; x27].
Proof.
  intros Hl. do 28 (destruct ws as [|? ws]; [done|]). destruct ws; [|done]. by repeat eexists.
Qed.

(** The operands, element by element. *)
Ltac explicit ws Hws := destruct (words_28 ws Hws) as
  (?x0 & ?x1 & ?x2 & ?x3 & ?x4 & ?x5 & ?x6 & ?x7 & ?x8 & ?x9 & ?x10 & ?x11 & ?x12 & ?x13 & ?x14 & ?x15 & ?x16 & ?x17 & ?x18 & ?x19 &
   ?x20 & ?x21 & ?x22 & ?x23 & ?x24 & ?x25 & ?x26 & ?x27 & ->).
Ltac spliced := cbv [splice take drop app length Nat.add].

(** * Runs of the driver *)

(** The driver polls long enough for the hardware. *)
Definition patient (slack polls : nat) : Prop := (slack < polls)%nat.

Section Runs.
Context {H : Type} `{Dmov H} (f : format) (base : area → Z) (N : Z) (HL : layout_ok base N) (slack : nat).
Context (R : H → memory → phase → Prop) `{!Conforms f base slack R} (polls : nat) (Hpolls : patient slack polls) (uninit : Z).
#[local] Notation M := (nd H).

Definition here (c : chip) (m : memory) (v : nand_vars) (s : nand_state H) : Prop :=
  n_mem s = m ∧ n_vars s = v ∧ R (n_hw s) m (Idle c).

(** From this chip, memory and variables, [p] returns with [Φ]. *)
Definition runs {A} (c : chip) (m : memory) (v : nand_vars) (p : M A) (Φ : A → chip → memory → nand_vars → Prop) : Prop :=
  ∀ s, here c m v s → nwp p (λ a s', ∃ c' m' v', here c' m' v' s' ∧ Φ a c' m' v') (λ _, False) s.

Lemma nruns_ret {A} c m v (a : A) (Φ : A → chip → memory → nand_vars → Prop) : Φ a c m v → runs c m v (mret a) Φ.
Proof. intros HΦ s Hs. apply nwp_ret. eauto 6. Qed.

Lemma nruns_bind {A B} c m v (p : M A) (g : A → M B) (Φ : B → chip → memory → nand_vars → Prop) :
  runs c m v p (λ a c' m' v', runs c' m' v' (g a) Φ) → runs c m v (p ≫= g) Φ.
Proof.
  intros Hp s Hs. apply nwp_bind. eapply nwp_mono; [exact (Hp s Hs)| |done]. intros a s' (c' & m' & v' & Hs' & Hg). exact (Hg s' Hs').
Qed.

Lemma nruns_mono {A} c m v (p : M A) (Φ Ψ : A → chip → memory → nand_vars → Prop) :
  runs c m v p Φ → (∀ a c' m' v', Φ a c' m' v' → Ψ a c' m' v') → runs c m v p Ψ.
Proof. intros Hp HΨ s Hs. eapply nwp_mono; [exact (Hp s Hs)| |done]. intros a s' (c' & m' & v' & Hs' & Ha). eauto 8. Qed.

Lemma runs_vars c m v (Φ : nand_vars → chip → memory → nand_vars → Prop) : Φ v c m v → runs c m v vars Φ.
Proof. intros HΦ s (Hm & Hv & Hr). exists c, m, v. split; [done|]. by rewrite <- Hv in *. Qed.

Lemma runs_set_vars c m v v' (Φ : unit → chip → memory → nand_vars → Prop) : Φ tt c m v' → runs c m v (set_vars v') Φ.
Proof. intros HΦ s (Hm & Hv & Hr). by exists c, m, v'. Qed.

Lemma runs_mem c m v (Φ : memory → chip → memory → nand_vars → Prop) : Φ m c m v → runs c m v mem Φ.
Proof. intros HΦ s (Hm & Hv & Hr). exists c, m, v. split; [done|]. by rewrite <- Hm in *. Qed.

Lemma runs_set_mem c m v m' (Φ : unit → chip → memory → nand_vars → Prop) : Φ tt c m' v → runs c m v (set_mem m') Φ.
Proof. intros HΦ s (Hm & Hv & Hr). exists c, m', v. split; [|done]. split_and!; [done..|]. by eapply (idle_any f base). Qed.

Lemma runs_ok {A} c m v (r : res A) a (Φ : A → chip → memory → nand_vars → Prop) : r = Ok a → Φ a c m v → runs c m v (of_res r) Φ.
Proof. intros ->. apply nruns_ret. Qed.

Lemma runs_udiv c m v a b (Φ : Z → chip → memory → nand_vars → Prop) : b ≠ 0 → Φ (a / b) c m v → runs c m v (udiv a b) Φ.
Proof. intros Hb HΦ. unfold udiv. rewrite (proj2 (Z.eqb_neq _ _) Hb). by apply nruns_ret. Qed.

(** Memory of the right shape with operands [ws] and the bytes of [m0]. *)
Definition operands (loc : nat) (ws : list Z) (m0 m : memory) : Prop :=
  shape N loc m ∧ data_words m = ws ∧ same_bytes m0 m.

Lemma same_bytes_trans m1 m2 m3 : same_bytes m1 m2 → same_bytes m2 m3 → same_bytes m1 m3.
Proof. unfold same_bytes. intuition congruence. Qed.

Lemma runs_put_data c m v k xs ws loc m0 (Φ : unit → chip → memory → nand_vars → Prop) :
  operands loc ws m0 m → (k + length xs ≤ IO_WORDS)%nat →
  (∀ m', operands loc (splice ws k xs) m0 m' → Φ tt c m' v) → runs c m v (put_data k xs) Φ.
Proof.
  intros (Hm & Hw & Hb) Hk HΦ. pose proof (shape_ptrs_length N loc m Hm) as Hp. unfold IO_WORDS, PTR_WORDS in *.
  unfold put_data, put_words. apply nruns_bind, runs_mem. rewrite Hp. rewrite (proj2 (Nat.leb_le _ _)) by lia.
  apply runs_set_mem, HΦ. split_and!.
  - apply shape_set_ptrs; [done|]. rewrite length_splice by lia. done.
  - subst ws. unfold data_words. cbn [m_ptrs set_m_ptrs]. apply (splice_drop_take (m_ptrs m) 4 IO_WORDS k xs); unfold IO_WORDS; lia.
  - by eapply same_bytes_trans.
Qed.

Lemma runs_get_data c m v k w ws loc m0 (Φ : Z → chip → memory → nand_vars → Prop) :
  operands loc ws m0 m → ws !! k = Some w → Φ w c m v → runs c m v (get_data k) Φ.
Proof.
  intros (Hm & Hw & Hb) Hk HΦ. unfold get_data, get_word. apply nruns_bind, runs_mem. apply (runs_ok _ _ _ _ w); [|done].
  subst ws. unfold data_words in Hk. pose proof (lookup_lt_Some _ _ _ Hk) as Hl. rewrite length_take in Hl.
  rewrite lookup_take_lt, lookup_drop in Hk by lia. by rewrite Hk.
Qed.

(** ** Lists *)

Lemma runs_wait n fuel Q v s (Φ : unit → chip → memory → nand_vars → Prop) (k : M unit) :
  (n < fuel)%nat → n_vars s = v → R (n_hw s) (n_mem s) (Busy n Q) →
  (∀ s' c r, n_vars s' = v → Q (c, n_mem s') → (r ≤ slack)%nat → R (n_hw s') (n_mem s') (Results r c) →
     nwp k (λ a s', ∃ c' m' v', here c' m' v' s' ∧ Φ a c' m' v') (λ _, False) s') →
  nwp (wait_result fuel;; k) (λ a s', ∃ c' m' v', here c' m' v' s' ∧ Φ a c' m' v') (λ _, False) s.
Proof.
  intros Hn Hv Hr Hk. apply nwp_bind. revert n s Hn Hv Hr. induction fuel as [|fuel IH]; intros n s Hn Hv Hr; [lia|].
  cbn [wait_result]. apply nwp_bind. unfold nwp at 1, readl. pose proof (read_busy f base (n_hw s) (n_mem s) n Q Hr) as Hb.
  destruct (dm_read (DMOV_STATUS DMOV_NAND_CHAN) (n_hw s) (n_mem s)) as [[x h] m].
  destruct Hb as [(-> & n' & -> & Hr')|(-> & c & r & HQ & Hrs & Hr')].
  - apply (IH n'); [lia|done|done].
  - apply nwp_ret. by apply (Hk _ c r).
Qed.

Lemma runs_drain k c v s fuel x :
  (k < fuel)%nat → n_vars s = v → ((DMOV_STATUS_RSLT_COUNT x =? 0) = (k =? 0)%nat) →
  R (n_hw s) (n_mem s) (if (k =? 0)%nat then Idle c else Results k c) →
  nwp (drain_results fuel x) (λ _ s', here c (n_mem s) v s') (λ _, False) s.
Proof.
  revert k s x. induction fuel as [|fuel IH]; intros k s x Hk Hv Hx Hr; [lia|]. cbn [drain_results]. rewrite Hx.
  destruct k as [|k]; cbn [Nat.eqb] in *; [by apply nwp_ret|]. apply nwp_bind. unfold nwp at 1, readl.
  pose proof (read_result f base (n_hw s) (n_mem s) k c Hr) as Hres.
  destruct (dm_read (DMOV_RSLT DMOV_NAND_CHAN) (n_hw s) (n_mem s)) as [[y h] m]. destruct Hres as (-> & -> & Hr').
  change (negb (2147483650 =? 2147483650)) with false. cbn iota. apply nwp_bind, nwp_ret. apply nwp_bind. unfold nwp at 1, readl. cbn [n_hw n_mem n_vars].
  pose proof (read_results f base h (n_mem s) k c Hr') as Hst.
  destruct (dm_read (DMOV_STATUS DMOV_NAND_CHAN) h (n_mem s)) as [[z h'] m']. destruct Hst as (-> & Hz & Hr'').
  apply (IH k (mkNand h' (n_mem s) (n_vars s)) z); [lia|done|done|done].
Qed.

(** A list that is allowed is executed. *)
Lemma runs_exec_list loc ws m0 c m v l Q (Φ : unit → chip → memory → nand_vars → Prop) :
  operands loc ws m0 m → (length l ≤ CMD_SLOTS)%nat →
  (∀ m1, operands loc ws m0 m1 → list_wp f base l Q (c, m1)) → (∀ c' m', Q (c', m') → Φ tt c' m' v) →
  runs c m v (exec_list base polls l) Φ.
Proof.
  intros (Hm & Hw & Hb) Hl Hwp HΦ. pose proof Hm as (Hc & Hp & Ht & Hsp & He & Hlo & Hi & Hle). unfold exec_list, put_cmds.
  apply nruns_bind. apply nruns_bind, runs_mem. rewrite Hc, (proj2 (Nat.leb_le _ _)) by done. apply runs_set_mem.
  apply nruns_bind. unfold put_words. apply nruns_bind, runs_mem. cbn [m_ptrs set_m_cmds]. rewrite Hp.
  change ((0 + 0 + length [_] <=? PTR_WORDS)%nat) with true. cbn iota. apply runs_set_mem. cbn [Nat.add length]. rewrite take_0. cbn [app].
  set (m1 := set_m_ptrs _ _). assert (operands loc ws m0 m1) as Ho.
  { subst m1. split_and!.
    - apply shape_set_ptrs; [|cbn [length]; rewrite length_drop, Hp; done]. unfold shape.
      cbn [m_cmds m_ptrs m_tmp m_spare m_empty m_local m_image set_m_cmds]. rewrite length_app, length_drop. split_and!; (done || lia).
    - rewrite <- Hw. unfold data_words. cbn [m_ptrs set_m_ptrs set_m_cmds]. f_equal. destruct (m_ptrs m) as [|x r]; [done|].
      cbn [drop]. by rewrite drop_0.
    - by eapply same_bytes_trans. }
  assert (head (m_ptrs m1) = Some (Z.lor (Z.shiftr (base Cmds) 3) CMD_PTR_LP)) as Hhead by done.
  assert (m_cmds m1 = l ++ drop (length l) (m_cmds m)) as Hcmds by done. clearbody m1.
  intros s (Em & Ev & Hr). unfold dmov_exec_cmdptr. apply nwp_bind. unfold nwp at 1, writel.
  pose proof (write_config f base (n_hw s) (n_mem s) c (Z.lor DMOV_CONFIG_FOREC_FLUSH_RSLT 0)) as Hcf. rewrite Em in *.
  destruct (dm_write (DMOV_CONFIG DMOV_NAND_CHAN) _ (n_hw s) m1) as [h1 m1']. destruct (Hcf Hr) as [-> Hr1].
  apply nwp_bind. unfold nwp at 1, writel. cbn [n_hw n_mem n_vars].
  pose proof (write_pointer f base h1 m1 c Q _ Hr1 eq_refl Hhead) as Hpt. rewrite Hcmds in Hpt. specialize (Hpt (list_wp_app f base _ _ _ _ (Hwp m1 Ho))).
  unfold DMOV_CMD_ADDR. destruct (dm_write (DMOV_CMD_PTR DMOV_NAND_CHAN) _ h1 m1) as [h2 m2].
  apply (runs_wait slack polls Q v); [done|done|done|]. intros s' c' r Hv' HQ Hrs Hr'. apply nwp_bind. unfold nwp at 1, readl.
  pose proof (read_results f base (n_hw s') (n_mem s') r c' Hr') as Hst.
  destruct (dm_read (DMOV_STATUS DMOV_NAND_CHAN) (n_hw s') (n_mem s')) as [[z h'] m']. destruct Hst as (-> & Hz & Hr'').
  eapply nwp_mono; [apply (runs_drain r c' v (mkNand h' (n_mem s') (n_vars s')) polls z); [unfold patient in Hpolls; lia|done|done|done]| |done].
  intros [] s'' Hs''. exists c', (n_mem s'), v. split; [exact Hs''|]. by apply HΦ.
Qed.

(** ** Registers *)

Lemma write_command cm a0 a1 Q c : Q (set_addr1 a1 (set_addr0 a0 (set_cmd cm c))) → write_regs f NAND_FLASH_CMD [cm; a0; a1; 4] Q c.
Proof. intros HQ. exact (conj eq_refl HQ). Qed.

Lemma write_command1 cm Q c : Q (set_cmd cm c) → write_regs f NAND_FLASH_CMD [cm] Q c.
Proof. done. Qed.

Lemma write_cfg c0 c1 Q c : Q (set_cfg1 c1 (set_cfg0 c0 c)) → write_regs f NAND_DEV0_CFG0 [c0; c1] Q c.
Proof. done. Qed.

Lemma write_cfg_bch c0 c1 x Q c : f_bch f = true → Q (set_cfg1 c1 (set_cfg0 c0 c)) → write_regs f NAND_DEV0_CFG0 [c0; c1; x] Q c.
Proof. intros Hb HQ. exact (conj Hb HQ). Qed.

Lemma write_exec Q c : exec_wp f c Q → write_regs f NAND_EXEC_CMD [1] Q c.
Proof. intros HQ. exact (conj eq_refl HQ). Qed.

Lemma write_eccbuf x Q c : Q (set_eccbuf x c) → write_regs f NAND_EBI2_ECC_BUF_CFG [x] Q c.
Proof. done. Qed.

Lemma read_status Q c : (∀ y, Q [r_status c; y] c) → read_regs NAND_FLASH_STATUS 2 Q c.
Proof. done. Qed.

(** ** Addresses *)

Lemma addr_split page col :
  0 ≤ page < 2 ^ 24 → 0 ≤ col < 2 ^ 16 →
  let a0 := Z.lor (u32 (Z.shiftl page 16)) col in
  Z.shiftr a0 16 + Z.shiftl (Z.land (Z.shiftr page 16) 0xff) 16 = page ∧ Z.land a0 0xffff = col.
Proof.
  intros Hp Hc. cbn zeta. assert (u32 (Z.shiftl page 16) = Z.shiftl (page mod 2 ^ 16) 16) as ->.
  { unfold u32. rewrite !Z.shiftl_mul_pow2 by lia. change (2 ^ 32) with (2 ^ 16 * 2 ^ 16). rewrite Z.mul_mod_distr_r by lia. done. }
  change 0xffff with (Z.ones 16). change 0xff with (Z.ones 8). split.
  - rewrite Z.shiftr_lor, Z.shiftr_shiftl_l, Z.sub_diag, Z.shiftl_0_r by lia. rewrite (Z.shiftr_div_pow2 col), (Z.div_small col), Z.lor_0_r by lia.
    rewrite Z.land_ones, Z.shiftr_div_pow2, Z.shiftl_mul_pow2 by lia. rewrite (Z.mod_small (page / 2 ^ 16)) by (Z.div_mod_to_equations; lia).
    pose proof (Z.div_mod page (2 ^ 16)). lia.
  - rewrite Z.land_lor_distr_l, !Z.land_ones by lia. rewrite Z.shiftl_mul_pow2, Z.mod_mul, Z.lor_0_l by lia. by apply Z.mod_small.
Qed.

Lemma addr_split0 page :
  0 ≤ page < 2 ^ 24 → Z.shiftr (u32 (Z.shiftl page 16)) 16 + Z.shiftl (Z.land (Z.shiftr page 16) 0xff) 16 = page ∧ Z.land (u32 (Z.shiftl page 16)) 0xffff = 0.
Proof. intros Hp. destruct (addr_split page 0) as [H1 H2]; [done|lia|]. by rewrite Z.lor_0_r in H1, H2. Qed.

(** ** The configuration that the driver keeps *)

Record configured (v : nand_vars) : Prop := {
  k_geometry : geometry v;
  k_nand : is_nand (type (info v)) = true;
  k_cws : f_cws f = Z.shiftr (flash_pagesize v) 9;
  k_ppb : f_ppb f = num_pages_per_blk v;
  k_blocks : f_blocks f = num_blocks (info v);
  k_wide : f_wide f = wide (config v);
  k_bch : f_bch f = bch (config v);
  k_cfg0 : CFG0 (config v) = apps_cfg0 (flash_pagesize v) (f_wide f) (f_bch f);
  k_cfg1 : Z.testbit (CFG1 (config v)) 0 = false;
  k_modem : CFG0_M (config v) = modem_cfg0 (flash_pagesize v) (f_wide f);
  k_raw0 : NAND_CFG0_RAW (config v) = if f_bch f then CFG0_RAW_BCHECC else CFG0_RAW;
  k_raw1 : NAND_CFG1_RAW (config v) = CFG1_RAW;
}.

Definition kept (m m' : memory) : Prop := m_spare m' = m_spare m ∧ m_image m' = m_image m.

Lemma raw_cfg1_ecc v : configured v → Z.testbit (Z.lor (NAND_CFG1_RAW (config v)) (Z.land (CFG1 (config v)) CFG1_WIDE_FLASH)) 0 = true.
Proof. intros Hk. rewrite (k_raw1 v Hk), Z.lor_spec. done. Qed.

Lemma data_words_length loc m : shape N loc m → length (data_words m) = IO_WORDS.
Proof. intros Hm. pose proof (shape_ptrs_length N loc m Hm). unfold data_words, IO_WORDS, PTR_WORDS in *. rewrite length_take, length_drop. lia. Qed.

Lemma block_start_eq v page : geometry v → 0 ≤ page < 2 ^ 32 →
  block_start v page = page / num_pages_per_blk v * num_pages_per_blk v.
Proof.
  intros Hg Hp. unfold block_start. destruct (land_mask v page Hg) as [-> Hr]; [lia|].
  assert (num_pages_per_blk v ≠ 0) by (destruct (g_ppb v Hg); lia). pose proof (Z.div_mod page (num_pages_per_blk v)).
  pose proof (Z.mod_le page (num_pages_per_blk v)). destruct (g_ppb v Hg); rewrite u32_small; lia.
Qed.

(** Facts about the page that a block starts with. *)
Lemma block_page v page : configured v → page_ok f page →
  let p := page / num_pages_per_blk v * num_pages_per_blk v in
  page_ok f p ∧ p mod f_ppb f = 0 ∧ block_of f p = page / num_pages_per_blk v ∧ 0 ≤ p < 2 ^ 24 ∧ 0 ≤ page < 2 ^ 24.
Proof.
  intros Hk Hp. unfold page_ok, block_of in *. rewrite (k_ppb v Hk), (k_blocks v Hk) in *. pose proof (g_blocks v (k_geometry v Hk)).
  cbn zeta. rewrite Z.mod_mul, Z.div_mul by (destruct (g_ppb v (k_geometry v Hk)); lia).
  destruct (g_ppb v (k_geometry v Hk)) as [E|E]; rewrite E in *; split_and!; try done; Z.div_mod_to_equations; lia.
Qed.

(** ** Bad blocks *)

Lemma format_cases v : configured v → f_cws f = 4 ∧ flash_pagesize v = 2048 ∨ f_cws f = 8 ∧ flash_pagesize v = 4096.
Proof. intros Hk. rewrite (k_cws v Hk). exact (geometry_cws v (k_geometry v Hk)). Qed.

Lemma mark_position v : configured v →
  let last := u32 ((if bch (config v) then 532 else 528) * (Z.shiftr (flash_pagesize v) 9 - 1)) in
  u32 (NAND_FLASH_BUFFER + (flash_pagesize v - last)) = NAND_FLASH_BUFFER + Z.of_nat (mark_at f) ∧ (mark_at f + 4 ≤ BUF_SIZE)%nat ∧
  (if wide (config v) then Z.shiftr last 1 else last) = last_column f ∧ 0 ≤ last_column f < 2 ^ 16.
Proof.
  intros Hk. cbn zeta. unfold mark_at, last_column, cw_size, BUF_SIZE. rewrite <- (k_bch v Hk), <- (k_wide v Hk), <- (k_cws v Hk).
  destruct (format_cases v Hk) as [[-> ->]|[-> ->]], (f_bch f), (f_wide f); split_and!; first [done|vm_compute; lia|by vm_compute].
Qed.

(** A configuration of two or three words. *)
Lemma write_configuration loc m c ws m0 fl k c0 c1 x Q :
  operands loc ws m0 m → take 3 (drop k ws) = [c0; c1; x] → (k + 3 ≤ IO_WORDS)%nat → Q (set_cfg1 c1 (set_cfg0 c0 c), m) →
  transfer_wp f base (mkDmov fl (data_at base k) NAND_DEV0_CFG0 (if f_bch f then 12 else 8)) Q (c, m).
Proof.
  intros (Hm & Hw & _) Ht Hk HQ. destruct (f_bch f) eqn:E.
  - eapply (write_operands f base N HL loc m c fl k _ 3 ws); [done|done|lia|lia|done|done|]. rewrite Ht. by apply write_cfg_bch.
  - eapply (write_operands f base N HL loc m c fl k _ 2 ws); [done|done|lia|lia|done|done|].
    replace (take 2 (drop k ws)) with (take 2 (take 3 (drop k ws))) by by rewrite take_take. rewrite Ht. by apply write_cfg.
Qed.

Lemma list_wp_cons d l Q x : flag (cmd d) CMD_LC = false → transfer_wp f base d (list_wp f base l Q) x → list_wp f base (d :: l) Q x.
Proof. intros Hd Ht. cbn [list_wp]. by rewrite Hd. Qed.

Lemma list_wp_last d l Q x : flag (cmd d) CMD_LC = true → transfer_wp f base d Q x → list_wp f base (d :: l) Q x.
Proof. intros Hd Ht. cbn [list_wp]. by rewrite Hd. Qed.

Lemma isbad_list ws m c page c0 c1 x y8 y9 Q :
  ws = NAND_CMD_PAGE_READ :: Z.lor (u32 (Z.shiftl page 16)) (last_column f) :: Z.land (Z.shiftr page 16) 0xff :: 4 :: c0 :: c1 :: x :: 1 :: y8 :: y9 :: drop 10 ws →
  length ws = IO_WORDS → shape N 4 m → data_words m = ws → page_ok f page → page mod f_ppb f = 0 → 0 ≤ page < 2 ^ 24 →
  0 ≤ last_column f < 2 ^ 16 → (mark_at f + 4 ≤ BUF_SIZE)%nat → Z.land (Z.shiftr c0 6) 7 = 0 → Z.testbit c1 0 = true →
  (∀ c' m' st b, c_flash c' = c_flash c → flag st 0x110 = false → marked f b = bad (c_flash c) (block_of f page) →
     shape N 4 m' → kept m m' → m_local m' = take 4 (drop (mark_at f) b) → data_words m' !! 8%nat = Some st → length b = BUF_SIZE → Q (c', m')) →
  list_wp f base
    [ mkDmov (Z.lor DST_CRCI_NAND_CMD CMD_OCB) (data_at base 0) NAND_FLASH_CMD 16;
      mkDmov 0 (data_at base 4) NAND_DEV0_CFG0 (if f_bch f then 12 else 8);
      mkDmov 0 (data_at base 7) NAND_EXEC_CMD 4;
      mkDmov SRC_CRCI_NAND_DATA NAND_FLASH_STATUS (data_at base 8) 8;
      mkDmov (Z.lor CMD_OCU CMD_LC) (NAND_FLASH_BUFFER + Z.of_nat (mark_at f)) (base Local) 4 ] Q (c, m).
Proof.
  intros Hws Hl Hm Hd Hp Hp0 Hp24 Hcol Hmark Hc0 Hc1 HQ. apply list_wp_cons; [done|].
  eapply (write_operands f base N HL 4 m c _ 0 _ 4 ws); [done|done|lia|unfold IO_WORDS; lia|done|done|]. rewrite Hws. apply write_command.
  apply list_wp_cons; [done|]. eapply (write_configuration 4 m _ ws m _ 4 c0 c1 x); [by split_and!|rewrite Hws; done|unfold IO_WORDS; lia|].
  apply list_wp_cons; [done|]. eapply (write_operands f base N HL 4 m _ _ 7 _ 1 ws); [done|done|lia|unfold IO_WORDS; lia|done|done|]. rewrite Hws.
  apply write_exec. destruct (addr_split page (last_column f)) as [Ha Hcl]; [done|done|].
  unfold exec_wp. cbn [r_cmd set_cmd set_addr0 set_addr1 set_cfg0 set_cfg1].
  change (NAND_CMD_PAGE_READ =? NAND_CMD_PAGE_READ_ECC) with false. change (NAND_CMD_PAGE_READ =? NAND_CMD_PAGE_READ) with true. cbn iota.
  set (c' := set_cfg1 c1 _). assert (addr_page c' = page) as Hpg by exact Ha. assert (addr_column c' = last_column f) as Hcl' by exact Hcl.
  unfold read_raw_wp. rewrite Hpg, Hcl'. split_and!; [done|done|done|done|unfold cfg_ecc; change (r_cfg1 c') with c1; by rewrite Hc1|].
  intros st b Hst Hb Hmk. apply list_wp_cons; [done|]. eapply (read_operands f base N HL 4 m _ _ 8 _ 2 ws); [done|done|lia|unfold IO_WORDS; lia|done|done|].
  apply read_status. intros y. split; [done|]. intros m' Hm' Hd' Hs'. apply list_wp_last; [done|].
  destruct Hs' as (Hs1 & Hs2 & Hs3 & Hs4). pose proof Hm' as (_ & _ & _ & _ & _ & Hloc & _).
  set (bs := take 4 (drop (mark_at f) b)). assert (length bs = 4%nat) as Hbs by (subst bs; rewrite length_take, length_drop, Hb; lia).
  assert (store (m_local m') 0 bs = Ok bs) as Hst'.
  { apply store_ok. rewrite Hbs, Hloc. split_and!; [lia|lia|]. cbn [Z.to_nat]. rewrite take_0. cbn [app Nat.add]. rewrite drop_ge by lia. by rewrite app_nil_r. }
  pose proof (read_buffer f base N HL 4 m' (after st b (S (c_cw c')) (c_got c') (c_ok c') (c_flash c') c') (Z.lor CMD_OCU CMD_LC) Local 0 (mark_at f) 4 bs) as Hrb.
  rewrite Z.add_0_r in Hrb. apply Hrb; [done|done|done|lia|cbn [size_of]; lia|lia|done|done|exact Hst'|].
  apply (HQ _ _ st b); [done|done|done| |split; [exact Hs1|exact Hs4]|done| |done].
  - destruct Hm' as (? & ? & ? & ? & ? & ? & ? & ?). unfold shape. cbn. by split_and!.
  - change (data_words _) with (data_words m'). rewrite Hd', Hws. done.
Qed.

Lemma marked_bytes (b : list Z) : (mark_at f + 4 ≤ length b)%nat →
  ∃ b0 b1 r, take 4 (drop (mark_at f) b) = b0 :: b1 :: r ∧ b0 = nth (mark_at f) b 0 ∧ b1 = nth (S (mark_at f)) b 0.
Proof.
  intros Hl. destruct (drop (mark_at f) b) as [|b0 [|b1 r]] eqn:E; try (apply (f_equal length) in E; rewrite length_drop in E; cbn in E; lia).
  exists b0, b1, (take 2 r). split; [done|]. split; symmetry.
  - rewrite <- (Nat.add_0_r (mark_at f)), <- nth_skipn, E. done.
  - rewrite <- (Nat.add_1_r (mark_at f)), <- nth_skipn, E. done.
Qed.

(** ** Steps of the functions *)

Lemma splice_same {A} (l : list A) k x : l !! k = Some x → splice l k [x] = l.
Proof. intros Hx. unfold splice. cbn [length app]. rewrite Nat.add_1_r. by apply take_drop_middle. Qed.

(** A word that is set only for the BCH code. *)
Lemma runs_put_opt (b : bool) c m v k x ws loc m0 (Φ : unit → chip → memory → nand_vars → Prop) :
  operands loc ws m0 m → (k < IO_WORDS)%nat → (∀ y m', operands loc (splice ws k [y]) m0 m' → Φ tt c m' v) →
  runs c m v (if b then put_data k [x] else mret tt) Φ.
Proof.
  intros Ho Hk HΦ. destruct b.
  - eapply runs_put_data; [exact Ho|cbn; lia|]. intros m' Ho'. by eapply HΦ.
  - apply nruns_ret. destruct Ho as (Hm & Hw & Hb). destruct (lookup_lt_is_Some_2 ws k) as [y Hy].
    { subst ws. rewrite (data_words_length loc) by done. lia. }
    apply (HΦ y). rewrite splice_same by done. done.
Qed.

Lemma runs_enter_local c m v b ws loc m0 (Φ : unit → chip → memory → nand_vars → Prop) :
  operands loc ws m0 m → (length b ≤ 2112)%nat → (∀ m', operands (length b) ws (set_m_local b m0) m' → Φ tt c m' v) →
  runs c m v (enter_local b) Φ.
Proof.
  intros ((? & ? & ? & ? & ? & ? & ? & ?) & Hw & Hb1 & Hb2 & Hb3 & Hb4) Hb HΦ. apply nruns_bind, runs_mem. apply runs_set_mem, HΦ.
  split_and!; [|done|]; [unfold shape|unfold same_bytes]; cbn; auto 10.
Qed.

Lemma runs_local c m v i x (Φ : Z → chip → memory → nand_vars → Prop) : m_local m !! i = Some x → Φ x c m v → runs c m v (local i) Φ.
Proof. intros Hx HΦ. apply nruns_bind, runs_mem. apply (runs_ok _ _ _ _ x); [by rewrite Hx|done]. Qed.

Lemma runs_get_data_at c m v k w (Φ : Z → chip → memory → nand_vars → Prop) :
  data_words m !! k = Some w → Φ w c m v → runs c m v (get_data k) Φ.
Proof.
  intros Hk HΦ. unfold get_data, get_word. apply nruns_bind, runs_mem. apply (runs_ok _ _ _ _ w); [|done].
  unfold data_words in Hk. pose proof (lookup_lt_Some _ _ _ Hk) as Hl. rewrite length_take in Hl.
  rewrite lookup_take_lt, lookup_drop in Hk by lia. by rewrite Hk.
Qed.

(** What a function that only looks leaves behind. *)
Definition unchanged (c : chip) (m : memory) (v : nand_vars) (c' : chip) (m' : memory) (v' : nand_vars) : Prop :=
  v' = v ∧ c_flash c' = c_flash c ∧ (∃ loc, shape N loc m') ∧ kept m m'.

(** The test for a bad block. *)
Lemma nand_isbad_runs loc c m v page :
  configured v → shape N loc m → page_ok f page →
  runs c m v (flash_nand_block_isbad base polls uninit page)
    (λ r c' m' v', unchanged c m v c' m' v' ∧ r = if bad (c_flash c) (page / num_pages_per_blk v) then 1 else 0).
Proof.
  intros Hk Hm Hp. destruct (block_page v page Hk Hp) as (Hp1 & Hp2 & Hp3 & Hp4 & Hp5). destruct (mark_position v Hk) as (Hq1 & Hq2 & Hq3 & Hq4).
  unfold flash_nand_block_isbad. apply nruns_bind, runs_vars. rewrite block_start_eq by (try apply (k_geometry v Hk); lia).
  set (p := page / num_pages_per_blk v * num_pages_per_blk v) in *. rewrite Hq1, Hq3, <- (k_bch v Hk), <- (k_wide v Hk).
  assert (operands loc (data_words m) m m) as Ho by done. pose proof (data_words_length loc m Hm) as Hl. revert Ho.
  explicit (data_words m) Hl. intros Ho. apply nruns_bind. eapply runs_put_data; [exact Ho|cbn; unfold IO_WORDS; lia|]. spliced. intros m1 Ho1.
  apply nruns_bind. eapply runs_put_opt; [exact Ho1|unfold IO_WORDS; lia|]. spliced. intros y m2 Ho2.
  apply nruns_bind. eapply runs_put_data; [exact Ho2|cbn; unfold IO_WORDS; lia|]. spliced. intros m3 Ho3.
  apply nruns_bind. eapply runs_enter_local; [exact Ho3|cbn; lia|]. intros m4 Ho4. apply nruns_bind.
  set (ws := _ :: _) in Ho4. eapply (runs_exec_list 4 ws _ _ _ _ _ (λ y, ∃ st b, c_flash y.1 = c_flash c ∧ flag st 0x110 = false ∧
    marked f b = bad (c_flash c) (block_of f p) ∧ shape N 4 y.2 ∧ kept m y.2 ∧ m_local y.2 = take 4 (drop (mark_at f) b) ∧
    data_words y.2 !! 8%nat = Some st ∧ length b = BUF_SIZE)); [exact Ho4|cbn; unfold CMD_SLOTS; lia| |].
  - intros m5 (Hm5 & Hd5 & Hs5 & _ & _ & Hi5). eapply (isbad_list ws); [reflexivity|done|done|done|done|done|done|done|done| | |].
    + rewrite (k_raw0 v Hk). by destruct (f_bch f).
    + by apply raw_cfg1_ecc.
    + intros c' m' st b Hc' Hst Hb Hm' [Hk1 Hk2] Hlo Hd Hlen. exists st, b. cbn [fst snd]. split_and!; try done.
      split; [rewrite Hk1; exact Hs5|rewrite Hk2; exact Hi5].
  - intros c' m' (st & b & Hc' & Hst & Hb & Hm' & Hkp & Hlo & Hd & Hlen). cbn [fst snd] in *.
    apply nruns_bind. apply (runs_get_data_at _ _ _ _ st); [done|]. rewrite Hst.
    destruct (marked_bytes b) as (b0 & b1 & r & Hbs & Hb0 & Hb1); [unfold BUF_SIZE in *; lia|]. rewrite Hbs in Hlo.
    apply nruns_bind. apply (runs_local _ _ _ _ b0); [by rewrite Hlo|]. apply nruns_bind. apply (runs_local _ _ _ _ b1); [by rewrite Hlo|].
    rewrite <- Hp3, <- Hb. unfold marked. rewrite <- Hb0, <- Hb1.
    destruct (f_wide f); apply nruns_ret; (split; [by split_and!; [..|exists 4%nat|]|]); cbn [andb]; rewrite ?orb_false_r; done.
Qed.

(** ** Erasing *)

Lemma aligned_flag v page : configured v → 0 ≤ page → flag page (num_pages_per_blk_mask v) = negb (page mod f_ppb f =? 0).
Proof.
  intros Hk Hp. unfold flag. destruct (land_mask v page (k_geometry v Hk) Hp) as [-> _]. by rewrite (k_ppb v Hk).
Qed.

Lemma write_one loc m c fl k r w ws Q :
  shape N loc m → data_words m = ws → take 1 (drop k ws) = [w] → (k < IO_WORDS)%nat → is_reg r = true → r ≠ NAND_FLASH_CMD →
  write_regs f r [w] (λ c', Q (c', m)) c → transfer_wp f base (mkDmov fl (data_at base k) r 4) Q (c, m).
Proof.
  intros Hm Hd Hw Hk Hr Hn HQ. eapply (write_operands f base N HL loc m c fl k r 1 ws); [done|done|lia|lia|done|done|]. by rewrite Hw.
Qed.

Lemma write_clear r w Q c : r = NAND_FLASH_STATUS ∨ r = NAND_READ_STATUS → Q c → write_regs f r [w] Q c.
Proof. by intros [-> | ->]. Qed.

Lemma read_status1 Q c : Q [r_status c] c → read_regs NAND_FLASH_STATUS 1 Q c.
Proof. done. Qed.

Lemma erase_list loc ws m c page c0 c1 x Q :
  ws = NAND_CMD_BLOCK_ERASE :: page :: 0 :: 4 :: 1 :: 0xeeeeeeee :: c0 :: c1 :: x :: 0x20 :: 0xC0 :: drop 11 ws →
  shape N loc m → data_words m = ws → page_ok f page → page mod f_ppb f = 0 → Z.land (Z.shiftr c0 6) 7 = 0 →
  bad (c_flash c) (block_of f page) = false →
  (∀ c' m' st, c_flash c' = erase_block (f_ppb f) (block_of f page) (c_flash c) → succeeded st = true →
     shape N loc m' → kept m m' → data_words m' !! 5%nat = Some st → Q (c', m')) →
  list_wp f base
    [ mkDmov (Z.lor DST_CRCI_NAND_CMD CMD_OCB) (data_at base 0) NAND_FLASH_CMD 16;
      mkDmov 0 (data_at base 6) NAND_DEV0_CFG0 (if f_bch f then 12 else 8);
      mkDmov 0 (data_at base 4) NAND_EXEC_CMD 4;
      mkDmov SRC_CRCI_NAND_DATA NAND_FLASH_STATUS (data_at base 5) 4;
      mkDmov 0 (data_at base 9) NAND_FLASH_STATUS 4;
      mkDmov (Z.lor CMD_OCU CMD_LC) (data_at base 10) NAND_READ_STATUS 4 ] Q (c, m).
Proof.
  intros Hws Hm Hd Hp Hp0 Hc0 Hbad HQ. apply list_wp_cons; [done|].
  eapply (write_operands f base N HL loc m c _ 0 _ 4 ws); [done|done|lia|unfold IO_WORDS; lia|done|done|]. rewrite Hws. apply write_command.
  apply list_wp_cons; [done|]. eapply (write_configuration loc m _ ws m _ 6 c0 c1 x); [by split_and!|rewrite Hws; done|unfold IO_WORDS; lia|].
  apply list_wp_cons; [done|]. eapply (write_one loc m _ _ 4 _ 1 ws); [done|done|by rewrite Hws|unfold IO_WORDS; lia|done|done|].
  apply write_exec. unfold exec_wp. cbn [r_cmd set_cmd set_addr0 set_addr1 set_cfg0 set_cfg1].
  change (NAND_CMD_BLOCK_ERASE =? NAND_CMD_PAGE_READ_ECC) with false. change (NAND_CMD_BLOCK_ERASE =? NAND_CMD_PAGE_READ) with false.
  change (NAND_CMD_BLOCK_ERASE =? NAND_CMD_PRG_PAGE) with false. change (NAND_CMD_BLOCK_ERASE =? NAND_CMD_BLOCK_ERASE) with true. cbn iota.
  unfold erase_wp. cbn [r_addr0 r_addr1 set_cmd set_addr0 set_addr1 set_cfg0 set_cfg1 c_flash]. split_and!; [done|done|done|done|done|].
  intros st Hst. apply list_wp_cons; [done|]. eapply (read_operands f base N HL loc m _ _ 5 _ 1 ws); [done|done|lia|unfold IO_WORDS; lia|done|done|].
  apply read_status1. split; [done|]. intros m' Hm' Hd' Hs'. rewrite Hws in Hd'.
  apply list_wp_cons; [done|]. eapply (write_one loc m' _ _ 9 _ _ _ _ Hm' Hd'); [done|unfold IO_WORDS; lia|done|done|]. apply write_clear; [auto|].
  apply list_wp_last; [done|]. eapply (write_one loc m' _ _ 10 _ _ _ _ Hm' Hd'); [done|unfold IO_WORDS; lia|done|done|]. apply write_clear; [auto|].
  destruct Hs' as (Hs1 & Hs2 & Hs3 & Hs4). apply (HQ _ _ st); [done|done|done|done|]. by rewrite Hd'.
Qed.

Lemma kept_trans m1 m2 m3 : kept m1 m2 → kept m2 m3 → kept m1 m3.
Proof. unfold kept. intuition congruence. Qed.
Lemma same_kept m m' : same_bytes m m' → kept m m'.
Proof. by intros (? & ? & ? & ?). Qed.

(** The first page of a good block erases the block, that of a bad one nothing. *)
Lemma nand_erase_runs loc c m v page :
  configured v → shape N loc m → page_ok f page → page mod f_ppb f = 0 →
  runs c m v (flash_nand_erase_block base polls uninit page)
    (λ r c' m' v', v' = v ∧ (∃ loc', shape N loc' m') ∧ kept m m' ∧
       if bad (c_flash c) (block_of f page) then r = -1 ∧ c_flash c' = c_flash c
       else r = 0 ∧ c_flash c' = erase_block (f_ppb f) (block_of f page) (c_flash c)).
Proof.
  intros Hk Hm Hp Hp0. destruct (block_page v page Hk Hp) as (_ & _ & _ & _ & Hp5). unfold flash_nand_erase_block. apply nruns_bind, runs_vars.
  rewrite aligned_flag, Hp0 by (done || lia). cbn [Z.eqb negb]. apply nruns_bind. eapply nruns_mono; [by apply (nand_isbad_runs loc)|].
  unfold block_of. rewrite (k_ppb v Hk). intros r c1 m1 v1 ((-> & Hf1 & [loc1 Hm1] & Hk1) & ->).
  destruct (bad (c_flash c) (page / num_pages_per_blk v)) eqn:Hbad; cbn [Z.eqb negb]; [apply nruns_ret; eauto 10|].
  assert (operands loc1 (data_words m1) m1 m1) as Ho by done. pose proof (data_words_length loc1 m1 Hm1) as Hl. revert Ho.
  explicit (data_words m1) Hl. intros Ho. apply nruns_bind. eapply runs_put_data; [exact Ho|cbn; unfold IO_WORDS; lia|]. spliced. intros m2 Ho2.
  apply nruns_bind. set (ws := _ :: _) in Ho2.
  eapply (runs_exec_list loc1 ws _ _ _ _ _ (λ y, ∃ st, c_flash y.1 = erase_block (f_ppb f) (block_of f page) (c_flash c) ∧ succeeded st = true ∧
    shape N loc1 y.2 ∧ kept m y.2 ∧ data_words y.2 !! 5%nat = Some st)); [exact Ho2|cbn; unfold CMD_SLOTS; lia| |].
  - intros m3 (Hm3 & Hd3 & Hs3). rewrite <- (k_bch v Hk). eapply (erase_list loc1 ws); [reflexivity|done|done|done|done| | |].
    + rewrite Z.shiftr_land, <- Z.land_assoc. by rewrite Z.land_0_r.
    + unfold block_of. by rewrite Hf1, (k_ppb v Hk).
    + intros c' m' st Hc' Hst Hm' Hkp Hd. exists st. cbn [fst snd]. rewrite <- Hf1. split_and!; try done.
      eapply kept_trans; [exact Hk1|]. eapply kept_trans; [by apply same_kept|done].
  - intros c' m' (st & Hc' & Hst & Hm' & Hkp & Hd). cbn [fst snd] in *. apply nruns_bind. apply (runs_get_data_at _ _ _ _ st); [done|].
    unfold succeeded in Hst. apply andb_true_iff in Hst as [H1 H2]. apply negb_true_iff in H1. rewrite H1, H2. cbn [negb]. apply nruns_ret.
    split_and!; try done; [by exists loc1|]. unfold block_of in Hc'. by rewrite (k_ppb v Hk) in *.
Qed.
End Runs.
