(* ===== verification/NandWords.v ===== *)
(** Pages of the flash, code word by code word: the lists that read and program a page on
    hardware that conforms, and what they leave in memory and in the flash. *)
From Stdlib Require Import ZArith.
From stdpp Require Import base numbers list.
From S2P Require Import Prelude Bytes ArmMmu NandDriver NandSafe NandChip NandPages.

(** * Splices *)

Lemma splice_lookup_other {A} (l : list A) k xs i : (k + length xs ≤ length l)%nat → (i < k ∨ k + length xs ≤ i)%nat → splice l k xs !! i = l !! i.
Proof.
  intros Hl [Hi|Hi]; unfold splice.
  - rewrite lookup_app_l by (rewrite length_take; lia). by rewrite lookup_take_lt.
  - rewrite !lookup_app_r, length_take, lookup_drop by (rewrite ?length_take; lia). f_equal. lia.
Qed.

Lemma splice_lookup_in {A} (l : list A) k xs i : (k + length xs ≤ length l)%nat → (i < length xs)%nat → splice l k xs !! (k + i)%nat = xs !! i.
Proof.
  intros Hl Hi. unfold splice. rewrite lookup_app_r, length_take, lookup_app_l by (rewrite ?length_take; lia). f_equal. lia.
Qed.

Lemma splice_splice {A} (l xs ys : list A) k : (k + length xs + length ys ≤ length l)%nat → splice (splice l k xs) (k + length xs) ys = splice l k (xs ++ ys).
Proof.
  intros Hl. unfold splice. rewrite (app_assoc (take k l)), take_app_le by (rewrite length_app, length_take; lia).
  rewrite (take_ge (take k l ++ xs)) by (rewrite length_app, length_take; lia). rewrite length_app, <- !app_assoc. do 2 f_equal. f_equal.
  rewrite (app_assoc (take k l)), drop_app_ge by (rewrite length_app, length_take; lia). rewrite drop_drop, length_app, length_take. f_equal. lia.
Qed.

Lemma splice_nil {A} (l : list A) k : splice l k [] = l.
Proof. unfold splice. cbn. by rewrite Nat.add_0_r, take_drop. Qed.

Lemma store_splice b off bs : 0 ≤ off → off + Z.of_nat (length bs) ≤ Z.of_nat (length b) → store b off bs = Ok (splice b (Z.to_nat off) bs).
Proof. intros H0 H1. by apply store_ok. Qed.

Section Words.
Context {H : Type} `{Dmov H} (f : format) (base : area → Z) (N : Z) (HL : layout_ok base N) (slack : nat).
Context (R : H → memory → phase → Prop) `{!Conforms f base slack R} (polls : nat) (Hpolls : patient slack polls) (uninit : Z).
#[local] Notation list_wp := (list_wp f base).
#[local] Notation transfer_wp := (transfer_wp f base).

(** * Memory at work *)

(** The first words of the operands are [ops], the results so far [sts]. *)
Definition at_work (loc : nat) (ops sts : list Z) (m : memory) : Prop :=
  shape N loc m ∧ take 9 (data_words m) = ops ∧ ∀ i st, sts !! i = Some st → data_words m !! io_result i = Some st.

(** [m] with another object of bytes. *)
Lemma at_work_bytes loc ops sts m a b :
  at_work loc ops sts m → a = Spare ∨ a = Image → length b = length (bytes_in m a) → at_work loc ops sts (set_bytes a b m).
Proof.
  intros ((? & ? & ? & ? & ? & ? & ? & ?) & ? & ?) [-> | ->] Hb; cbn in Hb; (split_and!; [|done|done]); unfold shape; cbn; split_and!; congruence.
Qed.

(** Operands of the list: command, address, chip, configuration, start, code. *)
Definition ops_of (cm page c0 c1 x ec : Z) : list Z :=
  [cm; u32 (Z.shiftl page 16); Z.land (Z.shiftr page 16) 0xff; 4; c0; c1; x; 1; ec].
Definition armed (cm page c0 c1 ec : Z) (c : chip) : Prop :=
  r_cmd c = cm ∧ r_addr0 c = u32 (Z.shiftl page 16) ∧ r_addr1 c = Z.land (Z.shiftr page 16) 0xff ∧ r_cfg0 c = c0 ∧ r_cfg1 c = c1 ∧ r_eccbuf c = ec.

Lemma ops_slice loc ops sts m k n : at_work loc ops sts m → (k + n ≤ 9)%nat → take n (drop k (data_words m)) = take n (drop k ops).
Proof. intros (_ & <- & _) Hk. by rewrite skipn_firstn_comm, take_take, Nat.min_l by lia. Qed.

(** The transfers in front of the first code word, and of another one. *)
Lemma first_word loc sts m c cm page c0 c1 x ec l Q :
  at_work loc (ops_of cm page c0 c1 x ec) sts m →
  (∀ c', armed cm page c0 c1 ec c' → c_cw c' = 0%nat → c_got c' = [] → c_ok c' = true → c_flash c' = c_flash c → c_buf c' = c_buf c → list_wp l Q (c', m)) →
  list_wp (mkDmov DST_CRCI_NAND_CMD (data_at base 0) NAND_FLASH_CMD 16 ::
           mkDmov 0 (data_at base 4) NAND_DEV0_CFG0 (if f_bch f then 12 else 8) ::
           mkDmov 0 (data_at base 8) NAND_EBI2_ECC_BUF_CFG 4 :: l) Q (c, m).
Proof.
  intros Hm HQ. pose proof Hm as (Hs & _ & _). apply list_wp_cons; [done|].
  eapply (write_operands f base N HL loc m c _ 0 _ 4 _); [done|done|lia|unfold IO_WORDS; lia|done|done|].
  rewrite (ops_slice _ _ _ _ _ _ Hm) by lia. apply write_command. apply list_wp_cons; [done|].
  eapply (write_configuration f base N HL loc m _ _ m _ 4 c0 c1 x); [by split_and!|by rewrite (ops_slice _ _ _ _ _ _ Hm) by lia|unfold IO_WORDS; lia|].
  apply list_wp_cons; [done|]. eapply (write_one f base N HL loc m _ _ 8 _ ec); [done|done|by rewrite (ops_slice _ _ _ _ _ _ Hm) by lia|unfold IO_WORDS; lia|done|done|].
  apply write_eccbuf. by apply HQ.
Qed.

Lemma next_word loc sts m c cm page c0 c1 x ec l Q :
  at_work loc (ops_of cm page c0 c1 x ec) sts m → armed cm page c0 c1 ec c → list_wp l Q (c, m) →
  list_wp (mkDmov DST_CRCI_NAND_CMD (data_at base 0) NAND_FLASH_CMD 4 :: l) Q (c, m).
Proof.
  intros Hm (Hc & _) HQ. pose proof Hm as (Hs & _ & _). apply list_wp_cons; [done|].
  eapply (write_operands f base N HL loc m c _ 0 _ 1 _); [done|done|lia|unfold IO_WORDS; lia|done|done|].
  rewrite (ops_slice _ _ _ _ _ _ Hm) by lia. apply write_command1. rewrite <- Hc. by destruct c.
Qed.

Lemma start_word loc sts m c cm page c0 c1 x ec fl Q :
  at_work loc (ops_of cm page c0 c1 x ec) sts m → exec_wp f c (λ c', Q (c', m)) →
  transfer_wp (mkDmov fl (data_at base 7) NAND_EXEC_CMD 4) Q (c, m).
Proof.
  intros Hm HQ. pose proof Hm as (Hs & _ & _).
  eapply (write_one f base N HL loc m _ _ 7 _ 1); [done|done|by rewrite (ops_slice _ _ _ _ _ _ Hm) by lia|unfold IO_WORDS; lia|done|done|].
  by apply write_exec.
Qed.

Lemma word_status loc ops sts m c Q :
  at_work loc ops sts m → (length sts < 8)%nat →
  (∀ m', at_work loc ops (sts ++ [r_status c]) m' → same_bytes m m' → Q (c, m')) →
  transfer_wp (mkDmov SRC_CRCI_NAND_DATA NAND_FLASH_STATUS (data_at base (io_result (length sts))) 8) Q (c, m).
Proof.
  intros (Hm & Ho & Hst) Hl HQ. pose proof (data_words_length N loc m Hm) as Hw. unfold io_result, IO_WORDS in *.
  eapply (read_operands f base N HL loc m c _ (12 + 2 * length sts) _ 2); [done|done|lia|unfold IO_WORDS; lia|done|done|].
  apply read_status. intros y. split; [done|]. intros m' Hm' Hd Hs. apply HQ; [|done]. split_and!; [done| |].
  - rewrite Hd, take_splice_before; [done|lia|lia].
  - intros i st Hi. unfold io_result. rewrite Hd. apply lookup_app_Some in Hi as [Hi|[Hi1 Hi2]].
    + pose proof (lookup_lt_Some _ _ _ Hi). rewrite splice_lookup_other by (rewrite ?Hw; cbn [length]; lia). by apply Hst.
    + assert (i = length sts) as -> by (apply lookup_lt_Some in Hi2; cbn in Hi2; lia). rewrite Nat.sub_diag in Hi2.
      pose proof (splice_lookup_in (data_words m) (12 + 2 * length sts) [r_status c; y] 0) as Hin. rewrite Nat.add_0_r in Hin.
      rewrite Hin by (rewrite ?Hw; cbn [length]; lia). done.
Qed.

(** The code configuration is saved first and restored last. *)
Lemma save_ecc loc ops m c l Q :
  at_work loc ops [] m → (∀ m', at_work loc ops [] m' → same_bytes m m' → list_wp l Q (c, m')) →
  list_wp (mkDmov CMD_OCB NAND_EBI2_ECC_BUF_CFG (data_at base 9) 4 :: l) Q (c, m).
Proof.
  intros (Hm & Ho & _) HQ. pose proof (data_words_length N loc m Hm) as Hw. unfold IO_WORDS in *. apply list_wp_cons; [done|].
  eapply (read_operands f base N HL loc m c _ 9 _ 1); [done|done|lia|unfold IO_WORDS; lia|done|done|].
  split; [done|]. intros m' Hm' Hd Hs. apply HQ; [|done]. split_and!; [done| |done].
  rewrite Hd, take_splice_before; [done|lia|lia].
Qed.

Lemma restore_ecc loc ops sts m c Q :
  at_work loc ops sts m → (∀ c', c_flash c' = c_flash c → Q (c', m)) →
  list_wp [mkDmov (Z.lor CMD_OCU CMD_LC) (data_at base 9) NAND_EBI2_ECC_BUF_CFG 4] Q (c, m).
Proof.
  intros (Hm & Ho & _) HQ. pose proof (data_words_length N loc m Hm) as Hw. unfold IO_WORDS in *. apply list_wp_last; [done|].
  destruct (lookup_lt_is_Some_2 (data_words m) 9) as [y Hy]; [lia|].
  eapply (write_one f base N HL loc m _ _ 9 _ y); [done|done|by rewrite (drop_S _ y)|unfold IO_WORDS; lia|done|done|].
  apply write_eccbuf. by apply HQ.
Qed.

(** The results, looked at one by one. *)
Lemma check_results_runs loc ops sts c m v (b : bool) k j :
  at_work loc ops sts m → (j + k = length sts)%nat →
  runs R c m v (check_results io_result b (seq j k))
    (λ r c' m' v', c' = c ∧ m' = m ∧ v' = v ∧ r = if forallb (λ st, negb (flag st 0x110) && (negb b || flag st 0x80)) (drop j sts) then 0 else -1).
Proof.
  intros Hm. pose proof Hm as (_ & _ & Hst). revert j. induction k as [|k IH]; intros j Hj; cbn [seq check_results].
  - apply nruns_ret. rewrite drop_ge by lia. done.
  - destruct (lookup_lt_is_Some_2 sts j) as [st Hs]; [lia|]. rewrite (drop_S _ st) by done. cbn [forallb].
    apply nruns_bind. apply (runs_get_data_at _ _ _ _ _ st); [by apply Hst|]. destruct (flag st 0x110); cbn [negb andb]; [by apply nruns_ret|].
    destruct b, (flag st 0x80); cbn [negb andb orb]; try (by apply nruns_ret); apply IH; lia.
Qed.

(** * Reading *)

Definition f_words : nat := Z.to_nat (f_cws f).
Definition page_bytes : nat := (512 * f_words)%nat.

Lemma word_end n : f_cws f = 4 ∨ f_cws f = 8 → (n < f_words)%nat →
  let k := Z.to_nat (cw_len (f_cws f) n) in
  (0 < k ≤ 516)%nat ∧ (516 * n + k = Nat.min (516 * S n) page_bytes)%nat ∧ (Nat.min (516 * n) page_bytes = 516 * n)%nat ∧
  Z.of_nat k = cw_len (f_cws f) n ∧ Z.of_nat k mod 4 = 0.
Proof.
  intros Hcws Hn. cbn zeta. unfold cw_len, page_bytes, f_words in *. destruct (Z.ltb_spec (Z.of_nat n) (f_cws f - 1));
    rewrite ?Z.shiftl_mul_pow2 by lia; destruct Hcws as [E|E]; rewrite E in *; split_and!; try done; lia.
Qed.

Section Read.
Context (loc : nat) (page c0 c1 x : Z) (bs : list Z) (img : buffer) (off : nat) (fl : nand) (cfg : nand_config).
Context (Hcws : f_cws f = 4 ∨ f_cws f = 8) (Hbch : bch cfg = f_bch f) (Hpage : page_ok f page) (Hp24 : 0 ≤ page < 2 ^ 24).
Context (Hdata : pages fl page = Data bs) (Hgood : bad fl (block_of f page) = false) (Hbs : length bs = (516 * f_words)%nat).
Context (Hc0 : Z.land (Z.shiftr c0 6) 7 = f_cws f - 1) (Hu0 : Z.land (Z.shiftr c0 9) 1023 = 516) (Hc1 : Z.testbit c1 0 = false).
Context (Himg : (off + page_bytes ≤ length img)%nat).
#[local] Notation ops := (ops_of NAND_CMD_PAGE_READ_ECC page c0 c1 x 0x203).
#[local] Notation ready_chip := (armed NAND_CMD_PAGE_READ_ECC page c0 c1 0x203).

(** Behind [n] code words. *)
Definition read_so_far (n : nat) (c : chip) (m : memory) : Prop :=
  (n = 0%nat ∨ ready_chip c ∧ c_cw c = n) ∧ c_flash c = fl ∧
  (∃ sts, at_work loc ops sts m ∧ length sts = n ∧ forallb (λ st, negb (flag st 0x110) && (negb false || flag st 0x80)) sts = true) ∧
  m_image m = splice img off (take (Nat.min (516 * n) page_bytes) bs) ∧
  (n = f_words → take 516 (c_buf c) = drop (516 * (f_words - 1)) bs).

(** One more code word: command, status and data. *)
Lemma read_word n c m l Q :
  ready_chip c → c_cw c = n → c_flash c = fl → (n < f_words)%nat → read_so_far n c m →
  (∀ c' m', read_so_far (S n) c' m' → m_spare m' = m_spare m → list_wp l Q (c', m')) →
  list_wp (mkDmov 0 (data_at base 7) NAND_EXEC_CMD 4 ::
           mkDmov SRC_CRCI_NAND_DATA NAND_FLASH_STATUS (data_at base (io_result n)) 8 ::
           mkDmov 0 NAND_FLASH_BUFFER (u32 (base Image + Z.of_nat off + Z.of_nat n * 516)) (cw_len (f_cws f) n) :: l) Q (c, m).
Proof.
  intros Ha Hn Hf Hlt (_ & _ & (sts & Hw & Hlen & Hok) & Hi & _) HQ. apply list_wp_cons; [done|]. eapply (start_word loc sts); [exact Hw|].
  pose proof Ha as (E1 & E2 & E3 & E4 & E5 & E6). destruct (addr_split0 page Hp24) as [Ea Eb].
  assert (addr_page c = page) as Ep by (unfold addr_page; by rewrite E2, E3).
  unfold exec_wp. rewrite E1. change (NAND_CMD_PAGE_READ_ECC =? NAND_CMD_PAGE_READ_ECC) with true. cbn iota.
  unfold read_ecc_wp. rewrite Ep, Hf, Hdata. unfold addr_column, cfg_cws, cfg_user, cfg_ecc, f_words in *. rewrite E2, E4, E5, E6, Hn.
  split_and!; [done|done|exact Eb|done|done|by rewrite Hc1|done|lia|]. intros st rest Hst Hrest. set (c' := after _ _ _ _ _ _ c).
  assert (length (take 516 (drop (516 * n) bs)) = 516%nat) as Hl by (rewrite length_take, length_drop; lia).
  apply list_wp_cons; [done|]. rewrite <- Hlen. eapply (word_status loc _ sts); [exact Hw|destruct Hcws; lia|]. intros m1 Hw1 (Hs1 & _ & _ & Hi1).
  rewrite Hlen. destruct (word_end n Hcws Hlt) as (Hk1 & Hk2 & Hk3 & Hk4 & Hk5). rewrite <- Hk4. set (k := Z.to_nat (cw_len (f_cws f) n)) in *.
  pose proof Hw1 as (Hm1 & _). pose proof Hm1 as (_ & _ & _ & _ & _ & _ & HN & _). pose proof (base_end _ _ HL Image) as Hend. pose proof (base_pos _ _ HL Image).
  rewrite Hi1, Hi, Hk3 in *. rewrite length_splice_in in HN by (rewrite length_take; lia). cbn [room] in Hend.
  rewrite u32_small by lia. replace (base Image + Z.of_nat off + Z.of_nat n * 516) with (base Image + Z.of_nat (off + 516 * n)) by lia.
  apply list_wp_cons; [done|]. change NAND_FLASH_BUFFER with (NAND_FLASH_BUFFER + Z.of_nat 0).
  assert (take k (drop 0 (c_buf c')) = take k (drop (516 * n) bs)) as Hcopy.
  { rewrite drop_0. change (c_buf c') with (take 516 (drop (516 * n) bs) ++ rest). rewrite take_app_le, take_take by lia. f_equal. lia. }
  assert (length (take k (drop (516 * n) bs)) = k) as Hlk by (rewrite length_take, length_drop; lia).
  assert (length (take (516 * n) bs) = (516 * n)%nat) as Hln by (rewrite length_take; lia).
  assert (bytes_in m1 Image = splice img off (take (516 * n) bs)) as Hb1 by exact Hi1.
  eapply (read_buffer f base N HL loc m1 c'); [exact Hm1|done|done|lia|cbn [size_of]; rewrite Hi1, length_splice_in; lia|lia|unfold BUF_SIZE; lia|done| |].
  { rewrite Hcopy. apply store_splice; [lia|]. rewrite Hlk, Hb1, length_splice_in; lia. }
  rewrite Hb1, Nat2Z.id.
  replace (splice _ (off + 516 * n) _) with (splice img off (take (Nat.min (516 * S n) page_bytes) bs)).
  2: { rewrite <- Hk2, <- take_take_drop, <- splice_splice, Hln; [done|lia]. }
  apply HQ; [|exact Hs1]. split_and!; [by right|done| |done|].
  - exists (sts ++ [r_status c']). split_and!; [|rewrite length_app; cbn; lia|].
    + apply at_work_bytes; [done|auto|]. rewrite Hb1, !length_splice_in; rewrite ?length_take; lia.
    + rewrite forallb_app, Hok. change (r_status c') with st. cbn [forallb]. by rewrite Hst.
  - intros E. change (c_buf c') with (take 516 (drop (516 * n) bs) ++ rest). rewrite take_app_le, take_take by lia.
    replace (f_words - 1)%nat with n by lia. apply take_ge. rewrite length_drop. unfold f_words in *. lia.
Qed.

Lemma read_words k : ∀ n c m l Q,
  (n + k = f_words)%nat → read_so_far n c m →
  (∀ c' m', read_so_far f_words c' m' → m_spare m' = m_spare m → list_wp l Q (c', m')) →
  list_wp (flat_map (read_codeword base cfg (f_cws f) (base Image + Z.of_nat off)) (seq n k) ++ l) Q (c, m).
Proof.
  induction k as [|k IH]; intros n c m l Q Hn Hr HQ.
  - cbn [seq flat_map app]. apply HQ; [|done]. by replace f_words with n by lia.
  - cbn [seq flat_map]. rewrite <- app_assoc. unfold read_codeword at 1. rewrite <- !app_assoc, Hbch.
    pose proof Hr as (Hc & Hf & (sts & Hw & Hlen & Hok) & Hi & Hb). destruct n as [|n]; cbn [Nat.eqb app].
    + eapply first_word; [exact Hw|]. intros c' Ha Hcw _ _ Hf' Hbuf. rewrite Hf in Hf'. apply (read_word 0); [done|done|done|lia| |].
      * split_and!; [by left|done|by exists sts|done|]. unfold f_words. lia.
      * intros c2 m2 Hr2 Hs2. apply (IH 1%nat); [lia|done|]. intros c3 m3 Hr3 Hs3. apply HQ; [done|congruence].
    + destruct Hc as [?|[Ha Hcw]]; [done|]. eapply next_word; [exact Hw|exact Ha|]. apply (read_word (S n)); [done|done|done|lia|done|].
      intros c2 m2 Hr2 Hs2. apply (IH (S (S n))); [lia|done|]. intros c3 m3 Hr3 Hs3. apply HQ; [done|congruence].
Qed.

(** The whole list: the data is in the image, the first spare bytes in the spare buffer. *)
Lemma read_list m c Q :
  at_work loc ops [] m → m_image m = img → c_flash c = fl →
  (∀ c' m' sts, c_flash c' = fl → at_work loc ops sts m' → length sts = f_words →
     forallb (λ st, negb (flag st 0x110) && (negb false || flag st 0x80)) sts = true →
     m_image m' = splice img off (take page_bytes bs) → m_spare m' = splice (m_spare m) 0 (take 16 (drop page_bytes bs)) → Q (c', m')) →
  list_wp (read_page_list base cfg (f_cws f) (base Image + Z.of_nat off) (base Spare)) Q (c, m).
Proof.
  intros Hw Hi Hf HQ. unfold read_page_list. cbn [app]. eapply (save_ecc loc); [exact Hw|]. intros m1 Hw1 (Hs1 & _ & _ & Hi1).
  apply (read_words f_words 0); [lia| |].
  { split_and!; [by left|done|by exists []| |unfold f_words; destruct Hcws; lia]. by rewrite Nat.mul_0_r, take_0, splice_nil, Hi1, Hi. }
  intros c2 m2 (Hc2 & Hf2 & (sts & Hw2 & Hlen & Hok) & Hi2 & Hb2) Hs2. specialize (Hb2 eq_refl).
  set (o := (512 - 4 * (f_words - 1))%nat). replace (512 - Z.shiftl (f_cws f - 1) 2) with (Z.of_nat o)
    by (subst o; rewrite Z.shiftl_mul_pow2 by lia; unfold f_words; destruct Hcws; lia).
  apply list_wp_cons; [done|]. rewrite <- (Z.add_0_r (base Spare)). pose proof Hw2 as (Hm2 & _). pose proof Hm2 as (_ & _ & _ & Hsp & _).
  assert (f_words = 4 ∨ f_words = 8)%nat as Hfw by (unfold f_words; destruct Hcws as [-> | ->]; auto).
  assert (take 16 (drop o (c_buf c2)) = take 16 (drop page_bytes bs)) as Hcopy.
  { replace (take 16 (drop o (c_buf c2))) with (take 16 (drop o (take 516 (c_buf c2)))).
    - rewrite Hb2, drop_drop. do 2 f_equal. subst o. unfold page_bytes. lia.
    - rewrite skipn_firstn_comm, take_take. f_equal. subst o. lia. }
  assert (length (take 16 (drop page_bytes bs)) = 16%nat) as Hl16 by (rewrite length_take, length_drop; unfold page_bytes; lia).
  eapply (read_buffer f base N HL loc m2 c2 0 Spare 0 o 16); [exact Hm2|done|done|lia|cbn [size_of]; lia|lia|subst o; unfold BUF_SIZE; lia|done| |].
  { rewrite Hcopy. apply store_splice; [lia|]. cbn [bytes_in]. lia. }
  change (Z.to_nat 0) with 0%nat. cbn [bytes_in]. eapply (restore_ecc loc ops sts).
  { apply at_work_bytes; [done|auto|]. cbn [bytes_in]. apply length_splice_in. lia. }
  intros c3 Hf3. apply (HQ _ _ sts); [congruence| |done|done| |].
  - apply at_work_bytes; [done|auto|]. cbn [bytes_in]. apply length_splice_in. lia.
  - cbn [set_bytes m_image set_m_spare]. rewrite Hi2. do 2 f_equal. unfold page_bytes. lia.
  - cbn [set_bytes m_spare set_m_spare]. by rewrite Hs2, Hs1.
Qed.
End Read.

(** * Programming *)

(** The end of a code word: start, status, and the bits of the status cleared. *)
Lemma clear_status loc ops sts m c r k l Q :
  at_work loc ops sts m → (k < IO_WORDS)%nat → r = NAND_FLASH_STATUS ∨ r = NAND_READ_STATUS → list_wp l Q (c, m) →
  list_wp (mkDmov 0 (data_at base k) r 4 :: l) Q (c, m).
Proof.
  intros (Hm & _) Hk Hr HQ. pose proof (data_words_length N loc m Hm) as Hw. apply list_wp_cons; [done|].
  destruct (lookup_lt_is_Some_2 (data_words m) k) as [y Hy]; [lia|].
  eapply (write_one f base N HL loc m _ _ k _ y); [done|done|by rewrite (drop_S _ y)|done|by destruct Hr as [-> | ->]|by destruct Hr as [-> | ->]|].
  by apply write_clear.
Qed.

Lemma word_done loc cm page c0 c1 x ec sts m c l Q :
  let ops := ops_of cm page c0 c1 x ec in
  at_work loc ops sts m → (length sts < 8)%nat →
  exec_wp f c (λ c', ∀ m', at_work loc ops (sts ++ [r_status c']) m' → same_bytes m m' → list_wp l Q (c', m')) →
  list_wp (mkDmov 0 (data_at base 7) NAND_EXEC_CMD 4 ::
           mkDmov SRC_CRCI_NAND_DATA NAND_FLASH_STATUS (data_at base (io_result (length sts))) 8 ::
           mkDmov 0 (data_at base 10) NAND_FLASH_STATUS 4 :: mkDmov 0 (data_at base 11) NAND_READ_STATUS 4 :: l) Q (c, m).
Proof.
  intros ops Hw Hl HQ. apply list_wp_cons; [done|]. eapply start_word; [exact Hw|]. eapply exec_wp_mono; [|exact HQ]. cbn beta.
  intros c' HQ'. apply list_wp_cons; [done|]. apply (word_status loc ops); [done|done|]. intros m' Hw' Hs.
  eapply clear_status; [exact Hw'|unfold IO_WORDS; lia|auto|]. eapply clear_status; [exact Hw'|unfold IO_WORDS; lia|auto|]. by apply HQ'.
Qed.
End Words.

(** ** Flashes with the same contents *)

#[global] Instance nand_equiv : Equiv nand := λ n n', (∀ p, pages n p = pages n' p) ∧ (∀ b, bad n b = bad n' b).
#[global] Instance nand_equivalence : Equivalence (≡@{nand}).
Proof.
  split; [by intros n|intros n n' [H1 H2]; by split|intros n n' n'' [H1 H2] [H3 H4]; split; intros; [by rewrite H1|by rewrite H2]].
Qed.
#[global] Instance set_page_proper p x : Proper ((≡) ==> (≡)) (set_page p x).
Proof. intros n n' [H1 H2]. split; intros q; cbn; [by rewrite H1|by rewrite H2]. Qed.
#[global] Instance erase_block_proper k b : Proper ((≡) ==> (≡)) (erase_block k b).
Proof. intros n n' [H1 H2]. split; intros q; cbn; [by rewrite H1|by rewrite H2]. Qed.
#[global] Instance mark_bad_proper b : Proper ((≡) ==> (≡)) (mark_bad b).
Proof. intros n n' [H1 H2]. split; intros q; cbn; [by rewrite H1|by rewrite H2]. Qed.

Lemma set_page_twice p x y n : set_page p x (set_page p y n) ≡ set_page p x n.
Proof. split; intros q; cbn; [by destruct (q =? p)|done]. Qed.

Section Program.
Context {H : Type} `{Dmov H} (f : format) (base : area → Z) (N : Z) (HL : layout_ok base N).
#[local] Notation list_wp := (list_wp f base).
#[local] Notation at_work := (at_work N).
Context (loc : nat) (page c0 c1 x : Z) (fl : nand) (cfg : nand_config) (m0 : memory).
Context (Hcws : f_cws f = 4 ∨ f_cws f = 8) (Hbch : bch cfg = f_bch f) (Hpage : page_ok f page) (Hp24 : 0 ≤ page < 2 ^ 24).
Context (Hc0 : Z.land (Z.shiftr c0 6) 7 = f_cws f - 1).
#[local] Notation ops := (ops_of NAND_CMD_PRG_PAGE page c0 c1 x 0x203).
#[local] Notation ready_chip := (armed NAND_CMD_PRG_PAGE page c0 c1 0x203).

Lemma program_exec c Q : ready_chip c → program_wp f c Q → exec_wp f c Q.
Proof. intros (E & _) HQ. unfold exec_wp. rewrite E. exact HQ. Qed.

Lemma program_facts c : ready_chip c →
  addr_page c = page ∧ addr_column c = 0 ∧ cfg_cws c = f_cws f - 1 ∧ r_cfg0 c = c0 ∧ cfg_ecc c = negb (Z.testbit c1 0) ∧ r_eccbuf c = 0x203.
Proof.
  intros (E1 & E2 & E3 & E4 & E5 & E6). destruct (addr_split0 page Hp24) as [Ea Eb]. unfold addr_page, addr_column, cfg_cws, cfg_ecc.
  rewrite E2, E3, E4, E5. by split_and!.
Qed.

(** ** With the code *)

Section Coded.
Context (Hu0 : Z.land (Z.shiftr c0 9) 1023 = 516) (Hc1 : Z.testbit c1 0 = false).
Context (Herased : pages fl page = Erased) (Hgood : bad fl (block_of f page) = false).
Context (off : nat) (sa : area) (so : Z) (dat sp : list Z).
Context (Hsa : sa = Spare ∨ sa = Image) (Hso : 0 ≤ so).
Context (Hdat : slice (m_image m0) (Z.of_nat off) (page_bytes f) = Ok dat) (Hsp : slice (bytes_in m0 sa) so (4 * f_words f) = Ok sp).

Definition full : list Z := dat ++ sp.

Definition written_so_far (n : nat) (c : chip) (m : memory) : Prop :=
  (n = 0%nat ∧ c_flash c = fl ∨
   n ≠ 0%nat ∧ ready_chip c ∧ c_cw c = n ∧ c_got c = take (516 * n) full ∧
   c_flash c ≡ set_page page (if (n =? f_words f)%nat && c_ok c then Data full else Junk) fl) ∧
  same_bytes m0 m ∧ ∃ sts, at_work loc ops sts m ∧ length sts = n ∧ (n ≠ 0%nat → c_ok c = forallb succeeded sts).

Lemma word_full n : (n < f_words f)%nat → (n < f_words f - 1)%nat ∧ cw_len (f_cws f) n = 516 ∨ n = (f_words f - 1)%nat ∧ cw_len (f_cws f) n = 512 - 4 * (f_cws f - 1).
Proof.
  unfold f_words, cw_len. intros Hn. destruct (Z.ltb_spec (Z.of_nat n) (f_cws f - 1)); [left|right]; (split; [lia|]); [done|].
  rewrite Z.shiftl_mul_pow2; lia.
Qed.

Lemma full_length : length dat = page_bytes f ∧ length sp = (4 * f_words f)%nat ∧ length full = (516 * f_words f)%nat.
Proof.
  pose proof (length_slice _ _ _ _ Hdat) as H1. pose proof (length_slice _ _ _ _ Hsp) as H2. unfold full. rewrite length_app, H1, H2.
  unfold page_bytes. split_and!; lia.
Qed.

Lemma take_two {A} (b d1 d2 : list A) n : (length d1 + length d2 = n)%nat → take n (splice (splice b 0 d1) (length d1) d2) = d1 ++ d2.
Proof.
  intros Hn. unfold splice. rewrite take_0. cbn [app]. rewrite (take_app_length d1), app_assoc, take_app_le by (rewrite length_app; lia).
  apply take_ge. rewrite length_app. lia.
Qed.

(** Data, and the spare bytes behind the last of it, go to the buffer. *)
Lemma fill_buffer n m c l Q :
  (n < f_words f)%nat → shape N loc m → same_bytes m0 m →
  (∀ b, take 516 b = take 516 (drop (516 * n) full) → list_wp l Q (set_buf b c, m)) →
  list_wp (mkDmov 0 (u32 (base Image + Z.of_nat off + Z.of_nat n * 516)) NAND_FLASH_BUFFER (cw_len (f_cws f) n) ::
           (if (Z.of_nat n =? f_cws f - 1) && negb false && negb false
            then [mkDmov 0 (base sa + so) (NAND_FLASH_BUFFER + (512 - Z.shiftl (f_cws f - 1) 2)) (Z.shiftl (f_cws f) 2)] else []) ++ l) Q (c, m).
Proof.
  intros Hn Hm (Hs1 & _ & _ & Hs4) HQ. destruct full_length as (Hl1 & Hl2 & Hl3). apply slice_ok in Hdat as (_ & Hd2 & Hd3). rewrite Nat2Z.id in Hd3.
  destruct (word_end f n Hcws Hn) as (Hk1 & Hk2 & Hk3 & Hk4 & Hk5). rewrite <- Hk4. set (k := Z.to_nat (cw_len (f_cws f) n)) in *.
  pose proof Hm as (_ & _ & _ & _ & _ & _ & HN & _). pose proof (base_end _ _ HL Image) as Hend. pose proof (base_pos _ _ HL Image).
  cbn [room] in Hend. rewrite Hs4 in HN. assert (516 * n + k ≤ page_bytes f)%nat as Hle by lia. rewrite u32_small by lia.
  replace (base Image + Z.of_nat off + Z.of_nat n * 516) with (base Image + Z.of_nat (off + 516 * n)) by lia.
  apply list_wp_cons; [done|]. change NAND_FLASH_BUFFER with (NAND_FLASH_BUFFER + Z.of_nat 0) at 1.
  assert (slice (bytes_in m Image) (Z.of_nat (off + 516 * n)) k = Ok (take k (drop (516 * n) dat))) as Hsl.
  { apply slice_ok. cbn [bytes_in]. rewrite Hs4, Nat2Z.id. split_and!; [lia|lia|]. rewrite Hd3, skipn_firstn_comm, take_take, drop_drop. f_equal. lia. }
  eapply (write_buffer f base N HL loc m c); [done|lia|cbn [size_of]; rewrite Hs4; lia|lia|unfold BUF_SIZE; lia|done|exact Hsl|].
  set (d := take k (drop (516 * n) dat)). assert (length d = k) as Hlk by (subst d; rewrite length_take, length_drop; lia).
  assert (∀ l', take 516 (splice l' 0 d) = take 516 (d ++ drop k l')) as Htake by (intros l'; unfold splice; by rewrite Hlk).
  destruct (word_full n Hn) as [[Hn' Hcl]|[Hn' Hcl]].
  - rewrite (proj2 (Z.eqb_neq _ _)) by (unfold f_words in *; lia). cbn [andb app]. apply HQ. rewrite Htake.
    assert (k = 516%nat) as Ek by lia. unfold full. rewrite drop_app_le, !take_app_le by (rewrite ?length_drop; lia).
    subst d. by rewrite take_take, Ek.
  - rewrite (proj2 (Z.eqb_eq _ _)) by (unfold f_words in *; lia). cbn [andb negb app]. apply list_wp_cons; [done|].
    assert (Z.of_nat k + Z.of_nat (4 * f_words f) = 516 ∧ 512 - Z.shiftl (f_cws f - 1) 2 = Z.of_nat k ∧ Z.shiftl (f_cws f) 2 = Z.of_nat (4 * f_words f)) as (Ek1 & -> & ->).
    { rewrite !Z.shiftl_mul_pow2 by lia. unfold f_words in *. split_and!; lia. }
    assert (bytes_in m sa = bytes_in m0 sa) as Hsab by (destruct Hsa as [-> | ->]; done).
    assert (size_of m sa = Z.of_nat (length (bytes_in m0 sa))) as Hsize by (rewrite <- Hsab; by destruct Hsa as [-> | ->]).
    pose proof Hsp as (_ & Hsp2 & _)%slice_ok.
    eapply (write_buffer f base N HL loc m); [done|done|rewrite Hsize; lia|lia|unfold BUF_SIZE; lia| |rewrite Hsab; exact Hsp|].
    { unfold f_words. by destruct Hcws as [-> | ->]. }
    change (set_buf _ (set_buf ?b c)) with (set_buf (splice b k sp) c). apply HQ. cbn [c_buf set_buf]. rewrite <- Hlk, take_two by lia.
    unfold full. rewrite drop_app_le by lia. rewrite take_ge by (rewrite length_app, length_drop; lia). f_equal. subst d. apply take_ge. rewrite length_drop. lia.
Qed.

(** One more code word is taken over. *)
Lemma program_word n c m sts l Q :
  ready_chip c → c_cw c = n → c_got c = take (516 * n) full → take 516 (c_buf c) = take 516 (drop (516 * n) full) → (n < f_words f)%nat →
  bad (c_flash c) (block_of f page) = false → (n = 0%nat → pages (c_flash c) page = Erased) → (∀ y, set_page page y (c_flash c) ≡ set_page page y fl) →
  at_work loc ops sts m → length sts = n → c_ok c = forallb succeeded sts → same_bytes m0 m →
  (∀ c' m', written_so_far (S n) c' m' → list_wp l Q (c', m')) →
  list_wp (mkDmov 0 (data_at base 7) NAND_EXEC_CMD 4 ::
           mkDmov SRC_CRCI_NAND_DATA NAND_FLASH_STATUS (data_at base (io_result n)) 8 ::
           mkDmov 0 (data_at base 10) NAND_FLASH_STATUS 4 :: mkDmov 0 (data_at base 11) NAND_READ_STATUS 4 :: l) Q (c, m).
Proof.
  intros Ha Hn Hgot Hbuf Hlt Hbad Hfirst Hset Hw Hlen Hok Hsame HQ. destruct full_length as (_ & _ & Hfl).
  rewrite <- Hlen. eapply (word_done f base N HL loc); [exact Hw|unfold f_words in *; destruct Hcws; lia|]. apply program_exec; [done|].
  destruct (program_facts c Ha) as (Ep & Ecol & Ecws & Ec0 & Eecc & Eec). unfold program_wp. rewrite Ep, Ecol, Ecws, Eecc, Eec, Hn, Hc1, Hbad. cbn [negb].
  unfold cfg_user. rewrite Ec0. split_and!; [done|done|done|unfold f_words in *; lia|done|done|done|auto|].
  intros st m1 Hw1 Hs1. apply HQ. set (c' := after _ _ _ _ _ _ c).
  assert (c_got c' = take (516 * S n) full) as Hgot'.
  { change (c_got c') with (c_got c ++ take 516 (c_buf c)). rewrite Hgot, Hbuf, take_take_drop. f_equal. lia. }
  split; [right; split_and!; [done|done|done|done|]|split; [by eapply same_bytes_trans|]].
  - change (c_flash c') with (set_page page (if (Z.of_nat n =? f_cws f - 1) && c_ok c' then Data (c_got c') else Junk) (c_flash c)). rewrite Hset, Hgot'.
    replace (Z.of_nat n =? f_cws f - 1) with (S n =? f_words f)%nat; [destruct (Nat.eqb_spec (S n) (f_words f)) as [E|E]; [|done]|].
    + by rewrite E, take_ge by lia.
    + unfold f_words in *. destruct (Nat.eqb_spec (S n) (Z.to_nat (f_cws f))); symmetry; [apply Z.eqb_eq|apply Z.eqb_neq]; lia.
  - exists (sts ++ [st]). split_and!; [done|rewrite length_app; cbn; lia|]. intros _. rewrite forallb_app. cbn [forallb].
    rewrite andb_true_r, <- Hok. done.
Qed.

Lemma program_words k : ∀ n c m l Q,
  (n + k = f_words f)%nat → written_so_far n c m → (∀ c' m', written_so_far (f_words f) c' m' → list_wp l Q (c', m')) →
  list_wp (flat_map (write_codeword base cfg false false (f_cws f) (base Image + Z.of_nat off) (base sa + so)) (seq n k) ++ l) Q (c, m).
Proof.
  induction k as [|k IH]; intros n c m l Q Hn Hr HQ.
  - cbn [seq flat_map app]. apply HQ. by replace (f_words f) with n by lia.
  - cbn [seq flat_map]. rewrite <- app_assoc. unfold write_codeword at 1. rewrite <- !app_assoc, Hbch.
    destruct Hr as (Hc & Hs & (sts & Hw & Hlen & Hok)). pose proof Hw as (Hm & _ & _). destruct n as [|n]; cbn [Nat.eqb app].
    + destruct Hc as [[_ Hf]|(? & _)]; [|done]. eapply first_word; [done|exact Hw|]. intros c' Ha Hcw Hgot Hok' Hf' Hbuf. rewrite Hf in Hf'.
      apply (fill_buffer 0); [lia|done|done|]. intros b Hb. destruct sts; [|done].
      eapply (program_word 0 _ _ []); [done|done|done|done|lia|by rewrite <- Hf' in Hgood|by rewrite <- Hf' in Herased|intros y; cbn; by rewrite Hf'|done|done|done|done|].
      intros c2 m2 H2. apply (IH 1%nat); [lia|done|done].
    + destruct Hc as [[? _]|(_ & Ha & Hcw & Hg & Hf)]; [done|]. eapply next_word; [done|exact Hw|exact Ha|].
      apply (fill_buffer (S n)); [lia|done|done|]. intros b Hb.
      eapply (program_word (S n) _ _ sts); [done|done|done|done|lia|destruct Hf as [_ Hf]; cbn; by rewrite Hf|done|intros y; cbn; rewrite Hf; apply set_page_twice|done|done|by apply Hok|done|].
      intros c2 m2 H2. apply (IH (S (S n))); [lia|done|done].
Qed.

Lemma program_list m c Q :
  at_work loc ops [] m → same_bytes m0 m → c_flash c = fl →
  (∀ c' m' sts, at_work loc ops sts m' → length sts = f_words f → same_bytes m0 m' →
     c_flash c' ≡ set_page page (if forallb succeeded sts then Data full else Junk) fl → Q (c', m')) →
  list_wp (write_page_list base cfg false false (f_cws f) (base Image + Z.of_nat off) (base sa + so)) Q (c, m).
Proof.
  intros Hw Hs Hf HQ. unfold write_page_list. cbn [app]. eapply (save_ecc f base N HL loc); [exact Hw|]. intros m1 Hw1 Hs1.
  apply (program_words (f_words f) 0); [lia| |].
  { split; [by left|]. split; [by eapply same_bytes_trans|]. by exists []. }
  intros c2 m2 (Hc & Hs2 & (sts & Hw2 & Hlen & Hok)). assert (f_words f ≠ 0%nat) as Hnz by (unfold f_words; destruct Hcws as [-> | ->]; done).
  eapply (restore_ecc f base N HL loc); [exact Hw2|]. intros c3 Hf3. apply (HQ _ _ sts); [done|done|done|].
  destruct Hc as [[? _]|(_ & _ & _ & _ & Hfl)]; [done|]. by rewrite Hf3, Hfl, Nat.eqb_refl, Hok.
Qed.
End Coded.

(** ** Without the code: zeros, over the mark too *)

Section Raw.
Context (Hc1 : Z.testbit c1 0 = true) (Hfirst : page mod f_ppb f = 0) (Hzero : m_empty m0 = replicate 528 0).

Definition marked_so_far (n : nat) (c : chip) (m : memory) : Prop :=
  (n = 0%nat ∧ c_flash c = fl ∨
   n ≠ 0%nat ∧ ready_chip c ∧ c_cw c = n ∧
   c_flash c ≡ (if (n =? f_words f)%nat then mark_bad (block_of f page) (set_page page Junk fl) else set_page page Junk fl)) ∧
  same_bytes m0 m ∧ ∃ sts, at_work loc ops sts m ∧ length sts = n.

Lemma mark_at_small : (S (mark_at f) < 528)%nat.
Proof. unfold mark_at, cw_size. destruct Hcws as [-> | ->], (f_bch f); vm_compute; lia. Qed.

Lemma raw_word n c m sts l Q :
  ready_chip c → c_cw c = n → (n < f_words f)%nat → set_page page Junk (c_flash c) ≡ set_page page Junk fl →
  at_work loc ops sts m → length sts = n → same_bytes m0 m →
  (∀ c' m', marked_so_far (S n) c' m' → list_wp l Q (c', m')) →
  list_wp (mkDmov 0 (base Empty) NAND_FLASH_BUFFER 528 :: mkDmov 0 (data_at base 7) NAND_EXEC_CMD 4 ::
           mkDmov SRC_CRCI_NAND_DATA NAND_FLASH_STATUS (data_at base (io_result n)) 8 ::
           mkDmov 0 (data_at base 10) NAND_FLASH_STATUS 4 :: mkDmov 0 (data_at base 11) NAND_READ_STATUS 4 :: l) Q (c, m).
Proof.
  intros Ha Hn Hlt Hset Hw Hlen Hsame HQ. pose proof Hsame as (_ & He & _ & _). pose proof Hw as (Hm & _ & _).
  apply list_wp_cons; [done|]. rewrite <- (Z.add_0_r (base Empty)).
  pose proof (write_buffer f base N HL loc m c 0 Empty 0 0 528 (replicate 528 0)) as Hwb. cbn [size_of bytes_in] in Hwb. rewrite He, Hzero in Hwb.
  apply Hwb; [done|lia|by vm_compute|lia|unfold BUF_SIZE; lia|done|by vm_compute|]. clear Hwb. set (b := splice (c_buf c) 0 _).
  assert (∀ i, (i < 528)%nat → nth i b 0 = 0) as Hb.
  { intros i Hi. subst b. unfold splice. rewrite take_0. cbn [app]. rewrite app_nth1 by (rewrite length_replicate; lia). by rewrite nth_lookup, lookup_replicate_2. }
  pose proof mark_at_small as Hmk. rewrite <- Hlen. eapply (word_done f base N HL loc); [exact Hw|unfold f_words in *; destruct Hcws; lia|].
  apply program_exec; [done|]. destruct (program_facts (set_buf b c)) as (Ep & Ecol & Ecws & Ec0 & Eecc & Eec); [done|].
  unfold program_wp. rewrite Ep, Ecol, Ecws, Eecc, Hc1. cbn [c_cw c_buf c_flash set_buf negb]. rewrite Hn, !Hb by lia.
  split_and!; [done|done|done|unfold f_words in *; lia|done|]. intros st m1 Hw1 Hs1. apply HQ. set (c' := after _ _ _ _ _ _ _).
  split; [right; split_and!; [done|done|done|]|split; [by eapply same_bytes_trans|exists (sts ++ [st]); split; [done|rewrite length_app; cbn; lia]]].
  change (0 =? 0) with true. rewrite !andb_true_r in *. subst c'. cbn [c_flash after].
  replace (Z.of_nat n =? f_cws f - 1) with (S n =? f_words f)%nat.
  - destruct (S n =? f_words f)%nat; [by apply mark_bad_proper|done].
  - unfold f_words in *. destruct (Nat.eqb_spec (S n) (Z.to_nat (f_cws f))); symmetry; [apply Z.eqb_eq|apply Z.eqb_neq]; lia.
Qed.

Lemma raw_words k : ∀ n c m l Q,
  (n + k = f_words f)%nat → marked_so_far n c m → (∀ c' m', marked_so_far (f_words f) c' m' → list_wp l Q (c', m')) →
  list_wp (flat_map (write_codeword base cfg true false (f_cws f) (base Empty) 0) (seq n k) ++ l) Q (c, m).
Proof.
  induction k as [|k IH]; intros n c m l Q Hn Hr HQ.
  - cbn [seq flat_map app]. apply HQ. by replace (f_words f) with n by lia.
  - cbn [seq flat_map]. rewrite <- app_assoc. unfold write_codeword at 1. rewrite <- !app_assoc, Hbch. cbn [negb]. rewrite andb_false_r. cbn [andb].
    destruct Hr as (Hc & Hs & (sts & Hw & Hlen)). destruct n as [|n]; cbn [Nat.eqb app].
    + destruct Hc as [[_ Hf]|(? & _)]; [|done]. eapply first_word; [done|exact Hw|]. intros c' Ha Hcw Hgot Hok' Hf' Hbuf. rewrite Hf in Hf'.
      eapply (raw_word 0 _ _ sts); [done|done|lia|by rewrite Hf'|done|done|done|]. intros c2 m2 H2. apply (IH 1%nat); [lia|done|done].
    + destruct Hc as [[? _]|(_ & Ha & Hcw & Hf)]; [done|]. eapply next_word; [done|exact Hw|exact Ha|].
      rewrite (proj2 (Nat.eqb_neq _ _)) in Hf by lia.
      eapply (raw_word (S n) _ _ sts); [done|done|lia|rewrite Hf; apply set_page_twice|done|done|done|].
      intros c2 m2 H2. apply (IH (S (S n))); [lia|done|done].
Qed.

Lemma raw_list m c Q :
  at_work loc ops [] m → same_bytes m0 m → c_flash c = fl →
  (∀ c' m' sts, at_work loc ops sts m' → length sts = f_words f → same_bytes m0 m' →
     c_flash c' ≡ mark_bad (block_of f page) (set_page page Junk fl) → Q (c', m')) →
  list_wp (write_page_list base cfg true false (f_cws f) (base Empty) 0) Q (c, m).
Proof.
  intros Hw Hs Hf HQ. unfold write_page_list. cbn [app]. eapply (save_ecc f base N HL loc); [exact Hw|]. intros m1 Hw1 Hs1.
  apply (raw_words (f_words f) 0); [lia| |].
  { split; [by left|]. split; [by eapply same_bytes_trans|]. by exists []. }
  intros c2 m2 (Hc & Hs2 & (sts & Hw2 & Hlen)). assert (f_words f ≠ 0%nat) as Hnz by (unfold f_words; destruct Hcws as [-> | ->]; done).
  eapply (restore_ecc f base N HL loc); [exact Hw2|]. intros c3 Hf3. apply (HQ _ _ sts); [done|done|done|].
  destruct Hc as [[? _]|(_ & _ & _ & Hfl)]; [done|]. by rewrite Hf3, Hfl, Nat.eqb_refl.
Qed.
End Raw.
End Program.
