(* ===== verification/NandFlash.v ===== *)
(** Reading and writing partitions of the flash, on hardware that conforms: what flash_write
    stores, flash_read_ext returns, whatever blocks are bad and whatever pages fail. *)
From Stdlib Require Import ZArith.
From stdpp Require Import base numbers list.
From S2P Require Import Prelude Bytes ArmMmu NandDriver NandSafe NandChip NandPages NandWords.

Section Flash.
Context {H : Type} `{Dmov H} (f : format) (base : area → Z) (N : Z) (HL : layout_ok base N) (slack : nat).
Context (R : H → memory → phase → Prop) `{!Conforms f base slack R} (polls : nat) (Hpolls : patient slack polls) (uninit : Z).
#[local] Notation runs := (runs R).
#[local] Notation configured := (configured f).

Definition some_shape (m : memory) : Prop := ∃ loc, shape N loc m.

(** * Pages *)

(** The variables, with a table of bad blocks that is right as far as it goes. *)
Definition with_table (v : nand_vars) (l : list Z) : nand_vars :=
  mkVars (config v) (info v) l (flash_pagesize v) (interleaved_mode v) (num_pages_per_blk v) (num_pages_per_blk_mask v) (flash_ptable v).
Definition table_ok (n : nand) (l : list Z) : Prop :=
  Z.of_nat (length l) = f_blocks f ∧ ∀ b e, l !! b = Some e → e = BB_UNKNOWN ∨ e = if bad n (Z.of_nat b) then BB_BAD else BB_GOOD.

Lemma with_table_same v : with_table v (bbtbl v) = v.
Proof. by destruct v. Qed.

Lemma configured_table v l : configured v → configured (with_table v l).
Proof. intros [[] ? ? ? ? ? ? ? ? ? ? ?]. by constructor. Qed.

Lemma check_bbtbl_runs loc c m v page :
  configured v → shape N loc m → page_ok f page → table_ok (c_flash c) (bbtbl v) →
  runs c m v (check_bbtbl base polls uninit page)
    (λ r c' m' v', r = bad (c_flash c) (block_of f page) ∧ c_flash c' = c_flash c ∧ some_shape m' ∧ kept m m' ∧
       ∃ l, table_ok (c_flash c) l ∧ v' = with_table v l).
Proof.
  intros Hk Hm Hp [Hl Ht]. unfold check_bbtbl. apply nruns_bind, runs_vars. unfold block_of, page_ok in *. rewrite (k_ppb f v Hk) in *.
  pose proof (k_geometry f v Hk) as Hg. assert (num_pages_per_blk v ≠ 0) as Hnz by (destruct (g_ppb v Hg); lia).
  apply nruns_bind, runs_udiv; [done|]. set (b := page / num_pages_per_blk v).
  assert (0 ≤ b < f_blocks f) as Hb by (subst b; destruct (g_ppb v Hg) as [E|E]; rewrite E in *; Z.div_mod_to_equations; lia).
  destruct (lookup_lt_is_Some_2 (bbtbl v) (Z.to_nat b)) as [e He]; [lia|]. apply nruns_bind. apply (runs_ok _ _ _ _ _ e); [by rewrite He|].
  destruct (Z.eqb_spec e BB_UNKNOWN) as [->|Hu].
  - apply nruns_bind. eapply nruns_mono; [apply (nand_isbad_runs f base N HL slack R polls Hpolls uninit loc); [done|done|unfold page_ok; by rewrite (k_ppb f v Hk)]|].
    fold b. intros r c' m' v' ((-> & Hf & Hm' & Hkp) & ->). apply nruns_bind, runs_vars. apply nruns_bind. apply nruns_bind, runs_vars, runs_set_vars.
    apply nruns_ret. split_and!; [by destruct (bad (c_flash c) b)|done|done|done|]. eexists. split; [|reflexivity]. split; [by rewrite length_insert|].
    intros i e [[<- [<- _]]|[_ Hi]]%list_lookup_insert_Some; [|by apply Ht]. right. rewrite Z2Nat.id by lia. by destruct (bad (c_flash c) b).
  - apply nruns_ret. destruct (Ht _ _ He) as [?|He']; [done|]. rewrite Z2Nat.id in He' by lia.
    split_and!; [subst e; by destruct (bad (c_flash c) b)|done|by exists loc|done|]. exists (bbtbl v). by rewrite with_table_same.
Qed.

(** The word of configuration for pages with the code. *)
Lemma apps_fields v : configured v →
  Z.land (Z.shiftr (CFG0 (config v)) 6) 7 = f_cws f - 1 ∧ Z.land (Z.shiftr (CFG0 (config v)) 9) 1023 = 516 ∧ (CFG0 (config v) =? CFG0_M (config v)) = false.
Proof.
  intros Hk. rewrite (k_cfg0 f v Hk), (k_modem f v Hk). destruct (format_cases f v Hk) as [[-> ->]|[-> ->]], (f_wide f), (f_bch f); by vm_compute.
Qed.

Lemma raw_fields v : configured v →
  Z.land (Z.shiftr (raw_cfg0 (config v) (f_cws f)) 6) 7 = f_cws f - 1 ∧ Z.testbit (raw_cfg1 (config v)) 0 = true.
Proof.
  intros Hk. split; [|by apply (raw_cfg1_ecc f)]. unfold raw_cfg0. rewrite (k_raw0 f v Hk).
  destruct (format_cases f v Hk) as [[-> _]|[-> _]], (f_bch f); by vm_compute.
Qed.

Lemma words_size v : configured v → (f_cws f = 4 ∨ f_cws f = 8) ∧ flash_pagesize v = Z.of_nat (page_bytes f) ∧ Z.shiftr (flash_pagesize v) 9 = f_cws f.
Proof.
  intros Hk. rewrite <- (k_cws f v Hk). unfold page_bytes, f_words. destruct (format_cases f v Hk) as [[-> ->]|[-> ->]]; auto.
Qed.

(** A page that holds data is read; in a bad block nothing is. *)
Lemma nand_read_runs loc c m v page off :
  configured v → shape N loc m → page_ok f page → table_ok (c_flash c) (bbtbl v) → Z.of_nat off + flash_pagesize v ≤ N →
  (bad (c_flash c) (block_of f page) = false → ∃ bs, pages (c_flash c) page = Data bs ∧ length bs = (516 * f_words f)%nat) →
  runs c m v (_flash_nand_read_page base polls uninit page (base Image + Z.of_nat off) (base Spare))
    (λ r c' m' v', c_flash c' = c_flash c ∧ some_shape m' ∧ (∃ l, table_ok (c_flash c) l ∧ v' = with_table v l) ∧
       if bad (c_flash c) (block_of f page) then r = -2 ∧ kept m m'
       else r = 0 ∧ ∃ bs, pages (c_flash c) page = Data bs ∧ m_image m' = splice (m_image m) off (take (page_bytes f) bs) ∧
              m_spare m' = splice (m_spare m) 0 (take 16 (drop (page_bytes f) bs))).
Proof.
  intros Hk Hm Hp Ht Hoff Hdata. unfold _flash_nand_read_page. apply nruns_bind, runs_vars. destruct (words_size v Hk) as (Hcws & Hps & ->).
  apply nruns_bind. eapply nruns_mono; [by apply (check_bbtbl_runs loc)|]. intros r c1 m1 v1 (-> & Hf1 & [loc1 Hm1] & Hk1 & l & Hl & ->).
  destruct (bad (c_flash c) (block_of f page)) eqn:Hbad; [apply nruns_ret; split_and!; [done|by exists loc1|by exists l|done|done]|].
  destruct (Hdata eq_refl) as (bs & Hbs & Hlen). destruct (apps_fields v Hk) as (Hc0 & Hu0 & _). destruct (block_page f v page Hk Hp) as (_ & _ & _ & _ & Hp24).
  assert (operands N loc1 (data_words m1) m1 m1) as Ho by done. pose proof (data_words_length N loc1 m1 Hm1) as Hwl. revert Ho.
  explicit (data_words m1) Hwl. intros Ho. apply nruns_bind. eapply runs_put_data; [done|exact Ho|cbn; unfold IO_WORDS; lia|]. spliced. intros m2 Ho2.
  apply nruns_bind. eapply runs_put_data; [done|exact Ho2|cbn; unfold IO_WORDS; lia|]. spliced. intros m3 Ho3.
  apply nruns_bind. eapply runs_put_opt; [done|exact Ho3|unfold IO_WORDS; lia|]. spliced. intros y m4 Ho4. apply nruns_bind.
  set (ws := _ :: _) in Ho4. eapply (runs_exec_list f base N slack R polls Hpolls loc1 ws _ _ _ _ _ (λ y, ∃ sts ops, c_flash y.1 = c_flash c ∧
    at_work N loc1 ops sts y.2 ∧ length sts = f_words f ∧ forallb (λ st, negb (flag st 0x110) && (negb false || flag st 0x80)) sts = true ∧
    m_image y.2 = splice (m_image m) off (take (page_bytes f) bs) ∧ m_spare y.2 = splice (m_spare m) 0 (take 16 (drop (page_bytes f) bs)))); [exact Ho4| | |].
  - destruct Hcws as [-> | ->]; vm_compute; lia.
  - intros m5 (Hm5 & Hd5 & Hs5). destruct Hk1 as [Hk1s Hk1i]. destruct Hs5 as (Hs5s & _ & _ & Hs5i). pose proof Hm as (_ & _ & _ & _ & _ & _ & HN & _).
    eapply (read_list f base N HL loc1 page (CFG0 (config v)) (CFG1 (config v)) y bs (m_image m) off (c_flash c));
      [done|by rewrite (k_bch f v Hk)|done|done|done|done|done|done|done|by apply (k_cfg1 f v)|lia|by split_and!; [|rewrite Hd5|]|congruence|done|].
    intros c' m' sts Hf' Hw' Hsl Hok Hi' Hs'. exists sts. eexists. split_and!; [done|exact Hw'|done|done|done|]. cbn [snd]. rewrite Hs'. congruence.
  - intros c' m' (sts & ops & Hf' & Hw' & Hsl & Hok & Hi' & Hs'). cbn [fst snd] in *. eapply nruns_mono; [eapply (check_results_runs N R); [exact Hw'|exact (eq_sym Hsl)]|].
    intros r c9 m9 v9 (-> & -> & -> & ->). rewrite drop_0, Hok. destruct Hw' as (Hm' & _). split_and!; [done|by exists loc1|by exists l|done|by exists bs].
Qed.

(** A page of the image, with spare bytes, is programmed, or spoilt. *)
Lemma nand_write_runs loc c m v page off sa so dat sp :
  configured v → shape N loc m → page_ok f page → pages (c_flash c) page = Erased → bad (c_flash c) (block_of f page) = false →
  sa = Spare ∨ sa = Image → 0 ≤ so → slice (m_image m) (Z.of_nat off) (page_bytes f) = Ok dat → slice (bytes_in m sa) so (4 * f_words f) = Ok sp →
  runs c m v (_flash_nand_write_page base polls page (base Image + Z.of_nat off) (base sa + so) false)
    (λ r c' m' v', v' = v ∧ some_shape m' ∧ kept m m' ∧
       (r = 0 ∧ c_flash c' ≡ set_page page (Data (dat ++ sp)) (c_flash c) ∨ r = -1 ∧ c_flash c' ≡ set_page page Junk (c_flash c))).
Proof.
  intros Hk Hm Hp He Hbad Hsa Hso Hdat Hsp. unfold _flash_nand_write_page. apply nruns_bind, runs_vars. destruct (words_size v Hk) as (Hcws & _ & ->).
  destruct (apps_fields v Hk) as (Hc0 & Hu0 & ->). destruct (block_page f v page Hk Hp) as (_ & _ & _ & _ & Hp24).
  assert (operands N loc (data_words m) m m) as Ho by done. pose proof (data_words_length N loc m Hm) as Hwl. revert Ho.
  explicit (data_words m) Hwl. intros Ho. apply nruns_bind. eapply runs_put_data; [done|exact Ho|cbn; unfold IO_WORDS; lia|]. spliced. intros m2 Ho2.
  apply nruns_bind. eapply runs_put_data; [done|exact Ho2|cbn; unfold IO_WORDS; lia|]. spliced. intros m3 Ho3.
  apply nruns_bind. apply nruns_bind. eapply runs_put_data; [done|exact Ho3|cbn; unfold IO_WORDS; lia|]. spliced. intros m4 Ho4.
  eapply runs_put_opt; [done|exact Ho4|unfold IO_WORDS; lia|]. spliced. intros y m5 Ho5.
  apply nruns_bind. eapply runs_put_data; [done|exact Ho5|cbn; unfold IO_WORDS; lia|]. spliced. intros m6 Ho6. apply nruns_bind.
  set (ws := _ :: _) in Ho6. eapply (runs_exec_list f base N slack R polls Hpolls loc ws _ _ _ _ _ (λ y, ∃ sts ops, at_work N loc ops sts y.2 ∧ length sts = f_words f ∧
    same_bytes m y.2 ∧ c_flash y.1 ≡ set_page page (if forallb succeeded sts then Data (dat ++ sp) else Junk) (c_flash c))); [exact Ho6| | |].
  - by apply length_write_page.
  - intros m7 (Hm7 & Hd7 & Hs7).
    eapply (program_list f base N HL loc page (CFG0 (config v)) (CFG1 (config v)) y (c_flash c) (config v) m);
      [done|by rewrite (k_bch f v Hk)|done|done|done|done|by apply (k_cfg1 f v)|done|done|done|done|done|done|by split_and!; [|rewrite Hd7|]|done|done|].
    intros c' m' sts Hw' Hsl Hs' Hf'. exists sts. eexists. by split_and!; [exact Hw'|..].
  - intros c' m' (sts & ops & Hw' & Hsl & Hs' & Hf'). cbn [fst snd] in *. eapply nruns_mono; [eapply (check_results_runs N R); [exact Hw'|exact (eq_sym Hsl)]|].
    intros r c9 m9 v9 (-> & -> & -> & ->). rewrite drop_0. destruct Hw' as (Hm' & _). split_and!; [done|by exists loc|by apply same_kept|].
    change (λ st, negb (flag st 272) && (negb true || flag st 128)) with succeeded. destruct (forallb succeeded sts); [left|right]; done.
Qed.

(** The mark of a bad block is set, whatever the result. *)
Lemma nand_mark_runs loc c m v page :
  configured v → shape N loc m → page_ok f page → page mod f_ppb f = 0 →
  runs c m v (flash_nand_mark_badblock base polls page)
    (λ r c' m' v', v' = v ∧ some_shape m' ∧ kept m m' ∧ c_flash c' ≡ mark_bad (block_of f page) (set_page page Junk (c_flash c))).
Proof.
  intros Hk Hm Hp Hp0. destruct (block_page f v page Hk Hp) as (_ & _ & _ & _ & Hp24). unfold flash_nand_mark_badblock. apply nruns_bind.
  apply nruns_bind, runs_mem. eapply runs_set_mem; [done|]. set (m1 := set_m_empty _ m).
  assert (shape N loc m1) as Hm1 by (destruct Hm as (? & ? & ? & ? & ? & ? & ? & ?); unfold shape; cbn; by split_and!).
  apply nruns_bind, runs_vars. assert (block_start v page = page) as ->.
  { rewrite block_start_eq by (try apply (k_geometry f v Hk); lia). rewrite <- (k_ppb f v Hk). pose proof (Z.div_mod page (f_ppb f)).
    destruct (g_ppb v (k_geometry f v Hk)) as [E|E]; rewrite <- (k_ppb f v Hk) in E; lia. }
  unfold _flash_nand_write_page. apply nruns_bind, runs_vars. destruct (words_size v Hk) as (Hcws & _ & ->).
  destruct (apps_fields v Hk) as (_ & _ & ->). destruct (raw_fields v Hk) as [Hc0 Hc1].
  assert (operands N loc (data_words m1) m1 m1) as Ho by done. pose proof (data_words_length N loc m1 Hm1) as Hwl. revert Ho.
  explicit (data_words m1) Hwl. intros Ho. apply nruns_bind. eapply runs_put_data; [done|exact Ho|cbn; unfold IO_WORDS; lia|]. spliced. intros m2 Ho2.
  apply nruns_bind. eapply runs_put_data; [done|exact Ho2|cbn; unfold IO_WORDS; lia|]. spliced. intros m3 Ho3.
  apply nruns_bind. eapply runs_put_data; [done|exact Ho3|cbn; unfold IO_WORDS; lia|]. spliced. intros m4 Ho4.
  apply nruns_bind. eapply runs_put_data; [done|exact Ho4|cbn; unfold IO_WORDS; lia|]. spliced. intros m5 Ho5. apply nruns_bind.
  set (ws := _ :: _) in Ho5. eapply (runs_exec_list f base N slack R polls Hpolls loc ws _ _ _ _ _ (λ y, ∃ sts ops, at_work N loc ops sts y.2 ∧ length sts = f_words f ∧
    same_bytes m1 y.2 ∧ c_flash y.1 ≡ mark_bad (block_of f page) (set_page page Junk (c_flash c)))); [exact Ho5|by apply length_write_page| |].
  - intros m7 (Hm7 & Hd7 & Hs7).
    eapply (raw_list f base N HL loc page (raw_cfg0 (config v) (f_cws f)) (raw_cfg1 (config v)) _ (c_flash c) (config v) m1);
      [done|by rewrite (k_bch f v Hk)|done|done|done|done|done|done|by split_and!; [|rewrite Hd7|]|done|done|].
    intros c' m' sts Hw' Hsl Hs' Hf'. exists sts. eexists. by split_and!; [exact Hw'|..].
  - intros c' m' (sts & ops & Hw' & Hsl & Hs' & Hf'). cbn [fst snd] in *. eapply nruns_mono; [eapply (check_results_runs N R); [exact Hw'|exact (eq_sym Hsl)]|].
    intros r c9 m9 v9 (-> & -> & -> & _). destruct Hw' as (Hm' & _). split_and!; [done|by exists loc|by destruct Hs' as (? & _ & _ & ?)|done].
Qed.

(** * The functions for both kinds of flash *)

Lemma by_type_runs c m v (p q : nd H Z) Φ : configured v → runs c m v p Φ → runs c m v (by_type p q) Φ.
Proof. intros Hk Hp. unfold by_type. apply nruns_bind, runs_vars. by rewrite (k_nand f v Hk). Qed.

Lemma erase_runs loc c m v page :
  configured v → shape N loc m → page_ok f page → page mod f_ppb f = 0 →
  runs c m v (flash_erase_block base polls uninit page)
    (λ r c' m' v', v' = v ∧ some_shape m' ∧ kept m m' ∧
       if bad (c_flash c) (block_of f page) then r = -1 ∧ c_flash c' = c_flash c
       else r = 0 ∧ c_flash c' = erase_block (f_ppb f) (block_of f page) (c_flash c)).
Proof. intros Hk Hm Hp Hp0. unfold flash_erase_block. apply by_type_runs; [done|]. by apply (nand_erase_runs f base N HL slack R polls Hpolls uninit loc). Qed.

Lemma mark_runs loc c m v page :
  configured v → shape N loc m → page_ok f page → page mod f_ppb f = 0 →
  runs c m v (flash_mark_badblock base polls page)
    (λ r c' m' v', v' = v ∧ some_shape m' ∧ kept m m' ∧ c_flash c' ≡ mark_bad (block_of f page) (set_page page Junk (c_flash c))).
Proof. intros Hk Hm Hp Hp0. unfold flash_mark_badblock. apply by_type_runs; [done|]. by apply (nand_mark_runs loc). Qed.

Lemma isbad_runs loc c m v page :
  configured v → shape N loc m → page_ok f page →
  runs c m v (_flash_block_isbad base polls uninit page)
    (λ r c' m' v', unchanged N c m v c' m' v' ∧ r = if bad (c_flash c) (block_of f page) then 1 else 0).
Proof.
  intros Hk Hm Hp. unfold _flash_block_isbad. apply by_type_runs; [done|]. unfold block_of. rewrite (k_ppb f v Hk).
  by apply (nand_isbad_runs f base N HL slack R polls Hpolls uninit loc).
Qed.

Lemma read_runs loc c m v page off :
  configured v → shape N loc m → page_ok f page → table_ok (c_flash c) (bbtbl v) → Z.of_nat off + flash_pagesize v ≤ N →
  (bad (c_flash c) (block_of f page) = false → ∃ bs, pages (c_flash c) page = Data bs ∧ length bs = (516 * f_words f)%nat) →
  runs c m v (_flash_read_page base polls uninit page (base Image + Z.of_nat off) (base Spare))
    (λ r c' m' v', c_flash c' = c_flash c ∧ some_shape m' ∧ (∃ l, table_ok (c_flash c) l ∧ v' = with_table v l) ∧
       if bad (c_flash c) (block_of f page) then r = -2 ∧ kept m m'
       else r = 0 ∧ ∃ bs, pages (c_flash c) page = Data bs ∧ m_image m' = splice (m_image m) off (take (page_bytes f) bs) ∧
              m_spare m' = splice (m_spare m) 0 (take 16 (drop (page_bytes f) bs))).
Proof.
  intros Hk Hm Hp Ht Ho Hd. unfold _flash_read_page. apply nruns_bind, runs_vars. rewrite (g_plain v (k_geometry f v Hk)). cbn [Z.eqb negb].
  apply by_type_runs; [done|]. by apply (nand_read_runs loc).
Qed.

Lemma write_runs loc c m v page off sa so dat sp :
  configured v → shape N loc m → page_ok f page → pages (c_flash c) page = Erased → bad (c_flash c) (block_of f page) = false →
  sa = Spare ∨ sa = Image → 0 ≤ so → slice (m_image m) (Z.of_nat off) (page_bytes f) = Ok dat → slice (bytes_in m sa) so (4 * f_words f) = Ok sp →
  runs c m v (_flash_write_page base polls page (base Image + Z.of_nat off) (base sa + so))
    (λ r c' m' v', v' = v ∧ some_shape m' ∧ kept m m' ∧
       (r = 0 ∧ c_flash c' ≡ set_page page (Data (dat ++ sp)) (c_flash c) ∨ r = -1 ∧ c_flash c' ≡ set_page page Junk (c_flash c))).
Proof.
  intros Hk Hm Hp He Hb Hsa Hso Hd Hs. unfold _flash_write_page. apply nruns_bind, runs_vars. rewrite (g_plain v (k_geometry f v Hk)). cbn [Z.eqb negb].
  apply by_type_runs; [done|]. by apply (nand_write_runs loc).
Qed.

(** * Pages of an image *)

(** [extra] spare bytes of the caller behind each page: none, or those of a page of 2048. *)
Definition extra_ok (extra : Z) : Prop := extra = 0 ∨ extra = 16 ∧ f_cws f = 4.
Definition chunk_size (extra : Z) : nat := (page_bytes f + Z.to_nat extra)%nat.
(** What is stored for page [i] of an image. *)
Definition stored (extra : Z) (img : list Z) (i : nat) : list Z :=
  let d := take (chunk_size extra) (drop (i * chunk_size extra) img) in
  if extra =? 0 then d ++ replicate (4 * f_words f) 0xFF else d.

Context (tt_ : list Z) (Htt : ∀ a, 0 ≤ a < 2 ^ 32 → arm_mmu_virt2phy tt_ a = Ok a).

Lemma runs_virt2phy c m v a (Φ : Z → chip → memory → nand_vars → Prop) : 0 ≤ a < 2 ^ 32 → Φ a c m v → runs c m v (virt2phy tt_ a) Φ.
Proof. intros Ha HΦ. unfold virt2phy. rewrite Htt by done. by apply nruns_ret. Qed.

Definition blank (m : memory) : Prop := take 64 (m_spare m) = replicate 64 0xFF.

Lemma write_image_runs loc c m v page extra i :
  configured v → shape N loc m → page_ok f page → pages (c_flash c) page = Erased → bad (c_flash c) (block_of f page) = false →
  extra_ok extra → (S i * chunk_size extra ≤ length (m_image m))%nat → blank m →
  runs c m v (write_image_page base tt_ polls page (base Image + Z.of_nat (i * chunk_size extra)) extra)
    (λ r c' m' v', v' = v ∧ some_shape m' ∧ kept m m' ∧
       (r = 0 ∧ c_flash c' ≡ set_page page (Data (stored extra (m_image m) i)) (c_flash c) ∨ r = -1 ∧ c_flash c' ≡ set_page page Junk (c_flash c))).
Proof.
  intros Hk Hm Hp He Hb Hx Hi Hbl. destruct (words_size v Hk) as (Hcws & Hps & _). unfold write_image_page. apply nruns_bind, runs_vars.
  pose proof Hm as (_ & _ & _ & Hsp & _ & _ & HN & _). pose proof (base_end _ _ HL Image) as Hend. pose proof (base_pos _ _ HL Image). cbn [room] in Hend.
  assert (f_words f = 4 ∨ f_words f = 8)%nat as Hfw by (unfold f_words; destruct Hcws as [-> | ->]; auto).
  apply nruns_bind, runs_virt2phy; [lia|]. unfold stored. set (w := chunk_size extra) in *. apply nruns_bind. cbn zeta.
  destruct Hx as [->|[-> Hx]]; cbn [Z.eqb negb].
  - apply nruns_ret. rewrite <- (Z.add_0_r (base Spare)). eapply (write_runs loc); [done|done|done|done|done|by left|lia| |].
    + apply slice_ok. rewrite Nat2Z.id. split_and!; [lia|subst w; unfold chunk_size in *; lia|]. subst w. unfold chunk_size. by rewrite Nat.add_0_r.
    + apply slice_ok. cbn [bytes_in]. split_and!; [lia|lia|]. change (Z.to_nat 0) with 0%nat. rewrite drop_0.
      replace (4 * f_words f)%nat with ((4 * f_words f) `min` 64)%nat at 2 by lia. rewrite <- take_take, Hbl, take_replicate. f_equal. lia.
  - assert (f_words f = 4)%nat as Hfw4 by (unfold f_words; by rewrite Hx). assert (w = page_bytes f + 16)%nat as Hw by done.
    rewrite Hps, u32_small by lia. apply runs_virt2phy; [lia|].
    replace (base Image + Z.of_nat (i * w) + Z.of_nat (page_bytes f)) with (base Image + Z.of_nat (i * w + page_bytes f)) by lia.
    clearbody w. subst w. rewrite <- take_take_drop, drop_drop. eapply (write_runs loc); [done|done|done|done|done|by right|lia| |].
    + apply slice_ok. rewrite Nat2Z.id. split_and!; [lia|lia|done].
    + apply slice_ok. cbn [bytes_in]. rewrite Nat2Z.id, Hfw4. split_and!; [lia|lia|done].
Qed.
End Flash.
