(* ===== verification/NandParts.v ===== *)
(** Partitions of the flash: flash_write and flash_read_ext, over any bad blocks and any
    failures.

    [holds n p ds e] is the abstract contents of a flash: from page [p] up to page [e] its
    good blocks hold the pages [ds], in order.  Writing establishes it, reading returns
    [ds]. *)
From Stdlib Require Import ZArith.
From stdpp Require Import base numbers list.
From S2P Require Import Prelude Bytes ArmMmu NandDriver NandSafe NandChip NandPages NandWords NandFlash.

(** * Contents *)

Section Contents.
Context (f : format) (Hppb : 0 < f_ppb f).

Inductive holds (n : nand) : Z → list (list Z) → Z → Prop :=
  | holds_nil p : holds n p [] p
  | holds_page p d ds e : bad n (block_of f p) = false → pages n p = Data d → holds n (p + 1) ds e → holds n p (d :: ds) e
  | holds_bad p ds e : bad n (block_of f p) = true → holds n (p + f_ppb f) ds e → holds n p ds e.

Lemma holds_le n p ds e : holds n p ds e → p + Z.of_nat (length ds) ≤ e.
Proof. induction 1; cbn [length] in *; lia. Qed.

Lemma holds_app n p ds q ds' e : holds n p ds q → holds n q ds' e → holds n p (ds ++ ds') e.
Proof. induction 1; intros Hq; cbn [app]; [done|by apply holds_page; auto|by apply holds_bad; auto]. Qed.

Lemma holds_snoc n p ds q d : holds n p ds q → bad n (block_of f q) = false → pages n q = Data d → holds n p (ds ++ [d]) (q + 1).
Proof. intros Hp Hb Hd. eapply holds_app; [exact Hp|]. apply holds_page; [done|done|apply holds_nil]. Qed.

Lemma holds_skip n p ds q : holds n p ds q → bad n (block_of f q) = true → holds n p ds (q + f_ppb f).
Proof. intros Hp Hb. rewrite <- (app_nil_r ds). eapply holds_app; [exact Hp|]. apply holds_bad; [done|apply holds_nil]. Qed.

(** Only the pages in between matter. *)
Lemma holds_frame n n' p ds e :
  holds n p ds e → (∀ q, p ≤ q < e → pages n' q = pages n q ∧ bad n' (block_of f q) = bad n (block_of f q)) → holds n' p ds e.
Proof.
  induction 1 as [p|p d ds e Hb Hd Hh IH|p ds e Hb Hh IH]; intros Hq; [apply holds_nil|..]; pose proof (holds_le _ _ _ _ Hh) as Hle.
  - destruct (Hq p) as [H1 H2]; [lia|]. apply holds_page; [congruence|congruence|]. apply IH. intros q ?. apply Hq. lia.
  - destruct (Hq p) as [H1 H2]; [lia|]. apply holds_bad; [congruence|]. apply IH. intros q ?. apply Hq. lia.
Qed.

Lemma holds_equiv n n' p ds e : n ≡ n' → holds n p ds e → holds n' p ds e.
Proof. intros [H1 H2] Hh. eapply holds_frame; [exact Hh|]. intros q _. by rewrite H1, H2. Qed.

(** ** Blocks *)

Lemma block_in b r : 0 ≤ r < f_ppb f → block_of f (b * f_ppb f + r) = b.
Proof. intros Hr. unfold block_of. rewrite Z.div_add_l, Z.div_small by lia. lia. Qed.

(** The rest of the contents, [j] pages later in a good block. *)
Lemma holds_drop n b j : ∀ r ds e,
  bad n b = false → 0 ≤ r → r + Z.of_nat j ≤ f_ppb f → (j ≤ length ds)%nat → holds n (b * f_ppb f + r) ds e →
  holds n (b * f_ppb f + r + Z.of_nat j) (drop j ds) e.
Proof.
  induction j as [|j IH]; intros r ds e Hb Hr Hj Hl Hh.
  - rewrite Z.add_0_r. by rewrite drop_0.
  - destruct ds as [|d ds]; [cbn in Hl; lia|]. cbn [length] in Hl. cbn [drop]. inversion Hh as [|? ? ? ? Hb' Hd Hh' |? ? ? Hb' Hh' ]; subst.
    + replace (b * f_ppb f + r + Z.of_nat (S j)) with (b * f_ppb f + (r + 1) + Z.of_nat j) by lia. apply IH; [done|lia|lia|lia|].
      by rewrite Z.add_assoc.
    + rewrite block_in in Hb' by lia. congruence.
Qed.

(** Past the bad blocks at the front. *)
Lemma holds_within n q ds e : holds n q ds e → ∀ b j, q = b * f_ppb f → Z.of_nat j < f_ppb f → (j < length ds)%nat →
  holds n (b * f_ppb f + Z.of_nat j) (drop j ds) e.
Proof.
  induction 1 as [p|p d ds e Hb Hd Hh IH|p ds e Hb Hh IH]; intros b j -> Hj Hl.
  - cbn in Hl. lia.
  - pose proof (holds_drop n b j 0 (d :: ds) e) as Hdrop. rewrite Z.add_0_r in *. rewrite <- (Z.add_0_r (b * _)), block_in in Hb by lia.
    apply Hdrop; [done|lia|lia|lia|]. apply holds_page; [|done|done]. by rewrite <- (Z.add_0_r (b * _)), block_in by lia.
  - rewrite <- (Z.add_0_r (b * _)), block_in in Hb by lia. apply holds_bad; [by rewrite block_in by lia|].
    replace (b * f_ppb f + Z.of_nat j + f_ppb f) with ((b + 1) * f_ppb f + Z.of_nat j) by lia. apply IH; [lia|done|done].
Qed.
End Contents.

(** * Reading *)

Section Parts.
Context {H : Type} `{Dmov H} (f : format) (base : area → Z) (N : Z) (HL : layout_ok base N) (slack : nat).
Context (R : H → memory → phase → Prop) `{!Conforms f base slack R} (polls : nat) (Hpolls : patient slack polls) (uninit : Z).
#[local] Notation runs := (runs R).
#[local] Notation configured := (configured f).
#[local] Notation holds := (holds f).
#[local] Notation some_shape := (some_shape N).
#[local] Notation table_ok := (table_ok f).
#[local] Notation chunk_size := (chunk_size f).

(** Pages as the driver leaves them. *)
Definition whole (ds : list (list Z)) : Prop := Forall (λ d, length d = (516 * f_words f)%nat) ds.

Lemma length_chunks ds w : whole ds → (w ≤ 516 * f_words f)%nat → length (concat (take w <$> ds)) = (length ds * w)%nat.
Proof.
  intros Hw Hle. induction Hw as [|d ds Hd Hw IH]; [done|]. cbn [fmap list_fmap concat length]. rewrite length_app, length_take.
  change (list_fmap _ _ (take w) ds) with (take w <$> ds). rewrite IH. lia.
Qed.

Lemma store_image_runs loc c m v o bs (Φ : unit → chip → memory → nand_vars → Prop) :
  shape N loc m → Z.of_nat o + Z.of_nat (length bs) ≤ N → (shape N loc (set_m_image (splice (m_image m) o bs) m) → Φ tt c (set_m_image (splice (m_image m) o bs) m) v) →
  runs c m v (store_bytes base (base Image + Z.of_nat o) bs) Φ.
Proof.
  intros Hm Ho HΦ. pose proof Hm as (? & ? & ? & ? & ? & ? & HN & ?). unfold store_bytes. apply nruns_bind, runs_mem.
  assert (shape N loc (set_m_image (splice (m_image m) o bs) m)) as Hm' by (unfold shape; cbn; rewrite length_splice_in by lia; by split_and!).
  destruct bs as [|b bs].
  - cbn [length Nat.eqb]. apply nruns_ret. rewrite splice_nil in *. by destruct m; apply HΦ.
  - change (length (b :: bs) =? 0)%nat with false. cbn iota. cbn [length] in Ho. rewrite (find_area_at base N loc) by (cbn [size_of]; done || lia).
    apply nruns_bind. apply (runs_ok _ _ _ _ _ (splice (m_image m) o (b :: bs))).
    + cbn [bytes_in]. rewrite store_splice by (cbn [length]; lia). by rewrite Nat2Z.id.
    + eapply runs_set_mem; [done|]. by apply HΦ.
Qed.

Lemma copy_spare_runs loc c m v o extra d (Φ : unit → chip → memory → nand_vars → Prop) :
  shape N loc m → 0 ≤ extra ≤ 16 → Z.of_nat o + extra ≤ N → take 16 (m_spare m) = take 16 d → (16 ≤ length d)%nat →
  (∀ m', shape N loc m' → m_image m' = splice (m_image m) o (take (Z.to_nat extra) d) → Φ tt c m' v) →
  runs c m v (copy_spare base (base Image + Z.of_nat o) extra) Φ.
Proof.
  intros Hm He Ho Hs Hd HΦ. pose proof Hm as (_ & _ & _ & Hsp & _). unfold copy_spare. apply nruns_bind, runs_mem. apply nruns_bind.
  apply (runs_ok _ _ _ _ _ (take (Z.to_nat extra) d)).
  - apply slice_ok. split_and!; [lia|lia|]. change (Z.to_nat 0) with 0%nat. rewrite drop_0. replace (Z.to_nat extra) with (Z.to_nat extra `min` 16)%nat by lia.
    by rewrite <- !take_take, Hs.
  - apply (store_image_runs loc); [done|rewrite length_take; lia|]. intros Hm'. by apply HΦ.
Qed.

Lemma configured_ppb v : configured v → 0 < f_ppb f ≤ 128 ∧ num_pages_per_blk v = f_ppb f ∧ 0 < f_blocks f ≤ 2 ^ 16.
Proof.
  intros Hk. rewrite (k_ppb f v Hk), (k_blocks f v Hk). pose proof (g_blocks v (k_geometry f v Hk)). destruct (g_ppb v (k_geometry f v Hk)); lia.
Qed.

Lemma with_table_twice v l l' : with_table (with_table v l) l' = with_table v l'.
Proof. done. Qed.

(** One page: the data and [extra] spare bytes go to the image. *)
Lemma read_page_copy loc c m v page off extra d :
  configured v → shape N loc m → page_ok f page → table_ok (c_flash c) (bbtbl v) → 0 ≤ extra ≤ 16 → Z.of_nat (off + chunk_size extra) ≤ N →
  bad (c_flash c) (block_of f page) = false → pages (c_flash c) page = Data d → length d = (516 * f_words f)%nat →
  ∀ (k : nd H Z) Φ,
  (∀ c' m' l, c_flash c' = c_flash c → some_shape m' → table_ok (c_flash c) l → m_image m' = splice (m_image m) off (take (chunk_size extra) d) →
     runs c' m' (with_table v l) k Φ) →
  runs c m v (_flash_read_page base polls uninit page (base Image + Z.of_nat off) (base Spare)) (λ r c' m' v', r = 0 ∧
    runs c' m' v' (copy_spare base (u32 (base Image + Z.of_nat off + flash_pagesize v)) extra;; k) Φ).
Proof.
  intros Hk Hm Hp Ht Hx HN Hb Hd Hl k Φ HΦ. destruct (words_size f v Hk) as (Hcws & Hps & _). pose proof (base_end _ _ HL Image) as Hend.
  pose proof (base_pos _ _ HL Image). cbn [room] in Hend. unfold NandFlash.chunk_size in *. pose proof Hm as (_ & _ & _ & Hsp & _ & _ & HNm & _).
  assert (f_words f = 4 ∨ f_words f = 8)%nat as Hfw by (unfold f_words; destruct Hcws as [-> | ->]; auto).
  eapply nruns_mono; [apply (read_runs f base N HL slack R polls Hpolls uninit loc); [done|done|done|done|lia|by exists d]|].
  rewrite Hb. intros r c1 m1 v1 (Hf1 & [loc1 Hm1] & (l & Hl1 & ->) & -> & bs & Hbs & Hi1 & Hs1). split; [done|]. rewrite Hd in Hbs. injection Hbs as <-.
  rewrite Hps, u32_small by lia. replace (base Image + Z.of_nat off + Z.of_nat (page_bytes f)) with (base Image + Z.of_nat (off + page_bytes f)) by lia.
  assert (length (drop (page_bytes f) d) = 4 * f_words f)%nat as Hld by (rewrite length_drop, Hl; unfold page_bytes; lia).
  apply nruns_bind. eapply (copy_spare_runs loc1 _ _ _ _ _ (drop (page_bytes f) d)); [done|done|lia| |lia|].
  - rewrite Hs1. unfold splice. rewrite take_0. cbn [app]. rewrite take_app_le by (rewrite length_take; lia). by rewrite take_take.
  - intros m2 Hm2 Hi2. apply HΦ; [done|by exists loc1|done|]. rewrite Hi2, Hi1.
    assert (length (take (page_bytes f) d) = page_bytes f) as Hlt by (rewrite length_take, Hl; unfold page_bytes; lia).
    rewrite <- Hlt at 2. rewrite splice_splice, take_take_drop; [done|]. rewrite Hlt, length_take. lia.
Qed.

Lemma read_pages_runs last extra fuel : ∀ c m v page off ds e,
  configured v → some_shape m → table_ok (c_flash c) (bbtbl v) → 0 ≤ page → last ≤ f_blocks f * f_ppb f → last < 2 ^ 31 → 0 ≤ extra ≤ 16 →
  holds (c_flash c) page ds e → e ≤ last → whole ds → Z.of_nat (off + length ds * chunk_size extra) ≤ N → last - page ≤ Z.of_nat fuel →
  runs c m v (read_pages base polls uninit fuel last extra page (base Image + Z.of_nat off) (Z.of_nat (length ds)))
    (λ r c' m' v', c_flash c' = c_flash c ∧ some_shape m' ∧ (∃ l, table_ok (c_flash c) l ∧ v' = with_table v l) ∧
       m_image m' = splice (m_image m) off (concat (take (chunk_size extra) <$> ds)) ∧ (r = 0 ∨ r = -1 ∧ e = last)).
Proof.
  induction fuel as [|fuel IH]; intros c m v page off ds e Hk [loc Hm] Ht Hp Hlast Hl31 Hx Hh He Hw HN Hf;
    destruct (configured_ppb v Hk) as (Hppb & Eppb & _); pose proof (holds_le f (proj1 Hppb) _ _ _ _ Hh) as Hle; cbn [read_pages].
  - rewrite (proj2 (Z.ltb_ge page last)) by lia. destruct ds; [|cbn in Hle; lia]. cbn [negb]. apply nruns_ret.
    split_and!; [done|by exists loc|exists (bbtbl v); by rewrite with_table_same|symmetry; apply splice_nil|]. right. cbn in Hle. split; [done|lia].
  - destruct (decide (ds = [])) as [->|Hne].
    { cbn [length] in *. assert (∀ r, (r = 0 ∨ r = -1 ∧ e = last) → runs c m v (mret r) (λ r c' m' v', c_flash c' = c_flash c ∧ some_shape m' ∧
        (∃ l, table_ok (c_flash c) l ∧ v' = with_table v l) ∧ m_image m' = splice (m_image m) off (concat (take (chunk_size extra) <$> [])) ∧ (r = 0 ∨ r = -1 ∧ e = last))) as Hret.
      { intros r Hr. apply nruns_ret. split_and!; [done|by exists loc|exists (bbtbl v); by rewrite with_table_same|symmetry; apply splice_nil|done]. }
      destruct (Z.ltb_spec page last); cbn [negb]; apply Hret; [by left|right; split; [done|lia]]. }
    assert (page_ok f page ∧ page < last) as [Hpage Hpl] by (destruct ds; [done|]; cbn [length] in Hle; unfold page_ok; lia).
    rewrite (proj2 (Z.ltb_lt page last)) by lia. cbn [negb]. rewrite (proj2 (Z.eqb_neq _ _)) by (destruct ds; [done|cbn; lia]).
    apply nruns_bind, runs_vars. apply nruns_bind. inversion Hh as [|? d ds' ? Hb Hd Hh'|? ? ? Hb Hh']; subst; [done|..].
    + apply List.Forall_cons_iff in Hw as [Hd1 Hw]. cbn [length] in *. pose proof (base_end _ _ HL Image) as Hend. pose proof (base_pos _ _ HL Image).
      cbn [room] in Hend. destruct (words_size f v Hk) as (_ & Hps & _). rewrite Hps.
      eapply nruns_mono; [eapply (read_page_copy loc c m v page off extra d); [done|done|done|done|done|lia|done|done|done|]|].
      2: { intros r c1 m1 v1 [-> Hr]. cbn [Z.eqb Z.opp]. rewrite <- Hps. exact Hr. }
      intros c2 m2 l Hf2 Hm2 Hl2 Hi2. rewrite (u32_small (page + 1)) by lia. unfold NandFlash.chunk_size in *.
      rewrite Hps, (u32_small (_ + _ + _)), u32_small by lia. set (w := (page_bytes f + Z.to_nat extra)%nat) in *.
      replace (base Image + Z.of_nat off + Z.of_nat (page_bytes f) + extra) with (base Image + Z.of_nat (off + w)) by lia.
      replace (Z.of_nat (S (length ds')) - 1) with (Z.of_nat (length ds')) by lia.
      eapply nruns_mono; [apply (IH c2 m2 (with_table v l) (page + 1) (off + w)%nat ds' e)|]; rewrite ?Hf2; try done; try lia; [by apply configured_table|].
      intros r c3 m3 v3 (Hf3 & Hm3 & (l3 & Hl3 & ->) & Hi3 & Hr). split_and!; [done|done|by exists l3| |done].
      rewrite Hi3, Hi2. cbn [fmap list_fmap concat]. assert (w ≤ 516 * f_words f)%nat as Hw516.
      { destruct (words_size f v Hk) as (Hcws & _). subst w. unfold page_bytes, f_words in *. destruct Hcws as [-> | ->]; lia. }
      assert (length (take w d) = w) as Hlw by (rewrite length_take; lia). pose proof Hm as (_ & _ & _ & _ & _ & _ & HNm & _).
      rewrite <- Hlw at 2. apply splice_splice. rewrite Hlw, length_chunks by done. lia.
    + eapply nruns_mono; [apply (read_runs f base N HL slack R polls Hpolls uninit loc); [done|done|done|done| |by rewrite Hb]|].
      { destruct (words_size f v Hk) as (_ & -> & _). unfold NandFlash.chunk_size in *. destruct ds; [done|]. cbn [length] in HN. lia. }
      rewrite Hb. intros r c1 m1 v1 (Hf1 & Hm1 & (l & Hl & ->) & -> & [Hk1 Hk2]). cbn [Z.eqb Z.opp Pos.eqb]. rewrite Eppb, u32_small by lia.
      eapply nruns_mono; [apply (IH c1 m1 (with_table v l) (page + f_ppb f) off ds e)|]; rewrite ?Hf1; try done; try lia; [by apply configured_table|].
      intros r c3 m3 v3 (Hf3 & Hm3 & (l3 & Hl3 & ->) & Hi3 & Hr). split_and!; [done|done|by exists l3|by rewrite Hi3, Hk2|done].
Qed.

(** ** The page of an offset *)

Lemma holds_take n p ds e k : 0 < f_ppb f → holds n p ds e → (k ≤ length ds)%nat →
  ∃ e', holds n p (take k ds) e' ∧ e' ≤ e ∧ ((k < length ds)%nat → e' < e).
Proof.
  intros Hppb Hh. revert k. induction Hh as [p|p d ds e Hb Hd Hh IH|p ds e Hb Hh IH]; intros k Hk.
  - exists p. cbn in Hk. rewrite take_nil. split_and!; [apply holds_nil|lia|cbn; lia].
  - destruct k as [|k].
    + pose proof (holds_le f Hppb _ _ _ _ Hh). exists p. split_and!; [apply holds_nil|lia|lia].
    + cbn [length] in Hk. destruct (IH k) as (e' & He' & Hle & Hlt); [lia|]. exists e'. split_and!; [by apply holds_page|done|cbn [length]; intros; apply Hlt; lia].
  - destruct (IH k) as (e' & He' & Hle & Hlt); [done|]. exists e'. split_and!; [by apply holds_bad|done|done].
Qed.

Lemma unchanged_refl c m v : some_shape m → unchanged N c m v c m v.
Proof. by intros Hm. Qed.
Lemma unchanged_trans c m v c1 m1 v1 c2 m2 v2 : unchanged N c m v c1 m1 v1 → unchanged N c1 m1 v1 c2 m2 v2 → unchanged N c m v c2 m2 v2.
Proof. intros (-> & E1 & _ & K1) (-> & E2 & S2 & K2). split_and!; [done|congruence|done|by eapply kept_trans]. Qed.

Lemma skip_bad_runs ptn fuel : ∀ c m v b q r ds e,
  configured v → some_shape m → 0 ≤ b → start ptn + length_ ptn ≤ f_blocks f → 0 ≤ start ptn + length_ ptn → 0 ≤ q → 0 ≤ r < f_ppb f →
  holds (c_flash c) (b * f_ppb f) ds e → e ≤ (start ptn + length_ ptn) * f_ppb f → (Z.to_nat (q * f_ppb f + r) < length ds)%nat →
  start ptn + length_ ptn - b ≤ Z.of_nat fuel →
  runs c m v (skip_bad base polls uninit fuel ptn b q ((b + q) * f_ppb f + r))
    (λ x c' m' v', unchanged N c m v c' m' v' ∧ x.1 = 0 ∧ 0 ≤ x.2 ∧ holds (c_flash c) x.2 (drop (Z.to_nat (q * f_ppb f + r)) ds) e).
Proof.
  induction fuel as [|fuel IH]; intros c m v b q r ds e Hk [loc Hm] Hb0 Hend Hend0 Hq Hr Hh He Hlen Hf;
    destruct (configured_ppb v Hk) as (Hppb & Eppb & Hblk); pose proof (holds_le f (proj1 Hppb) _ _ _ _ Hh) as Hle; cbn [skip_bad];
    rewrite (u32_small (start ptn + length_ ptn)) by lia; (destruct (Z.eqb_spec q 0) as [->|Hq0]; cbn [orb];
    [apply nruns_ret; split_and!; [by apply unchanged_refl; exists loc|done|cbn [snd]; nia|rewrite Z.add_0_r; cbn [fst snd];
     replace r with (Z.of_nat (Z.to_nat r)) at 1 by lia; apply (holds_within f (proj1 Hppb) _ _ _ _ Hh); [done|lia|lia]]|]).
  - assert (0 < Z.of_nat (length ds)) by lia. assert (b * f_ppb f < (start ptn + length_ ptn) * f_ppb f) as Hlt by lia.
    apply Z.mul_lt_mono_pos_r in Hlt; lia.
  - assert (b < start ptn + length_ ptn) as Hbe by (apply (Z.mul_lt_mono_pos_r (f_ppb f)); lia).
    rewrite (proj2 (Z.ltb_lt _ _)) by done. cbn [negb]. apply nruns_bind, runs_vars. apply nruns_bind. rewrite Eppb.
    assert (0 ≤ b * f_ppb f ∧ page_ok f (b * f_ppb f)) as [Hbp Hpage] by (unfold page_ok; nia).
    rewrite (u32_small (b * _)) by (unfold page_ok in Hpage; nia).
    eapply nruns_mono; [by apply (isbad_runs f base N HL slack R polls Hpolls uninit loc)|]. intros x c1 m1 v1 [(-> & Hf1 & Hm1 & Hk1) ->].
    assert (block_of f (b * f_ppb f) = b) as Hblock by (rewrite <- (Z.add_0_r (b * _)); apply block_in; lia). rewrite Hblock.
    assert (∀ q' ds', 0 ≤ q' → (Z.to_nat (q' * f_ppb f + r) < length ds')%nat → holds (c_flash c) ((b + 1) * f_ppb f) ds' e →
      drop (Z.to_nat (q' * f_ppb f + r)) ds' = drop (Z.to_nat (q * f_ppb f + r)) ds →
      runs c1 m1 v (skip_bad base polls uninit fuel ptn (b + 1) q' ((b + 1 + q') * f_ppb f + r))
        (λ x c' m' v', unchanged N c m v c' m' v' ∧ x.1 = 0 ∧ 0 ≤ x.2 ∧ holds (c_flash c) x.2 (drop (Z.to_nat (q * f_ppb f + r)) ds) e)) as Hnext.
    { intros q' ds' Hq' Hl' Hh' <-. eapply nruns_mono; [apply (IH c1 m1 v (b + 1) q' r ds' e)|]; rewrite ?Hf1; try done; try lia.
      intros x c2 m2 v2 (Hu & Hx). split; [|done]. by eapply unchanged_trans. }
    destruct (bad (c_flash c) b) eqn:Hbad; cbn [Z.eqb negb]; rewrite (u32_small (b + 1)) by lia.
    + assert ((b + q) * f_ppb f + r < 2 ^ 31) as Hsmall by nia. assert (0 ≤ (b + q) * f_ppb f) by nia. rewrite u32_small by lia.
      replace ((b + q) * f_ppb f + r + f_ppb f) with ((b + 1 + q) * f_ppb f + r) by lia. apply (Hnext q ds); [done|done| |done].
      replace ((b + 1) * f_ppb f) with (b * f_ppb f + f_ppb f) by lia. inversion Hh as [|? ? ? ? Hb' | ]; subst; [cbn in Hlen; lia|congruence|done].
    + assert (0 ≤ (q - 1) * f_ppb f) by nia. assert (Z.to_nat (q * f_ppb f + r) = Z.to_nat (f_ppb f) + Z.to_nat ((q - 1) * f_ppb f + r))%nat as Hsum by lia.
      replace ((b + q) * f_ppb f + r) with ((b + 1 + (q - 1)) * f_ppb f + r) by lia.
      apply (Hnext (q - 1) (drop (Z.to_nat (f_ppb f)) ds)); [lia|rewrite length_drop; lia| |by rewrite Hsum, drop_drop].
      pose proof (holds_drop f (proj1 Hppb) (c_flash c) b (Z.to_nat (f_ppb f)) 0 ds e) as Hd. rewrite Z.add_0_r in Hd.
      replace ((b + 1) * f_ppb f) with (b * f_ppb f + Z.of_nat (Z.to_nat (f_ppb f))) by lia. apply Hd; [done|lia|lia|lia|done].
Qed.

(** ** flash_read_ext *)

(** The variables with the layout of the applications in use. *)
Definition apps (v : nand_vars) : nand_vars :=
  let c := config v in
  mkVars (mkConfig (CFG0_A c) (CFG1_A c) (CFG0_M c) (CFG1_M c) (CFG0_A c) (CFG1_A c) (NAND_CFG0_RAW c) (NAND_CFG1_RAW c)
            (ECC_BCH_CFG c) (enable_bch_ecc c) (nand_cfg1 c))
    (info v) (bbtbl v) (flash_pagesize v) (interleaved_mode v) (num_pages_per_blk v) (num_pages_per_blk_mask v) (flash_ptable v).

Lemma set_apps_runs c m v t (Φ : unit → chip → memory → nand_vars → Prop) :
  t ≠ TYPE_MODEM_PARTITION → Φ tt c m (apps v) → runs c m v (set_nand_configuration t) Φ.
Proof.
  intros Ht HΦ. unfold set_nand_configuration. apply nruns_bind, runs_vars. rewrite (proj2 (Z.eqb_neq _ _)) by done.
  apply nruns_bind, runs_vars. by apply runs_set_vars.
Qed.

(** A partition of the flash. *)
Definition partition_ok (ptn : ptentry) : Prop := 0 ≤ start ptn ∧ 0 ≤ length_ ptn ∧ start ptn + length_ ptn ≤ f_blocks f.
Definition last_page (ptn : ptentry) : Z := (start ptn + length_ ptn) * f_ppb f.

Lemma aligned_offset k ps : ps = 2048 ∨ ps = 4096 → 0 ≤ k * ps → flag (k * ps) (u32 (ps - 1)) = false.
Proof.
  intros Hps Hk. unfold flag. assert (∀ i, 0 ≤ i → Z.land (k * 2 ^ i) (Z.ones i) = 0) as Hland.
  { intros i Hi. by rewrite Z.land_ones, Z.mod_mul by (try apply Z.pow_nonzero; lia). }
  destruct Hps as [-> | ->]; apply negb_false_iff, Z.eqb_eq; [apply (Hland 11)|apply (Hland 12)]; lia.
Qed.

(** From an offset of [q] blocks and [r] pages. *)
Lemma seek_runs c m v ptn q r ds e :
  configured v → some_shape m → partition_ok ptn → 0 ≤ q < 2 ^ 31 → 0 ≤ r < f_ppb f →
  holds (c_flash c) (start ptn * f_ppb f) ds e → e ≤ last_page ptn → (Z.to_nat (q * f_ppb f + r) < length ds)%nat →
  runs c m v (if start ptn <? start ptn + q
              then skip_bad base polls uninit (Z.to_nat (length_ ptn)) ptn (start ptn) (s32 (start ptn + q - start ptn)) ((start ptn + q) * f_ppb f + r)
              else mret (0, (start ptn + q) * f_ppb f + r))
    (λ x c' m' v', unchanged N c m v c' m' v' ∧ x.1 = 0 ∧ 0 ≤ x.2 ∧ holds (c_flash c) x.2 (drop (Z.to_nat (q * f_ppb f + r)) ds) e).
Proof.
  intros Hk Hm (Hp1 & Hp2 & Hp3) Hq Hr Hh He Hl. destruct (configured_ppb v Hk) as (Hppb & _ & _). unfold last_page in *.
  replace (s32 (start ptn + q - start ptn)) with q by (replace (start ptn + q - start ptn) with q by lia; symmetry; apply s32_small; lia).
  destruct (Z.ltb_spec (start ptn) (start ptn + q)).
  - apply skip_bad_runs; try done; lia.
  - assert (q = 0) as -> by lia. apply nruns_ret. rewrite Z.add_0_r in *. cbn [fst snd]. split_and!; [by apply unchanged_refl|done|nia|].
    replace r with (Z.of_nat (Z.to_nat r)) at 1 by lia. apply (holds_within f (proj1 Hppb) _ _ _ _ Hh); [done|lia|lia].
Qed.

Lemma read_ext_runs c m v ptn extra k bytes ds e :
  configured (apps v) → some_shape m → table_ok (c_flash c) (bbtbl v) → partition_ok ptn → 0 ≤ extra ≤ 16 → 0 ≤ bytes < 2 ^ 31 →
  let cnt := Z.to_nat ((bytes + Z.of_nat (chunk_size extra) - 1) / Z.of_nat (chunk_size extra)) in
  holds (c_flash c) (start ptn * f_ppb f) ds e → e ≤ last_page ptn → whole ds → (k + cnt ≤ length ds)%nat → (k < length ds)%nat →
  Z.of_nat (cnt * chunk_size extra) ≤ N →
  runs c m v (flash_read_ext base polls uninit ptn extra (Z.of_nat k * flash_pagesize v) (base Image) bytes)
    (λ r c' m' v', c_flash c' = c_flash c ∧ some_shape m' ∧ (∃ l, table_ok (c_flash c) l ∧ v' = with_table (apps v) l) ∧
       m_image m' = splice (m_image m) 0 (concat (take (chunk_size extra) <$> take cnt (drop k ds))) ∧
       (r = 0 ∨ r = -1 ∧ (k + cnt = length ds)%nat ∧ e = last_page ptn)).
Proof.
  intros Hk Hm Ht (Hp1 & Hp2 & Hp3) Hx Hb cnt Hh He Hw Hcnt Hkl HN. destruct (configured_ppb (apps v) Hk) as (Hppb & Eppb & Hblk).
  destruct (words_size f (apps v) Hk) as (Hcws & Hps & _). cbn [num_pages_per_blk flash_pagesize apps] in Eppb, Hps. pose proof (k_geometry f _ Hk) as Hg.
  pose proof (g_pagesize _ Hg) as Hps2. cbn [flash_pagesize apps] in Hps2. pose proof (holds_le f (proj1 Hppb) _ _ _ _ Hh) as Hle. unfold last_page in *.
  assert (0 ≤ start ptn * f_ppb f ∧ (start ptn + length_ ptn) * f_ppb f ≤ 2 ^ 23) as [Hs0 Hl23] by nia.
  unfold flash_read_ext. apply nruns_bind, runs_vars. apply nruns_bind, runs_udiv; [lia|]. rewrite Z.div_mul by lia.
  rewrite (u32_small (flash_pagesize v + extra)), (u32_small (bytes + _ - _ + _)) by lia. apply nruns_bind, runs_udiv; [lia|].
  rewrite Eppb, (u32_small (start ptn * _)), (u32_small (start ptn * _ + _)), (u32_small (start ptn + _)), (u32_small ((_ + _) * _)) by lia.
  set (page := start ptn * f_ppb f + Z.of_nat k). destruct (land_mask (apps v) page Hg) as [Hmask Hmod]; [lia|].
  cbn [num_pages_per_blk num_pages_per_blk_mask apps] in Hmask, Hmod. rewrite Hmask, Eppb in *. apply nruns_bind, runs_udiv; [lia|].
  set (q := Z.of_nat k / f_ppb f). set (r := Z.of_nat k mod f_ppb f). pose proof (Z.div_mod (Z.of_nat k) (f_ppb f)) as Hqr. fold q r in Hqr.
  assert (0 ≤ q ∧ 0 ≤ r < f_ppb f) as [Hq Hr] by (split; [apply Z.div_pos; lia|apply Z.mod_pos_bound; lia]).
  assert (page mod f_ppb f = r) as -> by (subst page; rewrite Z.add_comm, Z.mod_add by lia; done).
  assert (page = (start ptn + q) * f_ppb f + r) as Epage by lia. assert (u32 (page - r) / f_ppb f = start ptn + q) as ->.
  { rewrite u32_small by lia. rewrite Epage. replace (_ + r - r) with ((start ptn + q) * f_ppb f) by lia. apply Z.div_mul. lia. }
  apply nruns_bind, set_apps_runs; [done|]. rewrite aligned_offset by (done || lia). apply nruns_bind.
  eapply nruns_mono; [rewrite Epage; apply (seek_runs c m (apps v) ptn q r ds e); try done; lia|].
  intros [left page'] c1 m1 v1 ((-> & Hf1 & Hm1 & Hk1 & Hk2) & Hx1 & Hx2 & Hx3). cbn [fst snd] in *. subst left. cbn [Z.eqb negb].
  replace (Z.to_nat (q * f_ppb f + r)) with k in Hx3 by lia.
  destruct (holds_take _ _ _ _ cnt (proj1 Hppb) Hx3) as (e' & Hh' & He' & Hlt); [rewrite length_drop; lia|].
  assert ((bytes + flash_pagesize v - 1 + extra) / (flash_pagesize v + extra) = Z.of_nat (length (take cnt (drop k ds)))) as ->.
  { rewrite length_take, length_drop, Nat.min_l by lia. subst cnt. unfold NandFlash.chunk_size in *. rewrite Hps, Z2Nat.id by (apply Z.div_pos; lia).
    f_equal; lia. }
  rewrite <- (Z.add_0_r (base Image)). change 0 with (Z.of_nat 0) at 2.
  eapply nruns_mono; [apply (read_pages_runs _ _ _ c1 m1 (apps v) page' 0 (take cnt (drop k ds)) e'); rewrite ?Hf1; try done; try lia|].
  - nia.
  - by apply Forall_take, Forall_drop.
  - rewrite length_take, length_drop, Nat.min_l by lia. exact HN.
  - intros x c2 m2 v2 (Hf2 & Hm2 & Hl2 & Hi2 & Hr2). rewrite Hf1 in *. rewrite <- Hk2. split_and!; [done|done|done|done|].
    destruct Hr2 as [?|[-> Hr2]]; [by left|right]. rewrite length_drop in Hlt. split_and!; [done| |lia].
    destruct (decide (k + cnt = length ds)%nat); [done|lia].
Qed.

(** On every flash controller that behaves as documented, flash_read_ext returns what
    the partition holds, counted in the pages of its good blocks: from page [k] of the
    contents on, past any bad blocks before and inside the range, the bytes of the pages
    and the spare bytes asked for are in the buffer, nothing is written to the flash and
    no loop runs forever.  The result is 0, except that -1 is returned when the range ends
    with the last page of the partition, though everything was read. *)
Theorem flash_read_contents c m v ptn extra k bytes ds e :
  configured (apps v) → some_shape m → table_ok (c_flash c) (bbtbl v) → partition_ok ptn → 0 ≤ extra ≤ 16 → 0 ≤ bytes < 2 ^ 31 →
  let cnt := Z.to_nat ((bytes + Z.of_nat (chunk_size extra) - 1) / Z.of_nat (chunk_size extra)) in
  holds (c_flash c) (start ptn * f_ppb f) ds e → e ≤ last_page ptn → whole ds → (k + cnt ≤ length ds)%nat → (k < length ds)%nat →
  Z.of_nat (cnt * chunk_size extra) ≤ N →
  runs c m v (flash_read_ext base polls uninit ptn extra (Z.of_nat k * flash_pagesize v) (base Image) bytes)
    (λ r c' m' v', c_flash c' = c_flash c ∧
       m_image m' = splice (m_image m) 0 (concat (take (chunk_size extra) <$> take cnt (drop k ds))) ∧
       (r = 0 ∨ r = -1 ∧ (k + cnt = length ds)%nat ∧ e = last_page ptn)).
Proof.
  intros Hk Hm Ht Hp Hx Hb cnt Hh He Hw Hc Hl HN. eapply nruns_mono; [by apply (read_ext_runs c m v ptn extra k bytes ds e)|].
  intros r c' m' v' (Hf & _ & _ & Hi & Hr). done.
Qed.
End Parts.
