(* ===== verification/NandWrite.v ===== *)
(** Writing a partition of the flash, and reading it back. *)
From Stdlib Require Import ZArith.
From stdpp Require Import base numbers list.
From S2P Require Import Prelude Bytes ArmMmu NandDriver NandSafe NandChip NandPages NandWords NandFlash NandParts.

(** * Changes of the flash *)

Section Changes.
Context (f : format) (Hppb : 0 < f_ppb f).
#[local] Notation holds := (holds f).

(** [n'] is [n] but for the blocks from [lo] to [hi]; a bad block stays bad. *)
Definition confined (lo hi : Z) (n n' : nand) : Prop :=
  (∀ q, ¬ (lo ≤ block_of f q < hi) → pages n' q = pages n q) ∧ (∀ b, bad n b = true → bad n' b = true) ∧
  (∀ b, ¬ (lo ≤ b < hi) → bad n' b = bad n b).

Lemma confined_refl lo hi n : confined lo hi n n.
Proof. done. Qed.
Lemma confined_trans lo hi n1 n2 n3 : confined lo hi n1 n2 → confined lo hi n2 n3 → confined lo hi n1 n3.
Proof. intros (A1 & A2 & A3) (B1 & B2 & B3). split_and!; intros; [rewrite B1, A1|auto|rewrite B3, A3]; done. Qed.
Lemma confined_mono lo hi lo' hi' n n' : lo ≤ lo' → hi' ≤ hi → confined lo' hi' n n' → confined lo hi n n'.
Proof. intros Hl Hh (A1 & A2 & A3). split_and!; intros; [apply A1|auto|apply A3]; lia. Qed.
Lemma confined_equiv lo hi n1 n2 n3 : confined lo hi n1 n2 → n3 ≡ n2 → confined lo hi n1 n3.
Proof. intros (A1 & A2 & A3) [E1 E2]. split_and!; intros; rewrite ?E1, ?E2; auto. Qed.
Lemma confined_page b p x n : block_of f p = b → confined b (b + 1) n (set_page p x n).
Proof. intros <-. split_and!; intros; cbn; try done. destruct (Z.eqb_spec q p) as [->|]; [lia|done]. Qed.
Lemma confined_erase b n : confined b (b + 1) n (erase_block (f_ppb f) b n).
Proof. split_and!; intros; cbn; try done. unfold block_of in *. rewrite (proj2 (Z.eqb_neq _ _)) by lia. done. Qed.
Lemma confined_mark b n : confined b (b + 1) n (mark_bad b n).
Proof. split_and!; intros b' ?; cbn; [done|by rewrite orb_comm, H|]. by rewrite (proj2 (Z.eqb_neq _ _)) by lia. Qed.

Lemma block_below q b : q < b * f_ppb f → block_of f q < b.
Proof. intros Hq. unfold block_of. apply Z.div_lt_upper_bound; lia. Qed.

Lemma confined_holds b hi n n' p ds e : confined b hi n n' → e ≤ b * f_ppb f → holds n p ds e → holds n' p ds e.
Proof.
  intros (A1 & _ & A3) He Hh. eapply holds_frame; [done|exact Hh|]. intros q Hq. pose proof (block_below q b). split; [apply A1|apply A3]; lia.
Qed.

(** * A block at work *)

Definition block_page0 (p : Z) : Z := block_of f p * f_ppb f.

(** The block of [p] is good and erased from [p] on. *)
Definition opened (n : nand) (p : Z) : Prop :=
  bad n (block_of f p) = false ∧ ∀ q, p ≤ q → block_of f q = block_of f p → pages n q = Erased.

(** [pre] is in the blocks from [s] to that of [p], [cur] in the latter, up to [p]. *)
Record writing (s : Z) (n : nand) (pre cur : list (list Z)) (p : Z) : Prop := {
  w_pre : holds n (s * f_ppb f) pre (block_page0 p);
  w_cur : holds n (block_page0 p) cur p;
  w_len : Z.of_nat (length cur) = p mod f_ppb f;
  w_open : p mod f_ppb f ≠ 0 → opened n p;
}.

Lemma page_split p : p = block_page0 p + p mod f_ppb f ∧ 0 ≤ p mod f_ppb f < f_ppb f.
Proof. unfold block_page0, block_of. pose proof (Z.div_mod p (f_ppb f)). pose proof (Z.mod_pos_bound p (f_ppb f)). lia. Qed.

Lemma writing_aligned s n pre p : holds n (s * f_ppb f) pre p → p mod f_ppb f = 0 → writing s n pre [] p.
Proof.
  intros Hh Hp. destruct (page_split p) as [E _]. rewrite Hp, Z.add_0_r in E. split; rewrite <- ?E; [done|apply holds_nil|done|done].
Qed.

Lemma next_block p : p mod f_ppb f = 0 → (p + f_ppb f) mod f_ppb f = 0.
Proof. intros Hp. rewrite <- (Z.mul_1_l (f_ppb f)) at 1. by rewrite Z.mod_add by lia. Qed.

Lemma writing_nil s n pre cur p : writing s n pre cur p → p mod f_ppb f = 0 → cur = [] ∧ holds n (s * f_ppb f) pre p.
Proof.
  intros [H1 _ H3 _] Hp. destruct (page_split p) as [E _]. rewrite Hp, Z.add_0_r in E. rewrite <- E in H1.
  rewrite Hp in H3. split; [|done]. destruct cur; [done|cbn in H3; lia].
Qed.

(** A bad block is passed over. *)
Lemma writing_skip s n pre cur p :
  writing s n pre cur p → p mod f_ppb f = 0 → bad n (block_of f p) = true → writing s n pre cur (p + f_ppb f).
Proof.
  intros Hw Hp Hb. destruct (writing_nil _ _ _ _ _ Hw Hp) as [-> Hh]. apply writing_aligned; [by apply holds_skip|by apply next_block].
Qed.

(** A good one is erased. *)
Lemma writing_erase s n pre cur p :
  writing s n pre cur p → p mod f_ppb f = 0 → bad n (block_of f p) = false →
  let n' := erase_block (f_ppb f) (block_of f p) n in writing s n' pre cur p ∧ opened n' p.
Proof.
  intros Hw Hp Hb. cbn zeta. destruct (writing_nil _ _ _ _ _ Hw Hp) as [-> Hh]. split.
  - apply writing_aligned; [|done]. eapply confined_holds; [apply confined_erase| |done]. destruct (page_split p). unfold block_page0 in *. lia.
  - split; [done|]. intros q _ Hq. cbn. unfold block_of in Hq. unfold block_of. by rewrite Hq, Z.eqb_refl.
Qed.

(** A page is programmed. *)
Lemma writing_page s n n' pre cur p d :
  writing s n pre cur p → opened n p → n' ≡ set_page p (Data d) n →
  ∃ pre' cur', pre' ++ cur' = pre ++ cur ++ [d] ∧ writing s n' pre' cur' (p + 1).
Proof.
  intros [H1 H2 H3 _] [Hb He] Hn. pose proof Hn as [E1 E2]. cbn [bad set_page pages] in E1, E2. destruct (page_split p) as [Ep Hr].
  assert (holds n' (s * f_ppb f) pre (block_page0 p)) as H1'.
  { eapply confined_holds; [eapply confined_equiv; [by apply (confined_page (block_of f p))|exact Hn]| |exact H1]. unfold block_page0. lia. }
  assert (holds n' (block_page0 p) (cur ++ [d]) (p + 1)) as H2'.
  { apply holds_snoc; [|by rewrite E2|by rewrite E1, Z.eqb_refl]. eapply holds_frame; [done|exact H2|]. intros q Hq. rewrite E1, E2.
    by rewrite (proj2 (Z.eqb_neq q p)) by lia. }
  destruct (decide (p mod f_ppb f = f_ppb f - 1)) as [Hlast|Hlast].
  - exists (pre ++ cur ++ [d]), []. split; [by rewrite app_nil_r|]. apply writing_aligned; [by eapply holds_app|].
    replace (p + 1) with ((block_of f p + 1) * f_ppb f) by (unfold block_page0 in *; lia). apply Z.mod_mul. lia.
  - exists pre, (cur ++ [d]). split; [done|]. assert (block_of f (p + 1) = block_of f p ∧ (p + 1) mod f_ppb f = p mod f_ppb f + 1) as [Eb Em].
    { assert (p + 1 = block_of f p * f_ppb f + (p mod f_ppb f + 1)) as -> by (unfold block_page0 in *; lia). split; [apply block_in; lia|].
      rewrite Z.add_comm, Z.mod_add by lia. apply Z.mod_small. lia. }
    unfold block_page0 in *. split; unfold block_page0; rewrite ?Eb, ?Em; [done|done|rewrite length_app; cbn [length]; lia|]. intros _. split; rewrite Eb.
    + by rewrite E2.
    + intros q Hq Hqb. rewrite E1, (proj2 (Z.eqb_neq q p)) by lia. apply He; [lia|done].
Qed.

(** A page fails: the block is given up. *)
Lemma writing_fail s n n' pre cur p :
  writing s n pre cur p → confined (block_of f p) (block_of f p + 1) n n' → bad n' (block_of f p) = true → writing s n' pre [] (block_page0 p + f_ppb f).
Proof.
  intros [H1 _ _ _] Hc Hb. assert (block_page0 p mod f_ppb f = 0) as Hm by (apply Z.mod_mul; lia). apply writing_aligned; [|by apply next_block].
  apply holds_skip; [eapply confined_holds; [exact Hc|unfold block_page0; lia|done]|].
  unfold block_page0. rewrite <- (Z.add_0_r (_ * _)). rewrite block_in by lia. done.
Qed.
End Changes.

(** * flash_write *)

Section Write.
Context {H : Type} `{Dmov H} (f : format) (base : area → Z) (N : Z) (HL : layout_ok base N) (slack : nat).
Context (R : H → memory → phase → Prop) `{!Conforms f base slack R} (polls : nat) (Hpolls : patient slack polls) (uninit : Z).
Context (tt_ : list Z) (Htt : ∀ a, 0 ≤ a < 2 ^ 32 → arm_mmu_virt2phy tt_ a = Ok a).
#[local] Notation runs := (runs R).
#[local] Notation configured := (configured f).
#[local] Notation holds := (holds f).
#[local] Notation some_shape := (some_shape N).
#[local] Notation chunk_size := (chunk_size f).
#[local] Notation confined := (confined f).
#[local] Notation writing := (writing f).

(** What the steps leave alone: variables, image and spare bytes. *)
Definition undisturbed (m : memory) (v : nand_vars) (m' : memory) (v' : nand_vars) : Prop := v' = v ∧ some_shape m' ∧ kept m m'.

Lemma undisturbed_trans m v m1 v1 m2 v2 : undisturbed m v m1 v1 → undisturbed m1 v1 m2 v2 → undisturbed m v m2 v2.
Proof. intros (-> & _ & K1) (-> & S2 & K2). split_and!; [done|done|by eapply kept_trans]. Qed.

Lemma mask_mod v page : configured v → 0 ≤ page → Z.land page (num_pages_per_blk_mask v) = page mod f_ppb f.
Proof. intros Hk Hp. destruct (land_mask v page (k_geometry f v Hk) Hp) as [-> _]. by rewrite (k_ppb f v Hk). Qed.

(** The first page of a block erases it, or finds it bad. *)
Lemma prepare_runs c m v s pre cur page :
  configured v → some_shape m → page_ok f page → writing s (c_flash c) pre cur page →
  runs c m v (if Z.land page (num_pages_per_blk_mask v) =? 0 then flash_erase_block base polls uninit page else mret 0)
    (λ r c' m' v', undisturbed m v m' v' ∧ confined (block_of f page) (block_of f page + 1) (c_flash c) (c_flash c') ∧
       (r = 0 ∧ writing s (c_flash c') pre cur page ∧ opened f (c_flash c') page ∨
        r ≠ 0 ∧ page mod f_ppb f = 0 ∧ writing s (c_flash c') pre cur (page + f_ppb f))).
Proof.
  intros Hk [loc Hm] Hp Hw. destruct (configured_ppb f v Hk) as (Hppb & _). rewrite mask_mod by (done || unfold page_ok in Hp; lia).
  destruct (Z.eqb_spec (page mod f_ppb f) 0) as [E|E].
  - eapply nruns_mono; [by apply (erase_runs f base N HL slack R polls Hpolls uninit loc)|]. intros r c' m' v' (-> & Hm' & Hkp & Hr).
    destruct (bad (c_flash c) (block_of f page)) eqn:Hb; destruct Hr as [-> ->].
    + split_and!; [done|apply confined_refl|]. right. split_and!; [done|done|]. by apply writing_skip; [lia|..].
    + split_and!; [done|apply confined_erase|]. left. split; [done|]. apply writing_erase; [lia|done..].
  - apply nruns_ret. split_and!; [by split_and!; [|exists loc|]|apply confined_refl|]. left. split_and!; [done|done|by apply Hw].
Qed.

(** A block in which a page failed is erased and marked. *)
Lemma give_up_runs c m v p t :
  configured v → some_shape m → page_ok f p → p mod f_ppb f = 0 → t ≠ TYPE_MODEM_PARTITION →
  ∀ (k : nd H (Z + Z)) Φ,
  (∀ c' m', undisturbed m v m' v → confined (block_of f p) (block_of f p + 1) (c_flash c) (c_flash c') → bad (c_flash c') (block_of f p) = true →
     runs c' m' v k Φ) →
  runs c m v (flash_erase_block base polls uninit p;; (if negb (t =? TYPE_MODEM_PARTITION) then flash_mark_badblock base polls p else mret 0);; k) Φ.
Proof.
  intros Hk [loc Hm] Hp Hp0 Ht k Φ HΦ. rewrite (proj2 (Z.eqb_neq _ _)) by done. cbn [negb]. apply nruns_bind.
  eapply nruns_mono; [by apply (erase_runs f base N HL slack R polls Hpolls uninit loc)|]. intros r c1 m1 v1 (-> & [loc1 Hm1] & Hk1 & Hr).
  assert (confined (block_of f p) (block_of f p + 1) (c_flash c) (c_flash c1)) as Hc1.
  { destruct (bad (c_flash c) (block_of f p)); destruct Hr as [_ ->]; [apply confined_refl|apply confined_erase]. }
  apply nruns_bind. eapply nruns_mono; [by apply (mark_runs f base N HL slack R polls Hpolls loc1)|]. intros r2 c2 m2 v2 (-> & Hm2 & Hk2 & Hf2).
  apply HΦ; [by split_and!; [| |eapply kept_trans]| |destruct Hf2 as [_ E]; rewrite E; cbn; by rewrite Z.eqb_refl].
  eapply confined_trans; [exact Hc1|]. eapply confined_equiv; [|exact Hf2]. eapply confined_trans; [by apply (confined_page f (block_of f p))|apply confined_mark].
Qed.

Section Loop.
Context (ptn : ptentry) (extra : Z) (img : list Z) (cnt : nat).
Context (Hptn : partition_ok f ptn) (Htype : ptn_type ptn ≠ TYPE_MODEM_PARTITION) (Hextra : extra_ok f extra) (Himg : (cnt * chunk_size extra ≤ length img)%nat).

(** The pages to be written. *)
Definition image_pages : list (list Z) := stored f extra img <$> seq 0 cnt.

(** The partition holds them up to page [p']; or it is full before they are all there. *)
Definition written (m : memory) (v : nand_vars) (n : nand) (x : Z + Z) (c' : chip) (m' : memory) (v' : nand_vars) : Prop :=
  undisturbed m v m' v' ∧ confined (start ptn) (start ptn + length_ ptn) n (c_flash c') ∧
  match x with
  | inr p' => start ptn * f_ppb f ≤ p' ≤ last_page f ptn ∧ holds (c_flash c') (start ptn * f_ppb f) image_pages p'
  | inl r => r = -1 ∧ ∃ k, (k < cnt)%nat ∧ holds (c_flash c') (start ptn * f_ppb f) (take k image_pages) (last_page f ptn)
  end.

Lemma written_step m v n x c' m' v' m1 n1 :
  undisturbed m v m1 v → confined (start ptn) (start ptn + length_ ptn) n n1 → written m1 v n1 x c' m' v' → written m v n x c' m' v'.
Proof. intros Hu Hc (Hu' & Hc' & Hx). split_and!; [by eapply undisturbed_trans|by eapply confined_trans|done]. Qed.

Lemma image_page_at pre d rest : image_pages = pre ++ d :: rest → d = stored f extra img (length pre) ∧ (length pre < cnt)%nat.
Proof.
  intros E. assert (image_pages !! length pre = Some d) as Hd by (by rewrite E, list_lookup_middle).
  apply list_lookup_fmap_Some in Hd as (i & -> & Hi). apply lookup_seq in Hi as [-> Hi]. done.
Qed.

(** The block of a page of the partition, and where it ends. *)
Lemma in_partition v page : configured v → start ptn * f_ppb f ≤ page < last_page f ptn →
  page_ok f page ∧ start ptn ≤ block_of f page ∧ block_of f page + 1 ≤ start ptn + length_ ptn ∧ block_page0 f page + f_ppb f ≤ last_page f ptn ∧
  0 ≤ page ∧ last_page f ptn ≤ 2 ^ 23.
Proof.
  intros Hk Hp. destruct (configured_ppb f v Hk) as (Hppb & _ & Hblk). destruct Hptn as (P1 & P2 & P3). unfold last_page, block_page0, page_ok in *.
  assert (start ptn ≤ block_of f page) by (apply Z.div_le_lower_bound; lia). pose proof (block_below f (proj1 Hppb) page (start ptn + length_ ptn)).
  split_and!; try lia; nia.
Qed.

Lemma chunk_positive v : configured v → (0 < chunk_size extra)%nat ∧ u32 (flash_pagesize v + extra) = Z.of_nat (chunk_size extra) ∧ Z.of_nat (chunk_size extra) ≤ 2 ^ 13.
Proof.
  intros Hk. destruct (words_size f v Hk) as (Hcws & Hps & _). pose proof (g_pagesize v (k_geometry f v Hk)) as Hg. unfold NandFlash.chunk_size.
  assert (0 ≤ extra ≤ 16) by (destruct Hextra as [->|[-> _]]; lia). rewrite u32_small; lia.
Qed.

(** Everything is written, or the partition ends. *)
Lemma write_pages_end fuel c m v page pre cur rest :
  configured v → some_shape m → image_pages = (pre ++ cur) ++ rest → writing (start ptn) (c_flash c) pre cur page →
  start ptn * f_ppb f ≤ page ≤ last_page f ptn → rest = [] ∨ page = last_page f ptn →
  runs c m v (write_pages base tt_ polls uninit fuel ptn extra (last_page f ptn) page
                (base Image + Z.of_nat (length (pre ++ cur) * chunk_size extra)) (Z.of_nat (length rest * chunk_size extra)))
    (written m v (c_flash c)).
Proof.
  intros Hk Hm Eds Hw Hp Hend. destruct (configured_ppb f v Hk) as (Hppb & Eppb & Hblk). destruct (chunk_positive v Hk) as (Hc0 & Hcu & Hc13).
  assert (undisturbed m v m v) as Hu by done. destruct rest as [|d rest].
  - destruct fuel; cbn [write_pages length Nat.mul Z.of_nat Z.eqb]; apply nruns_ret; (split_and!; [done|apply confined_refl|lia..|]);
      rewrite app_nil_r in Eds; rewrite Eds; eapply holds_app; [apply Hw|apply Hw|apply Hw|apply Hw].
  - destruct Hend as [?|Hend]; [done|]. assert (page mod f_ppb f = 0) as Hmod by (rewrite Hend; apply Z.mod_mul; lia).
    destruct (writing_nil f (proj1 Hppb) _ _ _ _ _ Hw Hmod) as [-> Hh]. destruct (image_page_at _ _ _ Eds) as [_ Hcnt]. rewrite app_nil_r in Eds, Hcnt.
    assert (written m v (c_flash c) (inl (-1)) c m v) as Hret.
    { split_and!; [done|apply confined_refl|done|]. exists (length pre). split; [done|]. rewrite Eds, take_app_length, <- Hend. done. }
    assert (Z.of_nat (length (d :: rest) * chunk_size extra) ≠ 0) as Hnz by (cbn [length]; lia). rewrite <- Hend.
    destruct fuel; cbn [write_pages]; rewrite (proj2 (Z.eqb_neq _ _) Hnz); apply nruns_bind, runs_vars;
      (rewrite Hcu, (proj2 (Z.ltb_ge _ (Z.of_nat (chunk_size extra)))) by (cbn [length]; lia)); rewrite Z.ltb_irrefl; by apply nruns_ret.
Qed.

(** One page of the loop, in a block that is open. *)
Lemma program_step (rec : Z → Z → Z → nd H (Z + Z)) c m v page pre cur d rest Φ :
  configured v → some_shape m → m_image m = img → blank m → image_pages = (pre ++ cur) ++ d :: rest →
  writing (start ptn) (c_flash c) pre cur page → opened f (c_flash c) page → start ptn * f_ppb f ≤ page < last_page f ptn →
  (∀ c' m' page' pre' cur' rest', undisturbed m v m' v → confined (block_of f page) (block_of f page + 1) (c_flash c) (c_flash c') →
    image_pages = (pre' ++ cur') ++ rest' → writing (start ptn) (c_flash c') pre' cur' page' → page < page' ≤ last_page f ptn →
    runs c' m' v (rec page' (base Image + Z.of_nat (length (pre' ++ cur') * chunk_size extra)) (Z.of_nat (length rest' * chunk_size extra))) Φ) →
  let image := base Image + Z.of_nat (length (pre ++ cur) * chunk_size extra) in
  let bytes := Z.of_nat (length (d :: rest) * chunk_size extra) in
  let wsize := Z.of_nat (chunk_size extra) in
  runs c m v
    (r ← write_image_page base tt_ polls page image extra;
     if negb (r =? 0) then
       let back := u32 (Z.land page (num_pages_per_blk_mask v) * wsize) in
       let page := Z.land page (u32 (Z.lnot (num_pages_per_blk_mask v))) in
       flash_erase_block base polls uninit page;;
       (if negb (ptn_type ptn =? TYPE_MODEM_PARTITION) then flash_mark_badblock base polls page else mret 0);;
       rec (u32 (page + num_pages_per_blk v)) (u32 (image - back)) (u32 (bytes + back))
     else rec (u32 (page + 1)) (u32 (image + wsize)) (u32 (bytes - wsize))) Φ.
Proof.
  intros Hk [loc Hm] Hi Hbl Eds Hw Ho Hp Hnext. cbn zeta. destruct (image_page_at _ _ _ Eds) as [Ed Hcnt].
  destruct (in_partition v page Hk Hp) as (Hpg & Hb1 & Hb2 & Hb3 & Hp0 & Hl23). destruct (configured_ppb f v Hk) as (Hppb & Eppb & Hblk).
  destruct (chunk_positive v Hk) as (Hc0 & Hcu & Hc13). destruct (page_split f (proj1 Hppb) page) as [Esplit Hr]. pose proof (w_len f _ _ _ _ _ Hw) as Hlc.
  set (w := chunk_size extra) in *. assert (length image_pages = cnt) as Hlen by (unfold image_pages; by rewrite length_fmap, length_seq).
  rewrite Eds, !length_app in Hlen. cbn [length] in Hlen. assert ((length pre + length cur + S (length rest)) * w ≤ length img)%nat as Hroom by (rewrite <- Hlen in Himg; lia).
  pose proof Hm as (_ & _ & _ & _ & _ & _ & HN & _). rewrite Hi in HN. pose proof (base_end _ _ HL Image) as Hend. pose proof (base_pos _ _ HL Image). cbn [room] in Hend.
  apply nruns_bind. eapply nruns_mono.
  { apply (write_image_runs f base N HL slack R polls Hpolls tt_ Htt loc c m v page extra (length (pre ++ cur))); try done; [apply Ho; done || lia|apply Ho|].
    fold w. rewrite Hi, length_app. lia. }
  intros r c1 m1 v1 (-> & Hm1 & Hk1 & Hr1). rewrite Hi, <- Ed in Hr1. destruct Hr1 as [[-> Hf1]|[-> Hf1]]; cbn [Z.eqb negb].
  - destruct (writing_page f (proj1 Hppb) _ _ _ _ _ _ _ Hw Ho Hf1) as (pre' & cur' & Epc & Hw'). rewrite length_app in *. cbn [length] in *.
    assert (length (pre' ++ cur') = length pre + length cur + 1)%nat as Hl' by (rewrite Epc, !length_app; cbn; lia).
    rewrite !u32_small by lia. eapply eq_ind_r with (P := λ a, runs c1 m1 v (rec _ a _) Φ); [eapply eq_ind_r with (P := λ a, runs c1 m1 v (rec _ _ a) Φ)|].
    + apply (Hnext c1 m1 (page + 1) pre' cur' rest); [done| | |done|lia].
      * eapply confined_equiv; [by apply (confined_page f (block_of f page) page)|exact Hf1].
      * rewrite Eds, Epc, <- !app_assoc. done.
    + lia.
    + rewrite Hl'. lia.
  - rewrite (mask_mod v page Hk Hp0), land_not_mask by (try apply (k_geometry f v Hk); lia). rewrite Eppb.
    assert (page - page mod f_ppb f = block_page0 f page) as -> by lia.
    assert (block_of f (block_page0 f page) = block_of f page) as Ebb by (unfold block_page0; rewrite <- (Z.add_0_r (_ * _)); apply block_in; lia).
    rewrite length_app in *. cbn [length] in *. rewrite <- Hlc. assert (0 ≤ block_page0 f page) as Hp00 by (destruct Hptn as (? & _); apply Z.mul_nonneg_nonneg; lia).
    apply give_up_runs; [done|done|unfold page_ok in *; lia|apply Z.mod_mul; lia|done|]. rewrite Ebb. intros c2 m2 Hu2 Hc2 Hb2'.
    rewrite (u32_small (Z.of_nat (length cur) * Z.of_nat w)) by lia. rewrite !u32_small by lia.
    eapply eq_ind_r with (P := λ a, runs c2 m2 v (rec _ a _) Φ); [eapply eq_ind_r with (P := λ a, runs c2 m2 v (rec _ _ a) Φ)|].
    + assert (confined (block_of f page) (block_of f page + 1) (c_flash c) (c_flash c2)) as Hc.
      { eapply confined_trans; [|exact Hc2]. eapply confined_equiv; [by apply (confined_page f (block_of f page) page)|exact Hf1]. }
      assert (undisturbed m v m1 v) as Hu1 by done.
      apply (Hnext c2 m2 _ pre [] (cur ++ d :: rest)); [by eapply undisturbed_trans|done| |by eapply (writing_fail f (proj1 Hppb))|lia].
      rewrite Eds, app_nil_r, <- app_assoc. done.
    + rewrite length_app. cbn [length]. lia.
    + rewrite app_nil_r. lia.
Qed.

Lemma write_pages_runs fuel : ∀ c m v page pre cur rest,
  configured v → some_shape m → m_image m = img → blank m → image_pages = (pre ++ cur) ++ rest → writing (start ptn) (c_flash c) pre cur page →
  start ptn * f_ppb f ≤ page ≤ last_page f ptn → last_page f ptn - page ≤ Z.of_nat fuel →
  runs c m v (write_pages base tt_ polls uninit fuel ptn extra (last_page f ptn) page
                (base Image + Z.of_nat (length (pre ++ cur) * chunk_size extra)) (Z.of_nat (length rest * chunk_size extra)))
    (written m v (c_flash c)).
Proof.
  induction fuel as [|fuel IH]; intros c m v page pre cur rest Hk Hm Hi Hbl Eds Hw Hp Hf; [apply write_pages_end; try done; right; lia|].
  destruct (decide (rest = [])) as [->|Hne]; [apply write_pages_end; auto|]. destruct (decide (page = last_page f ptn)) as [->|Hnl]; [apply write_pages_end; auto|].
  destruct rest as [|d rest]; [done|]. destruct (image_page_at _ _ _ Eds) as [Ed Hcnt]. destruct (in_partition v page Hk) as (Hpg & Hb1 & Hb2 & Hb3 & Hp0 & Hl23); [lia|].
  destruct (configured_ppb f v Hk) as (Hppb & Eppb & Hblk). destruct (chunk_positive v Hk) as (Hc0 & Hcu & Hc13). cbn [write_pages].
  assert (Z.of_nat (length (d :: rest) * chunk_size extra) ≠ 0) as Hnz by (cbn [length]; lia). rewrite (proj2 (Z.eqb_neq _ _) Hnz). apply nruns_bind, runs_vars.
  rewrite Hcu, (proj2 (Z.ltb_ge _ (Z.of_nat (chunk_size extra)))) by (cbn [length]; lia). rewrite (proj2 (Z.ltb_lt page _)) by lia. cbn [negb].
  set (w := chunk_size extra) in *. set (k := length (pre ++ cur)) in *.
  assert (∀ c' m' page' pre' cur' rest', undisturbed m v m' v → confined (block_of f page) (block_of f page + 1) (c_flash c) (c_flash c') →
    image_pages = (pre' ++ cur') ++ rest' → writing (start ptn) (c_flash c') pre' cur' page' → page < page' ≤ last_page f ptn →
    runs c' m' v (write_pages base tt_ polls uninit fuel ptn extra (last_page f ptn) page' (base Image + Z.of_nat (length (pre' ++ cur') * w)) (Z.of_nat (length rest' * w)))
      (written m v (c_flash c))) as Hnext.
  { intros c' m' page' pre' cur' rest' Hu Hc E Hw' Hp'. pose proof Hu as (_ & Hm' & Hs' & Hi'). eapply nruns_mono.
    - apply (IH c' m' v page' pre' cur' rest'); try done; [congruence|unfold blank; by rewrite Hs'|lia|lia].
    - intros x c2 m2 v2 Hx. eapply written_step; [exact Hu| |exact Hx]. by eapply confined_mono; [..|exact Hc]; lia. }
  clear IH. apply nruns_bind. eapply nruns_mono; [by apply (prepare_runs c m v (start ptn) pre cur)|]. intros r c1 m1 v1 (Hu1 & Hc1 & Hr). pose proof Hu1 as (-> & Hm1 & Hk1 & Hk2).
  destruct Hr as [(-> & Hw1 & Ho1)|(Hr0 & Hpm & Hw1)]; cbn [Z.eqb negb].
  2: { rewrite (proj2 (Z.eqb_neq _ _) Hr0). cbn [negb]. rewrite Eppb, u32_small by lia. apply (Hnext c1 m1 _ _ _ (d :: rest)); [done|done|done|done|].
       destruct (page_split f (proj1 Hppb) page). lia. }
  apply (program_step (λ p i b, write_pages base tt_ polls uninit fuel ptn extra (last_page f ptn) p i b) c1 m1 v page pre cur d rest);
    [done|done|congruence|unfold blank; by rewrite Hk1|done|done|done|lia|].
  intros c' m' page' pre' cur' rest' Hu Hc. apply Hnext; [by eapply undisturbed_trans|by eapply confined_trans].
Qed.


(** ** The rest of the partition *)

Lemma erase_rest_runs fuel : ∀ c m v page,
  configured v → some_shape m → page mod f_ppb f = 0 → start ptn * f_ppb f ≤ page ≤ last_page f ptn → last_page f ptn - page ≤ Z.of_nat fuel →
  runs c m v (erase_rest base polls uninit fuel (last_page f ptn) page)
    (λ _ c' m' v', undisturbed m v m' v' ∧ confined (block_of f page) (start ptn + length_ ptn) (c_flash c) (c_flash c')).
Proof.
  induction fuel as [|fuel IH]; intros c m v page Hk Hm Hp0 Hp Hf; cbn [erase_rest].
  - rewrite (proj2 (Z.ltb_ge _ _)) by lia. apply nruns_ret. split; [done|apply confined_refl].
  - destruct (Z.ltb_spec page (last_page f ptn)); cbn [negb]; [|apply nruns_ret; split; [done|apply confined_refl]].
    destruct (configured_ppb f v Hk) as (Hppb & Eppb & _). destruct (in_partition v page Hk) as (Hpg & Hb1 & Hb2 & Hb3 & Hp00 & Hl23); [lia|].
    destruct (page_split f (proj1 Hppb) page) as [Esp _]. rewrite Hp0, Z.add_0_r in Esp. apply nruns_bind, runs_vars. apply nruns_bind. destruct Hm as [loc Hm].
    eapply nruns_mono; [by apply (erase_runs f base N HL slack R polls Hpolls uninit loc)|]. intros r c1 m1 v1 (-> & Hm1 & Hk1 & Hr).
    rewrite Eppb, u32_small by lia. eapply nruns_mono; [apply (IH c1 m1 v (page + f_ppb f)); [done|done|by apply (next_block f (proj1 Hppb))|lia|lia]|].
    intros _ c2 m2 v2 (Hu2 & Hc2). split; [eapply undisturbed_trans; [|exact Hu2]; done|]. eapply (confined_trans f _ _ _ (c_flash c1)).
    + eapply (confined_mono f _ _ (block_of f page) (block_of f page + 1)); [lia|lia|].
      destruct (bad (c_flash c) (block_of f page)); destruct Hr as [_ ->]; [apply confined_refl|apply confined_erase].
    + eapply confined_mono; [| |exact Hc2]; [|lia]. apply Z.div_le_mono; lia.
Qed.

Lemma blank_spare_runs c m v (Φ : unit → chip → memory → nand_vars → Prop) :
  some_shape m → (∀ m', some_shape m' → m_image m' = m_image m → blank m' → Φ tt c m' v) → runs c m v blank_spare Φ.
Proof.
  intros [loc Hm] HΦ. pose proof Hm as (? & ? & ? & Hs & ? & ? & ? & ?). unfold blank_spare. apply nruns_bind, runs_mem. apply nruns_bind.
  apply (runs_ok _ _ _ _ _ (splice (m_spare m) 0 (replicate 64 0xFF))).
  - apply store_splice; [lia|rewrite length_replicate; lia].
  - eapply runs_set_mem; [done|]. apply HΦ; [exists loc; unfold shape; cbn [m_spare set_m_spare]; rewrite length_splice_in by (rewrite length_replicate; lia); by split_and!|done|].
    unfold blank. cbn [m_spare set_m_spare]. unfold splice. rewrite take_0. cbn [app]. by rewrite take_app_le by (rewrite length_replicate; lia).
Qed.

(** The next page that starts a block. *)
Lemma round_up v p : configured v → 0 ≤ p ≤ 2 ^ 23 →
  let p' := Z.land (u32 (p + num_pages_per_blk_mask v)) (u32 (Z.lnot (num_pages_per_blk_mask v))) in
  p ≤ p' ∧ p' mod f_ppb f = 0 ∧ p' < p + f_ppb f ∧ p ≤ block_of f p' * f_ppb f.
Proof.
  intros Hk Hp. destruct (configured_ppb f v Hk) as (Hppb & Eppb & _). pose proof (k_geometry f v Hk) as Hg. rewrite (g_mask v Hg), Eppb. cbn zeta.
  rewrite u32_small by lia. pose proof (land_not_mask v (p + (f_ppb f - 1)) Hg) as Hl. rewrite (g_mask v Hg), Eppb in Hl. rewrite Hl by lia.
  pose proof (Z.div_mod (p + (f_ppb f - 1)) (f_ppb f)) as Hd. pose proof (Z.mod_pos_bound (p + (f_ppb f - 1)) (f_ppb f)) as Hm.
  set (x := p + (f_ppb f - 1)) in *. replace (x - x mod f_ppb f) with (x / f_ppb f * f_ppb f) by lia. unfold block_of.
  rewrite Z.mod_mul, Z.div_mul by lia. split_and!; lia.
Qed.

(** What flash_write leaves: all of the image, or as much of it as there was room for. *)
Definition write_result (n : nand) (r : Z) (n' : nand) : Prop :=
  confined (start ptn) (start ptn + length_ ptn) n n' ∧
  (r = 0 ∧ (∃ e, e ≤ last_page f ptn ∧ holds n' (start ptn * f_ppb f) image_pages e) ∨
   r = -1 ∧ ∃ k, (k < cnt)%nat ∧ holds n' (start ptn * f_ppb f) (take k image_pages) (last_page f ptn)).

Lemma flash_write_runs c m v :
  configured (apps v) → some_shape m → m_image m = img →
  runs c m v (flash_write base tt_ polls uninit ptn extra (base Image) (Z.of_nat (cnt * chunk_size extra)))
    (λ r c' m' v', v' = apps v ∧ some_shape m' ∧ m_image m' = img ∧ write_result (c_flash c) r (c_flash c')).
Proof.
  intros Hk Hm Hi. destruct (configured_ppb f _ Hk) as (Hppb & Eppb & Hblk). cbn [num_pages_per_blk apps] in Eppb. pose proof Hptn as (P1 & P2 & P3).
  assert (0 ≤ start ptn * f_ppb f ∧ (start ptn + length_ ptn) * f_ppb f ≤ 2 ^ 23 ∧ start ptn * f_ppb f ≤ (start ptn + length_ ptn) * f_ppb f) as (Hs0 & Hl23 & Hsl) by nia.
  unfold flash_write. apply nruns_bind, runs_vars. cbn zeta. rewrite (proj2 (Z.eqb_neq (ptn_type ptn) _)), andb_false_r by done.
  rewrite Eppb, (u32_small (start ptn * _)), (u32_small (start ptn + _)), (u32_small ((_ + _) * _)) by lia. fold (last_page f ptn).
  apply nruns_bind, set_apps_runs; [done|]. apply nruns_bind, blank_spare_runs; [done|]. intros m1 Hm1 Hi1 Hbl. apply nruns_bind.
  pose proof (write_pages_runs (Z.to_nat (last_page f ptn - start ptn * f_ppb f)) c m1 (apps v) (start ptn * f_ppb f) [] [] image_pages Hk Hm1) as Hw.
  cbn [app length Nat.mul Z.of_nat] in Hw. rewrite Z.add_0_r in Hw. unfold image_pages at 3 in Hw. rewrite length_fmap, length_seq in Hw.
  eapply nruns_mono; [apply Hw; [congruence|done|done| |unfold last_page; lia|unfold last_page; lia]|].
  { apply writing_aligned; [lia|apply holds_nil|apply Z.mod_mul; lia]. }
  intros [r|p] c2 m2 v2 ((-> & Hm2 & _ & Hi2) & Hc2 & Hx).
  - destruct Hx as [-> Hx]. apply nruns_ret. refine (conj eq_refl (conj Hm2 (conj _ (conj Hc2 _)))); [congruence|by right].
  - destruct Hx as [Hp Hh]. destruct (round_up (apps v) p Hk) as (Hr1 & Hr2 & Hr3 & Hr4); [unfold last_page in *; lia|].
    cbn [num_pages_per_blk_mask apps] in *. set (p' := Z.land _ _) in *. apply nruns_bind. eapply nruns_mono; [apply erase_rest_runs; [done|done|done| |lia]|].
    { split; [lia|]. destruct (page_split f (proj1 Hppb) p') as [E _]. rewrite Hr2 in E. unfold last_page, block_page0 in *.
      assert (block_of f p' < start ptn + length_ ptn + 1) by (apply (Z.mul_lt_mono_pos_r (f_ppb f)); lia). nia. }
    intros _ c3 m3 v3 ((-> & Hm3 & _ & Hi3) & Hc3). apply nruns_ret. refine (conj eq_refl (conj Hm3 (conj _ (conj _ _)))); [congruence|..].
    + eapply confined_trans; [exact Hc2|]. eapply confined_mono; [| |exact Hc3]; [|lia]. apply Z.div_le_lower_bound; lia.
    + left. split; [done|]. exists p. split; [lia|]. eapply confined_holds; [lia|exact Hc3|exact Hr4|exact Hh].
Qed.


(** * Reading back *)

Lemma stored_length v i : configured v → (i < cnt)%nat → length (stored f extra img i) = (516 * f_words f)%nat.
Proof.
  intros Hk Hi. unfold stored. set (d := take _ _). assert (length d = chunk_size extra) as Hd.
  { subst d. rewrite length_take, length_drop. assert (S i * chunk_size extra ≤ cnt * chunk_size extra)%nat by (apply Nat.mul_le_mono_r; lia). lia. }
  clearbody d. unfold NandFlash.chunk_size, page_bytes in Hd. destruct Hextra as [->|[-> E]]; cbn [Z.eqb].
  - rewrite length_app, length_replicate, Hd. lia.
  - assert (f_words f = 4%nat) as E4 by (unfold f_words; by rewrite E). rewrite Hd, E4. done.
Qed.

Lemma image_whole v : configured v → whole f image_pages.
Proof.
  intros Hk. apply Forall_fmap, Forall_forall. intros i Hi. apply elem_of_seq in Hi. apply (stored_length v); [done|lia].
Qed.

Lemma image_chunks : concat (take (chunk_size extra) <$> image_pages) = take (cnt * chunk_size extra) img.
Proof.
  unfold image_pages. rewrite <- list_fmap_compose. set (w := chunk_size extra) in *.
  assert (∀ k, (k ≤ cnt)%nat → concat ((take w ∘ stored f extra img) <$> seq 0 k) = take (k * w) img) as Hall; [|by apply Hall].
  induction k as [|k IH]; intros Hk; [done|]. rewrite seq_S, fmap_app, concat_app, IH by lia. cbn [fmap list_fmap concat Nat.add compose]. rewrite app_nil_r.
  assert (S k * w ≤ cnt * w)%nat by (apply Nat.mul_le_mono_r; lia).
  unfold stored. fold w. set (d := take w (drop (k * w) img)). assert (length d = w) as Hd by (subst d; rewrite length_take, length_drop; lia).
  replace (take w (if extra =? 0 then d ++ replicate (4 * f_words f) 255 else d)) with d.
  - subst d. rewrite take_take_drop. f_equal. lia.
  - destruct (extra =? 0); [rewrite take_app_le by lia|]; by rewrite take_ge by lia.
Qed.

(** Blocks that the table calls good are outside of the partition. *)
Definition unread (v : nand_vars) : Prop := ∀ b, start ptn ≤ Z.of_nat b < start ptn + length_ ptn → bbtbl v !! b ≠ Some BB_GOOD.

Lemma confined_table n n' l :
  confined (start ptn) (start ptn + length_ ptn) n n' → table_ok f n l →
  (∀ b, start ptn ≤ Z.of_nat b < start ptn + length_ ptn → l !! b ≠ Some BB_GOOD) → table_ok f n' l.
Proof.
  intros (_ & A2 & A3) [Hl Ht] Hu. split; [done|]. intros b e He. destruct (Ht b e He) as [->| ->]; [by left|right].
  destruct (bad n (Z.of_nat b)) eqn:Hb; [by rewrite (A2 _ Hb)|]. rewrite A3; [by rewrite Hb|]. intros Hr. by apply (Hu b Hr).
Qed.

(** Write the image, overwrite the buffer, and read the partition. *)
Definition write_then_read (fresh : buffer) : nd H (option (Z * list Z)) :=
  let bytes := Z.of_nat (cnt * chunk_size extra) in
  r ← flash_write base tt_ polls uninit ptn extra (base Image) bytes;
  if negb (r =? 0) then mret None else
  m ← mem;
  set_mem (set_m_image fresh m);;
  r ← flash_read_ext base polls uninit ptn extra 0 (base Image) bytes;
  m ← mem;
  mret (Some (r, take (cnt * chunk_size extra) (m_image m))).

Lemma write_then_read_runs c m v fresh :
  configured (apps v) → some_shape m → m_image m = img → length fresh = length img → table_ok f (c_flash c) (bbtbl v) → unread v →
  (0 < cnt)%nat → Z.of_nat (cnt * chunk_size extra) < 2 ^ 31 →
  runs c m v (write_then_read fresh)
    (λ x c' m' v', confined (start ptn) (start ptn + length_ ptn) (c_flash c) (c_flash c') ∧
       match x with
       | None => ∃ k, (k < cnt)%nat ∧ holds (c_flash c') (start ptn * f_ppb f) (take k image_pages) (last_page f ptn)
       | Some (r, data) => data = take (cnt * chunk_size extra) img ∧
           (r = 0 ∨ r = -1 ∧ holds (c_flash c') (start ptn * f_ppb f) image_pages (last_page f ptn))
       end).
Proof.
  intros Hk Hm Hi Hfresh Ht Hu Hcnt Hb31. unfold write_then_read. apply nruns_bind. eapply nruns_mono; [by apply flash_write_runs|].
  intros r c1 m1 v1 (-> & [loc Hm1] & Hi1 & Hc1 & Hr). destruct Hr as [[-> (e & He & Hh)]|[-> (k & Hlt & Hh)]]; cbn [Z.eqb negb].
  2: { apply nruns_ret. split; [done|]. by exists k. }
  apply nruns_bind, runs_mem. apply nruns_bind. eapply runs_set_mem; [done|]. apply nruns_bind. pose proof Hm1 as (? & ? & ? & ? & ? & ? & HN & ?).
  assert (some_shape (set_m_image fresh m1)) as Hm2 by (exists loc; unfold shape; cbn [m_image set_m_image]; rewrite Hfresh, <- Hi1; by split_and!).
  destruct (chunk_positive (apps v) Hk) as (Hw0 & _ & _). assert (0 ≤ extra ≤ 16) as Hx by (destruct Hextra as [->|[-> _]]; lia).
  assert (length image_pages = cnt) as Hlen by (unfold image_pages; by rewrite length_fmap, length_seq).
  pose proof (read_ext_runs f base N HL slack R polls Hpolls uninit c1 (set_m_image fresh m1) (apps v) ptn extra 0 (Z.of_nat (cnt * chunk_size extra)) image_pages e) as Hread.
  assert (Z.to_nat ((Z.of_nat (cnt * chunk_size extra) + Z.of_nat (chunk_size extra) - 1) / Z.of_nat (chunk_size extra)) = cnt) as Ecnt.
  { replace (Z.of_nat (cnt * chunk_size extra) + Z.of_nat (chunk_size extra) - 1) with (Z.of_nat cnt * Z.of_nat (chunk_size extra) + (Z.of_nat (chunk_size extra) - 1)) by lia.
    rewrite Z.div_add_l, Z.div_small by lia. lia. }
  cbn zeta in Hread. rewrite Ecnt, Z.mul_0_l, drop_0, (take_ge image_pages), image_chunks in Hread by lia. eapply nruns_mono.
  { apply Hread; [done|done|by eapply confined_table|done|done|lia|done|done|by eapply image_whole|lia|lia|]. rewrite <- HN, Hi1. lia. }
  intros r c2 m2 v2 (Hf2 & _ & _ & Hi2 & Hr). apply nruns_bind, runs_mem. apply nruns_ret. rewrite Hf2. split; [done|]. split.
  - rewrite Hi2. unfold splice. rewrite take_0. cbn [app]. rewrite take_app_le by (rewrite length_take; lia). apply take_ge. rewrite length_take. lia.
  - destruct Hr as [?|(-> & _ & ->)]; [by left|by right].
Qed.

End Loop.
End Write.
