(* ===== verification/NandSim.v ===== *)
(** A data mover and a flash controller that conform, as functions: the properties of the
    flash driver are met by them, and runs of the driver can be computed. *)
From Stdlib Require Import ZArith.
From stdpp Require Import base numbers list.
From S2P Require Import Prelude Bytes ArmMmu NandDriver NandSafe NandChip NandPages NandWords NandFlash NandParts NandWrite.

(** * The controller *)

Section Sim.
Context (f : format) (fails : Z → bool).

Definition sim_exec (c : chip) : chip :=
  let p := addr_page c in
  let n := c_flash c in
  if r_cmd c =? NAND_CMD_PAGE_READ_ECC then
    match pages n p with
    | Data bs => after 0 (take 516 (drop (516 * c_cw c) bs) ++ replicate 16 0xFF) (S (c_cw c)) (c_got c) (c_ok c) n c
    | _ => after 0x10 (c_buf c) (S (c_cw c)) (c_got c) (c_ok c) n c
    end
  else if r_cmd c =? NAND_CMD_PAGE_READ then
    after 0 (replicate BUF_SIZE (if bad n (block_of f p) then 0 else 0xFF)) (S (c_cw c)) (c_got c) (c_ok c) n c
  else if r_cmd c =? NAND_CMD_PRG_PAGE then
    let last := Z.of_nat (c_cw c) =? f_cws f - 1 in
    let st := if fails p then 0x10 else 0x80 in
    if cfg_ecc c then
      let ok := c_ok c && succeeded st in
      let got := c_got c ++ take 516 (c_buf c) in
      after st (c_buf c) (S (c_cw c)) got ok (set_page p (if last && ok then Data got else Junk) n) c
    else
      let n' := set_page p Junk n in
      after st (c_buf c) (S (c_cw c)) (c_got c) (c_ok c)
        (if last && (nth (mark_at f) (c_buf c) 0 =? 0) && (nth (S (mark_at f)) (c_buf c) 0 =? 0) then mark_bad (block_of f p) n' else n') c
  else if r_cmd c =? NAND_CMD_BLOCK_ERASE then
    after 0x80 (c_buf c) (c_cw c) (c_got c) (c_ok c) (erase_block (f_ppb f) (block_of f (r_addr0 c)) n) c
  else c.

Definition sim_write_reg (r x : Z) (c : chip) : chip :=
  if r =? NAND_FLASH_CMD then set_cmd x c
  else if r =? NAND_ADDR0 then set_addr0 x c
  else if r =? NAND_ADDR1 then set_addr1 x c
  else if r =? NAND_FLASH_CHIP_SELECT then c
  else if r =? NAND_EXEC_CMD then sim_exec c
  else if r =? NAND_DEV0_CFG0 then set_cfg0 x c
  else if r =? NAND_DEV0_CFG1 then set_cfg1 x c
  else if r =? NAND_DEV0_CFG1 + 4 then c
  else if r =? NAND_EBI2_ECC_BUF_CFG then set_eccbuf x c
  else c.

Definition sim_read_reg (r : Z) (c : chip) : Z :=
  if r =? NAND_FLASH_STATUS then r_status c else if r =? NAND_FLASH_STATUS + 4 then 0
  else if r =? NAND_EBI2_ECC_BUF_CFG then r_eccbuf c
  else if r =? NAND_READ_ID then 0x1580aa2c
  else if r =? NAND_DEV0_CFG0 then r_cfg0 c else if r =? NAND_DEV0_CFG1 then r_cfg1 c else 0.

Fixpoint sim_write_regs (r : Z) (ws : list Z) (c : chip) : chip :=
  match ws with [] => c | w :: ws => sim_write_regs (r + 4) ws (sim_write_reg r w c) end.
Fixpoint sim_read_regs (r : Z) (n : nat) (c : chip) : list Z :=
  match n with O => [] | S n => sim_read_reg r c :: sim_read_regs (r + 4) n c end.

(** * The data mover *)

Context (base : area → Z).

Definition sim_transfer (d : dmov_s) (x : chip * memory) : chip * memory :=
  let '(c, m) := x in
  let n := Z.to_nat (len d / 4) in
  if is_reg (dst d) then
    match find_area base m (src d) with
    | Some (Ptrs, off) => (sim_write_regs (dst d) (take n (drop (Z.to_nat (off / 4)) (m_ptrs m))) c, m)
    | _ => x
    end
  else if is_reg (src d) then
    match find_area base m (dst d) with
    | Some (Ptrs, off) =>
        if (Z.to_nat (off / 4) + n <=? length (m_ptrs m))%nat
        then (c, set_m_ptrs (splice (m_ptrs m) (Z.to_nat (off / 4)) (sim_read_regs (src d) n c)) m) else x
    | Some (Tmp, off) =>
        if (Z.to_nat (off / 4) + n <=? length (m_tmp m))%nat
        then (c, set_m_tmp (splice (m_tmp m) (Z.to_nat (off / 4)) (sim_read_regs (src d) n c)) m) else x
    | _ => x
    end
  else if is_buf (dst d) (len d) then
    match find_area base m (src d) with
    | Some (a, off) =>
        match slice (bytes_in m a) off (Z.to_nat (len d)) with
        | Ok bs => (set_buf (splice (c_buf c) (buf_at (dst d)) bs) c, m)
        | _ => x
        end
    | None => x
    end
  else if is_buf (src d) (len d) then
    match find_area base m (dst d) with
    | Some (a, off) =>
        match store (bytes_in m a) off (take (Z.to_nat (len d)) (drop (buf_at (src d)) (c_buf c))) with
        | Ok b => (c, set_bytes a b m)
        | _ => x
        end
    | None => x
    end
  else x.

Fixpoint sim_list (l : list dmov_s) (x : chip * memory) : chip * memory :=
  match l with
  | [] => x
  | d :: l => if flag (cmd d) CMD_LC then sim_transfer d x else sim_list l (sim_transfer d x)
  end.

Inductive sim_phase := SimIdle | SimBusy (n : nat) | SimResults (k : nat).
Record sim := mkSim { s_chip : chip; s_phase : sim_phase }.

#[global] Instance sim_dmov : Dmov sim := {
  dm_read a h m :=
    if a =? DMOV_STATUS DMOV_NAND_CHAN then
      match s_phase h with
      | SimIdle => (0, h, m)
      | SimBusy (S n) => (0, mkSim (s_chip h) (SimBusy n), m)
      | SimBusy O => (DMOV_STATUS_RSLT_VALID + 2 ^ 29, mkSim (s_chip h) (SimResults 1), m)
      | SimResults O => (DMOV_STATUS_RSLT_VALID, mkSim (s_chip h) SimIdle, m)
      | SimResults (S k) => (DMOV_STATUS_RSLT_VALID + 2 ^ 29 * Z.of_nat (S k), h, m)
      end
    else if a =? DMOV_RSLT DMOV_NAND_CHAN then
      match s_phase h with
      | SimResults (S k) => (0x80000002, mkSim (s_chip h) (SimResults k), m)
      | _ => (0, h, m)
      end
    else (0, h, m);
  dm_write a v h m :=
    if a =? DMOV_CMD_PTR DMOV_NAND_CHAN then let '(c, m') := sim_list (m_cmds m) (s_chip h, m) in (mkSim c (SimBusy 1), m')
    else (h, m);
  interleaved_gpios h := h;
}.

(** The phases of the law. *)
Definition sim_rel (h : sim) (m : memory) (ph : phase) : Prop :=
  match ph with
  | Idle c => s_chip h = c ∧ s_phase h = SimIdle
  | Busy n Q => ∃ n', (n' ≤ n)%nat ∧ s_phase h = SimBusy n' ∧ Q (s_chip h, m)
  | Results k c => s_chip h = c ∧ s_phase h = SimResults k
  end.

(** ** It conforms *)

Context (Hmark : (S (mark_at f) < BUF_SIZE)%nat).

Lemma sim_exec_ok c Q : exec_wp f c Q → Q (sim_exec c).
Proof.
  unfold exec_wp, sim_exec. destruct (r_cmd c =? NAND_CMD_PAGE_READ_ECC); [|destruct (r_cmd c =? NAND_CMD_PAGE_READ); [|destruct (r_cmd c =? NAND_CMD_PRG_PAGE);
    [|destruct (r_cmd c =? NAND_CMD_BLOCK_ERASE); [|done]]]].
  - unfold read_ecc_wp. destruct (pages (c_flash c) (addr_page c)); [done| |done]. intros (_ & _ & _ & _ & _ & _ & _ & _ & HQ). by apply HQ.
  - unfold read_raw_wp. intros (_ & _ & _ & _ & _ & HQ). apply HQ; [done|by rewrite length_replicate|].
    unfold marked. rewrite !nth_lookup, !lookup_replicate_2 by lia. by destruct (bad _ _), (f_wide f).
  - unfold program_wp. intros (_ & _ & _ & _ & HQ). destruct (cfg_ecc c); [destruct HQ as (_ & _ & _ & _ & HQ)|destruct HQ as [_ HQ]]; apply HQ.
  - unfold erase_wp. intros (_ & _ & _ & _ & _ & HQ). by apply HQ.
Qed.

Lemma sim_write_reg_ok r x Q c : write_reg f r x Q c → Q (sim_write_reg r x c).
Proof.
  unfold write_reg, sim_write_reg.
  destruct (r =? NAND_FLASH_CMD); [done|]. destruct (r =? NAND_ADDR0); [done|]. destruct (r =? NAND_ADDR1); [done|].
  destruct (r =? NAND_FLASH_CHIP_SELECT); [by intros [_ HQ]|]. destruct (r =? NAND_EXEC_CMD); [intros [_ HQ]; by apply sim_exec_ok|].
  destruct (r =? NAND_DEV0_CFG0); [done|]. destruct (r =? NAND_DEV0_CFG1); [done|]. destruct (r =? NAND_DEV0_CFG1 + 4); [by intros [_ HQ]|].
  destruct (r =? NAND_EBI2_ECC_BUF_CFG); [done|]. by destruct (_ || _).
Qed.

Lemma sim_write_regs_ok ws : ∀ r Q c, write_regs f r ws Q c → Q (sim_write_regs r ws c).
Proof. induction ws as [|w ws IH]; intros r Q c Hw; [done|]. cbn [write_regs sim_write_regs] in *. apply IH. by apply sim_write_reg_ok in Hw. Qed.

Lemma sim_read_regs_ok n : ∀ r Q c, read_regs r n Q c → Q (sim_read_regs r n c) c.
Proof.
  induction n as [|n IH]; intros r Q c Hr; [done|]. cbn [read_regs sim_read_regs] in *. unfold read_reg in Hr. unfold sim_read_reg.
  destruct (r =? NAND_FLASH_STATUS); [by apply (IH _ (λ xs, Q (_ :: xs)))|]. destruct (r =? NAND_FLASH_STATUS + 4); [by apply (IH _ (λ xs, Q (_ :: xs)))|].
  destruct (r =? NAND_EBI2_ECC_BUF_CFG); [by apply (IH _ (λ xs, Q (_ :: xs)))|done].
Qed.

Lemma sim_read_regs_length n : ∀ r c, length (sim_read_regs r n c) = n.
Proof. induction n as [|n IH]; intros r c; cbn; [done|]. by rewrite IH. Qed.

Lemma sim_transfer_ok d Q x : transfer_wp f base d Q x → Q (sim_transfer d x).
Proof.
  destruct x as [c m]. unfold transfer_wp, sim_transfer. intros (_ & Hl & Hm4 & Ht).
  destruct (is_reg (dst d)); [|destruct (is_reg (src d)); [|destruct (is_buf (dst d) (len d)); [|destruct (is_buf (src d) (len d)); [|done]]]].
  - destruct (find_area base m (src d)) as [[[] off]|]; try done. destruct Ht as (_ & _ & Ht). by apply sim_write_regs_ok in Ht.
  - destruct (find_area base m (dst d)) as [[[] off]|] eqn:E; try done. destruct Ht as (Ho & Hs & Ht). apply sim_read_regs_ok in Ht.
    assert (0 ≤ off) as Hoff.
    { unfold find_area in E. destruct (head _) as [a|] eqn:Ea in E; [|done]. cbn in E. injection E as -> <-.
      apply head_Some_elem_of, list_elem_of_filter in Ea as [Ea _]. apply andb_true_iff in Ea as [Ea _]. lia. }
    rewrite (proj2 (Nat.leb_le _ _)); [done|]. cbn [size_of] in Hs. assert (0 ≤ len d / 4 ∧ 0 ≤ off / 4) by (split; apply Z.div_pos; lia).
    Z.div_mod_to_equations. lia.
  - destruct (find_area base m (src d)) as [[a off]|]; [|done]. by destruct (slice _ _ _).
  - destruct (find_area base m (dst d)) as [[a off]|]; [|done]. by destruct (store _ _ _).
Qed.

Lemma sim_list_ok l : ∀ Q x, list_wp f base l Q x → Q (sim_list l x).
Proof.
  induction l as [|d l IH]; intros Q x Hl; [done|]. cbn [list_wp sim_list] in *. apply sim_transfer_ok in Hl. destruct (flag (cmd d) CMD_LC); [done|by apply IH].
Qed.

#[global] Instance sim_conforms : Conforms f base 1 sim_rel.
Proof.
  split.
  - done.
  - intros h m c x [<- Hp]. by cbn.
  - intros h m c Q x [<- Hp] _ _ Hl. cbn [dm_write sim_dmov]. rewrite Z.eqb_refl. apply sim_list_ok in Hl. destruct (sim_list _ _) as [c' m'].
    exists 1%nat. by split_and!.
  - intros h m n Q (n' & Hn & Hp & HQ). cbn [dm_read sim_dmov]. rewrite Z.eqb_refl. rewrite Hp. destruct n' as [|n'].
    + right. split; [done|]. exists (s_chip h), 1%nat. by split_and!.
    + left. split; [done|]. destruct n as [|n]; [lia|]. exists n. split; [done|]. exists n'. split_and!; [lia|done|done].
  - intros h m k c [<- Hp]. cbn [dm_read sim_dmov]. rewrite Z.eqb_refl. rewrite Hp. destruct k as [|k]; [done|]. split_and!; [done| |done].
    apply Z.eqb_neq. unfold DMOV_STATUS_RSLT_COUNT. rewrite Z.shiftr_div_pow2, (Z.mul_comm (2 ^ 29)), Z.div_add by lia.
    change (DMOV_STATUS_RSLT_VALID / 2 ^ 29) with 0. lia.
  - intros h m k c [<- Hp]. cbn [dm_read sim_dmov]. change (DMOV_RSLT DMOV_NAND_CHAN =? DMOV_STATUS DMOV_NAND_CHAN) with false.
    rewrite Z.eqb_refl. by rewrite Hp.
Qed.

(** ** It leaves objects in their places *)

Lemma sim_transfer_shape N loc d x : shape N loc x.2 → shape N loc (sim_transfer d x).2.
Proof.
  destruct x as [c m]. cbn [snd]. intros Hm. pose proof Hm as (H1 & H2 & H3 & H4 & H5 & H6 & H7 & H8). unfold sim_transfer.
  destruct (is_reg (dst d)); [by destruct (find_area base m (src d)) as [[[] off]|]|]. destruct (is_reg (src d)).
  { destruct (find_area base m (dst d)) as [[[] off]|]; try done; case_match eqn:E; try done; apply Nat.leb_le in E; cbn [snd]; unfold shape; cbn;
      (rewrite length_splice_in by (rewrite sim_read_regs_length; lia)); by split_and!. }
  destruct (is_buf (dst d) (len d)); [destruct (find_area base m (src d)) as [[a off]|]; [by destruct (slice _ _ _)|done]|].
  destruct (is_buf (src d) (len d)); [|done]. destruct (find_area base m (dst d)) as [[a off]|]; [|done].
  destruct (store _ _ _) as [b| |] eqn:E; [|done|done]. apply store_length in E. cbn [snd].
  destruct a; cbn [set_bytes bytes_in] in *; try done; unfold shape; cbn; rewrite E; by split_and!.
Qed.

Lemma sim_list_shape N loc l : ∀ x, shape N loc x.2 → shape N loc (sim_list l x).2.
Proof.
  induction l as [|d l IH]; intros x Hx; [done|]. cbn [sim_list]. pose proof (sim_transfer_shape N loc d x Hx). destruct (flag _ _); [done|by apply IH].
Qed.

#[global] Instance sim_sizes : DmovSizes sim.
Proof.
  split.
  - intros a h m N loc Hm. cbn [dm_read sim_dmov]. repeat case_match; done.
  - intros a v h m N loc Hm. cbn [dm_write sim_dmov]. destruct (a =? _); [|done].
    pose proof (sim_list_shape N loc (m_cmds m) (s_chip h, m) Hm) as Hs. by destruct (sim_list _ _).
  - done.
Qed.
End Sim.

(** * A board *)

Definition board_base (a : area) : Z :=
  match a with
  | Cmds => 0x80010000 | Ptrs => 0x80011000 | Tmp => 0x80012000 | Spare => 0x80012100 | Empty => 0x80012400 | Local => 0x80013000 | Image => 0x80100000
  end.
Definition BOARD_N : Z := 4096.

Lemma board_layout : layout_ok board_base BOARD_N.
Proof.
  split.
  - intros []; cbn; lia.
  - intros []; cbn; unfold BOARD_N; lia.
  - intros [] [] Hne; try done; cbn; unfold BOARD_N; lia.
  - intros []; cbn; unfold BOARD_N, MSM_NAND_BASE, NAND_WINDOW; lia.
  - intros a [-> | ->]; done.
Qed.

Definition board_memory (img : buffer) : memory :=
  mkMemory (replicate CMD_SLOTS (mkDmov 0 0 0 0)) (replicate PTR_WORDS 0) [0; 0] (replicate 128 0) (replicate 528 0) (replicate 4 0) img.

Lemma board_shape img : Z.of_nat (length img) = BOARD_N → shape BOARD_N 4 (board_memory img).
Proof. intros Hi. unfold shape. cbn [m_cmds m_ptrs m_tmp m_spare m_empty m_local m_image board_memory]. rewrite !length_replicate. split_and!; (done || lia). Qed.

Definition table_of (r : res (list Z)) : list Z := match r with Ok t => t | _ => [] end.
Definition board_tt : list Z := table_of (arm_mmu_init (replicate TT_ENTRIES 0)).

Lemma board_identity a : 0 ≤ a < 2 ^ 32 → arm_mmu_virt2phy board_tt a = Ok a.
Proof. intros Ha. unfold board_tt. destruct (mmu_init_identity (replicate TT_ENTRIES 0)) as (t & -> & Ht); [apply length_replicate|]. by apply Ht. Qed.

(** A flash of 2048 blocks with 64 pages of 2048 bytes each. *)
Definition board_format : format := mkFormat 4 64 2048 false false.
Definition board_chip (bad_ : Z → bool) : chip := mkChip 0 0 0 0 CFG1_RAW 0 0 [] 0 [] true (mkNandFlash (λ _, Erased) bad_).
Definition board (bad_ : Z → bool) (img : buffer) (v : nand_vars) : nand_state sim := mkNand (mkSim (board_chip bad_) SimIdle) (board_memory img) v.

(** The variables before and after flash_init. *)
Definition zero_vars : nand_vars := mkVars (mkConfig 0 0 0 0 0 0 0 0 0 0 0) (mkFlashInfo 0 0 0 0 0 0 0 0) [] 0 0 0 0 0.
Definition board_vars : nand_vars :=
  mkVars (mkConfig 0 0 (modem_cfg0 2048 false) (layout_cfg1 2048 528 false) (apps_cfg0 2048 false false) (layout_cfg1 2048 528 false)
            CFG0_RAW CFG1_RAW 0 0 0)
    (mkFlashInfo 0x1580aa2c FLASH_8BIT_NAND_DEVICE 0x2c 0xaa 2048 (Z.shiftl 2048 6) 64 2048) (replicate 2048 BB_UNKNOWN) 2048 0 64 63 0.

Example board_init :
  let '(r, s) := @flash_init sim (sim_dmov board_format (λ _, false) board_base) board_base 4 (board (λ _, false) [] zero_vars) in
  r = NRet tt ∧ n_vars s = board_vars.
Proof. vm_compute. done. Qed.

Lemma board_configured : configured board_format (apps board_vars).
Proof. split; try by vm_compute. split; try (by left); try by vm_compute. Qed.

Lemma board_table (bad_ : Z → bool) : table_ok board_format (mkNandFlash (λ _, Erased) bad_) (bbtbl board_vars).
Proof. split; [done|]. intros b e He. apply lookup_replicate in He as [-> _]. by left. Qed.

(** An image of two pages, a partition of four blocks, of which the first is bad, and a
    page of the second one that cannot be programmed. *)
Definition board_image : buffer := (λ i, Z.of_nat i mod 251) <$> seq 0 4096.
Definition board_ptn : ptentry := mkPtentry [] 3 4 0 TYPE_APPS_PARTITION 0.
Definition board_bad (b : Z) : bool := b =? 3.
Definition board_fails (p : Z) : bool := p =? 4 * 64 + 1.


(** * The properties at work *)


(** The same partition with two pages in its first good block. *)
Definition board_page (i : Z) : list Z := (λ j, (Z.of_nat j + i) mod 256) <$> seq 0 2064.
Definition board_contents : nand := mkNandFlash (λ p, if p =? 4 * 64 then Data (board_page 1) else if p =? 4 * 64 + 1 then Data (board_page 2) else Erased) board_bad.

Lemma flash_read_contents_witness :
  let c := mkChip 0 0 0 0 CFG1_RAW 0 0 [] 0 [] true board_contents in
  runs sim_rel c (board_memory board_image) board_vars
    (@flash_read_ext sim (sim_dmov board_format board_fails board_base) board_base 4 0 board_ptn 16 (Z.of_nat 1 * flash_pagesize board_vars) (board_base Image) 2000)
    (λ r c' m' v', c_flash c' = board_contents ∧ m_image m' = splice board_image 0 (concat (take (chunk_size board_format 16) <$> [board_page 2])) ∧
       (r = 0 ∨ r = -1 ∧ (1 + 1 = 2)%nat ∧ 4 * 64 + 2 = last_page board_format board_ptn)).
Proof.
  assert (holds board_format board_contents (3 * 64) [board_page 1; board_page 2] (4 * 64 + 2)) as Hh.
  { apply holds_bad; [done|]. apply holds_page; [done|done|]. apply holds_page; [done|done|]. apply holds_nil. }
  apply (@flash_read_contents sim (sim_dmov board_format board_fails board_base) board_format board_base BOARD_N board_layout 1 sim_rel
    (sim_conforms board_format board_fails board_base ltac:(vm_compute; lia)) 4 ltac:(unfold patient; lia) 0
    (mkChip 0 0 0 0 CFG1_RAW 0 0 [] 0 [] true board_contents) (board_memory board_image) board_vars board_ptn 16 1 2000 [board_page 1; board_page 2] (4 * 64 + 2)).
  - exact board_configured.
  - exists 4%nat. by apply board_shape.
  - split; [done|]. intros b e He. apply lookup_replicate in He as [-> _]. by left.
  - split_and!; [done|done|by vm_compute].
  - lia.
  - lia.
  - exact Hh.
  - by vm_compute.
  - repeat constructor.
  - by vm_compute.
  - by vm_compute.
  - by vm_compute.
Defined.

Lemma flash_lists_safe_witness :
  let '(r, s) := (@flash_init _ (@watch sim (sim_dmov board_format board_fails board_base) board_base) board_base 4;;
                  @flash_session _ (@watch sim (sim_dmov board_format board_fails board_base) board_base) board_base board_tt 4 0 BOARD_N
                    [FErase board_ptn; FWrite board_ptn 0 4096; FRead board_ptn 0 0 4096])
                 (mkNand (mkWatched (mkSim (board_chip board_bad) SimIdle) true 0) (board_memory board_image) zero_vars) in
  r ≠ NUndef ∧ w_safe (n_hw s) = true.
Proof.
  apply (@flash_lists_safe sim (sim_dmov board_format board_fails board_base) (sim_sizes board_format board_fails board_base ltac:(vm_compute; lia)) board_base board_tt 4 0 BOARD_N 4).
  - exact board_layout.
  - exact board_identity.
  - by apply board_shape.
  - done.
  - done.
Defined.

Lemma interleaved_lists_unsafe_witness :
  let s := board board_bad board_image
    (mkVars (config board_vars) (info board_vars) (bbtbl board_vars) 4096 1 64 63 0) in
  Forall (λ d, flag (cmd d) CMD_LC = false) (il_read_page_list board_base 8 0x80100000 0x80012100) ∧
  (@flash_nand_write_page_interleave sim (sim_dmov board_format board_fails board_base) board_base 4 64 0x80100000 0x80012100 false s).1 = NUndef.
Proof.
  apply (@interleaved_lists_unsafe sim (sim_dmov board_format board_fails board_base) board_base 4 8 0x80100000 0x80012100 64 false BOARD_N 4).
  - by apply board_shape.
  - done.
Defined.
