(* ===== verification/FlashBoot.v ===== *)
(** The Android boot loader on a phone with NAND flash: the flash half of aboot.c
    (src/bootable/lk/app/aboot: boot_linux_from_flash, the device information in the
    "devinfo" partition, cmd_flash, cmd_erase) and of recovery.c (the recovery message in
    "misc", the radio update).

    The loader sees the flash through [FlashDevice], the operations of dev/flash.h; the
    partition library lib/ptable, which is not in the sources, is [ptable_find].  What
    other code provides is [flash_machine].  The state is that of [Aboot], with the flash
    for the card; the buffer of recovery.c and the scratch memory are separate. *)
From Stdlib Require Import ZArith.
From stdpp Require Import base numbers list strings.
From S2P Require Import Prelude Bytes ArmMmu NandDriver Mmc Partition BootTags Aboot Fastboot AbootCmds.

(** * The flash, as its clients see it *)

(** lib/ptable.h *)
Abbreviation flash_ptn := NandDriver.ptentry.

(** A buffer is the memory from its address on, up to the end of the object; reading
    returns its new contents.  A call that does not return is [Panic]. *)
Class FlashDevice (D : Type) := {
  fl_page_size : D → Z;                                       (* flash_page_size *)
  fl_get_ptable : D → Z;                                      (* flash_get_ptable *)
  fl_ecc_bch_enabled : D → Z;                                 (* flash_ecc_bch_enabled *)
  fl_read : flash_ptn → Z → buffer → Z → D → res (Z * buffer * D);  (* partition, offset, data, bytes *)
  fl_write : flash_ptn → Z → buffer → Z → D → res (Z * D);      (* partition, extra bytes per page, data, bytes *)
  fl_erase : flash_ptn → D → res (Z * D);
}.

Record flash_machine := mkFlashMachine {
  fm : machine;
  ptable_find : Z → list Z → option flash_ptn;  (* lib/ptable *)
  ram_at : Z → buffer;                        (* the memory at a load address *)
  behind_cookie : list Z;                     (* the stack behind ssd_cookie *)
  print_buf : buffer;                         (* the log of the loader *)
  print_idx : Z;
}.

Section FlashBoot.
Context {D : Type} `{FlashDevice D} (fmach : flash_machine).
#[local] Notation m := (fm fmach).
Implicit Types s : aboot D.

(** [flash_get_ptable] and [ptable_find]; [None]: no table, or no such partition. *)
Definition find_ptn (nm : list Z) (d : D) : option flash_ptn :=
  if fl_get_ptable d =? 0 then None else ptable_find fmach (fl_get_ptable d) nm.

(** * Device information *)

Definition write_device_info_flash (dev : device_info) s : res (aboot D) :=
  match find_ptn (bytes_of "devinfo") (card s) with
  | None => Ok s
  | Some ptn =>
      info ← store (info_buf s) 0 (device_bytes dev);
      let s := set_info_buf info s in
      '(_, d) ← fl_write ptn 0 (info_buf s) (page_size s) (card s);
      Ok (set_card d s)
  end.

Definition read_device_info_flash s : res (aboot D) :=
  match find_ptn (bytes_of "devinfo") (card s) with
  | None => Ok s
  | Some ptn =>
      '(ret, info, d) ← fl_read ptn 0 (info_buf s) (page_size s) (card s);
      let s := set_card d (set_info_buf info s) in
      if negb (ret =? 0) then Ok s
      else
        dev ← info_device (info_buf s);
        if bool_decide (dev_magic dev = bytes_of DEVICE_MAGIC) then Ok (set_device dev s)
        else
          s ← write_device_info_flash initial_device s;
          dev ← info_device (info_buf s);
          Ok (set_device dev s)
  end.

(** * Booting *)

(** The branch that authenticates the image in the scratch memory; false is [return -1]. *)
Definition load_signed_flash (ptn : flash_ptn) (scratch : buffer) s : res (bool * aboot D * buffer) :=
  ks ← hdr_kernel_size (buf s); rs ← hdr_ramdisk_size (buf s);
  let kernel_actual := ROUND_TO_PAGE ks (page_mask s) in
  let ramdisk_actual := ROUND_TO_PAGE rs (page_mask s) in
  let imagesize_actual := u32 (page_size s + kernel_actual + ramdisk_actual) in
  let s := set_device (set_tampered 1 (device s)) s in
  '(ret, scratch, d) ← fl_read ptn 0 scratch imagesize_actual (card s);
  let s := set_card d s in
  if negb (ret =? 0) then Ok (false, s, scratch)
  else
    rest ← slice scratch imagesize_actual (length scratch - Z.to_nat imagesize_actual);
    '(ret, rest, d) ← fl_read ptn imagesize_actual rest (page_size s) (card s);
    let s := set_card d s in
    let scratch := take (Z.to_nat imagesize_actual) scratch ++ rest in
    s ← (if negb (ret =? 0) then Ok s
         else
           image ← slice scratch 0 (Z.to_nat imagesize_actual);
           sig ← slice scratch imagesize_actual (Z.to_nat (page_size s));
           let auth := image_verify m image sig in
           let s := set_auth auth s in
           Ok (if negb (auth =? 0) then set_device (set_tampered 0 (device s)) s else s));
    ka ← hdr_kernel_addr (buf s); ra ← hdr_ramdisk_addr (buf s);
    kb ← slice scratch (page_size s) (Z.to_nat ks);
    rb ← slice scratch (u32 (page_size s + kernel_actual)) (Z.to_nat rs);
    let s := add_load ra rb (add_load ka kb s) in
    s ← (if negb (is_tampered (device s) =? 0) then write_device_info_flash (device s) s else Ok s);
    Ok (true, s, scratch).

(** [flash_read(ptn, offset, (void * )addr, n)]: a load of [n] bytes. *)
Definition load_flash (ptn : flash_ptn) (offset addr n : Z) s : res (Z * aboot D) :=
  '(ret, b, d) ← fl_read ptn offset (ram_at fmach addr) n (card s);
  Ok (ret, add_load addr (take (Z.to_nat n) b) (set_card d s)).

(** The branch that loads kernel and ramdisk directly. *)
Definition load_plain_flash (ptn : flash_ptn) s : res (bool * aboot D) :=
  ks ← hdr_kernel_size (buf s); rs ← hdr_ramdisk_size (buf s);
  ka ← hdr_kernel_addr (buf s); ra ← hdr_ramdisk_addr (buf s);
  let offset := page_size s in
  let n := ROUND_TO_PAGE ks (page_mask s) in
  '(ret, s) ← load_flash ptn offset ka n s;
  if negb (ret =? 0) then Ok (false, s)
  else
    let offset := u32 (offset + n) in
    let n := ROUND_TO_PAGE rs (page_mask s) in
    '(ret, s) ← load_flash ptn offset ra n s;
    Ok (ret =? 0, s).

Definition boot_linux_from_flash (scratch : buffer) s : res (Z * aboot D * buffer) :=
  if is_emmc_boot (m_target m) then
    um ← hdr_magic (uhdr m);
    if bool_decide (um = bytes_of BOOT_MAGIC) then s ← boot_from_header m (uhdr m) s; Ok (0, s, scratch)
    else Ok (-1, s, scratch)
  else
    match find_ptn (bytes_of (if boot_into_recovery s then "recovery" else "boot")) (card s) with
    | None => Ok (-1, s, scratch)
    | Some ptn =>
        '(ret, b, d) ← fl_read ptn 0 (buf s) (page_size s) (card s);
        let s := set_card d (set_buf b s) in
        if negb (ret =? 0) then Ok (-1, s, scratch)
        else
          mg ← hdr_magic (buf s);
          if negb (bool_decide (mg = bytes_of BOOT_MAGIC)) then Ok (-1, s, scratch)
          else
            hps ← hdr_page_size (buf s);
            if negb (hps =? page_size s) then Ok (-1, s, scratch)
            else
              '(ok, s, scratch) ←
                (if use_signed_kernel (m_target m) && (is_unlocked (device s) =? 0) && (is_tampered (device s) =? 0)
                 then load_signed_flash ptn scratch s
                 else '(ok, s) ← load_plain_flash ptn s; Ok (ok, s, scratch));
              if negb (ok : bool) then Ok (-1, s, scratch)
              else s ← boot_from_header m (buf s) s; Ok (0, s, scratch)
    end.
End FlashBoot.

(** * The recovery message *)

Definition BOOT_FLAGS : Z := 1.
Definition UPDATE_STATUS : Z := 2.
Definition MISC_COMMAND_PAGE : Z := 1.
Definition UPDATE_MAGIC : string := "MSM-RADIO-UPDATE".
Definition UPDATE_MAGIC_SIZE : nat := 16.
Definition UPDATE_HEADER_SIZE : nat := 60.
Definition SAVE_LOG_SIZE : Z := 12.

(** [struct update_header], as far as it is used *)
Record update_header := mkUpdate { update_magic : list Z; image_offset : Z; image_length : Z }.

(** [boot_info_for_apps] in shared memory *)
Record boot_info_for_apps := mkBootInfo { boot_flags_word : Z; update_status_word : Z }.

(** The value for [*status], which keeps its old value for any other type. *)
Definition get_boot_info_apps (info : option boot_info_for_apps) (type_ status : Z) : option Z :=
  match info with
  | None => None
  | Some i => Some (if type_ =? BOOT_FLAGS then boot_flags_word i else if type_ =? UPDATE_STATUS then update_status_word i else status)
  end.

(** The loader with the static buffer of recovery.c and the memory at SCRATCH_ADDR. *)
Record recov (D : Type) := mkRecov { core : aboot D; rec_buf : buffer; scratch : buffer }.
Arguments mkRecov {_}. Arguments core {_}. Arguments rec_buf {_}. Arguments scratch {_}.

Definition set_core {D} (a : aboot D) (s : recov D) : recov D := mkRecov a (rec_buf s) (scratch s).
Definition set_flash {D} (d : D) (s : recov D) : recov D := mkRecov (set_card d (core s)) (rec_buf s) (scratch s).
Definition set_rec_buf {D} (b : buffer) (s : recov D) : recov D := mkRecov (core s) b (scratch s).
Definition set_scratch {D} (b : buffer) (s : recov D) : recov D := mkRecov (core s) (rec_buf s) b.

(** [memcpy(&msg, b, sizeof(msg))] *)
Definition read_msg (b : buffer) : res recovery_message :=
  c ← slice b 0 32; st ← slice b 32 32; r ← slice b 64 1024; Ok (mkMsg c st r).

Section Recovery.
Context {D : Type} `{FlashDevice D} (fmach : flash_machine) (info : option boot_info_for_apps).
Implicit Types s : recov D.
#[local] Notation flash s := (card (core s)).

Definition get_recovery_message s : res (option recovery_message * recov D) :=
  let pagesize := fl_page_size (flash s) in
  match find_ptn fmach (bytes_of "misc") (flash s) with
  | None => Ok (None, s)
  | Some ptn =>
      '(ret, b, d) ← fl_read ptn (u32 (pagesize * MISC_COMMAND_PAGE)) (rec_buf s) pagesize (flash s);
      let s := set_flash d (set_rec_buf b s) in
      if negb (ret =? 0) then Ok (None, s) else msg ← read_msg (rec_buf s); Ok (Some msg, s)
  end.

Definition save_debug_message s : res (Z * recov D) :=
  let pagesize := fl_page_size (flash s) in
  match find_ptn fmach (bytes_of "FOTA") (flash s) with
  | None => Ok (-1, s)
  | Some ptn =>
      let length_ := print_idx fmach in
      b ← store (scratch s) 0 (le_bytes 4 0 0x6e616670 ++ le_bytes 4 0 0x676f6c67 ++ le_bytes 4 0 length_);
      log ← slice (print_buf fmach) 0 (Z.to_nat length_);
      b ← store b SAVE_LOG_SIZE log;
      let s := set_scratch b s in
      pages ← (if pagesize =? 0 then Fault else Ok (u32 (SAVE_LOG_SIZE + length_) / pagesize));
      let n := u32 ((pages + 1) * pagesize) in
      '(ret, d) ← fl_write ptn 0 (scratch s) n (flash s);
      Ok (if negb (ret =? 0) then -1 else 0, set_flash d s)
  end.

Definition set_recovery_message (msg : recovery_message) s : res (Z * recov D) :=
  let pagesize := fl_page_size (flash s) in
  match find_ptn fmach (bytes_of "misc") (flash s) with
  | None => Ok (-1, s)
  | Some ptn =>
      let n := u32 (pagesize * (MISC_COMMAND_PAGE + 1)) in
      '(ret, b, d) ← fl_read ptn 0 (scratch s) n (flash s);
      let s := set_flash d (set_scratch b s) in
      if negb (ret =? 0) then Ok (-1, s)
      else
        b ← store (scratch s) (u32 (pagesize * MISC_COMMAND_PAGE)) (msg_bytes msg);
        let s := set_scratch b s in
        '(ret, d) ← fl_write ptn 0 (scratch s) n (flash s);
        Ok (if negb (ret =? 0) then -1 else 0, set_flash d s)
  end.

(** [None] is -1: no header was read; a header with another magic number is returned
    with -1 as well. *)
Definition read_update_header_for_bootloader s : res (Z * option update_header * recov D) :=
  let pagesize := fl_page_size (flash s) in
  match find_ptn fmach (bytes_of "cache") (flash s) with
  | None => Ok (-1, None, s)
  | Some ptn =>
      '(ret, b, d) ← fl_read ptn 0 (rec_buf s) pagesize (flash s);
      let s := set_flash d (set_rec_buf b s) in
      if negb (ret =? 0) then Ok (-1, None, s)
      else
        h ← slice (rec_buf s) 0 UPDATE_HEADER_SIZE;
        mg ← slice h 0 UPDATE_MAGIC_SIZE; io ← GET_LWORD_FROM_BYTE h 24; il ← GET_LWORD_FROM_BYTE h 28;
        Ok (if bool_decide (mg = bytes_of UPDATE_MAGIC) then 0 else -1, Some (mkUpdate mg io il), s)
  end.

Definition update_firmware_image (header : update_header) (nm : list Z) s : res (Z * recov D) :=
  let pagemask := u32 (fl_page_size (flash s) - 1) in
  match find_ptn fmach (bytes_of "cache") (flash s) with
  | None => Ok (-1, s)
  | Some ptn =>
      let n := ROUND_TO_PAGE (image_length header) pagemask in
      '(ret, b, d) ← fl_read ptn (image_offset header) (scratch s) n (flash s);
      let s := set_flash d (set_scratch b s) in
      if negb (ret =? 0) then Ok (-1, s)
      else
        match find_ptn fmach nm (flash s) with
        | None => Ok (-1, s)
        | Some ptn =>
            '(ret, d) ← fl_write ptn 0 (scratch s) n (flash s);
            Ok (if negb (ret =? 0) then -1 else 0, set_flash d s)
        end
  end.

(** [ssd_cookie], and what is on the stack behind it. *)
Definition ssd_cookie : list Z := le_bytes 4 0 0x53534443 ++ le_bytes 4 0 0x4F4F4B49.

Definition set_ssd_radio_update (nm : list Z) s : res (Z * recov D) :=
  let pagemask := u32 (fl_page_size (flash s) - 1) in
  let n := ROUND_TO_PAGE 8 pagemask in
  match find_ptn fmach nm (flash s) with
  | None => Ok (-1, s)
  | Some ptn =>
      '(ret, d) ← fl_write ptn 0 (ssd_cookie ++ behind_cookie fmach) n (flash s);
      Ok (if negb (ret =? 0) then -1 else 0, set_flash d s)
  end.

Definition set_command (t : string) (msg : recovery_message) : recovery_message :=
  mkMsg (strlcpy_to (command msg) (bytes_of t)) (msg_status msg) (recovery msg).
Definition set_status (t : string) (msg : recovery_message) : recovery_message :=
  mkMsg (command msg) (strlcpy_to (msg_status msg) (bytes_of t)) (recovery msg).
(** [strcmp(name, msg.status) == 0] *)
Definition is_status (nm : string) (msg : recovery_message) : bool :=
  bool_decide (c_string (msg_status msg) = bytes_of nm).

(** [set_recovery_message(&msg); boot_into_recovery = 1;] *)
Definition send_message (msg : recovery_message) s : res (recov D) :=
  '(_, s) ← set_recovery_message msg s; Ok (set_core (set_recovery true (core s)) s).

(** Without OLD_FOTA_UPGRADE.  Behind reboot_device the function returns 0. *)
Definition recovery_init s : res (Z * recov D) :=
  '(msg, s) ← get_recovery_message s;
  match msg with
  | None => Ok (-1, s)
  | Some msg =>
      let msg := mkMsg (take 31 (command msg) ++ [0]) (msg_status msg) (recovery msg) in
      if is_command "boot-recovery" msg then
        if is_status "RADIO" msg then
          let ok := match get_boot_info_apps info UPDATE_STATUS 0 with Some st => Z.testbit st 0 | None => false end in
          let msg := set_command EmptyString (set_status (if ok then "OKAY" else "failed-update") msg) in
          s ← send_message msg s; Ok (0, s)
        else s ← send_message (set_status "OKAY" (set_command EmptyString msg)) s; Ok (0, s)
      else if is_command "update-radio" msg then
        '(ret, s) ← set_ssd_radio_update (bytes_of "FOTA") s;
        let msg := set_status (if negb (ret =? 0) then "failed-update" else EmptyString) (set_command EmptyString msg) in
        s ← send_message msg s;
        Ok (0, set_core (set_reset 0 (core s)) s)
      else Ok (0, s)
  end.
End Recovery.

(** * The fastboot commands *)

Section FlashCommands.
Context {D : Type} `{FlashDevice D} (fmach : flash_machine).
Abbreviation st := (fb app_cmd (aboot D)).
Implicit Types s : st.
#[local] Notation m := (fm fmach).

Definition cmd_erase (arg : list Z) s : res st :=
  if fl_get_ptable (card (app s)) =? 0 then Ok (fastboot_fail "partition table doesn't exist" s)
  else
    match find_ptn fmach arg (card (app s)) with
    | None => Ok (fastboot_fail "unknown partition name" s)
    | Some ptn =>
        '(ret, d) ← fl_erase ptn (card (app s));
        let s := with_card d s in
        if negb (ret =? 0) then Ok (fastboot_fail "failed to erase partition" s) else Ok (fastboot_okay [] s)
    end.

(** [!strcmp(ptn->name, "...")] for one of the names *)
Definition ptn_is (names : list string) (ptn : flash_ptn) : bool :=
  existsb (λ nm, bool_decide (c_string (ptn_name ptn) = bytes_of nm)) names.

(** The spare bytes that come with each page of a file system image. *)
Definition extra_per_page (ptn : flash_ptn) (a : aboot D) : Z :=
  if negb (fl_ecc_bch_enabled (card a) =? 0) then u32 (Z.shiftr (page_size a) 9 * 20) else u32 (Z.shiftr (page_size a) 9 * 16).

Definition cmd_flash (arg : list Z) s : res st :=
  if fl_get_ptable (card (app s)) =? 0 then Ok (fastboot_fail "partition table doesn't exist" s)
  else
    match find_ptn fmach arg (card (app s)) with
    | None => Ok (fastboot_fail "unknown partition name" s)
    | Some ptn =>
        bad ← (if ptn_is ["boot"; "recovery"] ptn
               then same ← memeq (bytes_of BOOT_MAGIC) (download s) 8; Ok (negb same) else Ok false);
        if (bad : bool) then Ok (fastboot_fail "image is not a boot image" s)
        else
          let sz := download_size s in
          let '(extra, sz) :=
            if ptn_is ["system"; "userdata"; "persist"; "recoveryfs"] ptn then (extra_per_page ptn (app s), sz)
            else (0, ROUND_TO_PAGE sz (page_mask (app s))) in
          '(ret, d) ← fl_write ptn extra (download s) sz (card (app s));
          let s := with_card d s in
          if negb (ret =? 0) then Ok (fastboot_fail "flash write failure" s) else Ok (fastboot_okay [] s)
    end.

(** cmd_continue and cmd_oem_unlock on a target that does not boot from eMMC *)
Definition cmd_continue_flash s : res st :=
  let s := fastboot_okay [] s in
  '(_, a, b) ← boot_linux_from_flash fmach (download s) (app s);
  let s := set_app a (set_download b s) in
  Ok (match kernel a with Some _ => leave s | None => s end).

Definition cmd_oem_unlock_flash s : res st :=
  s ← (if is_unlocked (device (app s)) =? 0 then
         let dev := set_unlocked 1 (device (app s)) in
         a ← write_device_info_flash fmach dev (set_device dev (app s)); Ok (set_app a s)
       else Ok s);
  Ok (fastboot_okay [] s).

Definition flash_handle (c : app_cmd) (arg : list Z) s : res st :=
  match c with
  | C_boot => cmd_boot m s
  | C_flash => cmd_flash arg s
  | C_erase => cmd_erase arg s
  | C_continue => cmd_continue_flash s
  | C_reboot => Ok (cmd_reboot s)
  | C_reboot_bootloader => Ok (cmd_reboot_bootloader s)
  | C_oem_unlock => cmd_oem_unlock_flash s
  | C_oem_devinfo => Ok (cmd_oem_devinfo s)
  end.

(** The normal boot; [rbuf] is the static buffer of recovery.c.  Without USE_PCOM_SECBOOT. *)
Definition normal_boot_flash (info : option boot_info_for_apps) (rbuf mem : buffer) (a : aboot D) : res (aboot D * buffer) :=
  '(_, r) ← recovery_init fmach info (mkRecov a rbuf mem);
  if reset (core r) then Ok (core r, scratch r)
  else
    '(_, r) ← save_debug_message fmach r;
    '(_, a, mem) ← boot_linux_from_flash fmach (scratch r) (core r);
    Ok (a, mem).

(** aboot_init on a target that does not boot from eMMC. *)
Definition aboot_init_flash (info : option boot_info_for_apps) (rbuf : buffer) (k : AbootCmds.start) s : res st :=
  let a := set_page (fl_page_size (card (app s))) (app s) in
  a ← (if use_signed_kernel (m_target m) then read_device_info_flash fmach a else Ok a);
  let a := set_serial (serialno k) a in
  let '(fastboot, recovery) := start_mode k (boot_into_recovery a) in
  let a := set_recovery recovery a in
  '(a, mem) ← (if fastboot : bool then Ok (a, scratch_area k) else normal_boot_flash info rbuf (scratch_area k) a);
  if reset a then Ok (leave (set_app a s))
  else if kernel a then Ok (leave (set_app a s))
  else
    '(_, r) ← save_debug_message fmach (mkRecov a rbuf mem);
    let s := register_commands k (set_app (core r) s) in
    Ok (fastboot_init (init k) (scratch r) (max_flash_size k) s).2.
End FlashCommands.
