(* ===== verification/FlashSpec.v ===== *)
(** What the boot loader needs of its flash, as an interface, and what it does with it.

    [FlashStore] is the contract of dev/flash.h: what [contains] says of a partition is
    what reading it returns, writing replaces it or reports that the good blocks are full,
    and other partitions keep theirs.  Two blemishes of the driver are part of it: a
    reading that ends with the last page of the partition is reported as an error, and
    writing does not correct what the driver has learnt about the blocks ([table_right],
    [untouched]) before the next start. *)
From Stdlib Require Import ZArith.
From stdpp Require Import base numbers list strings.
From S2P Require Import Prelude Bytes ArmMmu NandDriver Mmc Partition PartitionWrite BootTags Aboot Fastboot AbootCmds FlashBoot.

(** The partitions have no block in common. *)
Definition apart (p q : flash_ptn) : Prop :=
  NandDriver.start p + length_ p ≤ NandDriver.start q ∨ NandDriver.start q + length_ q ≤ NandDriver.start p.

(** What does not change while the loader runs. *)
Definition statics {D} `{FlashDevice D} (d d' : D) : Prop :=
  fl_page_size d' = fl_page_size d ∧ fl_get_ptable d' = fl_get_ptable d ∧ fl_ecc_bch_enabled d' = fl_ecc_bch_enabled d.

Class FlashStore (D : Type) `{FlashDevice D} := {
  driver_ok : D → Prop;
  table_right : D → Prop;
  untouched : D → flash_ptn → Prop;
  part_ok : flash_ptn → Prop;
  contains : D → flash_ptn → list Z → bool → Prop;  (* the contents; do they reach the last page? *)
  restarted : D → D → Prop;
  buffer_limit : Z;

  store_page d : driver_ok d → ∃ k, 11 ≤ k ≤ 12 ∧ fl_page_size d = 2 ^ k;

  store_read d ptn img brim k j dest :
    driver_ok d → table_right d → part_ok ptn → contains d ptn img brim →
    let off := k * fl_page_size d in let n := j * fl_page_size d in
    0 ≤ k → 0 ≤ j → off + n ≤ Z.of_nat (length img) → off < Z.of_nat (length img) → n < 2 ^ 31 →
    n ≤ Z.of_nat (length dest) → Z.of_nat (length dest) ≤ buffer_limit →
    ∃ r d', fl_read ptn off dest n d = Ok (r, take (Z.to_nat n) (drop (Z.to_nat off) img) ++ drop (Z.to_nat n) dest, d') ∧
      (brim = false ∨ off + n < Z.of_nat (length img) → r = 0) ∧
      driver_ok d' ∧ table_right d' ∧ statics d d' ∧ ∀ p i b, contains d p i b → contains d' p i b;

  store_write d ptn data j :
    driver_ok d → part_ok ptn → ptn_type ptn ≠ TYPE_MODEM_PARTITION →
    let n := j * fl_page_size d in
    0 ≤ j → n < 2 ^ 31 → n ≤ Z.of_nat (length data) → Z.of_nat (length data) ≤ buffer_limit →
    ∃ r d', fl_write ptn 0 data n d = Ok (r, d') ∧ driver_ok d' ∧ statics d d' ∧
      (table_right d → untouched d ptn → table_right d') ∧
      (r = 0 ∧ (∃ brim, contains d' ptn (take (Z.to_nat n) data) brim) ∨ r = -1) ∧
      ∀ p i b, apart ptn p → contains d p i b → contains d' p i b;

  store_restart d d' :
    driver_ok d → restarted d d' →
    driver_ok d' ∧ table_right d' ∧ (∀ p, untouched d' p) ∧ statics d d' ∧ ∀ p i b, contains d p i b → contains d' p i b;
}.

(** * Buffers *)

(** The first [n] bytes have been replaced by those of [l]. *)
Lemma slice_overlay l rest n off k :
  0 ≤ off → off + Z.of_nat k ≤ Z.of_nat n → (n ≤ length l)%nat → slice (take n l ++ rest) off k = slice l off k.
Proof.
  intros H0 H1 H2. unfold slice, in_range. rewrite length_app, length_take.
  rewrite !(proj2 (Z.leb_le _ _)) by lia. cbn [andb]. f_equal.
  rewrite drop_app_le by (rewrite length_take; lia). rewrite take_app_le by (rewrite length_drop, length_take; lia).
  rewrite skipn_firstn_comm, take_take. f_equal. lia.
Qed.

Lemma lword_overlay l rest n off :
  0 ≤ off → off + 4 ≤ Z.of_nat n → (n ≤ length l)%nat → GET_LWORD_FROM_BYTE (take n l ++ rest) off = GET_LWORD_FROM_BYTE l off.
Proof. intros. unfold GET_LWORD_FROM_BYTE. by rewrite slice_overlay by lia. Qed.

(** Answering does not change the application. *)
Lemma app_ack {Cmd X} code reason (s : fb Cmd X) : app (fastboot_ack code reason s) = app s.
Proof. unfold fastboot_ack, usb_write. repeat case_match; simplify_eq; done. Qed.

Lemma boot_from_header_flags {D} (m : machine) h (a b : aboot D) k :
  boot_flags_of b = boot_flags_of a → boot_from_header m h a = Ok (set_kernel k a) → boot_from_header m h b = Ok (set_kernel k b).
Proof.
  unfold boot_from_header. intros E Ha. rewrite E. repeat (apply res_bind_ok in Ha as (? & Hx & Ha); rewrite Hx; cbn [mbind res_bind]; clear Hx).
  injection Ha as ->. done.
Qed.

(** * Flashing and booting *)

Section FlashThenBoot.
Context {D : Type} `{FD : FlashDevice D} `{FS : !FlashStore D} (fmach : flash_machine).
#[local] Notation m := (fm fmach).

(** A partition the loader uses. *)
Record at_hand (nm : string) (d : D) (ptn : flash_ptn) : Prop := {
  ah_find : find_ptn fmach (bytes_of nm) d = Some ptn;
  ah_name : c_string (ptn_name ptn) = bytes_of nm;
  ah_part : part_ok ptn;
  ah_type : ptn_type ptn ≠ TYPE_MODEM_PARTITION;
}.

(** The loader has been started: it knows the page size, and its buffers are there. *)
Record loader_ok (a : aboot D) : Prop := {
  lo_driver : driver_ok (card a);
  lo_page : page_size a = fl_page_size (card a);
  lo_mask : page_mask a = page_size a - 1;
  lo_buf : length (buf a) = 4096%nat;
  lo_info : length (info_buf a) = 4096%nat;
  lo_limit : 4096 ≤ buffer_limit;
}.

(** An image for pages of [ps] bytes. *)
Record boot_image (ps : Z) (img : list Z) (ks rs ka ra : Z) : Prop := {
  bi_magic : hdr_magic img = Ok (bytes_of BOOT_MAGIC);
  bi_page : hdr_page_size img = Ok ps;
  bi_ks : hdr_kernel_size img = Ok ks;
  bi_rs : hdr_ramdisk_size img = Ok rs;
  bi_ka : hdr_kernel_addr img = Ok ka;
  bi_ra : hdr_ramdisk_addr img = Ok ra;
  bi_sizes : 0 ≤ ks ∧ 0 < rs;
  bi_fits : ps + (ks + (ps - 1)) / ps * ps + (rs + (ps - 1)) / ps * ps ≤ Z.of_nat (length img) < 2 ^ 31;
}.

(** The memory at the load addresses. *)
Definition room_at (a n : Z) : Prop := n ≤ Z.of_nat (length (ram_at fmach a)) ∧ Z.of_nat (length (ram_at fmach a)) ≤ buffer_limit.

Lemma find_statics nm d d' ptn : statics d d' → find_ptn fmach nm d = Some ptn → find_ptn fmach nm d' = Some ptn.
Proof. unfold find_ptn. by intros (_ & -> & _). Qed.

(** Loading [j] pages from page [k] on. *)
Lemma load_flash_ok ptn k j addr (a : aboot D) img brim :
  driver_ok (card a) → table_right (card a) → part_ok ptn → contains (card a) ptn img brim →
  let ps := fl_page_size (card a) in
  0 ≤ k → 0 ≤ j → k * ps + j * ps ≤ Z.of_nat (length img) → k * ps < Z.of_nat (length img) → j * ps < 2 ^ 31 → room_at addr (j * ps) →
  ∃ r d', load_flash fmach ptn (k * ps) addr (j * ps) a =
      Ok (r, add_load addr (take (Z.to_nat (j * ps)) (drop (Z.to_nat (k * ps)) img)) (set_card d' a)) ∧
    (brim = false ∨ k * ps + j * ps < Z.of_nat (length img) → r = 0) ∧
    driver_ok d' ∧ table_right d' ∧ statics (card a) d' ∧ contains d' ptn img brim.
Proof.
  intros Hd Ht Hp Hc ps Hk Hj H1 H2 H3 [Hr1 Hr2]. destruct (store_read _ _ _ _ k j (ram_at fmach addr) Hd Ht Hp Hc Hk Hj H1 H2 H3 Hr1 Hr2)
    as (r & d' & E & Hr & Hd' & Ht' & Hs & Hkeep). exists r, d'. split_and!; try done; [|by apply Hkeep].
  unfold load_flash. fold ps in E. rewrite E. cbn [mbind res_bind]. do 3 f_equal. rewrite take_app_le.
  - apply take_ge. rewrite length_take. lia.
  - rewrite length_take, length_drop. destruct (store_page _ Hd) as (x & _ & Ex). fold ps in Ex. nia.
Qed.

(** The header page in [buf]. *)
Definition header_in (ps : Z) (img b : list Z) : list Z := take (Z.to_nat ps) img ++ drop (Z.to_nat ps) b.

Lemma header_fields ps img b ks rs ka ra :
  2048 ≤ ps → boot_image ps img ks rs ka ra →
  hdr_magic (header_in ps img b) = Ok (bytes_of BOOT_MAGIC) ∧ hdr_page_size (header_in ps img b) = Ok ps ∧
  hdr_kernel_size (header_in ps img b) = Ok ks ∧ hdr_ramdisk_size (header_in ps img b) = Ok rs ∧
  hdr_kernel_addr (header_in ps img b) = Ok ka ∧ hdr_ramdisk_addr (header_in ps img b) = Ok ra.
Proof.
  intros Hp [Hm Hps Hks Hrs Hka Hra [Hk Hr] [Hf _]]. unfold header_in, hdr_magic, hdr_page_size, hdr_kernel_size, hdr_ramdisk_size, hdr_kernel_addr, hdr_ramdisk_addr in *.
  pose proof (round_up_bounds ks ps). pose proof (round_up_bounds rs ps). rewrite slice_overlay, !lword_overlay by lia. done.
Qed.

(** The sizes in whole pages. *)
Definition in_pages (ps x : Z) : Z := (x + (ps - 1)) / ps * ps.
Definition kernel_part (ps : Z) (img : list Z) (ks : Z) : list Z := take (Z.to_nat (in_pages ps ks)) (drop (Z.to_nat ps) img).
Definition ramdisk_part (ps : Z) (img : list Z) (ks rs : Z) : list Z :=
  take (Z.to_nat (in_pages ps rs)) (drop (Z.to_nat (ps + in_pages ps ks)) img).

(** A page size, and rounding to it. *)
Lemma page_rounds (a : aboot D) x :
  loader_ok a → 0 ≤ x < 2 ^ 31 → 2048 ≤ page_size a ≤ 4096 ∧ ROUND_TO_PAGE x (page_mask a) = in_pages (page_size a) x ∧ x ≤ in_pages (page_size a) x.
Proof.
  intros [Hd Hp Hm _ _ _] Hx. destruct (store_page _ Hd) as (k & Hk & Ek). rewrite Hm, Hp, Ek.
  assert (2048 ≤ 2 ^ k ≤ 4096) as Hps by (assert (k = 11 ∨ k = 12) as [-> | ->] by lia; lia).
  rewrite round_to_page_pow2 by lia. pose proof (round_up_bounds x (2 ^ k)). unfold in_pages. split_and!; [lia..|done|lia].
Qed.

Lemma load_plain_flash_ok ptn (a : aboot D) img brim ks rs ka ra :
  loader_ok a → table_right (card a) → part_ok ptn → contains (card a) ptn img brim →
  let ps := page_size a in
  boot_image ps img ks rs ka ra → (∃ b, buf a = header_in ps img b) → room_at ka (in_pages ps ks) → room_at ra (in_pages ps rs) →
  ∃ ok d', load_plain_flash fmach ptn a =
      Ok (ok, add_load ra (ramdisk_part ps img ks rs) (add_load ka (kernel_part ps img ks) (set_card d' a))) ∧
    (brim = false ∨ ps + in_pages ps ks + in_pages ps rs < Z.of_nat (length img) → ok = true).
Proof.
  intros Hl Ht Hp Hc ps Hi [b Hb] Hka Hra. destruct (bi_sizes _ _ _ _ _ _ Hi) as [Hks Hrs]. destruct (bi_fits _ _ _ _ _ _ Hi) as [Hf Hf31].
  fold (in_pages ps ks) (in_pages ps rs) in Hf.
  assert (in_pages ps ks < 2 ^ 31 ∧ in_pages ps rs < 2 ^ 31 ∧ ks < 2 ^ 31 ∧ rs < 2 ^ 31 ∧ 0 ≤ in_pages ps ks ∧ 0 < in_pages ps rs ∧ 2048 ≤ ps) as (A1 & A2 & A3 & A4 & A5 & A6 & A7).
  { destruct (page_rounds a 0 Hl) as [Hps _]; [lia|]. fold ps in Hps. pose proof (round_up_bounds ks ps). pose proof (round_up_bounds rs ps). unfold in_pages in *. lia. }
  destruct (page_rounds a ks Hl) as (_ & Rk & _); [lia|]. destruct (page_rounds a rs Hl) as (_ & Rr & _); [lia|]. fold ps in Rk, Rr.
  destruct (header_fields ps img b ks rs ka ra) as (_ & _ & E1 & E2 & E3 & E4); [done|done|].
  unfold load_plain_flash. rewrite Hb, E1, E2, E3, E4. cbn [mbind res_bind]. fold ps. rewrite Rk.
  pose proof (lo_page a Hl) as Hpg. fold ps in Hpg. pose proof (lo_driver a Hl) as Hd.
  set (jk := (ks + (ps - 1)) / ps). set (jr := (rs + (ps - 1)) / ps). change (in_pages ps ks) with (jk * ps) in *. change (in_pages ps rs) with (jr * ps) in *.
  destruct (load_flash_ok ptn 1 jk ka a img brim Hd Ht Hp Hc) as (r1 & d1 & L1 & H1 & Hd1 & Ht1 & Hs1 & Hc1); rewrite <- ?Hpg; [lia|nia|lia..|done|].
  rewrite <- Hpg, Z.mul_1_l in L1. rewrite Z.mul_1_l in H1. rewrite L1. cbn [mbind res_bind]. rewrite H1 by (right; lia). cbn [Z.eqb negb].
  cbn [page_mask add_load set_card]. rewrite Rr. rewrite u32_small by lia.
  destruct (load_flash_ok ptn (1 + jk) jr ra (add_load ka (take (Z.to_nat (jk * ps)) (drop (Z.to_nat ps) img)) (set_card d1 a)) img brim Hd1 Ht1 Hp Hc1)
    as (r2 & d2 & L2 & H2 & _); cbn [card add_load set_card] in *; rewrite ?(proj1 Hs1), <- ?Hpg in *; [nia|nia|lia..|done|].
  replace ((1 + jk) * ps) with (ps + jk * ps) in * by lia. rewrite L2. cbn [mbind res_bind]. exists (r2 =? 0), d2. split; [done|].
  intros Hor. by rewrite H2.
Qed.

(** The device does not ask for a signature. *)
Definition unsigned_boot (a : aboot D) : Prop :=
  use_signed_kernel (m_target m) && (is_unlocked (device a) =? 0) && (is_tampered (device a) =? 0) = false.

(** The partition that is booted. *)
Definition boot_name (a : aboot D) : string := if boot_into_recovery a then "recovery" else "boot".

(** Booting what a partition holds. *)
Lemma boot_contents ptn (a : aboot D) scr img brim ks rs ka ra k :
  is_emmc_boot (m_target m) = false → unsigned_boot a → loader_ok a → table_right (card a) →
  at_hand (boot_name a) (card a) ptn → contains (card a) ptn img brim →
  let ps := page_size a in
  boot_image ps img ks rs ka ra → room_at ka (in_pages ps ks) → room_at ra (in_pages ps rs) →
  boot_from_header m (header_in ps img (buf a)) a = Ok (set_kernel k a) →
  ∃ r a', boot_linux_from_flash fmach scr a = Ok (r, a', scr) ∧
    loads a' = loads a ++ [(ka, kernel_part ps img ks); (ra, ramdisk_part ps img ks rs)] ∧
    (brim = false ∨ ps + in_pages ps ks + in_pages ps rs < Z.of_nat (length img) → r = 0 ∧ kernel a' = Some k).
Proof.
  intros He Hu Hl Ht [Hfind _ Hp _] Hc ps Hi Hka Hra Hk. pose proof (bi_sizes _ _ _ _ _ _ Hi) as [Hks Hrs]. pose proof (bi_fits _ _ _ _ _ _ Hi) as [Hf Hf31].
  fold (in_pages ps ks) (in_pages ps rs) in Hf. destruct (page_rounds a 0 Hl) as [Hps _]; [lia|]. fold ps in Hps.
  pose proof (round_up_bounds ks ps) as Bk. pose proof (round_up_bounds rs ps) as Br. fold (in_pages ps ks) in Bk. fold (in_pages ps rs) in Br.
  pose proof (lo_page a Hl) as Hpg. fold ps in Hpg.
  destruct (store_read (card a) ptn img brim 0 1 (buf a) (lo_driver a Hl) Ht Hp Hc) as (r0 & d0 & E0 & H0 & Hd0 & Ht0 & Hs0 & Hc0);
    rewrite <- ?Hpg, ?(lo_buf a Hl); [lia..|apply (lo_limit a Hl)|]. rewrite <- Hpg, Z.mul_0_l, Z.mul_1_l in *. change (Z.to_nat 0) with 0%nat in E0. rewrite drop_0 in E0.
  unfold boot_linux_from_flash. rewrite He. fold (boot_name a). rewrite Hfind. fold ps. rewrite E0. cbn [mbind res_bind]. fold (header_in ps img (buf a)).
  rewrite H0 by (right; lia). cbn [Z.eqb negb]. cbn [buf set_card set_buf].
  destruct (header_fields ps img (buf a) ks rs ka ra) as (E1 & E2 & _); [lia|done|]. rewrite E1. cbn [mbind res_bind]. rewrite bool_decide_eq_true_2 by done. cbn [negb].
  rewrite E2. cbn [mbind res_bind page_size set_card set_buf]. fold ps. rewrite Z.eqb_refl. cbn [negb device set_card set_buf]. rewrite Hu.
  set (a0 := set_card d0 (set_buf (header_in ps img (buf a)) a)).
  assert (loader_ok a0) as Hl0.
  { destruct Hl. split; cbn; try done; [by rewrite (proj1 Hs0)|]. unfold header_in. rewrite length_app, length_take, length_drop. lia. }
  destruct (load_plain_flash_ok ptn a0 img brim ks rs ka ra Hl0 Ht0 Hp) as (ok & d1 & E3 & Hok); [by apply Hc0|done|by exists (buf a)|done|done|].
  cbn [page_size a0 set_card set_buf] in E3, Hok. fold ps in E3, Hok. rewrite E3. cbn [mbind res_bind]. destruct ok; cbn [negb].
  - set (a1 := add_load ra _ _). change (buf a1) with (header_in ps img (buf a)).
    rewrite (boot_from_header_flags m (header_in ps img (buf a)) a a1 k); [|done|done]. cbn [mbind res_bind].
    eexists _, _. split_and!; [done| |done]. cbn. by rewrite <- app_assoc.
  - eexists _, _. split_and!; [done|cbn; by rewrite <- app_assoc|]. intros Hor. discriminate (Hok Hor).
Qed.

(** ** cmd_flash *)

Lemma boot_partition_names ptn nm :
  c_string (ptn_name ptn) = bytes_of nm → nm = "boot" ∨ nm = "recovery" →
  ptn_is ["boot"; "recovery"] ptn = true ∧ ptn_is ["system"; "userdata"; "persist"; "recoveryfs"] ptn = false.
Proof. intros E [-> | ->]; unfold ptn_is; rewrite E; by vm_compute. Qed.

(** The download area with an image in it. *)
Record downloaded (s : fb app_cmd (aboot D)) (img : list Z) : Prop := {
  dl_size : 0 ≤ download_size s < 2 ^ 30;
  dl_area : in_pages (page_size (app s)) (download_size s) ≤ Z.of_nat (length (download s)) ≤ buffer_limit;
  dl_image : img = take (Z.to_nat (in_pages (page_size (app s)) (download_size s))) (download s);
}.

Lemma cmd_flash_boot nm ptn (s : fb app_cmd (aboot D)) img :
  loader_ok (app s) → nm = "boot" ∨ nm = "recovery" → at_hand nm (card (app s)) ptn → downloaded s img → hdr_magic img = Ok (bytes_of BOOT_MAGIC) →
  ∃ r d', cmd_flash fmach (bytes_of nm) s =
      Ok (if negb (r =? 0) then fastboot_fail "flash write failure" (with_card d' s) else fastboot_okay [] (with_card d' s)) ∧
    driver_ok d' ∧ statics (card (app s)) d' ∧ (table_right (card (app s)) → untouched (card (app s)) ptn → table_right d') ∧
    (r = 0 ∧ (∃ brim, contains d' ptn img brim) ∨ r = -1) ∧ ∀ p i b, apart ptn p → contains (card (app s)) p i b → contains d' p i b.
Proof.
  intros Hl Hnm [Hfind Hname Hp Hty] [Hsz Har ->] Hmg. destruct (page_rounds (app s) (download_size s) Hl) as (Hps & Hr & Hle); [lia|].
  set (ps := page_size (app s)) in *. pose proof (lo_page _ Hl) as Hpg. fold ps in Hpg. set (n := in_pages ps (download_size s)) in *.
  assert (n < 2 ^ 31) as Hn31 by (pose proof (round_up_bounds (download_size s) ps); subst n; unfold in_pages; lia).
  destruct (store_write (card (app s)) ptn (download s) ((download_size s + (ps - 1)) / ps) (lo_driver _ Hl) Hp Hty) as (r & d' & E & Hd' & Hs & Ht & Hc & Hk);
    rewrite <- ?Hpg; [apply Z.div_pos; lia|exact Hn31|exact (proj1 Har)|exact (proj2 Har)|]. rewrite <- Hpg in E, Hc. change ((download_size s + (ps - 1)) / ps * ps) with n in E, Hc.
  exists r, d'. split_and!; try done. unfold cmd_flash. pose proof Hfind as Hf0. unfold find_ptn in Hf0. destruct (fl_get_ptable _ =? 0); [done|].
  rewrite Hfind. destruct (boot_partition_names ptn nm Hname Hnm) as [-> ->].
  unfold hdr_magic in Hmg. apply slice_ok in Hmg as (_ & Hl8 & Hmg). rewrite length_take in Hl8. change (Z.to_nat 0) with 0%nat in Hmg. rewrite drop_0, take_take in Hmg.
  destruct (memeq_prefix (bytes_of BOOT_MAGIC) (download s)) as (same & Hsame & Hiff); [change (length (bytes_of BOOT_MAGIC)) with 8%nat; lia|].
  change (length (bytes_of BOOT_MAGIC)) with 8%nat in Hsame, Hiff. rewrite Hsame. cbn [mbind res_bind].
  rewrite (proj2 Hiff) by (rewrite Hmg; f_equal; lia). cbn [negb]. rewrite Hr, E. cbn [mbind res_bind]. by destruct (negb (r =? 0)).
Qed.

(** Flashing works end to end: when the host has downloaded a boot image and flashes the
    partition the phone boots from, the loader either answers "flash write failure",
    because the good blocks of the partition are full, or it answers OKAY, and then
    booting loads exactly the kernel and the ramdisk of that image at the addresses in
    its header and enters that kernel.  Booting can only fail if the ramdisk ends with the
    last page of the partition.  This holds over any flash that keeps its contract,
    whatever blocks are bad or go bad while the image is written. *)
Theorem flash_then_boot ptn (s : fb app_cmd (aboot D)) img ks rs ka ra k scr :
  is_emmc_boot (m_target m) = false → unsigned_boot (app s) → loader_ok (app s) → table_right (card (app s)) →
  at_hand (boot_name (app s)) (card (app s)) ptn → untouched (card (app s)) ptn → downloaded s img →
  let ps := page_size (app s) in
  boot_image ps img ks rs ka ra → room_at ka (in_pages ps ks) → room_at ra (in_pages ps rs) →
  boot_from_header m (header_in ps img (buf (app s))) (app s) = Ok (set_kernel k (app s)) →
  ∃ d' s1, cmd_flash fmach (bytes_of (boot_name (app s))) s = Ok s1 ∧
    (s1 = fastboot_fail "flash write failure" (with_card d' s) ∨
     s1 = fastboot_okay [] (with_card d' s) ∧ ∃ brim, contains d' ptn img brim ∧
       ∃ r a, boot_linux_from_flash fmach scr (app s1) = Ok (r, a, scr) ∧
         loads a = loads (app s) ++ [(ka, kernel_part ps img ks); (ra, ramdisk_part ps img ks rs)] ∧
         (brim = false ∨ ps + in_pages ps ks + in_pages ps rs < Z.of_nat (length img) → r = 0 ∧ kernel a = Some k)).
Proof.
  intros He Hu Hl Ht Hp Hun Hdl ps Hi Hka Hra Hk.
  destruct (cmd_flash_boot (boot_name (app s)) ptn s img Hl) as (r & d' & E & Hd' & Hs & Ht' & Hc & _);
    [unfold boot_name; by destruct (boot_into_recovery _); [right|left]|done|done|apply Hi|].
  exists d'. eexists. split; [exact E|]. destruct Hc as [[-> [brim Hc]]| ->]; [right|by left]. cbn [Z.eqb negb]. split; [done|]. exists brim. split; [done|].
  unfold fastboot_okay. rewrite app_ack. cbn [app with_card set_app]. destruct Hp as [Hfind Hname Hpart Hty].
  apply (boot_contents ptn (set_card d' (app s)) scr img brim ks rs ka ra k); try done.
  - destruct Hl. split; cbn; try done. by rewrite (proj1 Hs).
  - by apply Ht'.
  - split; try done. by eapply find_statics.
  - by apply (boot_from_header_flags m _ (app s)).
Qed.
End FlashThenBoot.

(** * The recovery message *)

Section Message.
Context {D : Type} `{FD : FlashDevice D} `{FS : !FlashStore D} (fmach : flash_machine) (info : option boot_info_for_apps).
Implicit Types s : recov D.
#[local] Notation flash s := (card (core s)).

Definition msg_ok (msg : recovery_message) : Prop := length (command msg) = 32%nat ∧ length (msg_status msg) = 32%nat ∧ length (recovery msg) = 1024%nat.

(** The misc partition holds a message in its second page. *)
Definition message_in (d : D) (msg : recovery_message) : Prop :=
  ∃ ptn img brim, at_hand fmach "misc" d ptn ∧ contains d ptn img brim ∧
    (brim = false ∨ 2 * fl_page_size d < Z.of_nat (length img)) ∧ 2 * fl_page_size d ≤ Z.of_nat (length img) ∧
    slice img (fl_page_size d) 1088 = Ok (msg_bytes msg) ∧ msg_ok msg.

(** The buffers of recovery.c. *)
Record recov_ok s : Prop := {
  ro_driver : driver_ok (flash s);
  ro_table : table_right (flash s);
  ro_buf : length (rec_buf s) = 4096%nat;
  ro_scratch : 8192 ≤ Z.of_nat (length (scratch s)) ≤ buffer_limit;
}.

Lemma read_msg_bytes msg rest : msg_ok msg → read_msg (msg_bytes msg ++ rest) = Ok msg.
Proof.
  intros (H1 & H2 & H3). unfold read_msg, msg_bytes. destruct msg as [c st r]. cbn [command msg_status recovery] in *. rewrite <- !app_assoc.
  pose proof (slice_mid [] c (st ++ r ++ rest) 0 32) as E. rewrite app_nil_l in E. rewrite E by (cbn; lia). cbn [mbind res_bind]. rewrite (slice_mid c st (r ++ rest) 32 32) by lia. cbn [mbind res_bind].
  rewrite app_assoc, (slice_mid (c ++ st) r rest 64 1024) by (rewrite ?length_app; lia). done.
Qed.

Lemma length_msg_bytes msg : msg_ok msg → length (msg_bytes msg) = 1088%nat.
Proof. intros (H1 & H2 & H3). unfold msg_bytes. rewrite !length_app. lia. Qed.

Lemma page_bounds d : driver_ok d → 2048 ≤ fl_page_size d ≤ 4096.
Proof. intros Hd. destruct (store_page d Hd) as (k & Hk & ->). assert (k = 11 ∨ k = 12) as [-> | ->] by lia; lia. Qed.

Lemma get_recovery_ok s msg :
  recov_ok s → message_in (flash s) msg →
  ∃ s', get_recovery_message fmach s = Ok (Some msg, s') ∧ recov_ok s' ∧ core s' = set_card (flash s') (core s) ∧ statics (flash s) (flash s') ∧
    ∀ p i b, contains (flash s) p i b → contains (flash s') p i b.
Proof.
  intros [Hd Ht Hb Hs] (ptn & img & brim & [Hfind _ Hp _] & Hc & Hbr & Hlen & Hmsg & Hok). pose proof (page_bounds _ Hd) as Hps. set (ps := fl_page_size (flash s)) in *.
  destruct (store_read (flash s) ptn img brim 1 1 (rec_buf s) Hd Ht Hp Hc) as (r & d' & E & Hr & Hd' & Ht' & Hst & Hk); fold ps; rewrite ?Hb; [lia..|].
  fold ps in E, Hr. rewrite !Z.mul_1_l in E, Hr. unfold get_recovery_message. rewrite Hfind. fold ps. unfold MISC_COMMAND_PAGE.
  rewrite Z.mul_1_r, u32_small, E by lia. cbn [mbind res_bind]. rewrite Hr by (destruct Hbr; [by left|right; lia]). cbn [Z.eqb negb rec_buf set_flash set_rec_buf].
  apply slice_ok in Hmsg as (_ & _ & Hmsg). set (page := take (Z.to_nat ps) (drop (Z.to_nat ps) img)). assert (Z.of_nat (length page) = ps) as Hpl.
  { subst page. rewrite length_take, length_drop. lia. }
  assert (page = msg_bytes msg ++ drop 1088 page) as ->.
  { rewrite <- (take_drop 1088 page) at 1. f_equal. subst page. rewrite take_take, Nat.min_l by lia. done. }
  rewrite <- app_assoc, read_msg_bytes by done. cbn [mbind res_bind]. eexists. split; [done|]. split_and!; [|done|done|done].
  split; [done|done| |done]. cbn [rec_buf set_flash set_rec_buf]. rewrite !length_app, length_msg_bytes, !length_drop by done. lia.
Qed.

(** Setting a message: it is there afterwards, with the first page unchanged, unless the
    good blocks of the partition are used up. *)
Lemma set_recovery_ok s msg old :
  recov_ok s → message_in (flash s) old → msg_ok msg →
  ∃ r s', set_recovery_message fmach msg s = Ok (r, s') ∧ driver_ok (flash s') ∧ statics (flash s) (flash s') ∧
    core s' = set_card (flash s') (core s) ∧
    (r = -1 ∨ r = 0 ∧ (message_in (flash s') msg ∨ ∃ ptn img, at_hand fmach "misc" (flash s') ptn ∧ contains (flash s') ptn img true)).
Proof.
  intros [Hd Ht Hb Hs] (ptn & img & brim & Hat & Hc & Hbr & Hlen & Hmsg & _) Hok. pose proof Hat as [Hfind _ Hp Hty]. pose proof (page_bounds _ Hd) as Hps.
  pose proof (length_msg_bytes msg Hok) as Hml. set (ps := fl_page_size (flash s)) in *. unfold set_recovery_message. rewrite Hfind. fold ps. unfold MISC_COMMAND_PAGE.
  rewrite Z.mul_1_r, (u32_small (ps * _)), (u32_small ps) by lia.
  destruct (store_read (flash s) ptn img brim 0 2 (scratch s) Hd Ht Hp Hc) as (r & d1 & E & Hr & Hd1 & Ht1 & Hst1 & Hk1); fold ps; [lia..|].
  fold ps in E, Hr. rewrite Z.mul_0_l in E, Hr. replace (ps * (1 + 1)) with (2 * ps) by lia. rewrite E. cbn [mbind res_bind].
  rewrite Hr by (destruct Hbr; [by left|right; lia]). cbn [Z.eqb negb scratch set_flash set_scratch].
  set (b0 := take _ (drop (Z.to_nat 0) img) ++ drop _ (scratch s)). assert (length b0 = length (scratch s)) as Hl0.
  { subst b0. rewrite length_app, length_take, !length_drop. lia. }
  destruct (store_in b0 ps (msg_bytes msg)) as [b Eb]; [lia|lia|]. rewrite Eb. cbn [mbind res_bind scratch set_flash set_scratch core card set_card].
  pose proof (store_length _ _ _ _ Eb) as Hlb.
  destruct (store_write d1 ptn b 2 Hd1 Hp Hty) as (r2 & d2 & E2 & Hd2 & Hst2 & _ & Hr2 & _); rewrite ?(proj1 Hst1); fold ps; [lia..|].
  rewrite (proj1 Hst1) in E2, Hr2. fold ps in E2, Hr2. rewrite E2. cbn [mbind res_bind]. pose proof Hst1 as (A1 & A2 & A3). pose proof Hst2 as (B1 & B2 & B3).
  eexists _, _. split; [done|]. cbn [core set_flash set_scratch card set_card]. split_and!; [done|by unfold statics; rewrite B1, B2, B3|done|].
  destruct Hr2 as [[-> [brim2 Hc2]]| ->]; [right; split; [done|]|by left]. assert (at_hand fmach "misc" d2 ptn) as Hat2.
  { destruct Hat. split; try done. apply (find_statics fmach _ d1); [done|]. by apply (find_statics fmach _ (flash s)). }
  destruct brim2; [right; by exists ptn, (take (Z.to_nat (2 * ps)) b)|]. left. exists ptn, (take (Z.to_nat (2 * ps)) b), false.
  rewrite B1, A1. fold ps. rewrite length_take. split_and!; [done|done|by left|lia| |done].
  pose proof (slice_store_same _ _ _ _ Eb) as Hsl. rewrite Hml in Hsl. apply slice_ok in Hsl as (_ & _ & Hsl). apply slice_ok. rewrite length_take.
  split_and!; [lia|lia|]. rewrite Hsl, skipn_firstn_comm, take_take. f_equal. lia.
Qed.

Lemma message_kept (d d' : D) msg :
  statics d d' → (∀ p i b, contains d p i b → contains d' p i b) → message_in d msg → message_in d' msg.
Proof.
  intros Hst Hk (ptn & img & brim & [] & Hc & Hrest). exists ptn, img, brim. rewrite (proj1 Hst). split_and!; try apply Hrest; [|by apply Hk].
  split; try done. by apply (find_statics fmach _ d).
Qed.

(** ** Recovery is entered once *)

(** The message that answers "boot-recovery". *)
Definition answer (msg : recovery_message) : recovery_message :=
  let msg := mkMsg (take 31 (command msg) ++ [0]) (msg_status msg) (recovery msg) in
  if is_status "RADIO" msg then
    set_command EmptyString (set_status
      (if match get_boot_info_apps info UPDATE_STATUS 0 with Some st => Z.testbit st 0 | None => false end then "OKAY" else "failed-update") msg)
  else set_status "OKAY" (set_command EmptyString msg).

Lemma length_strlcpy dst t : (length t < length dst)%nat → length (strlcpy_to dst t) = length dst.
Proof. intros Hl. unfold strlcpy_to, memcpy_to. rewrite !length_app, length_drop, !length_take. cbn [length]. lia. Qed.

Lemma answer_ok msg : msg_ok msg → msg_ok (answer msg) ∧ c_string (take 31 (command (answer msg)) ++ [0]) = [].
Proof.
  intros (H1 & H2 & H3). unfold answer. set (m1 := mkMsg _ _ _).
  assert (length (command m1) = 32%nat ∧ length (msg_status m1) = 32%nat ∧ length (recovery m1) = 1024%nat) as (L1 & L2 & L3).
  { cbn. rewrite length_app, length_take. split_and!; [cbn [length]; lia|done|done]. }
  clearbody m1. destruct (is_status "RADIO" m1); [destruct (match get_boot_info_apps _ _ _ with Some _ => _ | None => _ end)|]; unfold msg_ok, set_command, set_status;
    cbn [command msg_status recovery]; rewrite !length_strlcpy, ?L1, ?L2, ?L3 by (rewrite ?L1, ?L2; cbn; lia); (split; [done|]);
    unfold strlcpy_to, memcpy_to; rewrite L1; reflexivity.
Qed.

(** Recovery is entered once: when the misc partition asks for "boot-recovery" the loader
    goes to recovery and clears the command, so that at the next start it is a normal boot
    that leaves the flash as it is.  The exceptions are those of the flash: the write was
    refused because the good blocks of misc are used up, or the message now ends with the
    last page of misc, where it cannot be read. *)
Theorem recovery_once s msg :
  recov_ok s → message_in (flash s) msg → c_string (take 31 (command msg) ++ [0]) = bytes_of "boot-recovery" →
  ∃ s1, recovery_init fmach info s = Ok (0, s1) ∧ boot_into_recovery (core s1) = true ∧ reset (core s1) = reset (core s) ∧
    ((∃ s0 s', get_recovery_message fmach s = Ok (Some msg, s0) ∧ set_recovery_message fmach (answer msg) s0 = Ok (-1, s')) ∨
     (∃ ptn img, at_hand fmach "misc" (flash s1) ptn ∧ contains (flash s1) ptn img true) ∨
     ∀ s2, restarted (flash s1) (flash s2) → length (rec_buf s2) = 4096%nat → 8192 ≤ Z.of_nat (length (scratch s2)) ≤ buffer_limit →
       ∃ s3, recovery_init fmach info s2 = Ok (0, s3) ∧ boot_into_recovery (core s3) = boot_into_recovery (core s2) ∧
         reset (core s3) = reset (core s2) ∧ ∀ p i b, contains (flash s2) p i b → contains (flash s3) p i b).
Proof.
  intros Hs Hm Hcmd. pose proof Hm as (_ & _ & _ & _ & _ & _ & _ & _ & Hok). destruct (answer_ok msg Hok) as [Haok Hempty].
  destruct (get_recovery_ok s msg Hs Hm) as (s0 & E0 & Hs0 & Hc0 & Hst0 & Hk0).
  pose proof (message_kept _ _ msg Hst0 Hk0 Hm) as Hm0.
  destruct (set_recovery_ok s0 (answer msg) msg Hs0 Hm0 Haok) as (r & s1 & E1 & Hd1 & Hst1 & Hc1 & Hr).
  assert (recovery_init fmach info s = Ok (0, set_core (set_recovery true (core s1)) s1)) as Hinit.
  { unfold recovery_init. rewrite E0. cbn [mbind res_bind]. unfold is_command. cbn [command]. rewrite bool_decide_eq_true_2 by done.
    unfold answer in E1. unfold send_message. destruct (is_status "RADIO" _); rewrite E1; done. }
  eexists. split; [exact Hinit|]. cbn [core set_core boot_into_recovery set_recovery reset card]. split; [done|]. split; [by rewrite Hc1, Hc0|].
  destruct Hr as [->|[-> [Hm1|Hfull]]]; [left; eauto|right; right|right; left; exact Hfull].
  intros s2 Hres Hb2 Hsc2. destruct (store_restart _ _ Hd1 Hres) as (Hd2 & Ht2 & _ & Hst2 & Hk2).
  destruct (get_recovery_ok s2 (answer msg)) as (s3 & E3 & _ & Hc3 & _ & Hk3); [by split|by apply (message_kept (flash s1))|]. exists s3.
  unfold recovery_init. rewrite E3. cbn [mbind res_bind]. unfold is_command. cbn [command]. rewrite Hempty. rewrite !bool_decide_eq_false_2 by done.
  by rewrite Hc3.
Qed.
End Message.

(** * Answers *)

(** The commands for a phone with flash keep to the protocol as well, on every path: one
    final answer at most. *)
Theorem flash_commands_protocol {D} `{FlashDevice D} (fmach : flash_machine) c arg (s s' : fb app_cmd (aboot D)) :
  fastboot_state s = STATE_COMMAND → flash_handle fmach c arg s = Ok s' → protocol s s'.
Proof.
  intros Hs Hr. destruct c; cbn [flash_handle] in Hr.
  - by apply (cmd_boot_protocol (fm fmach)).
  - unfold cmd_flash in Hr. run; answered.
  - unfold cmd_erase in Hr. run; answered.
  - destruct (fastboot_okay_protocol [] s Hs) as [Hp _]. unfold cmd_continue_flash in Hr. run. case_match; by apply (protocol_ext s (fastboot_okay [] s)).
  - injection Hr as <-. by apply protocol_leave, fastboot_okay_protocol.
  - injection Hr as <-. by apply protocol_leave, fastboot_okay_protocol.
  - unfold cmd_oem_unlock_flash in Hr. run; answered.
  - injection Hr as <-. by apply cmd_devinfo_protocol.
Qed.
