(* ===== verification/FlashNand.v ===== *)
(** The NAND driver keeps the contract of the boot loader: over hardware that conforms,
    [FlashStore] holds of the functions of [NandDriver], so that what [FlashSpec] shows of
    the loader holds of the loader on that driver.  With the simulator of [NandSim] it is a
    phone that can be flashed and started. *)
From Stdlib Require Import ZArith.
From stdpp Require Import base numbers list strings.
From S2P Require Import Prelude Bytes Mmc Partition BootTags Aboot Fastboot AbootCmds FlashBoot FlashSpec.
From S2P Require Import ArmMmu NandDriver NandSafe NandChip NandPages NandWords NandFlash NandParts NandWrite NandSim.

(** A computation of the driver that returns; one that does not is no answer. *)
Definition of_nres {A B} (k : A → B) (r : nres A) : res B :=
  match r with NRet a => Ok (k a) | NUndef => Fault | NPanic | NSpin => Panic end.

Section Device.
Context {H : Type} `{Dmov H} (base : area → Z) (tt_ : list Z) (polls : nat) (uninit : Z).

(** The buffer of the caller is the object [Image]. *)
Definition with_buffer (b : buffer) (d : nand_state H) : nand_state H := mkNand (n_hw d) (set_m_image b (n_mem d)) (n_vars d).

#[global] Instance nand_device : FlashDevice (nand_state H) := {|
  fl_page_size d := flash_pagesize (n_vars d);
  fl_get_ptable d := flash_ptable (n_vars d);
  fl_ecc_bch_enabled d := enable_bch_ecc (config (n_vars d));
  fl_read ptn offset data bytes d :=
    let '(r, d') := flash_read base polls uninit ptn offset (base Image) bytes (with_buffer data d) in
    of_nres (λ r, (r, m_image (n_mem d'), d')) r;
  fl_write ptn extra data bytes d :=
    let '(r, d') := flash_write base tt_ polls uninit ptn extra (base Image) bytes (with_buffer data d) in
    of_nres (λ r, (r, d')) r;
  fl_erase ptn d := let '(r, d') := flash_erase base polls uninit ptn d in of_nres (λ r, (r, d')) r
|}.
End Device.

(** ** Pages in a row *)

Lemma length_concat_same {A} (ls : list (list A)) w : Forall (λ l, length l = w) ls → length (concat ls) = (length ls * w)%nat.
Proof. induction 1 as [|l ls Hl Hls IH]; [done|]. cbn [concat length]. rewrite length_app, IH, Hl. lia. Qed.

Lemma concat_drop {A} (ls : list (list A)) w k : Forall (λ l, length l = w) ls → drop (k * w) (concat ls) = concat (drop k ls).
Proof.
  intros Hls. revert k. induction Hls as [|l ls Hl Hls IH]; intros [|k]; cbn [concat drop Nat.mul]; rewrite ?drop_nil, ?drop_0; try done.
  rewrite <- IH, <- Hl, drop_app_ge by lia. f_equal. lia.
Qed.

Lemma concat_take {A} (ls : list (list A)) w k : Forall (λ l, length l = w) ls → take (k * w) (concat ls) = concat (take k ls).
Proof.
  intros Hls. revert k. induction Hls as [|l ls Hl Hls IH]; intros [|k]; cbn [concat take Nat.mul]; rewrite ?take_nil, ?take_0; try done.
  rewrite <- IH, <- Hl, take_app_ge by lia. do 2 f_equal. lia.
Qed.

Lemma layout_mono base N N' : layout_ok base N → 0 ≤ N' ≤ N → layout_ok base N'.
Proof.
  intros [H1 H2 H3 H4 H5] HN. assert (∀ a, room N' a ≤ room N a) as Hr by (intros []; cbn [room]; lia).
  split.
  - done.
  - intros a. specialize (H2 a). specialize (Hr a). lia.
  - intros a b Hab. pose proof (Hr a). pose proof (Hr b). destruct (H3 a b Hab); lia.
  - intros a. pose proof (Hr a). destruct (H4 a); lia.
  - done.
Qed.

(** * The contract *)

Section Contract.
Context {H : Type} `{Dmov H} (f : format) (base : area → Z) (N : Z) (HL : layout_ok base N) (slack : nat).
Context (R : H → memory → phase → Prop) `{!Conforms f base slack R} (polls : nat) (Hpolls : patient slack polls) (uninit : Z).
Context (tt_ : list Z) (Htt : ∀ a, 0 ≤ a < 2 ^ 32 → arm_mmu_virt2phy tt_ a = Ok a).
Context (flash_of : H → nand) (Hflash : ∀ h m c, R h m (Idle c) → flash_of h = c_flash c).
#[local] Existing Instance nand_device.
Abbreviation dev := (nand_state H).
#[local] Notation store_of d := (flash_of (n_hw d)).

Definition nand_ok (d : dev) : Prop :=
  configured f (apps (n_vars d)) ∧ (∃ N' loc, shape N' loc (n_mem d)) ∧ ∃ c, R (n_hw d) (n_mem d) (Idle c).
Definition nand_table (d : dev) : Prop := table_ok f (store_of d) (bbtbl (n_vars d)).
Definition nand_untouched (d : dev) (ptn : ptentry) : Prop := unread ptn (n_vars d).

(** The bytes of the pages of a partition, the spare bytes left out. *)
Definition nand_contains (d : dev) (ptn : ptentry) (img : list Z) (brim : bool) : Prop :=
  ∃ ds e, holds f (store_of d) (start ptn * f_ppb f) ds e ∧ e ≤ last_page f ptn ∧ whole f ds ∧
    img = concat (take (page_bytes f) <$> ds) ∧ brim = bool_decide (e = last_page f ptn).

(** Started again: the same flash, and a driver that has learnt nothing of its blocks. *)
Definition nand_restarted (d d' : dev) : Prop :=
  store_of d' = store_of d ∧ (∃ N' loc, shape N' loc (n_mem d')) ∧ (∃ c, R (n_hw d') (n_mem d') (Idle c)) ∧
  n_vars d' = with_table (n_vars d) (replicate (Z.to_nat (f_blocks f)) BB_UNKNOWN).

Lemma whole_chunks ds : f_cws f = 4 ∨ f_cws f = 8 → whole f ds → Forall (λ l, length l = page_bytes f) (take (page_bytes f) <$> ds).
Proof.
  intros Hc Hw. apply Forall_fmap. eapply Forall_impl; [exact Hw|]. intros d Hd. cbn. rewrite length_take, Hd. unfold page_bytes, f_words. lia.
Qed.

(** A computation from a state of the contract, with a buffer. *)
Lemma run_with_buffer {A} (d : dev) b (p : nd H A) (Φ : A → chip → memory → nand_vars → Prop) :
  nand_ok d → Z.of_nat (length b) ≤ N →
  (∀ c loc, c_flash c = store_of d → shape (Z.of_nat (length b)) loc (set_m_image b (n_mem d)) → runs R c (set_m_image b (n_mem d)) (n_vars d) p Φ) →
  ∃ a c' d', p (with_buffer b d) = (NRet a, d') ∧ Φ a c' (n_mem d') (n_vars d') ∧ store_of d' = c_flash c' ∧ R (n_hw d') (n_mem d') (Idle c').
Proof.
  intros (Hk & (N' & loc & Hm) & c & Hc) Hb Hp. assert (shape (Z.of_nat (length b)) loc (set_m_image b (n_mem d))) as Hm'.
  { destruct Hm as (? & ? & ? & ? & ? & ? & ? & ?). unfold shape. cbn. by split_and!. }
  assert (here R c (set_m_image b (n_mem d)) (n_vars d) (with_buffer b d)) as Hh.
  { split_and!; [done|done|]. cbn. by eapply (idle_any f base). }
  specialize (Hp c loc (eq_sym (Hflash _ _ _ Hc)) Hm' _ Hh). unfold nwp in Hp. destruct (p (with_buffer b d)) as [[a| | |] d'] eqn:E; try done.
  destruct Hp as (c' & m' & v' & (<- & <- & Hr) & HΦ). exists a, c', d'. split_and!; try done. by eapply Hflash.
Qed.

Lemma apps_with_table v l : apps (with_table (apps v) l) = with_table (apps v) l.
Proof. done. Qed.

Lemma nand_sizes v : configured f (apps v) →
  (f_cws f = 4 ∨ f_cws f = 8) ∧ flash_pagesize v = Z.of_nat (page_bytes f) ∧ 2048 ≤ Z.of_nat (page_bytes f) ≤ 4096 ∧ 0 < f_ppb f.
Proof.
  intros Hk. destruct (words_size f _ Hk) as (Hc & Hp & _). destruct (configured_ppb f _ Hk) as (Hppb & _). cbn in Hp. split_and!; [done|done| | |lia];
    unfold page_bytes, f_words; destruct Hc as [-> | ->]; lia.
Qed.

(** The same flash with another driver state. *)
Lemma contains_same d d' ptn img brim : store_of d' = store_of d → nand_contains d ptn img brim → nand_contains d' ptn img brim.
Proof. unfold nand_contains. by intros ->. Qed.

Lemma nand_read_law (d : dev) ptn img brim k j dest :
  nand_ok d → nand_table d → partition_ok f ptn → nand_contains d ptn img brim →
  let off := k * flash_pagesize (n_vars d) in let n := j * flash_pagesize (n_vars d) in
  0 ≤ k → 0 ≤ j → off + n ≤ Z.of_nat (length img) → off < Z.of_nat (length img) → n < 2 ^ 31 →
  n ≤ Z.of_nat (length dest) → Z.of_nat (length dest) ≤ N →
  ∃ r d', @fl_read _ (nand_device base tt_ polls uninit) ptn off dest n d =
      Ok (r, take (Z.to_nat n) (drop (Z.to_nat off) img) ++ drop (Z.to_nat n) dest, d') ∧
    (brim = false ∨ off + n < Z.of_nat (length img) → r = 0) ∧ nand_ok d' ∧ nand_table d' ∧
    @statics _ (nand_device base tt_ polls uninit) d d' ∧ ∀ p i b, nand_contains d p i b → nand_contains d' p i b.
Proof.
  intros Hd Ht Hp (ds & e & Hh & He & Hw & -> & ->) off n Hk Hj H1 H2 H3 H4 H5. pose proof Hd as (Hcfg & _ & _).
  destruct (nand_sizes _ Hcfg) as (Hcws & Eps & Hps & Hppb). subst off n. rewrite Eps in *. set (w := page_bytes f) in *.
  pose proof (whole_chunks ds Hcws Hw) as Hch. fold w in Hch. rewrite (length_concat_same _ w), length_fmap in * by done.
  set (k' := Z.to_nat k). set (j' := Z.to_nat j).
  assert (k = Z.of_nat k') as Ek by lia. assert (j = Z.of_nat j') as Ej by lia. clearbody k' j'. subst k j.
  assert (k' + j' ≤ length ds ∧ k' < length ds)%nat as [Hkj Hkl] by nia.
  pose proof (layout_mono base N (Z.of_nat (length dest)) HL ltac:(lia)) as HL'.
  assert (chunk_size f 0 = w) as Ew by (unfold chunk_size; cbn; lia).
  assert (Z.to_nat ((Z.of_nat j' * Z.of_nat w + Z.of_nat (chunk_size f 0) - 1) / Z.of_nat (chunk_size f 0)) = j') as Ecnt.
  { rewrite Ew. replace (Z.of_nat j' * Z.of_nat w + Z.of_nat w - 1) with (Z.of_nat j' * Z.of_nat w + (Z.of_nat w - 1)) by lia. rewrite Z.div_add_l, Z.div_small by lia. lia. }
  destruct (run_with_buffer d dest (flash_read base polls uninit ptn (Z.of_nat k' * Z.of_nat w) (base Image) (Z.of_nat j' * Z.of_nat w))
    (λ r c' m' v', c_flash c' = store_of d ∧ some_shape (Z.of_nat (length dest)) m' ∧ (∃ l, table_ok f (store_of d) l ∧ v' = with_table (apps (n_vars d)) l) ∧
       m_image m' = splice dest 0 (concat (take w <$> take j' (drop k' ds))) ∧ (r = 0 ∨ r = -1 ∧ (k' + j' = length ds)%nat ∧ e = last_page f ptn))) as
    (r & c' & d' & E & (Hf' & [loc' Hm'] & (l & Hl & Hv') & Hi' & Hr) & Hs' & HR); [done|done| |].
  { intros c loc Hc Hm. unfold flash_read. pose proof (read_ext_runs f base (Z.of_nat (length dest)) HL' slack R polls Hpolls uninit c (set_m_image dest (n_mem d)) (n_vars d)
      ptn 0 k' (Z.of_nat j' * Z.of_nat w) ds e) as Hread. cbn zeta in Hread. rewrite Ecnt, Ew, Eps, Hc in Hread. fold w in Hread.
    apply Hread; try done; [by exists loc|lia|lia]. }
  exists r, d'. unfold fl_read, nand_device. rewrite E, Hi'. cbn [of_nres]. split; [|split_and!].
  - do 3 f_equal. unfold splice. rewrite (take_0 dest), app_nil_l, Nat.add_0_l.
    rewrite fmap_take, fmap_drop, <- (concat_take _ w), <- (concat_drop _ w) by (done || by apply Forall_drop).
    replace (Z.to_nat (Z.of_nat k' * Z.of_nat w)) with (k' * w)%nat by lia. replace (Z.to_nat (Z.of_nat j' * Z.of_nat w)) with (j' * w)%nat by lia.
    do 2 f_equal. rewrite length_take, length_drop, (length_concat_same _ w), length_fmap by done. nia.
  - intros [Hb|Hb].
    + apply bool_decide_eq_false in Hb. destruct Hr as [?|(_ & _ & ?)]; [done|congruence].
    + destruct Hr as [?|(_ & Hlen & _)]; [done|]. nia.
  - split_and!; [rewrite Hv', apps_with_table; by apply configured_table|by exists (Z.of_nat (length dest)), loc'|by exists c'].
  - unfold nand_table. by rewrite Hs', Hf', Hv'.
  - unfold statics. cbn. by rewrite Hv'.
  - intros p i b. apply contains_same. by rewrite Hs'.
Qed.

(** A write to one partition leaves the others. *)
Lemma contains_apart (d d' : dev) ptn p img brim :
  0 < f_ppb f → confined f (start ptn) (start ptn + length_ ptn) (store_of d) (store_of d') → apart ptn p →
  nand_contains d p img brim → nand_contains d' p img brim.
Proof.
  intros Hppb (A1 & _ & A3) Hap (ds & e & Hh & He & Hrest). exists ds, e. split_and!; try apply Hrest; [|done]. eapply holds_frame; [done|exact Hh|].
  intros q Hq. unfold last_page in He. assert (start p ≤ block_of f q < start p + length_ p) as Hb.
  { split; [apply Z.div_le_lower_bound; lia|apply (block_below f Hppb); lia]. }
  unfold apart in Hap. split; [apply A1|apply A3]; lia.
Qed.

Lemma nand_write_law (d : dev) ptn data j :
  nand_ok d → partition_ok f ptn → ptn_type ptn ≠ TYPE_MODEM_PARTITION →
  let n := j * flash_pagesize (n_vars d) in
  0 ≤ j → n < 2 ^ 31 → n ≤ Z.of_nat (length data) → Z.of_nat (length data) ≤ N →
  ∃ r d', @fl_write _ (nand_device base tt_ polls uninit) ptn 0 data n d = Ok (r, d') ∧ nand_ok d' ∧ @statics _ (nand_device base tt_ polls uninit) d d' ∧
    (nand_table d → nand_untouched d ptn → nand_table d') ∧
    (r = 0 ∧ (∃ brim, nand_contains d' ptn (take (Z.to_nat n) data) brim) ∨ r = -1) ∧
    ∀ p i b, apart ptn p → nand_contains d p i b → nand_contains d' p i b.
Proof.
  intros Hd Hp Hty n Hj H3 H4 H5. pose proof Hd as (Hcfg & _ & _). destruct (nand_sizes _ Hcfg) as (Hcws & Eps & Hps & Hppb). subst n. rewrite Eps in *.
  set (w := page_bytes f) in *. set (j' := Z.to_nat j). assert (j = Z.of_nat j') as Ej by lia. clearbody j'. subst j.
  pose proof (layout_mono base N (Z.of_nat (length data)) HL ltac:(lia)) as HL'. assert (chunk_size f 0 = w) as Ew by (unfold chunk_size; cbn; lia).
  assert (extra_ok f 0) as Hx by (by left). assert ((j' * chunk_size f 0 ≤ length data)%nat) as Hfit by (rewrite Ew; lia).
  destruct (run_with_buffer d data (flash_write base tt_ polls uninit ptn 0 (base Image) (Z.of_nat j' * Z.of_nat w))
    (λ r c' m' v', v' = apps (n_vars d) ∧ some_shape (Z.of_nat (length data)) m' ∧ m_image m' = data ∧
       write_result f ptn 0 data j' (store_of d) r (c_flash c'))) as (r & c' & d' & E & (Hv' & [loc' Hm'] & Hi' & Hcf & Hr) & Hs' & HR); [done|done| |].
  { intros c loc Hc Hm. pose proof (flash_write_runs f base (Z.of_nat (length data)) HL' slack R polls Hpolls uninit tt_ Htt ptn 0 data j' Hp Hty Hx Hfit
      c (set_m_image data (n_mem d)) (n_vars d)) as Hwrite. rewrite Ew, Hc, Nat2Z.inj_mul in Hwrite. apply Hwrite; [done|by exists loc|done]. }
  exists r, d'. unfold fl_write, nand_device. rewrite E. cbn [of_nres]. rewrite <- Hs' in Hcf, Hr. split_and!; [done|..].
  - split_and!; [rewrite Hv'; exact Hcfg|by exists (Z.of_nat (length data)), loc'|by exists c'].
  - unfold statics. cbn. by rewrite Hv'.
  - intros Ht Hu. unfold nand_table in *. rewrite Hv'. by eapply (confined_table f ptn).
  - destruct Hr as [[-> (e & He & Hh)]|[-> _]]; [left; split; [done|]|by right]. exists (bool_decide (e = last_page f ptn)).
    exists (image_pages f 0 data j'), e. split_and!; [done|done|by eapply image_whole| |done].
    pose proof (image_chunks f 0 data j' Hfit) as Hch. rewrite Ew in Hch. fold w. rewrite Hch. f_equal. lia.
  - intros p i b. by apply contains_apart.
Qed.

Lemma nand_restart_law (d d' : dev) :
  nand_ok d → nand_restarted d d' →
  nand_ok d' ∧ nand_table d' ∧ (∀ p, nand_untouched d' p) ∧ @statics _ (nand_device base tt_ polls uninit) d d' ∧
  ∀ p i b, nand_contains d p i b → nand_contains d' p i b.
Proof.
  intros (Hcfg & _ & _) (Hs & Hm & Hc & Hv). pose proof (k_geometry f _ Hcfg) as Hg. split_and!.
  - split_and!; [rewrite Hv; by apply (configured_table f _ (replicate (Z.to_nat (f_blocks f)) BB_UNKNOWN)) in Hcfg|done|done].
  - unfold nand_table. rewrite Hv. split; [cbn; rewrite length_replicate; destruct (configured_ppb f _ Hcfg); lia|].
    intros b e He. apply lookup_replicate in He as [-> _]. by left.
  - intros p b _ Hb. rewrite Hv in Hb. apply lookup_replicate in Hb as [Hb _]. discriminate Hb.
  - unfold statics. cbn. by rewrite Hv.
  - intros p i b. by apply contains_same.
Qed.

#[global] Instance nand_store : @FlashStore dev (nand_device base tt_ polls uninit).
Proof using All.
  refine (@Build_FlashStore dev (nand_device base tt_ polls uninit) nand_ok nand_table nand_untouched (partition_ok f) nand_contains nand_restarted N _ _ _ _).
  - intros d (Hcfg & _ & _). destruct (nand_sizes _ Hcfg) as (Hcws & Eps & _). cbn. rewrite Eps. unfold page_bytes, f_words.
    destruct Hcws as [-> | ->]; [exists 11|exists 12]; done.
  - apply nand_read_law.
  - apply nand_write_law.
  - apply nand_restart_law.
Defined.
End Contract.
