(* ===== verification/FlashPhone.v ===== *)
(** A phone with NAND flash that runs: the loader of [FlashBoot] on the driver of
    [NandDriver] on the simulator of [NandSim].  It is flashed over fastboot and started,
    and asks once for recovery; the properties of [FlashSpec] hold of it. *)
From Stdlib Require Import ZArith.
From stdpp Require Import base numbers list strings.
From S2P Require Import ArmMmu NandDriver NandSafe NandChip NandPages NandWords NandFlash NandParts NandWrite NandSim.
From S2P Require Import Prelude Bytes Mmc Partition BootTags Aboot Fastboot AbootCmds FlashBoot FlashSpec FlashNand.

Module NandPhone.
Definition LIMIT : Z := 65536.

Lemma nand_layout : layout_ok board_base LIMIT.
Proof.
  split.
  - intros []; cbn; lia.
  - intros []; cbn; unfold LIMIT; lia.
  - intros [] [] Hne; try done; cbn; unfold LIMIT; lia.
  - intros []; cbn; unfold LIMIT, MSM_NAND_BASE, NAND_WINDOW; lia.
  - intros a [-> | ->]; done.
Qed.

(** The driver, over the simulator in which page [4 * 64 + 1] cannot be programmed. *)
#[local] Instance mover : Dmov sim := sim_dmov board_format board_fails board_base.
#[local] Instance device_ : FlashDevice (nand_state sim) := nand_device board_base board_tt 4 0.
#[local] Instance store_ : FlashStore (nand_state sim) :=
  nand_store board_format board_base LIMIT nand_layout 1 sim_rel
    (Conforms0 := sim_conforms board_format board_fails board_base ltac:(vm_compute; lia)) 4 ltac:(unfold patient; lia) 0 board_tt board_identity
    (λ h, c_flash (s_chip h)) (λ h m c E, f_equal c_flash (proj1 E)).

(** The partitions "boot" (blocks 3 to 6, the first one bad) and "misc" (blocks 8 and 9). *)
Definition ptn_entry (nm : string) (first count : Z) : flash_ptn :=
  NandDriver.mkPtentry (memcpy_to (replicate 16 0) (bytes_of nm)) first count 0 TYPE_APPS_PARTITION 0.
Definition boot_ptn : flash_ptn := ptn_entry "boot" 3 4.
Definition misc_ptn : flash_ptn := ptn_entry "misc" 8 2.
Definition ptn_table (p : Z) (nm : list Z) : option flash_ptn :=
  if bool_decide (nm = bytes_of "boot") then Some boot_ptn else if bool_decide (nm = bytes_of "misc") then Some misc_ptn else None.

Definition target_ : target := mkTarget false false false BASEBAND_MDM 3675 [4; 0x54410002; 0x20000000; 0x200000] (Some []).
Definition mach : flash_machine :=
  mkFlashMachine (mkMachine target_ (replicate 608 0) (λ _ _, 0) (λ _, replicate 512 0) None []) ptn_table (λ _, replicate 4096 0) [] [] 0.

(** The variables of the driver behind flash_init and flash_set_ptable. *)
Definition vars_ : nand_vars :=
  mkVars (config board_vars) (NandDriver.info board_vars) (bbtbl board_vars) 2048 0 64 63 0x80020000.
Definition flash_ (n : nand) : nand_state sim :=
  mkNand (mkSim (mkChip 0 0 0 0 CFG1_RAW 0 0 [] 0 [] true n) SimIdle) (board_memory []) vars_.
Definition empty_flash : nand := mkNandFlash (λ _, Erased) board_bad.

Lemma flash_driver n : driver_ok (flash_ n).
Proof.
  split_and!; [|exists 0, 4%nat; (unfold shape, board_memory; split_and!; cbn [m_cmds m_ptrs m_tmp m_spare m_empty m_local m_image]; rewrite ?length_replicate; done || lia)|by eexists].
  destruct board_configured. split; try done. by destruct k_geometry.
Qed.
Lemma flash_table n : table_right (flash_ n).
Proof. split; [done|]. intros b e He. apply lookup_replicate in He as [-> _]. by left. Qed.
Lemma flash_untouched n p : untouched (flash_ n) p.
Proof. intros b _ Hb. apply lookup_replicate in Hb as [Hb _]. discriminate Hb. Qed.
Lemma at_boot n : at_hand mach "boot" (flash_ n) boot_ptn.
Proof. split; [done|by vm_compute|split_and!; by vm_compute|done]. Qed.
Lemma at_misc n : at_hand mach "misc" (flash_ n) misc_ptn.
Proof. split; [done|by vm_compute|split_and!; by vm_compute|done]. Qed.

Definition loader (n : nand) : aboot (nand_state sim) :=
  mkAboot (flash_ n) (mkP [] true 0 0 0) initial_device 0 2048 2047 false (replicate 4096 0) (replicate 4096 0)
    (bytes_of "0123456789" ++ replicate 3 0) [] None None.

Lemma loader_is_ok n : loader_ok (loader n).
Proof. split; try done. apply flash_driver. Qed.

(** ** Flashing it *)

(** An image with a kernel of 5 bytes and a ramdisk of 3. *)
Definition page (l : list Z) : list Z := l ++ replicate (2048 - length l) 0.
Definition header : list Z :=
  bytes_of BOOT_MAGIC ++ le_bytes 4 0 5 ++ le_bytes 4 0 0x208000 ++ le_bytes 4 0 3 ++ le_bytes 4 0 0x1200000 ++
  le_bytes 4 0 0 ++ le_bytes 4 0 0 ++ le_bytes 4 0 0x200100 ++ le_bytes 4 0 2048 ++ replicate 24 0 ++ bytes_of "console=null".
Definition image : list Z := page header ++ page [1; 2; 3; 4; 5] ++ page [6; 7; 8].
Definition ack : usb_answer := mkAnswer 0 0 [].
Definition at_command : fb app_cmd (aboot (nand_state sim)) :=
  mkFb [] [] STATE_COMMAND 8192 6000 (image ++ replicate 2048 0) (replicate 4096 0) [ack; ack] [] false (loader empty_flash).
Definition entered : kernel_entry :=
  match boot_from_header (fm mach) (header_in 2048 image (replicate 4096 0)) (loader empty_flash) with
  | Ok a => default (mkEntryCall 0 0 0 0 []) (kernel a)
  | _ => mkEntryCall 0 0 0 0 []
  end.

(** The run: the first block is bad, the second one goes bad, the image is in the third. *)

Lemma flash_then_boot_witness :
  ∃ d' s1, cmd_flash mach (bytes_of "boot") at_command = Ok s1 ∧
    (s1 = fastboot_fail "flash write failure" (with_card d' at_command) ∨
     s1 = fastboot_okay [] (with_card d' at_command) ∧ ∃ brim, contains d' boot_ptn image brim ∧
       ∃ r a, boot_linux_from_flash mach [] (app s1) = Ok (r, a, []) ∧
         loads a = loads (app at_command) ++ [(0x208000, kernel_part 2048 image 5); (0x1200000, ramdisk_part 2048 image 5 3)] ∧
         (brim = false ∨ 2048 + in_pages 2048 5 + in_pages 2048 3 < Z.of_nat (length image) → r = 0 ∧ kernel a = Some entered)).
Proof.
  apply (flash_then_boot mach boot_ptn at_command image 5 3 0x208000 0x1200000 entered []).
  - reflexivity.
  - reflexivity.
  - apply loader_is_ok.
  - apply flash_table.
  - apply at_boot.
  - apply flash_untouched.
  - constructor; by vm_compute.
  - constructor; by vm_compute.
  - by vm_compute.
  - by vm_compute.
  - vm_compute. reflexivity.
Defined.

(** ** Asking for recovery *)

(** A message in the second page of misc, with the spare bytes of a page behind. *)
Definition asks : recovery_message := mkMsg (memcpy_to (replicate 32 0) (bytes_of "boot-recovery")) (replicate 32 0) (replicate 1024 0).
Definition message_page : list Z := msg_bytes asks ++ replicate 976 255.
Definition misc_flash : nand :=
  mkNandFlash (λ p, if p =? 8 * 64 then Data (replicate 2064 7) else if p =? 8 * 64 + 1 then Data message_page else Erased) board_bad.
Definition started (n : nand) : recov (nand_state sim) := mkRecov (loader n) (replicate 4096 0) (replicate 8192 0).

Lemma asks_in_misc : message_in mach (card (core (started misc_flash))) asks.
Proof.
  exists misc_ptn, (concat (take 2048 <$> [replicate 2064 7; message_page])), false. split_and!; [apply at_misc| |by left|by vm_compute|by vm_compute|done..].
  exists [replicate 2064 7; message_page], (8 * 64 + 2). split_and!.
  - apply holds_page; [done|done|]. apply holds_page; [done|done|]. apply holds_nil.
  - by vm_compute.
  - repeat constructor.
  - done.
  - done.
Qed.

(** The first start goes to recovery, the next one does not. *)

Lemma recovery_once_witness :
  let s := started misc_flash in
  ∃ s1, recovery_init mach None s = Ok (0, s1) ∧ boot_into_recovery (core s1) = true ∧ reset (core s1) = reset (core s) ∧
    ((∃ s0 s', get_recovery_message mach s = Ok (Some asks, s0) ∧ set_recovery_message mach (answer None asks) s0 = Ok (-1, s')) ∨
     (∃ ptn img, at_hand mach "misc" (card (core s1)) ptn ∧ contains (card (core s1)) ptn img true) ∨
     ∀ s2, restarted (card (core s1)) (card (core s2)) → length (rec_buf s2) = 4096%nat → 8192 ≤ Z.of_nat (length (scratch s2)) ≤ buffer_limit →
       ∃ s3, recovery_init mach None s2 = Ok (0, s3) ∧ boot_into_recovery (core s3) = boot_into_recovery (core s2) ∧
         reset (core s3) = reset (core s2) ∧ ∀ p i b, contains (card (core s2)) p i b → contains (card (core s3)) p i b).
Proof.
  apply (recovery_once mach None (started misc_flash) asks).
  - split; [apply flash_driver|apply flash_table|done|by vm_compute].
  - apply asks_in_misc.
  - by vm_compute.
Defined.
End NandPhone.
