(* ===== verification/Smem.v ===== *)
(** Shared memory, through which the modem's boot loader hands its tables over
    (src/bootable/lk/platform/msm_shared/smem.c, smem.h, smem_ptable.c), and what the
    target mdm9615 makes of them (src/bootable/lk/target/mdm9615/init.c, atags.c): the
    partition table of the flash, the memory tags of the kernel, the board and the reason
    of the last restart.

    Shared memory is a buffer from MSM_SHARED_BASE on.  lib/ptable is not in the sources:
    ptable_add and ptable_find are [ptable_lib]. *)
From Stdlib Require Import ZArith.
From stdpp Require Import base numbers list strings.
From S2P Require Import Prelude Bytes Mmc Partition Aboot ArmMmu NandDriver FlashBoot.

(** * smem.c *)

Definition SMEM_AARM_PARTITION_TABLE : Z := 9.
Definition SMEM_BOARD_INFO_LOCATION : Z := 137.
Definition SMEM_USABLE_RAM_PARTITION_TABLE : Z := 402.
Definition SMEM_BOOT_INFO_FOR_APPS : Z := 418.
Definition SMEM_FIRST_VALID_TYPE : Z := 7.
Definition SMEM_LAST_VALID_TYPE : Z := 418.

(** [struct smem_alloc_info] *)
Record smem_alloc_info := mkAlloc { allocated : Z; alloc_offset : Z; alloc_size : Z }.

(** [&smem->alloc_info[type]], behind proc_comm, version_info and heap_info. *)
Definition alloc_info_at (type_ : Z) : Z := 208 + 16 * type_.

Definition alloc_info (smem : buffer) (type_ : Z) : res smem_alloc_info :=
  a ← GET_LWORD_FROM_BYTE smem (alloc_info_at type_); o ← GET_LWORD_FROM_BYTE smem (alloc_info_at type_ + 4);
  s ← GET_LWORD_FROM_BYTE smem (alloc_info_at type_ + 8); Ok (mkAlloc a o s).

(** [len] bytes into an aligned buffer, word by word; [None] is 1. *)
Fixpoint copy_words (words : nat) (smem : buffer) (src : Z) : res (list Z) :=
  match words with
  | O => Ok []
  | S words => w ← slice smem src 4; ws ← copy_words words smem (src + 4); Ok (w ++ ws)
  end.

Definition smem_read_alloc_entry (smem : buffer) (type_ len : Z) : res (option (list Z)) :=
  if negb (Z.land len 3 =? 0) then Ok None
  else if (type_ <? SMEM_FIRST_VALID_TYPE) || (SMEM_LAST_VALID_TYPE <? type_) then Ok None
  else
    i ← alloc_info smem type_;
    if allocated i =? 0 then Ok None
    else if negb (alloc_size i =? Z.land (len + 7) (Z.lnot 7)) then Ok None
    else bs ← copy_words (Z.to_nat (len / 4)) smem (alloc_offset i); Ok (Some bs).

Definition smem_read_alloc_entry_offset (smem : buffer) (type_ len offset : Z) : res (option (list Z)) :=
  if negb (Z.land len 3 =? 0) then Ok None
  else if (type_ <? SMEM_FIRST_VALID_TYPE) || (SMEM_LAST_VALID_TYPE <? type_) then Ok None
  else
    i ← alloc_info smem type_;
    if allocated i =? 0 then Ok None
    else bs ← copy_words (Z.to_nat (len / 4)) smem (alloc_offset i + offset); Ok (Some bs).

(** What get_boot_info_apps of recovery.c reads: flags, and the status of an update. *)
Definition read_boot_info (smem : buffer) : res (option boot_info_for_apps) :=
  r ← smem_read_alloc_entry smem SMEM_BOOT_INFO_FOR_APPS 12;
  match r with
  | None => Ok None
  | Some b => f ← GET_LWORD_FROM_BYTE b 0; st ← GET_LWORD_FROM_BYTE b 4; Ok (Some (mkBootInfo f st))
  end.

(** * smem_ptable.c *)

Definition _SMEM_PTABLE_MAGIC_1 : Z := 0x55ee73aa.
Definition _SMEM_PTABLE_MAGIC_2 : Z := 0xe35ebddb.
Definition _SMEM_RAM_PTABLE_MAGIC_1 : Z := 0x9DA5E0A8.
Definition _SMEM_RAM_PTABLE_MAGIC_2 : Z := 0xAF9EC4E2.
Definition SMEM_PTABLE_SIZE : Z := 464.
Definition SMEM_RAM_PTABLE_SIZE : Z := 1816.
Definition NO_BLOCK : Z := 0xffffffff.

Record smem_ptn := mkSmemPtn { sp_name : buffer; sp_start : Z; sp_size : Z; sp_attr : Z }.
Record smem_ptable := mkSmemPtable { sp_magic : Z * Z; sp_version : Z; sp_len : Z; sp_parts : list smem_ptn }.

Definition parse_ptn (b : buffer) (off : Z) : res smem_ptn :=
  n ← slice b off 16; s ← GET_LWORD_FROM_BYTE b (off + 16); z ← GET_LWORD_FROM_BYTE b (off + 20);
  a ← GET_LWORD_FROM_BYTE b (off + 24); Ok (mkSmemPtn n s z a).
Fixpoint parse_ptns (count : nat) (b : buffer) (off : Z) : res (list smem_ptn) :=
  match count with
  | O => Ok []
  | S count => p ← parse_ptn b off; ps ← parse_ptns count b (off + 28); Ok (p :: ps)
  end.

(** The bytes of the entry, as the structure. *)
Definition parse_ptable (b : buffer) : res smem_ptable :=
  m1 ← GET_LWORD_FROM_BYTE b 0; m2 ← GET_LWORD_FROM_BYTE b 4; v ← GET_LWORD_FROM_BYTE b 8; l ← GET_LWORD_FROM_BYTE b 12;
  ps ← parse_ptns 16 b 16; Ok (mkSmemPtable (m1, m2) v l ps).

Definition magic_ok (t : smem_ptable) : bool := bool_decide (sp_magic t = (_SMEM_PTABLE_MAGIC_1, _SMEM_PTABLE_MAGIC_2)).

(** The loop over [smem_ptable.parts[i]], from [i] on; the table has 16 elements. *)
Fixpoint find_apps (fuel : nat) (i : Z) (t : smem_ptable) : res Z :=
  if negb (i <? sp_len t) then Ok i else
  match fuel with
  | O => Fault
  | S fuel =>
      p ← deref (sp_parts t !! Z.to_nat i);
      if bool_decide (c_string (sp_name p) = bytes_of "0:APPS") then Ok i else find_apps fuel (i + 1) t
  end.

(** The static variables [smem_ptable] and [smem_apps_flash_start].  The table is written
    even when its magic number is wrong. *)
Definition smem_ptable_init (smem : buffer) (old : smem_ptable) : res (smem_ptable * Z) :=
  r ← smem_read_alloc_entry smem SMEM_AARM_PARTITION_TABLE SMEM_PTABLE_SIZE;
  match r with
  | None => Ok (old, NO_BLOCK)
  | Some bs =>
      t ← parse_ptable bs;
      if negb (magic_ok t) then Ok (t, NO_BLOCK)
      else
        i ← find_apps 17 0 t;
        if i =? sp_len t then Ok (t, NO_BLOCK)
        else p ← deref (sp_parts t !! Z.to_nat i); Ok (t, sp_start p)
  end.

(** ** Names *)

Definition COLON : Z := 58.

(** The last token of a string between colons; [cur] is the token at work. *)
Fixpoint last_token (cur : list Z) (last_ : option (list Z)) (l : list Z) : option (list Z) :=
  let last_ := if bool_decide (cur = []) then last_ else Some cur in
  match l with
  | [] => last_
  | c :: l => if c =? COLON then last_token [] last_ l else last_token (cur ++ [c]) last_ l
  end.

(** What strtok leaves in the string: the colon behind each token is NUL. *)
Fixpoint strtok_cut (in_token : bool) (l : list Z) : list Z :=
  match l with
  | [] => []
  | c :: l => if c =? COLON then (if in_token then 0 else c) :: strtok_cut false l else c :: strtok_cut true l
  end.

(** * lib/ptable.h *)

Record ptable := mkPtable { parts : list flash_ptn; count : Z }.
Definition MAX_PTABLE_PARTS : nat := 32.
Definition MAX_PTENTRY_NAME : Z := 16.
Definition PERM_WRITEABLE : Z := 1.

Record ptable_lib := mkPtableLib {
  ptable_add : ptable → list Z → Z → Z → Z → Z → Z → ptable;  (* name, start, length, flags, type, permission *)
  ptable_lookup : ptable → list Z → option nat;               (* ptable_find: the index of the entry *)
}.

Section Target.
Context (lib : ptable_lib).

(** The names in the shared table are cut on the way. *)
Fixpoint add_modem_partitions (ps : list smem_ptn) (t : ptable) : res (list smem_ptn * ptable) :=
  match ps with
  | [] => Ok ([], t)
  | p :: ps =>
      c0 ← deref (head (sp_name p));
      if c0 =? 0 then '(ps, t) ← add_modem_partitions ps t; Ok (p :: ps, t)
      else
        _ ← strlen (sp_name p);
        let name := c_string (sp_name p) in
        let p' := mkSmemPtn (strtok_cut false name ++ drop (length name) (sp_name p)) (sp_start p) (sp_size p) (sp_attr p) in
        let t := match last_token [] None name with
                 | Some pname => ptable_add lib t pname (sp_start p) (sp_size p) 0 TYPE_MODEM_PARTITION PERM_WRITEABLE
                 | None => t
                 end in
        '(ps, t) ← add_modem_partitions ps t; Ok (p' :: ps, t)
  end.

Definition smem_add_modem_partitions (s : smem_ptable) (t : ptable) : res (smem_ptable * ptable) :=
  if negb (magic_ok s) then Ok (s, t)
  else '(ps, t) ← add_modem_partitions (sp_parts s) t; Ok (mkSmemPtable (sp_magic s) (sp_version s) (sp_len s) ps, t).

(** * target/mdm9615/init.c *)

Definition apps_ptn_names : list string := ["aboot"; "boot"; "cache"; "misc"; "recovery"; "fota"; "recoveryfs"; "system"; "userdata"].
Definition ptable_ptn_names : list string := ["APPSBL"; "APPS"; "CACHE"; "MISC"; "RECOVERY"; "FOTA"; "RECOVERYFS"; "SYSTEM"; "USERDATA"].
Definition ptn_name_count : nat := 9.
Definition modem_ptn_count : nat := 6.
Definition FOTA_PARTITION : nat := 5.
(** The initial value of apps_ptn_flag. *)
Definition no_fota : list Z := [1; 1; 0; 0; 0; 0; 0; 1; 1].
Definition with_fota : list Z := [1; 1; 1; 1; 1; 1; 1; 1; 1].

Definition get_ptn (t : ptable) (i : Z) : res flash_ptn := if 0 <=? i then deref (parts t !! Z.to_nat i) else Fault.
Definition put_ptn (i : Z) (e : flash_ptn) (t : ptable) : ptable := mkPtable (<[Z.to_nat i := e]> (parts t)) (count t).

Definition tolower (c : Z) : Z := if (65 <=? c) && (c <=? 90) then c + 32 else c.
Definition set_ptn_name (n : buffer) (e : flash_ptn) : flash_ptn := mkPtentry n (start e) (length_ e) (ptn_flags e) (ptn_type e) (perm e).
Definition set_ptn_type (ty : Z) (e : flash_ptn) : flash_ptn := mkPtentry (ptn_name e) (start e) (length_ e) (ptn_flags e) ty (perm e).
Definition set_ptn_length (l : Z) (e : flash_ptn) : flash_ptn := mkPtentry (ptn_name e) (start e) l (ptn_flags e) (ptn_type e) (perm e).

Fixpoint lower_names (n : nat) (i : Z) (t : ptable) : res ptable :=
  match n with
  | O => Ok t
  | S n =>
      e ← get_ptn t i;
      _ ← strlen (ptn_name e);
      let name := c_string (ptn_name e) in
      lower_names n (i + 1) (put_ptn i (set_ptn_name ((tolower <$> name) ++ drop (length name) (ptn_name e)) e) t)
  end.

Definition update_ptable_modem_partitions (t : ptable) : res ptable := lower_names modem_ptn_count 0 t.

(** The next name that is expected; [None] when there is none. *)
Fixpoint next_name (fuel : nat) (flags : list Z) (name_index : nat) : option nat :=
  match fuel with
  | O => None
  | S fuel =>
      let name_index := S name_index in
      if (ptn_name_count <=? name_index)%nat then None
      else if nth name_index flags 0 =? 0 then next_name fuel flags name_index else Some name_index
  end.

(** [strncmp(e->name, s, strlen(s)) == 0] *)
Definition name_starts (s : string) (e : flash_ptn) : bool :=
  bool_decide (take (length (bytes_of s)) (ptn_name e) = bytes_of s).

Definition rename_ptn (name_index : nat) (e : flash_ptn) : flash_ptn :=
  let new := bytes_of (nth name_index apps_ptn_names EmptyString) in
  let e := if Z.of_nat (length new + 1) <=? MAX_PTENTRY_NAME then set_ptn_name (memcpy_to (ptn_name e) (new ++ [0])) e else e in
  if (name_index =? 0)%nat then e else set_ptn_type TYPE_APPS_PARTITION e.

(** The loop over the table; the index it ends with.  The array has 32 elements. *)
Fixpoint rename_apps (fuel : nat) (flags : list Z) (i : Z) (name_index : nat) (t : ptable) : res (Z * ptable) :=
  match fuel with
  | O => Fault
  | S fuel =>
      e ← get_ptn t i;
      if start e =? NO_BLOCK then Ok (i, t)
      else if name_starts (nth name_index ptable_ptn_names EmptyString) e then
        let t := put_ptn i (rename_ptn name_index e) t in
        match next_name ptn_name_count flags name_index with
        | None => Ok (i, t)
        | Some name_index => rename_apps fuel flags (i + 1) name_index t
        end
      else rename_apps fuel flags (i + 1) name_index t
  end.

(** [for (; ptentry_ptr[ptn_index].length != end; ptn_index++)] *)
Fixpoint find_grow (fuel : nat) (i : Z) (t : ptable) : res Z :=
  match fuel with
  | O => Fault
  | S fuel => e ← get_ptn t i; if length_ e =? NO_BLOCK then Ok i else find_grow fuel (i + 1) t
  end.

(** Renaming, and the partition that grows. *)
Definition adapt_ptable (fuel : nat) (num_blocks_ : Z) (flags : list Z) (t : ptable) : res ptable :=
  '(i, t) ← rename_apps fuel flags 0 0 t;
  i ← find_grow fuel (u32 (i - 1)) t;
  e ← get_ptn t i;
  Ok (if negb (start e =? NO_BLOCK) then put_ptn i (set_ptn_length (u32 (num_blocks_ - start e)) e) t else t).

(** Also the new apps_ptn_flag. *)
Definition update_ptable_apps_partitions (num_blocks_ : Z) (flags : list Z) (t : ptable) : res (ptable * list Z) :=
  flags ← (match ptable_lookup lib t (bytes_of "FOTA") with
           | Some i => e ← get_ptn t (Z.of_nat i); Ok (if 0 <? length_ e then with_fota else flags)
           | None => Ok flags
           end);
  t ← adapt_ptable (S MAX_PTABLE_PARTS) num_blocks_ flags t;
  Ok (t, flags).

(** The partition table of the flash, from the shared one; [blank] is the table behind
    ptable_init, [num_blocks_] comes from flash_get_info. *)
Definition target_init_ptable (smem : buffer) (num_blocks_ : Z) (old : smem_ptable) (blank : ptable) : res (ptable * list Z) :=
  '(s, _) ← smem_ptable_init smem old;
  '(_, t) ← smem_add_modem_partitions s blank;
  '(t, flags) ← update_ptable_apps_partitions num_blocks_ no_fota t;
  t ← update_ptable_modem_partitions t;
  Ok (t, flags).
End Target.

(** ** Restarts *)

Definition FOTA_COOKIE : Z := 0x64645343.

Section Restart.
Context {D : Type} `{FlashDevice D} (find_ptn : list Z → D → option flash_ptn) (heap : nat → option buffer).

(** [heap n] is what malloc returns for [n] bytes; [None] of the result is -1. *)
Definition read_from_flash (ptn : flash_ptn) (offset size : Z) (d : D) : res (option (list Z) * D) :=
  let read_size := ROUND_TO_PAGE size (u32 (fl_page_size d - 1)) in
  match heap (Z.to_nat read_size) with
  | None => Ok (None, d)
  | Some b =>
      '(ret, b, d) ← fl_read ptn offset b read_size d;
      if negb (ret =? 0) then Ok (None, d) else bs ← slice b 0 (Z.to_nat size); Ok (Some bs, d)
  end.

Definition get_fota_cookie (d : D) : res (Z * D) :=
  match find_ptn (bytes_of "fota") d with
  | None => Ok (0, d)
  | Some ptn =>
      '(bs, d) ← read_from_flash ptn 0 4 d;
      Ok (match bs with Some bs => le_or 0 bs | None => 0 end, d)
  end.

(** The reason is read from RESTART_REASON_ADDR and scrubbed; result, new reason, flash. *)
Definition check_reboot_mode (flags : list Z) (restart_reason : Z) (d : D) : res (Z * Z * D) :=
  '(cookie, d) ← (if nth FOTA_PARTITION flags 0 =? 1 then get_fota_cookie d else Ok (0, d));
  Ok (if (nth FOTA_PARTITION flags 0 =? 1) && (cookie =? FOTA_COOKIE) then Aboot.RECOVERY_MODE else restart_reason, 0, d).
End Restart.

(** What reboot_device leaves at RESTART_REASON_ADDR. *)
Definition reboot_device (reboot_reason : Z) : Z := reboot_reason.

(** ** The board *)

Definition MDM9X15_CDP : Z := 3675.
Definition MDM9600 : Z := 58.
(** Offsets in [struct smem_board_info_v4]: a [v3], the platform version and padding. *)
Definition BOARD_INFO_V4_SIZE : Z := 64.

(** hw_platform and target_msm_id; the platform in shared memory is read but not used. *)
Definition board_info (smem : buffer) (hw_platform target_msm_id : Z) : res (Z * Z) :=
  if negb (hw_platform =? 0) && negb (target_msm_id =? 0) then Ok (hw_platform, target_msm_id)
  else
    f ← smem_read_alloc_entry_offset smem SMEM_BOARD_INFO_LOCATION 4 0;
    match f with
    | Some f =>
        if le_or 0 f =? 4 then
          i ← smem_read_alloc_entry smem SMEM_BOARD_INFO_LOCATION BOARD_INFO_V4_SIZE;
          match i with
          | Some i => id ← GET_LWORD_FROM_BYTE i 4; Ok (MDM9X15_CDP, id)
          | None => Ok (MDM9X15_CDP, MDM9600)
          end
        else Ok (MDM9X15_CDP, MDM9600)
    | None => Ok (MDM9X15_CDP, MDM9600)
    end.

(** * target/mdm9615/atags.c *)

Definition SIZE_1M : Z := 1024 * 1024.
Definition SIZE_8M : Z := 8 * SIZE_1M.
Definition SIZE_15M : Z := 15 * SIZE_1M.
Definition SIZE_17M : Z := 17 * SIZE_1M.
Definition SIZE_23M : Z := 23 * SIZE_1M.
Definition SIZE_88M : Z := 11 * SIZE_8M.
Definition SDRAM : Z := 0xE.
Definition SYS_MEMORY : Z := 1.

(** [struct smem_ram_ptn], as far as it is used *)
Record smem_ram_ptn := mkRamPtn { rp_start : Z; rp_size : Z; rp_category : Z; rp_type : Z }.
Record smem_ram_ptable := mkRamTable { rt_len : Z; rt_parts : list smem_ram_ptn }.

Definition parse_ram_ptn (b : buffer) (off : Z) : res smem_ram_ptn :=
  s ← GET_LWORD_FROM_BYTE b (off + 16); z ← GET_LWORD_FROM_BYTE b (off + 20); c ← GET_LWORD_FROM_BYTE b (off + 28);
  t ← GET_LWORD_FROM_BYTE b (off + 36); Ok (mkRamPtn s z c t).
Fixpoint parse_ram_ptns (n : nat) (b : buffer) (off : Z) : res (list smem_ram_ptn) :=
  match n with
  | O => Ok []
  | S n => p ← parse_ram_ptn b off; ps ← parse_ram_ptns n b (off + 56); Ok (p :: ps)
  end.

(** [None] is 0: there is no table. *)
Definition smem_ram_ptable_init (smem : buffer) : res (option smem_ram_ptable) :=
  r ← smem_read_alloc_entry smem SMEM_USABLE_RAM_PARTITION_TABLE SMEM_RAM_PTABLE_SIZE;
  match r with
  | None => Ok None
  | Some b =>
      m1 ← GET_LWORD_FROM_BYTE b 0; m2 ← GET_LWORD_FROM_BYTE b 4;
      if negb (m1 =? _SMEM_RAM_PTABLE_MAGIC_1) || negb (m2 =? _SMEM_RAM_PTABLE_MAGIC_2) then Ok None
      else l ← GET_LWORD_FROM_BYTE b 16; ps ← parse_ram_ptns 32 b 20; Ok (Some (mkRamTable l ps))
  end.

Definition mem_tag (size start_ : Z) : list Z := [4; 0x54410002; size; u32 start_].

(** The words for one memory partition; [dsp3] is the partition of that name. *)
Definition ram_tags (dsp3 : option flash_ptn) (p : smem_ram_ptn) : res (list Z) :=
  if (rp_category p =? SDRAM) && (rp_type p =? SYS_MEMORY) && (rp_start p =? 0x40000000) then
    _ ← ASSERT (SIZE_15M <=? rp_size p);
    let two := mem_tag SIZE_15M (rp_start p + SIZE_8M) ++ mem_tag SIZE_23M (rp_start p + SIZE_88M) in
    let last_ := mem_tag SIZE_17M (rp_start p + SIZE_88M + SIZE_23M) in
    Ok (match dsp3 with
        | Some e => if negb (u32 (start e + length_ e) =? start e) then two else two ++ last_
        | None => two ++ last_
        end)
  else Ok [].

(** The loop over [ram_ptable.parts[i]]; [i] has 8 bits, the table 32 elements. *)
Fixpoint ram_loop (fuel : nat) (dsp3 : option flash_ptn) (i : Z) (t : smem_ram_ptable) : res (list Z) :=
  if negb (i <? rt_len t) then Ok [] else
  match fuel with
  | O => Fault
  | S fuel =>
      p ← deref (rt_parts t !! Z.to_nat i);
      ws ← ram_tags dsp3 p;
      rest ← ram_loop fuel dsp3 ((i + 1) mod 256) t;
      Ok (ws ++ rest)
  end.

(** The words that are appended to the tags. *)
Definition target_atag_mem (smem : buffer) (dsp3 : option flash_ptn) : res (list Z) :=
  r ← smem_ram_ptable_init smem;
  match r with
  | Some t => ram_loop 33 dsp3 0 t
  | None => Panic
  end.

(** * Properties *)

(** The words of an entry are its bytes. *)
Lemma copy_words_slice n smem src :
  0 ≤ src → src + 4 * Z.of_nat n ≤ Z.of_nat (length smem) → copy_words n smem src = slice smem src (4 * n).
Proof.
  revert src. induction n as [|n IH]; intros src Hs Hl; cbn [copy_words].
  - symmetry. apply slice_ok. split_and!; [lia|lia|done].
  - rewrite (proj2 (slice_ok smem src 4 (take 4 (drop (Z.to_nat src) smem)))) by (split_and!; [lia|lia|done]). cbn [mbind res_bind].
    rewrite IH by lia. rewrite (proj2 (slice_ok smem (src + 4) (4 * n) (take (4 * n) (drop (Z.to_nat (src + 4)) smem)))) by (split_and!; [lia|lia|done]).
    cbn [mbind res_bind]. symmetry. apply slice_ok. split_and!; [lia|lia|].
    replace (4 * S n)%nat with (4 + 4 * n)%nat by lia. rewrite <- take_take_drop, drop_drop. do 3 f_equal. lia.
Qed.

(** ** The table of the flash *)

(** Entries in the same places. *)
Definition same_place (e e' : flash_ptn) : Prop := start e' = start e ∧ length_ e' = length_ e.
Definition same_places (t t' : ptable) : Prop := Forall2 same_place (parts t) (parts t') ∧ count t' = count t.

#[global] Instance same_place_refl : Reflexive same_place.
Proof. done. Qed.
#[global] Instance same_place_trans : Transitive same_place.
Proof. intros x y z [? ?] [? ?]. split; congruence. Qed.
#[global] Instance same_places_preorder : PreOrder same_places.
Proof.
  split; [intros t; split; [reflexivity|done]|]. intros t1 t2 t3 [H1 H2] [H3 H4]. split; [by etransitivity|congruence].
Qed.

Lemma put_same_places i e e' t : get_ptn t i = Ok e → same_place e e' → same_places t (put_ptn i e' t).
Proof.
  unfold get_ptn. destruct (0 <=? i); [|done]. destruct (parts t !! Z.to_nat i) as [e0|] eqn:E; [|done]. intros [= ->] Hs. split; [|done].
  cbn [parts put_ptn]. rewrite <- (list_insert_id (parts t) (Z.to_nat i) e) at 1 by done. apply Forall2_insert; [reflexivity|done].
Qed.

Lemma rename_same_place k e : same_place e (rename_ptn k e).
Proof. unfold rename_ptn. by repeat case_match. Qed.

Lemma same_places_get t t' i e : same_places t t' → get_ptn t i = Ok e → ∃ e', get_ptn t' i = Ok e' ∧ same_place e e'.
Proof.
  intros [Hp _]. unfold get_ptn. destruct (0 <=? i); [|done]. destruct (parts t !! Z.to_nat i) as [e0|] eqn:E; [|done]. intros [= ->].
  destruct (Forall2_lookup_l _ _ _ _ _ Hp E) as (e' & -> & Hs). by exists e'.
Qed.

(** An entry behind the last partition, at [j]. *)
Definition ends_at (t : ptable) (j : Z) : Prop := ∃ e, get_ptn t j = Ok e ∧ start e = NO_BLOCK ∧ length_ e = NO_BLOCK.

Lemma ends_same t t' j : same_places t t' → ends_at t j → ends_at t' j.
Proof. intros Hs (e & He & H1 & H2). destruct (same_places_get _ _ _ _ Hs He) as (e' & He' & [E1 E2]). exists e'. by rewrite E1, E2. Qed.

Lemma get_below t i j e : get_ptn t j = Ok e → 0 ≤ i ≤ j → ∃ e', get_ptn t i = Ok e'.
Proof.
  unfold get_ptn. intros He Hi. rewrite (proj2 (Z.leb_le 0 j)) in He by lia. rewrite (proj2 (Z.leb_le 0 i)) by lia. destruct (parts t !! Z.to_nat j) eqn:E; [|done].
  apply lookup_lt_Some in E. destruct (lookup_lt_is_Some_2 (parts t) (Z.to_nat i)) as [e' ->]; [lia|]. by exists e'.
Qed.

Lemma rename_apps_ok fuel flags j : ∀ i k t,
  ends_at t j → 0 ≤ i ≤ j → j - i < Z.of_nat fuel →
  ∃ i' t', rename_apps fuel flags i k t = Ok (i', t') ∧ i ≤ i' ≤ j ∧ same_places t t'.
Proof.
  induction fuel as [|fuel IH]; intros i k t He Hi Hf; [lia|]. cbn [rename_apps]. pose proof He as (ej & Hej & Hs & Hl).
  destruct (get_below t i j ej Hej Hi) as [e E]. rewrite E. cbn [mbind res_bind]. destruct (Z.eqb_spec (start e) NO_BLOCK) as [?|Hne]; [eexists _, t; split; [done|split; [lia|reflexivity]]|].
  assert (i < j) as Hlt by (destruct (decide (i = j)) as [->|]; [congruence|lia]).
  destruct (name_starts _ e).
  - pose proof (put_same_places i e (rename_ptn k e) t E (rename_same_place k e)) as Hp. destruct (next_name _ _ _) as [k'|]; [|eexists _, _; split; [done|split; [lia|done]]].
    destruct (IH (i + 1) k' (put_ptn i (rename_ptn k e) t)) as (i' & t' & -> & Hi' & Ht'); [by eapply ends_same|lia|lia|]. exists i', t'. split_and!; [done|lia|lia|by etransitivity].
  - destruct (IH (i + 1) k t) as (i' & t' & -> & Hi' & Ht'); [done|lia|lia|]. exists i', t'. split_and!; [done|lia|lia|done].
Qed.

Lemma find_grow_ok fuel t j : ∀ i, ends_at t j → 0 ≤ i ≤ j → j - i < Z.of_nat fuel →
  ∃ g e, find_grow fuel i t = Ok g ∧ i ≤ g ≤ j ∧ get_ptn t g = Ok e ∧ length_ e = NO_BLOCK.
Proof.
  induction fuel as [|fuel IH]; intros i He Hi Hf; [lia|]. cbn [find_grow]. pose proof He as (ej & Hej & Hs & Hl).
  destruct (get_below t i j ej Hej Hi) as [e E]. rewrite E. cbn [mbind res_bind]. destruct (Z.eqb_spec (length_ e) NO_BLOCK) as [?|Hne]; [exists i, e; split_and!; (done || lia)|].
  assert (i < j) as Hlt by (destruct (decide (i = j)) as [->|]; [congruence|lia]). destruct (IH (i + 1) He) as (g & e' & Hg & Hg2 & Hg3); [lia|lia|].
  exists g, e'. split_and!; [done|lia|lia|apply Hg3..].
Qed.

(** Only the length of the partition that grows is new; it ends with the flash. *)
Definition grown (num_blocks_ : Z) (t t' : ptable) : Prop :=
  count t' = count t ∧ length (parts t') = length (parts t) ∧
  ∀ i e, parts t !! i = Some e → ∃ e', parts t' !! i = Some e' ∧ start e' = start e ∧
    (length_ e' = length_ e ∨ length_ e = NO_BLOCK ∧ length_ e' = u32 (num_blocks_ - start e)).

Lemma same_grown n t t' : same_places t t' → grown n t t'.
Proof.
  intros [Hp Hc]. split_and!; [done|by rewrite (Forall2_length _ _ _ Hp)|]. intros i e He.
  destruct (Forall2_lookup_l _ _ _ _ _ Hp He) as (e' & He' & [Hs Hl]). exists e'. auto.
Qed.

Lemma grown_put n t t' g e :
  same_places t t' → get_ptn t' g = Ok e → length_ e = NO_BLOCK → grown n t (put_ptn g (set_ptn_length (u32 (n - start e)) e) t').
Proof.
  intros Hs Hg Hl. destruct (same_grown n t t' Hs) as (Hc & Hlen & Hall). split_and!; [done|by cbn; rewrite length_insert|].
  intros i x Hx. destruct (Hall i x Hx) as (x' & Hx' & Hst & Hlx). unfold get_ptn in Hg. destruct (0 <=? g); [|done].
  destruct (parts t' !! Z.to_nat g) as [eg|] eqn:Eg; [|done]. injection Hg as ->. cbn [parts put_ptn].
  destruct (decide (i = Z.to_nat g)) as [->|Hne].
  - assert (x' = e) as -> by congruence. rewrite list_lookup_insert_eq by (by apply lookup_lt_Some in Hx'). eexists. split; [done|]. cbn. split; [done|right].
    destruct Hs as [Hp _]. destruct (Forall2_lookup_l _ _ _ _ _ Hp Hx) as (e2 & He2 & [H1 H2]). rewrite Hx' in He2. injection He2 as <-. by rewrite <- H1, <- H2.
  - rewrite list_lookup_insert_ne by done. eauto.
Qed.

(** The first entry never ends the loop. *)
Lemma rename_apps_first fuel flags j t e0 :
  ends_at t j → 1 ≤ j → j < Z.of_nat (S fuel) → get_ptn t 0 = Ok e0 → start e0 ≠ NO_BLOCK → nth 1 flags 0 ≠ 0 →
  ∃ i t', rename_apps (S fuel) flags 0 0 t = Ok (i, t') ∧ 1 ≤ i ≤ j ∧ same_places t t'.
Proof.
  intros He Hj Hf H0 Hne Hfl. cbn [rename_apps]. rewrite H0. cbn [mbind res_bind]. rewrite (proj2 (Z.eqb_neq _ _)) by done.
  assert (next_name ptn_name_count flags 0 = Some 1%nat) as ->.
  { change (next_name ptn_name_count flags 0) with (if nth 1 flags 0 =? 0 then next_name 8 flags 1 else Some 1%nat). by rewrite (proj2 (Z.eqb_neq _ _)). }
  change (0 + 1) with 1. destruct (name_starts _ e0).
  - pose proof (put_same_places 0 e0 (rename_ptn 0 e0) t H0 (rename_same_place 0 e0)) as Hp.
    destruct (rename_apps_ok fuel flags j 1 1 (put_ptn 0 (rename_ptn 0 e0) t)) as (i & t1 & E & Hi & Ht); [by eapply ends_same|lia|lia|].
    exists i, t1. split_and!; [done|lia|lia|by etransitivity].
  - destruct (rename_apps_ok fuel flags j 1 0 t) as (i & t1 & E & Hi & Ht); [done|lia|lia|]. exists i, t1. by split_and!; [|lia|lia|].
Qed.

Lemma adapt_ptable_ok fuel n flags t j e0 :
  ends_at t j → 1 ≤ j < 2 ^ 31 → j < Z.of_nat (S fuel) → get_ptn t 0 = Ok e0 → start e0 ≠ NO_BLOCK → nth 1 flags 0 ≠ 0 →
  ∃ t', adapt_ptable (S fuel) n flags t = Ok t' ∧ grown n t t'.
Proof.
  intros He Hj Hf H0 Hne Hfl. unfold adapt_ptable. destruct (rename_apps_first fuel flags j t e0 He) as (i & t1 & -> & Hi & Hs); [lia|lia|done|done|done|].
  cbn [mbind res_bind]. pose proof (ends_same t t1 j Hs He) as He1. rewrite u32_small by lia.
  destruct (find_grow_ok (S fuel) t1 j (i - 1) He1) as (g & e & -> & Hg & Eg & Hl); [lia|lia|]. cbn [mbind res_bind]. rewrite Eg. cbn [mbind res_bind].
  eexists. split; [done|]. destruct (negb (start e =? NO_BLOCK)); [by apply grown_put|by apply same_grown].
Qed.

(** The partition table survives being adapted: if the shared table has the usual form,
    with an entry behind the last partition, update_ptable_apps_partitions stays inside the
    array and leaves every partition at its place; only the one that is to grow gets a
    new length, up to the end of the flash. *)
Theorem apps_partitions_kept lib num_blocks_ flags t j e0 :
  (∀ i, ptable_lookup lib t (bytes_of "FOTA") = Some i → (i < length (parts t))%nat) →
  ends_at t j → 1 ≤ j < 32 → get_ptn t 0 = Ok e0 → start e0 ≠ NO_BLOCK → nth 1 flags 0 ≠ 0 →
  ∃ t' flags', update_ptable_apps_partitions lib num_blocks_ flags t = Ok (t', flags') ∧ grown num_blocks_ t t'.
Proof.
  intros Hfota He Hj H0 Hne Hfl. unfold update_ptable_apps_partitions.
  assert (∃ fl, (match ptable_lookup lib t (bytes_of "FOTA") with
     | Some i => e ← get_ptn t (Z.of_nat i); Ok (if 0 <? length_ e then with_fota else flags) | None => Ok flags end) = Ok fl ∧ nth 1 fl 0 ≠ 0) as (fl & -> & Hf1).
  { destruct (ptable_lookup lib t _) as [i|]; [|by exists flags]. unfold get_ptn. rewrite (proj2 (Z.leb_le _ _)), Nat2Z.id by lia.
    destruct (lookup_lt_is_Some_2 (parts t) i (Hfota i eq_refl)) as [e ->]. cbn [deref mbind res_bind]. eexists. split; [done|]. by destruct (0 <? length_ e). }
  cbn [mbind res_bind]. destruct (adapt_ptable_ok MAX_PTABLE_PARTS num_blocks_ fl t j e0) as (t' & -> & Hg); [done|lia|unfold MAX_PTABLE_PARTS; lia|done|done|done|].
  eexists _, _. split; [done|exact Hg].
Qed.

(** ** Tables that are not as expected *)

(** smem_ptable_init trusts the number of entries: if it is larger than the 16 that there
    are and none of them is "0:APPS", it reads behind the table. *)
Lemma find_apps_overruns fuel : ∀ i t,
  length (sp_parts t) = 16%nat → 16 < sp_len t → 0 ≤ i ≤ 16 → (∀ p, p ∈ sp_parts t → c_string (sp_name p) ≠ bytes_of "0:APPS") →
  find_apps fuel i t = Fault.
Proof.
  induction fuel as [|fuel IH]; intros i t Hl Hn Hi Hp; cbn [find_apps]; rewrite (proj2 (Z.ltb_lt _ _)) by lia; cbn [negb]; [done|].
  destruct (sp_parts t !! Z.to_nat i) as [p|] eqn:E; [|done]. cbn [deref mbind res_bind].
  rewrite bool_decide_eq_false_2 by (apply Hp; by apply list_elem_of_lookup_2 in E). apply lookup_lt_Some in E. apply IH; try done; lia.
Qed.

(** An update that the cookie in the fota partition asks for beats the restart reason;
    without one the reason counts, once. *)
Theorem reboot_reason_once {D} `{FlashDevice D} find_ptn heap flags reason (d : D) :
  nth FOTA_PARTITION flags 0 ≠ 1 →
  check_reboot_mode find_ptn heap flags (reboot_device reason) d = Ok (reason, 0, d) ∧
  check_reboot_mode find_ptn heap flags 0 d = Ok (0, 0, d).
Proof. intros Hf. unfold check_reboot_mode, reboot_device. by rewrite (proj2 (Z.eqb_neq _ _)). Qed.

(** * A modem's table *)

Module SharedTable.
Definition entry (nm : string) (s z : Z) : list Z := memcpy_to (replicate 16 0) (bytes_of nm) ++ le_bytes 4 0 s ++ le_bytes 4 0 z ++ le_bytes 4 0 0.
Definition entries : list (list Z) :=
  [entry "0:SBL1" 0 4; entry "0:SBL2" 4 4; entry "0:RPM" 8 4; entry "0:EFS2" 12 20; entry "0:DSP1" 32 60; entry "0:DSP3" 92 20;
   entry "0:APPSBL" 112 6; entry "0:APPS" 118 64; entry "0:SYSTEM" 182 300; entry "0:USERDATA" 482 NO_BLOCK; entry "0:END" NO_BLOCK NO_BLOCK].
Definition table_bytes : list Z :=
  le_bytes 4 0 _SMEM_PTABLE_MAGIC_1 ++ le_bytes 4 0 _SMEM_PTABLE_MAGIC_2 ++ le_bytes 4 0 3 ++ le_bytes 4 0 11 ++ concat entries ++ replicate 140 0.
Definition smem_ : buffer :=
  replicate 352 0 ++ le_bytes 4 0 1 ++ le_bytes 4 0 8192 ++ le_bytes 4 0 464 ++ replicate 7828 0 ++ table_bytes ++ replicate 100 0.

(** A library that appends, as far as the table goes. *)
Definition simple_add (t : ptable) (nm : list Z) (s l fl ty pm : Z) : ptable :=
  mkPtable (<[Z.to_nat (count t) := mkPtentry (strlcpy_to (replicate 16 0) nm) s l fl ty pm]> (parts t)) (count t + 1).
Definition simple_lookup (t : ptable) (nm : list Z) : option nat := fst <$> list_find (λ e, c_string (ptn_name e) = nm) (parts t).
Definition simple : ptable_lib := mkPtableLib simple_add simple_lookup.
Definition blank : ptable := mkPtable (replicate 32 (mkPtentry (replicate 16 0) 0 0 0 0 0)) 0.

(** The names fastboot knows, and a last partition that fills a flash of 2048 blocks. *)
Example adapted :
  ('(t, flags) ← target_init_ptable simple smem_ 2048 (mkSmemPtable (0, 0) 0 0 []) blank;
   Ok ((λ e, (c_string (ptn_name e), start e, length_ e, ptn_type e)) <$> take 10 (parts t))) =
  Ok [(bytes_of "sbl1", 0, 4, 1); (bytes_of "sbl2", 4, 4, 1); (bytes_of "rpm", 8, 4, 1); (bytes_of "efs2", 12, 20, 1); (bytes_of "dsp1", 32, 60, 1);
      (bytes_of "dsp3", 92, 20, 1); (bytes_of "aboot", 112, 6, 1); (bytes_of "boot", 118, 64, 0); (bytes_of "system", 182, 300, 0);
      (bytes_of "userdata", 482, 1566, 0)].
Proof. vm_compute. reflexivity. Qed.
End SharedTable.
